(* ===== verification/_CoqProject ===== *)
-Q . S2P
Prelude.v
CString.v
Match.v
Rblib.v
Tools.v
Cidr.v
Rserv.v
Fault.v
Snprintf.v
Rsdb.v
Notices.v
Langs.v
World.v
Crypt.v
Umode.v
Lookup.v
ModeBuild.v
Channel.v
SimpleMode.v
ChanCmd.v
ChMode.v
Service.v
Conf.v
Client.v
Dispatch.v
Scommand.v
Message.v
Queries.v
Link.v
Net.v
Members.v
Index.v
Handlers.v
Joins.v
Modes.v
Clients.v
Exits.v
Commands.v
Replies.v
Release.v
Linkup.v
Requests.v
Rehash.v
Sample.v
Network.v
Access.v
Uplink.v
ChanServ.v
ChanAcl.v
ChanRegs.v
ChanCmds.v
Parting.v
ChanLife.v
ChanSafe.v
