(* ===== verification/Prelude.v ===== *)
(** * ratbox-services: a verification development

    ratbox-services is an IRC services daemon: it links to a network as a server,
    follows the network's users, servers and channels, and offers services
    (ChanServ and the like) to the users.  The development models the core that
    follows the network - the protocol, the clients, the channels and their modes -,
    the way of a user's message to a command of a service, with the limits and
    privileges on it, the registrations of channels with their access lists, and the
    text and address routines below, and proves that the daemon's picture of the
    network stays consistent, that access is given and taken by the rules and noted in
    the database, and that its routines compute what they are for.  Paths are relative to [src/]; the program is in [src/] and
    [include/] there.

    ** How the program works, and where each part is

    [parse_server()] ([src/io.c]) splits a line from the uplink into a source, a
    command and arguments; [handle_scommand()] ([src/scommand.c]) looks up the
    source among the clients ([find_client()]) and the command in a hash table and
    calls the handlers.  The handlers ([src/client.c], [src/channel.c],
    [src/c_mode.c]) change the store: clients with their user, server or service
    part, channels, memberships ([chmember]) that lie in the lists of both sides,
    and the name tables.  Lines go out through [sendto_server()], batches of mode
    changes through [src/modebuild.c].  Services take part through hooks
    ([src/hook.c]): functions called at fixed points of the handlers.  What users
    send to a service goes from [c_message()] ([src/c_message.c]) or [c_encap()] to
    [handle_service()] ([src/service.c]), which consults the operator blocks of the
    configuration ([src/conf.c]) and calls the function of the command.

    The model has one definition for a function of the sources, with its name
    where Rocq allows it, composed as there.  The files, in order:

    - [Prelude]: scopes, record update, machine integers ([wrapU], [wrapS]),
      tactics and hints, lemmas on lists and maps.
    - [CString]: C strings and the C library functions on them.
    - [Match] ([src/match.c]): character tables, [irccmp], [collapse], [match()].
    - [Rblib]: libratbox as an interface.
    - [Tools] ([src/tools.c]): durations, [get_temp_time], case conversion.
    - [Cidr] ([src/cidr.c]): [inet_pton4], [inet_pton6], [comp_with_mask],
      [match_ips], [match_cidr].
    - [Rserv] ([src/rserv.c]): [rebuild_params], [valid_servername], [valid_sid].
    - [Fault]: the monad of state, termination and memory faults, and its logic.
    - [Snprintf] ([src/snprintf.c]): [rs_vsnprintf], the formatter that SQL
      statements are built with.
    - [Rsdb] ([src/rsdb_sqlite3.c]): quoting, running and reading statements, and
      SQLite's reading of a string literal ([sqlite3/src/tokenize.c], [util.c]).
    - [Notices], [Langs] ([src/langs.c], [src/langs_format.c], [src/messages.c]): what
      the services say, and its translations, which are checked against the originals.
    - [World] ([include/client.h], [channel.h], [conf.h], [io.h]; [src/hook.c],
      output of [src/io.c]): the state [world], access to the heaps, hooks, lines
      sent.
    - [Crypt] ([src/crypt.c]): random passwords and salts.
    - [Umode], [Lookup], [Client] ([src/client.c]): user modes; tables of
      clients and unique ids; exits and the handlers of NICK, UID, QUIT, KILL,
      SERVER, SID and SQUIT.
    - [ModeBuild] ([src/modebuild.c]): the lines that announce mode changes.
    - [Channel], [ChanCmd] ([src/channel.c]): channels and memberships; the
      handlers of JOIN, SJOIN, PART, KICK, TOPIC and TB.
    - [SimpleMode], [ChMode] ([src/c_mode.c]): keys, bans and simple modes; full
      mode lines and the handlers of MODE, TMODE and BMASK.
    - [Service] ([src/service.c], [src/conf.c]): services come and go; references to
      operator blocks.
    - [Conf] ([src/conf.c], [src/newconf.c]): operator blocks, their search and what a
      rehash does to them; stored logins and their expiry; flags in words.
    - [Dispatch] ([src/service.c], [src/langs.c], [src/s_watchserv.c]): tables of
      commands, sorted, searched, merged and unmerged; [handle_service()].
    - [Message] ([src/c_message.c], [src/c_error.c], [src/scommand.c]): PRIVMSG with its
      CTCP requests, ENCAP and ERROR.
    - [Scommand] ([src/scommand.c], [src/io.c]): the command table, the dispatch and
      the splitting of a line.
    - [Queries] ([src/scommand.c], [src/conf.c]): the handlers of ADMIN, CAPAB, PASS,
      PING, PONG, TRACE, VERSION, TIME and WHOIS.
    - [Link] ([src/io.c]): the connection to the uplink: signing on, the loop over
      the lines read, the periodic check, the freeing of exited clients.
    - [Net], [Members], [Index]: the invariant, in its parts, and the operations
      that keep each; [Handlers], [Joins], [Modes], [Clients], [Exits], [Commands],
      [Replies], [Requests]: the handlers keep the whole of it; [Release], [Linkup],
      [Rehash]: so do the release of exited clients, the handshake and the sign-off,
      a rehash and the expiry of stored logins.
    - [Sample]: a network of two servers on which the definitions are evaluated.
    - [Network]: any line, any sequence of lines and of the other events, and what
      single commands do.
    - [Access]: who gets at the commands of a service.
    - [Uplink]: lines that crash the program, a connection that is refused and read on
      or goes on without its client, and the handshake that brings the services up.
    - [ChanServ] ([src/s_chanserv.c], [src/s_userserv.c], [src/email.c], [src/log.c]):
      registrations of channels, access lists and the commands that change them.
    - [ChanAcl]: the registry in the abstract and what a command may do to it, [acts].
    - [ChanRegs], [ChanCmds], [Parting], [ChanLife]: the invariant [regs_ok] of the
      registrations and [served], the states that commands run in; the commands on
      access lists; a service that leaves a channel; how registrations come and go.
    - [ChanSafe]: what holds of all these commands and of sequences of them.

    ** The model

    Stateful code is in [M world]: it returns ([Ok]), ends the process ([Die],
    [die()] of the sources) or faults ([Fault]).  A fault stands for what C
    leaves undefined: a null or dangling pointer, an access past an array, a
    string copied past the end of a buffer.  A heap is a finite map from
    addresses; a freed address is not in it, so use after free is a fault.  An
    intrusive list is the sequence of the addresses of its nodes; loops over it
    read the list again after each round, because the bodies change it
    ([foreach], [foreach_safe]).  Integers that can overflow are wrapped at their
    width.

    [wp m Q w] says that [m], run from [w], does not fault, and that [Q] holds if
    it returns; it may die, as the sources do on lines that break the protocol.
    That a function ends is part of it, because running out of fuel is a fault:
    [exit_from] gets one unit per client, more than a server can have servers
    behind it; the loops over texts ([sjoin_loop], [bmask_loop]) get the length of
    the text, of which each round uses at least one character; [foreach] stops
    with the list, and the proofs bound its length.  [match()] has its own bound in
    the source, [MATCH_MAX_CALLS], and the theorems say what follows from it.

    Parameters, gathered in the class [Sys] ([World]):
    - [RbLib]: libratbox, which the repository does not hold.  The class [RbSpec]
      states its documented behaviour where theorems need it; [rb_reference] is an
      implementation for which it is proved.
    - [Build] and [Modules]: limits set when the program is built, and the private
      state of the services' modules.
    - [Sqlite] ([Rsdb], not in [Sys]): a database and its answers to statements.
    - [link_up]: the answer of the network connection, and [hook_func]: the
      functions that services hook.  They are in [s_*.c], which is not modelled.
      [QuietHooks] ([Net]) and [HooksOk] ([Index]) state what the handlers rely on
      of them: a hook called in the middle of a change leaves the network alone, a
      hook called between changes keeps the invariant and the clients it was given.
    - [command_func], the functions of the services' commands, and [dcc_chat], which
      connects a user to the partyline.  [CommandsOk] ([Requests]) states what
      [handle_service()] relies on: they keep the invariant, the service and the user
      who asked.  [svc_notice] is the text of a message; [rb_crypt], in [RbLib], is the
      hash of passwords.

    - [ChanServ] (the class): where the data of the channel service and its database are
      in the private state of the modules, the numbers of [rand()], and the program that
      sends mail.  [EndHooks] ([Parting]) states of the functions called at the end of a
      channel that they leave the registrations alone; [FetchOk] ([ChanLife]) that the
      database answers two queries with one column.

    [Sample] proves [RbSpec], [QuietHooks], [HooksOk] and [CommandsOk] for a program
    without services ([quiet_sys]), [Book] of [ChanSafe] the others for a small registry.

    ** The theorems

    The invariant is [good] ([Handlers]): [net_inv] of [Index], which consists of
    [chan_inv] ([Members]: channels and memberships), [tables_ok] (the tables of
    clients), [tree_ok] (the servers) and [accounts_ok] (accounts and operators),
    and that no mode line is half done ([idle]).  It says: the channel table holds
    exactly the channels, under the hash of their names, and no two names are equal
    up to IRC case; the lists of a channel's users, of its operators and of the
    others have no duplicates and hold exactly the memberships that belong there,
    and so does a user's list of channels; services and channels list each other;
    a client is in exactly the buckets and lists that its name, id, kind and state
    call for; a user or server on the network is in the list of its uplink, which
    is a server on the network, and no server is behind itself; the list of
    operators holds those logged in, and a reference count covers every use.

    - Any line that satisfies [line_ok] (below), handled in a sound network, is handled
      without a fault and leaves a sound network, and so do sequences of such lines,
      rehashes, expiries, handshakes, sign-offs and releases
      ([Network.network_invariant]);
      lists of members never lose or double a user ([channel_users_split]);
      lookups find exactly what is there ([find_channel_correct],
      [find_client_correct], [scommand_lookup]).
    - Operations have the effect they are for: [exit_client_ends],
      [del_chmember_exact], [add_chmember_exact]; PART, JOIN 0 and QUIT refine the
      removal of pairs from the roster, the set of pairs of a channel and a user
      ([leaving_refines]); a lower timestamp takes a channel over, whatever
      the services hook ([sjoin_lower_ts]); the handshake brings up exactly the services
      that are switched on ([services_come_up]).
    - Access: no command runs that is closed to the user ([commands_guarded]); a
      flooder is not heard ([flooder_ignored]); OLOGIN and OLOGOUT ([ologin_exact],
      [ologin_undone]); a rehash refines the replacement of the blocks
      ([rehash_replaces_blocks]); merged tables of commands ([merged_commands_found],
      [unmerge_merged]).
    - Channel registrations: every command refines [acts] ([commands_refine_acts]); a
      channel always has one owner ([sessions_keep_owners]); nobody gives more than they
      have ([commands_do_not_escalate]); the database says what memory says
      ([sessions_mirror_table]).
    - Texts: translations take the arguments of the originals
      ([lang_fmt_check_exact], against the grammar [reads]; [notices_typed]).
    - Modes and lines: [chmode_roundtrip], [modebuild_lines],
      [parse_simple_mode_safe], [valid_ban_correct].
    - Statements for the database: [rs_vsnprintf_refines], against the relation
      [formats]; [quoted_value_read_back], that a quoted value stays in its literal;
      [rsdb_exec_runs].
    - Masks and addresses against declarative definitions ([match_sound],
      [match_complete], [match_cidr_correct], [inet_pton4_exact], [inet_pton6_safe]).
    - What goes wrong on some inputs, as theorems: [bmask_short_faults],
      [rs_vsnprintf_overruns], [logout_leaves_dangling], [stale_uplink_faults].

    The invariant of the network is proved for lines that satisfy [line_ok]: the
    text has no NUL inside, and the call it leads to satisfies [call_ok]: a BMASK has
    its four arguments (with fewer the handler
    faults, [bmask_short_faults]); UID, SID and SERVER come from a server, as the
    protocol has it; a WHOIS names a client that is there ([whois_unknown_faults]); a
    message to a service finds what start-up leaves behind ([requests_ok]: blocks that
    are in memory, which [logout_leaves_dangling] shows can fail, a watch service,
    help tables, masks of users), and a CTCP comes from a user.  [uplink_live] says
    that the link is established: the uplink has introduced itself and is on the
    network; before that, its SERVER is the step of the handshake.

    The theorems about registrations are for states that [served] describes: the
    network is sound, the service and the user are there, the registrations satisfy
    [regs_ok], and times and names have a length that statements have room for.  Every
    command leaves such a state.

    ** What is not modelled

    - STATS of [src/scommand.c], which counts the memory of the process and prints the
      configuration.
    - [add_service()] and the loading of help files in [src/service.c], [src/cache.c];
      single settings and server blocks of [src/conf.c] and [src/newconf.c].
    - The partyline: the tables of [src/ucommand.c] and its connections in [src/io.c].
    - Of the channel service: what it does on channels (OP, VOICE, INVITE, GETKEY, bans,
      topics, modes, the CLEAR commands), SET, the listings, its hooks and timed events,
      the partyline, and the loading of the database; lines for its log file.
    - The other services ([src/s_*.c]), on top of a database.  Hooks of services are
      [hook_func], the commands that [handle_service()] calls [command_func].
    - Sockets, the event loop, log files, the process that sends mail, [crypt()],
      directories, the lex and yacc parser of the configuration, and the libraries in
      [pcre/], [sqlite3/] and libratbox: input and output, generated or third-party code.
    - [src/dbhook.c] and the drivers of MySQL and PostgreSQL. *)

From Stdlib Require Export ZArith Lia Ascii String Bool.
From stdpp Require Export base list gmap strings pretty sorting.

(** ** Scopes

    [Z] is the type of every machine integer; its notations are the ones the
    files of the development use by default.  [rserv_scope] holds the notations
    of the development itself. *)
Declare Scope rserv_scope.
Delimit Scope rserv_scope with rserv.
#[global] Open Scope Z_scope.
#[global] Open Scope rserv_scope.

(** ** Record update

    [r <| f := v |>] is [r] with the field [f] replaced.  A record type takes
    part by declaring an eta expansion ([Eta]); the updater of a field is
    then built on demand by abstracting the field's projection out of it. *)
Class Eta (R : Type) := eta_expand : R → R.

Class FieldUpd {R E : Type} (f : R → E) := field_upd : (E → E) → R → R.
#[global] Arguments field_upd {R E} f {_} _ _ /.

Ltac build_field_upd f :=
  lazymatch type of f with
  | ?R → ?E =>
    let g := fresh "g" in let r := fresh "r" in
    refine (fun (g : E → E) (r : R) => _);
    let e := constr:(eta_expand r) in
    let e := eval hnf in e in
    lazymatch eval pattern (f r) in e with
    | ?h _ => let b := eval cbv beta in (h (g (f r))) in exact b
    end
  end.

#[export] Hint Extern 1 (FieldUpd ?f) => build_field_upd f : typeclass_instances.

Notation "r <| f := v |>" := (field_upd f (fun _ => v) r)
  (at level 1, left associativity, f at level 0, v at level 99) : rserv_scope.
Notation "r <| f ::= g |>" := (field_upd f g r)
  (at level 1, left associativity, f at level 0, g at level 99) : rserv_scope.

(** ** Machine integers

    Signed and unsigned integers of width [w], written out as the
    representatives that two's complement arithmetic gives. *)
Definition wrapU (w z : Z) : Z := z `mod` 2 ^ w.
Definition wrapS (w z : Z) : Z := (z + 2 ^ (w - 1)) `mod` 2 ^ w - 2 ^ (w - 1).

Definition uint32 (z : Z) : Z := wrapU 32 z.
Definition int32 (z : Z) : Z := wrapS 32 z.
Definition int64 (z : Z) : Z := wrapS 64 z.

Lemma wrapU_range w z : 0 ≤ w → 0 ≤ wrapU w z < 2 ^ w.
Proof. intros; apply Z.mod_pos_bound, Z.pow_pos_nonneg; lia. Qed.

Lemma wrapU_small w z : 0 ≤ z < 2 ^ w → wrapU w z = z.
Proof. apply Z.mod_small. Qed.

Lemma wrapS_range w z : 0 < w → - 2 ^ (w - 1) ≤ wrapS w z < 2 ^ (w - 1).
Proof.
  intros Hw; unfold wrapS.
  assert (2 ^ w = 2 * 2 ^ (w - 1)) as Hp
    by (rewrite <- Z.pow_succ_r by lia; f_equal; lia).
  pose proof (Z.mod_pos_bound (z + 2 ^ (w - 1)) (2 ^ w)). lia.
Qed.

Lemma wrapS_small w z : 0 < w → - 2 ^ (w - 1) ≤ z < 2 ^ (w - 1) → wrapS w z = z.
Proof.
  intros Hw Hz; unfold wrapS.
  assert (2 ^ w = 2 * 2 ^ (w - 1)) as Hp
    by (rewrite <- Z.pow_succ_r by lia; f_equal; lia).
  rewrite Z.mod_small; lia.
Qed.

Lemma uint32_range z : 0 ≤ uint32 z < 2 ^ 32.
Proof. apply wrapU_range; lia. Qed.
Lemma uint32_small z : 0 ≤ z < 2 ^ 32 → uint32 z = z.
Proof. apply wrapU_small. Qed.
Lemma int32_range z : - 2 ^ 31 ≤ int32 z < 2 ^ 31.
Proof. apply (wrapS_range 32); lia. Qed.
Lemma int32_small z : - 2 ^ 31 ≤ z < 2 ^ 31 → int32 z = z.
Proof. apply (wrapS_small 32); lia. Qed.
Lemma int64_range z : - 2 ^ 63 ≤ int64 z < 2 ^ 63.
Proof. apply (wrapS_range 64); lia. Qed.
Lemma int64_small z : - 2 ^ 63 ≤ z < 2 ^ 63 → int64 z = z.
Proof. apply (wrapS_small 64); lia. Qed.

(** Wrapping forgets multiples of the modulus, and nothing else. *)
Lemma wrapS_add w z k : 0 ≤ w → wrapS w (z + k * 2 ^ w) = wrapS w z.
Proof.
  intros Hw. unfold wrapS. replace (z + k * 2 ^ w + 2 ^ (w - 1))
    with (z + 2 ^ (w - 1) + k * 2 ^ w) by lia.
  rewrite Z.mod_add by (apply Z.pow_nonzero; lia). done.
Qed.

Lemma wrapS_eq w z : 0 ≤ w → ∃ k, wrapS w z = z + k * 2 ^ w.
Proof.
  intros Hw. exists (- ((z + 2 ^ (w - 1)) / 2 ^ w)). unfold wrapS.
  rewrite Z.mod_eq by (apply Z.pow_nonzero; lia). lia.
Qed.

Lemma int64_mul z k : int64 (int64 z * k) = int64 (z * k).
Proof.
  destruct (wrapS_eq 64 z ltac:(lia)) as [q E]. unfold int64 at 2. rewrite E.
  replace ((z + q * 2 ^ 64) * k) with (z * k + (q * k) * 2 ^ 64) by lia.
  by apply wrapS_add.
Qed.

Lemma int64_add z k : int64 (int64 z + k) = int64 (z + k).
Proof.
  destruct (wrapS_eq 64 z ltac:(lia)) as [q E]. unfold int64 at 2. rewrite E.
  replace (z + q * 2 ^ 64 + k) with (z + k + q * 2 ^ 64) by lia. by apply wrapS_add.
Qed.

(** ** Flag words

    [x & f], [x |= f] and [x &= ~f] on the integers that hold bit flags. *)
Definition has_flag (x f : Z) : bool := negb (Z.land x f =? 0).
Definition set_flag (x f : Z) : Z := Z.lor x f.
Definition clear_flag (x f : Z) : Z := Z.land x (Z.lnot f).

Lemma clear_flag_ldiff x f : clear_flag x f = Z.ldiff x f.
Proof. apply Z.bits_inj'; intros n Hn; unfold clear_flag.
  by rewrite Z.land_spec, Z.lnot_spec, Z.ldiff_spec by done.
Qed.

Lemma has_flag_spec x f :
  has_flag x f = true ↔ ∃ n, 0 ≤ n ∧ Z.testbit x n = true ∧ Z.testbit f n = true.
Proof.
  unfold has_flag; rewrite negb_true_iff, Z.eqb_neq; split.
  - intros Hne. destruct (Z.eq_dec (Z.land x f) 0) as [|_]; [done|].
    destruct (Z_lt_le_dec (Z.land x f) 0) as [Hneg|Hpos].
    + exists (Z.max (Z.log2 (Z.abs x)) (Z.log2 (Z.abs f)) + 1 +
              Z.max (Z.log2 (Z.pred (- x))) (Z.log2 (Z.pred (- f)))).
      apply Z.land_neg in Hneg as [Hx Hf].
      pose proof (Z.log2_nonneg (Z.abs x)). pose proof (Z.log2_nonneg (Z.pred (-x))).
      pose proof (Z.log2_nonneg (Z.pred (-f))).
      split; [lia|]. split; apply Z.bits_above_log2_neg; lia.
    + assert (0 < Z.land x f) as Hp by lia.
      exists (Z.log2 (Z.land x f)). split; [apply Z.log2_nonneg|].
      apply Z.bit_log2 in Hp. rewrite Z.land_spec in Hp.
      by apply andb_true_iff in Hp.
  - intros (n & Hn & Hx & Hf) Hz. apply (f_equal (fun z => Z.testbit z n)) in Hz.
    rewrite Z.land_spec, Hx, Hf, Z.bits_0 in Hz. done.
Qed.

Lemma has_flag_bit x n : 0 ≤ n → has_flag x (2 ^ n) = Z.testbit x n.
Proof.
  intros Hn. apply eq_true_iff_eq. rewrite has_flag_spec. split.
  - intros (m & Hm & Hx & Hp). rewrite Z.pow2_bits_eqb in Hp by done. by apply Z.eqb_eq in Hp as <-.
  - intros H. exists n. by rewrite Z.pow2_bits_true.
Qed.

Lemma has_flag_set_same x f : f ≠ 0 → has_flag (set_flag x f) f = true.
Proof.
  intros Hf. unfold has_flag, set_flag.
  replace (Z.land (Z.lor x f) f) with f; [by apply negb_true_iff, Z.eqb_neq|].
  apply Z.bits_inj'; intros n Hn. rewrite Z.land_spec, Z.lor_spec.
  by destruct (Z.testbit x n), (Z.testbit f n).
Qed.

Lemma has_flag_clear_same x f : has_flag (clear_flag x f) f = false.
Proof.
  unfold has_flag, clear_flag. apply negb_false_iff, Z.eqb_eq, Z.bits_inj'.
  intros n Hn. rewrite !Z.land_spec, Z.lnot_spec, Z.bits_0 by done.
  by destruct (Z.testbit x n), (Z.testbit f n).
Qed.

(** Setting or clearing [g] leaves the flags disjoint from it alone. *)
Lemma has_flag_set_other x f g : Z.land f g = 0 → has_flag (set_flag x g) f = has_flag x f.
Proof.
  intros H. unfold has_flag, set_flag. do 2 f_equal. apply Z.bits_inj'; intros n Hn.
  apply (f_equal (fun z => Z.testbit z n)) in H.
  rewrite Z.land_spec, Z.bits_0 in H. rewrite !Z.land_spec, Z.lor_spec.
  by destruct (Z.testbit x n), (Z.testbit f n), (Z.testbit g n).
Qed.

Lemma has_flag_clear_other x f g : Z.land f g = 0 → has_flag (clear_flag x g) f = has_flag x f.
Proof.
  intros H. unfold has_flag, clear_flag. do 2 f_equal. apply Z.bits_inj'; intros n Hn.
  apply (f_equal (fun z => Z.testbit z n)) in H.
  rewrite Z.land_spec, Z.bits_0 in H. rewrite !Z.land_spec, Z.lnot_spec by done.
  by destruct (Z.testbit x n), (Z.testbit f n), (Z.testbit g n).
Qed.

(** ** Lists *)

(** Take one occurrence of [x] out of a list. *)
Fixpoint remove_first {A} `{EqDecision A} (x : A) (l : list A) : list A :=
  match l with
  | [] => []
  | y :: l' => if decide (x = y) then l' else y :: remove_first x l'
  end.

Lemma elem_of_remove_first {A} `{EqDecision A} (x y : A) (l : list A) :
  NoDup l → y ∈ remove_first x l ↔ y ∈ l ∧ y ≠ x.
Proof.
  induction l as [|z l IH]; simpl; intros Hnd; [set_solver|].
  apply NoDup_cons in Hnd as [Hz Hnd]. specialize (IH Hnd).
  case_decide; subst; set_solver.
Qed.

Lemma NoDup_remove_first {A} `{EqDecision A} (x : A) (l : list A) :
  NoDup l → NoDup (remove_first x l).
Proof.
  induction l as [|z l IH]; simpl; intros Hnd; [done|].
  apply NoDup_cons in Hnd as [Hz Hnd]. specialize (IH Hnd).
  case_decide; [done|]. apply NoDup_cons. split; [|done].
  rewrite elem_of_remove_first by done. tauto.
Qed.

Lemma remove_first_subseteq {A} `{EqDecision A} (x : A) (l : list A) :
  remove_first x l ⊆ l.
Proof.
  induction l as [|z l IH]; simpl; [done|]. case_decide; set_solver.
Qed.

Lemma remove_first_notin {A} `{EqDecision A} (x : A) (l : list A) :
  x ∉ l → remove_first x l = l.
Proof.
  induction l as [|z l IH]; simpl; intros Hx; [done|].
  rewrite not_elem_of_cons in Hx. case_decide; [tauto|]. f_equal. tauto.
Qed.

Lemma length_remove_first {A} `{EqDecision A} (x : A) (l : list A) :
  x ∈ l → length l = S (length (remove_first x l)).
Proof.
  induction l as [|z l IH]; simpl; intros Hx; [by apply not_elem_of_nil in Hx|].
  apply elem_of_cons in Hx. case_decide; [done|]. simpl. f_equal. apply IH.
  destruct Hx; [done|done].
Qed.

(** ** Tactics *)

(** Case analysis on the conditions of the goal, outermost first. *)
Ltac split_guard :=
  match goal with
  | |- context [if ?b then _ else _] => destruct b eqn:?
  | |- context [match ?x with _ => _ end] => destruct x eqn:?
  end.

(** Boolean hypotheses in propositional form. *)
Ltac bool_simpl :=
  repeat match goal with
  | H : _ && _ = true |- _ => apply andb_true_iff in H as [? ?]
  | H : _ || _ = false |- _ => apply orb_false_iff in H as [? ?]
  | H : negb _ = true |- _ => apply negb_true_iff in H
  | H : negb _ = false |- _ => apply negb_false_iff in H
  | H : (_ =? _)%Z = true |- _ => apply Z.eqb_eq in H
  | H : (_ =? _)%Z = false |- _ => apply Z.eqb_neq in H
  | H : (_ <? _)%Z = true |- _ => apply Z.ltb_lt in H
  | H : (_ <? _)%Z = false |- _ => apply Z.ltb_ge in H
  | H : (_ <=? _)%Z = true |- _ => apply Z.leb_le in H
  | H : (_ <=? _)%Z = false |- _ => apply Z.leb_gt in H
  | H : bool_decide _ = true |- _ => apply bool_decide_eq_true in H
  | H : bool_decide _ = false |- _ => apply bool_decide_eq_false in H
  end.

Lemma filter_ext_in {A} (P Q : A → Prop) `{!∀ x, Decision (P x), !∀ x, Decision (Q x)} (l : list A) :
  (∀ x, x ∈ l → P x ↔ Q x) → filter P l = filter Q l.
Proof.
  induction l as [|x l IH]; intros Hl; [done|]. rewrite !filter_cons, IH by (intros y Hy; apply Hl; by right).
  assert (P x ↔ Q x) as Hx by (apply Hl; by left). repeat case_decide; tauto.
Qed.
