(* ===== verification/CString.v ===== *)
(** * C strings and the C library functions the sources call

    A [char *] is the Rocq string of the characters before its terminator;
    a pointer that may be NULL is an [option string].  Reading at or beyond
    the end gives the terminator [NUL], so the loops of the sources, which all
    stop on a zero byte, read the same characters here as there. *)

From S2P Require Import Prelude.

Definition NUL : ascii := "000"%char.

(** The value of an [unsigned char], and the character of a value. *)
Definition code (c : ascii) : Z := Z.of_N (N_of_ascii c).
Definition char_of (z : Z) : ascii := ascii_of_N (Z.to_N z).

(** [*p] for a pointer to the start of [s], and [p[i]]. *)
Definition deref (s : string) : ascii :=
  match s with String c _ => c | EmptyString => NUL end.
Definition tail (s : string) : string :=
  match s with String _ s' => s' | EmptyString => EmptyString end.
Definition char_at (s : string) (i : nat) : ascii :=
  match String.get i s with Some c => c | None => NUL end.

(** The macro [EmptyString(x)]: NULL or a string that starts with the terminator. *)
Definition is_empty (x : option string) : bool :=
  match x with Some s => Ascii.eqb (deref s) NUL | None => true end.

Notation chars := list_ascii_of_string.
Notation of_chars := string_of_list_ascii.

Fixpoint no_nul (s : string) : bool :=
  match s with
  | EmptyString => true
  | String c s' => negb (Ascii.eqb c NUL) && no_nul s'
  end.

Definition strlen (s : string) : nat := String.length s.

(** The first [n] characters, as the bounded copies keep them. *)
Fixpoint str_take (n : nat) (s : string) : string :=
  match n, s with
  | S n', String c s' => String c (str_take n' s')
  | _, _ => EmptyString
  end.
Fixpoint str_drop (n : nat) (s : string) : string :=
  match n, s with
  | S n', String _ s' => str_drop n' s'
  | _, _ => s
  end.

(** [strchr]: what precedes the first [c], and what follows it. *)
Fixpoint strchr (s : string) (c : ascii) : option (string * string) :=
  match s with
  | EmptyString => None
  | String a s' =>
    if Ascii.eqb a c then Some (EmptyString, s')
    else match strchr s' c with
         | Some (p, q) => Some (String a p, q)
         | None => None
         end
  end.

(** [strrchr]: the same around the last [c]. *)
Fixpoint strrchr (s : string) (c : ascii) : option (string * string) :=
  match s with
  | EmptyString => None
  | String a s' =>
    match strrchr s' c with
    | Some (p, q) => Some (String a p, q)
    | None => if Ascii.eqb a c then Some (EmptyString, s') else None
    end
  end.

Definition has_char (s : string) (c : ascii) : bool :=
  match strchr s c with Some _ => true | None => false end.

(** [tolower] and [strcasecmp] in the C locale. *)
Definition tolower (c : ascii) : ascii :=
  if (65 <=? code c) && (code c <=? 90) then char_of (code c + 32) else c.

Fixpoint strcasecmp (s t : string) : Z :=
  match s, t with
  | EmptyString, EmptyString => 0
  | EmptyString, String b _ => - code (tolower b)
  | String a _, EmptyString => code (tolower a)
  | String a s', String b t' =>
    let d := code (tolower a) - code (tolower b) in
    if d =? 0 then strcasecmp s' t' else d
  end.

Definition strncasecmp (s t : string) (n : nat) : Z := strcasecmp (str_take n s) (str_take n t).

Fixpoint strcmp (s t : string) : Z :=
  match s, t with
  | EmptyString, EmptyString => 0
  | EmptyString, String b _ => - code b
  | String a _, EmptyString => code a
  | String a s', String b t' =>
    let d := code a - code b in
    if d =? 0 then strcmp s' t' else d
  end.

Definition strncmp (s t : string) (n : nat) : Z := strcmp (str_take n s) (str_take n t).

(** [strtol] in base 10: leading blanks, a sign, digits; the value saturates at
    the ends of a 64-bit [long].  The rest of the string is what [endptr] sees. *)
Definition is_space (c : ascii) : bool :=
  (code c =? 32) || ((9 <=? code c) && (code c <=? 13)).
Definition is_digit (c : ascii) : bool := (48 <=? code c) && (code c <=? 57).

Fixpoint skip_spaces (s : string) : string :=
  match s with
  | String c s' => if is_space c then skip_spaces s' else s
  | EmptyString => s
  end.

Fixpoint digits_value (acc : Z) (s : string) : Z * string :=
  match s with
  | String c s' =>
    if is_digit c then digits_value (10 * acc + (code c - 48)) s' else (acc, s)
  | EmptyString => (acc, s)
  end.

Definition clamp64 (z : Z) : Z := Z.max (- 2 ^ 63) (Z.min (2 ^ 63 - 1) z).

Definition strtol (s : string) : Z * string :=
  let t := skip_spaces s in
  let '(neg, u) := match t with
                   | String c t' => if Ascii.eqb c "-" then (true, t')
                                    else if Ascii.eqb c "+" then (false, t')
                                    else (false, t)
                   | EmptyString => (false, t)
                   end in
  if is_digit (deref u) then
    let '(v, rest) := digits_value 0 u in
    (clamp64 (if neg : bool then - v else v), rest)
  else (0, s).

Definition atol (s : string) : Z := fst (strtol s).
Definition atoi (s : string) : Z := int32 (atol s).

(** Decimal conversions of [printf]. *)
Definition print_z (z : Z) : string := pretty z.
#[global] Arguments print_z : simpl never.
Definition print_02 (z : Z) : string :=
  if (0 <=? z) && (z <? 10) then ("0" ++ pretty z)%string else pretty z.

(** ** Lemmas *)

Lemma char_of_code c : char_of (code c) = c.
Proof.
  unfold char_of, code. by rewrite N2Z.id, ascii_N_embedding.
Qed.

Lemma code_range c : 0 ≤ code c < 256.
Proof. unfold code. pose proof (N_ascii_bounded c). lia. Qed.

Lemma code_char_of z : 0 ≤ z < 256 → code (char_of z) = z.
Proof.
  intros Hz. unfold code, char_of. rewrite N_ascii_embedding by lia. lia.
Qed.

Lemma code_inj a b : code a = code b → a = b.
Proof. intros H. by rewrite <- (char_of_code a), <- (char_of_code b), H. Qed.

Lemma code_NUL c : code c = 0 ↔ c = NUL.
Proof. split; [intros H; by apply code_inj|by intros ->]. Qed.

Lemma length_chars s : length (chars s) = String.length s.
Proof. induction s as [|c s IH]; simpl; [done|by rewrite IH]. Qed.

Lemma of_chars_chars s : of_chars (chars s) = s.
Proof. apply string_of_list_ascii_of_string. Qed.

Lemma chars_of_chars l : chars (of_chars l) = l.
Proof. apply list_ascii_of_string_of_list_ascii. Qed.

Lemma chars_inj s t : chars s = chars t → s = t.
Proof. intros H. by rewrite <- (of_chars_chars s), <- (of_chars_chars t), H. Qed.

Lemma chars_app s t : chars (s ++ t) = (chars s ++ chars t)%list.
Proof. induction s as [|c s IH]; simpl; [done|by rewrite IH]. Qed.

Lemma char_at_lookup s i : char_at s i = default NUL (chars s !! i).
Proof.
  unfold char_at. revert i; induction s as [|c s IH]; intros [|i]; simpl; try done.
Qed.

Lemma chars_str_take n s : chars (str_take n s) = take n (chars s).
Proof. revert s; induction n as [|n IH]; intros [|c s]; simpl; [done..|]. by rewrite IH. Qed.

Lemma chars_str_drop n s : chars (str_drop n s) = drop n (chars s).
Proof. revert s; induction n as [|n IH]; intros [|c s]; simpl; [done..|]. by rewrite IH. Qed.

Lemma length_str_take n s : String.length (str_take n s) = (n `min` String.length s)%nat.
Proof. rewrite <- !length_chars, chars_str_take, length_take. done. Qed.

Lemma no_nul_Forall s : no_nul s = true ↔ Forall (fun c => c ≠ NUL) (chars s).
Proof.
  induction s as [|c s IH]; simpl; [by split|].
  rewrite andb_true_iff, Forall_cons, IH, negb_true_iff, Ascii.eqb_neq. done.
Qed.

Lemma no_nul_str_take n s : no_nul s = true → no_nul (str_take n s) = true.
Proof. rewrite !no_nul_Forall, chars_str_take. apply Forall_take. Qed.

Lemma str_take_ge n s : (String.length s ≤ n)%nat → str_take n s = s.
Proof.
  intros H. apply chars_inj. rewrite chars_str_take, take_ge; [done|].
  by rewrite length_chars.
Qed.

Lemma is_empty_Some s : no_nul s = true → is_empty (Some s) = true ↔ s = ""%string.
Proof.
  destruct s as [|c s]; simpl; [done|]. rewrite andb_true_iff, negb_true_iff.
  intros [-> _]. done.
Qed.

Lemma strcmp_eq s t : no_nul s = true → no_nul t = true → strcmp s t = 0 ↔ s = t.
Proof.
  revert t; induction s as [|a s IH]; intros [|b t]; simpl;
    rewrite ?andb_true_iff, ?negb_true_iff, ?Ascii.eqb_neq; intros Hs Ht.
  - done.
  - split; [|done]. intros H. exfalso. apply (proj1 Ht), code_NUL. lia.
  - split; [|done]. intros H. exfalso. by apply (proj1 Hs), code_NUL.
  - destruct (code a - code b =? 0) eqn:E; [|split; [lia|intros [= -> ->]; lia]].
    rewrite IH by tauto. apply Z.eqb_eq in E.
    assert (a = b) as -> by (apply code_inj; lia). split; congruence.
Qed.

Lemma chars_cons c s : chars (String c s) = c :: chars s.
Proof. done. Qed.

Lemma strchr_app p q c : c ∉ chars p → strchr (p ++ String c q) c = Some (p, q).
Proof.
  induction p as [|a p IH]; simpl; [by rewrite Ascii.eqb_refl|].
  rewrite not_elem_of_cons. intros [Hca Hp].
  destruct (Ascii.eqb_spec a c); [congruence|]. by rewrite IH.
Qed.

Lemma strchr_inv s c p q :
  strchr s c = Some (p, q) → s = (p ++ String c q)%string ∧ c ∉ chars p.
Proof.
  revert p; induction s as [|a s IH]; intros p; simpl; [done|].
  destruct (Ascii.eqb_spec a c) as [->|Hac].
  { intros [= <- <-]. split; [done|]. apply not_elem_of_nil. }
  destruct (strchr s c) as [[p' q']|] eqn:E; [|done]. intros [= <- <-].
  destruct (IH _ eq_refl) as [-> Hp']. split; [done|]. simpl.
  rewrite not_elem_of_cons. split; congruence.
Qed.

Lemma strchr_None s c : strchr s c = None ↔ c ∉ chars s.
Proof.
  induction s as [|a s IH]; simpl; [split; [intros _; apply not_elem_of_nil|done]|].
  simpl. rewrite not_elem_of_cons.
  destruct (Ascii.eqb_spec a c) as [->|Hac]; [split; [done|tauto]|].
  destruct (strchr s c) as [[p q]|]; split; try done; try tauto.
  - intros [_ H]. by apply IH in H.
  - intros _. split; [congruence|]. by apply IH.
Qed.

(** A property of characters that can be computed is checked on all of them. *)
Definition all_chars : list ascii := char_of <$> seqZ 0 256.

Lemma forall_chars (P : ascii → bool) : forallb P all_chars = true → ∀ c, P c = true.
Proof.
  rewrite forallb_forall. intros H c. apply H, list_elem_of_In.
  apply list_elem_of_fmap. exists (code c). split; [by rewrite char_of_code|].
  apply elem_of_seqZ. pose proof (code_range c). lia.
Qed.

Lemma forall_chars_eq {A} `{EqDecision A} (f g : ascii → A) :
  forallb (fun c => bool_decide (f c = g c)) all_chars = true → ∀ c, f c = g c.
Proof.
  intros H c. apply (forall_chars (fun c => bool_decide (f c = g c))) with (c := c) in H.
  by apply bool_decide_eq_true in H.
Qed.

(** ** Decimal numbers: reading what was printed *)

Lemma pretty_N_char_digit x :
  (x < 10)%N → is_digit (pretty_N_char x) = true ∧ code (pretty_N_char x) - 48 = Z.of_N x.
Proof.
  intros Hx.
  assert (x = 0 ∨ x = 1 ∨ x = 2 ∨ x = 3 ∨ x = 4 ∨ x = 5 ∨ x = 6 ∨ x = 7 ∨ x = 8 ∨ x = 9)%N
    as Hc by lia.
  repeat destruct Hc as [->|Hc]; [by split..|]. subst. by split.
Qed.

Lemma pretty_N_go_app x s t : pretty_N_go x (s ++ t) = (pretty_N_go x s ++ t)%string.
Proof.
  revert s. induction (N.lt_wf_0 x) as [x _ IH]; intros s.
  destruct (decide (x = 0)%N) as [->|Hx]; [by rewrite !pretty_N_go_0|].
  rewrite !(pretty_N_go_step x) by lia. apply (IH _ (N.div_lt x 10 ltac:(lia) eq_refl) (String _ s)).
Qed.

Lemma pretty_N_go_digits x s acc :
  ∃ k, 0 ≤ k ∧ digits_value acc (pretty_N_go x s) = digits_value (acc * 10 ^ k + Z.of_N x) s.
Proof.
  revert s acc. induction (N.lt_wf_0 x) as [x _ IH]; intros s acc.
  destruct (decide (x = 0)%N) as [->|Hx].
  { exists 0. rewrite pretty_N_go_0. split; [done|]. f_equal. lia. }
  rewrite pretty_N_go_step by lia.
  destruct (IH _ (N.div_lt x 10 ltac:(lia) eq_refl) (String (pretty_N_char (x `mod` 10)) s) acc)
    as (k & Hk & ->). exists (k + 1). split; [lia|]. simpl.
  destruct (pretty_N_char_digit (x `mod` 10)) as [-> ->]; [by apply N.mod_lt|].
  f_equal. rewrite Z.pow_add_r, N2Z.inj_mod, N2Z.inj_div by lia.
  pose proof (Z.div_mod (Z.of_N x) 10 ltac:(done)). simpl (Z.of_N 10). lia.
Qed.

Lemma pretty_N_go_head x s :
  (0 < x)%N ∨ is_digit (deref s) = true → is_digit (deref (pretty_N_go x s)) = true.
Proof.
  revert s. induction (N.lt_wf_0 x) as [x _ IH]; intros s Hx.
  destruct (decide (x = 0)%N) as [->|Hx0]; [rewrite pretty_N_go_0; by destruct Hx|].
  rewrite pretty_N_go_step by lia. apply IH; [by apply N.div_lt; [lia|]|]. right. simpl.
  apply pretty_N_char_digit. by apply N.mod_lt.
Qed.

Lemma pretty_pos p : pretty (Z.pos p) = pretty_N_go (N.pos p) "".
Proof. done. Qed.

(** The digits of a printed number, in front of any text. *)
Lemma digits_value_print z s :
  0 ≤ z → digits_value 0 (print_z z ++ s) = digits_value z s ∧
          is_digit (deref (print_z z ++ s)) = true.
Proof.
  intros Hz. destruct z as [|p|p]; [done| |lia].
  unfold print_z. rewrite pretty_pos, <- pretty_N_go_app. change ("" ++ s)%string with s.
  split; [|apply pretty_N_go_head; by left].
  destruct (pretty_N_go_digits (N.pos p) s 0) as (k & _ & ->). f_equal.
Qed.

Lemma digits_value_stop v s : is_digit (deref s) = false → digits_value v s = (v, s).
Proof. destruct s as [|c s]; simpl; [done|]. by intros ->. Qed.

Lemma is_digit_facts c :
  is_digit c = true → is_space c = false ∧ Ascii.eqb c "-" = false ∧ Ascii.eqb c "+" = false.
Proof.
  intros H.
  assert (implb (is_digit c) (negb (is_space c) && negb (Ascii.eqb c "-")
            && negb (Ascii.eqb c "+")) = true) as E.
  { clear H. revert c. apply forall_chars. vm_compute. reflexivity. }
  rewrite H in E. simpl in E. by bool_simpl.
Qed.

Lemma clamp64_small z : - 2 ^ 63 ≤ z < 2 ^ 63 → clamp64 z = z.
Proof. unfold clamp64. lia. Qed.

Lemma strtol_print z s :
  - 2 ^ 63 ≤ z < 2 ^ 63 → is_digit (deref s) = false → strtol (print_z z ++ s) = (z, s).
Proof.
  intros Hz Hs. destruct (Z_lt_le_dec z 0) as [Hneg|Hpos].
  - destruct z as [|p|p]; [lia..|].
    change (print_z (Z.neg p) ++ s)%string
      with (String "-"%char (print_z (Z.pos p) ++ s)%string).
    destruct (digits_value_print (Z.pos p) s ltac:(lia)) as [Hd Hh].
    set (u := (print_z (Z.pos p) ++ s)%string) in *. unfold strtol. simpl. rewrite Hh, Hd, digits_value_stop by done.
    by rewrite clamp64_small by lia.
  - destruct (digits_value_print z s Hpos) as [Hd Hh]. unfold strtol.
    destruct (print_z z ++ s)%string as [|c u] eqn:E; [done|].
    simpl in Hh. destruct (is_digit_facts c Hh) as (Hsp & Hm & Hp). simpl skip_spaces.
    rewrite Hsp, Hm, Hp. simpl deref. rewrite Hh, Hd, digits_value_stop by done.
    by rewrite clamp64_small.
Qed.

Lemma str_app_nil_r s : (s ++ "")%string = s.
Proof. induction s as [|c s IH]; [done|exact (f_equal (String c) IH)]. Qed.

Lemma atol_print z : - 2 ^ 63 ≤ z < 2 ^ 63 → atol (print_z z) = z.
Proof.
  intros Hz. unfold atol. rewrite <- (str_app_nil_r (print_z z)).
  by rewrite strtol_print.
Qed.

(** ** Concatenation *)
Lemma str_app_cons c a b : (String c a ++ b)%string = String c (a ++ b)%string.
Proof. done. Qed.

Lemma str_app_nil_l a : ("" ++ a)%string = a.
Proof. done. Qed.

Lemma str_app_assoc (a b c : string) : ((a ++ b) ++ c = a ++ (b ++ c))%string.
Proof. induction a as [|x a IH]; [done|]. by rewrite !str_app_cons, IH. Qed.

Lemma strlen_app a b : strlen (a ++ b) = (strlen a + strlen b)%nat.
Proof. induction a as [|x a IH]; [done|]. rewrite str_app_cons. simpl. by rewrite IH. Qed.

Lemma str_take_app a b : str_take (strlen a) (a ++ b) = a.
Proof. induction a as [|x a IH]; [by destruct b|]. rewrite str_app_cons. simpl. by rewrite IH. Qed.

Lemma no_nul_app a b : no_nul (a ++ b) = no_nul a && no_nul b.
Proof. induction a as [|x a IH]; [done|]. rewrite str_app_cons. simpl. by rewrite IH, andb_assoc. Qed.

Create HintDb str.
#[export] Hint Rewrite str_app_cons str_app_nil_l str_app_nil_r str_app_assoc strlen_app : str.

(** ** The fields of a text between the occurrences of a character *)
Fixpoint split_on (c : ascii) (s : string) : list string :=
  match s with
  | EmptyString => [""%string]
  | String a s' =>
    if Ascii.eqb a c then ""%string :: split_on c s'
    else match split_on c s' with
         | h :: t => String a h :: t
         | [] => [String a ""]
         end
  end.

Lemma split_on_cons c s : ∃ h t, split_on c s = h :: t.
Proof.
  destruct s as [|a s]; simpl; [eauto|]. destruct (Ascii.eqb a c); [eauto|].
  destruct (split_on c s); eauto.
Qed.

Lemma split_on_none c s : c ∉ chars s → split_on c s = [s].
Proof.
  induction s as [|a s IH]; simpl; [done|]. rewrite not_elem_of_cons. intros [Hca Hs].
  destruct (Ascii.eqb_spec a c); [congruence|]. by rewrite IH.
Qed.

Lemma split_on_app c a b : c ∉ chars a → split_on c (a ++ String c b) = a :: split_on c b.
Proof.
  induction a as [|x a IH]; simpl; [by rewrite Ascii.eqb_refl|].
  rewrite not_elem_of_cons. intros [Hcx Ha].
  destruct (Ascii.eqb_spec x c); [congruence|]. by rewrite IH.
Qed.

(** A printed number consists of digits, with a sign in front of a negative one. *)
Lemma pretty_N_go_chars x s :
  Forall (fun c => is_digit c = true) (chars s) →
  Forall (fun c => is_digit c = true) (chars (pretty_N_go x s)).
Proof.
  revert s. induction (N.lt_wf_0 x) as [x _ IH]; intros s Hs.
  destruct (decide (x = 0)%N) as [->|Hx]; [by rewrite pretty_N_go_0|].
  rewrite pretty_N_go_step by lia. apply IH; [by apply N.div_lt; [lia|]|].
  rewrite chars_cons. constructor; [|done]. apply pretty_N_char_digit. by apply N.mod_lt.
Qed.

Lemma print_z_chars z : 0 ≤ z → Forall (fun c => is_digit c = true) (chars (print_z z)).
Proof.
  intros Hz. destruct z as [|p|p]; [by repeat constructor| |lia].
  unfold print_z. rewrite pretty_pos. apply pretty_N_go_chars. constructor.
Qed.

Lemma print_z_no_char z c : 0 ≤ z → is_digit c = false → c ∉ chars (print_z z).
Proof.
  intros Hz Hc Hin. pose proof (print_z_chars z Hz) as Hd. rewrite Forall_forall in Hd.
  specialize (Hd c Hin). congruence.
Qed.

(** Negative numbers too: a sign before the digits. *)
Lemma print_z_plain z c : is_digit c = false → c ≠ "-"%char → c ∉ chars (print_z z).
Proof.
  intros Hc Hm. destruct (Z_lt_le_dec z 0) as [Hz|Hz]; [|by apply print_z_no_char].
  destruct z as [|p|p]; [lia..|]. change (print_z (Z.neg p)) with (String "-"%char (print_z (Z.pos p))).
  rewrite chars_cons, not_elem_of_cons. split; [done|]. by apply print_z_no_char.
Qed.

Lemma print_z_head z : deref (print_z z) ≠ NUL.
Proof.
  destruct (Z_lt_le_dec z 0) as [Hz|Hz]; [destruct z as [|p|p]; [lia..|done]|].
  destruct (digits_value_print z "" Hz) as [_ Hd]. rewrite str_app_nil_r in Hd. intros E. by rewrite E in Hd.
Qed.
