(* ===== verification/Match.v ===== *)
(** * Character tables, string comparison and mask matching (src/match.c)

    [ToLowerTab], [ToUpperTab] and [CharAttrs] are the tables of the source;
    [irccmp] and [ircncmp] are the case-insensitive comparisons every name table
    of the program uses; [collapse] squeezes runs of stars in a mask, and
    [match_mask] is [match()], the backtracking matcher with its bound of
    [MATCH_MAX_CALLS] rounds.  The matcher is proved against the declarative
    relation [glob]. *)

From S2P Require Import Prelude CString.

(** ** Tables *)
Definition ToLowerTab : list Z := [
   0; 1; 2; 3; 4; 5; 6; 7; 8; 9; 10; 11; 12; 13; 14; 15;
   16; 17; 18; 19; 20; 21; 22; 23; 24; 25; 26; 27; 28; 29; 30; 31;
   32; 33; 34; 35; 36; 37; 38; 39; 40; 41; 42; 43; 44; 45; 46; 47;
   48; 49; 50; 51; 52; 53; 54; 55; 56; 57; 58; 59; 60; 61; 62; 63;
   64; 97; 98; 99; 100; 101; 102; 103; 104; 105; 106; 107; 108; 109; 110; 111;
   112; 113; 114; 115; 116; 117; 118; 119; 120; 121; 122; 123; 124; 125; 126; 95;
   96; 97; 98; 99; 100; 101; 102; 103; 104; 105; 106; 107; 108; 109; 110; 111;
   112; 113; 114; 115; 116; 117; 118; 119; 120; 121; 122; 123; 124; 125; 126; 127;
   128; 129; 130; 131; 132; 133; 134; 135; 136; 137; 138; 139; 140; 141; 142; 143;
   144; 145; 146; 147; 148; 149; 150; 151; 152; 153; 154; 155; 156; 157; 158; 159;
   160; 161; 162; 163; 164; 165; 166; 167; 168; 169; 170; 171; 172; 173; 174; 175;
   176; 177; 178; 179; 180; 181; 182; 183; 184; 185; 186; 187; 188; 189; 190; 191;
   192; 193; 194; 195; 196; 197; 198; 199; 200; 201; 202; 203; 204; 205; 206; 207;
   208; 209; 210; 211; 212; 213; 214; 215; 216; 217; 218; 219; 220; 221; 222; 223;
   224; 225; 226; 227; 228; 229; 230; 231; 232; 233; 234; 235; 236; 237; 238; 239;
   240; 241; 242; 243; 244; 245; 246; 247; 248; 249; 250; 251; 252; 253; 254; 255 ].

Definition ToUpperTab : list Z := [
   0; 1; 2; 3; 4; 5; 6; 7; 8; 9; 10; 11; 12; 13; 14; 15;
   16; 17; 18; 19; 20; 21; 22; 23; 24; 25; 26; 27; 28; 29; 30; 31;
   32; 33; 34; 35; 36; 37; 38; 39; 40; 41; 42; 43; 44; 45; 46; 47;
   48; 49; 50; 51; 52; 53; 54; 55; 56; 57; 58; 59; 60; 61; 62; 63;
   64; 65; 66; 67; 68; 69; 70; 71; 72; 73; 74; 75; 76; 77; 78; 79;
   80; 81; 82; 83; 84; 85; 86; 87; 88; 89; 90; 91; 92; 93; 94; 95;
   96; 65; 66; 67; 68; 69; 70; 71; 72; 73; 74; 75; 76; 77; 78; 79;
   80; 81; 82; 83; 84; 85; 86; 87; 88; 89; 90; 91; 92; 93; 94; 127;
   128; 129; 130; 131; 132; 133; 134; 135; 136; 137; 138; 139; 140; 141; 142; 143;
   144; 145; 146; 147; 148; 149; 150; 151; 152; 153; 154; 155; 156; 157; 158; 159;
   160; 161; 162; 163; 164; 165; 166; 167; 168; 169; 170; 171; 172; 173; 174; 175;
   176; 177; 178; 179; 180; 181; 182; 183; 184; 185; 186; 187; 188; 189; 190; 191;
   192; 193; 194; 195; 196; 197; 198; 199; 200; 201; 202; 203; 204; 205; 206; 207;
   208; 209; 210; 211; 212; 213; 214; 215; 216; 217; 218; 219; 220; 221; 222; 223;
   224; 225; 226; 227; 228; 229; 230; 231; 232; 233; 234; 235; 236; 237; 238; 239;
   240; 241; 242; 243; 244; 245; 246; 247; 248; 249; 250; 251; 252; 253; 254; 255 ].

Definition ToLower (c : ascii) : ascii := char_of (nth (Z.to_nat (code c)) ToLowerTab 0).
Definition ToUpper (c : ascii) : ascii := char_of (nth (Z.to_nat (code c)) ToUpperTab 0).

Definition PRINT_C : Z := 0x001.
Definition CNTRL_C : Z := 0x002.
Definition ALPHA_C : Z := 0x004.
Definition LETTER_C : Z := 0x008.
Definition DIGIT_C : Z := 0x010.
Definition SPACE_C : Z := 0x020.
Definition NICK_C : Z := 0x040.
Definition SERV_C : Z := 0x080.
Definition CHAN_C : Z := 0x100.
Definition CHANPFX_C : Z := 0x200.
Definition BAN_C : Z := 0x400.
Definition NONEOS_C : Z := 0x1000.
Definition EOL_C : Z := 0x4000.

(** A run of [n] equal entries of the attribute table. *)
Definition entries (n : nat) (fs : list Z) : list Z := replicate n (foldr Z.lor 0 fs).

Definition CharAttrs : list Z :=
  entries 1 [CNTRL_C] ++ (* 0 *)
  entries 6 [CNTRL_C; CHAN_C; NONEOS_C] ++ (* 1 *)
  entries 1 [CNTRL_C; NONEOS_C] ++ (* 7 *)
  entries 1 [CNTRL_C; CHAN_C; NONEOS_C] ++ (* 8 *)
  entries 1 [CNTRL_C; SPACE_C; CHAN_C; NONEOS_C] ++ (* 9 *)
  entries 1 [CNTRL_C; SPACE_C; CHAN_C; NONEOS_C; EOL_C] ++ (* 10 *)
  entries 2 [CNTRL_C; SPACE_C; CHAN_C; NONEOS_C] ++ (* 11 *)
  entries 1 [CNTRL_C; SPACE_C; CHAN_C; NONEOS_C; EOL_C] ++ (* 13 *)
  entries 18 [CNTRL_C; CHAN_C; NONEOS_C] ++ (* 14 *)
  entries 1 [PRINT_C; SPACE_C] ++ (* 32 *)
  entries 1 [PRINT_C; CHAN_C; BAN_C; NONEOS_C] ++ (* 33 *)
  entries 1 [PRINT_C; CHAN_C; NONEOS_C] ++ (* 34 *)
  entries 1 [PRINT_C; CHANPFX_C; CHAN_C; NONEOS_C] ++ (* 35 *)
  entries 2 [PRINT_C; CHAN_C; NONEOS_C] ++ (* 36 *)
  entries 1 [PRINT_C; CHANPFX_C; CHAN_C; NONEOS_C] ++ (* 38 *)
  entries 3 [PRINT_C; CHAN_C; NONEOS_C] ++ (* 39 *)
  entries 1 [PRINT_C; CHAN_C; BAN_C; NONEOS_C; SERV_C] ++ (* 42 *)
  entries 1 [PRINT_C; CHAN_C; NONEOS_C] ++ (* 43 *)
  entries 1 [PRINT_C; NONEOS_C] ++ (* 44 *)
  entries 1 [PRINT_C; NICK_C; CHAN_C; BAN_C; NONEOS_C] ++ (* 45 *)
  entries 1 [PRINT_C; CHAN_C; BAN_C; NONEOS_C; SERV_C] ++ (* 46 *)
  entries 1 [PRINT_C; CHAN_C; BAN_C; NONEOS_C] ++ (* 47 *)
  entries 10 [PRINT_C; DIGIT_C; NICK_C; CHAN_C; BAN_C; NONEOS_C] ++ (* 48 *)
  entries 1 [PRINT_C; CHAN_C; BAN_C; NONEOS_C] ++ (* 58 *)
  entries 4 [PRINT_C; CHAN_C; NONEOS_C] ++ (* 59 *)
  entries 2 [PRINT_C; CHAN_C; BAN_C; NONEOS_C] ++ (* 63 *)
  entries 26 [PRINT_C; ALPHA_C; LETTER_C; NICK_C; CHAN_C; BAN_C; NONEOS_C] ++ (* 65 *)
  entries 4 [PRINT_C; ALPHA_C; NICK_C; CHAN_C; BAN_C; NONEOS_C] ++ (* 91 *)
  entries 2 [PRINT_C; NICK_C; CHAN_C; BAN_C; NONEOS_C] ++ (* 95 *)
  entries 26 [PRINT_C; ALPHA_C; LETTER_C; NICK_C; CHAN_C; BAN_C; NONEOS_C] ++ (* 97 *)
  entries 3 [PRINT_C; ALPHA_C; NICK_C; CHAN_C; BAN_C; NONEOS_C] ++ (* 123 *)
  entries 1 [PRINT_C; ALPHA_C; CHAN_C; BAN_C; NONEOS_C] ++ (* 126 *)
  entries 129 [CHAN_C; NONEOS_C]. (* 127 *)

Definition attr (c : ascii) : Z := nth (Z.to_nat (code c)) CharAttrs 0.
Definition IsDigit (c : ascii) : bool := has_flag (attr c) DIGIT_C.
Definition IsAlpha (c : ascii) : bool := has_flag (attr c) ALPHA_C.
Definition IsLetter (c : ascii) : bool := has_flag (attr c) LETTER_C.
Definition IsNickChar (c : ascii) : bool := has_flag (attr c) NICK_C.
Definition IsServChar (c : ascii) : bool := has_flag (attr c) (Z.lor NICK_C SERV_C).
Definition IsChanChar (c : ascii) : bool := has_flag (attr c) CHAN_C.
Definition IsChanPrefix (c : ascii) : bool := has_flag (attr c) CHANPFX_C.
Definition IsBanChar (c : ascii) : bool := has_flag (attr c) BAN_C.

(** ** irccmp, ircncmp, collapse *)

Fixpoint irccmp (s1 s2 : string) : Z :=
  let res := code (ToUpper (deref s1)) - code (ToUpper (deref s2)) in
  if res =? 0 then
    match s1 with
    | EmptyString => 0
    | String c s1' => if Ascii.eqb c NUL then 0 else irccmp s1' (tail s2)
    end
  else res.

(** [n] is decremented before it is tested, so the loop is entered once for any
    [n]; the recursion is on [fuel], one unit per round. *)
Fixpoint ircncmp_loop (fuel : nat) (s1 s2 : string) (n : Z) : Z :=
  let res := code (ToUpper (deref s1)) - code (ToUpper (deref s2)) in
  match fuel with
  | O => res
  | S fuel' =>
    if res =? 0 then
      let s1' := tail s1 in
      let s2' := tail s2 in
      let n' := int32 (n - 1) in
      if (n' =? 0) || (Ascii.eqb (deref s1') NUL && Ascii.eqb (deref s2') NUL)
      then 0 else ircncmp_loop fuel' s1' s2' n'
    else res
  end.
Definition ircncmp (s1 s2 : string) (n : Z) : Z :=
  ircncmp_loop (S (String.length s1 + String.length s2)) s1 s2 n.

(** [f & 1] of the source: the previous character was a star. *)
Fixpoint collapse_loop (f : bool) (p : string) : string :=
  match p with
  | EmptyString => EmptyString
  | String c p' =>
    if Ascii.eqb c "*" then
      if negb f then String "*" (collapse_loop true p') else collapse_loop true p'
    else String c (collapse_loop false p')
  end.
Definition collapse (pattern : option string) : option string :=
  match pattern with
  | None => None
  | Some p => Some (collapse_loop false p)
  end.

(** ** match *)

Definition MATCH_MAX_CALLS : nat := 512.

(** The locals of [match()]: [m], [n], [ma] and [na] as offsets into the mask
    and the name, and [wild]. *)
Record mstate := MState { st_m : nat; st_n : nat; st_ma : nat; st_na : nat; st_wild : bool }.

(** The loop that moves [m] over a run of stars, in at most [fuel] steps. *)
Fixpoint skip_stars (fuel : nat) (mask : string) (m : nat) : nat :=
  match fuel with
  | O => m
  | S fuel' => if Ascii.eqb (char_at mask m) "*" then skip_stars fuel' mask (S m) else m
  end.

(** The loop that moves [m] back while it is past the start and on a question mark. *)
Fixpoint back_over (mask : string) (m : nat) : nat :=
  match m with
  | O => O
  | S m' => if Ascii.eqb (char_at mask m) "?" then back_over mask m' else m
  end.

(** The comparison that ends every round; [inl] is a [return]. *)
Definition match_compare (mask name : string) (s : mstate) : Z + mstate :=
  let cm := char_at mask (st_m s) in
  let cn := char_at name (st_n s) in
  if negb (Ascii.eqb (ToLower cm) (ToLower cn)) && negb (Ascii.eqb cm "?") then
    if negb (st_wild s) then inl 0
    else inr (MState (st_ma s) (S (st_na s)) (st_ma s) (S (st_na s)) true)
  else
    inr (MState (if Ascii.eqb cm NUL then st_m s else S (st_m s))
                (if Ascii.eqb cn NUL then st_n s else S (st_n s))
                (st_ma s) (st_na s) (st_wild s)).

(** The start of a round: a star is skipped and becomes the point to return to. *)
Definition match_star (mask : string) (s : mstate) : mstate :=
  if Ascii.eqb (char_at mask (st_m s)) "*" then
    let m := skip_stars (strlen mask) mask (st_m s) in
    MState m (st_n s) m (st_n s) true
  else s.

Definition match_round (mask name : string) (s0 : mstate) : Z + mstate :=
  let s := match_star mask s0 in
  if Ascii.eqb (char_at mask (st_m s)) NUL then
    if Ascii.eqb (char_at name (st_n s)) NUL then inl 1
    else
      let b := back_over mask (st_m s - 1) in
      if Ascii.eqb (char_at mask b) "*" && (0 <? b)%nat then inl 1
      else if negb (st_wild s) then inl 0
      else match_compare mask name
             (MState (st_ma s) (S (st_na s)) (st_ma s) (S (st_na s)) true)
  else if Ascii.eqb (char_at name (st_n s)) NUL then
    let m := skip_stars (strlen mask) mask (st_m s) in
    inl (if Ascii.eqb (char_at mask m) NUL then 1 else 0)
  else match_compare mask name s.

Fixpoint match_loop (calls : nat) (mask name : string) (s : mstate) : Z :=
  match calls with
  | O => 0
  | S calls' =>
    match match_round mask name s with
    | inl r => r
    | inr s' => match_loop calls' mask name s'
    end
  end.

Definition match_start : mstate := MState 0 0 0 0 false.

Definition match_mask (mask name : option string) : Z :=
  if is_empty mask || is_empty name then 0
  else match mask, name with
       | Some ma, Some na => match_loop MATCH_MAX_CALLS ma na match_start
       | _, _ => 0
       end.

(** ** Specification of masks

    [glob m n]: the mask [m] covers the name [n].  A star absorbs any number of
    characters, a question mark one character, and any other mask character one
    character equal to it up to case. *)
Definition char_match (a b : ascii) : Prop := ToLower a = ToLower b ∨ a = "?"%char.

Inductive glob : list ascii → list ascii → Prop :=
| glob_nil : glob [] []
| glob_star m n k : glob m (drop k n) → glob ("*"%char :: m) n
| glob_char a m b n : a ≠ "*"%char → char_match a b → glob m n → glob (a :: m) (b :: n).

(** ** The case tables *)

Ltac all_ascii c := revert c; apply forall_chars_eq; vm_compute; reflexivity.

Lemma ToLower_ToUpper c : ToLower (ToUpper c) = ToLower c.
Proof. all_ascii c. Qed.
Lemma ToUpper_ToLower c : ToUpper (ToLower c) = ToUpper c.
Proof. all_ascii c. Qed.
Lemma ToLower_idemp c : ToLower (ToLower c) = ToLower c.
Proof. all_ascii c. Qed.
Lemma ToUpper_idemp c : ToUpper (ToUpper c) = ToUpper c.
Proof. all_ascii c. Qed.

Lemma ToUpper_eq_iff a b : ToUpper a = ToUpper b ↔ ToLower a = ToLower b.
Proof.
  split; intros H.
  - by rewrite <- (ToLower_ToUpper a), H, ToLower_ToUpper.
  - by rewrite <- (ToUpper_ToLower a), H, ToUpper_ToLower.
Qed.

Lemma ToLower_NUL c : ToLower c = NUL ↔ c = NUL.
Proof.
  assert (bool_decide (ToLower c = NUL) = bool_decide (c = NUL)) as H by all_ascii c.
  by rewrite <- (bool_decide_eq_true (ToLower c = NUL)), H, bool_decide_eq_true.
Qed.

Lemma ToUpper_NUL c : ToUpper c = NUL ↔ c = NUL.
Proof.
  rewrite <- (ToLower_NUL c), <- (ToLower_NUL (ToUpper c)), ToLower_ToUpper. done.
Qed.

Lemma ToLower_NUL_eq : ToLower NUL = NUL.
Proof. by apply ToLower_NUL. Qed.

#[global] Opaque ToLower ToUpper.

Definition lower_chars (s : string) : list ascii := ToLower <$> chars s.

(** [irccmp] is an equality test up to the lower-case image of its arguments. *)
Lemma irccmp_lower s t :
  no_nul s = true → no_nul t = true → irccmp s t = 0 ↔ lower_chars s = lower_chars t.
Proof.
  unfold lower_chars. revert t; induction s as [|a s IH]; intros t Hs Ht.
  - simpl. destruct t as [|b t]; simpl; [done|].
    simpl in Ht. apply andb_true_iff in Ht as [Hb _].
    apply negb_true_iff, Ascii.eqb_neq in Hb. change (code (ToUpper NUL)) with 0.
    destruct (0 - code (ToUpper b) =? 0) eqn:E; [|split; [lia|done]].
    apply Z.eqb_eq in E. exfalso. apply Hb, ToUpper_NUL, code_NUL. lia.
  - simpl in Hs. apply andb_true_iff in Hs as [Ha Hs].
    apply negb_true_iff, Ascii.eqb_neq in Ha.
    destruct t as [|b t]; simpl.
    { change (code (ToUpper NUL)) with 0.
      destruct (code (ToUpper a) - 0 =? 0) eqn:E; [|split; [lia|done]].
      apply Z.eqb_eq in E. exfalso. apply Ha, ToUpper_NUL, code_NUL. lia. }
    simpl in Ht. apply andb_true_iff in Ht as [Hb Ht].
    destruct (code (ToUpper a) - code (ToUpper b) =? 0) eqn:E.
    + apply Z.eqb_eq in E. assert (ToUpper a = ToUpper b) as Eu by (apply code_inj; lia).
      pose proof (proj1 (ToUpper_eq_iff a b) Eu) as El. rewrite (proj2 (Ascii.eqb_neq _ _) Ha), IH by done.
      rewrite El. split; intros H; [f_equal; exact H|by injection H].
    + apply Z.eqb_neq in E. split; [lia|]. intros [= El _].
      apply (proj2 (ToUpper_eq_iff a b)) in El. rewrite El in E. lia.
Qed.

Lemma irccmp_refl s : irccmp s s = 0.
Proof.
  induction s as [|c s IH]; [done|]. cbn [irccmp deref tail]. rewrite Z.sub_diag. cbn [Z.eqb]. by destruct (Ascii.eqb c NUL).
Qed.

(** Equality in that sense does not depend on the order of the names. *)
Lemma irccmp_sym s t : irccmp s t = 0 → irccmp t s = 0.
Proof.
  revert t. induction s as [|a s IH]; intros t; cbn [irccmp deref tail].
  - destruct (_ =? 0) eqn:E; [|intros H; rewrite H in E; done]. intros _. apply Z.eqb_eq in E.
    destruct t as [|b t]; [done|]. cbn [irccmp deref tail] in *. rewrite (proj2 (Z.eqb_eq _ _)) by lia.
    assert (ToUpper b = ToUpper NUL) as Eu by (apply code_inj; lia).
    assert (b = NUL) as -> by (apply ToUpper_NUL, code_NUL; rewrite Eu; done). done.
  - destruct (_ =? 0) eqn:E; [|intros H; rewrite H in E; done]. apply Z.eqb_eq in E.
    assert (ToUpper a = ToUpper (deref t)) as Eu by (apply code_inj; lia).
    destruct (Ascii.eqb a NUL) eqn:Ea.
    + apply Ascii.eqb_eq in Ea as ->. intros _. destruct t as [|b t]; cbn [irccmp deref tail] in *; [done|].
      rewrite (proj2 (Z.eqb_eq _ _)) by lia.
      assert (b = NUL) as -> by (apply ToUpper_NUL, code_NUL; rewrite <- Eu; done). done.
    + destruct t as [|b t]; cbn [irccmp deref tail] in *; rewrite (proj2 (Z.eqb_eq _ _)) by lia; [done|].
      intros H. apply IH in H. by destruct (Ascii.eqb b NUL).
Qed.

(** ** Masks and segments *)

Lemma glob_nil_inv n : glob [] n → n = [].
Proof. by inversion 1. Qed.

Lemma glob_char_inv a m n :
  glob (a :: m) n → a ≠ "*"%char →
  ∃ b n', n = b :: n' ∧ char_match a b ∧ glob m n'.
Proof. inversion 1; subst; [done|]. eauto. Qed.

Lemma glob_star_inv m n : glob ("*"%char :: m) n → ∃ k, glob m (drop k n).
Proof. inversion 1; subst; [eauto|done]. Qed.

Definition no_star (seg : list ascii) : Prop := Forall (fun c => c ≠ "*"%char) seg.

Lemma glob_seg seg s m n :
  no_star seg → Forall2 char_match seg s → glob m n → glob (seg ++ m) (s ++ n).
Proof.
  intros Hns H. revert Hns. induction H; intros Hns Hg; simpl; [done|].
  apply Forall_cons in Hns as [? ?]. constructor; auto.
Qed.

Lemma glob_seg_inv seg m n :
  no_star seg → glob (seg ++ m) n →
  ∃ s n', n = s ++ n' ∧ Forall2 char_match seg s ∧ glob m n'.
Proof.
  revert n; induction seg as [|a seg IH]; simpl; intros n Hns Hg.
  - exists [], n. auto.
  - apply Forall_cons in Hns as [Ha Hns].
    apply glob_char_inv in Hg as (b & n' & -> & Hab & Hg); [|done].
    destruct (IH _ Hns Hg) as (s & n'' & -> & Hs & Hg').
    exists (b :: s), n''. auto.
Qed.

Lemma glob_stars_inv j m n :
  glob (replicate j "*"%char ++ m) n → ∃ k, glob m (drop k n).
Proof.
  revert n; induction j as [|j IH]; simpl; intros n Hg.
  - exists 0%nat. by rewrite drop_0.
  - apply glob_star_inv in Hg as [k Hg]. apply IH in Hg as [k' Hg].
    rewrite drop_drop in Hg. eauto.
Qed.

Lemma glob_stars j m n k :
  (0 < j)%nat → glob m (drop k n) → glob (replicate j "*"%char ++ m) n.
Proof.
  intros Hj Hg. destruct j as [|j]; [lia|]. simpl. apply (glob_star _ _ k). clear Hj.
  induction j as [|j IH]; simpl; [done|]. apply (glob_star _ _ 0). by rewrite drop_0.
Qed.

(** ** The loops over the mask *)

Lemma char_at_drop s i c r : drop i (chars s) = c :: r → char_at s i = c.
Proof.
  intros H. rewrite char_at_lookup, <- (Nat.add_0_r i), <- lookup_drop, H. done.
Qed.

Lemma char_at_end s i : (String.length s ≤ i)%nat → char_at s i = NUL.
Proof.
  intros H. rewrite char_at_lookup, lookup_ge_None_2; [done|]. by rewrite length_chars.
Qed.

Lemma char_at_inside s i :
  no_nul s = true → (i < String.length s)%nat →
  ∃ r, drop i (chars s) = char_at s i :: r ∧ r = drop (S i) (chars s) ∧ char_at s i ≠ NUL.
Proof.
  intros Hs Hi. rewrite <- length_chars in Hi.
  destruct (lookup_lt_is_Some_2 _ _ Hi) as [c Hc].
  exists (drop (S i) (chars s)). rewrite char_at_lookup, Hc; simpl.
  split; [by apply drop_S|]. split; [done|].
  apply no_nul_Forall in Hs. rewrite Forall_lookup in Hs. eauto.
Qed.

Lemma char_at_NUL s i :
  no_nul s = true → char_at s i = NUL ↔ (String.length s ≤ i)%nat.
Proof.
  intros Hs. split; [|apply char_at_end]. intros H.
  destruct (le_lt_dec (String.length s) i) as [|Hlt]; [done|].
  destruct (char_at_inside s i Hs Hlt) as (_ & _ & _ & ?). done.
Qed.

Lemma skip_stars_spec fuel mask m :
  no_nul mask = true →
  (m ≤ String.length mask)%nat → (String.length mask ≤ m + fuel)%nat →
  let m' := skip_stars fuel mask m in
  (m ≤ m' ≤ String.length mask)%nat ∧
  drop m (chars mask) = replicate (m' - m) "*"%char ++ drop m' (chars mask) ∧
  char_at mask m' ≠ "*"%char.
Proof.
  intros Hn. revert m; induction fuel as [|fuel IH]; intros m Hm Hf; simpl.
  - rewrite Nat.sub_diag. split; [lia|]. split; [done|].
    rewrite char_at_end by lia. done.
  - destruct (Ascii.eqb_spec (char_at mask m) "*") as [E|E].
    + assert (m < String.length mask)%nat as Hlt.
      { destruct (le_lt_dec (String.length mask) m); [|done].
        rewrite char_at_end in E by done. done. }
      destruct (IH (S m)) as (Hr & Hd & Hc); [lia..|].
      split; [lia|]. split; [|done].
      destruct (char_at_inside mask m Hn Hlt) as (r & Hdr & -> & _).
      rewrite Hdr, E, Hd.
      replace (skip_stars fuel mask (S m) - m)%nat
        with (S (skip_stars fuel mask (S m) - S m)) by lia. done.
    + rewrite Nat.sub_diag. split; [lia|]. split; [done|]. done.
Qed.

Lemma back_over_spec mask m :
  let b := back_over mask m in
  (b ≤ m)%nat ∧ (∀ i, (b < i ≤ m)%nat → char_at mask i = "?"%char).
Proof.
  induction m as [|m IH]; simpl; [split; [lia|intros; lia]|].
  destruct (Ascii.eqb_spec (char_at mask (S m)) "?") as [E|E].
  - destruct IH as [Hle Hq]. split; [lia|]. intros i Hi.
    destruct (decide (i = S m)) as [->|]; [done|]. apply Hq. lia.
  - split; [lia|]. intros; lia.
Qed.

(** ** The matcher *)
Section matcher.
Context (mask name : string) (Hmask : no_nul mask = true) (Hname : no_nul name = true).

Notation M := (chars mask).
Notation N := (chars name).
Notation lm := (String.length mask).
Notation ln := (String.length name).

(** The invariant of a round: the part of the mask after the last star is
    matched up to [m] by the part of the name after [na] up to [n]; the mask
    covers the name exactly if its part after that star covers some suffix of
    the name that starts at [na] or later. *)
Record minv (s : mstate) : Prop := MInv {
  inv_seg : ∃ seg ns,
    drop (st_ma s) M = seg ++ drop (st_m s) M ∧ drop (st_na s) N = ns ++ drop (st_n s) N ∧
    Forall2 char_match seg ns ∧ no_star seg ∧
    st_m s = (st_ma s + length seg)%nat ∧ st_n s = (st_na s + length ns)%nat;
  inv_m : (st_m s ≤ lm)%nat;
  inv_n : (st_n s ≤ ln)%nat;
  inv_start : st_wild s = false → st_ma s = 0%nat ∧ st_na s = 0%nat;
  inv_star : st_wild s = true →
    (0 < st_ma s)%nat ∧ char_at mask (st_ma s - 1) = "*"%char ∧
    char_at mask (st_ma s) ≠ "*"%char;
  inv_sound k : (st_na s ≤ k)%nat → (st_wild s = false → k = 0%nat) →
    glob (drop (st_ma s) M) (drop k N) → glob M N;
  inv_complete : glob M N → ∃ k,
    (st_na s ≤ k)%nat ∧ (st_wild s = false → k = 0%nat) ∧ (k ≤ ln)%nat ∧
    glob (drop (st_ma s) M) (drop k N)
}.

Definition rounds_left (s : mstate) : nat :=
  ((ln + 1 - st_na s) * (lm + 2) + (lm + 1 - st_m s))%nat.

Lemma minv_start : minv match_start.
Proof.
  constructor; simpl; rewrite ?drop_0; try lia; try done.
  - exists [], []. simpl. split_and!; first [done | constructor | lia].
  - intros k _ Hk. rewrite Hk by done. by rewrite drop_0.
  - intros Hg. exists 0%nat. rewrite drop_0. split_and!; [done|done|lia|done].
Qed.

(** What is left to match decides whether the last star can start at [na]. *)
Lemma minv_here s :
  minv s → glob (drop (st_ma s) M) (drop (st_na s) N) ↔ glob (drop (st_m s) M) (drop (st_n s) N).
Proof.
  intros H. destruct (inv_seg _ H) as (seg & ns & Em & En & Hseg & Hns & Hm & Hn).
  rewrite Em, En. split; [|by apply glob_seg].
  intros Hg. apply glob_seg_inv in Hg as (s1 & n1 & E & Hs1 & Hg); [|done].
  apply app_inj_1 in E as [_ ->]; [done|].
  by rewrite <- (Forall2_length _ _ _ Hseg), <- (Forall2_length _ _ _ Hs1).
Qed.

(** Suffixes of the name too short for what the mask still needs do not match. *)
Lemma minv_later s k :
  minv s → (st_na s ≤ k ≤ ln)%nat → glob (drop (st_ma s) M) (drop k N) →
  (k + (st_m s - st_ma s) ≤ ln)%nat ∧
  glob (drop (st_m s) M) (drop (k + (st_m s - st_ma s)) N).
Proof.
  intros H Hk. destruct (inv_seg _ H) as (seg & ns & Em & En & Hseg & Hns & Hm & Hn).
  rewrite Em. intros Hg. apply glob_seg_inv in Hg as (s1 & n1 & E & Hs1 & Hg); [|done].
  apply Forall2_length in Hs1.
  replace (st_m s - st_ma s)%nat with (length seg) by lia.
  pose proof (f_equal length E) as El. rewrite length_drop, length_app, length_chars in El.
  split; [lia|]. rewrite <- drop_drop, E, Hs1, drop_app_length. done.
Qed.

Lemma minv_match_star s :
  minv s → minv (match_star mask s) ∧
  char_at mask (st_m (match_star mask s)) ≠ "*"%char ∧
  (rounds_left (match_star mask s) ≤ rounds_left s)%nat.
Proof.
  intros H. unfold match_star.
  destruct (Ascii.eqb_spec (char_at mask (st_m s)) "*") as [E|E]; [|done].
  destruct (skip_stars_spec (strlen mask) mask (st_m s) Hmask) as (Hr & Hd & Hc);
    [apply (inv_m _ H)|unfold strlen; lia|].
  set (m' := skip_stars (strlen mask) mask (st_m s)) in *.
  pose proof (inv_n _ H) as Hn.
  destruct (inv_seg _ H) as (seg & ns & _ & _ & Hseg & _ & Hm1 & Hn1).
  apply Forall2_length in Hseg.
  assert (st_m s < m')%nat as Hlt.
  { destruct (decide (m' = st_m s)) as [Em|]; [congruence|lia]. }
  split; [|split; [done|]].
  - constructor; simpl; try done; try lia.
    + exists [], []. simpl. split_and!; first [done | constructor | lia].
    + intros _. split; [lia|]. split; [|done].
      apply (char_at_drop mask (m' - 1) _ (drop m' M)).
      replace (m' - 1)%nat with (st_m s + (m' - 1 - st_m s))%nat by lia.
      rewrite <- drop_drop, Hd, drop_app, length_replicate, drop_replicate.
      replace (m' - st_m s - (m' - 1 - st_m s))%nat with 1%nat by lia.
      replace (m' - 1 - st_m s - (m' - st_m s))%nat with 0%nat by lia. done.
    + intros k Hk _ Hg. apply (inv_sound _ H (st_na s)); [lia|intros W; apply (inv_start _ H W)|].
      apply (minv_here s H). rewrite Hd.
      apply (glob_stars _ _ _ (k - st_n s)); [lia|].
      rewrite drop_drop. replace (st_n s + (k - st_n s))%nat with k by lia. done.
    + intros Hg. destruct (inv_complete _ H Hg) as (k & Hk & _ & Hkl & Hg').
      apply (minv_later s k H) in Hg' as [Hl Hg']; [|done].
      rewrite Hd in Hg'. apply glob_stars_inv in Hg' as [j Hg'].
      rewrite drop_drop in Hg'.
      exists ((k + (st_m s - st_ma s) + j) `min` ln)%nat. split_and!; [lia|done|lia|].
      destruct (decide (k + (st_m s - st_ma s) + j ≤ ln)%nat).
      { by rewrite Nat.min_l by lia. }
      rewrite Nat.min_r by lia.
      rewrite (drop_ge N) in Hg' by (rewrite length_chars; lia).
      rewrite (drop_ge N) by (rewrite length_chars; lia). done.
  - unfold rounds_left; simpl. nia.
Qed.

(** The name cannot start at [na] after the last star: try the next position. *)
Lemma minv_rewind s :
  minv s → st_wild s = true → (st_na s < ln)%nat →
  ¬ glob (drop (st_ma s) M) (drop (st_na s) N) →
  minv (MState (st_ma s) (S (st_na s)) (st_ma s) (S (st_na s)) true).
Proof.
  intros H Hw Hna Hno. destruct (inv_seg _ H) as (seg & ns & _ & _ & _ & _ & Hm & _).
  pose proof (inv_m _ H) as Hml.
  constructor; simpl; try lia; try done.
  - exists [], []. simpl. split_and!; first [done | constructor | lia].
  - intros _. by apply (inv_star _ H).
  - intros k Hk _. apply (inv_sound _ H); [lia|congruence].
  - intros Hg. destruct (inv_complete _ H Hg) as (k & Hk & _ & Hkl & Hg').
    exists k. split_and!; [|congruence|done|done].
    destruct (decide (k = st_na s)) as [->|]; [done|lia].
Qed.

(** A state that cannot continue here has no match unless a star was seen. *)
Lemma minv_fail s :
  minv s → st_wild s = false → ¬ glob (drop (st_m s) M) (drop (st_n s) N) → ¬ glob M N.
Proof.
  intros H Hw Hno Hg. destruct (inv_complete _ H Hg) as (k & _ & Hk & _ & Hg').
  rewrite (Hk Hw) in Hg'. apply Hno, (minv_here s H).
  destruct (inv_start _ H Hw) as [_ ->]. done.
Qed.

Definition round_ok (budget : nat) (r : Z + mstate) : Prop :=
  match r with
  | inl v => (v = 1 ∧ glob M N) ∨ (v = 0 ∧ ¬ glob M N)
  | inr s => minv s ∧ (rounds_left s < budget)%nat
  end.

Lemma match_compare_ok s :
  minv s → char_at mask (st_m s) ≠ "*"%char →
  ((st_n s < ln)%nat ∨ st_m s = lm) →
  round_ok (if decide (st_n s < ln)%nat then rounds_left s else S (rounds_left s))
           (match_compare mask name s).
Proof.
  intros H Hstar Hpos. unfold match_compare.
  pose proof (inv_m _ H) as Hm. pose proof (inv_n _ H) as Hn.
  destruct (inv_seg _ H) as (seg & ns & Em & En & Hseg & Hns & Hml & Hnl).
  pose proof (Forall2_length _ _ _ Hseg) as Hlen.
  destruct (decide (st_n s < ln)%nat) as [Hlt|Hge].
  2:{ destruct Hpos as [|Hpos]; [done|].
      rewrite (char_at_end name), (char_at_end mask) by lia. simpl.
      destruct s; done || (split; [done|simpl; lia]). }
  destruct (char_at_inside name (st_n s) Hname Hlt) as (rn & Hrn & -> & Hcn).
  rewrite (proj2 (Ascii.eqb_neq _ _) Hcn).
  destruct (negb _ && negb _) eqn:Ecmp.
  - assert (¬ glob (drop (st_m s) M) (drop (st_n s) N)) as Hno.
    { apply andb_true_iff in Ecmp as [E1 E2].
      apply negb_true_iff, Ascii.eqb_neq in E1. apply negb_true_iff, Ascii.eqb_neq in E2.
      rewrite Hrn. intros Hg. destruct (decide (st_m s < lm)%nat) as [Hml'|].
      - destruct (char_at_inside mask (st_m s) Hmask Hml') as (rm & Hrm & -> & _).
        rewrite Hrm in Hg. apply glob_char_inv in Hg as (b & n' & Heq & [Hb|Hb] & _);
          [|done..]; congruence.
      - rewrite drop_ge in Hg by (rewrite length_chars; lia). by apply glob_nil_inv in Hg. }
    destruct (st_wild s) eqn:Ew; simpl.
    + split; [apply minv_rewind; [done..|lia|by rewrite minv_here]|].
      unfold rounds_left; simpl. nia.
    + right. split; [done|]. by apply (minv_fail s).
  - assert (st_m s < lm)%nat as Hml'.
    { destruct (decide (st_m s < lm)%nat); [done|]. exfalso.
      rewrite (char_at_end mask) in Ecmp by lia.
      apply andb_false_iff in Ecmp as [E|E]; [|done].
      apply negb_false_iff, Ascii.eqb_eq in E. symmetry in E.
      apply Hcn, ToLower_NUL. rewrite E. apply ToLower_NUL_eq. }
    destruct (char_at_inside mask (st_m s) Hmask Hml') as (rm & Hrm & -> & Hcm).
    rewrite (proj2 (Ascii.eqb_neq _ _) Hcm). simpl. split; [|unfold rounds_left; simpl; lia].
    assert (char_match (char_at mask (st_m s)) (char_at name (st_n s))) as Hcmp.
    { apply andb_false_iff in Ecmp as [E|E]; apply negb_false_iff, Ascii.eqb_eq in E.
      - by left. - by right. }
    destruct H as [_ _ _ H1 H2 H3 H4]. constructor; simpl; try done; try lia.
    exists (seg ++ [char_at mask (st_m s)]), (ns ++ [char_at name (st_n s)]).
    rewrite <- !app_assoc, !length_app; simpl. rewrite Em, En, Hrm, Hrn at 1.
    split_and!; [done|done| | |lia|lia].
    + apply Forall2_app; auto.
    + apply Forall_app; auto.
Qed.

(** A star with nothing but question marks after it covers the rest of the name. *)
Lemma match_back_sound t :
  minv t → (lm ≤ st_m t)%nat → (st_n t < ln)%nat →
  char_at mask (back_over mask (st_m t - 1)) = "*"%char →
  (0 < back_over mask (st_m t - 1))%nat → glob M N.
Proof.
  intros H Hm Hn. destruct (back_over_spec mask (st_m t - 1)) as [Hle Hq].
  set (b := back_over mask (st_m t - 1)) in *. intros Eb Hb.
  pose proof (inv_m _ H) as Hml0.
  destruct (inv_seg _ H) as (seg & ns & Es & En & Hseg & Hns & Hml & Hnl).
  pose proof (Forall2_length _ _ _ Hseg) as Hlen.
  assert (drop (st_m t) M = []) as Edm by (apply drop_ge; rewrite length_chars; lia).
  rewrite Edm, app_nil_r in Es.
  assert (b < st_ma t)%nat as Hbma.
  { destruct (le_lt_dec (st_ma t) b) as [Hc|]; [|done]. exfalso.
    assert (b < length M)%nat as HbM by (rewrite length_chars; lia).
    destruct (lookup_lt_is_Some_2 M b HbM) as [c Hc'].
    rewrite char_at_lookup, Hc' in Eb. simpl in Eb. subst c.
    replace b with (st_ma t + (b - st_ma t))%nat in Hc' by lia.
    rewrite <- lookup_drop, Es in Hc'. unfold no_star in Hns.
    rewrite Forall_lookup in Hns. by apply Hns in Hc'. }
  assert (st_wild t = true) as Hw.
  { destruct (st_wild t) eqn:Ew; [done|]. destruct (inv_start _ H Ew). lia. }
  destruct (inv_star _ H Hw) as (Hma & Hstar & _).
  assert (seg = replicate (length seg) "?"%char) as Eseg.
  { apply list_eq. intros i. transitivity (drop (st_ma t) M !! i); [by rewrite Es|].
    rewrite lookup_drop.
    destruct (decide (i < length seg)%nat) as [Hi|Hi].
    - rewrite lookup_replicate_2 by done.
      assert (st_ma t + i < length M)%nat as HiM by (rewrite length_chars; lia).
      destruct (lookup_lt_is_Some_2 M _ HiM) as [c Hc]. rewrite Hc. f_equal.
      rewrite <- (Hq (st_ma t + i)%nat) by lia. by rewrite char_at_lookup, Hc.
    - rewrite !lookup_ge_None_2; [done|rewrite length_replicate; lia|].
      rewrite length_chars. lia. }
  apply (inv_sound _ H (ln - length seg)%nat); [lia|congruence|].
  rewrite Es, Eseg, length_replicate.
  assert (∀ l, glob (replicate (length l) "?"%char) l) as Hqs.
  { clear. induction l as [|c l IH]; simpl; constructor; [done|by right|done]. }
  replace (length seg) with (length (drop (ln - length seg) N)) at 1; [apply Hqs|].
  rewrite length_drop, length_chars. lia.
Qed.

Lemma match_round_ok s : minv s → round_ok (rounds_left s) (match_round mask name s).
Proof.
  intros H0. unfold match_round.
  destruct (minv_match_star s H0) as (H & Hstar & Hle).
  set (t := match_star mask s) in *. clearbody t. clear H0.
  pose proof (inv_m _ H) as Hm. pose proof (inv_n _ H) as Hn.
  destruct (Ascii.eqb_spec (char_at mask (st_m t)) NUL) as [Em|Em].
  - apply (char_at_NUL _ _ Hmask) in Em.
    assert (drop (st_m t) M = []) as Edm by (apply drop_ge; rewrite length_chars; lia).
    destruct (Ascii.eqb_spec (char_at name (st_n t)) NUL) as [En|En].
    + apply (char_at_NUL _ _ Hname) in En. left. split; [done|].
      apply (inv_sound _ H (st_na t)); [done|intros W; apply (inv_start _ H W)|].
      apply (minv_here t H). rewrite Edm, drop_ge by (rewrite length_chars; lia). constructor.
    + rewrite (char_at_NUL _ _ Hname) in En.
      assert (¬ glob (drop (st_m t) M) (drop (st_n t) N)) as Hno.
      { rewrite Edm. intros Hg. apply glob_nil_inv in Hg.
        apply (f_equal length) in Hg. rewrite length_drop, length_chars in Hg. simpl in Hg. lia. }
      destruct (inv_seg _ H) as (seg & ns & Es & En' & Hseg & Hns & Hml & Hnl).
      pose proof (Forall2_length _ _ _ Hseg) as Hlen.
      destruct (_ && _) eqn:Eback.
      * left. split; [done|]. apply andb_true_iff in Eback as [Eb Hb].
        apply Ascii.eqb_eq in Eb. apply Nat.ltb_lt in Hb.
        apply (match_back_sound t); done || lia.
      * destruct (st_wild t) eqn:Ew; simpl.
        2:{ right. split; [done|]. by apply (minv_fail t). }
        assert (minv (MState (st_ma t) (S (st_na t)) (st_ma t) (S (st_na t)) true)) as H'.
        { apply minv_rewind; [done..|lia|by rewrite minv_here]. }
        pose proof (match_compare_ok _ H') as Hc; simpl in Hc.
        destruct (inv_star _ H Ew) as (_ & _ & Hma). specialize (Hc Hma).
        assert (round_ok (S (rounds_left (MState (st_ma t) (S (st_na t)) (st_ma t)
                  (S (st_na t)) true))) (match_compare mask name
                  (MState (st_ma t) (S (st_na t)) (st_ma t) (S (st_na t)) true))) as Hr.
        { destruct (decide (S (st_na t) < ln)%nat) as [Hlt|Hge].
          - specialize (Hc (or_introl Hlt)). destruct (match_compare _ _ _); [done|].
            destruct Hc; split; [done|lia].
          - apply Hc. right. lia. }
        destruct (match_compare _ _ _); [done|]. destruct Hr as [? Hr]. split; [done|].
        unfold rounds_left in *; simpl in *. nia.
  - assert (st_m t < lm)%nat as Hmlt.
    { rewrite (char_at_NUL _ _ Hmask) in Em. lia. }
    destruct (Ascii.eqb_spec (char_at name (st_n t)) NUL) as [En|En].
    + apply (char_at_NUL _ _ Hname) in En.
      assert (skip_stars (strlen mask) mask (st_m t) = st_m t) as ->.
      { destruct (strlen mask); [done|]; simpl. by rewrite (proj2 (Ascii.eqb_neq _ _) Hstar). }
      rewrite (proj2 (Ascii.eqb_neq _ _) Em). right. split; [done|].
      intros Hg. destruct (inv_complete _ H Hg) as (k & Hk & _ & Hkl & Hg').
      apply (minv_later t k H) in Hg' as [Hl Hg']; [|done].
      destruct (char_at_inside mask (st_m t) Hmask Hmlt) as (rm & Hrm & -> & _).
      rewrite Hrm in Hg'. apply glob_char_inv in Hg' as (b & n' & Heq & _ & _); [|done].
      apply (f_equal length) in Heq. rewrite length_drop, length_chars in Heq. simpl in Heq.
      destruct (inv_seg _ H) as (seg & ns & _ & _ & Hseg & _ & Hml & Hnl).
      apply Forall2_length in Hseg. lia.
    + rewrite (char_at_NUL _ _ Hname) in En.
      pose proof (match_compare_ok t H Hstar) as Hc. rewrite decide_True in Hc by lia.
      destruct (match_compare _ _ _); [apply Hc; left; lia|].
      destruct Hc; [left; lia|]. split; [done|lia].
Qed.

(** Once the rounds suffice, the loop decides the mask; it never accepts a name
    the mask does not cover, however few rounds it is given. *)
Lemma match_loop_ok calls s :
  minv s →
  (match_loop calls mask name s = 1 ∧ glob M N) ∨
  (match_loop calls mask name s = 0 ∧ ((rounds_left s < calls)%nat → ¬ glob M N)).
Proof.
  revert s; induction calls as [|calls IH]; intros s H; simpl; [right; split; [done|lia]|].
  pose proof (match_round_ok s H) as Hr. destruct (match_round mask name s) as [v|s'].
  - destruct Hr as [[-> ?]|[-> ?]]; auto.
  - destruct Hr as [H' Hlt]. destruct (IH s' H') as [?|[? Hn]]; [by left|right].
    split; [done|]. intros. apply Hn. lia.
Qed.
End matcher.

(** ** What match() decides *)

(** The rounds the loop can need on a mask and a name of these lengths. *)
Definition match_rounds (mask name : string) : nat :=
  ((strlen name + 1) * (strlen mask + 2) + (strlen mask + 1))%nat.

Lemma match_mask_loop mask name :
  mask ≠ ""%string → name ≠ ""%string → no_nul mask = true → no_nul name = true →
  match_mask (Some mask) (Some name) = match_loop MATCH_MAX_CALLS mask name match_start.
Proof.
  intros Hm Hn Hm0 Hn0. unfold match_mask.
  destruct (is_empty (Some mask)) eqn:E1; [by apply is_empty_Some in E1|].
  by destruct (is_empty (Some name)) eqn:E2; [apply is_empty_Some in E2|].
Qed.

(** C32.  [match()] never accepts wrongly: whenever it returns 1 on a mask and a
    name, neither is empty and the mask covers the name, whatever the bound on
    its rounds did. *)
Theorem match_sound (mask name : string)
  (Hmask : no_nul mask = true) (Hname : no_nul name = true)
  (Hret : match_mask (Some mask) (Some name) = 1) :
  mask ≠ ""%string ∧ name ≠ ""%string ∧ glob (chars mask) (chars name).
Proof.
  assert (mask ≠ ""%string) by (intros ->; done).
  assert (name ≠ ""%string) by (intros ->; unfold match_mask in Hret;
    rewrite orb_true_r in Hret; done).
  rewrite match_mask_loop in Hret by done. split_and!; [done..|].
  destruct (match_loop_ok mask name Hmask Hname MATCH_MAX_CALLS match_start) as [[_ ?]|[? _]];
    [by apply minv_start|done|congruence].
Qed.

Lemma match_sound_witness :
  match_mask (Some "*!*@*.Example.?rg"%string) (Some "nick!user@irc.example.org"%string) = 1 ∧
  glob (chars "*!*@*.Example.?rg") (chars "nick!user@irc.example.org").
Proof.
  split; [vm_compute; reflexivity|].
  apply (match_sound "*!*@*.Example.?rg" "nick!user@irc.example.org"); vm_compute; reflexivity.
Defined.

(** C33.  On masks and names short enough for the bound of 512 rounds [match()]
    is complete: it returns 1 exactly when the mask covers the name, and 0
    otherwise. *)
Theorem match_complete (mask name : string)
  (Hmask : no_nul mask = true) (Hname : no_nul name = true)
  (Hm : mask ≠ ""%string) (Hn : name ≠ ""%string)
  (Hshort : (match_rounds mask name < MATCH_MAX_CALLS)%nat) :
  (match_mask (Some mask) (Some name) = 1 ↔ glob (chars mask) (chars name)) ∧
  (match_mask (Some mask) (Some name) = 0 ↔ ¬ glob (chars mask) (chars name)).
Proof.
  rewrite match_mask_loop by done.
  destruct (match_loop_ok mask name Hmask Hname MATCH_MAX_CALLS match_start) as [[-> ?]|[-> H]];
    [by apply minv_start| |].
  - split; split; try done.
  - assert (¬ glob (chars mask) (chars name)) as Hno.
    { apply H. unfold rounds_left, match_rounds, strlen in *. simpl. lia. }
    split; split; done.
Qed.

Lemma match_complete_witness :
  (match_rounds "*a?c*" "xxabcyy" < MATCH_MAX_CALLS)%nat ∧
  glob (chars "*a?c*") (chars "xxabcyy").
Proof.
  split; [apply Nat.ltb_lt; vm_compute; reflexivity|].
  apply (match_complete "*a?c*" "xxabcyy"); try (vm_compute; reflexivity); try done.
  apply Nat.ltb_lt; vm_compute; reflexivity.
Defined.

(** The bound on the rounds is observable: there is a mask that covers a name
    and for which [match()] nevertheless answers 0, because the loop gives up. *)
Theorem match_gives_up :
  ∃ mask name : string,
    no_nul mask = true ∧ no_nul name = true ∧
    glob (chars mask) (chars name) ∧ match_mask (Some mask) (Some name) = 0.
Proof.
  set (mask := of_chars ("*"%char :: replicate 24 "a"%char ++ ["b"%char])).
  set (name := of_chars (replicate 60 "a"%char ++ ["b"%char])).
  exists mask, name. split_and!; try (vm_compute; reflexivity).
  subst mask name. rewrite !chars_of_chars. apply (glob_star _ _ 36).
  change (drop 36 (replicate 60 "a"%char ++ ["b"%char]))
    with (replicate 24 "a"%char ++ ["b"%char] ++ []).
  change (replicate 24 "a"%char ++ ["b"%char])
    with ((replicate 24 "a"%char ++ ["b"%char]) ++ []).
  rewrite (app_assoc (replicate 24 "a"%char)).
  apply glob_seg; [|apply Forall2_same_length_lookup_2|constructor].
  - apply Forall_app. split; [by apply Forall_replicate|by repeat constructor].
  - done.
  - intros i x y Hx Hy. rewrite Hx in Hy. left. congruence.
Qed.

(** ** Collapsed masks *)

Lemma glob_star_any m n k : glob ("*"%char :: m) (drop k n) → glob ("*"%char :: m) n.
Proof.
  intros Hg. apply glob_star_inv in Hg as [j Hg]. rewrite drop_drop in Hg.
  by apply (glob_star _ _ (k + j)).
Qed.

Lemma glob_star_idem m n : glob ("*"%char :: "*"%char :: m) n ↔ glob ("*"%char :: m) n.
Proof.
  split; intros Hg.
  - apply glob_star_inv in Hg as [k Hg]. by apply glob_star_any in Hg.
  - apply (glob_star _ _ 0). by rewrite drop_0.
Qed.

Lemma glob_cons_mono a m m' :
  (∀ n, glob m n ↔ glob m' n) → ∀ n, glob (a :: m) n ↔ glob (a :: m') n.
Proof.
  intros H n.
  split; inversion 1; subst; first [eapply glob_star | constructor]; try done; by apply H.
Qed.

Lemma collapse_loop_glob p f n :
  glob (chars (if f : bool then String "*" (collapse_loop true p) else collapse_loop false p)) n
  ↔ glob (chars (if f : bool then String "*" p else p)) n.
Proof.
  revert f n; induction p as [|c p IH]; intros f n; [by destruct f|].
  pose proof (IH true) as IHt. pose proof (IH false) as IHf. clear IH. simpl in IHt, IHf |- *.
  destruct (Ascii.eqb_spec c "*") as [->|Hc]; destruct f; simpl.
  - by rewrite IHt, glob_star_idem.
  - apply IHt.
  - by apply glob_cons_mono, glob_cons_mono.
  - by apply glob_cons_mono.
Qed.

Fixpoint no_double_star (s : string) : bool :=
  match s with
  | String a (String b _ as s') =>
    negb (Ascii.eqb a "*" && Ascii.eqb b "*") && no_double_star s'
  | _ => true
  end.

Lemma collapse_loop_no_double p f :
  no_double_star (collapse_loop f p) = true ∧
  (f = true → deref (collapse_loop f p) ≠ "*"%char).
Proof.
  revert f; induction p as [|c p IH]; intros f; [by destruct f|]. simpl.
  destruct (Ascii.eqb_spec c "*") as [->|Hc].
  - destruct f; simpl; [apply IH|]. split; [|done]. destruct (IH true) as [H1 H2].
    destruct (collapse_loop true p) as [|b s]; [done|].
    change (negb (true && Ascii.eqb b "*") && no_double_star (String b s) = true).
    rewrite H1, (proj2 (Ascii.eqb_neq b "*")) by (by apply H2). done.
  - split; [|done]. destruct (IH false) as [H1 _].
    destruct (collapse_loop false p) as [|b s] eqn:E; [done|].
    change (negb (Ascii.eqb c "*" && Ascii.eqb b "*") && no_double_star (String b s) = true).
    rewrite H1, (proj2 (Ascii.eqb_neq c "*")) by done. done.
Qed.

Lemma collapse_loop_fixed p f :
  no_double_star p = true → (f = true → deref p ≠ "*"%char) → collapse_loop f p = p.
Proof.
  revert f; induction p as [|c p IH]; intros f Hd Hf; [done|]. simpl.
  assert (no_double_star p = true) as Hd'.
  { destruct p as [|b p]; [done|]. simpl in Hd. by apply andb_true_iff in Hd as [_ ?]. }
  destruct (Ascii.eqb_spec c "*") as [->|Hc].
  - destruct f; [by specialize (Hf eq_refl)|]. simpl. rewrite IH; [done..|].
    intros _. destruct p as [|b p]; [done|]. simpl in *.
    destruct (Ascii.eqb_spec b "*"); [done|done].
  - by rewrite IH.
Qed.

(** [collapse()] returns a mask without two adjacent stars that covers
    exactly the same names, and leaves a collapsed mask as it is. *)
Theorem collapse_correct (p : string) :
  ∃ q, collapse (Some p) = Some q ∧ no_double_star q = true ∧
    (∀ n, glob (chars q) n ↔ glob (chars p) n) ∧
    collapse (Some q) = Some q ∧ (strlen q ≤ strlen p)%nat.
Proof.
  exists (collapse_loop false p). destruct (collapse_loop_no_double p false) as [Hd _].
  split_and!; [done|done|intros n; apply (collapse_loop_glob p false)| |].
  - unfold collapse. by rewrite collapse_loop_fixed.
  - clear. unfold strlen. generalize false. induction p as [|c p IH]; intros f; simpl; [lia|].
    specialize (IH true) as IHt. specialize (IH false) as IHf.
    repeat split_guard; simpl; lia.
Qed.
