(* ===== verification/Rblib.v ===== *)
(** * The support library as an interface

    The sources are written against libratbox ([ratbox_lib.h]: bounded string
    copies, intrusive lists, block heaps), which is not part of the repository.
    Its functions are therefore operations of the class [RbLib], and what the
    sources rely on of their documented behaviour is the class [RbSpec].  Every
    definition that calls the library takes an [RbLib]; theorems that need its
    behaviour take an [RbSpec] as well.  [rb_reference] is one implementation,
    used to evaluate the definitions; it satisfies [RbSpec].

    A list ([rb_dlink_list]) is the sequence of the data pointers of its nodes,
    from head to tail; a node is known by its data, which is unique in the
    intrusive lists of the program. *)

From S2P Require Import Prelude CString.

(** Addresses of heap blocks. *)
Notation ptr := positive.

Class RbLib := {
  (** [rb_strlcpy(dest, src, siz)]: the string left in [dest]. *)
  rb_strlcpy : nat → string → string;
  (** [rb_strlcat(dest, src, siz)]: the string left in [dest]. *)
  rb_strlcat : nat → string → string → string;
  (** [rb_strndup(s, n)]: a copy of the start of a string. *)
  rb_strndup : nat → string → string;
  (** [rb_dlinkAdd], [rb_dlinkAddAlloc]: a new node at the head. *)
  rb_dlinkAdd {A : Type} : A → list A → list A;
  (** [rb_dlinkAddTail], [rb_dlinkAddTailAlloc]: a new node at the tail. *)
  rb_dlinkAddTail {A : Type} : A → list A → list A;
  (** [rb_dlinkDelete], [rb_dlinkDestroy]: the node of the datum, which must be
      in the list, is unlinked. *)
  rb_dlinkDelete {A : Type} `{EqDecision A} : A → list A → list A;
  (** [rb_dlinkFindDestroy]: the first node of the datum, if any, is unlinked. *)
  rb_dlinkFindDestroy {A : Type} `{EqDecision A} : A → list A → list A;
  (** [rb_dlinkFind(x, l) != NULL]. *)
  rb_dlinkFind {A : Type} `{EqDecision A} : A → list A → bool;
  (** [rb_dlinkMoveNode(x, from, to)]: both lists afterwards. *)
  rb_dlinkMoveNode {A : Type} `{EqDecision A} : A → list A → list A → list A * list A;
  (** [rb_dlinkMoveList(from, to)]: both lists afterwards. *)
  rb_dlinkMoveList {A : Type} : list A → list A → list A * list A;
  (** [rb_bh_alloc]: an address given those in use. *)
  rb_bh_alloc : gset ptr → ptr;
  (** [rb_string_to_array(string, parv, maxpara)]: the arguments of a line. *)
  rb_string_to_array : option string → nat → list string;
  (** [rb_date(time, buf, len)]: the text of a time. *)
  rb_date : Z → string;
  (** [rb_crypt(key, salt)]: the hash of a password, or NULL if the salt is none. *)
  rb_crypt : string → string → option string
}.

Class RbSpec `{RbLib} : Prop := {
  rb_strlcpy_spec n s : (0 < n)%nat → rb_strlcpy n s = str_take (n - 1) s;
  rb_strlcat_spec n d s :
    (String.length d < n)%nat → rb_strlcat n d s = str_take (n - 1) (d ++ s);
  (** Whether the terminator counts is left open. *)
  rb_strndup_spec n s : ∃ k, (k ≤ n)%nat ∧ rb_strndup n s = str_take k s;
  rb_dlinkAdd_spec {A} (x : A) l : rb_dlinkAdd x l = x :: l;
  rb_dlinkAddTail_spec {A} (x : A) l : rb_dlinkAddTail x l = l ++ [x];
  rb_dlinkDelete_spec {A} `{EqDecision A} (x : A) l : x ∈ l → rb_dlinkDelete x l = remove_first x l;
  rb_dlinkFindDestroy_spec {A} `{EqDecision A} (x : A) l : rb_dlinkFindDestroy x l = remove_first x l;
  rb_dlinkFind_spec {A} `{EqDecision A} (x : A) l : rb_dlinkFind x l = bool_decide (x ∈ l);
  (** A node of [from] ends up in [to]; where in it is left open. *)
  rb_dlinkMoveNode_spec {A} `{EqDecision A} (x : A) from to :
    x ∈ from →
    fst (rb_dlinkMoveNode x from to) = remove_first x from ∧
    snd (rb_dlinkMoveNode x from to) ≡ₚ x :: to;
  rb_dlinkMoveList_spec {A} (from to : list A) :
    fst (rb_dlinkMoveList from to) = [] ∧
    snd (rb_dlinkMoveList from to) ≡ₚ from ++ to;
  rb_bh_alloc_spec used : rb_bh_alloc used ∉ used;
  (** The arguments are pieces of the line. *)
  rb_string_to_array_spec s n x :
    x ∈ rb_string_to_array s n → ∃ t p q, s = Some t ∧ t = (p ++ x ++ q)%string
}.

(** ** A reference implementation *)

Definition ref_alloc (used : gset ptr) : ptr :=
  Pos.succ (set_fold Pos.max 1%positive used).

(** The words of a line: the last one may start with a colon and hold spaces. *)
Fixpoint ref_words (fuel : nat) (s : string) : list string :=
  match fuel with
  | O => []
  | S fuel =>
    match s with
    | EmptyString => []
    | String c r =>
      if Ascii.eqb c " " then ref_words fuel r
      else if Ascii.eqb c ":" then [r]
      else match strchr s " " with
           | Some (w, rest) => w :: ref_words fuel rest
           | None => [s]
           end
    end
  end.

Definition ref_to_array (s : option string) (maxpara : nat) : list string :=
  match s with Some s => take maxpara (ref_words (S (strlen s)) s) | None => [] end.

Definition rb_reference : RbLib := {|
  rb_strlcpy n s := str_take (n - 1) s;
  rb_strlcat n d s := str_take (n - 1) (d ++ s);
  rb_strndup n s := str_take (n - 1) s;
  rb_dlinkAdd A x l := x :: l;
  rb_dlinkAddTail A x l := l ++ [x];
  (* a node outside of the list has no neighbours: head and tail become NULL *)
  rb_dlinkDelete A _ x l := if bool_decide (x ∈ l) then remove_first x l else [];
  rb_dlinkFindDestroy A _ x l := remove_first x l;
  rb_dlinkFind A _ x l := bool_decide (x ∈ l);
  rb_dlinkMoveNode A _ x from to := (remove_first x from, x :: to);
  rb_dlinkMoveList A from to := ([], from ++ to);
  rb_bh_alloc := ref_alloc;
  rb_string_to_array := ref_to_array;
  rb_date t := print_z t;
  rb_crypt key salt := Some (salt ++ key)%string
|}.

Lemma ref_alloc_max (used : gset ptr) p :
  p ∈ used → (p ≤ set_fold Pos.max 1%positive used)%positive.
Proof.
  revert p.
  apply (set_fold_ind_L (fun r X => ∀ p, p ∈ X → (p ≤ r)%positive)); [set_solver|].
  intros q X r Hq IH p [->%elem_of_singleton|Hp]%elem_of_union; [lia|].
  specialize (IH p Hp). lia.
Qed.

Lemma ref_words_piece fuel s x : x ∈ ref_words fuel s → ∃ p q, s = (p ++ x ++ q)%string.
Proof.
  revert s. induction fuel as [|fuel IH]; intros s; [by intros ?%elem_of_nil|].
  destruct s as [|c r]; [by intros ?%elem_of_nil|]. cbn [ref_words].
  assert (∀ x, x = (x ++ "")%string) as Hnil by (intros; by rewrite str_app_nil_r).
  destruct (Ascii.eqb c " "); [intros (p & q & ->)%IH; by exists (String c p), q|].
  destruct (Ascii.eqb c ":").
  { intros ->%list_elem_of_singleton. exists (String c ""), "". by rewrite <- Hnil. }
  destruct (strchr (String c r) " ") as [[w rest]|] eqn:E.
  - apply strchr_inv in E as [-> _]. intros [->|(p & q & ->)%IH]%elem_of_cons.
    + by exists "", (String " " rest).
    + exists (w ++ String " " p)%string, q. by rewrite str_app_assoc, str_app_cons.
  - intros ->%list_elem_of_singleton. exists "", "". by rewrite <- Hnil.
Qed.

Lemma ref_to_array_piece s n x :
  x ∈ ref_to_array s n → ∃ t p q, s = Some t ∧ t = (p ++ x ++ q)%string.
Proof.
  unfold ref_to_array. destruct s as [s|]; [|by intros ?%elem_of_nil].
  intros (i & E & _)%elem_of_take. apply list_elem_of_lookup_2, ref_words_piece in E as (p & q & E).
  by exists s, p, q.
Qed.

Lemma rb_reference_spec : @RbSpec rb_reference.
Proof.
  split; intros; simpl; try done.
  { exists (n - 1)%nat. split; [lia|done]. }
  { by rewrite bool_decide_true. }
  2:{ by eapply ref_to_array_piece. }
  unfold ref_alloc. intros Hin. apply ref_alloc_max in Hin. lia.
Qed.

(** ** Consequences used throughout *)
Section laws.
Context `{RbSpec}.

Lemma rb_strlcpy_length n s : (0 < n)%nat → (String.length (rb_strlcpy n s) < n)%nat.
Proof. intros. rewrite rb_strlcpy_spec, length_str_take by done. lia. Qed.

Lemma rb_strlcpy_fits n s : (String.length s < n)%nat → rb_strlcpy n s = s.
Proof. intros. rewrite rb_strlcpy_spec by lia. apply str_take_ge. lia. Qed.

Lemma rb_strlcpy_no_nul n s : (0 < n)%nat → no_nul s = true → no_nul (rb_strlcpy n s) = true.
Proof. intros. rewrite rb_strlcpy_spec by done. by apply no_nul_str_take. Qed.
End laws.

Create HintDb rb.
#[export] Hint Rewrite @rb_dlinkAdd_spec @rb_dlinkAddTail_spec @rb_dlinkFindDestroy_spec
  @rb_dlinkFind_spec using typeclasses eauto : rb.
