(* ===== verification/Tools.v ===== *)
(** * Durations and case conversion (src/tools.c)

    Time values are 64-bit [time_t]s, the locals of the duration printers are
    [int]s.  [get_time] formats a calendar date through [gmtime] and [strftime]
    and is not modelled. *)

From S2P Require Import Prelude CString Match.

Definition BUFSIZE : nat := 512.
Definition MAXPARA : nat := 15.

(** ** Durations *)

Definition uint64 (z : Z) : Z := wrapU 64 z.

Definition get_duration (seconds0 : Z) : string :=
  let days := int32 (Z.quot seconds0 86400) in
  let seconds := Z.rem seconds0 86400 in
  let hours := int32 (Z.quot seconds 3600) in
  let seconds := Z.rem seconds 3600 in
  let minutes := int32 (Z.quot seconds 60) in
  let seconds := Z.rem seconds 60 in
  str_take (BUFSIZE - 1)
    (print_z days ++ " day" ++ (if days =? 1 then "" else "s") ++ ", " ++
     print_z hours ++ ":" ++ print_02 minutes ++ ":" ++ print_02 (uint64 seconds)).

Definition get_short_duration (seconds0 : Z) : string :=
  let days := int32 (Z.quot seconds0 86400) in
  let seconds := Z.rem seconds0 86400 in
  let hours := int32 (Z.quot seconds 3600) in
  let seconds := Z.rem seconds 3600 in
  let minutes := int32 (Z.quot seconds 60) in
  str_take (BUFSIZE - 1)
    (print_z days ++ "d" ++ print_z hours ++ "h" ++ print_z minutes ++ "m").

(** [60*24*7*52]: the longest time that can be asked for, in minutes. *)
Definition MAX_TEMP_TIME : Z := 60 * 24 * 7 * 52.

(** The loop over the digits and the unit; [None] is [return 0].  Signed
    arithmetic wraps at 64 bits, as the comment of the source expects. *)
Fixpoint temp_time_loop (result : Z) (duration : string) : option Z :=
  match duration with
  | EmptyString => Some result
  | String c rest =>
    if IsDigit c then
      temp_time_loop (int64 (int64 (result * 10) + Z.land (code c) 0xF)) rest
    else if (result =? 0) || negb (Ascii.eqb (deref rest) NUL) then None
    else if Ascii.eqb c "h" || Ascii.eqb c "H" then
      temp_time_loop (int64 (result * 60)) rest
    else if Ascii.eqb c "d" || Ascii.eqb c "D" then
      temp_time_loop (int64 (result * 1440)) rest
    else if Ascii.eqb c "w" || Ascii.eqb c "W" then
      temp_time_loop (int64 (result * 10080)) rest
    else None
  end.

Definition get_temp_time (duration : string) : Z :=
  match temp_time_loop 0 duration with
  | None => 0
  | Some result =>
    let result := if (MAX_TEMP_TIME <? result) || (result <? 0)
                  then MAX_TEMP_TIME else result in
    result * 60
  end.

(** ** Case conversion into a static buffer *)

Fixpoint str_map (f : ascii → ascii) (s : string) : string :=
  match s with
  | EmptyString => EmptyString
  | String c s' => String (f c) (str_map f s')
  end.

Definition lcase (text : string) : string := str_map ToLower (str_take (BUFSIZE - 1) text).
Definition ucase (text : string) : string := str_map ToUpper (str_take (BUFSIZE - 1) text).

(** [strip_tabs(dest, src, len)]: the string left in [dest], NULL if an argument is. *)
Fixpoint strip_tabs_loop (src : string) (len : nat) : string :=
  match src, len with
  | String c src', S len' =>
    String (if Ascii.eqb c "009"%char then " "%char else c) (strip_tabs_loop src' len')
  | _, _ => EmptyString
  end.
Definition strip_tabs (dest src : option string) (len : nat) : option string :=
  match dest, src with
  | Some _, Some s => Some (strip_tabs_loop s len)
  | _, _ => None
  end.

(** ** Decimal numbers *)

Lemma IsDigit_is_digit c : IsDigit c = is_digit c.
Proof. all_ascii c. Qed.

Lemma digit_land c : is_digit c = true → Z.land (code c) 0xF = code c - 48.
Proof.
  intros H.
  assert (implb (is_digit c) (Z.land (code c) 0xF =? code c - 48) = true) as E.
  { revert c H. intros c _. revert c. apply forall_chars. vm_compute. reflexivity. }
  rewrite H in E. simpl in E. by apply Z.eqb_eq.
Qed.

Definition all_digits (s : string) : Prop := Forall (fun c => is_digit c = true) (chars s).

(** ** Theorems *)

Lemma temp_time_wraps s acc v :
  digits_value acc s = (v, ""%string) → temp_time_loop (int64 acc) s = Some (int64 v).
Proof.
  revert acc; induction s as [|c s IH]; intros acc; simpl digits_value; [by intros [= ->]|].
  destruct (is_digit c) eqn:Hc; [|done]. intros Hd. simpl temp_time_loop.
  rewrite IsDigit_is_digit, Hc, digit_land, int64_mul, int64_add by done.
  apply IH. by replace (acc * 10 + (code c - 48)) with (10 * acc + (code c - 48)) by lia.
Qed.

(** The factor of a unit letter, in minutes. *)
Definition unit_minutes (u : ascii) : option Z :=
  if Ascii.eqb (ToLower u) "h" then Some 60
  else if Ascii.eqb (ToLower u) "d" then Some 1440
  else if Ascii.eqb (ToLower u) "w" then Some 10080
  else None.

(** While nothing overflows, the digits of the loop are those of [digits_value]. *)
Lemma temp_time_digits s acc v rest :
  digits_value acc s = (v, rest) → 0 ≤ acc → v < 2 ^ 63 →
  acc ≤ v ∧ is_digit (deref rest) = false ∧ temp_time_loop acc s = temp_time_loop v rest.
Proof.
  revert acc; induction s as [|c s IH]; intros acc; simpl digits_value.
  { intros [= <- <-]. done. }
  destruct (is_digit c) eqn:Hc.
  - intros Hd Hacc Hv. simpl temp_time_loop. rewrite IsDigit_is_digit, Hc, digit_land by done.
    assert (0 ≤ code c - 48) as Hdig.
    { unfold is_digit in Hc. bool_simpl. lia. }
    destruct (IH _ Hd) as (Hle & Hr & He); [lia|done|].
    rewrite (int64_small (acc * 10)), int64_small by lia.
    replace (acc * 10 + (code c - 48)) with (10 * acc + (code c - 48)) by lia.
    split; [lia|done].
  - intros [= <- <-] _ _. split; [lia|]. split; [done|done].
Qed.

Lemma temp_time_unit v u m :
  0 < v → v * 10080 < 2 ^ 63 → unit_minutes u = Some m →
  temp_time_loop v (String u "") = Some (v * m).
Proof.
  intros Hv Hov Hu.
  assert (IsDigit u = false ∧
    unit_minutes u = (if Ascii.eqb u "h" || Ascii.eqb u "H" then Some 60
                      else if Ascii.eqb u "d" || Ascii.eqb u "D" then Some 1440
                      else if Ascii.eqb u "w" || Ascii.eqb u "W" then Some 10080 else None))
    as [Hd Ht].
  { split.
    - destruct (IsDigit u) eqn:E; [|done].
      assert (implb (IsDigit u) (bool_decide (unit_minutes u = None)) = true) as Hi.
      { clear. revert u. apply forall_chars. vm_compute. reflexivity. }
      rewrite E in Hi. apply bool_decide_eq_true in Hi. congruence.
    - clear. all_ascii u. }
  rewrite Ht in Hu. simpl. rewrite Hd. destruct (Z.eqb_spec v 0) as [|_]; [lia|]. simpl.
  destruct (_ || _); [|destruct (_ || _); [|destruct (_ || _); [|done]]];
    injection Hu as <-; rewrite int64_small by lia; done.
Qed.

(** [get_temp_time()] on a positive decimal number with an optional unit
    letter (h, d or w in either case; minutes without one) returns that time in
    seconds, cut down to 52 weeks. *)
Theorem get_temp_time_value (v : Z) (u : ascii) (m : Z)
  (Hv : 0 < v) (Hov : v * 10080 < 2 ^ 63) (Hu : unit_minutes u = Some m) :
  get_temp_time (print_z v) = Z.min v MAX_TEMP_TIME * 60 ∧
  get_temp_time (print_z v ++ String u "") = Z.min (v * m) MAX_TEMP_TIME * 60.
Proof.
  assert (∀ x, 0 < x → (if (MAX_TEMP_TIME <? x) || (x <? 0) then MAX_TEMP_TIME else x)
                       = Z.min x MAX_TEMP_TIME) as Hcap.
  { intros x Hx. rewrite (proj2 (Z.ltb_ge x 0)), orb_false_r by lia.
    destruct (Z.ltb_spec MAX_TEMP_TIME x); lia. }
  assert (0 < m) as Hm.
  { revert Hu. unfold unit_minutes. repeat split_guard; intros ?; simplify_eq; lia. }
  assert (∀ s, is_digit (deref s) = false →
    temp_time_loop 0 (print_z v ++ s) = temp_time_loop v s) as Hdig.
  { intros s Hs. destruct (digits_value_print v s ltac:(lia)) as [Hd _].
    rewrite (digits_value_stop v s) in Hd by done.
    apply temp_time_digits in Hd as (_ & _ & ->); [done|lia|lia]. }
  split; unfold get_temp_time.
  - rewrite <- (str_app_nil_r (print_z v)), Hdig by done. simpl. by rewrite Hcap.
  - rewrite Hdig, (temp_time_unit v u m) by (done ||
      (simpl; destruct (is_digit u) eqn:E; [|done];
       assert (implb (is_digit u) (bool_decide (unit_minutes u = None)) = true) as Hi
         by (clear; revert u; apply forall_chars; vm_compute; reflexivity);
       rewrite E in Hi; apply bool_decide_eq_true in Hi; congruence)).
    rewrite Hcap; [done|]. lia.
Qed.

Lemma get_temp_time_value_witness :
  unit_minutes "D" = Some 1440 ∧ get_temp_time "3D" = 259200.
Proof.
  split; [vm_compute; reflexivity|].
  apply (get_temp_time_value 3 "D" 1440); vm_compute; reflexivity.
Defined.

(** Whatever the argument, [get_temp_time()] returns a non-negative whole
    number of minutes that is at most 52 weeks, in seconds. *)
Theorem get_temp_time_bounds (duration : string) :
  0 ≤ get_temp_time duration ≤ MAX_TEMP_TIME * 60 ∧ (60 | get_temp_time duration).
Proof.
  unfold get_temp_time. destruct (temp_time_loop 0 duration) as [r|].
  - split; [|apply Z.divide_factor_r].
    unfold MAX_TEMP_TIME. destruct (Z.ltb_spec (60 * 24 * 7 * 52) r); simpl; [lia|].
    destruct (Z.ltb_spec r 0); simpl; lia.
  - split; [unfold MAX_TEMP_TIME; lia|apply Z.divide_0_r].
Qed.

(** The overflow test of [get_temp_time()] sees only the sign of the 64-bit
    result: a number of minutes of any size is taken modulo 2^64, so one that wraps
    to a value between 1 and the maximum is not reset to the maximum as the comment
    promises ([2^64 + 1] minutes are one minute). *)
Theorem get_temp_time_wraps (v : Z) (Hv : 0 ≤ v) :
  get_temp_time (print_z v) =
  (if (MAX_TEMP_TIME <? int64 v) || (int64 v <? 0) then MAX_TEMP_TIME else int64 v) * 60.
Proof.
  unfold get_temp_time. rewrite <- (str_app_nil_r (print_z v)).
  destruct (digits_value_print v "" Hv) as [Hd _].
  rewrite (digits_value_stop v "") in Hd by done.
  rewrite (temp_time_wraps _ 0 v) by done. done.
Qed.

Lemma get_temp_time_wraps_witness :
  0 ≤ 2 ^ 64 + 1 ∧ get_temp_time (print_z (2 ^ 64 + 1)) = 60.
Proof. split; [lia|]. rewrite (get_temp_time_wraps (2 ^ 64 + 1)); [reflexivity|lia]. Defined.
