(* ===== verification/Cidr.v ===== *)
(** * Addresses and CIDR masks (src/cidr.c)

    [inet_pton4] and [inet_pton6] parse addresses into byte arrays through
    pointers; the model keeps the arrays and the offsets, and a write or a
    comparison outside an array is the outcome [Overrun] instead of an
    undefined effect.  [match_ips] and [match_cidr] are built from them.  Local
    arrays that a parser did not fill are represented by the bytes it did
    write, so reading past those is an [Overrun] too. *)

From S2P Require Import Prelude CString Match Rblib Tools.

Definition INADDRSZ : nat := 4.
Definition IN6ADDRSZ : nat := 16.
Definition INT16SZ : nat := 2.
Definition USERLEN : nat := 10.
Definition HOSTLEN : nat := 63.

(** The result of a parser: 0, 1 with the bytes stored, or an access out of bounds. *)
Inductive parsed := Invalid | Valid (bytes : list Z) | Overrun.

#[export] Instance parsed_eq_dec : EqDecision parsed.
Proof. solve_decision. Defined.

(** [buf[i] = v] on an array. *)
Definition store (buf : list Z) (i : nat) (v : Z) : option (list Z) :=
  if (i <? length buf)%nat then Some (<[i := v]> buf) else None.

(** [memcmp(a, b, n) == 0]; [None] if it reads past the end of an array. *)
Definition memcmp_eq (a b : list Z) (n : nat) : option bool :=
  if (n <=? length a)%nat && (n <=? length b)%nat
  then Some (bool_decide (take n a = take n b)) else None.

(** [mask] is an [unsigned int]; [(-1) << (8 - mask % 8)] selects the leading bits
    of the byte that is compared in part. *)
Definition comp_with_mask (addr dest : list Z) (mask : Z) : option bool :=
  let q := Z.to_nat (mask `div` 8) in
  match memcmp_eq addr dest q with
  | None => None
  | Some false => Some false
  | Some true =>
    let m := Z.shiftl (-1) (8 - mask `mod` 8) in
    if mask `mod` 8 =? 0 then Some true
    else match addr !! q, dest !! q with
         | Some x, Some y => Some (Z.land x m =? Z.land y m)
         | _, _ => None
         end
  end.

(** ** inet_pton4 *)

Fixpoint pton4_loop (src : string) (tmp : list Z) (tp : nat) (octets : Z) (saw_digit : bool)
  : parsed :=
  match src with
  | EmptyString => if octets <? 4 then Invalid else Valid tmp
  | String ch src' =>
    if is_digit ch then
      match tmp !! tp with
      | None => Overrun
      | Some cur =>
        let new := cur * 10 + (code ch - 48) in
        if 255 <? new then Invalid
        else match store tmp tp new with
             | None => Overrun
             | Some tmp' =>
               if negb saw_digit then
                 if 4 <? octets + 1 then Invalid
                 else pton4_loop src' tmp' tp (octets + 1) true
               else pton4_loop src' tmp' tp octets saw_digit
             end
      end
    else if Ascii.eqb ch "." && saw_digit then
      if octets =? 4 then Invalid
      else match store tmp (S tp) 0 with
           | None => Overrun
           | Some tmp' => pton4_loop src' tmp' (S tp) octets false
           end
    else Invalid
  end.

(** [tmp] is an uninitialised array of 4 bytes whose first byte is set to 0; the
    parser stores each byte before it reads it. *)
Definition inet_pton4 (src : string) : parsed :=
  pton4_loop src (replicate INADDRSZ 0) 0 0 false.

(** ** inet_pton6 *)

Definition hex_digit (c : ascii) : option Z :=
  let c := tolower c in
  if is_digit c then Some (code c - 48)
  else if (97 <=? code c) && (code c <=? 102) then Some (code c - 87) else None.

(** The locals of the parser: the array, [tp], [colonp], [saw_xdigit] and [val]. *)
Record p6 := P6 {
  p6_tmp : list Z; p6_tp : nat; p6_colonp : option nat; p6_saw : bool; p6_val : Z
}.

(** [*tp++ = (val >> 8) & 0xff; *tp++ = val & 0xff]. *)
Definition p6_put (s : p6) : option p6 :=
  match store (p6_tmp s) (p6_tp s) (Z.land (Z.shiftr (p6_val s) 8) 0xff) with
  | None => None
  | Some t =>
    match store t (S (p6_tp s)) (Z.land (p6_val s) 0xff) with
    | None => None
    | Some t' => Some (P6 t' (S (S (p6_tp s))) (p6_colonp s) (p6_saw s) (p6_val s))
    end
  end.

(** Storing the four bytes of an embedded IPv4 address at [tp]. *)
Fixpoint store_all (buf : list Z) (i : nat) (vs : list Z) : option (list Z) :=
  match vs with
  | [] => Some buf
  | v :: vs' => match store buf i v with
                | None => None
                | Some buf' => store_all buf' (S i) vs'
                end
  end.

(** The outcome of the scanning loop: [return 0], leaving the loop, or a fault. *)
Inductive scan := ScanBad | ScanDone (s : p6) | ScanOverrun.

Fixpoint pton6_loop (src curtok : string) (s : p6) : scan :=
  match src with
  | EmptyString => ScanDone s
  | String c src' =>
    match hex_digit c with
    | Some d =>
      let val := Z.lor (uint32 (Z.shiftl (p6_val s) 4)) d in
      if 0xffff <? val then ScanBad
      else pton6_loop src' curtok (P6 (p6_tmp s) (p6_tp s) (p6_colonp s) true val)
    | None =>
      if Ascii.eqb c ":" then
        if negb (p6_saw s) then
          match p6_colonp s with
          | Some _ => ScanBad
          | None => pton6_loop src' src'
                      (P6 (p6_tmp s) (p6_tp s) (Some (p6_tp s)) (p6_saw s) (p6_val s))
          end
        else if Ascii.eqb (deref src') NUL then ScanBad
        else if (IN6ADDRSZ <? p6_tp s + INT16SZ)%nat then ScanBad
        else match p6_put s with
             | None => ScanOverrun
             | Some s' =>
               pton6_loop src' src' (P6 (p6_tmp s') (p6_tp s') (p6_colonp s') false 0)
             end
      else if negb (Ascii.eqb (deref src') NUL) && Ascii.eqb c "." then
        if (p6_tp s + INADDRSZ <=? IN6ADDRSZ)%nat then
          match inet_pton4 curtok with
          | Valid bs =>
            match store_all (p6_tmp s) (p6_tp s) bs with
            | None => ScanOverrun
            | Some t => ScanDone (P6 t (p6_tp s + INADDRSZ) (p6_colonp s) false (p6_val s))
            end
          | Invalid => ScanBad
          | Overrun => ScanOverrun
          end
        else ScanBad
      else pton6_loop src' curtok s
    end
  end.

(** The shift by hand: [for (i = 1; i <= n; i++) { endp[-i] = colonp[n - i];
    colonp[n - i] = 0; }], with [todo = n - i + 1]. *)
Fixpoint shift_loop (todo : nat) (n colonp : nat) (buf : list Z) : option (list Z) :=
  match todo with
  | O => Some buf
  | S todo' =>
    let i := (n - todo')%nat in
    match buf !! (colonp + (n - i))%nat with
    | None => None
    | Some v =>
      match store buf (IN6ADDRSZ - i) v with
      | None => None
      | Some buf' =>
        match store buf' (colonp + (n - i)) 0 with
        | None => None
        | Some buf'' => shift_loop todo' n colonp buf''
        end
      end
    end
  end.

Definition pton6_finish (s : p6) : parsed :=
  match p6_colonp s with
  | Some c =>
    let n := (p6_tp s - c)%nat in
    if (p6_tp s =? IN6ADDRSZ)%nat then Invalid
    else match shift_loop n n c (p6_tmp s) with
         | None => Overrun
         | Some buf => Valid buf
         end
  | None => if (p6_tp s =? IN6ADDRSZ)%nat then Valid (p6_tmp s) else Invalid
  end.

Definition inet_pton6 (src0 : string) : parsed :=
  let start := P6 (replicate IN6ADDRSZ 0) 0 None false 0 in
  let leading := Ascii.eqb (deref src0) ":" in
  if leading && negb (Ascii.eqb (deref (tail src0)) ":") then Invalid
  else
    let src := if leading then tail src0 else src0 in
    match pton6_loop src src start with
    | ScanBad => Invalid
    | ScanOverrun => Overrun
    | ScanDone s =>
      if p6_saw s then
        if (IN6ADDRSZ <? p6_tp s + INT16SZ)%nat then Invalid
        else match p6_put s with
             | None => Overrun
             | Some s' => pton6_finish s'
             end
      else pton6_finish s
    end.

(** ** Masks *)

Section masks.
Context `{RbLib}.
(** [NICKLEN] is a compile-time setting of the build. *)
Context (NICKLEN : nat).

(** Both addresses parsed and compared; [None] is an access out of bounds. *)
Definition compare_addrs (pton : string → parsed) (ip ipmask : string) (cidrlen : Z)
  : option bool :=
  match pton ip with
  | Overrun => None
  | Invalid => Some false
  | Valid ipaddr =>
    match pton ipmask with
    | Overrun => None
    | Invalid => Some false
    | Valid maskaddr => comp_with_mask ipaddr maskaddr (uint32 cidrlen)
    end
  end.

(** 0 is a match, as in the source. *)
Definition match_ips (s1 s2 : string) : option Z :=
  let ipmask := rb_strlcpy BUFSIZE s1 in
  let ip := rb_strlcpy (HOSTLEN + 1) s2 in
  match strrchr ipmask "/" with
  | None => Some 1
  | Some (ipmask, len) =>
    let cidrlen := atoi len in
    if cidrlen =? 0 then Some 1
    else if has_char ip ":" && has_char ipmask ":" then
      if 128 <? cidrlen then Some 1
      else match compare_addrs inet_pton6 ip ipmask cidrlen with
           | None => None
           | Some b => Some (if b then 0 else 1)
           end
    else if negb (has_char ip ":") && negb (has_char ipmask ":") then
      if 32 <? cidrlen then Some 1
      else match compare_addrs inet_pton4 ip ipmask cidrlen with
           | None => None
           | Some b => Some (if b then 0 else 1)
           end
    else Some 1
  end.

(** 1 is a match. *)
Definition match_cidr (s1 s2 : string) : option Z :=
  let mask := rb_strlcpy BUFSIZE s1 in
  let address := rb_strlcpy (NICKLEN + USERLEN + HOSTLEN + 6) s2 in
  match strrchr mask "@" with
  | None => Some 0
  | Some (mask, ipmask) =>
    match strrchr address "@" with
    | None => Some 0
    | Some (address, ip) =>
      match strrchr ipmask "/" with
      | None => Some 0
      | Some (ipmask, len) =>
        let cidrlen := atoi len in
        if cidrlen =? 0 then Some 0
        else if has_char ip ":" && has_char ipmask ":" then
          if 128 <? cidrlen then Some 0
          else match compare_addrs inet_pton6 ip ipmask cidrlen with
               | None => None
               | Some b => Some (if b && negb (match_mask (Some mask) (Some address) =? 0)
                                 then 1 else 0)
               end
        else if negb (has_char ip ":") && negb (has_char ipmask ":") then
          if 32 <? cidrlen then Some 0
          else match compare_addrs inet_pton4 ip ipmask cidrlen with
               | None => None
               | Some b => Some (if b && negb (match_mask (Some mask) (Some address) =? 0)
                                 then 1 else 0)
               end
        else Some 1
      end
    end
  end.
End masks.

(** ** Comparison under a mask *)

(** Bit [i] of an address, counted from the most significant bit of its first byte. *)
Definition addr_bit (l : list Z) (i : nat) : bool :=
  Z.testbit (nth (i / 8) l 0) (7 - Z.of_nat (i `mod` 8)).

Definition is_bytes (l : list Z) : Prop := Forall (fun b => 0 ≤ b < 256) l.

Lemma byte_bits x y :
  0 ≤ x < 256 → 0 ≤ y < 256 →
  x = y ↔ ∀ j, 0 ≤ j < 8 → Z.testbit x j = Z.testbit y j.
Proof.
  intros Hx Hy. split; [by intros ->|]. intros H. apply Z.bits_inj'. intros n Hn.
  destruct (Z_lt_le_dec n 8); [apply H; lia|].
  assert (∀ z, 0 ≤ z < 256 → Z.testbit z n = false) as Hhi.
  { intros z Hz. destruct (Z.eq_dec z 0) as [->|]; [apply Z.bits_0|].
    apply Z.bits_above_log2; [lia|].
    assert (Z.log2 z < 8) by (apply Z.log2_lt_pow2; lia). lia. }
  by rewrite !Hhi.
Qed.

Lemma masked_byte_bits x y k :
  0 ≤ x < 256 → 0 ≤ y < 256 → 0 ≤ k →
  Z.land x (Z.shiftl (-1) k) = Z.land y (Z.shiftl (-1) k) ↔
  ∀ j, k ≤ j < 8 → Z.testbit x j = Z.testbit y j.
Proof.
  intros Hx Hy Hk.
  assert (∀ z j, 0 ≤ j → Z.testbit (Z.land z (Z.shiftl (-1) k)) j
                         = Z.testbit z j && (k <=? j)) as Hb.
  { intros z j Hj. rewrite Z.land_spec, Z.shiftl_spec by done. f_equal.
    destruct (Z.leb_spec k j); [by rewrite Z.bits_m1 by lia|].
    apply Z.testbit_neg_r. lia. }
  assert (∀ z, 0 ≤ z < 256 → 0 ≤ Z.land z (Z.shiftl (-1) k) < 256) as Hr.
  { intros z Hz. split; [apply Z.land_nonneg; lia|].
    apply (Z.le_lt_trans _ z); [|lia].
    apply Z.ldiff_le; [lia|]. apply Z.bits_inj'. intros j Hj.
    rewrite Z.ldiff_spec, Hb, Z.bits_0 by done.
    by destruct (Z.testbit z j), (k <=? j). }
  rewrite byte_bits by auto. split; intros H j Hj.
  - specialize (H j). rewrite !Hb, (proj2 (Z.leb_le k j)), !andb_true_r in H by lia.
    apply H. lia.
  - rewrite !Hb by lia. destruct (Z.leb_spec k j); [|by rewrite !andb_false_r].
    rewrite H by lia. done.
Qed.

Lemma take_bits a b q :
  is_bytes a → is_bytes b → (q ≤ length a)%nat → (q ≤ length b)%nat →
  take q a = take q b ↔ ∀ i, (i < 8 * q)%nat → addr_bit a i = addr_bit b i.
Proof.
  intros Ha Hb Hqa Hqb. split.
  - intros H i Hi. unfold addr_bit.
    assert (i / 8 < q)%nat as Hlt by (apply Nat.Div0.div_lt_upper_bound; lia).
    rewrite !nth_lookup. f_equal. f_equal.
    by rewrite <- (lookup_take_lt a q), <- (lookup_take_lt b q), H.
  - intros H. apply list_eq. intros i. destruct (decide (i < q)%nat) as [Hi|Hi].
    2:{ rewrite !lookup_ge_None_2; [done|rewrite length_take; lia..]. }
    rewrite !lookup_take_lt by done.
    destruct (lookup_lt_is_Some_2 a i) as [x Hx]; [lia|].
    destruct (lookup_lt_is_Some_2 b i) as [y Hy]; [lia|].
    rewrite Hx, Hy. f_equal.
    pose proof (Forall_lookup_1 _ _ _ _ Ha Hx). pose proof (Forall_lookup_1 _ _ _ _ Hb Hy).
    apply byte_bits; [done..|]. intros j Hj.
    specialize (H (8 * i + Z.to_nat (7 - j))%nat). unfold addr_bit in H.
    replace ((8 * i + Z.to_nat (7 - j)) / 8)%nat with i in H
      by (apply Nat.div_unique with (Z.to_nat (7 - j)); lia).
    replace ((8 * i + Z.to_nat (7 - j)) `mod` 8)%nat with (Z.to_nat (7 - j)) in H
      by (apply Nat.mod_unique with i; lia).
    rewrite !nth_lookup, Hx, Hy in H. simpl in H.
    replace (7 - Z.of_nat (Z.to_nat (7 - j))) with j in H by lia. apply H. lia.
Qed.

Lemma comp_with_mask_ok (addr dest : list Z) (mask : nat)
  (Ha : is_bytes addr) (Hd : is_bytes dest)
  (Hla : (mask ≤ 8 * length addr)%nat) (Hld : (mask ≤ 8 * length dest)%nat) :
  ∃ r, comp_with_mask addr dest (Z.of_nat mask) = Some r ∧
    (r = true ↔ ∀ i, (i < mask)%nat → addr_bit addr i = addr_bit dest i).
Proof.
  set (q := (mask / 8)%nat). set (k := (mask `mod` 8)%nat).
  pose proof (Nat.div_mod_eq mask 8) as Hqk. fold q k in Hqk.
  assert (k < 8)%nat as Hk by (apply Nat.mod_upper_bound; lia).
  assert (Z.to_nat (Z.of_nat mask `div` 8) = q) as Eq
    by (change 8 with (Z.of_nat 8); rewrite <- Nat2Z.inj_div; apply Nat2Z.id).
  assert (Z.of_nat mask `mod` 8 = Z.of_nat k) as Ek
    by (change 8 with (Z.of_nat 8); by rewrite <- Nat2Z.inj_mod).
  unfold comp_with_mask, memcmp_eq. rewrite Eq, Ek.
  rewrite !(proj2 (Nat.leb_le _ _)) by lia. simpl.
  pose proof (take_bits addr dest q Ha Hd ltac:(lia) ltac:(lia)) as Htake.
  destruct (bool_decide (take q addr = take q dest)) eqn:Et.
  2:{ apply bool_decide_eq_false in Et. exists false. split; [done|]. split; [done|].
      intros H. exfalso. apply Et, (proj2 Htake). intros i Hi. apply H. lia. }
  apply bool_decide_eq_true in Et. pose proof (proj1 Htake Et) as Hbits. clear Et.
  destruct (Z.eqb_spec (Z.of_nat k) 0) as [Hk0|Hk0].
  { exists true. split; [done|]. split; [|done]. intros _ i Hi. apply Hbits. lia. }
  destruct (lookup_lt_is_Some_2 addr q) as [x Hx]; [lia|].
  destruct (lookup_lt_is_Some_2 dest q) as [y Hy]; [lia|].
  rewrite Hx, Hy. eexists. split; [done|].
  pose proof (Forall_lookup_1 _ _ _ _ Ha Hx). pose proof (Forall_lookup_1 _ _ _ _ Hd Hy).
  rewrite Z.eqb_eq, masked_byte_bits by (done || lia).
  assert (∀ i, (8 * q ≤ i < 8 * q + 8)%nat →
    addr_bit addr i = Z.testbit x (7 - Z.of_nat (i - 8 * q)) ∧
    addr_bit dest i = Z.testbit y (7 - Z.of_nat (i - 8 * q))) as Hlast.
  { intros i Hi. unfold addr_bit.
    replace (i / 8)%nat with q by (apply Nat.div_unique with (i - 8 * q)%nat; lia).
    replace (i `mod` 8)%nat with (i - 8 * q)%nat by (apply Nat.mod_unique with q; lia).
    by rewrite !nth_lookup, Hx, Hy. }
  split.
  - intros He i Hi. destruct (decide (i < 8 * q)%nat); [by apply Hbits|].
    destruct (Hlast i) as [-> ->]; [lia|]. apply He. lia.
  - intros He j Hj. specialize (He (8 * q + Z.to_nat (7 - j))%nat).
    destruct (Hlast (8 * q + Z.to_nat (7 - j))%nat) as [E1 E2]; [lia|].
    rewrite E1, E2 in He. replace (7 - Z.of_nat _) with j in He by lia. apply He. lia.
Qed.

(** On two addresses that have at least [mask] bits, [comp_with_mask()] stays
    inside both arrays and answers 1 exactly if their first [mask] bits agree. *)
Theorem comp_with_mask_correct (addr dest : list Z) (mask : nat)
  (Ha : is_bytes addr) (Hd : is_bytes dest)
  (Hla : (mask ≤ 8 * length addr)%nat) (Hld : (mask ≤ 8 * length dest)%nat) :
  ∃ r, comp_with_mask addr dest (Z.of_nat mask) = Some r ∧
    (r = true ↔ ∀ i, (i < mask)%nat → addr_bit addr i = addr_bit dest i).
Proof. by apply comp_with_mask_ok. Qed.

Lemma comp_with_mask_correct_witness :
  comp_with_mask [10; 1; 128; 7] [10; 1; 255; 9] 17 = Some true ∧
  ∃ r, comp_with_mask [10; 1; 128; 7] [10; 1; 255; 9] (Z.of_nat 17) = Some r ∧
    (r = true ↔ ∀ i, (i < 17)%nat →
       addr_bit [10; 1; 128; 7] i = addr_bit [10; 1; 255; 9] i).
Proof.
  split; [reflexivity|]. apply comp_with_mask_correct; try (simpl; lia);
    repeat constructor; lia.
Defined.

(** ** Dotted quads *)

(** The reference: four fields between dots, each a nonempty string of digits of
    value at most 255. *)
(** The value of a field whose first digits have value [cur]. *)
Definition octet_from (cur : Z) (started : bool) (s : string) : option Z :=
  let '(v, rest) := digits_value cur s in
  if (started || negb (String.eqb s "")) && String.eqb rest "" && (v <=? 255)
  then Some v else None.

Definition dotted_quad (s : string) : option (list Z) :=
  match mapM (octet_from 0 false) (split_on "." s) with
  | Some bs => if (length bs =? 4)%nat then Some bs else None
  | None => None
  end.

Lemma digits_value_ge acc s : 0 ≤ acc → acc ≤ fst (digits_value acc s).
Proof.
  revert acc; induction s as [|c s IH]; simpl; intros acc Hacc; [lia|].
  destruct (is_digit c) eqn:Hc; simpl; [|lia].
  assert (0 ≤ code c - 48) by (unfold is_digit in Hc; bool_simpl; lia).
  specialize (IH (10 * acc + (code c - 48)) ltac:(lia)). lia.
Qed.

Lemma octet_from_cons cur b c s :
  0 ≤ cur →
  octet_from cur b (String c s) =
  if is_digit c then octet_from (10 * cur + (code c - 48)) true s else None.
Proof.
  intros Hcur. unfold octet_from. simpl. rewrite orb_true_r.
  by destruct (is_digit c).
Qed.

(** What the fields still to come must be for a state of the parser. *)
Definition quad_rest (done : list Z) (cur : Z) (saw : bool) (s : string) : parsed :=
  match split_on "." s with
  | h :: t =>
    match octet_from cur saw h, mapM (octet_from 0 false) t with
    | Some v, Some vs =>
      if (length (done ++ v :: vs) =? 4)%nat then Valid (done ++ v :: vs) else Invalid
    | _, _ => Invalid
    end
  | [] => Invalid
  end.

Lemma store_app l x r v i : i = length l → store (l ++ x :: r) i v = Some (l ++ v :: r).
Proof.
  intros ->. unfold store. rewrite (proj2 (Nat.ltb_lt _ _)).
  - by rewrite insert_app_r_alt, Nat.sub_diag by lia.
  - rewrite length_app. simpl. lia.
Qed.

Lemma pton4_loop_ref s l cur r octets saw :
  length (l ++ cur :: r) = 4%nat → 0 ≤ cur ≤ 255 →
  octets = Z.of_nat (length l) + (if saw : bool then 1 else 0) →
  (saw = false → cur = 0) →
  pton4_loop s (l ++ cur :: r) (length l) octets saw = quad_rest l cur saw s.
Proof.
  revert l cur r octets saw; induction s as [|c s IH]; intros l cur r octets saw Hlen Hcur Ho Hsaw.
  - unfold quad_rest. simpl. unfold octet_from. simpl.
    rewrite (proj2 (Z.leb_le cur 255)) by lia. rewrite length_app in Hlen. simpl in Hlen.
    destruct saw; simpl; [|by destruct (Z.ltb_spec octets 4); [|lia]].
    rewrite length_app; simpl. destruct (Z.ltb_spec octets 4) as [H4|H4].
    + by destruct (Nat.eqb_spec (length l + 1) 4); [lia|].
    + destruct r; [|simpl in Hlen; lia]. by destruct (Nat.eqb_spec (length l + 1) 4); [|lia].
  - simpl. destruct (is_digit c) eqn:Hc.
    + assert (Ascii.eqb c "." = false) as Hdot.
      { apply Ascii.eqb_neq. intros ->. done. }
      assert (0 ≤ code c - 48) as Hd by (unfold is_digit in Hc; bool_simpl; lia).
      rewrite list_lookup_middle by done.
      assert (quad_rest l cur saw (String c s) =
              quad_rest l (10 * cur + (code c - 48)) true s) as Eq.
      { unfold quad_rest. simpl. rewrite Hdot.
        destruct (split_on_cons "." s) as (h & t & ->).
        by rewrite octet_from_cons, Hc by lia. }
      rewrite Eq, store_app by done.
      replace (cur * 10 + (code c - 48)) with (10 * cur + (code c - 48)) by lia.
      destruct (Z.ltb_spec 255 (10 * cur + (code c - 48))) as [Hbig|Hsmall].
      { unfold quad_rest. destruct (split_on_cons "." s) as (h & t & ->).
        unfold octet_from. pose proof (digits_value_ge (10 * cur + (code c - 48)) h ltac:(lia)).
        destruct (digits_value _ h) as [v rest]. simpl in *.
        destruct (Z.leb_spec v 255); [lia|]. by rewrite andb_false_r. }
      rewrite length_app in Hlen. simpl in Hlen.
      destruct saw; simpl.
      * apply IH; rewrite ?length_app; simpl; done || lia.
      * destruct (Z.ltb_spec 4 (octets + 1)); [lia|].
        apply IH; rewrite ?length_app; simpl; done || lia.
    + destruct (Ascii.eqb_spec c ".") as [->|Hdot]; simpl.
      * assert (quad_rest l cur saw (String "." s) =
                match octet_from cur saw "" with
                | Some v => quad_rest (l ++ [v]) 0 false s
                | None => Invalid
                end) as Eq.
        { unfold quad_rest. simpl. destruct (split_on_cons "." s) as (h & t & ->).
          destruct (octet_from cur saw ""); [|done]. simpl.
          destruct (octet_from 0 false h); simpl; [|done].
          destruct (mapM (octet_from 0 false) t); simpl; [|done].
          by rewrite <- (app_assoc l). }
        rewrite Eq. unfold octet_from at 1. simpl. rewrite orb_false_r.
        destruct saw; [|done]. simpl. rewrite (proj2 (Z.leb_le cur 255)) by lia.
        rewrite length_app in Hlen. simpl in Hlen.
        destruct (Z.eqb_spec octets 4) as [H4|H4].
        { unfold quad_rest. destruct (split_on_cons "." s) as (h & t & ->).
          destruct (octet_from 0 false h); [|done].
          destruct (mapM (octet_from 0 false) t); [|done].
          rewrite !length_app; simpl.
          by destruct (Nat.eqb_spec (length l + 1 + S (length l0)) 4); [lia|]. }
        destruct r as [|x r]; [simpl in Hlen; lia|].
        replace (l ++ cur :: x :: r) with ((l ++ [cur]) ++ x :: r) by (by rewrite <- app_assoc).
        rewrite store_app by (rewrite length_app; simpl; lia).
        replace (S (length l)) with (length (l ++ [cur])) by (rewrite length_app; simpl; lia).
        apply IH; rewrite ?length_app; simpl; try done; simpl in Hlen; lia.
      * unfold quad_rest. simpl.
        rewrite (proj2 (Ascii.eqb_neq c ".")) by done.
        destruct (split_on_cons "." s) as (h & t & ->).
        by rewrite octet_from_cons, Hc by lia.
Qed.

Lemma inet_pton4_ref src :
  inet_pton4 src = match dotted_quad src with Some bs => Valid bs | None => Invalid end.
Proof.
  unfold inet_pton4. change (replicate INADDRSZ 0) with ([] ++ 0 :: [0; 0; 0]).
  change 0%nat with (length (@nil Z)). rewrite pton4_loop_ref; [|done..|lia|done|done].
  unfold quad_rest, dotted_quad. destruct (split_on_cons "." src) as (h & t & ->). simpl.
  destruct (octet_from 0 false h); simpl; [|done].
  destruct (mapM (octet_from 0 false) t); simpl; [|done].
  by repeat split_guard.
Qed.

(** C36.  [inet_pton4()] accepts exactly the dotted quads - four nonempty decimal
    fields of value at most 255 - and stores their values; it never leaves the
    array of 4 bytes. *)
Theorem inet_pton4_exact (src : string) :
  inet_pton4 src = match dotted_quad src with Some bs => Valid bs | None => Invalid end.
Proof. apply inet_pton4_ref. Qed.

(** ** IPv6 addresses *)

Lemma dotted_quad_shape s bs : dotted_quad s = Some bs → length bs = 4%nat ∧ is_bytes bs.
Proof.
  unfold dotted_quad. destruct (mapM _ _) as [l|] eqn:E; [|done].
  destruct (Nat.eqb_spec (length l) 4); [|done]. intros [= <-]. split; [done|].
  apply mapM_Some_1 in E. apply Forall_forall. intros b Hb.
  apply list_elem_of_lookup in Hb as [i Hi].
  destruct (Forall2_lookup_r _ _ _ _ _ E Hi) as (f & _ & Hf).
  unfold octet_from in Hf. pose proof (digits_value_ge 0 f ltac:(lia)).
  destruct (digits_value 0 f) as [v rest]. simpl in *.
  destruct (_ && (v <=? 255)) eqn:Ec; [|done]. injection Hf as <-. bool_simpl. lia.
Qed.

Lemma inet_pton4_shape s :
  inet_pton4 s ≠ Overrun ∧ (∀ bs, inet_pton4 s = Valid bs → length bs = 4%nat ∧ is_bytes bs).
Proof.
  rewrite inet_pton4_ref. destruct (dotted_quad s) eqn:E; split; try done.
  intros bs [= <-]. by apply dotted_quad_shape in E.
Qed.

Lemma store_ok buf i v :
  (i < length buf)%nat → is_bytes buf → 0 ≤ v < 256 →
  ∃ buf', store buf i v = Some buf' ∧ length buf' = length buf ∧ is_bytes buf'.
Proof.
  intros Hi Hb Hv. unfold store. rewrite (proj2 (Nat.ltb_lt _ _)) by done.
  eexists. split; [done|]. rewrite length_insert. split; [done|]. by apply Forall_insert.
Qed.

Lemma store_all_ok buf i vs :
  (i + length vs ≤ length buf)%nat → is_bytes buf → is_bytes vs →
  ∃ buf', store_all buf i vs = Some buf' ∧ length buf' = length buf ∧ is_bytes buf'.
Proof.
  revert buf i; induction vs as [|v vs IH]; simpl; intros buf i Hl Hb Hvs; [eauto|].
  apply Forall_cons in Hvs as [Hv Hvs].
  destruct (store_ok buf i v) as (buf' & -> & Hl' & Hb'); [lia|done..|].
  destruct (IH buf' (S i)) as (buf'' & -> & Hl'' & Hb''); [lia|done..|].
  exists buf''. split; [done|]. split; [lia|done].
Qed.

(** The invariant of the parser's locals. *)
Record p6_ok (s : p6) : Prop := P6Ok {
  p6_len : length (p6_tmp s) = IN6ADDRSZ;
  p6_bytes : is_bytes (p6_tmp s);
  p6_tp_le : (p6_tp s ≤ IN6ADDRSZ)%nat;
  p6_colon : ∀ c, p6_colonp s = Some c → (c ≤ p6_tp s)%nat;
  p6_range : 0 ≤ p6_val s ≤ 0xffff
}.

Lemma land_ff v : 0 ≤ Z.land v 0xff < 256.
Proof.
  change 0xff with (Z.ones 8). rewrite Z.land_ones by lia. apply Z.mod_pos_bound. lia.
Qed.

Lemma p6_put_ok s :
  p6_ok s → (p6_tp s + INT16SZ ≤ IN6ADDRSZ)%nat → ∃ s', p6_put s = Some s' ∧ p6_ok s'.
Proof.
  intros [Hl Hb Ht Hc Hv] Hfit. unfold p6_put.
  unfold IN6ADDRSZ, INT16SZ in *.
  destruct (store_ok (p6_tmp s) (p6_tp s) (Z.land (Z.shiftr (p6_val s) 8) 0xff))
    as (b1 & -> & Hl1 & Hb1); [lia|done|apply land_ff|].
  destruct (store_ok b1 (S (p6_tp s)) (Z.land (p6_val s) 0xff))
    as (b2 & -> & Hl2 & Hb2); [lia|done|apply land_ff|].
  eexists. split; [done|]. constructor; simpl; unfold IN6ADDRSZ; try done; try lia.
  intros c Hc'. specialize (Hc c Hc'). lia.
Qed.

Lemma hex_digit_range c d : hex_digit c = Some d → 0 ≤ d < 16.
Proof.
  unfold hex_digit. destruct (is_digit (tolower c)) eqn:E.
  - intros [= <-]. unfold is_digit in E. bool_simpl. lia.
  - destruct (_ && _) eqn:E2; [|done]. intros [= <-]. bool_simpl. lia.
Qed.

Lemma hex_shift v d : 0 ≤ v ≤ 0xffff → 0 ≤ d < 16 →
  Z.lor (uint32 (Z.shiftl v 4)) d = v * 16 + d.
Proof.
  intros Hv Hd. rewrite uint32_small by (rewrite Z.shiftl_mul_pow2 by lia; lia).
  rewrite Z.shiftl_mul_pow2 by lia. change (2 ^ 4) with 16.
  assert (Z.land (v * 16) d = 0) as H0.
  { apply Z.bits_inj'; intros n Hn. rewrite Z.land_spec, Z.bits_0.
    change 16 with (2 ^ 4). destruct (Z_lt_le_dec n 4).
    + by rewrite Z.mul_pow2_bits_low by lia.
    + destruct (Z.eq_dec d 0) as [->|]; [by rewrite Z.bits_0, andb_false_r|].
      rewrite (Z.bits_above_log2 d), andb_false_r; [done|lia|].
      assert (Z.log2 d < 4) by (apply Z.log2_lt_pow2; lia). lia. }
  by rewrite <- Z.lxor_lor, <- Z.add_nocarry_lxor.
Qed.

Lemma pton6_loop_ok src curtok s :
  p6_ok s → match pton6_loop src curtok s with
            | ScanDone s' => p6_ok s' | ScanBad => True | ScanOverrun => False end.
Proof.
  revert curtok s; induction src as [|c src IH]; intros curtok s Hs; [done|]. simpl.
  destruct (hex_digit c) as [d|] eqn:Hd.
  { apply hex_digit_range in Hd. rewrite hex_shift by (try apply Hs; lia).
    destruct (Z.ltb_spec 0xffff (p6_val s * 16 + d)); [done|]. apply IH.
    destruct Hs; constructor; simpl; try done; lia. }
  destruct (Ascii.eqb c ":").
  { destruct (p6_saw s); simpl.
    - destruct (Ascii.eqb (deref src) NUL); [done|].
      destruct (Nat.ltb_spec IN6ADDRSZ (p6_tp s + INT16SZ)) as [|Hfit]; [done|].
      destruct (p6_put_ok s Hs Hfit) as (s' & -> & Hs'). apply IH.
      destruct Hs'; constructor; simpl; try done; lia.
    - destruct (p6_colonp s); [done|]. apply IH.
      destruct Hs; constructor; simpl; try done. intros c' [= <-]. done. }
  destruct (_ && _); [|by apply IH].
  destruct (Nat.leb_spec (p6_tp s + INADDRSZ) IN6ADDRSZ) as [Hfit|]; [|done].
  destruct (inet_pton4_shape curtok) as [Hno Hval].
  destruct (inet_pton4 curtok) as [|bs|]; [done| |done].
  destruct (Hval bs eq_refl) as [Hl4 Hb4]. destruct Hs as [Hl Hb Ht Hc Hv].
  unfold INADDRSZ, IN6ADDRSZ in *.
  destruct (store_all_ok (p6_tmp s) (p6_tp s) bs) as (t & -> & Hlt & Hbt); [lia|done..|].
  constructor; simpl; unfold IN6ADDRSZ; try done; try lia.
  intros c' Hc'. specialize (Hc c' Hc'). lia.
Qed.

Lemma shift_loop_ok todo n c buf :
  length buf = IN6ADDRSZ → is_bytes buf → (todo ≤ n)%nat → (c + n ≤ IN6ADDRSZ)%nat →
  ∃ buf', shift_loop todo n c buf = Some buf' ∧ length buf' = IN6ADDRSZ ∧ is_bytes buf'.
Proof.
  unfold IN6ADDRSZ.
  revert buf; induction todo as [|todo IH]; simpl; intros buf Hl Hb Ht Hc; [eauto|].
  unfold IN6ADDRSZ.
  destruct (lookup_lt_is_Some_2 buf (c + (n - (n - todo)))) as [v Hv]; [lia|]. rewrite Hv.
  pose proof (Forall_lookup_1 _ _ _ _ Hb Hv) as Hvr.
  destruct (store_ok buf (16 - (n - todo)) v) as (b1 & -> & Hl1 & Hb1); [lia|done..|].
  destruct (store_ok b1 (c + (n - (n - todo))) 0) as (b2 & -> & Hl2 & Hb2);
    [lia|done|lia|].
  apply IH; try done; lia.
Qed.

Lemma pton6_finish_ok s :
  p6_ok s → pton6_finish s ≠ Overrun ∧
  ∀ bs, pton6_finish s = Valid bs → length bs = IN6ADDRSZ ∧ is_bytes bs.
Proof.
  intros [Hl Hb Ht Hc Hv]. unfold pton6_finish. destruct (p6_colonp s) as [c|].
  - destruct (Nat.eqb_spec (p6_tp s) IN6ADDRSZ); [done|]. specialize (Hc c eq_refl).
    destruct (shift_loop_ok (p6_tp s - c) (p6_tp s - c) c (p6_tmp s))
      as (buf & -> & Hlb & Hbb); [done|done|lia|lia|].
    split; [done|]. by intros bs [= <-].
  - destruct (Nat.eqb_spec (p6_tp s) IN6ADDRSZ); split; try done. by intros bs [= <-].
Qed.

Lemma inet_pton6_ok src :
  inet_pton6 src ≠ Overrun ∧
  ∀ bs, inet_pton6 src = Valid bs → length bs = IN6ADDRSZ ∧ is_bytes bs.
Proof.
  unfold inet_pton6. destruct (_ && _); [done|].
  set (src' := if _ : bool then _ else _).
  assert (p6_ok (P6 (replicate IN6ADDRSZ 0) 0 None false 0)) as H0.
  { constructor; simpl; try done; try lia; unfold is_bytes; repeat constructor; lia. }
  pose proof (pton6_loop_ok src' src' _ H0) as Hl.
  destruct (pton6_loop _ _ _) as [|s|]; [done| |done].
  destruct (p6_saw s); [|by apply pton6_finish_ok].
  destruct (Nat.ltb_spec IN6ADDRSZ (p6_tp s + INT16SZ)) as [|Hfit]; [done|].
  destruct (p6_put_ok s Hl Hfit) as (s' & -> & Hs'). by apply pton6_finish_ok.
Qed.

(** ** Printed addresses *)

Definition hex_char (d : Z) : ascii := char_of (if d <? 10 then 48 + d else 87 + d).

(** A group of 16 bits as four hexadecimal digits. *)
Definition show_group (g : Z) : string :=
  String (hex_char (g / 4096)) (String (hex_char ((g / 256) `mod` 16))
    (String (hex_char ((g / 16) `mod` 16)) (String (hex_char (g `mod` 16)) ""))).

Fixpoint show_groups (gs : list Z) : string :=
  match gs with
  | [] => ""
  | [g] => show_group g
  | g :: gs' => (show_group g ++ String ":" (show_groups gs'))%string
  end.

Definition group_bytes (g : Z) : list Z := [g / 256; g `mod` 256].

Lemma hex_digit_char d : 0 ≤ d < 16 → hex_digit (hex_char d) = Some d.
Proof.
  intros Hd.
  assert (d = 0 ∨ d = 1 ∨ d = 2 ∨ d = 3 ∨ d = 4 ∨ d = 5 ∨ d = 6 ∨ d = 7 ∨ d = 8 ∨ d = 9 ∨
          d = 10 ∨ d = 11 ∨ d = 12 ∨ d = 13 ∨ d = 14 ∨ d = 15) as Hc by lia.
  repeat destruct Hc as [->|Hc]; [by vm_compute..|]. subst. by vm_compute.
Qed.

Lemma pton6_digit d src cur s :
  0 ≤ d < 16 → 0 ≤ p6_val s → p6_val s * 16 + d ≤ 0xffff →
  pton6_loop (String (hex_char d) src) cur s =
  pton6_loop src cur (P6 (p6_tmp s) (p6_tp s) (p6_colonp s) true (p6_val s * 16 + d)).
Proof.
  intros Hd Hv Hsmall. simpl. rewrite hex_digit_char, hex_shift by lia.
  by destruct (Z.ltb_spec 0xffff (p6_val s * 16 + d)); [lia|].
Qed.

Lemma pton6_group g src cur t tp c saw :
  0 ≤ g < 65536 →
  pton6_loop (show_group g ++ src) cur (P6 t tp c saw 0) =
  pton6_loop src cur (P6 t tp c true g).
Proof.
  intros Hg. unfold show_group.
  pose proof (Z.div_mod g 16 ltac:(done)). pose proof (Z.mod_pos_bound g 16 ltac:(done)).
  pose proof (Z.div_mod (g / 16) 16 ltac:(done)).
  pose proof (Z.mod_pos_bound (g / 16) 16 ltac:(done)).
  pose proof (Z.div_mod (g / 256) 16 ltac:(done)).
  pose proof (Z.mod_pos_bound (g / 256) 16 ltac:(done)).
  assert (g / 16 / 16 = g / 256) as E1 by (by rewrite Z.div_div).
  assert (g / 256 / 16 = g / 4096) as E2 by (by rewrite Z.div_div).
  change ((String ?a (String ?b (String ?x (String ?y ""))) ++ src)%string)
    with (String a (String b (String x (String y src)))).
  rewrite E1 in *. rewrite E2 in *.
  assert (0 ≤ g / 4096 < 16) by (split; [apply Z.div_pos; lia|apply Z.div_lt_upper_bound; lia]).
  do 4 (rewrite pton6_digit; cbn [p6_tmp p6_tp p6_colonp p6_val]; [|lia..]).
  do 2 f_equal. lia.
Qed.

Lemma p6_put_app l x y r c saw g :
  0 ≤ g < 65536 →
  p6_put (P6 (l ++ x :: y :: r) (length l) c saw g) =
  Some (P6 ((l ++ group_bytes g) ++ r) (length (l ++ group_bytes g)) c saw g).
Proof.
  intros Hg. unfold p6_put. simpl.
  rewrite store_app by done.
  replace (l ++ Z.land (Z.shiftr g 8) 255 :: y :: r)
    with ((l ++ [Z.land (Z.shiftr g 8) 255]) ++ y :: r) by (by rewrite <- app_assoc).
  rewrite store_app by (rewrite length_app; simpl; lia).
  change 255 with (Z.ones 8). rewrite !Z.land_ones, Z.shiftr_div_pow2 by lia.
  change (2 ^ 8) with 256. rewrite (Z.mod_small (g / 256)).
  2:{ split; [apply Z.div_pos; lia|apply Z.div_lt_upper_bound; lia]. }
  unfold group_bytes. rewrite <- !app_assoc, !length_app. simpl. do 2 f_equal. lia.
Qed.

Lemma pton6_colon_step src cur t tp c g :
  deref src ≠ NUL → (tp + INT16SZ ≤ IN6ADDRSZ)%nat →
  pton6_loop (String ":" src) cur (P6 t tp c true g) =
  match p6_put (P6 t tp c true g) with
  | None => ScanOverrun
  | Some s' => pton6_loop src src (P6 (p6_tmp s') (p6_tp s') (p6_colonp s') false 0)
  end.
Proof.
  intros Hd Hfit. cbn [pton6_loop].
  replace (hex_digit ":") with (@None Z) by reflexivity.
  replace (Ascii.eqb ":" ":") with true by reflexivity.
  cbn [p6_saw p6_tp negb]. rewrite (proj2 (Ascii.eqb_neq _ _) Hd).
  by destruct (Nat.ltb_spec IN6ADDRSZ (tp + INT16SZ)); [lia|].
Qed.

(** The scan of the remaining groups, with the bytes of the earlier ones stored. *)
Lemma pton6_groups gs l cur :
  gs ≠ [] → Forall (fun g => 0 ≤ g < 65536) gs →
  (length l + 2 * length gs = IN6ADDRSZ)%nat →
  ∃ l' g, pton6_loop (show_groups gs) cur
            (P6 (l ++ replicate (2 * length gs) 0) (length l) None false 0) =
          ScanDone (P6 (l' ++ [0; 0]) (length l') None true g) ∧
    0 ≤ g < 65536 ∧ length l' = 14%nat ∧
    l ++ mjoin (group_bytes <$> gs) = l' ++ group_bytes g.
Proof.
  unfold IN6ADDRSZ.
  revert l cur; induction gs as [|g gs IH]; intros l cur Hne Hr Hlen; [done|].
  apply Forall_cons in Hr as [Hg Hr]. destruct gs as [|g' gs].
  - simpl show_groups. rewrite <- (str_app_nil_r (show_group g)), pton6_group by done.
    exists l, g. simpl in *. split_and!; [done|lia..|lia|done].
  - assert (show_groups (g :: g' :: gs) =
            (show_group g ++ String ":" (show_groups (g' :: gs)))%string) as -> by done.
    rewrite pton6_group by done.
    set (gs' := g' :: gs) in *.
    assert (deref (show_groups gs') ≠ NUL) as Hd.
    { subst gs'. apply Forall_cons in Hr as [Hg' _].
      assert (hex_digit (hex_char (g' / 4096)) = Some (g' / 4096)) as Hh.
      { apply hex_digit_char.
        split; [apply Z.div_pos; lia|apply Z.div_lt_upper_bound; lia]. }
      assert (deref (show_groups (g' :: gs)) = hex_char (g' / 4096)) as -> by (by destruct gs).
      intros E. rewrite E in Hh. by vm_compute in Hh. }
    replace (2 * length (g :: gs'))%nat with (S (S (2 * length gs'))) in * by (simpl; lia).
    rewrite pton6_colon_step;
      [|done|unfold IN6ADDRSZ, INT16SZ; subst gs'; simpl in Hlen; lia].
    change (replicate (S (S (2 * length gs'))) 0) with (0 :: 0 :: replicate (2 * length gs') 0).
    rewrite p6_put_app by done. cbn [p6_tmp p6_tp p6_colonp].
    destruct (IH (l ++ group_bytes g) (show_groups gs')) as (l' & gl & El & Hgl & Hl' & Eb);
      [by subst gs'|done|rewrite length_app; simpl in *; lia|].
    exists l', gl. rewrite El. split_and!; [done|lia..|done|].
    rewrite <- Eb. rewrite <- app_assoc. done.
Qed.

(** C35.  [inet_pton6()] never accesses anything outside its array of 16 bytes,
    and what it accepts is 16 bytes long. *)
Theorem inet_pton6_safe (src : string) :
  inet_pton6 src ≠ Overrun ∧
  ∀ bs, inet_pton6 src = Valid bs → length bs = IN6ADDRSZ ∧ is_bytes bs.
Proof. apply inet_pton6_ok. Qed.

(** [inet_pton6()] reads back a printed address: on eight groups of four
    hexadecimal digits it returns exactly the bytes of the groups. *)
Theorem inet_pton6_roundtrip (gs : list Z)
  (Hlen : length gs = 8%nat) (Hgs : Forall (fun g => 0 ≤ g < 65536) gs) :
  inet_pton6 (show_groups gs) = Valid (mjoin (group_bytes <$> gs)).
Proof.
  destruct (pton6_groups gs [] (show_groups gs)) as (l' & g & El & Hg & Hl' & Eb);
    [by destruct gs|done|simpl; unfold IN6ADDRSZ; lia|].
  unfold inet_pton6.
  assert (Ascii.eqb (deref (show_groups gs)) ":" = false) as ->.
  { destruct gs as [|g0 gs]; [done|]. apply Forall_cons in Hgs as [Hg0 _].
    assert (deref (show_groups (g0 :: gs)) = hex_char (g0 / 4096)) as -> by (by destruct gs).
    apply Ascii.eqb_neq. intros E.
    assert (hex_digit (hex_char (g0 / 4096)) = Some (g0 / 4096)) as Hh.
    { apply hex_digit_char. split; [apply Z.div_pos; lia|apply Z.div_lt_upper_bound; lia]. }
    rewrite E in Hh. done. }
  simpl andb. cbn iota. simpl in El. rewrite Hlen in El. unfold IN6ADDRSZ in *.
  change (replicate (8 + (8 + 0)) 0) with (replicate 16 0) in El. rewrite El.
  cbn [p6_saw p6_tp]. unfold INT16SZ. destruct (Nat.ltb_spec 16 (length l' + 2)); [lia|].
  rewrite p6_put_app by done. unfold pton6_finish. cbn [p6_colonp p6_tp p6_tmp].
  rewrite length_app, Hl', app_nil_r. simpl in Eb. by rewrite Eb.
Qed.

Lemma inet_pton6_roundtrip_witness :
  inet_pton6 (show_groups [0x2001; 0xdb8; 0; 0; 0; 0; 0; 1]) =
  Valid [0x20; 0x01; 0x0d; 0xb8; 0; 0; 0; 0; 0; 0; 0; 0; 0; 0; 0; 1].
Proof.
  apply (inet_pton6_roundtrip [0x2001; 0xdb8; 0; 0; 0; 0; 0; 1]); [reflexivity|].
  repeat constructor; lia.
Defined.

(** ** Masks with an address and a prefix length *)

Lemma strrchr_None s c : c ∉ chars s → strrchr s c = None.
Proof.
  induction s as [|a s IH]; simpl; [done|]. rewrite not_elem_of_cons. intros [Hca Hs].
  rewrite IH by done. by destruct (Ascii.eqb_spec a c); [congruence|].
Qed.

Lemma strrchr_app p q c : c ∉ chars q → strrchr (p ++ String c q) c = Some (p, q).
Proof.
  intros Hq. induction p as [|a p IH].
  - simpl. by rewrite strrchr_None, Ascii.eqb_refl.
  - change ((String a p ++ String c q)%string) with (String a (p ++ String c q)).
    cbn [strrchr]. by rewrite IH.
Qed.

(** A mask [m@i/l] and an address [a@h] that fit the buffers they are copied to. *)
Record cidr_input (NICKLEN : nat) (m i l a h : string) : Prop := CidrInput {
  ci_mask : (strlen (m ++ "@" ++ i ++ "/" ++ l) < BUFSIZE)%nat;
  ci_addr : (strlen (a ++ "@" ++ h) < NICKLEN + USERLEN + HOSTLEN + 6)%nat;
  ci_at : "@"%char ∉ chars (i ++ "/" ++ l);
  ci_host : "@"%char ∉ chars h;
  ci_slash : "/"%char ∉ chars l
}.

Section masks_spec.
Context `{RbSpec} (NICKLEN : nat).

(** The parser of the family an address text belongs to, and its prefix limit. *)
Definition pton_of (six : bool) : string → parsed := if six then inet_pton6 else inet_pton4.
Definition bits_of (six : bool) : Z := if six then 128 else 32.

Lemma match_cidr_parts m i l a h :
  cidr_input NICKLEN m i l a h →
  match_cidr NICKLEN (m ++ "@" ++ i ++ "/" ++ l) (a ++ "@" ++ h) =
  if atoi l =? 0 then Some 0
  else if Bool.eqb (has_char h ":") (has_char i ":") then
    if bits_of (has_char h ":") <? atoi l then Some 0
    else match compare_addrs (pton_of (has_char h ":")) h i (atoi l) with
         | None => None
         | Some b => Some (if b && negb (match_mask (Some m) (Some a) =? 0) then 1 else 0)
         end
  else Some 1.
Proof.
  intros [Hm Ha Hat Hh Hs]. unfold match_cidr, strlen in *.
  rewrite !rb_strlcpy_fits by done.
  change ("@" ++ i ++ "/" ++ l)%string with (String "@" (i ++ String "/" l)) in *.
  change ("@" ++ h)%string with (String "@" h) in *.
  rewrite (strrchr_app m), (strrchr_app a), (strrchr_app i) by done.
  destruct (atoi l =? 0); [done|].
  by destruct (has_char h ":"), (has_char i ":").
Qed.

Lemma pton_of_shape six s bs :
  pton_of six s = Valid bs → is_bytes bs ∧ 8 * Z.of_nat (length bs) = bits_of six.
Proof.
  destruct six; simpl; intros E.
  - by apply inet_pton6_ok in E as [-> ?].
  - by apply inet_pton4_shape in E as [-> ?].
Qed.

Lemma pton_of_no_overrun six s : pton_of six s ≠ Overrun.
Proof. destruct six; [apply inet_pton6_ok|apply inet_pton4_shape]. Qed.

(** Both texts are addresses of the family whose first [n] bits agree. *)
Definition same_prefix (six : bool) (h i : string) (n : Z) : Prop :=
  ∃ x y, pton_of six h = Valid x ∧ pton_of six i = Valid y ∧
    ∀ k, (k < Z.to_nat n)%nat → addr_bit x k = addr_bit y k.

Lemma compare_addrs_ok six h i n :
  0 < n ≤ bits_of six →
  ∃ b, compare_addrs (pton_of six) h i n = Some b ∧ (b = true ↔ same_prefix six h i n).
Proof.
  intros Hn. unfold compare_addrs, same_prefix.
  pose proof (pton_of_no_overrun six h). pose proof (pton_of_no_overrun six i).
  destruct (pton_of six h) as [|x|] eqn:Ex; [|clear H1|done].
  { exists false. split; [done|]. split; [done|]. naive_solver. }
  destruct (pton_of six i) as [|y|] eqn:Ey; [| |done].
  { exists false. split; [done|]. split; [done|]. naive_solver. }
  apply pton_of_shape in Ex as [Hx Hlx]. apply pton_of_shape in Ey as [Hy Hly].
  assert (bits_of six ≤ 128) by (destruct six; simpl; lia).
  rewrite uint32_small by lia. rewrite <- (Z2Nat.id n) by lia.
  destruct (comp_with_mask_ok x y (Z.to_nat n)) as (r & -> & Hr); [done|done|lia..|].
  exists r. split; [done|]. rewrite Hr, Nat2Z.id. split; [by eauto 10|].
  intros (x' & y' & [= <-] & [= <-] & ?). done.
Qed.

(** C34.  For a positive prefix length and a mask and an address of one family,
    [match_cidr()] stays inside its buffers and returns 1 exactly if the length
    is not more than the family has, both texts are addresses whose leading bits
    agree, and [match()] accepts the part before the address; otherwise 0. *)
Theorem match_cidr_correct (m i l a h : string)
  (Hin : cidr_input NICKLEN m i l a h) (Hl : 0 < atoi l)
  (Hfam : has_char h ":" = has_char i ":") :
  let six := has_char h ":" in
  let r := match_cidr NICKLEN (m ++ "@" ++ i ++ "/" ++ l) (a ++ "@" ++ h) in
  (r = Some 0 ∨ r = Some 1) ∧
  (r = Some 1 ↔ atoi l ≤ bits_of six ∧ same_prefix six h i (atoi l) ∧
                match_mask (Some m) (Some a) ≠ 0).
Proof.
  simpl. rewrite match_cidr_parts by done.
  destruct (Z.eqb_spec (atoi l) 0); [lia|]. rewrite Hfam, eqb_reflx, <- Hfam.
  set (six := has_char h ":").
  destruct (Z.ltb_spec (bits_of six) (atoi l)); [split; [by left|]; split; [done|lia]|].
  destruct (compare_addrs_ok six h i (atoi l)) as (b & -> & Hb); [lia|].
  destruct b; simpl.
  - destruct (Z.eqb_spec (match_mask (Some m) (Some a)) 0); simpl.
    + split; [by left|]. split; [done|]. intros (_ & _ & ?). done.
    + split; [by right|]. split; [|done]. intros _. split; [done|]. split; [by apply Hb|done].
  - split; [by left|]. split; [done|]. intros (_ & Hp & _). by apply Hb in Hp.
Qed.

(** When one of the two addresses is IPv6 and the other is not,
    [match_cidr()] reports a match whatever they are, without looking at the
    nick and user part of the mask either. *)
Theorem match_cidr_mixed_families (m i l a h : string)
  (Hin : cidr_input NICKLEN m i l a h) (Hl : atoi l ≠ 0)
  (Hfam : has_char h ":" ≠ has_char i ":") :
  match_cidr NICKLEN (m ++ "@" ++ i ++ "/" ++ l) (a ++ "@" ++ h) = Some 1.
Proof.
  rewrite match_cidr_parts by done. destruct (Z.eqb_spec (atoi l) 0); [done|].
  by destruct (has_char h ":"), (has_char i ":").
Qed.

(** A negative prefix length is not rejected: converted to [unsigned int] it
    makes [comp_with_mask()] read far outside the two 16-byte arrays. *)
Theorem match_cidr_negative_length (m i l a h : string) (x y : list Z)
  (Hin : cidr_input NICKLEN m i l a h) (Hl : atoi l < 0)
  (Hfam : has_char h ":" = has_char i ":")
  (Hx : pton_of (has_char h ":") h = Valid x) (Hy : pton_of (has_char h ":") i = Valid y) :
  match_cidr NICKLEN (m ++ "@" ++ i ++ "/" ++ l) (a ++ "@" ++ h) = None.
Proof.
  rewrite match_cidr_parts by done.
  destruct (Z.eqb_spec (atoi l) 0); [lia|]. rewrite Hfam, eqb_reflx, <- Hfam.
  set (six := has_char h ":") in *.
  assert (0 ≤ bits_of six ≤ 128) by (destruct six; simpl; lia).
  destruct (Z.ltb_spec (bits_of six) (atoi l)); [lia|].
  unfold compare_addrs. rewrite Hx, Hy.
  apply pton_of_shape in Hx as [_ Hlx].
  unfold comp_with_mask, memcmp_eq.
  assert (2 ^ 31 ≤ uint32 (atoi l)) as Hbig.
  { pose proof (int32_range (atol l)). fold (atoi l) in *. unfold uint32, wrapU.
    rewrite <- (Z.mod_add _ 1), Z.mod_small by lia. lia. }
  assert (2 ^ 31 / 8 ≤ uint32 (atoi l) / 8) as Hq by (by apply Z.div_le_mono).
  change (2 ^ 31 / 8) with 268435456 in Hq.
  rewrite (proj2 (Nat.leb_gt _ _)); [done|]. lia.
Qed.
End masks_spec.

Lemma match_cidr_correct_witness :
  @match_cidr rb_reference 9 "*!*@10.64.0.0/10" "nick!user@10.100.1.2" = Some 1.
Proof.
  apply (@match_cidr_correct rb_reference rb_reference_spec 9
           "*!*" "10.64.0.0" "10" "nick!user" "10.100.1.2");
    [constructor; vm_compute; (lia || set_solver)|vm_compute; reflexivity|reflexivity|].
  split; [vm_compute; discriminate|]. split; [|vm_compute; discriminate].
  exists [10; 100; 1; 2], [10; 64; 0; 0].
  split; [vm_compute; reflexivity|]. split; [vm_compute; reflexivity|].
  intros k Hk. change (Z.to_nat (atoi "10")) with 10%nat in Hk.
  do 10 (destruct k as [|k]; [reflexivity|]). lia.
Defined.

Lemma match_cidr_mixed_families_witness :
  @match_cidr rb_reference 9 "nobody!none@10.0.0.0/8" "nick!user@2001:db8::1" = Some 1.
Proof.
  apply (@match_cidr_mixed_families rb_reference rb_reference_spec 9
           "nobody!none" "10.0.0.0" "8" "nick!user" "2001:db8::1");
    [constructor; vm_compute; (lia || set_solver)|vm_compute; discriminate..].
Defined.

Lemma match_cidr_negative_length_witness :
  @match_cidr rb_reference 9 "*!*@10.0.0.0/-8" "nick!user@10.1.1.1" = None.
Proof.
  apply (@match_cidr_negative_length rb_reference rb_reference_spec 9
           "*!*" "10.0.0.0" "-8" "nick!user" "10.1.1.1" [10; 1; 1; 1] [10; 0; 0; 0]);
    [constructor; vm_compute; (lia || set_solver)|vm_compute; reflexivity..].
Defined.
