(* ===== verification/Rserv.v ===== *)
(** * Parameters and names ([src/rserv.c])

    The helpers of the main file that work on text: joining a handler's
    parameters back into a line, and the syntax of server names and ids. *)

From S2P Require Import Prelude CString Match Rblib Tools.

Section rserv.
Context `{RbLib}.

(** The loop stops early when the text no longer fits. *)
Fixpoint rebuild_loop (buf : string) (params : list string) : string :=
  match params with
  | [] => buf
  | a :: params =>
    let buf := rb_strlcat BUFSIZE buf " " in
    let buf' := rb_strlcat BUFSIZE buf a in
    if (BUFSIZE <=? strlen buf + strlen a)%nat then buf' else rebuild_loop buf' params
  end.

Definition rebuild_params (parv : list string) (start : nat) : string :=
  match drop start parv with
  | [] => ""
  | a :: params => rebuild_loop (rb_strlcat BUFSIZE "" a) params
  end.
End rserv.

(** The number of dots, if every character may stand in a server's name. *)
Fixpoint server_dots (name : string) (dots : Z) : option Z :=
  match name with
  | EmptyString => Some dots
  | String c name =>
    if Ascii.eqb c NUL then Some dots
    else if negb (IsServChar c) then None
    else server_dots name (if Ascii.eqb c "." then dots + 1 else dots)
  end.

Definition valid_servername (name : string) : bool :=
  if IsDigit (deref name) then false
  else match server_dots name 0 with
       | None => false
       | Some dots => negb (dots =? 0)
       end.

Definition valid_sid (name : string) : bool :=
  IsDigit (char_at name 0)
  && (IsDigit (char_at name 1) || IsLetter (char_at name 1))
  && (IsDigit (char_at name 2) || IsLetter (char_at name 2))
  && Ascii.eqb (char_at name 3) NUL.
