(* ===== verification/Fault.v ===== *)
(** * Effects: state, termination and memory faults

    The stateful code is written in the monad [M S]: a computation takes a state
    and either returns a value and a state, terminates the process ([die()]), or
    faults, which is what C leaves undefined: a null or dangling pointer, an
    access outside an array, a loop that did not end within its fuel.  Nothing in
    the monad catches a fault, so a program that is proved to return has none.

    [wp m Q s]: from [s], [m] does not fault, and if it returns, [Q] holds of the
    value and the state.  The loops of the sources over linked lists are
    [foreach] and [foreach_safe]. *)

From S2P Require Import Prelude.

Inductive fault := NullDeref | Dangling | OutOfBounds | OutOfFuel.

Inductive outcome (S A : Type) :=
| Ok (a : A) (s : S)
| Die (why : string)
| Fault (f : fault).
#[global] Arguments Ok {S A} _ _.
#[global] Arguments Die {S A} _.
#[global] Arguments Fault {S A} _.

Definition M (S A : Type) : Type := S → outcome S A.

#[export] Instance M_ret S : MRet (M S) := fun A a s => Ok a s.
#[export] Instance M_bind S : MBind (M S) := fun A B k m s =>
  match m s with
  | Ok a s' => k a s'
  | Die why => Die why
  | Fault f => Fault f
  end.

Definition get {S} : M S S := fun s => Ok s s.
Definition gets {S A} (f : S → A) : M S A := fun s => Ok (f s) s.
Definition modify {S} (f : S → S) : M S unit := fun s => Ok tt (f s).
Definition faulty {S A} (f : fault) : M S A := fun _ => Fault f.
Definition die {S A} (why : string) : M S A := fun _ => Die why.

Lemma bind_ok {S A B} (m : M S A) (k : A → M S B) s a s' : m s = Ok a s' → mbind k m s = k a s'.
Proof. unfold mbind, M_bind. by intros ->. Qed.

Lemma bind_fault {S A B} (m : M S A) (k : A → M S B) s f : m s = Fault f → mbind k m s = Fault f.
Proof. unfold mbind, M_bind. by intros ->. Qed.

Lemma run_bind {S A B} (m : M S A) (k : A → M S B) s a s' r :
  m s = Ok a s' → k a s' = r → mbind k m s = r.
Proof. intros E. by rewrite (bind_ok _ _ _ _ _ E). Qed.

(** [*x] of a value that may be missing. *)
Definition need {S A} (f : fault) (x : option A) : M S A :=
  match x with Some a => mret a | None => faulty f end.

Definition when {S} (b : bool) (m : M S unit) : M S unit := if b then m else mret tt.

(** ** Lists walked by the program *)
Section loops.
Context {S A : Type} `{EqDecision A}.

(** The first element that passes a test. *)
Fixpoint find_first (test : A → M S bool) (l : list A) : M S (option A) :=
  match l with
  | [] => mret None
  | x :: l' => b ← test x; if (b : bool) then mret (Some x) else find_first test l'
  end.

(** The node after that of [x]: [None] when [x] is not in the list. *)
Fixpoint next_of (x : A) (l : list A) : option (option A) :=
  match l with
  | [] => None
  | y :: l' => if decide (x = y) then Some (head l') else next_of x l'
  end.

(** [RB_DLINK_FOREACH_SAFE]: the next node is read before the body runs.  A body
    that unlinks the node the loop goes on to leaves the loop on a dead node. *)
Fixpoint safe_from (fuel : nat) (lst : S → list A) (body : A → M S unit) (x : A) : M S unit :=
  match fuel with
  | O => faulty OutOfFuel
  | Datatypes.S fuel =>
    l ← gets lst;
    nxt ← need Dangling (next_of x l);
    _ ← body x;
    match nxt with
    | None => mret tt
    | Some y => safe_from fuel lst body y
    end
  end.

Definition foreach_safe (lst : S → list A) (body : A → M S unit) : M S unit :=
  l ← gets lst;
  match head l with
  | None => mret tt
  | Some x => safe_from (length l) lst body x
  end.

(** [RB_DLINK_FOREACH]: the next node is read after the body has run. *)
Fixpoint each_from (fuel : nat) (lst : S → list A) (body : A → M S unit) (x : A) : M S unit :=
  match fuel with
  | O => faulty OutOfFuel
  | Datatypes.S fuel =>
    _ ← body x;
    l ← gets lst;
    nxt ← need Dangling (next_of x l);
    match nxt with
    | None => mret tt
    | Some y => each_from fuel lst body y
    end
  end.

Definition foreach (lst : S → list A) (body : A → M S unit) : M S unit :=
  l ← gets lst;
  match head l with
  | None => mret tt
  | Some x => each_from (length l) lst body x
  end.
End loops.

(** ** Weakest preconditions *)
Definition wp {S A} (m : M S A) (Q : A → S → Prop) (s : S) : Prop :=
  match m s with
  | Ok a s' => Q a s'
  | Die _ => True
  | Fault _ => False
  end.

Section wp.
Context {S A : Type}.
Implicit Types (m : M S A) (s : S).

Lemma wp_conseq m Q R s : wp m Q s → (∀ a s', Q a s' → R a s') → wp m R s.
Proof. unfold wp. destruct (m s); eauto. Qed.

Lemma wp_bind {B} m (k : A → M S B) Q s :
  wp m (fun a s' => wp (k a) Q s') s → wp (mbind k m) Q s.
Proof. unfold wp, mbind, M_bind. by destruct (m s). Qed.

Lemma wp_unbind {B} m (k : A → M S B) Q s :
  wp (mbind k m) Q s → wp m (fun a s' => wp (k a) Q s') s.
Proof. unfold wp, mbind, M_bind. by destruct (m s). Qed.

(** A prefix of a computation on its own. *)
Lemma wp_assoc {B C} m (j : A → M S B) (k : B → M S C) Q s :
  wp (b ← (a ← m; j a); k b) Q s → wp (a ← m; b ← j a; k b) Q s.
Proof. unfold wp, mbind, M_bind. by destruct (m s). Qed.

Lemma wp_unassoc {B C} m (j : A → M S B) (k : B → M S C) Q s :
  wp (a ← m; b ← j a; k b) Q s → wp (b ← (a ← m; j a); k b) Q s.
Proof. unfold wp, mbind, M_bind. by destruct (m s). Qed.

Lemma wp_ret (a : A) Q s : Q a s → wp (mret a) Q s.
Proof. done. Qed.

Lemma wp_gets (f : S → A) Q s : Q (f s) s → wp (gets f) Q s.
Proof. done. Qed.

Lemma wp_need f (x : option A) a Q s : x = Some a → Q a s → wp (need f x) Q s.
Proof. by intros ->. Qed.

Lemma wp_die why Q s : wp (die why : M S A) Q s.
Proof. done. Qed.

(** The run of a computation that neither faults nor terminates the process. *)
Lemma wp_ok m Q s a s' : m s = Ok a s' → wp m Q s ↔ Q a s'.
Proof. unfold wp. by intros ->. Qed.
Lemma wp_elim m Q s a s' : wp m Q s → m s = Ok a s' → Q a s'.
Proof. intros H E. by apply (wp_ok _ _ _ _ _ E). Qed.
(** What is known of every run that returns. *)
Lemma wp_every m Q (R : A → S → Prop) s :
  wp m Q s → (∀ a s', m s = Ok a s' → R a s') → wp m (fun a s' => Q a s' ∧ R a s') s.
Proof. unfold wp. destruct (m s); eauto. Qed.
Lemma wp_intro m Q s : (∀ f, m s ≠ Fault f) → (∀ a s', m s = Ok a s' → Q a s') → wp m Q s.
Proof. unfold wp. destruct (m s) as [| |f]; [eauto|done|]. intros H. by destruct (H f). Qed.
Lemma wp_no_fault m Q s f : wp m Q s → m s ≠ Fault f.
Proof. unfold wp. by destruct (m s). Qed.
End wp.

Lemma wp_modify {S} (f : S → S) Q s : Q tt (f s) → wp (modify f) Q s.
Proof. done. Qed.

Lemma wp_when {S} (b : bool) (m : M S unit) Q s :
  (b = true → wp m Q s) → (b = false → Q tt s) → wp (when b m) Q s.
Proof. destruct b; simpl; [by eauto|]. intros _ H. by apply H. Qed.

#[global] Opaque wp.

Create HintDb wp.
#[export] Hint Resolve wp_ret wp_gets wp_modify wp_die : wp.

(** One step into a goal [wp m Q s] whose computation is in normal form. *)
Ltac wp_step :=
  lazymatch goal with
  | |- wp (mbind _ _) _ _ => apply wp_bind
  | |- wp (mret _) _ _ => apply wp_ret
  | |- wp (gets _) _ _ => apply wp_gets
  | |- wp get _ _ => apply (wp_gets (fun s => s))
  | |- wp (modify _) _ _ => apply wp_modify
  | |- wp (die _) _ _ => apply wp_die
  | |- wp (when _ _) _ _ => apply wp_when; intros ?
  | |- wp (need _ (Some _)) _ _ => eapply wp_need; [reflexivity|]
  | |- wp (if ?b then _ else _) _ _ => destruct b eqn:?
  | |- wp (match ?x with _ => _ end) _ _ => destruct x eqn:?
  end.
Ltac wp_steps := repeat (cbn beta iota; wp_step).

(** ** Loop rules *)
Section loop_rules.
Context {S A : Type} `{EqDecision A}.
Implicit Types (lst : S → list A) (body : A → M S unit).

Lemma wp_find_first (test : A → M S bool) (l : list A) (p : A → bool) Q s :
  (∀ x, x ∈ l → test x s = Ok (p x) s) →
  Q (list_find (fun x => p x = true) l ≫= fun r => Some (snd r)) s →
  wp (find_first test l) Q s.
Proof.
  revert Q. induction l as [|x l IH]; simpl; intros Q Ht HQ; [by apply wp_ret|].
  apply wp_bind. rewrite wp_ok by (apply Ht; set_solver).
  destruct (decide (p x = true)) as [E|E].
  - rewrite E. by apply wp_ret.
  - apply not_true_iff_false in E as E'. rewrite E'. apply IH; [set_solver|].
    by destruct (list_find _ l) as [[? ?]|].
Qed.

Lemma next_of_app (x : A) (p q : list A) : x ∉ p → next_of x (p ++ x :: q) = Some (head q).
Proof.
  induction p as [|y p IH]; simpl; intros Hx; [by rewrite decide_True|].
  rewrite not_elem_of_cons in Hx. rewrite decide_False by tauto. apply IH; tauto.
Qed.

(** A body that unlinks its own node, and no other, empties the list. *)
Lemma wp_foreach_safe_drain lst body (I : list A → S → Prop) (Q : unit → S → Prop) s :
  NoDup (lst s) →
  I (lst s) s →
  (∀ x l s', lst s' = x :: l → NoDup (x :: l) → I (x :: l) s' →
     wp (body x) (fun _ s'' => lst s'' = l ∧ I l s'') s') →
  (∀ s', lst s' = [] → I [] s' → Q tt s') →
  wp (foreach_safe lst body) Q s.
Proof.
  intros Hnd HI Hbody HQ. unfold foreach_safe. do 2 wp_step.
  destruct (lst s) as [|x l] eqn:E; cbn [head]; [by apply wp_ret, HQ|].
  assert (∀ n x l s', (length l < n)%nat → lst s' = x :: l → NoDup (x :: l) → I (x :: l) s' →
    wp (safe_from n lst body x) Q s') as Hloop.
  { clear - HQ Hbody. induction n as [|n IH]; simpl; intros x l s' Hn E Hnd HI; [lia|].
    do 2 wp_step. wp_step. rewrite E. simpl. rewrite decide_True by done. do 2 wp_step.
    eapply wp_conseq; [by apply Hbody|]. simpl. intros _ s'' [E' HI'].
    apply NoDup_cons in Hnd as [_ Hnd].
    destruct l as [|y l]; simpl; [by apply wp_ret, HQ|].
    apply (IH y l); [simpl in Hn; lia|done..]. }
  by apply (Hloop _ x l); [simpl; lia|..].
Qed.

(** A body that leaves the list alone visits every element in order. *)
Lemma wp_foreach_stable lst body (I : list A → list A → S → Prop) (Q : unit → S → Prop) s :
  NoDup (lst s) →
  I [] (lst s) s →
  (∀ p x q s', lst s' = p ++ x :: q → NoDup (p ++ x :: q) → I p (x :: q) s' →
     wp (body x) (fun _ s'' => lst s'' = p ++ x :: q ∧ I (p ++ [x]) q s'') s') →
  (∀ l s', lst s' = l → I l [] s' → Q tt s') →
  wp (foreach lst body) Q s.
Proof.
  intros Hnd HI Hbody HQ. unfold foreach. do 2 wp_step.
  destruct (lst s) as [|x l] eqn:E; cbn [head]; [by apply wp_ret, (HQ [])|].
  assert (∀ n p x q s', (length q < n)%nat → lst s' = p ++ x :: q → NoDup (p ++ x :: q) →
    I p (x :: q) s' → wp (each_from n lst body x) Q s') as Hloop.
  { clear - HQ Hbody. induction n as [|n IH]; simpl; intros p x q s' Hn E Hnd HI; [lia|].
    wp_step. eapply wp_conseq; [by apply (Hbody p x q)|]. simpl. intros _ s'' [E' HI'].
    do 2 wp_step. wp_step. rewrite E', next_of_app by (apply NoDup_app in Hnd; set_solver).
    wp_step. destruct q as [|y q]; simpl; [by apply wp_ret, (HQ (p ++ [x]))|].
    apply (IH (p ++ [x]) y q); [simpl in *; lia|rewrite <-app_assoc; done..|done]. }
  by apply (Hloop _ [] x l); [simpl; lia|..].
Qed.
End loop_rules.

(** ** Computations that leave a part of the state alone *)
Section keeps.
Context {S B : Type} (f : S → B).

Definition keeps {A} (m : M S A) : Prop := ∀ s a s', m s = Ok a s' → f s' = f s.

Lemma keeps_ret {A} (a : A) : keeps (mret a).
Proof. by intros s b s' [= _ <-]. Qed.
Lemma keeps_gets {A} (g : S → A) : keeps (gets g).
Proof. by intros s b s' [= _ <-]. Qed.
Lemma keeps_get : keeps get.
Proof. by intros s b s' [= _ <-]. Qed.
Lemma keeps_die {A} why : keeps (die why : M S A).
Proof. by intros s b s'. Qed.
Lemma keeps_need {A} e (x : option A) : keeps (need e x).
Proof. destruct x; [apply keeps_ret|by intros s b s']. Qed.
Lemma keeps_modify g : (∀ s, f (g s) = f s) → keeps (modify g).
Proof. intros Hg s b s' [= _ <-]. apply Hg. Qed.

Lemma keeps_bind {A C} (m : M S A) (k : A → M S C) : keeps m → (∀ a, keeps (k a)) → keeps (mbind k m).
Proof.
  intros Hm Hk s c s'. unfold mbind, M_bind. destruct (m s) as [a s1| |] eqn:E; [|done..].
  intros E'. rewrite (Hk a s1 c s' E'). by apply (Hm s a).
Qed.

Lemma keeps_when (b : bool) (m : M S unit) : keeps m → keeps (when b m).
Proof. destruct b; [done|]. intros _. apply keeps_ret. Qed.

Lemma keeps_find_first {A} (test : A → M S bool) l : (∀ x, keeps (test x)) → keeps (find_first test l).
Proof.
  intros Ht. induction l as [|x l IH]; [apply keeps_ret|]. apply keeps_bind; [apply Ht|].
  intros []; [apply keeps_ret|done].
Qed.

Lemma keeps_foreach {A} `{EqDecision A} (lst : S → list A) body : (∀ x, keeps (body x)) → keeps (foreach lst body).
Proof.
  intros Hb. apply keeps_bind; [apply keeps_gets|]. intros l. destruct (head l) as [x|]; [|apply keeps_ret].
  generalize (length l). intros n. revert x. induction n as [|n IH]; intros x; [by intros s b s'|].
  apply keeps_bind; [apply Hb|]. intros _. apply keeps_bind; [apply keeps_gets|]. intros l'.
  apply keeps_bind; [apply keeps_need|]. intros [y|]; [apply IH|apply keeps_ret].
Qed.

Lemma wp_keeps {A} (m : M S A) (Q : A → S → Prop) s :
  keeps m → wp m Q s → wp m (fun a s' => Q a s' ∧ f s' = f s) s.
Proof. intros Hm Hw. apply wp_every; [done|]. apply Hm. Qed.
End keeps.

Create HintDb keeps.
#[export] Hint Resolve keeps_ret keeps_gets keeps_get keeps_die keeps_need keeps_when : keeps.

(** Through binds, branches and what the database [keeps] knows. *)
Ltac keeps_tac :=
  repeat first
    [ progress intros
    | solve [auto with keeps]
    | apply keeps_foreach
    | apply keeps_when
    | apply keeps_bind
    | match goal with
      | |- keeps _ (match ?x with _ => _ end) => destruct x
      | |- keeps _ (let '_ := _ in _) => cbn zeta
      end ].

(** ** Computations that do not end the process *)
Section lasting.
Context {S : Type}.

Definition lasting {A} (m : M S A) : Prop := ∀ s why, m s ≠ Die why.

Lemma lasting_ret {A} (a : A) : lasting (mret a).
Proof. done. Qed.
Lemma lasting_gets {A} (g : S → A) : lasting (gets g).
Proof. done. Qed.
Lemma lasting_get : lasting get.
Proof. done. Qed.
Lemma lasting_need {A} e (x : option A) : lasting (need e x).
Proof. by destruct x. Qed.
Lemma lasting_modify g : lasting (modify g).
Proof. done. Qed.

Lemma lasting_bind {A C} (m : M S A) (k : A → M S C) : lasting m → (∀ a, lasting (k a)) → lasting (mbind k m).
Proof.
  intros Hm Hk s why. unfold mbind, M_bind. destruct (m s) as [a s1|y|f] eqn:E; [apply Hk| |done].
  intros [= ->]. by destruct (Hm s why).
Qed.

Lemma lasting_when (b : bool) (m : M S unit) : lasting m → lasting (when b m).
Proof. by destruct b. Qed.

Lemma lasting_foreach {A} `{EqDecision A} (lst : S → list A) body : (∀ x, lasting (body x)) → lasting (foreach lst body).
Proof.
  intros Hb. apply lasting_bind; [apply lasting_gets|]. intros l. destruct (head l) as [x|]; [|apply lasting_ret].
  generalize (length l). intros n. revert x. induction n as [|n IH]; intros x; [done|].
  apply lasting_bind; [apply Hb|]. intros _. apply lasting_bind; [apply lasting_gets|]. intros l'.
  apply lasting_bind; [apply lasting_need|]. intros [y|]; [apply IH|apply lasting_ret].
Qed.

(** The same run, from another state. *)
Lemma wp_run {A} (m m' : M S A) (Q : A → S → Prop) s s' : m s = m' s' → wp m' Q s' → wp m Q s.
Proof.
  intros E Hw. apply wp_intro; rewrite E; [intros f; by eapply wp_no_fault|]. intros a s1 E1. by eapply wp_elim.
Qed.

(** Neither a fault nor the end: it returns. *)
Lemma wp_returns {A} (m : M S A) (Q : A → S → Prop) s :
  lasting m → wp m Q s → ∃ a s', m s = Ok a s' ∧ Q a s'.
Proof.
  intros Hm Hw. destruct (m s) as [a s'|why|f] eqn:E.
  - exists a, s'. split; [done|]. by eapply wp_elim.
  - by destruct (Hm s why).
  - by destruct (wp_no_fault _ _ _ f Hw).
Qed.
End lasting.

Create HintDb lasting.
#[export] Hint Resolve lasting_ret lasting_gets lasting_get lasting_need lasting_modify lasting_when : lasting.

Ltac lasting_tac :=
  repeat first
    [ progress intros
    | solve [auto with lasting]
    | apply lasting_foreach
    | apply lasting_when
    | apply lasting_bind
    | match goal with
      | |- lasting (match ?x with _ => _ end) => destruct x
      | |- lasting (let '_ := _ in _) => cbn zeta
      end ].
