(* ===== verification/Snprintf.v ===== *)
(** * Formatted output ([src/snprintf.c])

    [rs_vsnprintf], from which every SQL statement of the program is built.  The
    buffers are arrays: a write past the end of [dest] or of [TempBuffer], and a
    read outside [IntTable], is a fault.  An argument carries the type that the
    caller passes; taking it as another type is undefined in C and a fault here.

    [formats] says declaratively what a format and its arguments stand for;
    [rs_vsnprintf] is proved to write that text, cut to the buffer. *)

From S2P Require Import Prelude CString Fault.

(** ** Data *)
Definition TABLE_MAX : Z := 1000.
Definition TEMPBUF_MAX : nat := 20.

(** The numbers below [TABLE_MAX], written backwards. *)
Definition IntTable : list string := ([
  "000"; "100"; "200"; "300"; "400"; "500"; "600"; "700"; "800"; "900";
  "010"; "110"; "210"; "310"; "410"; "510"; "610"; "710"; "810"; "910";
  "020"; "120"; "220"; "320"; "420"; "520"; "620"; "720"; "820"; "920";
  "030"; "130"; "230"; "330"; "430"; "530"; "630"; "730"; "830"; "930";
  "040"; "140"; "240"; "340"; "440"; "540"; "640"; "740"; "840"; "940";
  "050"; "150"; "250"; "350"; "450"; "550"; "650"; "750"; "850"; "950";
  "060"; "160"; "260"; "360"; "460"; "560"; "660"; "760"; "860"; "960";
  "070"; "170"; "270"; "370"; "470"; "570"; "670"; "770"; "870"; "970";
  "080"; "180"; "280"; "380"; "480"; "580"; "680"; "780"; "880"; "980";
  "090"; "190"; "290"; "390"; "490"; "590"; "690"; "790"; "890"; "990";
  "001"; "101"; "201"; "301"; "401"; "501"; "601"; "701"; "801"; "901";
  "011"; "111"; "211"; "311"; "411"; "511"; "611"; "711"; "811"; "911";
  "021"; "121"; "221"; "321"; "421"; "521"; "621"; "721"; "821"; "921";
  "031"; "131"; "231"; "331"; "431"; "531"; "631"; "731"; "831"; "931";
  "041"; "141"; "241"; "341"; "441"; "541"; "641"; "741"; "841"; "941";
  "051"; "151"; "251"; "351"; "451"; "551"; "651"; "751"; "851"; "951";
  "061"; "161"; "261"; "361"; "461"; "561"; "661"; "761"; "861"; "961";
  "071"; "171"; "271"; "371"; "471"; "571"; "671"; "771"; "871"; "971";
  "081"; "181"; "281"; "381"; "481"; "581"; "681"; "781"; "881"; "981";
  "091"; "191"; "291"; "391"; "491"; "591"; "691"; "791"; "891"; "991";
  "002"; "102"; "202"; "302"; "402"; "502"; "602"; "702"; "802"; "902";
  "012"; "112"; "212"; "312"; "412"; "512"; "612"; "712"; "812"; "912";
  "022"; "122"; "222"; "322"; "422"; "522"; "622"; "722"; "822"; "922";
  "032"; "132"; "232"; "332"; "432"; "532"; "632"; "732"; "832"; "932";
  "042"; "142"; "242"; "342"; "442"; "542"; "642"; "742"; "842"; "942";
  "052"; "152"; "252"; "352"; "452"; "552"; "652"; "752"; "852"; "952";
  "062"; "162"; "262"; "362"; "462"; "562"; "662"; "762"; "862"; "962";
  "072"; "172"; "272"; "372"; "472"; "572"; "672"; "772"; "872"; "972";
  "082"; "182"; "282"; "382"; "482"; "582"; "682"; "782"; "882"; "982";
  "092"; "192"; "292"; "392"; "492"; "592"; "692"; "792"; "892"; "992";
  "003"; "103"; "203"; "303"; "403"; "503"; "603"; "703"; "803"; "903";
  "013"; "113"; "213"; "313"; "413"; "513"; "613"; "713"; "813"; "913";
  "023"; "123"; "223"; "323"; "423"; "523"; "623"; "723"; "823"; "923";
  "033"; "133"; "233"; "333"; "433"; "533"; "633"; "733"; "833"; "933";
  "043"; "143"; "243"; "343"; "443"; "543"; "643"; "743"; "843"; "943";
  "053"; "153"; "253"; "353"; "453"; "553"; "653"; "753"; "853"; "953";
  "063"; "163"; "263"; "363"; "463"; "563"; "663"; "763"; "863"; "963";
  "073"; "173"; "273"; "373"; "473"; "573"; "673"; "773"; "873"; "973";
  "083"; "183"; "283"; "383"; "483"; "583"; "683"; "783"; "883"; "983";
  "093"; "193"; "293"; "393"; "493"; "593"; "693"; "793"; "893"; "993";
  "004"; "104"; "204"; "304"; "404"; "504"; "604"; "704"; "804"; "904";
  "014"; "114"; "214"; "314"; "414"; "514"; "614"; "714"; "814"; "914";
  "024"; "124"; "224"; "324"; "424"; "524"; "624"; "724"; "824"; "924";
  "034"; "134"; "234"; "334"; "434"; "534"; "634"; "734"; "834"; "934";
  "044"; "144"; "244"; "344"; "444"; "544"; "644"; "744"; "844"; "944";
  "054"; "154"; "254"; "354"; "454"; "554"; "654"; "754"; "854"; "954";
  "064"; "164"; "264"; "364"; "464"; "564"; "664"; "764"; "864"; "964";
  "074"; "174"; "274"; "374"; "474"; "574"; "674"; "774"; "874"; "974";
  "084"; "184"; "284"; "384"; "484"; "584"; "684"; "784"; "884"; "984";
  "094"; "194"; "294"; "394"; "494"; "594"; "694"; "794"; "894"; "994";
  "005"; "105"; "205"; "305"; "405"; "505"; "605"; "705"; "805"; "905";
  "015"; "115"; "215"; "315"; "415"; "515"; "615"; "715"; "815"; "915";
  "025"; "125"; "225"; "325"; "425"; "525"; "625"; "725"; "825"; "925";
  "035"; "135"; "235"; "335"; "435"; "535"; "635"; "735"; "835"; "935";
  "045"; "145"; "245"; "345"; "445"; "545"; "645"; "745"; "845"; "945";
  "055"; "155"; "255"; "355"; "455"; "555"; "655"; "755"; "855"; "955";
  "065"; "165"; "265"; "365"; "465"; "565"; "665"; "765"; "865"; "965";
  "075"; "175"; "275"; "375"; "475"; "575"; "675"; "775"; "875"; "975";
  "085"; "185"; "285"; "385"; "485"; "585"; "685"; "785"; "885"; "985";
  "095"; "195"; "295"; "395"; "495"; "595"; "695"; "795"; "895"; "995";
  "006"; "106"; "206"; "306"; "406"; "506"; "606"; "706"; "806"; "906";
  "016"; "116"; "216"; "316"; "416"; "516"; "616"; "716"; "816"; "916";
  "026"; "126"; "226"; "326"; "426"; "526"; "626"; "726"; "826"; "926";
  "036"; "136"; "236"; "336"; "436"; "536"; "636"; "736"; "836"; "936";
  "046"; "146"; "246"; "346"; "446"; "546"; "646"; "746"; "846"; "946";
  "056"; "156"; "256"; "356"; "456"; "556"; "656"; "756"; "856"; "956";
  "066"; "166"; "266"; "366"; "466"; "566"; "666"; "766"; "866"; "966";
  "076"; "176"; "276"; "376"; "476"; "576"; "676"; "776"; "876"; "976";
  "086"; "186"; "286"; "386"; "486"; "586"; "686"; "786"; "886"; "986";
  "096"; "196"; "296"; "396"; "496"; "596"; "696"; "796"; "896"; "996";
  "007"; "107"; "207"; "307"; "407"; "507"; "607"; "707"; "807"; "907";
  "017"; "117"; "217"; "317"; "417"; "517"; "617"; "717"; "817"; "917";
  "027"; "127"; "227"; "327"; "427"; "527"; "627"; "727"; "827"; "927";
  "037"; "137"; "237"; "337"; "437"; "537"; "637"; "737"; "837"; "937";
  "047"; "147"; "247"; "347"; "447"; "547"; "647"; "747"; "847"; "947";
  "057"; "157"; "257"; "357"; "457"; "557"; "657"; "757"; "857"; "957";
  "067"; "167"; "267"; "367"; "467"; "567"; "667"; "767"; "867"; "967";
  "077"; "177"; "277"; "377"; "477"; "577"; "677"; "777"; "877"; "977";
  "087"; "187"; "287"; "387"; "487"; "587"; "687"; "787"; "887"; "987";
  "097"; "197"; "297"; "397"; "497"; "597"; "697"; "797"; "897"; "997";
  "008"; "108"; "208"; "308"; "408"; "508"; "608"; "708"; "808"; "908";
  "018"; "118"; "218"; "318"; "418"; "518"; "618"; "718"; "818"; "918";
  "028"; "128"; "228"; "328"; "428"; "528"; "628"; "728"; "828"; "928";
  "038"; "138"; "238"; "338"; "438"; "538"; "638"; "738"; "838"; "938";
  "048"; "148"; "248"; "348"; "448"; "548"; "648"; "748"; "848"; "948";
  "058"; "158"; "258"; "358"; "458"; "558"; "658"; "758"; "858"; "958";
  "068"; "168"; "268"; "368"; "468"; "568"; "668"; "768"; "868"; "968";
  "078"; "178"; "278"; "378"; "478"; "578"; "678"; "778"; "878"; "978";
  "088"; "188"; "288"; "388"; "488"; "588"; "688"; "788"; "888"; "988";
  "098"; "198"; "298"; "398"; "498"; "598"; "698"; "798"; "898"; "998";
  "009"; "109"; "209"; "309"; "409"; "509"; "609"; "709"; "809"; "909";
  "019"; "119"; "219"; "319"; "419"; "519"; "619"; "719"; "819"; "919";
  "029"; "129"; "229"; "329"; "429"; "529"; "629"; "729"; "829"; "929";
  "039"; "139"; "239"; "339"; "439"; "539"; "639"; "739"; "839"; "939";
  "049"; "149"; "249"; "349"; "449"; "549"; "649"; "749"; "849"; "949";
  "059"; "159"; "259"; "359"; "459"; "559"; "659"; "759"; "859"; "959";
  "069"; "169"; "269"; "369"; "469"; "569"; "669"; "769"; "869"; "969";
  "079"; "179"; "279"; "379"; "479"; "579"; "679"; "779"; "879"; "979";
  "089"; "189"; "289"; "389"; "489"; "589"; "689"; "789"; "889"; "989";
  "099"; "199"; "299"; "399"; "499"; "599"; "699"; "799"; "899"; "999"
])%string.

Inductive fmt_arg :=
| ArgStr (s : option string)
| ArgInt (z : Z)
| ArgUInt (z : Z)
| ArgLong (z : Z)
| ArgULong (z : Z).

(** What is before [dest] in the buffer - [written] is its length -, and what
    [va_arg] has not taken yet. *)
Record printer := Printer { pr_out : list ascii; pr_args : list fmt_arg }.

(** ** The printer *)
Section snprintf.
Context (rsdb_quote : string → M printer (option string)).
Context (bytes : Z).

(** [int maxbytes = bytes - 1]. *)
Definition maxbytes : Z := int32 (bytes - 1).

Definition written : M printer Z := gets (fun p => Z.of_nat (length (pr_out p))).
Definition full : M printer bool := w ← written; mret (maxbytes <=? w).

(** [*dest = 0], inside the buffer. *)
Definition put_end : M printer unit :=
  w ← written; if w <? bytes then mret tt else faulty OutOfBounds.
(** [*dest++ = c; ++written]. *)
Definition put (c : ascii) : M printer unit :=
  _ ← put_end; modify (fun p => Printer (pr_out p ++ [c]) (pr_args p)).

Definition va_arg : M printer fmt_arg :=
  p ← get;
  match pr_args p with
  | [] => faulty OutOfBounds
  | a :: args => _ ← modify (fun p => Printer (pr_out p) args); mret a
  end.

Definition va_str : M printer (option string) :=
  a ← va_arg; match a with ArgStr s => mret s | _ => faulty OutOfBounds end.
Definition va_int : M printer Z :=
  a ← va_arg; match a with ArgInt z => mret z | _ => faulty OutOfBounds end.
Definition va_uint : M printer Z :=
  a ← va_arg; match a with ArgUInt z => mret z | _ => faulty OutOfBounds end.
Definition va_long : M printer Z :=
  a ← va_arg; match a with ArgLong z => mret z | _ => faulty OutOfBounds end.
Definition va_ulong : M printer Z :=
  a ← va_arg; match a with ArgULong z => mret z | _ => faulty OutOfBounds end.

(** The loop that copies a string; the terminator is stored too. *)
Fixpoint put_string (str : string) : M printer unit :=
  match str with
  | EmptyString => put_end
  | String c str =>
    _ ← put c; b ← full; if (b : bool) then mret tt else put_string str
  end.

(** [TempBuffer] up to [digitptr], the last digit first.  The copy of an entry
    of the table stores its terminator as well. *)
Fixpoint temp_put (buf : list ascii) (str : string) : M printer (list ascii) :=
  if (length buf <? TEMPBUF_MAX)%nat then
    match str with
    | EmptyString => mret buf
    | String c str => temp_put (c :: buf) str
    end
  else faulty OutOfBounds.

Definition table_at (i : Z) : option string := if i <? 0 then None else IntTable !! Z.to_nat i.

(** [do ... while((num = quotient) != 0)]: a round takes three digits, and eight
    rounds are more than a 64-bit number has. *)
Fixpoint digits_loop (fuel : nat) (num : Z) (buf : list ascii) : M printer (list ascii) :=
  match fuel with
  | O => faulty OutOfFuel
  | S fuel =>
    let quotient := Z.quot num TABLE_MAX in
    str ← need OutOfBounds (table_at (num - quotient * TABLE_MAX));
    buf ← temp_put buf str;
    if quotient =? 0 then mret buf else digits_loop fuel quotient buf
  end.

(** [while( *(digitptr - 1) == '0') --digitptr]. *)
Fixpoint drop_zeros (buf : list ascii) : M printer (list ascii) :=
  match buf with
  | [] => faulty OutOfBounds
  | c :: buf' => if Ascii.eqb c "0" then drop_zeros buf' else mret buf
  end.

Fixpoint put_digits (buf : list ascii) : M printer unit :=
  match buf with
  | [] => mret tt
  | c :: buf => _ ← put c; b ← full; if (b : bool) then mret tt else put_digits buf
  end.

Definition put_number (num : Z) : M printer unit :=
  buf ← digits_loop 8 num []; buf ← drop_zeros buf; put_digits buf.

Definition fmt_s : M printer unit := s ← va_str; str ← need NullDeref s; put_string str.

Definition fmt_d : M printer unit :=
  num ← va_int;
  if num =? 0 then put "0"
  else if num <? 0 then
    _ ← put "-"; b ← full; if (b : bool) then mret tt else put_number (int32 (- num))
  else put_number num.

Definition fmt_c : M printer unit := z ← va_int; put (char_of (z `mod` 256)).

Definition fmt_u : M printer unit :=
  num ← va_uint; if num =? 0 then put "0" else put_number num.

Definition fmt_Q : M printer unit :=
  arg ← va_str;
  match arg with
  | None => mret tt
  | Some arg => q ← rsdb_quote arg; str ← need NullDeref q; put_string str
  end.

Definition fmt_lu : M printer unit :=
  num ← va_ulong; if num =? 0 then put "0" else put_number num.

Definition fmt_ld : M printer unit :=
  num ← va_long;
  if num =? 0 then put "0"
  else if num <? 0 then
    _ ← put "-"; b ← full; if (b : bool) then mret tt else put_number (int64 (- num))
  else put_number num.

Definition bad_format {A} : M printer A :=
  die "rs_vsnprintf() got a format handler it couldnt handle".

Fixpoint fmt_loop (format : string) : M printer unit :=
  match format with
  | EmptyString => mret tt
  | String ch format =>
    b ← full;
    if (b : bool) then mret tt
    else if Ascii.eqb ch "%" then
      match format with
      | EmptyString => bad_format
      | String ch format =>
        if Ascii.eqb ch "s" then _ ← fmt_s; fmt_loop format
        else if Ascii.eqb ch "d" then _ ← fmt_d; fmt_loop format
        else if Ascii.eqb ch "c" then _ ← fmt_c; fmt_loop format
        else if Ascii.eqb ch "u" then _ ← fmt_u; fmt_loop format
        else if Ascii.eqb ch "Q" then _ ← fmt_Q; fmt_loop format
        else if Ascii.eqb ch "l" then
          match format with
          | EmptyString => bad_format
          | String ch format =>
            if Ascii.eqb ch "u" then _ ← fmt_lu; fmt_loop format
            else if Ascii.eqb ch "d" then _ ← fmt_ld; fmt_loop format
            else bad_format
          end
        else if Ascii.eqb ch "%" then _ ← put ch; fmt_loop format
        else bad_format
      end
    else _ ← put ch; fmt_loop format
  end.

Definition rs_vsnprintf (format : string) (args : list fmt_arg) : outcome printer Z :=
  (_ ← fmt_loop format; _ ← put_end; written) (Printer [] args).
End snprintf.

(** ** The table and the digits of a number *)
Definition digits_of (l : list ascii) : Z := fold_left (fun acc c => 10 * acc + (code c - 48)) l 0.

Lemma digits_of_snoc l c : digits_of (l ++ [c]) = 10 * digits_of l + (code c - 48).
Proof. unfold digits_of. by rewrite fold_left_app. Qed.

Lemma digits_of_app l1 l2 : digits_of (l1 ++ l2) = digits_of l1 * 10 ^ Z.of_nat (length l2) + digits_of l2.
Proof.
  induction l2 as [|c l2 IH] using rev_ind; [rewrite app_nil_r; cbn; lia|].
  rewrite app_assoc, !digits_of_snoc, IH, length_app, Nat2Z.inj_add, Z.pow_add_r by lia. cbn. lia.
Qed.

Definition entry_ok (n : nat) : bool :=
  match IntTable !! n with
  | Some (String a (String b (String c EmptyString))) =>
    is_digit a && is_digit b && is_digit c && (digits_of [c; b; a] =? Z.of_nat n)
  | _ => false
  end.

Lemma IntTable_ok n : (n < 1000)%nat → entry_ok n = true.
Proof.
  intros Hn. assert (forallb entry_ok (seq 0 1000) = true) as H by (vm_compute; reflexivity).
  rewrite forallb_forall in H. apply H. apply in_seq. lia.
Qed.

(** An entry of the table is the three digits of its index, the last one first. *)
Lemma table_at_spec i : 0 ≤ i < 1000 → ∃ a b c, table_at i = Some (String a (String b (String c ""))) ∧
  Forall (fun c => is_digit c = true) [c; b; a] ∧ digits_of [c; b; a] = i.
Proof.
  intros Hi. pose proof (IntTable_ok (Z.to_nat i) ltac:(lia)) as H. unfold entry_ok in H. unfold table_at.
  rewrite (proj2 (Z.ltb_ge i 0)) by lia.
  destruct (IntTable !! Z.to_nat i) as [[|a [|b [|c [|? ?]]]]|]; try done.
  exists a, b, c. split; [done|]. bool_simpl. split; [by repeat constructor|].
  lia.
Qed.

(** Digits without a leading zero are what the decimal conversion prints. *)
Lemma digit_code c : is_digit c = true → 0 ≤ code c - 48 < 10 ∧ pretty_N_char (Z.to_N (code c - 48)) = c.
Proof.
  intros Hc. assert (implb (is_digit c) ((0 <=? code c - 48) && (code c - 48 <? 10) &&
    Ascii.eqb (pretty_N_char (Z.to_N (code c - 48))) c) = true) as E.
  { clear Hc. revert c. apply forall_chars. vm_compute. reflexivity. }
  rewrite Hc in E. cbn [implb] in E. apply andb_true_iff in E as [E E3]. apply andb_true_iff in E as [E1 E2].
  apply Z.leb_le in E1. apply Z.ltb_lt in E2. apply Ascii.eqb_eq in E3. done.
Qed.

Lemma digits_of_nonneg l : Forall (fun c => is_digit c = true) l → 0 ≤ digits_of l.
Proof.
  induction l as [|c l IH] using rev_ind; [done|]. intros [Hl Hc]%Forall_app. apply Forall_inv in Hc.
  rewrite digits_of_app. specialize (IH Hl). destruct (digit_code c Hc) as [? _]. cbn. lia.
Qed.

Lemma pretty_digits l : ∀ s, Forall (fun c => is_digit c = true) l → head l ≠ Some "0"%char →
  pretty_N_go (Z.to_N (digits_of l)) s = (of_chars l ++ s)%string.
Proof.
  induction l as [|c l IH] using rev_ind; intros s; [done|]. intros [Hl Hc]%Forall_app Hh. apply Forall_inv in Hc.
  destruct (digit_code c Hc) as [Hr Hp]. pose proof (digits_of_nonneg l Hl) as Hn.
  rewrite digits_of_app. change (10 ^ Z.of_nat (length [c])) with 10. change (digits_of [c]) with (code c - 48).
  assert (0 < digits_of l * 10 + (code c - 48)) as Hpos.
  { destruct l as [|d l]; [|].
    - cbn. cbn in Hh. destruct (decide (code c = 48)) as [E|E]; [|lia]. destruct Hh. f_equal. apply code_inj. by rewrite E.
    - cbn [app head] in Hh. apply Forall_cons in Hl as [Hd Hl]. destruct (digit_code d Hd) as [? _].
      change (d :: l) with ([d] ++ l). rewrite digits_of_app. pose proof (digits_of_nonneg l Hl).
      assert (code d ≠ 48) by (intros E; destruct Hh; f_equal; apply code_inj; by rewrite E).
      change (digits_of [d]) with (code d - 48). assert (0 < 10 ^ Z.of_nat (length l)) by (apply Z.pow_pos_nonneg; lia). nia. }
  rewrite pretty_N_go_step by lia.
  replace (Z.to_N (digits_of l * 10 + (code c - 48)) `mod` 10)%N with (Z.to_N (code c - 48)).
  2:{ rewrite Z2N.inj_add, Z2N.inj_mul by lia. change (Z.to_N 10) with 10%N. rewrite N.add_comm, N.Div0.mod_add, N.mod_small by lia. done. }
  replace (Z.to_N (digits_of l * 10 + (code c - 48)) `div` 10)%N with (Z.to_N (digits_of l)).
  2:{ rewrite Z2N.inj_add, Z2N.inj_mul by lia. change (Z.to_N 10) with 10%N. rewrite N.add_comm, N.div_add, N.div_small by lia. done. }
  rewrite Hp, IH; [|done|by destruct l].
  clear. induction l as [|d l IH]; [done|]. exact (f_equal (String d) IH).
Qed.

Lemma chars_print_digits l :
  Forall (fun c => is_digit c = true) l → l ≠ [] → head l ≠ Some "0"%char → chars (print_z (digits_of l)) = l.
Proof.
  intros Hl Hne Hh. pose proof (pretty_digits l "" Hl Hh) as E. pose proof (digits_of_nonneg l Hl) as Hn.
  destruct (digits_of l) as [|p|p] eqn:Ed; [|..|lia].
  - exfalso. destruct l; done.
  - unfold print_z. rewrite pretty_pos. change (Z.to_N (Z.pos p)) with (N.pos p) in E.
    rewrite E, str_app_nil_r. apply chars_of_chars.
Qed.

(** ** The printer writes what fits *)
Section writes.
Context (rsdb_quote : string → M printer (option string)) (bytes : Z).

Lemma temp_put_ok str : ∀ buf p, (length buf + strlen str < TEMPBUF_MAX)%nat →
  temp_put buf str p = Ok (reverse (chars str) ++ buf) p.
Proof.
  induction str as [|c str IH]; intros buf p Hl; cbn [temp_put strlen String.length] in *;
    rewrite (proj2 (Nat.ltb_lt _ _)) by (unfold strlen in *; cbn in *; lia).
  - done.
  - rewrite IH by (unfold strlen in *; cbn in *; lia). change (chars (String c str)) with (c :: chars str).
    by rewrite reverse_cons, <- app_assoc.
Qed.

(** With at most [k] groups of three digits in front of what is in the buffer. *)
Lemma digits_loop_ok k : ∀ fuel num buf p,
  (0 < k ≤ fuel)%nat → 0 ≤ num < 1000 ^ Z.of_nat k → (length buf + 3 * k < TEMPBUF_MAX)%nat →
  ∃ l, digits_loop fuel num buf p = Ok (l ++ buf) p ∧
    Forall (fun c => is_digit c = true) l ∧ digits_of l = num.
Proof.
  induction k as [|k IH]; intros fuel num buf p Hk Hn Hl; [lia|].
  destruct fuel as [|fuel]; [lia|]. cbn [digits_loop]. unfold TABLE_MAX.
  rewrite Z.quot_div_nonneg by lia. rewrite Nat2Z.inj_succ, Z.pow_succ_r in Hn by lia.
  pose proof (Z.div_mod num 1000 ltac:(lia)) as Hd. pose proof (Z.mod_pos_bound num 1000 ltac:(lia)) as Hm.
  assert (num / 1000 < 1000 ^ Z.of_nat k) as Hq by (apply Z.div_lt_upper_bound; lia).
  pose proof (Z.div_pos num 1000 ltac:(lia) ltac:(lia)) as Hq0.
  replace (num - num / 1000 * 1000) with (num `mod` 1000) by lia.
  destruct (table_at_spec (num `mod` 1000) Hm) as (a & b & c & -> & Hg & Hv).
  erewrite bind_ok by done. erewrite bind_ok by (apply temp_put_ok; cbn; lia).
  change (reverse (chars _) ++ buf) with ([c; b; a] ++ buf).
  destruct (num / 1000 =? 0) eqn:E.
  - apply Z.eqb_eq in E. exists [c; b; a]. split_and!; [done|done|lia].
  - apply Z.eqb_neq in E. assert (0 < k)%nat by (destruct k; [cbn in Hq; lia|lia]).
    destruct (IH fuel (num / 1000) ([c; b; a] ++ buf) p) as (l & -> & Hf & Hl'); [lia|lia|cbn in *; lia|].
    exists (l ++ [c; b; a]). split_and!; [by rewrite <- app_assoc|by apply Forall_app|].
    rewrite digits_of_app, Hl', Hv. change (10 ^ _) with 1000. lia.
Qed.

Lemma drop_zeros_ok l p : Forall (fun c => is_digit c = true) l → 0 < digits_of l →
  ∃ l', drop_zeros l p = Ok l' p ∧ Forall (fun c => is_digit c = true) l' ∧
    head l' ≠ Some "0"%char ∧ digits_of l' = digits_of l.
Proof.
  induction l as [|c l IH]; intros Hl Hp; [done|]. apply Forall_cons in Hl as [Hc Hl]. cbn [drop_zeros].
  destruct (Ascii.eqb c "0") eqn:E.
  - apply Ascii.eqb_eq in E as ->. apply IH; [done|exact Hp].
  - exists (c :: l). split_and!; [done|by constructor| |done]. intros [= ->]. done.
Qed.

Context (Hbytes : 1 ≤ bytes ≤ 2 ^ 31).
Notation mx := (Z.to_nat (bytes - 1)).

Lemma maxbytes_eq : maxbytes bytes = Z.of_nat mx.
Proof. unfold maxbytes. rewrite int32_small; lia. Qed.

Lemma full_run out args : full bytes (Printer out args) = Ok (mx <=? length out)%nat (Printer out args).
Proof.
  unfold full, written. rewrite maxbytes_eq.
  change (Ok (Z.of_nat mx <=? Z.of_nat (length out)) (Printer out args) = Ok (mx <=? length out)%nat (Printer out args)).
  f_equal. destruct (Nat.leb_spec mx (length out)); [apply Z.leb_le|apply Z.leb_gt]; lia.
Qed.

Lemma put_end_run out args : (length out ≤ mx)%nat → put_end bytes (Printer out args) = Ok tt (Printer out args).
Proof.
  intros Hl. unfold put_end, written. erewrite bind_ok by done. cbn [pr_out].
  by rewrite (proj2 (Z.ltb_lt _ _)) by lia.
Qed.

Lemma put_run c out args : (length out ≤ mx)%nat → put bytes c (Printer out args) = Ok tt (Printer (out ++ [c]) args).
Proof. intros Hl. unfold put. by rewrite (bind_ok _ _ _ _ _ (put_end_run out args Hl)). Qed.

(** The text [t] at the end of what is written, as far as there is room. *)
Definition fits (out t : list ascii) : list ascii := out ++ take (mx - length out) t.

Lemma fits_length out t : (length out ≤ mx)%nat → (length (fits out t) ≤ mx)%nat.
Proof. unfold fits. rewrite length_app, length_take. lia. Qed.

Lemma fits_cons out c t : (length out < mx)%nat → fits (out ++ [c]) t = fits out (c :: t).
Proof.
  intros Hl. unfold fits. rewrite length_app. cbn [length].
  replace (mx - length out)%nat with (S (mx - (length out + 1))) by lia. cbn. by rewrite <- app_assoc.
Qed.

Lemma fits_app out t u : (length out ≤ mx)%nat → fits (fits out t) u = fits out (t ++ u).
Proof.
  intros Hl. unfold fits. rewrite <- app_assoc, take_app. f_equal. f_equal.
  rewrite length_app, length_take. f_equal. lia.
Qed.

Lemma fits_full out t : (mx ≤ length out)%nat → fits out t = out.
Proof. intros Hl. unfold fits. replace (mx - length out)%nat with 0%nat by lia. apply app_nil_r. Qed.

Lemma fits_nil out : fits out [] = out.
Proof. unfold fits. by rewrite take_nil, app_nil_r. Qed.

Lemma put_string_ok str : ∀ out args, (length out < mx)%nat →
  put_string bytes str (Printer out args) = Ok tt (Printer (fits out (chars str)) args).
Proof.
  induction str as [|c str IH]; intros out args Hl; cbn [put_string].
  - rewrite put_end_run by lia. by rewrite fits_nil.
  - rewrite (bind_ok _ _ _ _ _ (put_run c out args ltac:(lia))), (bind_ok _ _ _ _ _ (full_run _ _)).
    change (chars (String c str)) with (c :: chars str). rewrite <- fits_cons by done.
    destruct (mx <=? length (out ++ [c]))%nat eqn:E.
    + apply Nat.leb_le in E. by rewrite fits_full.
    + apply Nat.leb_gt in E. by apply IH.
Qed.

Lemma put_digits_ok l : ∀ out args, (length out < mx)%nat →
  put_digits bytes l (Printer out args) = Ok tt (Printer (fits out l) args).
Proof.
  induction l as [|c l IH]; intros out args Hl; cbn [put_digits].
  - by rewrite fits_nil.
  - rewrite (bind_ok _ _ _ _ _ (put_run c out args ltac:(lia))), (bind_ok _ _ _ _ _ (full_run _ _)).
    rewrite <- fits_cons by done. destruct (mx <=? length (out ++ [c]))%nat eqn:E.
    + apply Nat.leb_le in E. by rewrite fits_full.
    + apply Nat.leb_gt in E. by apply IH.
Qed.

Lemma put_number_ok num out args : 0 < num < 10 ^ 18 → (length out < mx)%nat →
  put_number bytes num (Printer out args) = Ok tt (Printer (fits out (chars (print_z num))) args).
Proof.
  intros Hn Hl. unfold put_number.
  destruct (digits_loop_ok 6 8 num [] (Printer out args)) as (l & E & Hf & Hv); [lia|cbn; lia|cbn; unfold TEMPBUF_MAX; lia|].
  rewrite (bind_ok _ _ _ _ _ E), app_nil_r.
  destruct (drop_zeros_ok l (Printer out args) Hf) as (l' & E' & Hf' & Hh & Hv'); [lia|].
  rewrite (bind_ok _ _ _ _ _ E'), put_digits_ok by done. rewrite <- Hv, <- Hv', chars_print_digits; [done|done| |done].
  intros ->. cbn in Hv'. lia.
Qed.
End writes.

(** ** What a format stands for *)
Inductive formats (quote : string → option string) : string → list fmt_arg → list ascii → Prop :=
| formats_end : formats quote "" [] []
| formats_char c f args t : c ≠ "%"%char → formats quote f args t → formats quote (String c f) args (c :: t)
| formats_percent f args t : formats quote f args t → formats quote ("%%" ++ f) args ("%"%char :: t)
| formats_s s f args t :
    formats quote f args t → formats quote ("%s" ++ f) (ArgStr (Some s) :: args) (chars s ++ t)
| formats_d z f args t : - 2 ^ 31 < z < 2 ^ 31 →
    formats quote f args t → formats quote ("%d" ++ f) (ArgInt z :: args) (chars (print_z z) ++ t)
| formats_c z f args t :
    formats quote f args t → formats quote ("%c" ++ f) (ArgInt z :: args) (char_of (z `mod` 256) :: t)
| formats_u z f args t : 0 ≤ z < 2 ^ 32 →
    formats quote f args t → formats quote ("%u" ++ f) (ArgUInt z :: args) (chars (print_z z) ++ t)
| formats_lu z f args t : 0 ≤ z < 10 ^ 18 →
    formats quote f args t → formats quote ("%lu" ++ f) (ArgULong z :: args) (chars (print_z z) ++ t)
| formats_ld z f args t : - 10 ^ 18 < z < 10 ^ 18 →
    formats quote f args t → formats quote ("%ld" ++ f) (ArgLong z :: args) (chars (print_z z) ++ t)
| formats_Q s q f args t : quote s = Some q →
    formats quote f args t → formats quote ("%Q" ++ f) (ArgStr (Some s) :: args) (chars q ++ t)
| formats_Q_null f args t :
    formats quote f args t → formats quote ("%Q" ++ f) (ArgStr None :: args) t.

Lemma formats_app quote f1 args1 t1 f2 args2 t2 :
  formats quote f1 args1 t1 → formats quote f2 args2 t2 →
  formats quote (f1 ++ f2) (args1 ++ args2) (t1 ++ t2).
Proof.
  intros H1 H2. induction H1; [exact H2|..];
    rewrite <- ?app_assoc, <- ?app_comm_cons; econstructor; eassumption.
Qed.

Section refinement.
Context (rsdb_quote : string → M printer (option string)) (quote : string → option string).
Context (Hquote : ∀ s q p, quote s = Some q → rsdb_quote s p = Ok (Some q) p).
Context (bytes : Z) (Hbytes : 1 ≤ bytes ≤ 2 ^ 31).
Notation mx := (Z.to_nat (bytes - 1)).

Lemma fits_one out c : (length out < mx)%nat → fits bytes out [c] = out ++ [c].
Proof. intros Hl. rewrite <- fits_cons by done. apply fits_nil. Qed.

Lemma print_z_neg z : z < 0 → chars (print_z z) = "-"%char :: chars (print_z (- z)).
Proof. destruct z; [done..|]. by intros _. Qed.

(** A number behind its sign, with the negation that the source computes. *)
Lemma signed_ok (neg : Z) z out args : - 10 ^ 18 < z < 10 ^ 18 → (z < 0 → neg = - z) → (length out < mx)%nat →
  (if z =? 0 then put bytes "0"
   else if z <? 0 then _ ← put bytes "-"; b ← full bytes; if (b : bool) then mret tt else put_number bytes neg
   else put_number bytes z) (Printer out args) = Ok tt (Printer (fits bytes out (chars (print_z z))) args).
Proof.
  intros Hz Hneg Hl. destruct (z =? 0) eqn:E0; [|destruct (z <? 0) eqn:E1].
  - apply Z.eqb_eq in E0 as ->. rewrite put_run by lia. change (chars (print_z 0)) with ["0"%char]. by rewrite fits_one.
  - apply Z.ltb_lt in E1. rewrite (bind_ok _ _ _ _ _ (put_run bytes Hbytes "-" out args ltac:(lia))).
    rewrite (bind_ok _ _ _ _ _ (full_run bytes Hbytes _ _)), (print_z_neg z E1), <- fits_cons by done.
    destruct (mx <=? length (out ++ ["-"%char]))%nat eqn:E.
    + apply Nat.leb_le in E. by rewrite fits_full.
    + apply Nat.leb_gt in E. rewrite (Hneg E1). apply put_number_ok; [done|lia|done].
  - apply Z.eqb_neq in E0. apply Z.ltb_ge in E1. apply put_number_ok; [done|lia|done].
Qed.

Lemma unsigned_ok z out args : 0 ≤ z < 10 ^ 18 → (length out < mx)%nat →
  (if z =? 0 then put bytes "0" else put_number bytes z) (Printer out args) =
  Ok tt (Printer (fits bytes out (chars (print_z z))) args).
Proof.
  intros Hz Hl. pose proof (signed_ok 0 z out args ltac:(lia) ltac:(lia) Hl) as E.
  by rewrite (proj2 (Z.ltb_ge z 0)) in E by lia.
Qed.

Lemma fmt_loop_full f out args : (mx ≤ length out)%nat →
  fmt_loop rsdb_quote bytes f (Printer out args) = Ok tt (Printer out args).
Proof.
  intros Hl. destruct f as [|c f]; [done|]. cbn [fmt_loop]. rewrite (bind_ok _ _ _ _ _ (full_run bytes Hbytes _ _)).
  by rewrite (proj2 (Nat.leb_le _ _)).
Qed.

(** [m] ends with [out] before [dest]. *)
Definition prints {A} (m : M printer A) (p : printer) (a : A) (out : list ascii) : Prop :=
  ∃ rest, m p = Ok a (Printer out rest).

Lemma prints_bind {A B} (m : M printer A) (k : A → M printer B) p a p' b out :
  m p = Ok a p' → prints (k a) p' b out → prints (mbind k m) p b out.
Proof. intros E [rest E']. exists rest. by rewrite (bind_ok _ _ _ _ _ E). Qed.

(** The loop, when the arguments of the format are followed by others. *)
Lemma fmt_loop_ok f args t : formats quote f args t → ∀ out more, (length out ≤ mx)%nat →
  prints (fmt_loop rsdb_quote bytes f) (Printer out (args ++ more)) tt (fits bytes out t).
Proof.
  induction 1 as [|c f args t Hc Hf IH|f args t Hf IH|s f args t Hf IH|z f args t Hz Hf IH|z f args t Hf IH
    |z f args t Hz Hf IH|z f args t Hz Hf IH|z f args t Hz Hf IH|s q f args t Hq Hf IH|f args t Hf IH]; intros out more Hl.
  { exists more. by rewrite fits_nil. }
  all: destruct (decide (mx ≤ length out)%nat) as [Hfull|Hroom];
    [eexists; rewrite fmt_loop_full by done; by rewrite fits_full|].
  all: apply Nat.nle_gt in Hroom; cbn [fmt_loop String.append].
  all: eapply prints_bind; [by apply full_run|]; rewrite (proj2 (Nat.leb_gt _ _)) by done; cbn [Ascii.eqb Bool.eqb andb].
  1: rewrite (proj2 (Ascii.eqb_neq _ _)) by done.
  1, 2, 5: rewrite <- fits_cons by done; eapply prints_bind; [|apply IH; rewrite length_app; cbn; lia].
  10: eapply prints_bind; [by instantiate (1 := Printer out (args ++ more))|apply IH; lia].
  4-9: rewrite <- fits_app by done; eapply prints_bind; [|apply IH; by apply fits_length].
  - apply put_run; [done|lia].
  - apply put_run; [done|lia].
  - apply (put_run bytes Hbytes _ out (args ++ more)). lia.
  - by apply (put_string_ok bytes Hbytes s out (args ++ more)).
  - apply (signed_ok (int32 (- z)) z out (args ++ more)); [lia|intros; rewrite int32_small; lia|done].
  - apply (unsigned_ok z out (args ++ more)); [lia|done].
  - by apply (unsigned_ok z out (args ++ more)).
  - apply (signed_ok (int64 (- z)) z out (args ++ more)); [lia|intros; rewrite int64_small; lia|done].
  - unfold fmt_Q. erewrite bind_ok by done. cbn [pr_out]. rewrite (bind_ok _ _ _ _ _ (Hquote s q _ Hq)).
    by apply (put_string_ok bytes Hbytes q out (args ++ more)).
Qed.
End refinement.

Section results.
Context (rsdb_quote : string → M printer (option string)) (quote : string → option string).
Context (Hquote : ∀ s q p, quote s = Some q → rsdb_quote s p = Ok (Some q) p).

Lemma rs_vsnprintf_ok bytes format args t :
  1 ≤ bytes ≤ 2 ^ 31 → formats quote format args t →
  ∃ rest, let out := take (Z.to_nat (bytes - 1)) t in
    rs_vsnprintf rsdb_quote bytes format args = Ok (Z.of_nat (length out)) (Printer out rest).
Proof.
  intros Hb Hf. destruct (fmt_loop_ok rsdb_quote quote Hquote bytes Hb format args t Hf [] [] ltac:(cbn; lia)) as [rest E].
  rewrite app_nil_r in E. exists rest. cbn zeta. unfold rs_vsnprintf. rewrite (bind_ok _ _ _ _ _ E).
  assert (fits bytes [] t = take (Z.to_nat (bytes - 1)) t) as -> by (unfold fits; by rewrite Nat.sub_0_r).
  erewrite bind_ok by (apply put_end_run; [done|rewrite length_take; lia]). done.
Qed.

(** Text that is not formatted goes out as it is. *)
Lemma formats_text s : forallb (fun c => negb (Ascii.eqb c "%")) (chars s) = true → formats quote s [] (chars s).
Proof.
  induction s as [|c s IH]; intros Hs; [constructor|]. apply andb_true_iff in Hs as [Hc Hs].
  apply formats_char; [|by apply IH]. intros ->. done.
Qed.

Lemma temp_put_long str : ∀ buf (p : printer), (TEMPBUF_MAX ≤ length buf + strlen str)%nat →
  temp_put buf str p = Fault OutOfBounds.
Proof.
  induction str as [|c str IH]; intros buf p Hl; cbn [temp_put strlen String.length] in *;
    destruct (Nat.ltb_spec (length buf) TEMPBUF_MAX); [lia|done| |done].
  apply IH. unfold strlen in *. cbn. lia.
Qed.

(** More than six groups of digits do not fit into [TempBuffer]. *)
Lemma digits_loop_long k : ∀ fuel num buf (p : printer), (k < fuel)%nat → 1000 ^ Z.of_nat k ≤ num →
  (17 ≤ length buf + 3 * k)%nat → digits_loop fuel num buf p = Fault OutOfBounds.
Proof.
  induction k as [|k IH]; intros fuel num buf p Hk Hn Hl; (destruct fuel as [|fuel]; [lia|]); cbn [digits_loop].
  all: assert (0 < num) as Hpos by (match type of Hn with ?a ≤ _ => assert (0 < a) by (apply Z.pow_pos_nonneg; lia) end; lia).
  all: unfold TABLE_MAX; rewrite Z.quot_div_nonneg by lia.
  all: pose proof (Z.div_mod num 1000 ltac:(lia)) as Hd; pose proof (Z.mod_pos_bound num 1000 ltac:(lia)) as Hm.
  all: replace (num - num / 1000 * 1000) with (num `mod` 1000) by lia.
  all: destruct (table_at_spec (num `mod` 1000) Hm) as (a & b & c & -> & _); erewrite bind_ok by done.
  - apply bind_fault, temp_put_long. cbn. unfold TEMPBUF_MAX. lia.
  - destruct (Nat.le_gt_cases 17 (length buf)) as [Hb|Hb].
    { apply bind_fault, temp_put_long. cbn. unfold TEMPBUF_MAX. lia. }
    erewrite bind_ok by (apply temp_put_ok; cbn; unfold TEMPBUF_MAX; lia).
    rewrite Nat2Z.inj_succ, Z.pow_succ_r in Hn by lia.
    assert (1000 ^ Z.of_nat k ≤ num / 1000) by (apply Z.div_le_lower_bound; lia).
    rewrite (proj2 (Z.eqb_neq _ _)) by lia. apply IH; [lia|done|cbn; lia].
Qed.

(** Negative numbers have no entry in the table. *)
Lemma put_number_negative bytes num p : num `mod` 1000 ≠ 0 → num < 0 → put_number bytes num p = Fault OutOfBounds.
Proof.
  intros Hm Hn. unfold put_number. apply bind_fault. cbn [digits_loop]. apply bind_fault.
  pose proof (Z.quot_rem num 1000 ltac:(lia)) as E. pose proof (Z.rem_bound_pos_neg num 1000 ltac:(lia) ltac:(lia)) as Hr.
  unfold TABLE_MAX, table_at. rewrite (proj2 (Z.ltb_lt _ _)); [done|].
  assert (Z.rem num 1000 ≠ 0); [|lia]. intros E0. apply Hm. rewrite E, E0, Z.add_0_r, Z.mul_comm. apply Z.mod_mul. lia.
Qed.
End results.
