(* ===== verification/Rsdb.v ===== *)
(** * SQL statements ([src/rsdb_sqlite3.c])

    Quoting of values for SQL, and the functions that build a statement and run
    it, with the retries on a locked database.  The SQLite library is the class
    [Sqlite]: a database, and what running a statement answers and does.  How
    SQLite reads a string literal is translated from [sqlite3/src/tokenize.c] and
    [sqlite3/src/util.c], so that quoting can be stated against its reader. *)

From S2P Require Import Prelude CString Tools Fault Snprintf.

(** [sizeof(buf)] of the static buffers. *)
Definition SQL_MAX : nat := BUFSIZE * 4.

Section quote.
Context {S : Type}.

(** [*p++ = c] into the buffer of [rsdb_quote]. *)
Definition quote_put (p : list ascii) (c : ascii) : M S (list ascii) :=
  if (length p <? SQL_MAX)%nat then mret (p ++ [c]) else faulty OutOfBounds.

Fixpoint quote_loop (src : string) (p : list ascii) : M S (list ascii) :=
  match src with
  | EmptyString => _ ← quote_put p NUL; mret p
  | String c src =>
    p ← (if Ascii.eqb c "'" then quote_put p "'" else mret p);
    p ← quote_put p c; quote_loop src p
  end.

Definition rsdb_quote (src : string) : M S (option string) :=
  if (SQL_MAX / 2 <=? strlen src)%nat then mret None
  else p ← quote_loop src []; mret (Some (of_chars p)).
End quote.

(** ** Statements *)
Definition SQLITE_BUSY : Z := 5.

(** What [sqlite3_get_table] fills in: the cells, the names of the columns first. *)
Record sql_result := SqlResult { sr_data : list (option string); sr_rows : nat; sr_cols : nat }.

Class Sqlite := {
  database : Type;
  sqlite3_exec : string → database → Z * database;
  sqlite3_get_table : string → database → Z * sql_result * database;
  sqlite3_last_insert_rowid : database → Z
}.

Record rsdb_table := RsdbTable { row : list (list (option string)); row_count : nat; col_count : nat }.

Section statements.
Context `{Sqlite}.

(** The text in a buffer ends at its first zero byte. *)
Definition c_text (buf : list ascii) : string :=
  match strchr (of_chars buf) NUL with Some (p, _) => p | None => of_chars buf end.

(** The statement in the static buffer, after the check of its length. *)
Definition sql_statement {S} (format : string) (args : list fmt_arg) : M S string := fun s =>
  match rs_vsnprintf rsdb_quote (Z.of_nat SQL_MAX) format args with
  | Ok i p =>
    if Z.of_nat SQL_MAX <=? i then Die "problem with compiling sql statement" else Ok (c_text (pr_out p)) s
  | Die why => Die why
  | Fault f => Fault f
  end.

(** [tryexec]: a locked database is tried again, ten times at most. *)
Fixpoint tryexec {S A} (fuel : nat) (run : M S (Z * A)) (errcount : Z) : M S A :=
  match fuel with
  | O => faulty OutOfFuel
  | Datatypes.S fuel =>
    r ← run;
    if fst r =? 0 then mret (snd r)
    else if fst r =? SQLITE_BUSY then
      if errcount + 1 <=? 10 then tryexec fuel run (errcount + 1) else die "problem with db file"
    else die "problem with db file"
  end.
Definition TRIES : nat := 11.

Definition run_exec (sql : string) : M database (Z * unit) := fun d =>
  let '(i, d) := sqlite3_exec sql d in Ok (i, tt) d.
Definition run_get_table (sql : string) : M database (Z * sql_result) := fun d =>
  let '(i, r, d) := sqlite3_get_table sql d in Ok (i, r) d.

(** A call without a callback: only the loading of tables at start-up passes one.  The
    sleep between two tries changes nothing that is modelled. *)
Definition rsdb_exec (format : string) (args : list fmt_arg) : M database unit :=
  sql ← sql_statement format args; tryexec TRIES (run_exec sql) 0.

Definition rsdb_exec_insert (format : string) (args : list fmt_arg) : M database Z :=
  sql ← sql_statement format args;
  _ ← rsdb_exec "%s" [ArgStr (Some sql)];
  id ← gets sqlite3_last_insert_rowid; mret (uint32 id).

(** [table->row[i][j] = data[pos++]], a row and then all rows. *)
Fixpoint fetch_row {S} (data : list (option string)) (pos n : nat) : M S (list (option string)) :=
  match n with
  | O => mret []
  | Datatypes.S n =>
    c ← need OutOfBounds (data !! pos); cs ← fetch_row data (pos + 1) n; mret (c :: cs)
  end.
Fixpoint fetch_rows {S} (data : list (option string)) (pos cols n : nat) : M S (list (list (option string))) :=
  match n with
  | O => mret []
  | Datatypes.S n =>
    r ← fetch_row data pos cols; rs ← fetch_rows data (pos + cols) cols n; mret (r :: rs)
  end.

Definition rsdb_exec_fetch (format : string) (args : list fmt_arg) : M database rsdb_table :=
  sql ← sql_statement format args;
  data ← tryexec TRIES (run_get_table sql) 0;
  rows ← fetch_rows (sr_data data) (sr_cols data) (sr_cols data) (sr_rows data);
  mret (RsdbTable rows (sr_rows data) (sr_cols data)).

Inductive rsdb_transtype := RSDB_TRANS_START | RSDB_TRANS_END.
Definition rsdb_transaction (type : rsdb_transtype) : M database unit :=
  match type with
  | RSDB_TRANS_START => rsdb_exec "BEGIN TRANSACTION" []
  | RSDB_TRANS_END => rsdb_exec "COMMIT TRANSACTION" []
  end.
End statements.

(** ** How SQLite reads a string literal *)

(** [getToken] on a quote: the literal with its quotes and what follows it; [None]
    is [TK_ILLEGAL], a literal that does not end. *)
Fixpoint literal_end (delim : ascii) (z : string) : option (string * string) :=
  match z with
  | EmptyString => None
  | String c z =>
    if Ascii.eqb c delim then
      match z with
      | String c' z' =>
        if Ascii.eqb c' delim then
          match literal_end delim z' with Some (l, r) => Some (String c (String c' l), r) | None => None end
        else Some (String c EmptyString, z)
      | EmptyString => Some (String c EmptyString, EmptyString)
      end
    else match literal_end delim z with Some (l, r) => Some (String c l, r) | None => None end
  end.
Definition string_token (z : string) : option (string * string) :=
  match z with
  | String c z =>
    if Ascii.eqb c "'" then match literal_end c z with Some (l, r) => Some (String c l, r) | None => None end
    else None
  | EmptyString => None
  end.

(** [sqlite3Dequote]. *)
Fixpoint dequote_loop (quote : ascii) (z : string) : string :=
  match z with
  | EmptyString => EmptyString
  | String c z =>
    if Ascii.eqb c quote then
      match z with
      | String c' z' => if Ascii.eqb c' quote then String quote (dequote_loop quote z') else EmptyString
      | EmptyString => EmptyString
      end
    else String c (dequote_loop quote z)
  end.
Definition sqlite3Dequote (z : string) : string :=
  let quote := deref z in
  if Ascii.eqb quote "'" || Ascii.eqb quote "034" || Ascii.eqb quote "`" then dequote_loop quote (tail z)
  else if Ascii.eqb quote "[" then dequote_loop "]" (tail z)
  else z.

(** ** Quoting *)
(** Every quote is doubled. *)
Fixpoint sql_quote (s : string) : string :=
  match s with
  | EmptyString => EmptyString
  | String c s => if Ascii.eqb c "'" then String c (String c (sql_quote s)) else String c (sql_quote s)
  end.

Definition quote_result (s : string) : option string :=
  if (SQL_MAX / 2 <=? strlen s)%nat then None else Some (sql_quote s).

Lemma quote_put_ok {S} l c (st : S) : (length l < SQL_MAX)%nat → quote_put l c st = Ok (l ++ [c]) st.
Proof. intros Hl. unfold quote_put. by rewrite (proj2 (Nat.ltb_lt _ _)). Qed.

Lemma quote_loop_ok {S} src : ∀ l (st : S), (length l + 2 * strlen src < SQL_MAX)%nat →
  quote_loop src l st = Ok (l ++ chars (sql_quote src)) st.
Proof.
  induction src as [|c src IH]; intros l st Hl; unfold strlen in *; cbn [quote_loop sql_quote String.length] in *.
  - rewrite (bind_ok _ _ _ _ _ (quote_put_ok l NUL st ltac:(lia))). by rewrite app_nil_r.
  - destruct (Ascii.eqb c "'") eqn:E.
    + apply Ascii.eqb_eq in E as ->. rewrite (bind_ok _ _ _ _ _ (quote_put_ok l "'" st ltac:(lia))).
      rewrite (bind_ok _ _ _ _ _ (quote_put_ok (l ++ ["'"%char]) "'" st ltac:(rewrite length_app; cbn [length]; lia))), IH.
      * by rewrite <- !app_assoc.
      * rewrite !length_app. cbn [length]. lia.
    + erewrite bind_ok by done. rewrite (bind_ok _ _ _ _ _ (quote_put_ok l c st ltac:(lia))), IH.
      * by rewrite <- !app_assoc.
      * rewrite !length_app. cbn [length]. lia.
Qed.

Lemma rsdb_quote_run {S} s (st : S) : rsdb_quote s st = Ok (quote_result s) st.
Proof.
  unfold rsdb_quote, quote_result. destruct (SQL_MAX / 2 <=? strlen s)%nat eqn:E; [done|].
  apply Nat.leb_gt in E. change (SQL_MAX / 2)%nat with 1024%nat in E.
  rewrite (bind_ok _ _ _ _ _ (quote_loop_ok s [] st ltac:(change SQL_MAX with 2048%nat; cbn; lia))).
  cbn [app]. by rewrite of_chars_chars.
Qed.

Lemma quote_sound s q (p : printer) : quote_result s = Some q → rsdb_quote s p = Ok (Some q) p.
Proof. intros E. by rewrite rsdb_quote_run, E. Qed.

Lemma sql_quote_length s : (strlen (sql_quote s) ≤ 2 * strlen s)%nat.
Proof.
  induction s as [|c s IH]; cbn [sql_quote]; [done|]. unfold strlen in *. destruct (Ascii.eqb c "'"); cbn [String.length]; lia.
Qed.

Lemma literal_end_cons d c z : literal_end d (String c z) =
  if Ascii.eqb c d then
    match z with
    | String c' z' =>
      if Ascii.eqb c' d then
        match literal_end d z' with Some (l, r) => Some (String c (String c' l), r) | None => None end
      else Some (String c EmptyString, z)
    | EmptyString => Some (String c EmptyString, EmptyString)
    end
  else match literal_end d z with Some (l, r) => Some (String c l, r) | None => None end.
Proof. done. Qed.

Lemma literal_end_quote s rest : deref rest ≠ "'"%char →
  literal_end "'" (sql_quote s ++ String "'" rest) = Some ((sql_quote s ++ "'")%string, rest).
Proof.
  intros Hr. induction s as [|c s IH]; cbn [sql_quote].
  - rewrite !str_app_nil_l, literal_end_cons, Ascii.eqb_refl. destruct rest as [|d rest]; [done|].
    cbn in Hr. by rewrite (proj2 (Ascii.eqb_neq _ _)).
  - destruct (Ascii.eqb c "'") eqn:E; rewrite !str_app_cons, literal_end_cons, E; [|by rewrite IH].
    by rewrite IH.
Qed.

Lemma dequote_quote s : dequote_loop "'" (sql_quote s ++ "'") = s.
Proof.
  induction s as [|c s IH]; cbn [sql_quote]; [done|].
  destruct (Ascii.eqb c "'") eqn:E; rewrite !str_app_cons; cbn [dequote_loop]; rewrite !E, IH; [|done].
  by apply Ascii.eqb_eq in E as ->.
Qed.

(** What a format asks of its arguments, for the conversions that statements use. *)
Fixpoint printable (format : string) (args : list fmt_arg) : Prop :=
  match format with
  | EmptyString => args = []
  | String c format =>
    if negb (Ascii.eqb c "%") then printable format args else
    match format with
    | EmptyString => False
    | String c format =>
      if Ascii.eqb c "Q" then
        match args with
        | ArgStr (Some s) :: args => (strlen s < 1024)%nat ∧ printable format args
        | ArgStr None :: args => printable format args
        | _ => False
        end
      else if Ascii.eqb c "s" then
        match args with ArgStr (Some _) :: args => printable format args | _ => False end
      else if Ascii.eqb c "d" then
        match args with ArgInt z :: args => - 2 ^ 31 < z < 2 ^ 31 ∧ printable format args | _ => False end
      else if Ascii.eqb c "u" then
        match args with ArgUInt z :: args => 0 ≤ z < 2 ^ 32 ∧ printable format args | _ => False end
      else
        match format with
        | EmptyString => False
        | String c' format =>
          if Ascii.eqb c "l" && Ascii.eqb c' "u" then
            match args with ArgULong z :: args => 0 ≤ z < 10 ^ 18 ∧ printable format args | _ => False end
          else False
        end
    end
  end.

Lemma quote_result_short s : (strlen s < 1024)%nat → quote_result s = Some (sql_quote s).
Proof.
  intros Hs. unfold quote_result. rewrite (proj2 (Nat.leb_gt _ _)); [done|]. by change (SQL_MAX / 2)%nat with 1024%nat.
Qed.

Lemma printable_formats format args : printable format args → ∃ t, formats quote_result format args t.
Proof.
  enough (∀ n f args, (String.length f ≤ n)%nat → printable f args → ∃ t, formats quote_result f args t) as H
    by (by eapply H).
  clear. induction n as [|n IH]; intros [|c f] args Hn Hp; cbn [String.length] in Hn; [|lia| |];
    [cbn in Hp; subst; eexists; constructor..|].
  cbn [printable] in Hp. destruct (Ascii.eqb c "%") eqn:Ec; cbn [negb] in Hp.
  2: { apply IH in Hp as [t Ht]; [|lia]. eexists. apply formats_char; [by apply Ascii.eqb_neq|exact Ht]. }
  apply Ascii.eqb_eq in Ec as ->. destruct f as [|c f]; [done|]. cbn [String.length] in Hn.
  destruct (Ascii.eqb c "Q") eqn:EQ; [apply Ascii.eqb_eq in EQ as ->|].
  { destruct args as [|[[s|]|z|z|z|z] args]; try done.
    - destruct Hp as [Hs [t Ht]%IH]; [|lia]. eexists. apply (formats_Q _ s (sql_quote s) f); [by apply quote_result_short|exact Ht].
    - apply IH in Hp as [t Ht]; [|lia]. eexists. apply (formats_Q_null _ f), Ht. }
  destruct (Ascii.eqb c "s") eqn:Es; [apply Ascii.eqb_eq in Es as ->|].
  { destruct args as [|[[s|]|z|z|z|z] args]; try done. apply IH in Hp as [t Ht]; [|lia]. eexists. apply (formats_s _ s f), Ht. }
  destruct (Ascii.eqb c "d") eqn:Ed; [apply Ascii.eqb_eq in Ed as ->|].
  { destruct args as [|[[s|]|z|z|z|z] args]; try done. destruct Hp as [Hz [t Ht]%IH]; [|lia]. eexists. by apply (formats_d _ z f), Ht. }
  destruct (Ascii.eqb c "u") eqn:Eu; [apply Ascii.eqb_eq in Eu as ->|].
  { destruct args as [|[[s|]|z|z|z|z] args]; try done. destruct Hp as [Hz [t Ht]%IH]; [|lia]. eexists. by apply (formats_u _ z f), Ht. }
  destruct f as [|c' f]; [done|]. cbn [String.length] in Hn.
  destruct (Ascii.eqb c "l") eqn:E1; [|done]. destruct (Ascii.eqb c' "u") eqn:E2; [|done].
  apply Ascii.eqb_eq in E1 as ->. apply Ascii.eqb_eq in E2 as ->. cbn [andb] in Hp.
  destruct args as [|[[s|]|z|z|z|z] args]; try done. destruct Hp as [Hz [t Ht]%IH]; [|lia].
  eexists. by apply (formats_lu _ z f), Ht.
Qed.

(** ** What the formatter and the statements do *)

(** C26.  [rs_vsnprintf()] writes the text that its format and arguments stand for, cut to
    the buffer less its last byte, returns the length of what it wrote, and writes
    nowhere else; values under [%Q] appear with their quotes doubled. *)
Theorem rs_vsnprintf_refines (bytes : Z) (format : string) (args : list fmt_arg) (t : list ascii) :
  1 ≤ bytes ≤ 2 ^ 31 → formats quote_result format args t →
  ∃ rest, rs_vsnprintf rsdb_quote bytes format args =
    Ok (Z.min (bytes - 1) (Z.of_nat (length t))) (Printer (take (Z.to_nat (bytes - 1)) t) rest).
Proof.
  intros Hb Hf. destruct (rs_vsnprintf_ok rsdb_quote quote_result quote_sound bytes format args t Hb Hf) as [rest E].
  exists rest. cbn zeta in E. rewrite E, length_take. f_equal. lia.
Qed.

Definition insert_format : string := "INSERT INTO users (username, flags) VALUES('%Q', '%d')".
Definition insert_args : list fmt_arg := [ArgStr (Some "o'neill"%string); ArgInt (-12)].
Definition insert_text : string := "INSERT INTO users (username, flags) VALUES('o''neill', '-12')".

Lemma insert_formats : formats quote_result insert_format insert_args (chars insert_text).
Proof.
  apply (formats_app _ "INSERT INTO users (username, flags) VALUES('" [] (chars "INSERT INTO users (username, flags) VALUES('")).
  { apply formats_text. reflexivity. }
  apply (formats_Q _ "o'neill" "o''neill" _ _ (chars "', '-12')")); [done|].
  apply (formats_app _ "', '" [] (chars "', '")).
  { apply formats_text. reflexivity. }
  apply (formats_d _ (-12) _ _ (chars "')")); [done|].
  apply formats_text. reflexivity.
Qed.

Lemma rs_vsnprintf_refines_witness :
  ∃ rest, rs_vsnprintf rsdb_quote 20 insert_format insert_args =
    Ok 19 (Printer (chars "INSERT INTO users (") rest).
Proof. apply (rs_vsnprintf_refines 20 insert_format insert_args (chars insert_text)); [lia|exact insert_formats]. Defined.

(** C27.  A value put between quotes by ['%Q'] cannot leave its literal: in a statement
    that fits the buffer, SQLite's tokenizer reads exactly the quoted value where
    it was put, the text behind it is the text of the format, and SQLite takes
    for the value the value that was given. *)
Theorem quoted_value_read_back (before after s : string) (args1 args2 : list fmt_arg) (t1 t2 : list ascii) :
  formats quote_result before args1 t1 → formats quote_result after args2 t2 →
  head t2 ≠ Some "'"%char → (length t1 + 2 * strlen s + 2 + length t2 < SQL_MAX)%nat →
  ∃ i literal rest,
    rs_vsnprintf rsdb_quote (Z.of_nat SQL_MAX) (before ++ "'%Q'" ++ after) (args1 ++ ArgStr (Some s) :: args2) =
      Ok i (Printer (t1 ++ chars literal ++ t2) rest) ∧
    string_token (literal ++ of_chars t2) = Some (literal, of_chars t2) ∧ sqlite3Dequote literal = s.
Proof.
  intros H1 H2 Hh Hl. set (literal := String "'" (sql_quote s ++ "'")).
  assert (quote_result s = Some (sql_quote s)) as Hq.
  { unfold quote_result. rewrite (proj2 (Nat.leb_gt _ _)); [done|]. change (SQL_MAX / 2)%nat with 1024%nat.
    change SQL_MAX with 2048%nat in Hl. lia. }
  assert (formats quote_result (before ++ "'%Q'" ++ after) (args1 ++ ArgStr (Some s) :: args2)
    (t1 ++ chars literal ++ t2)) as Hf.
  { apply formats_app; [done|].
    assert (chars literal ++ t2 = "'"%char :: chars (sql_quote s) ++ "'"%char :: t2) as ->.
    { unfold literal. change (chars (String "'" ?x)) with ("'"%char :: chars x). rewrite chars_app. cbn. by rewrite <- app_assoc. }
    apply formats_char; [done|]. apply (formats_Q _ s _ (String "'" after)); [done|]. by apply formats_char. }
  destruct (rs_vsnprintf_ok rsdb_quote quote_result quote_sound (Z.of_nat SQL_MAX) _ _ _ ltac:(done) Hf) as [rest E].
  cbn zeta in E. eexists _, literal, rest. split_and!.
  - rewrite take_ge in E; [exact E|]. rewrite !length_app, length_chars.
    assert (strlen (sql_quote s) ≤ 2 * strlen s)%nat as Hsq by apply sql_quote_length.
    assert (strlen literal = 2 + strlen (sql_quote s))%nat as Hlit.
    { unfold literal, strlen. cbn [String.length]. change String.length with strlen. rewrite strlen_app. cbn. lia. }
    change (String.length literal) with (strlen literal). change (Z.to_nat (Z.of_nat SQL_MAX - 1)) with 2047%nat. change SQL_MAX with 2048%nat in Hl. lia.
  - unfold literal, string_token. rewrite str_app_cons, Ascii.eqb_refl, str_app_assoc.
    change ("'" ++ of_chars t2)%string with (String "'" (of_chars t2)).
    rewrite literal_end_quote; [done|]. destruct t2; [done|]. intros E'. cbn in E'. by subst.
  - unfold literal, sqlite3Dequote. cbn [deref tail]. apply dequote_quote.
Qed.

Lemma quoted_value_read_back_witness :
  let s := "x'); DROP TABLE users; --"%string in
  ∃ i literal rest,
    rs_vsnprintf rsdb_quote (Z.of_nat SQL_MAX) "DELETE FROM users WHERE username = '%Q' LIMIT %u"
      [ArgStr (Some s); ArgUInt 1] = Ok i (Printer (chars "DELETE FROM users WHERE username = " ++ chars literal ++ chars " LIMIT 1") rest) ∧
    string_token (literal ++ " LIMIT 1") = Some (literal, " LIMIT 1"%string) ∧ sqlite3Dequote literal = s.
Proof.
  intros s. apply (quoted_value_read_back "DELETE FROM users WHERE username = " " LIMIT %u" s [] [ArgUInt 1] _ (chars " LIMIT 1")).
  - apply formats_text. reflexivity.
  - apply (formats_app _ " LIMIT " [] (chars " LIMIT ") "%u" [ArgUInt 1] (chars "1")); [apply formats_text; reflexivity|].
    apply (formats_u _ 1 "" [] []); [lia|constructor].
  - intros [=].
  - apply Nat.ltb_lt. reflexivity.
Defined.

(** C38.  Where [rs_vsnprintf()] leaves its buffers: the least [int] has no positive
    counterpart and indexes [IntTable] below its start; a [long] from 10^18 on has
    more digits than [TempBuffer] holds; a value of 1024 characters or more, for
    which [rsdb_quote()] has no answer but NULL, is read through that NULL. *)
Theorem rs_vsnprintf_overruns (bytes z : Z) (s : string) :
  3 ≤ bytes ≤ 2 ^ 31 → 10 ^ 18 ≤ z → (1024 ≤ strlen s)%nat →
  rs_vsnprintf rsdb_quote bytes "%d" [ArgInt (- 2 ^ 31)] = Fault OutOfBounds ∧
  rs_vsnprintf rsdb_quote bytes "%lu" [ArgULong z] = Fault OutOfBounds ∧
  rs_vsnprintf rsdb_quote bytes "%ld" [ArgLong z] = Fault OutOfBounds ∧
  rs_vsnprintf rsdb_quote bytes "%Q" [ArgStr (Some s)] = Fault NullDeref.
Proof.
  intros Hb Hz Hs.
  assert (∀ args, full bytes (Printer [] args) = Ok false (Printer [] args)) as Hfull.
  { intros args. rewrite full_run by lia. cbn [length]. by rewrite (proj2 (Nat.leb_gt _ _)) by lia. }
  assert (∀ p, put_number bytes z p = Fault OutOfBounds) as Hlong.
  { intros p. unfold put_number. apply bind_fault, (digits_loop_long 6); [lia|cbn; lia|cbn; lia]. }
  split_and!; unfold rs_vsnprintf; apply bind_fault; cbn [fmt_loop]; rewrite (bind_ok _ _ _ _ _ (Hfull _)); apply bind_fault.
  - unfold fmt_d. erewrite bind_ok by done. cbn [pr_out].
    change (- 2 ^ 31 =? 0) with false. change (- 2 ^ 31 <? 0) with true. cbn iota.
    erewrite bind_ok by (apply put_run; [lia|cbn; lia]). rewrite (bind_ok _ _ _ _ _ (full_run bytes ltac:(lia) _ _)).
    cbn [app length]. rewrite (proj2 (Nat.leb_gt _ _)) by lia. by apply put_number_negative.
  - unfold fmt_lu. erewrite bind_ok by done. rewrite (proj2 (Z.eqb_neq _ _)) by lia. apply Hlong.
  - unfold fmt_ld. erewrite bind_ok by done. rewrite (proj2 (Z.eqb_neq _ _)), (proj2 (Z.ltb_ge _ _)) by lia. apply Hlong.
  - unfold fmt_Q. erewrite bind_ok by done. cbn [pr_out]. rewrite (bind_ok _ _ _ _ _ (rsdb_quote_run _ _)).
    unfold quote_result. rewrite (proj2 (Nat.leb_le _ _)); [done|]. change (SQL_MAX / 2)%nat with 1024%nat. done.
Qed.

Lemma rs_vsnprintf_overruns_witness :
  rs_vsnprintf rsdb_quote 3 "%lu" [ArgULong (10 ^ 18)] = Fault OutOfBounds.
Proof.
  apply (rs_vsnprintf_overruns 3 (10 ^ 18) (String.concat "" (replicate 1024 "a"%string))); [lia|lia|].
  apply Nat.leb_le. reflexivity.
Defined.

Section running.
Context `{Sqlite}.

(** The answers of a database that is locked [k] times. *)
Fixpoint busy (sql : string) (k : nat) (d d' : database) : Prop :=
  match k with
  | O => d' = d
  | S k => ∃ d1, sqlite3_exec sql d = (SQLITE_BUSY, d1) ∧ busy sql k d1 d'
  end.

Lemma tryexec_exec sql fuel : ∀ n d, n + Z.of_nat fuel = 11 → 0 ≤ n →
  (∀ f, tryexec fuel (run_exec sql) n d ≠ Fault f ∨ fuel = O) ∧
  (∀ d', tryexec fuel (run_exec sql) n d = Ok tt d' ↔
    ∃ k d1, (k < fuel)%nat ∧ busy sql k d d1 ∧ sqlite3_exec sql d1 = (0, d')).
Proof.
  induction fuel as [|fuel IH]; intros n d Hn H0.
  { split; [by right|]. intros d'. split; [done|]. intros (k & ? & ? & _). lia. }
  cbn [tryexec]. destruct (sqlite3_exec sql d) as [i d1] eqn:E.
  assert (run_exec sql d = Ok (i, tt) d1) as Er by (unfold run_exec; by rewrite E).
  rewrite (bind_ok _ _ _ _ _ Er). cbn [fst snd].
  destruct (i =? 0) eqn:E0; [apply Z.eqb_eq in E0 as ->|apply Z.eqb_neq in E0].
  - split; [by left|]. intros d'. split.
    + intros [= <-]. exists 0%nat, d. split_and!; [lia|done|done].
    + intros (k & d2 & _ & Hk & Hd). destruct k as [|k]; [cbn in Hk; rewrite Hk, E in Hd; by injection Hd as ->|].
      destruct Hk as (? & Hk & _). rewrite E in Hk. done.
  - assert (∀ d', (∃ k d2, (k < S fuel)%nat ∧ busy sql k d d2 ∧ sqlite3_exec sql d2 = (0, d')) ↔
      i = SQLITE_BUSY ∧ ∃ k d2, (k < fuel)%nat ∧ busy sql k d1 d2 ∧ sqlite3_exec sql d2 = (0, d')) as Hiff.
    { intros d'. split.
      - intros (k & d2 & Hk & Hb & Hd). destruct k as [|k]; [cbn in Hb; rewrite Hb, E in Hd; congruence|].
        destruct Hb as (d3 & E3 & Hb). rewrite E in E3. injection E3 as -> ->. split; [done|]. exists k, d2. split_and!; [lia|done|done].
      - intros (-> & k & d2 & Hk & Hb & Hd). exists (S k), d2. split_and!; [lia|by exists d1|done]. }
    destruct (i =? SQLITE_BUSY) eqn:E1; [apply Z.eqb_eq in E1 as ->|apply Z.eqb_neq in E1].
    + destruct (n + 1 <=? 10) eqn:E2; [apply Z.leb_le in E2|apply Z.leb_gt in E2].
      * destruct (IH (n + 1) d1 ltac:(lia) ltac:(lia)) as [Hf Hd]. split.
        -- intros f. left. destruct (Hf f) as [?| ->]; [done|lia].
        -- intros d'. rewrite Hd, Hiff. naive_solver.
      * split; [by left|]. intros d'. split; [done|]. intros (_ & k & ? & Hk & _)%Hiff. lia.
    + split; [by left|]. intros d'. split; [done|]. by intros [? _]%Hiff.
Qed.

Lemma c_text_id l : NUL ∉ l → c_text l = of_chars l.
Proof.
  intros Hn. unfold c_text. destruct (strchr (of_chars l) NUL) as [[p q]|] eqn:Es; [|done].
  apply strchr_inv in Es as [Es _]. destruct Hn. rewrite <- (chars_of_chars l), Es, chars_app. set_solver.
Qed.

Lemma sql_statement_run {S} format args t (s : S) :
  formats quote_result format args t → sql_statement format args s = Ok (c_text (take 2047 t)) s.
Proof.
  intros Hf. unfold sql_statement.
  destruct (rs_vsnprintf_ok rsdb_quote quote_result quote_sound (Z.of_nat SQL_MAX) format args t ltac:(done) Hf) as [rest E].
  cbn zeta in E. rewrite E. rewrite (proj2 (Z.leb_gt _ _)); [done|].
  rewrite length_take. change (Z.to_nat (Z.of_nat SQL_MAX - 1)) with 2047%nat. change (Z.of_nat SQL_MAX) with 2048. lia.
Qed.

(** A statement that can be formatted runs without a fault. *)
Lemma rsdb_exec_safe format args t d f : formats quote_result format args t → rsdb_exec format args d ≠ Fault f.
Proof.
  intros Hf. unfold rsdb_exec. rewrite (bind_ok _ _ _ _ _ (sql_statement_run _ _ _ _ Hf)).
  destruct (tryexec_exec (c_text (take 2047 t)) TRIES 0 d eq_refl ltac:(lia)) as [H1 _]. by destruct (H1 f).
Qed.

(** What can be fetched without looking at the rows: one column of texts. *)
Definition one_column (r : sql_result) : Prop :=
  sr_rows r ≠ O → sr_cols r = 1%nat ∧ ∃ h l, sr_data r = h :: l ∧ length l = sr_rows r ∧ Forall is_Some l.

Lemma tryexec_some {A} (run : M database (Z * A)) (P : A → Prop) fuel : ∀ n d,
  (∀ d f, run d ≠ Fault f) → (∀ d a d', run d = Ok (0, a) d' → P a) → n + Z.of_nat fuel = 11 → n ≤ 10 →
  wp (tryexec fuel run n) (fun a _ => P a) d.
Proof.
  induction fuel as [|fuel IH]; intros n d Hf HP Hn H0; [lia|]. cbn [tryexec]. apply wp_bind, wp_intro; [apply Hf|].
  intros [i a] d1 E. cbn [fst snd]. destruct (i =? 0) eqn:E0; [apply Z.eqb_eq in E0 as ->; apply wp_ret; by eapply HP|].
  destruct (i =? SQLITE_BUSY); [|done]. destruct (n + 1 <=? 10) eqn:E2; [|done]. apply Z.leb_le in E2. apply IH; [done|done|lia|lia].
Qed.

Lemma fetch_rows_column {S} (data : list (option string)) (l : list (option string)) : ∀ pos (s : S),
  drop pos data = l → fetch_rows data pos 1 (length l) s = Ok ((fun c => [c]) <$> l) s.
Proof.
  induction l as [|c l IH]; intros pos s Hd; [done|]. cbn [length fetch_rows fetch_row].
  assert (data !! pos = Some c) as Ec by (rewrite <- (Nat.add_0_r pos), <- lookup_drop, Hd; done).
  rewrite Ec. erewrite bind_ok by done. erewrite bind_ok; [|apply IH]; [done|]. by rewrite <- drop_drop, Hd.
Qed.

(** Such rows are fetched without a fault. *)
Lemma rsdb_exec_fetch_column format args t d :
  formats quote_result format args t →
  (∀ d r d', sqlite3_get_table (c_text (take 2047 t)) d = (0, r, d') → one_column r) →
  wp (rsdb_exec_fetch format args) (fun tb _ => row_count tb = O ∨ ∃ x rows, row tb = [Some x] :: rows) d.
Proof.
  intros Hf Ht. unfold rsdb_exec_fetch. apply wp_bind. apply (wp_ok _ _ _ _ _ (sql_statement_run _ _ _ _ Hf)).
  apply wp_bind. eapply wp_conseq; [apply (tryexec_some _ one_column); [| |done|done]|].
  - intros d1 f. unfold run_get_table. by destruct (sqlite3_get_table _ _) as [[]].
  - intros d1 r d'. unfold run_get_table. destruct (sqlite3_get_table _ _) as [[i r'] d2] eqn:E. intros [= -> -> ->]. by eapply Ht.
  - intros r d1 Hr. apply wp_bind. destruct (decide (sr_rows r = O)) as [->|Hn]; [apply wp_ret, wp_ret; by left|].
    destruct (Hr Hn) as (-> & h & l & Ed & El & Hl). rewrite <- El.
    apply (wp_ok _ _ _ _ _ (fetch_rows_column (sr_data r) l 1 d1 ltac:(by rewrite Ed))). apply wp_ret. right.
    destruct Hl as [|x l [y ->] _]; [done|]. by eexists _, _.
Qed.

(** C28.  [rsdb_exec()] ends without a fault for every answer of the database, and
    succeeds exactly if the statement does after at most ten answers that the
    database is locked.  The statement run is the text of the format, cut to 2047
    bytes: the check of its length after [rs_vsnprintf()] refuses none. *)
Theorem rsdb_exec_runs (format : string) (args : list fmt_arg) (t : list ascii) (d : database) :
  formats quote_result format args t → NUL ∉ t →
  let sql := of_chars (take 2047 t) in
  (∀ f, rsdb_exec format args d ≠ Fault f) ∧
  ∀ d', rsdb_exec format args d = Ok tt d' ↔
    ∃ k d1, (k ≤ 10)%nat ∧ busy sql k d d1 ∧ sqlite3_exec sql d1 = (0, d').
Proof.
  intros Hf Hn sql. assert (sql_statement format args d = Ok sql d) as E.
  { rewrite (sql_statement_run _ _ _ _ Hf), c_text_id; [done|]. intros Hin. by apply Hn, (subseteq_take 2047 t). }
  unfold rsdb_exec. rewrite (bind_ok _ _ _ _ _ E).
  destruct (tryexec_exec sql TRIES 0 d eq_refl ltac:(lia)) as [H1 H2]. split.
  - intros f. by destruct (H1 f).
  - intros d'. rewrite H2. unfold TRIES. split; intros (k & d1 & ? & ?); exists k, d1; (split; [lia|done]).
Qed.
End running.

(** A database that is locked for some time and then counts the statements it runs. *)
Definition locked_database : Sqlite := {|
  database := nat * nat;
  sqlite3_exec _ d := match d with (S k, n) => (SQLITE_BUSY, (k, n)) | (O, n) => (0, (O, S n)) end;
  sqlite3_get_table _ d := (0, SqlResult [] 0 0, d);
  sqlite3_last_insert_rowid d := Z.of_nat (snd d)
|}.

Lemma rsdb_exec_runs_witness :
  @rsdb_exec locked_database insert_format insert_args (3%nat, 5%nat) = Ok tt (0%nat, 6%nat).
Proof.
  apply (@rsdb_exec_runs locked_database insert_format insert_args (chars insert_text) (3%nat, 5%nat)).
  - exact insert_formats.
  - apply (bool_decide_unpack _). vm_compute. exact I.
  - exists 3%nat, (0%nat, 5%nat). split_and!; [lia| |reflexivity].
    exists (2%nat, 5%nat). split; [reflexivity|]. exists (1%nat, 5%nat). split; [reflexivity|].
    exists (0%nat, 5%nat). split; reflexivity.
Defined.
