(* ===== verification/Notices.v ===== *)
(** * The notices of the services ([include/langs.h], [src/langs.c], [src/messages.c])

    The tables of what the services say: the numbers of the notices, their names as
    translations use them, and the texts in the default language.  A number is a
    position in [svc_notice_enum]; [SVC_LAST], which ends the enumeration and both
    tables of the sources, is its length. *)

From S2P Require Import Prelude CString.

Definition svc_notice_enum : list string :=
  ["SVC_UNKNOWNCOMMAND"; "SVC_SUCCESSFUL"; "SVC_SUCCESSFULON"; "SVC_ISSUED"; "SVC_ISSUEDFORBY";
   "SVC_PARAMINVALID"; "SVC_NEEDMOREPARAMS"; "SVC_ISDISABLED"; "SVC_ISDISABLEDEMAIL"; "SVC_NOTSUPPORTED";
   "SVC_NOACCESS"; "SVC_OPTIONINVALID"; "SVC_OPTIONSETTO"; "SVC_RATELIMITEDGENERIC"; "SVC_RATELIMITED";
   "SVC_RATELIMITEDHOST"; "SVC_NOTLOGGEDIN"; "SVC_ENDOFLIST"; "SVC_ENDOFLISTLIMIT"; "SVC_USECOMMANDSHORTCUT";
   "SVC_INVALIDMASK"; "SVC_IRC_NOSUCHCHANNEL"; "SVC_IRC_CHANNELINVALID"; "SVC_IRC_CHANNELNOUSERS";
   "SVC_IRC_NOSUCHSERVER"; "SVC_IRC_SERVERNAMEINVALID"; "SVC_IRC_ALREADYONCHANNEL";
   "SVC_IRC_YOUALREADYONCHANNEL"; "SVC_IRC_NOTINCHANNEL"; "SVC_IRC_YOUNOTINCHANNEL";
   "SVC_IRC_NOTOPPEDONCHANNEL"; "SVC_EMAIL_INVALID"; "SVC_EMAIL_INVALIDIGNORED"; "SVC_EMAIL_BANNEDDOMAIN";
   "SVC_EMAIL_TEMPUNAVAILABLE"; "SVC_EMAIL_SENDFAILED"; "SVC_HELP_INDEXINFO"; "SVC_HELP_TOPICS";
   "SVC_HELP_UNAVAILABLE"; "SVC_HELP_UNAVAILABLETOPIC"; "SVC_HELP_INDEXADMIN"; "SVC_USER_USERLOGGEDIN";
   "SVC_USER_REGISTERDISABLED"; "SVC_USER_ALREADYREG"; "SVC_USER_NOTREG"; "SVC_USER_NOWREG";
   "SVC_USER_NOWREGLOGGEDIN"; "SVC_USER_NOWREGEMAILED"; "SVC_USER_REGDROPPED"; "SVC_USER_INVALIDUSERNAME";
   "SVC_USER_INVALIDPASSWORD"; "SVC_USER_INVALIDLANGUAGE"; "SVC_USER_LONGPASSWORD"; "SVC_USER_LOGINSUSPENDED";
   "SVC_USER_LOGINUNACTIVATED"; "SVC_USER_LOGINMAX"; "SVC_USER_ALREADYLOGGEDIN"; "SVC_USER_NICKNOTLOGGEDIN";
   "SVC_USER_SUSPENDED"; "SVC_USER_NOEMAIL"; "SVC_USER_CHANGEDPASSWORD"; "SVC_USER_CHANGEDOPTION";
   "SVC_USER_QUERYOPTION"; "SVC_USER_QUERYOPTIONALREADY"; "SVC_USER_REQUESTISSUED"; "SVC_USER_REQUESTPENDING";
   "SVC_USER_REQUESTNONE"; "SVC_USER_TOKENBAD"; "SVC_USER_TOKENMISMATCH"; "SVC_USER_DURATIONTOOSHORT";
   "SVC_USER_NOACCESSON"; "SVC_USER_ACT_ALREADY"; "SVC_USER_ACT_COMPLETE"; "SVC_USER_RP_LOGGEDIN";
   "SVC_USER_UL_START"; "SVC_INFO_REGDURATIONUSER"; "SVC_INFO_REGDURATIONCHAN"; "SVC_INFO_REGDURATIONNICK";
   "SVC_INFO_SUSPENDED"; "SVC_INFO_SUSPENDEDADMIN"; "SVC_INFO_ACCESSLIST"; "SVC_INFO_NICKNAMES";
   "SVC_INFO_EMAIL"; "SVC_INFO_URL"; "SVC_INFO_TOPIC"; "SVC_INFO_SETTINGS"; "SVC_INFO_ENFORCEDMODES";
   "SVC_INFO_CURRENTLOGON"; "SVC_NICK_NOTONLINE"; "SVC_NICK_ALREADYREG"; "SVC_NICK_NOTREG"; "SVC_NICK_NOWREG";
   "SVC_NICK_CANTREGUID"; "SVC_NICK_USING"; "SVC_NICK_TOOMANYREG"; "SVC_NICK_LOGINFIRST";
   "SVC_NICK_REGGEDOTHER"; "SVC_NICK_CHANGEDOPTION"; "SVC_NICK_QUERYOPTION"; "SVC_CHAN_NOWREG";
   "SVC_CHAN_NOWREGWITH"; "SVC_CHAN_NOTREG"; "SVC_CHAN_ALREADYREG"; "SVC_CHAN_TIMELOCKED";
   "SVC_CHAN_CHANGEDOPTION"; "SVC_CHAN_UNSETOPTION"; "SVC_CHAN_QUERYOPTION"; "SVC_CHAN_QUERYOPTIONALREADY";
   "SVC_CHAN_LISTSTART"; "SVC_CHAN_ISSUSPENDED"; "SVC_CHAN_NOACCESS"; "SVC_CHAN_USERNOACCESS";
   "SVC_CHAN_USERALREADYACCESS"; "SVC_CHAN_USERHIGHERACCESS"; "SVC_CHAN_INVALIDACCESS";
   "SVC_CHAN_INVALIDAUTOLEVEL"; "SVC_CHAN_INVALIDSUSPENDLEVEL"; "SVC_CHAN_USERSETACCESS";
   "SVC_CHAN_USERREMOVED"; "SVC_CHAN_USERSETAUTOLEVEL"; "SVC_CHAN_USERSETSUSPEND";
   "SVC_CHAN_USERSUSPENDREMOVED"; "SVC_CHAN_USERHIGHERSUSPEND"; "SVC_CHAN_REQUESTPENDING";
   "SVC_CHAN_REQUESTNONE"; "SVC_CHAN_TOKENMISMATCH"; "SVC_CHAN_NOMODE"; "SVC_CHAN_INVALIDMODE";
   "SVC_CHAN_ALREADYOPPED"; "SVC_CHAN_ALREADYVOICED"; "SVC_CHAN_YOUNOTBANNED"; "SVC_CHAN_USEDELOWNER";
   "SVC_CHAN_BANSET"; "SVC_CHAN_BANREMOVED"; "SVC_CHAN_ALREADYBANNED"; "SVC_CHAN_NOTBANNED";
   "SVC_CHAN_BANLISTFULL"; "SVC_CHAN_INVALIDBAN"; "SVC_CHAN_BANHIGHERLEVEL"; "SVC_CHAN_BANHIGHERACCOUNT";
   "SVC_CHAN_BANLISTSTART"; "SVC_OPER_CONNECTIONSSTART"; "SVC_OPER_CONNECTIONSEND";
   "SVC_OPER_SERVERNAMEMISMATCH"; "SVC_OPER_OSPARTACCESS"; "SVC_OPER_IGNORENOTFOUND";
   "SVC_OPER_IGNOREALREADY"; "SVC_OPER_IGNORELIST"; "SVC_BAN_ISSUED"; "SVC_BAN_ALREADYPLACED";
   "SVC_BAN_NOTPLACED"; "SVC_BAN_INVALID"; "SVC_BAN_LISTSTART"; "SVC_BAN_NOPERMACCESS";
   "SVC_BAN_REGEXPSUCCESS"; "SVC_BAN_TOOMANYMATCHES"; "SVC_BAN_TOOMANYREGEXPMATCHES";
   "SVC_GLOBAL_WELCOMETOOLONG"; "SVC_GLOBAL_WELCOMEINVALID"; "SVC_GLOBAL_WELCOMESET";
   "SVC_GLOBAL_WELCOMENOTSET"; "SVC_GLOBAL_WELCOMEDELETED"; "SVC_GLOBAL_WELCOMELIST"; "SVC_JUPE_ALREADYJUPED";
   "SVC_JUPE_NOTJUPED"; "SVC_JUPE_ALREADYREQUESTED"; "SVC_JUPE_PENDINGLIST"; "SVC_ALIS_LISTSTART";
   "SVC_MEMO_RECEIVED"; "SVC_MEMO_SENT"; "SVC_MEMO_TOOMANYMEMOS"; "SVC_MEMO_INVALID"; "SVC_MEMO_DELETED";
   "SVC_MEMO_DELETEDALL"; "SVC_MEMO_LIST"; "SVC_MEMO_LISTSTART"; "SVC_MEMO_READ"; "SVC_MEMO_UNREAD_COUNT";
   "SVC_CF_NOTENOUGHUSERS"; "SVC_CF_HASOPPEDUSERS"; "SVC_CF_CHECK"; "SVC_CF_CHANFIXINPROG";
   "SVC_CF_CHANSERVCHANNEL"; "SVC_CF_TOPSCORESFOR"; "SVC_CF_TOPOPSCORES"; "SVC_CF_TOPUNOPSCORES";
   "SVC_CF_TOPUSERSFOR"; "SVC_CF_HASSCORES"; "SVC_CF_NODATAFOR"; "SVC_CF_BEINGFIXED"; "SVC_CF_AUTOFIXED";
   "SVC_CF_CHANFIXED"; "SVC_CF_1BEENOPPED"; "SVC_CF_HAVEBEENOPPED"; "SVC_CF_NOMATCHES"; "SVC_CF_NOTBLOCKED";
   "SVC_CF_ISBLOCKED"; "SVC_CF_HASALERT"; "SVC_CF_NOALERT"; "SVC_CF_NOUSERMATCH"; "SVC_CF_UHOSTSCORE";
   "SVC_CF_INFOON"; "SVC_CF_ENDOFINFO"; "SVC_CF_LOWSCORES"; "SVC_NOTE_NOTEADDED"; "SVC_NOTE_NOTEREMOVED";
   "SVC_NOTE_NONE"; "SVC_NOTE_DELNOTE"; "SVC_NOTE_SHOW"; "SVC_NOTE_INVALID"]%string.

Definition svc_notice_string : list string :=
  ["SVC_UNKNOWNCOMMAND"; "SVC_SUCCESSFUL"; "SVC_SUCCESSFULON"; "SVC_ISSUED"; "SVC_ISSUEDFORBY";
   "SVC_PARAMINVALID"; "SVC_NEEDMOREPARAMS"; "SVC_ISDISABLED"; "SVC_ISDISABLEDEMAIL"; "SVC_NOTSUPPORTED";
   "SVC_NOACCESS"; "SVC_OPTIONINVALID"; "SVC_OPTIONSETTO"; "SVC_RATELIMITEDGENERIC"; "SVC_RATELIMITED";
   "SVC_RATELIMITEDHOST"; "SVC_NOTLOGGEDIN"; "SVC_ENDOFLIST"; "SVC_ENDOFLISTLIMIT"; "SVC_USECOMMANDSHORTCUT";
   "SVC_INVALIDMASK"; "SVC_IRC_NOSUCHCHANNEL"; "SVC_IRC_CHANNELINVALID"; "SVC_IRC_CHANNELNOUSERS";
   "SVC_IRC_NOSUCHSERVER"; "SVC_IRC_SERVERNAMEINVALID"; "SVC_IRC_ALREADYONCHANNEL";
   "SVC_IRC_YOUALREADYONCHANNEL"; "SVC_IRC_NOTINCHANNEL"; "SVC_IRC_YOUNOTINCHANNEL";
   "SVC_IRC_NOTOPPEDONCHANNEL"; "SVC_EMAIL_INVALID"; "SVC_EMAIL_INVALIDIGNORED"; "SVC_EMAIL_BANNEDDOMAIN";
   "SVC_EMAIL_TEMPUNAVAILABLE"; "SVC_EMAIL_SENDFAILED"; "SVC_HELP_INDEXINFO"; "SVC_HELP_TOPICS";
   "SVC_HELP_UNAVAILABLE"; "SVC_HELP_UNAVAILABLETOPIC"; "SVC_HELP_INDEXADMIN"; "SVC_USER_USERLOGGEDIN";
   "SVC_USER_REGISTERDISABLED"; "SVC_USER_ALREADYREG"; "SVC_USER_NOTREG"; "SVC_USER_NOWREG";
   "SVC_USER_NOWREGLOGGEDIN"; "SVC_USER_NOWREGEMAILED"; "SVC_USER_REGDROPPED"; "SVC_USER_INVALIDUSERNAME";
   "SVC_USER_INVALIDPASSWORD"; "SVC_USER_INVALIDLANGUAGE"; "SVC_USER_LONGPASSWORD"; "SVC_USER_LOGINSUSPENDED";
   "SVC_USER_LOGINUNACTIVATED"; "SVC_USER_LOGINMAX"; "SVC_USER_ALREADYLOGGEDIN"; "SVC_USER_NICKNOTLOGGEDIN";
   "SVC_USER_SUSPENDED"; "SVC_USER_NOEMAIL"; "SVC_USER_CHANGEDPASSWORD"; "SVC_USER_CHANGEDOPTION";
   "SVC_USER_QUERYOPTION"; "SVC_USER_QUERYOPTIONALREADY"; "SVC_USER_REQUESTISSUED"; "SVC_USER_REQUESTPENDING";
   "SVC_USER_REQUESTNONE"; "SVC_USER_TOKENBAD"; "SVC_USER_TOKENMISMATCH"; "SVC_USER_DURATIONTOOSHORT";
   "SVC_USER_NOACCESSON"; "SVC_USER_ACT_ALREADY"; "SVC_USER_ACT_COMPLETE"; "SVC_USER_RP_LOGGEDIN";
   "SVC_USER_UL_START"; "SVC_INFO_REGDURATIONUSER"; "SVC_INFO_REGDURATIONCHAN"; "SVC_INFO_REGDURATIONNICK";
   "SVC_INFO_SUSPENDED"; "SVC_INFO_SUSPENDEDADMIN"; "SVC_INFO_ACCESSLIST"; "SVC_INFO_NICKNAMES";
   "SVC_INFO_EMAIL"; "SVC_INFO_URL"; "SVC_INFO_TOPIC"; "SVC_INFO_SETTINGS"; "SVC_INFO_ENFORCEDMODES";
   "SVC_INFO_CURRENTLOGON"; "SVC_NICK_NOTONLINE"; "SVC_NICK_ALREADYREG"; "SVC_NICK_NOTREG"; "SVC_NICK_NOWREG";
   "SVC_NICK_CANTREGUID"; "SVC_NICK_USING"; "SVC_NICK_TOOMANYREG"; "SVC_NICK_LOGINFIRST";
   "SVC_NICK_REGGEDOTHER"; "SVC_NICK_CHANGEDOPTION"; "SVC_NICK_QUERYOPTION"; "SVC_CHAN_NOWREG";
   "SVC_CHAN_NOWREGWITH"; "SVC_CHAN_NOTREG"; "SVC_CHAN_ALREADYREG"; "SVC_CHAN_TIMELOCKED";
   "SVC_CHAN_CHANGEDOPTION"; "SVC_CHAN_UNSETOPTION"; "SVC_CHAN_QUERYOPTION"; "SVC_CHAN_QUERYOPTIONALREADY";
   "SVC_CHAN_LISTSTART"; "SVC_CHAN_ISSUSPENDED"; "SVC_CHAN_NOACCESS"; "SVC_CHAN_USERNOACCESS";
   "SVC_CHAN_USERALREADYACCESS"; "SVC_CHAN_USERHIGHERACCESS"; "SVC_CHAN_INVALIDACCESS";
   "SVC_CHAN_INVALIDAUTOLEVEL"; "SVC_CHAN_INVALIDSUSPENDLEVEL"; "SVC_CHAN_USERSETACCESS";
   "SVC_CHAN_USERREMOVED"; "SVC_CHAN_USERSETAUTOLEVEL"; "SVC_CHAN_USERSETSUSPEND";
   "SVC_CHAN_USERSUSPENDREMOVED"; "SVC_CHAN_USERHIGHERSUSPEND"; "SVC_CHAN_REQUESTPENDING";
   "SVC_CHAN_REQUESTNONE"; "SVC_CHAN_TOKENMISMATCH"; "SVC_CHAN_NOMODE"; "SVC_CHAN_INVALIDMODE";
   "SVC_CHAN_ALREADYOPPED"; "SVC_CHAN_ALREADYVOICED"; "SVC_CHAN_YOUNOTBANNED"; "SVC_CHAN_USEDELOWNER";
   "SVC_CHAN_BANSET"; "SVC_CHAN_BANREMOVED"; "SVC_CHAN_ALREADYBANNED"; "SVC_CHAN_NOTBANNED";
   "SVC_CHAN_BANLISTFULL"; "SVC_CHAN_INVALIDBAN"; "SVC_CHAN_BANHIGHERLEVEL"; "SVC_CHAN_BANHIGHERACCOUNT";
   "SVC_CHAN_BANLISTSTART"; "SVC_OPER_CONNECTIONSSTART"; "SVC_OPER_CONNECTIONSEND";
   "SVC_OPER_SERVERNAMEMISMATCH"; "SVC_OPER_OSPARTACCESS"; "SVC_OPER_IGNORENOTFOUND";
   "SVC_OPER_IGNOREALREADY"; "SVC_OPER_IGNORELIST"; "SVC_BAN_ISSUED"; "SVC_BAN_ALREADYPLACED";
   "SVC_BAN_NOTPLACED"; "SVC_BAN_INVALID"; "SVC_BAN_LISTSTART"; "SVC_BAN_NOPERMACCESS";
   "SVC_BAN_REGEXPSUCCESS"; "SVC_BAN_TOOMANYMATCHES"; "SVC_BAN_TOOMANYREGEXPMATCHES";
   "SVC_GLOBAL_WELCOMETOOLONG"; "SVC_GLOBAL_WELCOMEINVALID"; "SVC_GLOBAL_WELCOMESET";
   "SVC_GLOBAL_WELCOMENOTSET"; "SVC_GLOBAL_WELCOMEDELETED"; "SVC_GLOBAL_WELCOMELIST"; "SVC_JUPE_ALREADYJUPED";
   "SVC_JUPE_NOTJUPED"; "SVC_JUPE_ALREADYREQUESTED"; "SVC_JUPE_PENDINGLIST"; "SVC_ALIS_LISTSTART";
   "SVC_MEMO_RECEIVED"; "SVC_MEMO_SENT"; "SVC_MEMO_TOOMANYMEMOS"; "SVC_MEMO_INVALID"; "SVC_MEMO_DELETED";
   "SVC_MEMO_DELETEDALL"; "SVC_MEMO_LIST"; "SVC_MEMO_LISTSTART"; "SVC_MEMO_READ"; "SVC_MEMO_UNREAD_COUNT";
   "SVC_CF_NOTENOUGHUSERS"; "SVC_CF_HASOPPEDUSERS"; "SVC_CF_CHECK"; "SVC_CF_CHANFIXINPROG";
   "SVC_CF_CHANSERVCHANNEL"; "SVC_CF_TOPSCORESFOR"; "SVC_CF_TOPOPSCORES"; "SVC_CF_TOPUNOPSCORES";
   "SVC_CF_TOPUSERSFOR"; "SVC_CF_HASSCORES"; "SVC_CF_NODATAFOR"; "SVC_CF_BEINGFIXED"; "SVC_CF_AUTOFIXED";
   "SVC_CF_CHANFIXED"; "SVC_CF_1BEENOPPED"; "SVC_CF_HAVEBEENOPPED"; "SVC_CF_NOMATCHES"; "SVC_CF_NOTBLOCKED";
   "SVC_CF_ISBLOCKED"; "SVC_CF_HASALERT"; "SVC_CF_NOALERT"; "SVC_CF_NOUSERMATCH"; "SVC_CF_UHOSTSCORE";
   "SVC_CF_INFOON"; "SVC_CF_ENDOFINFO"; "SVC_CF_LOWSCORES"; "SVC_NOTE_NOTEADDED"; "SVC_NOTE_NOTEREMOVED";
   "SVC_NOTE_NONE"; "SVC_NOTE_DELNOTE"; "SVC_NOTE_SHOW"; "SVC_NOTE_INVALID"]%string.

Definition lang_internal : list (string * string) :=
  [("SVC_UNKNOWNCOMMAND", "Invalid command %s::%s");
   ("SVC_SUCCESSFUL", "%s::%s successful");
   ("SVC_SUCCESSFULON", "%s::%s successful on %s");
   ("SVC_ISSUED", "%s::%s issued");
   ("SVC_ISSUEDFORBY", "%s::%s issued for %s by %s");
   ("SVC_PARAMINVALID", "%s::%s parameter invalid");
   ("SVC_NEEDMOREPARAMS", "Insufficient parameters to %s::%s");
   ("SVC_ISDISABLED", "%s::%s is disabled");
   ("SVC_ISDISABLEDEMAIL", "%s::%s is disabled as it cannot send emails");
   ("SVC_NOTSUPPORTED", "%s::%s is not supported by your server");
   ("SVC_NOACCESS", "No access to %s::%s");
   ("SVC_OPTIONINVALID", "%s::%s option invalid");
   ("SVC_OPTIONSETTO", "%s::%s option %s has been set to %s");
   ("SVC_RATELIMITEDGENERIC", "Temporarily unable to answer query. Please try again shortly.");
   ("SVC_RATELIMITED", "%s::%s rate-limited, try again shortly");
   ("SVC_RATELIMITEDHOST", "%s::%s rate-limited for your host, try again shortly");
   ("SVC_NOTLOGGEDIN", "%s::%s requires you are logged in");
   ("SVC_ENDOFLIST", "End of list");
   ("SVC_ENDOFLISTLIMIT", "End of list, limit reached");
   ("SVC_USECOMMANDSHORTCUT", "Commands to this service must be issued via /%s instead of by name.");
   ("SVC_INVALIDMASK", "Invalid mask %s");
   ("SVC_IRC_NOSUCHCHANNEL", "Channel %s does not exist");
   ("SVC_IRC_CHANNELINVALID", "Invalid channel %s");
   ("SVC_IRC_CHANNELNOUSERS", "Channel %s has no users");
   ("SVC_IRC_NOSUCHSERVER", "Server %s does not exist");
   ("SVC_IRC_SERVERNAMEINVALID", "Invalid servername %s");
   ("SVC_IRC_ALREADYONCHANNEL", "%s is already on channel %s");
   ("SVC_IRC_YOUALREADYONCHANNEL", "You are already on channel %s");
   ("SVC_IRC_NOTINCHANNEL", "%s is not in channel %s");
   ("SVC_IRC_YOUNOTINCHANNEL", "You are not in channel %s");
   ("SVC_IRC_NOTOPPEDONCHANNEL", "You are not opped on channel %s");
   ("SVC_EMAIL_INVALID", "Email %s invalid");
   ("SVC_EMAIL_INVALIDIGNORED", "Email %s invalid, ignoring");
   ("SVC_EMAIL_BANNEDDOMAIN", "Email provider banned");
   ("SVC_EMAIL_TEMPUNAVAILABLE", "Temporarily unable to send email, please try later");
   ("SVC_EMAIL_SENDFAILED", "Unable to complete %s::%s due to problems sending email");
   ("SVC_HELP_INDEXINFO", "%s Help Index. Use HELP <command> for more information");
   ("SVC_HELP_TOPICS", "Topics: %s");
   ("SVC_HELP_UNAVAILABLE", "No help is available for this service");
   ("SVC_HELP_UNAVAILABLETOPIC", "No help is available on %s");
   ("SVC_HELP_INDEXADMIN", "Administrator commands:");
   ("SVC_USER_USERLOGGEDIN", "%s has just authenticated as you (%s)");
   ("SVC_USER_REGISTERDISABLED", "%s::%s is disabled, see %s");
   ("SVC_USER_ALREADYREG", "Username %s is already registered");
   ("SVC_USER_NOTREG", "Username %s is not registered");
   ("SVC_USER_NOWREG", "Username %s registered");
   ("SVC_USER_NOWREGLOGGEDIN", "Username %s registered, you are now logged in");
   ("SVC_USER_NOWREGEMAILED", "Username %s registered, your activation token has been emailed");
   ("SVC_USER_REGDROPPED", "Username %s registration dropped");
   ("SVC_USER_INVALIDUSERNAME", "Username %s invalid");
   ("SVC_USER_INVALIDPASSWORD", "Invalid password");
   ("SVC_USER_INVALIDLANGUAGE", "Invalid language %s");
   ("SVC_USER_LONGPASSWORD", "Password too long");
   ("SVC_USER_LOGINSUSPENDED", "Login failed, username has been suspended");
   ("SVC_USER_LOGINUNACTIVATED", "Login failed, username has not been activated.  Use %s::ACTIVATE first");
   ("SVC_USER_LOGINMAX", "Login failed, username has %d logged in users");
   ("SVC_USER_ALREADYLOGGEDIN", "You are already logged in");
   ("SVC_USER_NICKNOTLOGGEDIN", "Nickname %s is not logged in");
   ("SVC_USER_SUSPENDED", "Username %s is suspended");
   ("SVC_USER_NOEMAIL", "Username %s does not have an email address");
   ("SVC_USER_CHANGEDPASSWORD", "Username %s password changed");
   ("SVC_USER_CHANGEDOPTION", "Username %s %s set to %s");
   ("SVC_USER_QUERYOPTION", "Username %s %s is set to %s");
   ("SVC_USER_QUERYOPTIONALREADY", "Username %s %s is already set to %s");
   ("SVC_USER_REQUESTISSUED", "Username %s has been sent an email to confirm the %s request");
   ("SVC_USER_REQUESTPENDING", "Username %s already has a pending %s request");
   ("SVC_USER_REQUESTNONE", "Username %s does not have a pending %s request");
   ("SVC_USER_TOKENBAD", "Username %s %s token is malformed");
   ("SVC_USER_TOKENMISMATCH", "Username %s %s tokens do not match");
   ("SVC_USER_DURATIONTOOSHORT", "Username %s has not been registered long enough to use %s::%s");
   ("SVC_USER_NOACCESSON", "Username %s is flagged NOACCESS and cannot be added to channels");
   ("SVC_USER_ACT_ALREADY", "Username %s has already been activated for use");
   ("SVC_USER_ACT_COMPLETE", "Username %s activated, you may now LOGIN");
   ("SVC_USER_RP_LOGGEDIN", "You cannot request a password reset whilst logged in");
   ("SVC_USER_UL_START", "Username list matching %s, limit %u%s");
   ("SVC_INFO_REGDURATIONUSER", "[%s] Username registered for %s");
   ("SVC_INFO_REGDURATIONCHAN", "[%s] Channel registered to %s for %s");
   ("SVC_INFO_REGDURATIONNICK", "[%s] Nickname registered to %s for %s");
   ("SVC_INFO_SUSPENDED", "[%s] Suspended by %s (expires %s): %s");
   ("SVC_INFO_SUSPENDEDADMIN", "[%s] Suspended by services admin (expires %s)%s%s");
   ("SVC_INFO_ACCESSLIST", "[%s] Access list: %s");
   ("SVC_INFO_NICKNAMES", "[%s] Registered nicknames: %s");
   ("SVC_INFO_EMAIL", "[%s] Email: %s");
   ("SVC_INFO_URL", "[%s] URL: %s");
   ("SVC_INFO_TOPIC", "[%s] Topic: %s");
   ("SVC_INFO_SETTINGS", "[%s] Settings: %s");
   ("SVC_INFO_ENFORCEDMODES", "[%s] Enforced modes: %s");
   ("SVC_INFO_CURRENTLOGON", "[%s] Currently logged on via:");
   ("SVC_NICK_NOTONLINE", "Nickname %s is not online");
   ("SVC_NICK_ALREADYREG", "Nickname %s is already registered");
   ("SVC_NICK_NOTREG", "Nickname %s is not registered");
   ("SVC_NICK_NOWREG", "Nickname %s registered");
   ("SVC_NICK_CANTREGUID", "You may not register your UID, please change to a real nickname");
   ("SVC_NICK_USING", "Nickname %s is already in use by you");
   ("SVC_NICK_TOOMANYREG", "You have already registered %d nicknames");
   ("SVC_NICK_LOGINFIRST", "You must register a username with %s and log in before you can register your nickname");
   ("SVC_NICK_REGGEDOTHER", "Nickname %s is not registered to you");
   ("SVC_NICK_CHANGEDOPTION", "Nickname %s %s set to %s");
   ("SVC_NICK_QUERYOPTION", "Nickname %s %s is set to %s");
   ("SVC_CHAN_NOWREG", "Channel %s registered");
   ("SVC_CHAN_NOWREGWITH", "*** Notice - Channel %s now registered with %s");
   ("SVC_CHAN_NOTREG", "Channel %s is not registered");
   ("SVC_CHAN_ALREADYREG", "Channel %s is already registered");
   ("SVC_CHAN_TIMELOCKED", "Channel %s is time locked");
   ("SVC_CHAN_CHANGEDOPTION", "Channel %s %s set to %s");
   ("SVC_CHAN_UNSETOPTION", "Channel %s %s unset");
   ("SVC_CHAN_QUERYOPTION", "Channel %s %s is set to %s");
   ("SVC_CHAN_QUERYOPTIONALREADY", "Channel %s %s is already set to %s");
   ("SVC_CHAN_LISTSTART", "Channel list matching %s, limit %u%s");
   ("SVC_CHAN_ISSUSPENDED", "Channel %s is suspended");
   ("SVC_CHAN_NOACCESS", "Insufficient access to channel %s");
   ("SVC_CHAN_USERNOACCESS", "User %s does not have access to channel %s");
   ("SVC_CHAN_USERALREADYACCESS", "User %s already has access to channel %s");
   ("SVC_CHAN_USERHIGHERACCESS", "User %s access level equal or higher to channel %s");
   ("SVC_CHAN_INVALIDACCESS", "Access level %s invalid");
   ("SVC_CHAN_INVALIDAUTOLEVEL", "Auto level %s invalid");
   ("SVC_CHAN_INVALIDSUSPENDLEVEL", "Suspend level %s invalid");
   ("SVC_CHAN_USERSETACCESS", "User %s access level %d set on channel %s");
   ("SVC_CHAN_USERREMOVED", "User %s access removed on channel %s");
   ("SVC_CHAN_USERSETAUTOLEVEL", "User %s autolevel %s set on channel %s");
   ("SVC_CHAN_USERSETSUSPEND", "User %s suspend level %d set on channel %s");
   ("SVC_CHAN_USERSUSPENDREMOVED", "User %s unsuspended on channel %s");
   ("SVC_CHAN_USERHIGHERSUSPEND", "User %s suspend level higher on channel %s");
   ("SVC_CHAN_REQUESTPENDING", "Channel %s already has a pending %s request");
   ("SVC_CHAN_REQUESTNONE", "Channel %s does not have a pending %s request");
   ("SVC_CHAN_TOKENMISMATCH", "Channel %s %s tokens do not match");
   ("SVC_CHAN_NOMODE", "Channel %s does not have mode %s");
   ("SVC_CHAN_INVALIDMODE", "Invalid mode %s");
   ("SVC_CHAN_ALREADYOPPED", "You are already opped on channel %s");
   ("SVC_CHAN_ALREADYVOICED", "You are already voiced on channel %s");
   ("SVC_CHAN_YOUNOTBANNED", "You are not banned on channel %s");
   ("SVC_CHAN_USEDELOWNER", "User %s is the owner of %s. Please use %s::DELOWNER instead");
   ("SVC_CHAN_BANSET", "Ban %s level %d set on channel %s");
   ("SVC_CHAN_BANREMOVED", "Ban %s removed on channel %s");
   ("SVC_CHAN_ALREADYBANNED", "Ban %s already set on channel %s");
   ("SVC_CHAN_NOTBANNED", "Ban %s not found on channel %s");
   ("SVC_CHAN_BANLISTFULL", "Channel %s banlist full");
   ("SVC_CHAN_INVALIDBAN", "Ban %s invalid");
   ("SVC_CHAN_BANHIGHERLEVEL", "Ban %s level higher on channel %s");
   ("SVC_CHAN_BANHIGHERACCOUNT", "Channel %s has a ban at a higher level than your access level");
   ("SVC_CHAN_BANLISTSTART", "Channel %s ban list:");
   ("SVC_OPER_CONNECTIONSSTART", "Current connections (%s)");
   ("SVC_OPER_CONNECTIONSEND", "End of connections");
   ("SVC_OPER_SERVERNAMEMISMATCH", "Servernames do not match");
   ("SVC_OPER_OSPARTACCESS", "No access to %s::OSPART on channels joined through %s");
   ("SVC_OPER_IGNORENOTFOUND", "Ignore %s not found");
   ("SVC_OPER_IGNOREALREADY", "Ignore %s matches existing ignore %s");
   ("SVC_OPER_IGNORELIST", "Ignore list:");
   ("SVC_BAN_ISSUED", "Issued %s for %s");
   ("SVC_BAN_ALREADYPLACED", "%s already placed on %s");
   ("SVC_BAN_NOTPLACED", "%s not placed on %s");
   ("SVC_BAN_INVALID", "Invalid %s: %s");
   ("SVC_BAN_LISTSTART", "Ban list matching %s");
   ("SVC_BAN_NOPERMACCESS", "No access to set a permanent %s");
   ("SVC_BAN_REGEXPSUCCESS", "%s::ADDREGEXP successful on %s, issued %u kline(s)");
   ("SVC_BAN_TOOMANYMATCHES", "Ban %s%s%s matches %u (> %d) users");
   ("SVC_BAN_TOOMANYREGEXPMATCHES", "Expression %s matches %u (> %d) users");
   ("SVC_GLOBAL_WELCOMETOOLONG", "Welcome message too long (%u > %u)");
   ("SVC_GLOBAL_WELCOMEINVALID", "Welcome id invalid (%u >= %u)");
   ("SVC_GLOBAL_WELCOMESET", "Welcome message %u set");
   ("SVC_GLOBAL_WELCOMENOTSET", "Welcome message %u not set");
   ("SVC_GLOBAL_WELCOMEDELETED", "Welcome message %u deleted");
   ("SVC_GLOBAL_WELCOMELIST", "Welcome messages:");
   ("SVC_JUPE_ALREADYJUPED", "Server %s is already juped");
   ("SVC_JUPE_NOTJUPED", "Server %s is not juped");
   ("SVC_JUPE_ALREADYREQUESTED", "%s::%s on %s already requested by your server");
   ("SVC_JUPE_PENDINGLIST", "Pending jupes:");
   ("SVC_ALIS_LISTSTART", "Returning maximum of %d channel names matching '%s'");
   ("SVC_MEMO_RECEIVED", "You have received memo #%u from %s");
   ("SVC_MEMO_SENT", "Memo to %s sent");
   ("SVC_MEMO_TOOMANYMEMOS", "Unable to send memo to %s, user has reached maximum memo limit");
   ("SVC_MEMO_INVALID", "Invalid memo number %s");
   ("SVC_MEMO_DELETED", "Deleted memo #%u");
   ("SVC_MEMO_DELETEDALL", "Deleted memos");
   ("SVC_MEMO_LIST", "%u new memos, %u old memos");
   ("SVC_MEMO_LISTSTART", "  New    Id    Date       Time  Sender");
   ("SVC_MEMO_READ", "Id %u Sent %s Sender %s: %s");
   ("SVC_MEMO_UNREAD_COUNT", "You  have %u new memo(s)");
   ("SVC_CF_NOTENOUGHUSERS", "Channel %s does not have enough users for me to act on");
   ("SVC_CF_HASOPPEDUSERS", "Channel %s already has opped users");
   ("SVC_CF_CHECK", "Channel %s appears to contain %d opped out of %d clients");
   ("SVC_CF_CHANFIXINPROG", "Channel fix in progress, please stand by.");
   ("SVC_CF_CHANSERVCHANNEL", "Channel %s is registered with ChanServ");
   ("SVC_CF_TOPSCORESFOR", "Top %d scores for channel '%s':");
   ("SVC_CF_TOPOPSCORES", "Top %d scores for ops in channel '%s':");
   ("SVC_CF_TOPUNOPSCORES", "Top %d scores for non-ops in channel '%s':");
   ("SVC_CF_TOPUSERSFOR", "Top %d users for channel '%s':");
   ("SVC_CF_HASSCORES", "%s has ChanFix database scores");
   ("SVC_CF_NODATAFOR", "No data for %s in database.");
   ("SVC_CF_BEINGFIXED", "Channel %s is currently being fixed.");
   ("SVC_CF_AUTOFIXED", "Channel %s is being autofixed.");
   ("SVC_CF_CHANFIXED", "Channel %s is being chanfixed.");
   ("SVC_CF_1BEENOPPED", "1 client should have been opped.");
   ("SVC_CF_HAVEBEENOPPED", "%d clients should have been opped.");
   ("SVC_CF_NOMATCHES", "No matches found.");
   ("SVC_CF_NOTBLOCKED", "Channel %s is not blocked.");
   ("SVC_CF_ISBLOCKED", "Channel %s is blocked.");
   ("SVC_CF_HASALERT", "%s has an ALERT note");
   ("SVC_CF_NOALERT", "No ALERT note for %s");
   ("SVC_CF_NOUSERMATCH", "No matching user found.");
   ("SVC_CF_UHOSTSCORE", "%4d  %s");
   ("SVC_CF_INFOON", "Information on %s:");
   ("SVC_CF_ENDOFINFO", "End of information");
   ("SVC_CF_LOWSCORES", "Cannot fix %s (scores too low)");
   ("SVC_NOTE_NOTEADDED", "Note added for %s");
   ("SVC_NOTE_NOTEREMOVED", "Note ID %d removed for %s");
   ("SVC_NOTE_NONE", "No channel notes to display");
   ("SVC_NOTE_DELNOTE", "Note #%u deleted");
   ("SVC_NOTE_SHOW", "[%u:%s] %s  %s");
   ("SVC_NOTE_INVALID", "Invalid note number %s")]%string.

Definition SVC_LAST : nat := length svc_notice_enum.

(** The number of a notice. *)
Definition svc_id (name : string) : option nat := fst <$> list_find (eq name) svc_notice_enum.
