(* ===== verification/Langs.v ===== *)
(** * Translations ([src/langs.c], [src/langs_format.c])

    The notices of the services can be translated by files that administrators add
    and change while the program runs.  A notice is a format that [vsnprintf()] reads
    its arguments by, so that a translation is only taken if it takes the arguments of
    the text in the default language: [lang_fmt_check()] compares the two.  A file is
    the string of its characters, a directory the list of its files. *)

From S2P Require Import Prelude CString Tools Fault Notices.

Definition LANG_MAX : nat := 32.
Definition LANG_DEFAULT : string := "en".
Definition MAX_FMT_ARGS : nat := 64.

Definition LANG_FMT_STRING : Z := 0x001.
Definition LANG_FMT_CHAR : Z := 0x002.
Definition LANG_FMT_INTEGER : Z := 0x004.
Definition LANG_FMT_HEX : Z := 0x008.

Definition LANG_FMT_UNSIGNED : Z := 0x001.
Definition LANG_FMT_INTLONG : Z := 0x002.
Definition LANG_FMT_INTLONGLONG : Z := 0x004.

(** ** Formats *)
Record lang_fmt := LangFmt { lf_type : Z; lf_flags : Z }.
#[export] Instance lang_fmt_eq_dec : EqDecision lang_fmt.
Proof. solve_decision. Defined.

Definition zero_fmt : lang_fmt := LangFmt 0 0.

(** [fmt[pos]], and an assignment to it. *)
Definition fmt_at (pos : nat) : M (list lang_fmt) lang_fmt := fmt ← get; need OutOfBounds (fmt !! pos).
Definition fmt_put (pos : nat) (f : lang_fmt → lang_fmt) : M (list lang_fmt) unit :=
  e ← fmt_at pos; modify (<[pos := f e]>).

(** The conversions: the type of the argument, and a flag that goes with it. *)
Definition conversion (c : ascii) : option (Z * Z) :=
  if Ascii.eqb c "s" then Some (LANG_FMT_STRING, 0)
  else if Ascii.eqb c "d" || Ascii.eqb c "i" then Some (LANG_FMT_INTEGER, 0)
  else if Ascii.eqb c "u" then Some (LANG_FMT_INTEGER, LANG_FMT_UNSIGNED)
  else if Ascii.eqb c "c" then Some (LANG_FMT_CHAR, LANG_FMT_UNSIGNED)
  else if Ascii.eqb c "x" || Ascii.eqb c "X" then Some (LANG_FMT_HEX, LANG_FMT_UNSIGNED)
  else None.

(** Flags, widths and precisions, which are skipped. *)
Definition is_modifier (c : ascii) : bool := has_char ".+-#1234567890" c.

Definition longer (flags : Z) : Z :=
  Z.lor flags (if has_flag flags LANG_FMT_INTLONG then LANG_FMT_INTLONGLONG else LANG_FMT_INTLONG).

Fixpoint fmt_parse_loop (data : string) (pos : nat) (parsing : bool) : M (list lang_fmt) Z :=
  match data with
  | EmptyString => mret 1
  | String c data =>
    let next pos parsing :=
      if (MAX_FMT_ARGS <=? pos + 1)%nat then mret 0 else fmt_parse_loop data pos parsing in
    if negb parsing then next pos (Ascii.eqb c "%")
    else if Ascii.eqb c "%" then next pos false
    else if Ascii.eqb c "l" then
      _ ← fmt_put pos (fun f => LangFmt (lf_type f) (longer (lf_flags f))); next pos true
    else
      match conversion c with
      | Some (type, flags) =>
        _ ← fmt_put pos (fun f => LangFmt type (Z.lor (lf_flags f) flags)); next (S pos) false
      | None =>
        if is_modifier c then
          f ← fmt_at pos; if lf_flags f =? 0 then next pos true else mret (-1)
        else mret (-2)
      end
  end.

Definition lang_fmt_parse (data : string) : M (list lang_fmt) Z := fmt_parse_loop data 0 false.

(** ** The state of [langs.c] *)
Record langs := Langs {
  langs_available : list (option string);
  langs_description : list (option string);
  svc_notice : list (option (list (option string)));
  lang_logged : list string
}.
#[export] Instance eta_langs : Eta langs := fun r =>
  Langs (langs_available r) (langs_description r) (svc_notice r) (lang_logged r).

Definition mlog (line : string) : M langs unit := modify (fun w => w <| lang_logged ::= fun l => l ++ [line] |>).

(** A call of [lang_fmt_parse()] on a zeroed array. *)
Definition parsed_fmt (data : string) : M langs (Z * list lang_fmt) := fun w =>
  match lang_fmt_parse data (replicate MAX_FMT_ARGS zero_fmt) with
  | Ok r fmt => Ok (r, fmt) w
  | Die why => Die why
  | Fault f => Fault f
  end.

(** The loop that compares the arrays: the number of differences, each of which is logged. *)
Fixpoint fmt_errors (filename translation : string) (l : list (lang_fmt * lang_fmt)) : M langs Z :=
  match l with
  | [] => mret 0
  | (o, t) :: l =>
    let differ := negb (lf_type o =? lf_type t) || negb (lf_flags o =? lf_flags t) in
    _ ← when differ (mlog ("Warning: translation format strings differ in " ++ filename ++ ": " ++ translation));
    error ← fmt_errors filename translation l;
    mret (if differ then error + 1 else error)
  end.

Definition lang_fmt_check (filename original translation : string) : M langs Z :=
  '(r, original_fmt) ← parsed_fmt original;
  if r <=? 0 then _ ← mlog ("Warning: Error parsing format string: " ++ original); mret 0 else
  '(r, translation_fmt) ← parsed_fmt translation;
  if r <=? 0 then
    _ ← mlog ("Warning: Error parsing format string in " ++ filename ++ ": " ++ translation); mret 0
  else
    error ← fmt_errors filename translation (combine original_fmt translation_fmt);
    mret (if error =? 0 then 1 else 0).

(** ** Files *)
Definition LF : ascii := "010".
Definition CR : ascii := "013".
Definition QUOTE : ascii := "034".

(** [if((p = strchr(buf, c)) != NULL) *p = '\0']. *)
Definition cut_from (c : ascii) (buf : string) : string :=
  match strchr buf c with Some (p, _) => p | None => buf end.

(** [fgets(buf, n + 1, fp)]: at most [n] characters, up to the end of the line; [buf] is
    read as a string, which ends at its first zero byte. *)
Fixpoint take_line (n : nat) (fp : string) : string * string :=
  match n, fp with
  | S n, String c fp =>
    if Ascii.eqb c LF then (String c EmptyString, fp)
    else let '(line, rest) := take_line n fp in (String c line, rest)
  | _, _ => (EmptyString, fp)
  end.
Definition fgets (size : nat) (fp : string) : option (string * string) :=
  match fp with
  | EmptyString => None
  | _ => let '(line, rest) := take_line (size - 1) fp in Some (cut_from NUL line, rest)
  end.

(** The rest of a line that is too long. *)
Fixpoint skip_line {S} (fuel : nat) (fp : string) : M S string :=
  match fuel with
  | O => faulty OutOfFuel
  | Datatypes.S fuel =>
    match fgets BUFSIZE fp with
    | None => mret EmptyString
    | Some (tmpbuf, fp) => if has_char tmpbuf LF then mret fp else skip_line fuel fp
    end
  end.

(** What the first quote and the last one after it enclose; without a second quote all
    that follows. *)
Definition quoted_value (buf : string) : option string :=
  match strchr buf QUOTE with
  | Some (_, data) => Some (match strrchr data QUOTE with Some (p, _) => p | None => data end)
  | None => None
  end.

(** ** Tables *)

(** [svc_notice[lang][i]], where [svc_notice[lang]] is not NULL. *)
Definition notice_row (lang : nat) : M langs (option (list (option string))) :=
  w ← get; need OutOfBounds (svc_notice w !! lang).
Definition notice_at (lang i : nat) : M langs (option string) :=
  row ← notice_row lang; row ← need NullDeref row; need OutOfBounds (row !! i).
Definition set_notice (lang i : nat) (text : string) : M langs unit :=
  _ ← notice_at lang i;
  modify (fun w => w <| svc_notice ::= alter (fmap (<[i := Some text]>)) lang |>).

(** The index of the name of a notice in [svc_notice_string], within [lang_internal]. *)
Fixpoint notice_index {S} (i : nat) (internal : list (string * string)) (names : list string) (buf : string) : M S (option nat) :=
  match internal with
  | [] => mret None
  | _ :: internal =>
    match names with
    | [] => faulty OutOfBounds
    | name :: names =>
      if strcmp name buf =? 0 then mret (Some i) else notice_index (Datatypes.S i) internal names buf
    end
  end.

(** A line with a translation: name, comma, text in quotes. *)
Definition parse_notice (filename : string) (langcode : nat) (buf : string) : M langs unit :=
  match strchr buf "," with
  | None => mlog ("Warning: Ignoring bogus line in translation " ++ filename ++ ": " ++ buf)
  | Some (name, data) =>
    i ← notice_index 0 lang_internal svc_notice_string name;
    match i with
    | None => mlog ("Warning: Invalid notice code in translation " ++ filename ++ ": " ++ name)
    | Some i =>
      let invalid data := mlog ("Warning: Invalid translation string in translation " ++ filename ++ ": " ++ data) in
      match strchr data QUOTE with
      | None => invalid data
      | Some (_, data) =>
        match strrchr data QUOTE with
        | None => invalid data
        | Some (data, _) =>
          original ← notice_at 0 i;
          original ← need NullDeref original;
          ok ← lang_fmt_check filename original data;
          when (0 <? ok) (set_notice langcode i data)
        end
      end
    end
  end.

Definition starts_with (buf word : string) (n : nat) : bool := strncmp buf word n =? 0.
Definition is_blank (buf : string) : bool := forallb (fun c => Ascii.eqb c " " || Ascii.eqb c "009") (chars buf).

(** What the first run over a file looks for: the code and the description. *)
Definition trans_heads : Type := option string * option string.

(** A line that has been read; [heads] is [None] in the second run. *)
Definition parse_line (filename : string) (langcode : nat) (heads : option trans_heads) (buf : string) : M langs (option trans_heads) :=
  if Ascii.eqb (deref buf) "#" then mret heads else
  let buf := cut_from CR (cut_from LF buf) in
  if is_empty (Some buf) then mret heads
  else if starts_with buf "set LANG_CODE" 13 then
    mret (match heads with Some (_, desc) => Some (quoted_value buf, desc) | None => None end)
  else if starts_with buf "set LANG_DESCRIPTION" 20 then
    mret (match heads with Some (langcode_str, _) => Some (langcode_str, quoted_value buf) | None => None end)
  else
    match heads with
    | Some _ => mret heads
    | None => _ ← when (negb (is_blank buf)) (parse_notice filename langcode buf); mret None
    end.

Fixpoint lang_parse_transfile (fuel : nat) (fp filename : string) (langcode : nat) (heads : option trans_heads) : M langs (option trans_heads) :=
  match fuel with
  | O => faulty OutOfFuel
  | S fuel =>
    match fgets BUFSIZE fp with
    | None => mret heads
    | Some (buf, fp) =>
      if negb (has_char buf LF) && (BUFSIZE - 1 <=? strlen buf)%nat then
        _ ← when (bool_decide (heads = None))
              (mlog ("Warning: Ignoring long line in translation " ++ filename ++ ": " ++ buf));
        fp ← skip_line (S (strlen fp)) fp;
        lang_parse_transfile fuel fp filename langcode heads
      else
        heads ← parse_line filename langcode heads buf;
        lang_parse_transfile fuel fp filename langcode heads
    end
  end.

(** ** Languages *)

(** The loop of [lang_get_langcode()] over the names: the index of [name], or of the
    first free place. *)
Fixpoint find_lang {S} (i : nat) (name : string) (l : list (option string)) : M S (nat * bool) :=
  match l with
  | [] => faulty OutOfBounds
  | None :: _ => mret (i, false)
  | Some lang :: l =>
    if strcasecmp lang name =? 0 then mret (i, true) else find_lang (Datatypes.S i) name l
  end.

Definition lang_get_langcode (name : string) : M langs nat :=
  l ← gets langs_available;
  '(i, found) ← find_lang 0 name l;
  if (found : bool) then mret i else
  if (LANG_MAX <=? i + 1)%nat then
    _ ← mlog "Warning: Reach maximum amount of languages, translations may not be loaded correctly"; mret 0%nat
  else _ ← modify (fun w => w <| langs_available ::= <[i := Some name]> |>); mret i.

(** [svc_notice[lang] = rb_malloc(...)]: a row without texts. *)
Definition new_row (lang : nat) : M langs unit :=
  _ ← notice_row lang;
  modify (fun w => w <| svc_notice ::= <[lang := Some (replicate SVC_LAST None)]> |>).

Definition lang_load_transfile (fp filename : string) : M langs unit :=
  heads ← lang_parse_transfile (S (strlen fp)) fp filename 0 (Some (None, None));
  let '(langcode_str, langdesc_str) := default (None, None) heads in
  if is_empty langcode_str then mlog ("Warning: LANG_CODE is not set in translation " ++ filename) else
  if is_empty langdesc_str then mlog ("Warning: LANG_DESCRIPTION is not set in translation " ++ filename) else
  name ← need NullDeref langcode_str;
  if strcmp name LANG_DEFAULT =? 0 then
    mlog ("Warning: Attempted override of compiled translations from translation " ++ filename)
  else
    langcode ← lang_get_langcode name;
    row ← notice_row langcode;
    match row with
    | Some _ => mlog ("Warning: Attempted override of " ++ name ++ " translations from translation " ++ filename)
    | None =>
      w ← get;
      _ ← need OutOfBounds (langs_description w !! langcode);
      _ ← modify (fun w => w <| langs_description ::= <[langcode := langdesc_str]> |>);
      _ ← new_row langcode;
      _ ← lang_parse_transfile (S (strlen fp)) fp filename langcode None; mret tt
    end.

(** A directory: the regular files, each with its content or the reason why it cannot be
    opened; [None] is a directory that cannot be opened. *)
Definition directory : Type := option (list (string * (string + string))).

Fixpoint load_files (files : list (string * (string + string))) : M langs unit :=
  match files with
  | [] => mret tt
  | (pathbuf, file) :: files =>
    _ ← match file with
        | inl strerror => mlog ("Warning: Unable to open translation " ++ pathbuf ++ ": " ++ strerror)
        | inr fp => lang_load_transfile fp pathbuf
        end;
    load_files files
  end.

Definition lang_load_trans (langdir : directory) (LANGDIR : string) : M langs unit :=
  match langdir with
  | None => mlog ("Warning: Unable to open translation directory: " ++ LANGDIR)
  | Some files => load_files files
  end.

(** Every row but the first is freed. *)
Definition lang_clear_trans : M langs unit :=
  modify (fun w => w <| svc_notice ::= fun l => take 1 l ++ replicate (length l - 1) None |>).

(** The first row, from [lang_internal]. *)
Fixpoint set_defaults (l : list (string * string)) : M langs unit :=
  match l with
  | [] => mret tt
  | (name, msg) :: l => id ← need OutOfBounds (svc_id name); _ ← set_notice 0 id msg; set_defaults l
  end.

Fixpoint check_defaults (i : nat) (names : list string) : M langs unit :=
  match names with
  | [] => mret tt
  | name :: names =>
    text ← notice_at 0 i;
    match text with
    | None => die ("Unable to find default message for " ++ name)
    | Some _ => check_defaults (S i) names
    end
  end.

Fixpoint add_languages (subdirs : list string) : M langs unit :=
  match subdirs with
  | [] => mret tt
  | d :: subdirs =>
    _ ← (if (strcmp d "." =? 0) || (strcmp d ".." =? 0) then mret tt else _ ← lang_get_langcode d; mret tt);
    add_languages subdirs
  end.

(** The part of [init_langs()] that fills in the default language. *)
Definition init_default : M langs unit :=
  _ ← modify (fun w => w <| langs_available := replicate LANG_MAX None |>);
  _ ← lang_get_langcode LANG_DEFAULT;
  _ ← modify (fun w => w <| langs_description ::= <[0%nat := Some "English"%string]> |>);
  _ ← modify (fun w => w <| svc_notice := replicate LANG_MAX None |>);
  _ ← new_row 0;
  _ ← set_defaults lang_internal;
  check_defaults 0 svc_notice_string.

(** [init_langs()]: [helpdir] holds the names of the directories in [HELPDIR]. *)
Definition init_langs (helpdir : option (list string)) (HELPDIR : string) (langdir : directory) (LANGDIR : string) : M langs unit :=
  if negb (SVC_LAST =? length svc_notice_string)%nat then die "fatal error: svc_notice_string != svc_notice_enum" else
  _ ← init_default;
  match helpdir with
  | None => mlog ("Warning: Unable to open helpfile directory: " ++ HELPDIR)
  | Some subdirs => _ ← add_languages subdirs; lang_load_trans langdir LANGDIR
  end.

(** The row of a language, if there is one, and its text. *)
Definition notice_in (lang msgid : nat) : M langs (option string) :=
  row ← notice_row lang;
  match row with None => mret None | Some row => need OutOfBounds (row !! msgid) end.

(** [lang_get_notice()]: [language] is that of the registration that the user is logged in to. *)
Definition lang_get_notice (default_language : nat) (msgid : nat) (language : option nat) : M langs (option string) :=
  own ← match language with Some lang => notice_in lang msgid | None => mret None end;
  match own with
  | Some text => mret (Some text)
  | None =>
    text ← notice_in default_language msgid;
    match text with
    | Some text => mret (Some text)
    | None => notice_at 0 msgid
    end
  end.

(** ** What a format takes

    [reads parsing n s l e]: in a text [s], of which the part before has left [n] times
    the letter [l] behind a percent sign without a conversion, the conversions take the
    arguments [l], and [e] letters are left behind at the end.  With [parsing] the text
    begins behind a percent sign. *)
Definition long_flags (n : nat) : Z :=
  match n with O => 0 | 1%nat => LANG_FMT_INTLONG | _ => Z.lor LANG_FMT_INTLONG LANG_FMT_INTLONGLONG end.

Inductive reads : bool → nat → string → list lang_fmt → nat → Prop :=
| reads_end b n : reads b n EmptyString [] n
| reads_text n c s l e : c ≠ "%"%char → reads false n s l e → reads false n (String c s) l e
| reads_start n s l e : reads true n s l e → reads false n (String "%" s) l e
| reads_percent n s l e : reads false n s l e → reads true n (String "%" s) l e
| reads_long n s l e : reads true (Nat.min 2 (S n)) s l e → reads true n (String "l" s) l e
| reads_modifier c s l e : is_modifier c = true → reads true 0 s l e → reads true 0 (String c s) l e
| reads_conv n c type flags s l e :
    conversion c = Some (type, flags) → reads false 0 s l e →
    reads true n (String c s) (LangFmt type (Z.lor (long_flags n) flags) :: l) e.

(** The array after a text: the arguments, what is left behind, zeroes. *)
Definition padded (l : list lang_fmt) (e : nat) : list lang_fmt :=
  l ++ LangFmt 0 (long_flags e) :: replicate (MAX_FMT_ARGS - 1 - length l) zero_fmt.

Lemma conversion_kinds c type flags : conversion c = Some (type, flags) →
  c ≠ "%"%char ∧ c ≠ "l"%char ∧ is_modifier c = false ∧ type ≠ 0.
Proof.
  unfold conversion.
  repeat match goal with |- context [Ascii.eqb c ?d] =>
    destruct (Ascii.eqb_spec c d) as [->|_]; cbn [orb]; [by intros [= <- <-]|] end. done.
Qed.

Lemma modifier_kinds c : is_modifier c = true → c ≠ "%"%char ∧ c ≠ "l"%char.
Proof. intros Hm. split; intros ->; done. Qed.

Lemma longer_flags n : (n ≤ 2)%nat → longer (long_flags n) = long_flags (Nat.min 2 (S n)).
Proof. intros. by do 3 (destruct n as [|n]; [done|]); lia. Qed.

Lemma long_flags_inj n m : (n ≤ 2)%nat → (m ≤ 2)%nat → long_flags n = long_flags m → n = m.
Proof. intros. do 3 (destruct n as [|n]; [by do 3 (destruct m as [|m]; [done|]); lia|]). lia. Qed.

Lemma long_flags_zero n : (long_flags n =? 0) = (n =? 0)%nat.
Proof. by do 2 (destruct n as [|n]; [done|]). Qed.

Lemma reads_bound b n s l e : reads b n s l e → (n ≤ 2)%nat → (e ≤ 2)%nat.
Proof. induction 1; lia. Qed.

Lemma reads_types b n s l e : reads b n s l e → Forall (fun f => lf_type f ≠ 0) l.
Proof. induction 1; auto. constructor; [|done]. by eapply conversion_kinds. Qed.

Section padded.
Context (l : list lang_fmt) (n : nat).
Hypothesis Hl : (length l < MAX_FMT_ARGS)%nat.

Lemma padded_here : padded l n !! length l = Some (LangFmt 0 (long_flags n)).
Proof. unfold padded. by rewrite lookup_app_r, Nat.sub_diag by lia. Qed.

Lemma fmt_at_padded : fmt_at (length l) (padded l n) = Ok (LangFmt 0 (long_flags n)) (padded l n).
Proof. unfold fmt_at. erewrite bind_ok by done. by rewrite padded_here. Qed.

Lemma padded_long m : <[length l := LangFmt 0 (long_flags m)]> (padded l n) = padded l m.
Proof. unfold padded. by rewrite insert_app_r_alt, Nat.sub_diag by lia. Qed.

Lemma padded_arg f : (length l + 1 < MAX_FMT_ARGS)%nat → <[length l := f]> (padded l n) = padded (l ++ [f]) 0.
Proof.
  intros Hl'. unfold padded. rewrite insert_app_r_alt, Nat.sub_diag, <- app_assoc by lia. cbn [insert list_insert app]. f_equal. f_equal.
  rewrite length_app. cbn [length]. replace (MAX_FMT_ARGS - 1 - length l)%nat with (S (MAX_FMT_ARGS - 1 - (length l + 1))) by lia. done.
Qed.
End padded.

Lemma padded_inj l l' e e' :
  Forall (fun f => lf_type f ≠ 0) l → Forall (fun f => lf_type f ≠ 0) l' → (e ≤ 2)%nat → (e' ≤ 2)%nat →
  padded l e = padded l' e' → l = l' ∧ e = e'.
Proof.
  unfold padded. intros Hl Hl' He He'. generalize (MAX_FMT_ARGS - 1 - length l)%nat, (MAX_FMT_ARGS - 1 - length l')%nat. revert l' Hl'.
  induction Hl as [|x l Hx _ IH]; intros [|x' l'] Hl' m m'; cbn [app]; try apply Forall_cons in Hl' as [Hx' Hl']; intros [= E1 E2].
  - split; [done|]. by apply long_flags_inj.
  - subst x'. done.
  - subst x. done.
  - subst x'. destruct (IH l' Hl' _ _ E2) as [-> ->]. done.
Qed.

(** What the loop answers on [data], with the arguments [l] found before. *)
Definition verdict (l : list lang_fmt) (parsing : bool) (n : nat) (data : string) (o : outcome (list lang_fmt) Z) : Prop :=
  ∃ r fmt, o = Ok r fmt ∧
    ((r = 1 ∧ ∃ l' e, reads parsing n data l' e ∧ (length (l ++ l') + 1 < MAX_FMT_ARGS)%nat ∧ fmt = padded (l ++ l') e) ∨
     (r ≤ 0 ∧ ∀ l' e, reads parsing n data l' e → (MAX_FMT_ARGS ≤ length (l ++ l') + 1)%nat)).

Lemma verdict_same l p n data p' n' data' o :
  (∀ l' e, reads p n data l' e ↔ reads p' n' data' l' e) → verdict l p n data o → verdict l p' n' data' o.
Proof.
  intros Hr (r & fmt & -> & Hv). exists r, fmt. split; [done|]. destruct Hv as [(-> & l' & e & H & ?)|[Hr0 H]].
  - left. split; [done|]. exists l', e. by rewrite <- Hr.
  - right. split; [done|]. intros l' e. rewrite <- Hr. eauto.
Qed.

Lemma verdict_arg l n c type flags data o :
  conversion c = Some (type, flags) →
  verdict (l ++ [LangFmt type (Z.lor (long_flags n) flags)]) false 0 data o → verdict l true n (String c data) o.
Proof.
  intros Hc (r & fmt & -> & Hv). destruct (conversion_kinds _ _ _ Hc) as (H1 & H2 & H3 & _).
  exists r, fmt. split; [done|]. destruct Hv as [(-> & l' & e & H & Hl & ->)|[Hr0 H]].
  - left. split; [done|]. exists (LangFmt type (Z.lor (long_flags n) flags) :: l'), e.
    rewrite <- app_assoc in Hl |- *. split_and!; [by constructor|done..].
  - right. split; [done|]. intros l' e Hl'. inversion Hl' as [| | |? ? ? ? ? |? ? ? ? ? |? ? ? ? Hm|? ? ? ? ? ? ? Hc' Hl'']; subst; try done; [congruence|].
    rewrite Hc' in Hc. injection Hc as -> ->. specialize (H _ _ Hl''). by rewrite <- app_assoc in H.
Qed.

Lemma fmt_parse_loop_ok data : ∀ l n parsing, (length l + 1 < MAX_FMT_ARGS)%nat → (n ≤ 2)%nat →
  verdict l parsing n data (fmt_parse_loop data (length l) parsing (padded l n)).
Proof.
  induction data as [|c data IH]; intros l n parsing Hl Hn.
  { exists 1, (padded l n). split; [done|]. left. split; [done|]. exists [], n. rewrite app_nil_r. by split; [constructor|]. }
  cbn [fmt_parse_loop].
  assert (∀ l n p, (length l < MAX_FMT_ARGS)%nat → (n ≤ 2)%nat → verdict l p n data
    ((if (MAX_FMT_ARGS <=? length l + 1)%nat then mret 0 else fmt_parse_loop data (length l) p) (padded l n))) as Hnext.
  { intros l2 n2 p Hl2 Hn2. destruct (_ <=? _)%nat eqn:E; [|apply IH; [by apply Nat.leb_gt|done]]. apply Nat.leb_le in E.
    exists 0, (padded l2 n2). split; [done|]. right. split; [done|]. intros l' e _. rewrite length_app. lia. }
  pose proof (fmt_at_padded l n ltac:(lia)) as Hat.
  destruct parsing; cbn [negb].
  2: { destruct (Ascii.eqb_spec c "%") as [->|Hc]; (eapply verdict_same; [|apply Hnext; lia]); intros l' e; split; intros H;
       try (by constructor); inversion H; by subst. }
  destruct (Ascii.eqb_spec c "%") as [->|Hc1].
  { eapply verdict_same; [|apply Hnext; lia]. intros l' e; split; intros H; [by constructor|]. by inversion H; subst. }
  destruct (Ascii.eqb_spec c "l") as [->|Hc2].
  { eapply verdict_same with (p := true) (n := Nat.min 2 (S n)) (data := data).
    { intros l' e; split; intros H; [by constructor|]. by inversion H; subst. }
    unfold fmt_put. erewrite bind_ok; [|erewrite bind_ok by exact Hat; reflexivity]. cbn [lf_type lf_flags].
    rewrite longer_flags, padded_long by lia. apply Hnext; lia. }
  destruct (conversion c) as [[type flags]|] eqn:Ec.
  { eapply verdict_arg; [exact Ec|]. unfold fmt_put. erewrite bind_ok; [|erewrite bind_ok by exact Hat; reflexivity].
    cbn [lf_flags]. rewrite padded_arg by lia.
    replace (S (length l)) with (length (l ++ [LangFmt type (Z.lor (long_flags n) flags)])) by (rewrite length_app; simpl; lia).
    apply Hnext; [rewrite length_app; simpl; lia|lia]. }
  destruct (is_modifier c) eqn:Em.
  - erewrite bind_ok by exact Hat. cbn [lf_flags]. rewrite long_flags_zero. destruct n as [|n]; cbn [Nat.eqb].
    + eapply verdict_same; [|apply Hnext; lia]. intros l' e; split; intros H; [by constructor|]. inversion H; subst; [done..|congruence].
    + exists (-1), (padded l (S n)). split; [done|]. right. split; [done|]. intros l' e H. inversion H; subst; [done..|congruence].
  - exists (-2), (padded l n). split; [done|]. right. split; [done|]. intros l' e H. inversion H; subst; congruence.
Qed.

(** The parse of a text on a zeroed array: no write is outside, and the answer is positive
    exactly if the text is a format of fewer than [MAX_FMT_ARGS - 1] arguments. *)
Lemma lang_fmt_parse_ok data : verdict [] false 0 data (lang_fmt_parse data (replicate MAX_FMT_ARGS zero_fmt)).
Proof. apply (fmt_parse_loop_ok data [] 0 false); [by apply Nat.ltb_lt|lia]. Qed.

(** [original] and [translation] take the same arguments, and leave the same behind. *)
Definition same_args (original translation : string) : Prop :=
  ∃ l e, reads false 0 original l e ∧ reads false 0 translation l e ∧ (length l + 1 < MAX_FMT_ARGS)%nat.

Lemma reads_fun b n s l e : reads b n s l e → ∀ l' e', reads b n s l' e' → l' = l ∧ e' = e.
Proof.
  induction 1 as [|n c s l e Hc _ IH|n s l e _ IH|n s l e _ IH|n s l e _ IH|c s l e Hm _ IH|n c type flags s l e Hc _ IH];
    intros l' e' H'; inversion H'; subst; try done; try (by apply IH); try (by destruct (modifier_kinds _ Hm));
    try match goal with H : conversion _ = Some _ |- _ => destruct (conversion_kinds _ _ _ H) as (?&?&?&?); congruence end.
  - rewrite Hc in *. simplify_eq.
    match goal with H : reads false 0 _ _ _ |- _ => destruct (IH _ _ H) as [-> ->] end. done.
Qed.

(** Formats as they are meant: text, doubled percent signs, and conversions with flags
    and a length. *)
Fixpoint ells (n : nat) (s : string) : string := match n with O => s | S n => String "l" (ells n s) end.

Inductive format : string → list lang_fmt → Prop :=
| format_end : format EmptyString []
| format_text c s l : c ≠ "%"%char → format s l → format (String c s) l
| format_percent s l : format s l → format (String "%" (String "%" s)) l
| format_arg mods len c type flags s l :
    Forall (fun c => is_modifier c = true) (chars mods) → (len ≤ 2)%nat → conversion c = Some (type, flags) → format s l →
    format (String "%" (mods ++ ells len (String c s))) (LangFmt type (Z.lor (long_flags len) flags) :: l).

Lemma format_reads s l : format s l → reads false 0 s l 0.
Proof.
  induction 1 as [|c s l Hc _ IH|s l _ IH|mods len c type flags s l Hm Hlen Hc _ IH];
    [constructor|by apply reads_text|by apply reads_start, reads_percent|].
  apply reads_start. induction mods as [|m mods IHm]; cbn [chars list_ascii_of_string] in Hm.
  - rewrite str_app_nil_l. clear Hm. destruct len as [|[|[|len]]]; [| | |lia]; cbn [ells]; repeat apply reads_long; by apply reads_conv.
  - apply Forall_cons in Hm as [Hm1 Hm]. rewrite str_app_cons. apply reads_modifier; [done|]. by apply IHm.
Qed.

(** Nothing but the log changes. *)
Definition same_tables (w w' : langs) : Prop :=
  langs_available w' = langs_available w ∧ langs_description w' = langs_description w ∧ svc_notice w' = svc_notice w.

#[export] Instance same_tables_preorder : PreOrder same_tables.
Proof. split; [done|]. intros x y z (H1 & H2 & H3) (H4 & H5 & H6). split_and!; congruence. Qed.

Lemma mlog_run line w : ∃ w', mlog line w = Ok tt w' ∧ same_tables w w'.
Proof. eexists. by split. Qed.

Lemma parsed_fmt_run data w : ∃ r fmt, parsed_fmt data w = Ok (r, fmt) w ∧ verdict [] false 0 data (Ok r fmt).
Proof.
  pose proof (lang_fmt_parse_ok data) as (r & fmt & E & Hv). exists r, fmt. unfold parsed_fmt. rewrite E. split; [done|].
  by exists r, fmt.
Qed.

Lemma fmt_errors_run filename translation o : ∀ t w, length o = length t →
  ∃ k w', fmt_errors filename translation (combine o t) w = Ok k w' ∧ same_tables w w' ∧ 0 ≤ k ∧ (k = 0 ↔ o = t).
Proof.
  induction o as [|x o IH]; intros [|y t] w Hl; try done; cbn [combine fmt_errors].
  { by exists 0, w. }
  assert (negb (lf_type x =? lf_type y) || negb (lf_flags x =? lf_flags y) = negb (bool_decide (x = y))) as ->.
  { destruct x as [a b], y as [a' b']; cbn [lf_type lf_flags]. destruct (Z.eqb_spec a a'), (Z.eqb_spec b b'); subst; cbn [negb orb];
      [by rewrite bool_decide_eq_true_2|rewrite bool_decide_eq_false_2; [done|congruence]..]. }
  destruct (decide (x = y)) as [->|Hne].
  - rewrite bool_decide_eq_true_2 by done. cbn [negb when]. erewrite bind_ok by done.
    destruct (IH t w) as (k & w' & E & Hs & Hk & Hz); [by injection Hl|]. erewrite bind_ok by exact E.
    exists k, w'. split_and!; [done..|]. rewrite Hz. split; congruence.
  - rewrite bool_decide_eq_false_2 by done. cbn [negb when]. destruct (mlog_run ("Warning: translation format strings differ in " ++ filename ++ ": " ++ translation) w) as (w1 & E1 & H1).
    erewrite bind_ok by exact E1. destruct (IH t w1) as (k & w' & E & Hs & Hk & Hz); [by injection Hl|]. erewrite bind_ok by exact E.
    exists (k + 1), w'. split_and!; [done|by etrans|lia|]. split; [lia|congruence].
Qed.

Lemma padded_length l e : (length l < MAX_FMT_ARGS)%nat → length (padded l e) = MAX_FMT_ARGS.
Proof. intros. unfold padded. rewrite length_app. cbn [length]. rewrite length_replicate. lia. Qed.

(** What [lang_fmt_check()] answers. *)
Lemma lang_fmt_check_run filename original translation w :
  ∃ r w', lang_fmt_check filename original translation w = Ok r w' ∧ same_tables w w' ∧
    ((r = 1 ∧ same_args original translation) ∨ (r = 0 ∧ ¬ same_args original translation)).
Proof.
  unfold lang_fmt_check. destruct (parsed_fmt_run original w) as (r & fmt & E & r' & fmt' & [= <- <-] & Hv).
  erewrite bind_ok by exact E. cbn beta iota. destruct Hv as [(-> & lo & eo & Ho & Hlo & ->)|[Hr Hno]].
  2: { rewrite (proj2 (Z.leb_le _ _)) by done. destruct (mlog_run ("Warning: Error parsing format string: " ++ original) w) as (w' & E' & Hs).
    erewrite bind_ok by exact E'. exists 0, w'. split_and!; [done..|]. right. split; [done|]. intros (l & e & Ho & _ & Hl).
    specialize (Hno _ _ Ho). cbn [app] in Hno. lia. }
  cbn [app Z.leb Z.compare] in *. clear E. destruct (parsed_fmt_run translation w) as (r & fmt & E & r' & fmt' & [= <- <-] & Hv).
  erewrite bind_ok by exact E. cbn beta iota. destruct Hv as [(-> & lt & et & Ht & Hlt & ->)|[Hr Hno]].
  2: { rewrite (proj2 (Z.leb_le _ _)) by done. destruct (mlog_run ("Warning: Error parsing format string in " ++ filename ++ ": " ++ translation) w) as (w' & E' & Hs).
    erewrite bind_ok by exact E'. exists 0, w'. split_and!; [done..|]. right. split; [done|]. intros (l & e & _ & Ht & Hl).
    specialize (Hno _ _ Ht). cbn [app] in Hno. lia. }
  cbn [app Z.leb Z.compare] in *. clear E.
  destruct (fmt_errors_run filename translation (padded lo eo) (padded lt et) w) as (k & w' & E & Hs & Hk & Hz);
    [by rewrite !padded_length by lia|].
  erewrite bind_ok by exact E. destruct (Z.eqb_spec k 0) as [->|Hk0]; [exists 1, w'|exists 0, w']; (split; [done|]; split; [done|]).
  - left. split; [done|]. destruct (padded_inj lo lt eo et) as [-> ->]; [by eapply reads_types|by eapply reads_types|eapply reads_bound; [done|lia]..|by apply Hz|].
    by exists lt, et.
  - right. split; [done|]. intros (l & e & Ho' & Ht' & _). destruct (reads_fun _ _ _ _ _ Ho _ _ Ho') as [-> ->].
    destruct (reads_fun _ _ _ _ _ Ht _ _ Ht') as [-> ->]. tauto.
Qed.

(** C14.  [lang_fmt_check()] accepts a translation exactly if it takes the arguments of the
    original, in number, order, type and length, and both take fewer than
    [MAX_FMT_ARGS - 1].  In particular formats as they are meant are compared by their
    lists of arguments, whatever their text, flags and widths.  It never writes outside
    its arrays, always ends, and changes nothing but the log. *)
Theorem lang_fmt_check_exact (filename original translation : string) (w : langs) :
  ∃ r w', lang_fmt_check filename original translation w = Ok r w' ∧ same_tables w w' ∧ (r = 0 ∨ r = 1) ∧
    (r = 1 ↔ same_args original translation) ∧
    (∀ lo lt, format original lo → format translation lt → (length lo + 1 < MAX_FMT_ARGS)%nat → (r = 1 ↔ lt = lo)).
Proof.
  destruct (lang_fmt_check_run filename original translation w) as (r & w' & E & Hs & Hr). exists r, w'.
  assert (r = 1 ↔ same_args original translation) as Hiff by (destruct Hr as [[-> ?]|[-> ?]]; split; done).
  split_and!; [done|done|destruct Hr as [[-> _]|[-> _]]; auto|done|]. intros lo lt Ho Ht Hl. rewrite Hiff. split.
  - intros (l & e & Ho' & Ht' & _). apply format_reads in Ho, Ht.
    destruct (reads_fun _ _ _ _ _ Ho _ _ Ho') as [-> ->]. by destruct (reads_fun _ _ _ _ _ Ht _ _ Ht') as [-> _].
  - intros ->. exists lo, 0%nat. by split_and!; [apply format_reads..|].
Qed.

(** ** The tables stay typed *)

(** [m] returns, and [Q] holds then. *)
Definition runs {S A} (m : M S A) (Q : A → S → Prop) (w : S) : Prop := ∃ a w', m w = Ok a w' ∧ Q a w'.

Lemma runs_bind {S A B} (m : M S A) (k : A → M S B) P Q w :
  runs m P w → (∀ a w', P a w' → runs (k a) Q w') → runs (a ← m; k a) Q w.
Proof. intros (a & w' & E & HP) Hk. destruct (Hk a w' HP) as (b & w'' & E' & HQ). exists b, w''. by erewrite bind_ok. Qed.

Lemma runs_ok {S A} (m : M S A) Q w a w' : m w = Ok a w' → Q a w' → runs m Q w.
Proof. intros. by exists a, w'. Qed.

Lemma runs_then {S A B} (m : M S A) (k : A → M S B) Q w a w' : m w = Ok a w' → runs (k a) Q w' → runs (a ← m; k a) Q w.
Proof. intros E (b & w'' & E' & HQ). exists b, w''. by erewrite bind_ok. Qed.

Lemma runs_conseq {S A} (m : M S A) P Q w : runs m P w → (∀ a w', P a w' → Q a w') → runs m Q w.
Proof. intros (a & w' & E & HP) H. exists a, w'. eauto. Qed.

Definition default_text (i : nat) : option string := snd <$> lang_internal !! i.
Definition default_row : list (option string) := Some ∘ snd <$> lang_internal.

(** The texts of a row take what the default ones take. *)
Definition typed_row (row : list (option string)) : Prop :=
  length row = SVC_LAST ∧ ∀ i text, row !! i = Some (Some text) → ∃ d, default_text i = Some d ∧ same_args d text.

Record langs_ok (w : langs) : Prop := LangsOk {
  lo_available : ∃ names, (length names < LANG_MAX)%nat ∧
    langs_available w = (Some <$> names) ++ replicate (LANG_MAX - length names) None;
  lo_description : length (langs_description w) = LANG_MAX;
  lo_rows : length (svc_notice w) = LANG_MAX;
  lo_default : svc_notice w !! 0%nat = Some (Some default_row);
  lo_typed lang row : svc_notice w !! lang = Some (Some row) → typed_row row
}.

Lemma tables_size : length lang_internal = SVC_LAST ∧ length svc_notice_string = SVC_LAST ∧ lang_internal.*1 = svc_notice_enum.
Proof. by vm_compute. Qed.

(** Every default text is a format. *)
Definition fmt_accepted (text : string) : bool :=
  match lang_fmt_parse text (replicate MAX_FMT_ARGS zero_fmt) with Ok r _ => 0 <? r | _ => false end.

Lemma fmt_accepted_same text : fmt_accepted text = true → same_args text text.
Proof.
  unfold fmt_accepted. destruct (lang_fmt_parse_ok text) as (r & fmt & -> & Hv). intros Hr%Z.ltb_lt.
  destruct Hv as [(_ & l & e & H & Hl & _)|[? _]]; [|lia]. by exists l, e.
Qed.

Lemma defaults_accepted : forallb (fun e => fmt_accepted (snd e)) lang_internal = true.
Proof. by vm_compute. Qed.

Lemma default_text_same i d : default_text i = Some d → same_args d d.
Proof.
  unfold default_text. intros (e & E & ->)%fmap_Some. apply fmt_accepted_same.
  pose proof defaults_accepted as H. rewrite forallb_forall in H. apply (H e). apply list_elem_of_In. by eapply list_elem_of_lookup_2.
Qed.

Lemma default_row_typed : typed_row default_row.
Proof.
  split; [by vm_compute|]. intros i text. unfold default_row. rewrite list_lookup_fmap. intros (e & E & [= ->])%fmap_Some.
  exists (snd e). assert (default_text i = Some (snd e)) as Ed by (unfold default_text; by rewrite E).
  split; [done|]. by eapply default_text_same.
Qed.

Lemma empty_row_typed : typed_row (replicate SVC_LAST None).
Proof. split; [by rewrite length_replicate|]. intros i text [E _]%lookup_replicate. done. Qed.

Lemma langs_ok_same w w' : same_tables w w' → langs_ok w → langs_ok w'.
Proof. intros (H1 & H2 & H3) [O1 O2 O3 O4 O5]. split; rewrite ?H1, ?H2, ?H3; done. Qed.

Lemma runs_mlog line w : langs_ok w → runs (mlog line) (fun _ w' => langs_ok w' ∧ svc_notice w' = svc_notice w) w.
Proof. intros Hw. destruct (mlog_run line w) as (w' & E & Hs). exists tt, w'. split_and!; [done|by eapply langs_ok_same|apply Hs]. Qed.

(** A change to one row. *)
Lemma langs_ok_row w lang row : langs_ok w → lang ≠ 0%nat → typed_row row →
  langs_ok (w <| svc_notice ::= <[lang := Some row]> |>).
Proof.
  intros [O1 O2 O3 O4 O5] Hl Hr. split; cbn; [done..|by rewrite length_insert|by rewrite list_lookup_insert_ne|].
  intros lang' row' E. destruct (decide (lang' = lang)) as [->|Hne]; [|rewrite list_lookup_insert_ne in E by done; by eapply O5].
  apply list_lookup_insert_Some in E as [(_ & [= <-] & _)|[]]; done.
Qed.

Lemma typed_row_insert row i d text :
  typed_row row → default_text i = Some d → same_args d text → typed_row (<[i := Some text]> row).
Proof.
  intros [Hl Ht] Hd Hs. split; [by rewrite length_insert|]. intros j t E.
  apply list_lookup_insert_Some in E as [(-> & [= <-] & _)|[_ E]]; eauto.
Qed.

(** ** Files are read to their end *)
Lemma take_line_length n : ∀ fp, (strlen (snd (take_line n fp)) ≤ strlen fp)%nat.
Proof.
  induction n as [|n IH]; intros [|c fp]; cbn; try lia. destruct (Ascii.eqb c LF); cbn; [unfold strlen; lia|].
  specialize (IH fp). destruct (take_line n fp) as [l r]. cbn in *. unfold strlen in *. lia.
Qed.

Lemma fgets_shorter n fp buf rest : fgets (S (S n)) fp = Some (buf, rest) → (strlen rest < strlen fp)%nat.
Proof.
  unfold fgets. destruct fp as [|c fp]; [done|]. cbn [take_line Nat.sub]. destruct (Ascii.eqb c LF); cbn.
  - intros [= _ <-]. unfold strlen. lia.
  - rewrite ?Nat.sub_0_r. pose proof (take_line_length n fp). destruct (take_line n fp) as [l r]. intros [= _ <-]. cbn in *. unfold strlen in *. lia.
Qed.

Lemma fgets_line fp buf rest : fgets BUFSIZE fp = Some (buf, rest) → (strlen rest < strlen fp)%nat.
Proof. apply (fgets_shorter 510). Qed.

Lemma skip_line_run {S} fuel : ∀ fp (w : S), (strlen fp < fuel)%nat →
  ∃ rest, skip_line fuel fp w = Ok rest w ∧ (strlen rest ≤ strlen fp)%nat.
Proof.
  induction fuel as [|fuel IH]; intros fp w Hf; [lia|]. cbn [skip_line]. destruct (fgets BUFSIZE fp) as [[tmp rest]|] eqn:E.
  - apply fgets_line in E. destruct (has_char tmp LF); [exists rest; split; [done|lia]|].
    destruct (IH rest w ltac:(lia)) as (r & -> & ?). exists r. split; [done|lia].
  - exists ""%string. split; [done|]. unfold strlen. simpl. lia.
Qed.

Lemma notice_index_run {S} (name : string) internal : ∀ i names (w : S), (length internal ≤ length names)%nat →
  ∃ r, notice_index i internal names name w = Ok r w ∧ ∀ j, r = Some j → (j < i + length internal)%nat.
Proof.
  induction internal as [|e internal IH]; intros i names w Hl; cbn [notice_index]; [by exists None|].
  destruct names as [|n names]; cbn [length] in Hl |- *; [lia|]. destruct (strcmp n name =? 0).
  - exists (Some i). split; [done|]. intros j [= <-]. lia.
  - destruct (IH (Datatypes.S i) names w ltac:(lia)) as (r & E & Hr). exists r. split; [done|]. intros j Hj. specialize (Hr j Hj). lia.
Qed.

Lemma default_text_lt i : (i < SVC_LAST)%nat → is_Some (default_text i).
Proof. intros Hi. unfold default_text. apply fmap_is_Some, lookup_lt_is_Some. by rewrite (proj1 tables_size). Qed.

Lemma notice_at_run w lang row i : svc_notice w !! lang = Some (Some row) → (i < length row)%nat →
  ∃ text, row !! i = Some text ∧ notice_at lang i w = Ok text w.
Proof.
  intros E Hi. apply lookup_lt_is_Some in Hi as [text Et]. exists text. split; [done|].
  unfold notice_at, notice_row. erewrite bind_ok; [|erewrite bind_ok by done; by rewrite E]. erewrite bind_ok by done. by rewrite Et.
Qed.

Lemma original_run w i d : langs_ok w → default_text i = Some d → notice_at 0 i w = Ok (Some d) w.
Proof.
  intros Hw Hd. unfold default_text in Hd. apply fmap_Some in Hd as (e & E & ->).
  destruct (notice_at_run w 0 default_row i (lo_default w Hw)) as (text & Et & ->).
  { unfold default_row. rewrite length_fmap. by eapply lookup_lt_Some. }
  unfold default_row in Et. rewrite list_lookup_fmap, E in Et. by injection Et as <-.
Qed.

(** A row that is there, other than the first. *)
Definition row_ready (lang : nat) (w : langs) : Prop :=
  lang ≠ 0%nat ∧ ∃ row, svc_notice w !! lang = Some (Some row).

Lemma set_notice_ok w lang i d text :
  langs_ok w → row_ready lang w → default_text i = Some d → same_args d text →
  runs (set_notice lang i text) (fun _ w' => langs_ok w' ∧ row_ready lang w') w.
Proof.
  intros Hw [Hl [row E]] Hd Hs. pose proof (lo_typed w Hw _ _ E) as Ht.
  assert (i < length row)%nat as Hi.
  { rewrite (proj1 Ht), <- (proj1 tables_size). unfold default_text in Hd. apply fmap_Some in Hd as (e & Ee & _). by eapply lookup_lt_Some. }
  destruct (notice_at_run w lang row i E Hi) as (old & _ & Er). unfold set_notice. eapply runs_then; [exact Er|].
  eapply runs_ok; [done|].
  assert (alter (fmap (<[i:=Some text]>)) lang (svc_notice w) = <[lang := Some (<[i:=Some text]> row)]> (svc_notice w)) as Ea.
  { apply list_eq. intros j. destruct (decide (j = lang)) as [->|Hne].
    - rewrite list_lookup_alter, decide_True, E by done. rewrite list_lookup_insert_eq by (by eapply lookup_lt_Some). done.
    - rewrite list_lookup_alter, decide_False by done. by rewrite list_lookup_insert_ne. }
  split.
  - change (langs_ok (w <| svc_notice ::= fun l => alter (fmap (<[i:=Some text]>)) lang l |>)). unfold field_upd. rewrite Ea.
    apply (langs_ok_row w lang); [done..|]. by eapply typed_row_insert.
  - split; [done|]. exists (<[i:=Some text]> row). cbn. rewrite Ea. apply list_lookup_insert_eq. by eapply lookup_lt_Some.
Qed.

Lemma same_ready lang w w' : same_tables w w' → row_ready lang w → row_ready lang w'.
Proof. intros (_ & _ & H) [Hl Hr]. split; [done|]. by rewrite H. Qed.

Lemma log_ready line lang w : langs_ok w → row_ready lang w →
  runs (mlog line) (fun _ w' => langs_ok w' ∧ row_ready lang w') w.
Proof.
  intros Hw Hr. destruct (mlog_run line w) as (w' & E & Hs). exists tt, w'.
  split_and!; [done|by eapply langs_ok_same|by eapply same_ready].
Qed.

Lemma parse_notice_ok filename lang buf w : langs_ok w → row_ready lang w →
  runs (parse_notice filename lang buf) (fun _ w' => langs_ok w' ∧ row_ready lang w') w.
Proof.
  intros Hw Hr. unfold parse_notice. destruct (strchr buf ",") as [[name data]|]; [|by apply log_ready].
  destruct tables_size as (T1 & T2 & _).
  destruct (notice_index_run name lang_internal 0 svc_notice_string w) as (r & E & Hi); [by rewrite T1, T2|].
  eapply runs_then; [exact E|]. destruct r as [i|]; [|by apply log_ready].
  destruct (strchr data QUOTE) as [[? data']|]; [|by apply log_ready].
  destruct (strrchr data' QUOTE) as [[text ?]|]; [|by apply log_ready].
  specialize (Hi i eq_refl). rewrite T1 in Hi. destruct (default_text_lt i Hi) as [d Hd].
  eapply runs_then; [by apply original_run|]. eapply runs_then; [done|].
  destruct (lang_fmt_check_run filename d text w) as (ok & w1 & E1 & Hs & Hok). eapply runs_then; [exact E1|].
  pose proof (langs_ok_same _ _ Hs Hw) as Hw1. pose proof (same_ready lang _ _ Hs Hr) as Hr1.
  destruct Hok as [[-> Hsame]|[-> _]]; [by eapply set_notice_ok|]. by eapply runs_ok.
Qed.

(** The second run over a file fills a row; the first changes nothing. *)
Lemma parse_line_fill filename lang buf w : langs_ok w → row_ready lang w →
  runs (parse_line filename lang None buf) (fun h w' => h = None ∧ langs_ok w' ∧ row_ready lang w') w.
Proof.
  intros Hw Hr. unfold parse_line. repeat (case_match; [by eapply runs_ok|]).
  eapply runs_bind with (P := fun _ w' => langs_ok w' ∧ row_ready lang w'); [|intros [] w' [? ?]; by eapply runs_ok].
  destruct (is_blank _); cbn [negb when]; [by eapply runs_ok|]. by apply parse_notice_ok.
Qed.

Lemma parse_line_heads filename lang h buf w : ∃ h', parse_line filename lang (Some h) buf w = Ok (Some h') w.
Proof. unfold parse_line. destruct h as [code desc]. repeat case_match; simplify_eq; eauto. Qed.

Lemma transfile_fill filename lang fuel : ∀ fp w, (strlen fp < fuel)%nat → langs_ok w → row_ready lang w →
  runs (lang_parse_transfile fuel fp filename lang None) (fun _ w' => langs_ok w') w.
Proof.
  induction fuel as [|fuel IH]; intros fp w Hf Hw Hr; [lia|]. cbn [lang_parse_transfile].
  destruct (fgets BUFSIZE fp) as [[buf rest]|] eqn:E; [|by eapply runs_ok]. apply fgets_line in E.
  destruct (_ && _).
  - rewrite bool_decide_eq_true_2 by done. cbn [when]. eapply runs_bind; [by apply log_ready|]. intros [] w1 [Hw1 Hr1].
    destruct (skip_line_run (S (strlen rest)) rest w1 ltac:(lia)) as (fp' & E' & Hl). eapply runs_then; [exact E'|].
    apply IH; [lia|done..].
  - eapply runs_bind; [by apply parse_line_fill|]. intros h w1 (-> & Hw1 & Hr1). apply IH; [lia|done..].
Qed.

Lemma transfile_heads filename lang fuel : ∀ fp h w, (strlen fp < fuel)%nat →
  ∃ h', lang_parse_transfile fuel fp filename lang (Some h) w = Ok (Some h') w.
Proof.
  induction fuel as [|fuel IH]; intros fp h w Hf; [lia|]. cbn [lang_parse_transfile].
  destruct (fgets BUFSIZE fp) as [[buf rest]|] eqn:E; [|by exists h]. apply fgets_line in E. destruct (_ && _).
  - rewrite bool_decide_eq_false_2 by done. cbn [when]. erewrite bind_ok by done.
    destruct (skip_line_run (S (strlen rest)) rest w ltac:(lia)) as (fp' & E' & Hl). erewrite bind_ok by exact E'. apply IH. lia.
  - destruct (parse_line_heads filename lang h buf w) as [h' E']. erewrite bind_ok by exact E'. apply IH. lia.
Qed.

(** ** Languages are entered once *)
Lemma find_lang_run {S} name names : ∀ i free (w : S), (0 < free)%nat →
  ∃ j found, find_lang i name ((Some <$> names) ++ replicate free None) w = Ok (j, found) w ∧
    (i ≤ j)%nat ∧ (if (found : bool) then (j < i + length names)%nat else j = i + length names)%nat.
Proof.
  induction names as [|n names IH]; intros i free w Hf; cbn [fmap list_fmap app length].
  - destruct free as [|free]; [lia|]. exists i, false. split; [done|]. lia.
  - cbn [find_lang]. destruct (strcasecmp n name =? 0); [exists i, true; split; [done|lia]|].
    destruct (IH (Datatypes.S i) free w Hf) as (j & found & E & H1 & H2). exists j, found. split; [done|]. destruct found; lia.
Qed.

Lemma get_langcode_ok name w : langs_ok w →
  runs (lang_get_langcode name) (fun i w' => langs_ok w' ∧ (i < LANG_MAX)%nat ∧ svc_notice w' = svc_notice w) w.
Proof.
  intros Hw. destruct (lo_available w Hw) as (names & Hn & En). unfold lang_get_langcode. eapply runs_then; [done|]. rewrite En.
  destruct (find_lang_run name names 0 (LANG_MAX - length names) w ltac:(lia)) as (j & found & E & _ & Hj).
  eapply runs_then; [exact E|]. cbn beta iota. destruct found; [eapply runs_ok; [done|]; split_and!; [done|lia|done]|].
  destruct (LANG_MAX <=? j + 1)%nat eqn:Hmax.
  - eapply runs_bind; [by apply runs_mlog|]. intros [] w' [Hw' E']. eapply runs_ok; [done|]. split_and!; [done|unfold LANG_MAX; lia|done].
  - apply Nat.leb_gt in Hmax. eapply runs_then; [done|]. eapply runs_ok; [done|]. split_and!; [|lia|done].
    destruct Hw as [O1 O2 O3 O4 O5]. split; cbn; [|done..]. exists (names ++ [name]). rewrite length_app. cbn [length]. split; [lia|].
    rewrite En, Hj, Nat.add_0_l, insert_app_r_alt by (rewrite length_fmap; lia). rewrite length_fmap, Nat.sub_diag, fmap_app, <- app_assoc. f_equal.
    replace (LANG_MAX - length names)%nat with (S (LANG_MAX - (length names + 1))) by lia. done.
Qed.

Lemma notice_row_run w lang : langs_ok w → (lang < LANG_MAX)%nat →
  ∃ row, svc_notice w !! lang = Some row ∧ notice_row lang w = Ok row w.
Proof.
  intros Hw Hl. rewrite <- (lo_rows w Hw) in Hl. apply lookup_lt_is_Some in Hl as [row E]. exists row. split; [done|].
  unfold notice_row. erewrite bind_ok by done. by rewrite E.
Qed.

Lemma log_ok line w : langs_ok w → runs (mlog line) (fun _ w' => langs_ok w') w.
Proof. intros Hw. eapply runs_conseq; [by apply runs_mlog|]. by intros ? ? [? _]. Qed.

Lemma load_transfile_ok fp filename w : langs_ok w → runs (lang_load_transfile fp filename) (fun _ w' => langs_ok w') w.
Proof.
  intros Hw. unfold lang_load_transfile.
  destruct (transfile_heads filename 0 (S (strlen fp)) fp (None, None) w ltac:(lia)) as [[code desc] E].
  eapply runs_then; [exact E|]. cbn [default id]. destruct (is_empty code) eqn:Ec; [by apply log_ok|].
  destruct (is_empty desc); [by apply log_ok|]. destruct code as [name|]; [|done]. eapply runs_then; [done|].
  destruct (_ =? 0); [by apply log_ok|]. eapply runs_bind; [by apply get_langcode_ok|]. intros lang w1 (Hw1 & Hl & _).
  destruct (notice_row_run w1 lang Hw1 Hl) as (row & Er & Erun). eapply runs_then; [exact Erun|].
  destruct row as [row|]; [by apply log_ok|]. eapply runs_then; [done|].
  assert (is_Some (langs_description w1 !! lang)) as [dsc Ed] by (by apply lookup_lt_is_Some; rewrite (lo_description w1 Hw1)).
  eapply runs_then; [by rewrite Ed|]. eapply runs_then; [done|].
  set (w2 := w1 <| langs_description ::= _ |>).
  assert (lang ≠ 0%nat) as Hne by (intros ->; rewrite (lo_default w1 Hw1) in Er; done).
  assert (langs_ok w2) as Hw2 by (destruct Hw1 as [O1 O2 O3 O4 O5]; split; cbn; rewrite ?length_insert; done).
  unfold new_row. eapply runs_then.
  { destruct (notice_row_run w2 lang Hw2 Hl) as (row' & _ & E2). erewrite bind_ok by exact E2. reflexivity. }
  set (w3 := w2 <| svc_notice ::= _ |>).
  eapply runs_bind; [|intros ? w' H; eapply runs_ok; [done|exact H]]. apply transfile_fill; [lia| |].
  - apply (langs_ok_row w2); [done..|apply empty_row_typed].
  - split; [done|]. exists (replicate SVC_LAST None). unfold w3. cbn. apply list_lookup_insert_eq. by rewrite (lo_rows w1 Hw1).
Qed.

Lemma load_trans_ok dir D w : langs_ok w → runs (lang_load_trans dir D) (fun _ w' => langs_ok w') w.
Proof.
  intros Hw.
  destruct dir as [files|]; [|by apply log_ok]. cbn [lang_load_trans]. revert w Hw.
  induction files as [|[path file] files IH]; intros w Hw; [by eapply runs_ok|]. cbn [load_files].
  eapply runs_bind with (P := fun _ w' => langs_ok w'); [|intros [] w' Hw'; by apply IH].
  destruct file as [e|fp]; [by apply log_ok|by apply load_transfile_ok].
Qed.

Lemma clear_trans_ok w : langs_ok w → runs lang_clear_trans (fun _ w' => langs_ok w') w.
Proof.
  intros [O1 O2 O3 O4 O5]. eapply runs_ok; [done|].
  assert (svc_notice w = Some default_row :: drop 1 (svc_notice w)) as E.
  { destruct (svc_notice w) as [|x l]; [done|]. cbn in O4 |- *. injection O4 as ->. by rewrite drop_0. }
  split; cbn; [done..| | |].
  - rewrite length_app, length_take, length_replicate, O3. done.
  - rewrite E. done.
  - intros lang row. rewrite E. cbn [take app length Nat.sub]. rewrite take_0. destruct lang as [|lang]; cbn.
    + intros [= <-]. apply default_row_typed.
    + intros [[=] _]%lookup_replicate.
Qed.

(** ** Start-up *)
(** Everything that [init_langs()] does before it looks at directories. *)
Definition started (w : langs) : langs :=
  Langs (Some LANG_DEFAULT :: replicate (LANG_MAX - 1) None) (<[0%nat := Some "English"%string]> (langs_description w))
    (Some default_row :: replicate (LANG_MAX - 1) None) (lang_logged w).

Lemma started_run w : init_default w = Ok tt (started w).
Proof. destruct w. by vm_compute. Qed.

Lemma started_ok w : length (langs_description w) = LANG_MAX → langs_ok (started w).
Proof.
  intros Hd. split; cbn.
  - exists [LANG_DEFAULT]. split; [by apply Nat.ltb_lt|done].
  - by rewrite length_insert.
  - done.
  - done.
  - intros [|lang] row; cbn; [intros [= <-]; apply default_row_typed|].
    intros [[=] _]%(lookup_replicate 31).
Qed.

Lemma add_languages_ok subdirs : ∀ w, langs_ok w → runs (add_languages subdirs) (fun _ w' => langs_ok w') w.
Proof.
  induction subdirs as [|d subdirs IH]; intros w Hw; [by eapply runs_ok|]. cbn [add_languages].
  eapply runs_bind with (P := fun _ w' => langs_ok w'); [|intros [] w' Hw'; by apply IH]. destruct (_ || _); [by eapply runs_ok|].
  eapply runs_bind; [by apply get_langcode_ok|]. intros i w' (Hw' & _). by eapply runs_ok.
Qed.

Lemma init_langs_ok helpdir H langdir L w : length (langs_description w) = LANG_MAX →
  runs (init_langs helpdir H langdir L) (fun _ w' => langs_ok w') w.
Proof.
  intros Hd. unfold init_langs. destruct tables_size as (_ & T2 & _). rewrite T2, Nat.eqb_refl. cbn [negb].
  eapply runs_then; [by apply started_run|]. pose proof (started_ok w Hd) as Hw.
  destruct helpdir as [subdirs|]; [|by apply log_ok].
  eapply runs_bind; [by apply add_languages_ok|]. intros [] w' Hw'. by apply load_trans_ok.
Qed.

(** ** Reachable tables

    After the start, translations are reloaded ([u_rehash()] of [src/ucommand.c], with
    [help]) and languages asked for by their names. *)
Definition reload (langdir : directory) (LANGDIR : string) : M langs unit :=
  _ ← lang_clear_trans; lang_load_trans langdir LANGDIR.

Inductive reached : langs → Prop :=
| reached_init helpdir H langdir L w w' : length (langs_description w) = LANG_MAX →
    init_langs helpdir H langdir L w = Ok tt w' → reached w'
| reached_reload langdir L w w' : reached w → reload langdir L w = Ok tt w' → reached w'
| reached_code name i w w' : reached w → lang_get_langcode name w = Ok i w' → reached w'.

Lemma runs_elim {S A} (m : M S A) Q w a w' : runs m Q w → m w = Ok a w' → Q a w'.
Proof. intros (b & w'' & E & HQ) E'. rewrite E in E'. by injection E' as <- <-. Qed.

Lemma reload_ok dir L w : langs_ok w → runs (reload dir L) (fun _ w' => langs_ok w') w.
Proof. intros Hw. unfold reload. eapply runs_bind; [by apply clear_trans_ok|]. intros [] w' Hw'. by apply load_trans_ok. Qed.

Lemma reached_ok w : reached w → langs_ok w.
Proof.
  induction 1 as [helpdir H langdir L w w' Hd E|langdir L w w' _ IH E|name i w w' _ IH E].
  - by apply (runs_elim _ _ _ _ _ (init_langs_ok helpdir H langdir L w Hd) E).
  - by apply (runs_elim _ _ _ _ _ (reload_ok langdir L w IH) E).
  - by apply (runs_elim _ _ _ _ _ (get_langcode_ok name w IH) E).
Qed.

Lemma notice_in_run w lang i : langs_ok w → (lang < LANG_MAX)%nat → (i < SVC_LAST)%nat →
  ∃ text, notice_in lang i w = Ok text w ∧
    ∀ t, text = Some t → ∃ d, default_text i = Some d ∧ same_args d t.
Proof.
  intros Hw Hl Hi. destruct (notice_row_run w lang Hw Hl) as (row & E & Er). unfold notice_in.
  erewrite bind_ok by exact Er. destruct row as [row|]; [|by exists None]. destruct (lo_typed w Hw _ _ E) as [Hlen Ht].
  rewrite <- Hlen in Hi. apply lookup_lt_is_Some in Hi as [text Et]. exists text. rewrite Et. split; [done|]. intros t ->. eauto.
Qed.

Lemma ids_in_order i name d : lang_internal !! i = Some (name, d) → svc_id name = Some i.
Proof.
  assert (Forall (fun e : nat * (string * string) => svc_id (fst (snd e)) = Some (fst e)) (imap (fun i e => (i, e)) lang_internal)) as H
    by (refine (bool_decide_unpack _ _); by vm_compute).
  intros E. rewrite Forall_lookup in H. apply (H i (i, (name, d))). rewrite list_lookup_imap, E. done.
Qed.

(** C13.  Translations are type safe.  Whatever files are found at the start and at any number
    of reloads, the program returns from reading them; and [lang_get_notice()] then has
    for every notice and every pair of language codes a text, which takes exactly the
    arguments of the notice's text in the source, so that a reply never takes another
    argument than it was given. *)
Theorem notices_typed (w : langs) (default_language msgid : nat) (language : option nat) (langdir : directory) (LANGDIR : string) :
  reached w → (default_language < LANG_MAX)%nat → (∀ lang, language = Some lang → (lang < LANG_MAX)%nat) → (msgid < SVC_LAST)%nat →
  (∀ helpdir HELPDIR w0, length (langs_description w0) = LANG_MAX →
     ∃ w', init_langs helpdir HELPDIR langdir LANGDIR w0 = Ok tt w' ∧ reached w') ∧
  (∃ w', reload langdir LANGDIR w = Ok tt w' ∧ reached w') ∧
  ∃ name d text, lang_internal !! msgid = Some (name, d) ∧ svc_id name = Some msgid ∧
    lang_get_notice default_language msgid language w = Ok (Some text) w ∧ same_args d text.
Proof.
  intros Hw Hdl Hlang Hi. pose proof (reached_ok w Hw) as Hok. split.
  { intros helpdir HELPDIR w0 H0. destruct (init_langs_ok helpdir HELPDIR langdir LANGDIR w0 H0) as ([] & w' & E & _).
    exists w'. split; [done|]. by eapply reached_init. }
  split.
  { destruct (reload_ok langdir LANGDIR w Hok) as ([] & w' & E & _). exists w'. split; [done|]. by eapply reached_reload. }
  destruct (lookup_lt_is_Some_2 lang_internal msgid) as [[name d] Ei]; [by rewrite (proj1 tables_size)|].
  assert (default_text msgid = Some d) as Hd by (unfold default_text; by rewrite Ei).
  pose proof (ids_in_order msgid name d Ei) as Hid.
  assert (∀ t, (∃ d', default_text msgid = Some d' ∧ same_args d' t) → same_args d t) as Hsame by (intros t (d' & E & ?); congruence).
  unfold lang_get_notice.
  assert (∃ own, match language with Some lang => notice_in lang msgid | None => mret None end w = Ok own w ∧
    ∀ t, own = Some t → same_args d t) as (own & Eown & Hown).
  { destruct language as [lang|]; [|by exists None]. destruct (notice_in_run w lang msgid Hok (Hlang lang eq_refl) Hi) as (t & E & Ht).
    exists t. split; [done|]. intros. by apply Hsame, Ht. }
  exists name, d. erewrite bind_ok by exact Eown. destruct own as [t|]; [exists t; split_and!; [done..|by apply Hown]|].
  destruct (notice_in_run w default_language msgid Hok Hdl Hi) as (t & E & Ht). erewrite bind_ok by exact E.
  destruct t as [t|]; [exists t; split_and!; [done..|by apply Hsame, Ht]|].
  exists d. rewrite (original_run w msgid d Hok Hd). split_and!; [done..|]. by eapply default_text_same.
Qed.

(** A French translation of two notices: the first is taken, the second takes other
    arguments than its original and is not. *)
Definition quoted (s : string) : string := String QUOTE (s ++ String QUOTE (String LF EmptyString)).
Definition french : string :=
  ("# a translation" ++ String LF ("set LANG_CODE " ++ quoted "fr" ++ "set LANG_DESCRIPTION " ++ quoted "Francais" ++
   "SVC_NOACCESS, " ++ quoted "Acces refuse a %-5s::%s" ++ "SVC_SUCCESSFUL, " ++ quoted "%s: %d"))%string.

Definition empty_langs : langs := Langs [] (replicate LANG_MAX None) [] [].
Definition french_langs : langs :=
  match init_langs (Some [".."; "en"]%string) "help" (Some [("fr.lang"%string, inr french)]) "langs" empty_langs with
  | Ok _ w => w
  | _ => empty_langs
  end.

Lemma notices_typed_witness :
  reached french_langs ∧ lang_get_notice 0 10 (Some 1%nat) french_langs = Ok (Some "Acces refuse a %-5s::%s"%string) french_langs ∧
  lang_get_notice 0 1 (Some 1%nat) french_langs = Ok (Some "%s::%s successful"%string) french_langs ∧
  ∃ name d text, lang_internal !! 10%nat = Some (name, d) ∧ svc_id name = Some 10%nat ∧
    lang_get_notice 0 10 (Some 1%nat) french_langs = Ok (Some text) french_langs ∧ same_args d text.
Proof.
  assert (reached french_langs) as Hr.
  { eapply (reached_init (Some [".."; "en"]%string) "help" (Some [("fr.lang"%string, inr french)]) "langs" empty_langs); by vm_compute. }
  split; [exact Hr|]. split; [by vm_compute|]. split; [by vm_compute|].
  eapply (notices_typed french_langs 0 10 (Some 1%nat) None "langs" Hr); [by apply Nat.ltb_lt| |by apply Nat.ltb_lt].
  intros lang [= <-]. by apply Nat.ltb_lt.
Defined.

(** The check knows the arguments, not the grammar of formats: a percent sign that ends the
    text is accepted, and so is a flag behind a width, both of which C leaves undefined. *)
Example stray_percent_accepted : same_args "done" "100%" ∧ same_args "%d" "%5-d".
Proof.
  split.
  - exists [], 0%nat. split_and!; [repeat (apply reads_text; [done|]); constructor| |by apply Nat.ltb_lt].
    do 3 (apply reads_text; [done|]). apply reads_start. constructor.
  - exists [LangFmt LANG_FMT_INTEGER 0], 0%nat.
    split_and!; [|apply reads_start, reads_modifier, reads_modifier; [done..|]|by apply Nat.ltb_lt].
    + by apply reads_start, (reads_conv 0 "d" LANG_FMT_INTEGER 0); [|constructor].
    + by apply (reads_conv 0 "d" LANG_FMT_INTEGER 0); [|constructor].
Qed.
