(* ===== verification/World.v ===== *)
(** * The state of the program

    The data of [include/client.h], [include/channel.h], [include/conf.h] and
    [include/io.h] as records, the heaps that hold it and the static tables and
    lists that index it, in one state [world].

    A pointer is an address ([ptr]); a heap is a finite map from addresses, and an
    access through an address that is not in it faults.  The parts [user],
    [server] and [service] of a client are owned by it alone and are stored
    inside it.  An intrusive list is the sequence of the addresses of its nodes;
    a list of strings holds the strings.  Fields that no modelled code reads or
    writes (log streams, sockets) are left out. *)

From S2P Require Import Prelude CString Match Rblib Tools Fault.

(** ** Constants of the headers *)
Definition REALLEN : nat := 50.
Definition UIDLEN : nat := 9.
Definition USERLEN : nat := 10.
Definition HOSTLEN : nat := 63.
Definition CHANNELLEN : nat := 200.
Definition KEYLEN : nat := 24.
Definition MAX_MODES : Z := 8.
Definition MAX_CHANNEL_TABLE : Z := 16384.
Definition MAX_NAME_HASH : Z := 65536.
Definition MAX_HOST_HASH : Z := 65536.

Definition DIR_NONE : Z := -1.
Definition DIR_ADD : Z := 1.
Definition DIR_DEL : Z := 0.
Definition dir_code (dir : bool) : Z := if dir then DIR_ADD else DIR_DEL.

Definition MODE_INVITEONLY : Z := 0x0001.
Definition MODE_MODERATED : Z := 0x0002.
Definition MODE_NOEXTERNAL : Z := 0x0004.
Definition MODE_PRIVATE : Z := 0x0008.
Definition MODE_SECRET : Z := 0x0010.
Definition MODE_TOPIC : Z := 0x0020.
Definition MODE_LIMIT : Z := 0x0040.
Definition MODE_KEY : Z := 0x0080.
Definition MODE_REGONLY : Z := 0x0100.
Definition MODE_SSLONLY : Z := 0x0200.

Definition MODE_OPPED : Z := 0x0001.
Definition MODE_VOICED : Z := 0x0002.
Definition MODE_DEOPPED : Z := 0x0004.

Definition FLAGS_DEAD : Z := 0x0001.
Definition FLAGS_EOB : Z := 0x0002.
Definition FLAGS_RSFNC : Z := 0x0004.
Definition FLAGS_NODNS : Z := 0x0008.

Definition CLIENT_INVIS : Z := 0x001.
Definition CLIENT_OPER : Z := 0x002.
Definition CLIENT_ADMIN : Z := 0x004.

Definition SERVICE_OPERED : Z := 0x001.
Definition SERVICE_MSGSELF : Z := 0x002.
Definition SERVICE_DISABLED : Z := 0x004.
Definition SERVICE_SHORTHELP : Z := 0x008.
Definition SERVICE_STEALTH : Z := 0x010.
Definition SERVICE_LOGINHELP : Z := 0x020.
Definition SERVICE_SHORTCUT : Z := 0x080.
Definition SERVICE_INTRODUCED : Z := 0x001.
Definition SERVICE_REINTRODUCE : Z := 0x002.

Definition CONN_CONNECTING : Z := 0x0001.
Definition CONN_HANDSHAKE : Z := 0x0008.
Definition CONN_DEAD : Z := 0x0010.
Definition CONN_SENTPING : Z := 0x0020.
Definition CONN_TS : Z := 0x0040.
Definition CONN_CAP_SERVICE : Z := 0x0080.
Definition CONN_CAP_RSFNC : Z := 0x0100.
Definition CONN_CAP_TB : Z := 0x0200.
Definition CONN_FLAGS_EOB : Z := 0x02000.
Definition CONN_FLAGS_SENTBURST : Z := 0x04000.

(** What the build configures. *)
Class Build := {
  NICKLEN : nat;
  TOPICLEN : nat;
  RSERV_VERSION : string;
  SERIALNUM : string;
  (** [#ifdef ENABLE_USERSERV]. *)
  ENABLE_USERSERV : bool;
  (** [s_assert] logs a failed assertion; otherwise it is [assert]. *)
  soft_assert : bool
}.

Definition NICKUSERHOSTLEN `{Build} : nat := NICKLEN + USERLEN + HOSTLEN + 2.

(** ** Data *)
Record chmode := Chmode { cm_mode : Z; cm_key : string; cm_limit : Z }.
#[export] Instance eta_chmode : Eta chmode :=
  fun r => Chmode (cm_mode r) (cm_key r) (cm_limit r).
#[export] Instance chmode_eq_dec : EqDecision chmode.
Proof. solve_decision. Defined.

Record channel := Channel {
  ch_name : string;
  ch_topic : string;
  ch_topicwho : string;
  ch_tsinfo : Z;
  ch_topic_tsinfo : Z;
  ch_users : list ptr;
  ch_users_opped : list ptr;
  ch_users_unopped : list ptr;
  ch_services : list ptr;
  ch_bans : list string;
  ch_excepts : list string;
  ch_invites : list string;
  ch_mode : chmode
}.
#[export] Instance eta_channel : Eta channel := fun r =>
  Channel (ch_name r) (ch_topic r) (ch_topicwho r) (ch_tsinfo r) (ch_topic_tsinfo r)
    (ch_users r) (ch_users_opped r) (ch_users_unopped r) (ch_services r)
    (ch_bans r) (ch_excepts r) (ch_invites r) (ch_mode r).

Record chmember := Chmember { mb_chptr : ptr; mb_client_p : ptr; mb_flags : Z }.
#[export] Instance eta_chmember : Eta chmember := fun r =>
  Chmember (mb_chptr r) (mb_client_p r) (mb_flags r).

Record user := User {
  us_username : string;
  us_host : string;
  us_ip : option string;
  (** [char *servername] points at the name of a server: the server is kept. *)
  us_servername : ptr;
  us_mask : option string;
  us_umode : Z;
  us_tsinfo : Z;
  us_flood_count : Z;
  us_flood_time : Z;
  us_user_reg : option ptr;
  us_oper : option ptr;
  us_watchflags : Z;
  us_channels : list ptr
}.
#[export] Instance eta_user : Eta user := fun r =>
  User (us_username r) (us_host r) (us_ip r) (us_servername r) (us_mask r) (us_umode r)
    (us_tsinfo r) (us_flood_count r) (us_flood_time r) (us_user_reg r) (us_oper r)
    (us_watchflags r) (us_channels r).

Record server := Server { sv_users : list ptr; sv_servers : list ptr; sv_hops : Z }.
#[export] Instance eta_server : Eta server := fun r =>
  Server (sv_users r) (sv_servers r) (sv_hops r).

(** A help file by language code, as the lines of each translation that there is. *)
Definition cachefiles : Type := gmap Z (list string).

(** A command of a service; [scm_func] is the address of its function. *)
Record service_command := ServiceCommand {
  scm_cmd : string;
  scm_func : option ptr;
  scm_minparc : Z;
  scm_helpfile : option cachefiles;
  scm_help_penalty : Z;
  scm_cmd_use : Z;
  scm_userreg : bool;
  scm_operonly : bool;
  scm_operflags : Z
}.
#[export] Instance eta_service_command : Eta service_command := fun r =>
  ServiceCommand (scm_cmd r) (scm_func r) (scm_minparc r) (scm_helpfile r) (scm_help_penalty r)
    (scm_cmd_use r) (scm_userreg r) (scm_operonly r) (scm_operflags r).

(** A command of the partyline; arrays of them end with an empty name. *)
Record ucommand_handler := UcommandHandler {
  uc_cmd : string;
  uc_func : option ptr;
  uc_flags : Z;
  uc_sflags : Z;
  uc_minpara : Z
}.

Record service := Service {
  sr_username : string;
  sr_host : string;
  sr_id : string;
  sr_status : Z;
  sr_flags : Z;
  sr_channels : list ptr;
  sr_flood : Z;
  sr_flood_max : Z;
  sr_flood_grace : Z;
  sr_command : option (list service_command);
  sr_ucommand : option (list ucommand_handler);
  sr_orig_command : option (list service_command);
  sr_orig_ucommand : option (list ucommand_handler);
  sr_help_count : Z;
  sr_ehelp_count : Z;
  sr_paced_count : Z;
  sr_ignored_count : Z;
  sr_help : option cachefiles;
  sr_helpadmin : option cachefiles
}.
#[export] Instance eta_service : Eta service := fun r =>
  Service (sr_username r) (sr_host r) (sr_id r) (sr_status r) (sr_flags r)
    (sr_channels r) (sr_flood r) (sr_flood_max r) (sr_flood_grace r) (sr_command r) (sr_ucommand r)
    (sr_orig_command r) (sr_orig_ucommand r) (sr_help_count r) (sr_ehelp_count r) (sr_paced_count r)
    (sr_ignored_count r) (sr_help r) (sr_helpadmin r).

Record client := Client {
  cl_name : string;
  cl_info : string;
  cl_uid : string;
  cl_flags : Z;
  cl_server : option server;
  cl_user : option user;
  cl_service : option service;
  cl_uplink : option ptr
}.
#[export] Instance eta_client : Eta client := fun r =>
  Client (cl_name r) (cl_info r) (cl_uid r) (cl_flags r) (cl_server r) (cl_user r)
    (cl_service r) (cl_uplink r).

Record host_entry := HostEntry {
  he_name : string;
  he_flood : Z;
  he_flood_expire : Z;
  he_cregister : Z;
  he_cregister_expire : Z;
  he_uregister : Z;
  he_uregister_expire : Z
}.

Record conf_oper := ConfOper {
  oper_name : string;
  oper_username : string;
  oper_host : string;
  oper_pass : string;
  oper_server : option string;
  oper_flags : Z;
  oper_sflags : Z;
  oper_refcount : Z
}.
#[export] Instance eta_conf_oper : Eta conf_oper := fun r =>
  ConfOper (oper_name r) (oper_username r) (oper_host r) (oper_pass r) (oper_server r)
    (oper_flags r) (oper_sflags r) (oper_refcount r).

Record service_ignore := ServiceIgnore { ig_mask : string; ig_reason : string; ig_oper : string }.

Record client_oper := ClientOper {
  co_uid : string;
  co_username : string;
  co_host : string;
  co_sid : string;
  co_oper : ptr;
  co_timestamp : Z
}.

(** A registration of [s_userserv.c]: its name, and the users logged in to it. *)
Record user_reg := UserReg {
  ur_name : string;
  ur_users : list ptr;
  ur_last_time : Z;
  ur_flags : Z;
  ur_language : Z
}.
#[export] Instance eta_user_reg : Eta user_reg := fun r =>
  UserReg (ur_name r) (ur_users r) (ur_last_time r) (ur_flags r) (ur_language r).

Record lconn := Lconn {
  lc_client_p : option ptr;
  lc_name : string;
  lc_sid : option string;
  lc_flags : Z;
  lc_first_time : Z;
  lc_last_time : Z;
  lc_pass : string
}.
#[export] Instance eta_lconn : Eta lconn := fun r =>
  Lconn (lc_client_p r) (lc_name r) (lc_sid r) (lc_flags r) (lc_first_time r) (lc_last_time r) (lc_pass r).

Record config := Config {
  cf_name : string;
  cf_sid : string;
  cf_ratbox : Z;
  cf_ping_time : Z;
  cf_split_oper_time : Z;
  cf_min_servers : Z;
  cf_min_users : Z;
  cf_gecos : string;
  cf_admin1 : option string;
  cf_admin2 : option string;
  cf_admin3 : option string;
  cf_client_flood_time : Z;
  cf_client_flood_max : Z;
  cf_client_flood_max_ignore : Z;
  cf_default_language : Z
}.

(** The memory that [rb_bh_alloc] and [rb_malloc] hand out is zeroed. *)
Definition zero_chmode : chmode := Chmode 0 "" 0.
Definition zero_channel : channel := Channel "" "" "" 0 0 [] [] [] [] [] [] [] zero_chmode.
Definition zero_user : user := User "" "" None 1 None 0 0 0 0 None None 0 [].
Definition zero_server : server := Server [] [] 0.
Definition zero_client : client := Client "" "" "" 0 None None None None.

(** ** State

    [Modules] is what the services loaded into the process keep for themselves:
    registrations, fix lists, scores.  Only their hooks touch it. *)
Class Modules := { mod_state : Type }.

(** Static data of [modebuild.c]. *)
Record modebuild := Modebuild {
  modebuf : string;
  parabuf : string;
  modedir : Z;
  modecount : Z;
  mlen : Z;
  plen : Z;
  cur_len : Z
}.
#[export] Instance eta_modebuild : Eta modebuild := fun r =>
  Modebuild (modebuf r) (parabuf r) (modedir r) (modecount r) (mlen r) (plen r) (cur_len r).

Record world `{Modules} := World {
  (* heaps *)
  clients : gmap ptr client;
  channels : gmap ptr channel;
  members : gmap ptr chmember;
  hosts : gmap ptr host_entry;
  user_regs : gmap ptr user_reg;
  conf_opers : gmap ptr conf_oper;
  (* client.c *)
  name_table : gmap Z (list ptr);
  uid_table : gmap Z (list ptr);
  host_table : gmap Z (list ptr);
  user_list : list ptr;
  oper_list : list ptr;
  server_list : list ptr;
  exited_list : list ptr;
  done_init : bool;
  current_uid : string;
  first_kill : Z;
  num_kill : Z;
  (* channel.c *)
  channel_table : gmap Z (list ptr);
  channel_list : list ptr;
  (* c_mode.c *)
  deopped_list : list ptr;
  opped_list : list ptr;
  voiced_list : list ptr;
  ban_list : list string;
  (* modebuild.c *)
  mb : modebuild;
  kickbuild_list : list string;
  kickbuildr_list : list string;
  (* service.c, conf.c, io.c *)
  service_list : list ptr;
  client_oper_list : list client_oper;
  conf_oper_list : list ptr;
  ignore_list : list service_ignore;
  watchserv_p : option ptr;
  config_file : config;
  server_p : option lconn;
  rb_time : Z;
  (* hook.c *)
  hooks : gmap Z (list ptr);
  (* the services' own data, the lines sent and the log *)
  mods : mod_state;
  sent : list string;
  logged : list string
}.
#[export] Instance eta_world `{Modules} : Eta world := fun r =>
  World _ (clients r) (channels r) (members r) (hosts r) (user_regs r) (conf_opers r)
    (name_table r) (uid_table r) (host_table r) (user_list r) (oper_list r) (server_list r)
    (exited_list r) (done_init r) (current_uid r) (first_kill r) (num_kill r)
    (channel_table r) (channel_list r)
    (deopped_list r) (opped_list r) (voiced_list r) (ban_list r)
    (mb r) (kickbuild_list r) (kickbuildr_list r)
    (service_list r) (client_oper_list r) (conf_oper_list r) (ignore_list r) (watchserv_p r) (config_file r) (server_p r) (rb_time r) (hooks r)
    (mods r) (sent r) (logged r).


(** The arguments of a hook: the object and the list that it may edit. *)
Inductive hook_arg := HookNull | HookPtr (p : ptr) | HookName (name : string).
Inductive hook_list := NoList | Members (l : list ptr) | Bans (l : list string) | Text (s : string).

(** A user is to be connected to the partyline: [connect_from_client] or
    [connect_to_client]. *)
Inductive dcc_request := DccFrom (servicenick : string) | DccTo (host : string) (port : Z).

(** What surrounds the modelled code: the support library, the build, the
    services' data, whether the connection to the uplink survives the write of
    the last of the lines sent, and the code of hooks by its address; the functions
    of the services' commands, run for a user, with their cost; the text of a message
    by language, number and arguments; and the connection of a user to the partyline
    under an operator block. *)
Class Sys := {
  sys_rb :: RbLib;
  sys_build :: Build;
  sys_modules :: Modules;
  link_up : list string → bool;
  hook_func : ptr → hook_arg → hook_list → M world (Z * hook_list);
  command_func : ptr → ptr → list string → M world Z;
  svc_notice : option Z → Z → list string → string;
  dcc_chat : ptr → ptr → dcc_request → M world unit
}.

Section world.
Context `{Sys}.

(** ** Memory *)
Definition rd {T} (heap : world → gmap ptr T) (p : ptr) : M world T :=
  w ← get; need Dangling (heap w !! p).

Definition upd_client (p : ptr) (f : client → client) : M world unit :=
  _ ← rd clients p; modify (fun w => w <| clients ::= alter f p |>).
Definition upd_channel (p : ptr) (f : channel → channel) : M world unit :=
  _ ← rd channels p; modify (fun w => w <| channels ::= alter f p |>).
Definition upd_member (p : ptr) (f : chmember → chmember) : M world unit :=
  _ ← rd members p; modify (fun w => w <| members ::= alter f p |>).

(** [p->user], [p->server], [p->service], dereferenced. *)
Definition user_of (p : ptr) : M world user := c ← rd clients p; need NullDeref (cl_user c).
Definition server_of (p : ptr) : M world server := c ← rd clients p; need NullDeref (cl_server c).
Definition service_of (p : ptr) : M world service := c ← rd clients p; need NullDeref (cl_service c).
Definition upd_user (p : ptr) (f : user → user) : M world unit :=
  _ ← user_of p; upd_client p (fun c => c <| cl_user ::= fmap f |>).
Definition upd_server (p : ptr) (f : server → server) : M world unit :=
  _ ← server_of p; upd_client p (fun c => c <| cl_server ::= fmap f |>).
Definition upd_service (p : ptr) (f : service → service) : M world unit :=
  _ ← service_of p; upd_client p (fun c => c <| cl_service ::= fmap f |>).

Definition IsServer (p : ptr) : M world bool := c ← rd clients p; mret (bool_decide (is_Some (cl_server c))).
Definition IsUser (p : ptr) : M world bool := c ← rd clients p; mret (bool_decide (is_Some (cl_user c))).
Definition IsService (p : ptr) : M world bool := c ← rd clients p; mret (bool_decide (is_Some (cl_service c))).

(** The lists of a hash table. *)
Definition bucket (t : gmap Z (list ptr)) (h : Z) : list ptr := default [] (t !! h).
Definition upd_bucket (h : Z) (f : list ptr → list ptr) (t : gmap Z (list ptr)) : gmap Z (list ptr) :=
  <[h := f (bucket t h)]> t.

(** [parv[i]] of an argument array: NULL after the last argument, and nothing
    that may be read after that. *)
Definition argv (parv : list string) (i : nat) : M world (option string) :=
  if (i <? length parv)%nat then mret (parv !! i)
  else if (i =? length parv)%nat then mret None
  else faulty OutOfBounds.

(** A [char *] that is dereferenced. *)
Definition str (x : option string) : M world string := need NullDeref x.
Definition arg (parv : list string) (i : nat) : M world string := x ← argv parv i; str x.

(** ** Logging and sending *)
Definition mlog (line : string) : M world unit := modify (fun w => w <| logged ::= fun l => l ++ [line] |>).

Definition s_assert (b : bool) : M world unit :=
  if b then mret tt else if soft_assert then mlog "Assertion failed" else die "assertion".

Definition ConnDead (l : lconn) : bool := has_flag (lc_flags l) CONN_DEAD.

Definition sendto_server (line : string) : M world unit :=
  w ← get;
  match server_p w with
  | None => mret tt
  | Some l =>
    if ConnDead l then mret tt
    else
      _ ← modify (fun w => w <| sent ::= fun s => s ++ [line] |>);
      up ← gets (fun w => link_up (sent w));
      when (negb up)
        (modify (fun w => w <| server_p := Some (l <| lc_flags ::= fun f => set_flag f CONN_DEAD |>) |>))
  end.

Definition has_sid (w : world) : bool :=
  match server_p w with Some l => negb (is_empty (lc_sid l)) | None => false end.

Definition UID (c : client) : string :=
  if is_empty (Some (cl_uid c)) then cl_name c else cl_uid c.
Definition MYUID (w : world) : string :=
  if has_sid w then cf_sid (config_file w) else cf_name (config_file w).
Definition SVC_UID (w : world) (c : client) : string :=
  if has_sid w then cl_uid c else cl_name c.
Definition sent_burst (w : world) : bool :=
  match server_p w with
  | Some l => has_flag (lc_flags l) CONN_FLAGS_SENTBURST
  | None => false
  end.

(** [%lu] of a [time_t], [%s!%s@%s] into a buffer of [size] bytes. *)
Definition lu (z : Z) : string := print_z (uint64 z).
Definition nickuserhost (size : nat) (nick user host : string) : string :=
  str_take (size - 1) (nick ++ "!" ++ user ++ "@" ++ host).

(** ** Hooks ([hook.c]) *)
Definition HOOK_CHANNEL_JOIN : Z := 4.
Definition HOOK_CHANNEL_SJOIN_LOWERTS : Z := 6.
Definition HOOK_CHANNEL_MODE_OP : Z := 8.
Definition HOOK_CHANNEL_MODE_VOICE : Z := 10.
Definition HOOK_CHANNEL_MODE_BAN : Z := 12.
Definition HOOK_CHANNEL_MODE_SIMPLE : Z := 14.
Definition HOOK_CHANNEL_OPLESS : Z := 15.
Definition HOOK_CHANNEL_DESTROY : Z := 16.
Definition HOOK_CHANNEL_TOPIC : Z := 17.
Definition HOOK_EOB_UPLINK : Z := 18.
Definition HOOK_EOB_SERVER : Z := 20.
Definition HOOK_CLIENT_CONNECT : Z := 22.
Definition HOOK_CLIENT_CONNECT_BURST : Z := 24.
Definition HOOK_CLIENT_NICKCHANGE : Z := 26.
Definition HOOK_CLIENT_EXIT : Z := 28.
Definition HOOK_CLIENT_EXIT_SPLIT : Z := 29.
Definition HOOK_SERVER_EXIT : Z := 30.
Definition HOOK_SERVER_EXIT_WARNING : Z := 31.
Definition HOOK_USERSERV_LOGIN_BURST : Z := 34.
Definition HOOK_PROTO_SQUIT_UNKNOWN : Z := 36.
Definition HOOK_LAST_HOOK : Z := 40.

Definition hook_add (func : ptr) (hook : Z) : M world unit :=
  if HOOK_LAST_HOOK <=? hook then mret tt
  else modify (fun w => w <| hooks ::= upd_bucket hook (rb_dlinkAddTail func) |>).

(** The hooks run in the order they were added until one answers below 0. *)
Fixpoint hook_run (fs : list ptr) (a : hook_arg) (l : hook_list) : M world (Z * hook_list) :=
  match fs with
  | [] => mret (0, l)
  | f :: fs =>
    r ← hook_func f a l;
    if fst r <? 0 then mret (-1, snd r) else hook_run fs a (snd r)
  end.

Definition hook_call (hook : Z) (a : hook_arg) (l : hook_list) : M world (Z * hook_list) :=
  if HOOK_LAST_HOOK <=? hook then mret (0, l)
  else w ← get; hook_run (bucket (hooks w) hook) a l.

(** A call whose result and list are not looked at again. *)
Definition hook (h : Z) (a : hook_arg) : M world unit :=
  _ ← hook_call h a NoList; mret tt.
End world.

(** ** The state at the start, and one instance of the surroundings

    Static data starts as zeros.  [quiet_sys] has the reference library, usual
    lengths, a link that stays up and hooks that do nothing: the instance in
    which the definitions are evaluated on examples. *)
Definition initial_world `{Modules} (cf : config) (now : Z) (m : mod_state) : world :=
  World _ ∅ ∅ ∅ ∅ ∅ ∅ ∅ ∅ ∅ [] [] [] [] false "" 0 0 ∅ [] [] [] [] []
    (Modebuild "" "" 0 0 0 0 0) [] [] [] [] [] [] None cf None now ∅ m [] [].

Definition quiet_modules : Modules := {| mod_state := unit |}.

Definition quiet_sys : Sys := {|
  sys_rb := rb_reference;
  sys_build := {| NICKLEN := 9; TOPICLEN := 160; RSERV_VERSION := "1.2.4"; SERIALNUM := "2012";
                  ENABLE_USERSERV := true; soft_assert := true |};
  sys_modules := quiet_modules;
  link_up := fun _ => true;
  hook_func := fun _ _ l w => Ok (0, l) w;
  command_func := fun _ _ _ w => Ok 1 w;
  svc_notice := fun _ _ args => String.concat " " args;
  dcc_chat := fun _ _ _ w => Ok tt w
|}.

Definition quiet_config : config := Config "services.example" "0SV" 1 120 0 0 0 "services" (Some "the team"%string) None None
  60 20 30 0.
Definition quiet_world : @world quiet_modules := @initial_world quiet_modules quiet_config 1000000000 tt.
