(* ===== verification/Crypt.v ===== *)
(** * Random passwords and salts ([src/crypt.c])

    [rand()] of the C library is a parameter: the numbers that its next calls return.
    What is made of them has a fixed length and only characters of [saltChars]. *)

From S2P Require Import Prelude CString Rblib Fault Snprintf World.

Definition saltChars : string := "./0123456789ABCDEFGHIJKLMNOPQRSTUVWXYZabcdefghijklmnopqrstuvwxyz".

(** [saltChars[i]]. *)
Definition saltChar (i : Z) : ascii := default NUL (chars saltChars !! Z.to_nat i).

Section crypt.
Context (rand : nat → Z).

(** The loop of [generate_salt()], which appends [len] characters to what the buffer holds. *)
Fixpoint salt_loop (i len : nat) : string :=
  match len with
  | O => EmptyString
  | S len => String (saltChar (Z.rem (rand i) 64)) (salt_loop (i + 1) len)
  end.
Definition generate_salt (len : nat) : string := salt_loop 0 len.

Definition make_md5_salt : string := "$1$" ++ generate_salt 8 ++ "$".
Definition make_des_salt : string := generate_salt 2.
Definition get_password : string := generate_salt 8.

Definition get_crypt `{Sys} (have_md5_crypt : bool) (password : string) (csalt : option string) : option string :=
  rb_crypt password (match csalt with
                     | Some salt => salt
                     | None => if have_md5_crypt then make_md5_salt else make_des_salt
                     end).

(** [rand()] returns no negative number. *)
Context (rand_spec : ∀ i, 0 ≤ rand i).

Lemma saltChar_salt i : 0 ≤ i → saltChar (Z.rem i 64) ∈ chars saltChars.
Proof.
  intros Hi. pose proof (Z.rem_bound_pos i 64 Hi ltac:(lia)) as Hb. unfold saltChar.
  destruct (lookup_lt_is_Some_2 (chars saltChars) (Z.to_nat (Z.rem i 64))) as [c Ec]; [cbn; lia|].
  rewrite Ec. by eapply list_elem_of_lookup_2.
Qed.

Lemma salt_loop_spec len : ∀ i, strlen (salt_loop i len) = len ∧ Forall (.∈ chars saltChars) (chars (salt_loop i len)).
Proof.
  induction len as [|len IH]; intros i; [by split; [|constructor]|]. destruct (IH (i + 1)%nat) as [H1 H2]. split.
  - cbn. f_equal. exact H1.
  - cbn [salt_loop chars]. constructor; [by apply saltChar_salt|done].
Qed.

Lemma salt_no_nul s : Forall (.∈ chars saltChars) (chars s) → no_nul s = true.
Proof.
  rewrite no_nul_Forall. intros Hs. eapply Forall_impl; [exact Hs|]. intros c Hc ->.
  assert (NUL ∉ chars saltChars) as Hn by (by apply (bool_decide_unpack _)). by apply Hn.
Qed.

(** A password is eight such characters, and a string. *)
Lemma get_password_spec :
  strlen get_password = 8%nat ∧ no_nul get_password = true ∧ Forall (.∈ chars saltChars) (chars get_password).
Proof. destruct (salt_loop_spec 8 0) as [H1 H2]. split; [done|]. split; [by apply salt_no_nul|done]. Qed.
End crypt.
