(* ===== verification/Umode.v ===== *)
(** * User modes ([src/client.c])

    The modes of a user, from and to text. *)

From S2P Require Import Prelude CString World.

Definition umode_bit (c : ascii) : option Z :=
  match c with
  | "a" => Some CLIENT_ADMIN
  | "i" => Some CLIENT_INVIS
  | "o" => Some CLIENT_OPER
  | _ => None
  end%char.

Fixpoint umode_loop (p : string) (dir : bool) (umode : Z) : Z :=
  match p with
  | EmptyString => umode
  | String c p =>
    if Ascii.eqb c NUL then umode
    else if Ascii.eqb c "+" then umode_loop p true umode
    else if Ascii.eqb c "-" then umode_loop p false umode
    else match umode_bit c with
         | Some bit => umode_loop p dir (if dir then set_flag umode bit else clear_flag umode bit)
         | None => umode_loop p dir umode
         end
  end.

Definition string_to_umode (p : string) (current_umode : Z) : Z := umode_loop p true current_umode.

Definition umode_to_string (umode : Z) : string :=
  "+" ++ (if has_flag umode CLIENT_ADMIN then "a" else "")
      ++ (if has_flag umode CLIENT_INVIS then "i" else "")
      ++ (if has_flag umode CLIENT_OPER then "o" else "").

(** ** Round trip *)

Lemma umode_flags umode :
  Z.land umode (Z.lor CLIENT_ADMIN (Z.lor CLIENT_INVIS CLIENT_OPER)) =
  (if has_flag umode CLIENT_ADMIN then CLIENT_ADMIN else 0)
  + (if has_flag umode CLIENT_INVIS then CLIENT_INVIS else 0)
  + (if has_flag umode CLIENT_OPER then CLIENT_OPER else 0).
Proof.
  change CLIENT_ADMIN with (2 ^ 2). change CLIENT_INVIS with (2 ^ 0). change CLIENT_OPER with (2 ^ 1).
  rewrite !has_flag_bit by done.
  change (Z.lor (2 ^ 2) (Z.lor (2 ^ 0) (2 ^ 1))) with (Z.ones 3).
  rewrite Z.land_ones by done. change (2 ^ 3) with 8.
  pose proof (Z.testbit_spec' umode 0 ltac:(done)) as H0.
  pose proof (Z.testbit_spec' umode 1 ltac:(done)) as H1.
  pose proof (Z.testbit_spec' umode 2 ltac:(done)) as H2.
  change (2 ^ 0) with 1 in H0. change (2 ^ 1) with 2 in H1. change (2 ^ 2) with 4 in H2.
  rewrite Z.div_1_r in H0.
  destruct (Z.testbit umode 0), (Z.testbit umode 1), (Z.testbit umode 2); simpl in *;
    Z.to_euclidean_division_equations; lia.
Qed.

(** [string_to_umode()] inverts [umode_to_string()]: read back onto no modes,
    the text of a user's modes gives exactly the three modes that services know,
    and the text fits the buffer of 5 bytes. *)
Theorem umode_roundtrip (umode : Z) :
  string_to_umode (umode_to_string umode) 0 =
    Z.land umode (Z.lor CLIENT_ADMIN (Z.lor CLIENT_INVIS CLIENT_OPER)) ∧
  (strlen (umode_to_string umode) < 5)%nat.
Proof.
  rewrite umode_flags. unfold umode_to_string, string_to_umode.
  destruct (has_flag umode CLIENT_ADMIN), (has_flag umode CLIENT_INVIS), (has_flag umode CLIENT_OPER);
    vm_compute; split; done || lia.
Qed.
