(* ===== verification/Lookup.v ===== *)
(** * Clients by name ([src/client.c], first part)

    The hash tables of clients, by name and by unique id, and of host names; the
    generator of unique ids.  A bucket is the list of the addresses hashed to
    it. *)

From S2P Require Import Prelude CString Match Rblib Tools Fault World.

(** [h = (h << 4) - (h + (unsigned char) ToLower( *p++ ))] on [unsigned int]. *)
Definition hash_step (h : Z) (c : ascii) : Z :=
  uint32 (uint32 (Z.shiftl h 4) - uint32 (h + code (ToLower c))).

Fixpoint hash_loop (h : Z) (p : string) : Z :=
  match p with
  | EmptyString => h
  | String c p => if Ascii.eqb c NUL then h else hash_loop (hash_step h c) p
  end.

Definition hash_name (p : string) : Z := Z.land (hash_loop 0 p) (MAX_NAME_HASH - 1).
Definition hash_host (p : string) : Z := Z.land (hash_loop 0 p) (MAX_HOST_HASH - 1).

Section lookup.
Context `{Sys}.

Definition add_client (target_p : ptr) : M world unit :=
  c ← rd clients target_p;
  _ ← modify (fun w => w <| name_table ::= upd_bucket (hash_name (cl_name c)) (rb_dlinkAdd target_p) |>);
  when (negb (is_empty (Some (cl_uid c))))
    (modify (fun w => w <| uid_table ::= upd_bucket (hash_name (cl_uid c)) (rb_dlinkAdd target_p) |>)).

Definition del_client (target_p : ptr) : M world unit :=
  c ← rd clients target_p;
  _ ← modify (fun w => w <| name_table ::= upd_bucket (hash_name (cl_name c)) (rb_dlinkDelete target_p) |>);
  when (negb (is_empty (Some (cl_uid c))))
    (modify (fun w => w <| uid_table ::= upd_bucket (hash_name (cl_uid c)) (rb_dlinkDelete target_p) |>)).

(** [!irccmp(field, name)] of the client at an address. *)
Definition client_has (field : client → string) (name : string) (p : ptr) : M world bool :=
  c ← rd clients p; mret (irccmp (field c) name =? 0).

Definition find_named_client (name : string) : M world (option ptr) :=
  l ← gets (fun w => bucket (name_table w) (hash_name name));
  find_first (client_has cl_name name) l.

Definition find_uid (name : string) : M world (option ptr) :=
  l ← gets (fun w => bucket (uid_table w) (hash_name name));
  find_first (client_has cl_uid name) l.

Definition find_client (name : string) : M world (option ptr) :=
  target_p ← (if IsDigit (deref name) then find_uid name else mret None);
  match target_p with
  | Some p => mret (Some p)
  | None => find_named_client name
  end.

(** The client found, if it is of the kind asked for. *)
Definition of_kind (kind : ptr → M world bool) (target_p : option ptr) : M world (option ptr) :=
  match target_p with
  | None => mret None
  | Some p => b ← kind p; mret (if (b : bool) then Some p else None)
  end.

Definition find_user (name : string) (search_uid : bool) : M world (option ptr) :=
  target_p ← (if search_uid then find_client name else find_named_client name);
  of_kind IsUser target_p.

Definition find_server (name : string) : M world (option ptr) :=
  target_p ← find_client name; of_kind IsServer target_p.

Definition find_service (name : string) : M world (option ptr) :=
  target_p ← find_client name; of_kind IsService target_p.

(** ** Hosts *)
Definition host_expired (now : Z) (h : host_entry) : bool :=
  (he_flood_expire h <? now) && (he_cregister_expire h <? now) && (he_uregister_expire h <? now).

Definition cleanup_bucket (i : Z) : M world unit :=
  foreach_safe (fun w => bucket (host_table w) i) (fun hent =>
    h ← rd hosts hent;
    now ← gets rb_time;
    when (host_expired now h)
      (modify (fun w => w <| host_table ::= upd_bucket i (rb_dlinkDelete hent) |>
                          <| hosts ::= delete hent |>))).

Fixpoint walk_buckets (todo : nat) (i : Z) (body : Z → M world unit) : M world unit :=
  match todo with
  | O => mret tt
  | S todo => _ ← body i; walk_buckets todo (i + 1) body
  end.

Definition cleanup_host_table : M world unit :=
  walk_buckets (Z.to_nat MAX_HOST_HASH) 0 cleanup_bucket.

Definition zero_host (name : string) : host_entry := HostEntry name 0 0 0 0 0 0.

Definition host_is (name : string) (p : ptr) : M world bool :=
  h ← rd hosts p; mret (irccmp (he_name h) name =? 0).

Definition find_host (name : string) : M world ptr :=
  l ← gets (fun w => bucket (host_table w) (hash_host name));
  r ← find_first (host_is name) l;
  match r with
  | Some p => mret p
  | None =>
    p ← gets (fun w => rb_bh_alloc (dom (hosts w)));
    _ ← modify (fun w => w <| hosts ::= <[p := zero_host name]> |>
                           <| host_table ::= upd_bucket (hash_host name) (rb_dlinkAdd p) |>);
    mret p
  end.

(** ** Unique ids *)

(** Replace the character at an index of a buffer. *)
Fixpoint str_set (s : string) (i : nat) (c : ascii) : string :=
  match s, i with
  | EmptyString, _ => EmptyString
  | String _ s', O => String c s'
  | String d s', S i => String d (str_set s' i c)
  end.

(** The loop [for(i = 8; i > 3; i--)]: the buffer, and whether it returned. *)
Fixpoint uid_loop (fuel : nat) (i : nat) (uid : string) : string * bool :=
  match fuel with
  | O => (uid, false)
  | S fuel =>
    if (3 <? i)%nat then
      let c := char_at uid i in
      if Ascii.eqb c "Z" then (str_set uid i "0", true)
      else if negb (Ascii.eqb c "9") then (str_set uid i (char_of (code c + 1)), true)
      else uid_loop fuel (i - 1) (str_set uid i "A")
    else (uid, false)
  end.

Definition next_uid (uid : string) : string * bool :=
  let '(uid, done) := uid_loop 6 8 uid in
  if done then (uid, true)
  else if Ascii.eqb (char_at uid 3) "Z" then (str_set uid 3 "A", false)
  else (str_set uid 3 (char_of (code (char_at uid 3) + 1)), true).

Definition generate_uid : M world string :=
  w ← get;
  if negb (done_init w) then
    let uid := (of_chars (char_at (cf_sid (config_file w)) <$> seq 0 3) ++ "AAAAAA")%string in
    _ ← modify (fun w => w <| current_uid := uid |> <| done_init := true |>);
    mret uid
  else
    let '(uid, ok) := next_uid (current_uid w) in
    _ ← modify (fun w => w <| current_uid := uid |>);
    _ ← s_assert ok;
    mret uid.
End lookup.

(** ** Hashes *)
Lemma hash_step_lower h c d : ToLower c = ToLower d → hash_step h c = hash_step h d.
Proof. unfold hash_step. by intros ->. Qed.

Lemma hash_loop_lower s t h :
  no_nul s = true → no_nul t = true → lower_chars s = lower_chars t → hash_loop h s = hash_loop h t.
Proof.
  revert t h. induction s as [|c s IH]; intros [|d t] h Hs Ht E; try done.
  simpl in *. bool_simpl. injection E as Ec Et.
  rewrite (proj2 (Ascii.eqb_neq c NUL)) by (by apply Ascii.eqb_neq).
  rewrite (proj2 (Ascii.eqb_neq d NUL)) by (by apply Ascii.eqb_neq).
  rewrite (hash_step_lower _ _ _ Ec). by apply IH.
Qed.

Lemma land_pow2_range z n : 0 ≤ n → 0 ≤ Z.land z (2 ^ n - 1) < 2 ^ n.
Proof.
  intros Hn. replace (2 ^ n - 1) with (Z.ones n) by (rewrite Z.ones_equiv; lia).
  rewrite Z.land_ones by done. apply Z.mod_pos_bound. by apply Z.pow_pos_nonneg.
Qed.

Lemma hash_name_irccmp s t :
  no_nul s = true → no_nul t = true → irccmp s t = 0 → hash_name s = hash_name t.
Proof.
  intros Hs Ht E. unfold hash_name. f_equal. apply hash_loop_lower; [done..|].
  by apply irccmp_lower.
Qed.

(** ** The sequence of unique ids *)

(** The digits in the order the generator counts: A to Z, then 0 to 9. *)
Definition uid_digit (c : ascii) : Z :=
  if (65 <=? code c) && (code c <=? 90) then code c - 65
  else if (48 <=? code c) && (code c <=? 57) then code c - 22
  else -1.

Definition uid_value (ds : list Z) : Z := fold_left (fun v d => v * 36 + d) ds 0.

(** A server id of three characters, a letter, and five letters or digits. *)
Definition uid_ok (sid : string) (uid : string) : Prop :=
  ∃ d3 d4 d5 d6 d7 d8,
    uid = (sid ++ of_chars [d3; d4; d5; d6; d7; d8])%string ∧
    0 ≤ uid_digit d3 < 26 ∧ Forall (fun d => 0 ≤ uid_digit d) [d4; d5; d6; d7; d8].

(** The number that a unique id stands for. *)
Definition uid_number (uid : string) : Z := uid_value (uid_digit <$> drop 3 (chars uid)).

Definition UID_COUNT : Z := 26 * 36 ^ 5.

(** One more in the same place, for the three kinds of digit. *)
Lemma uid_digit_step c :
  0 ≤ uid_digit c →
  (c = "Z"%char ∧ uid_digit c = 25) ∨ (c = "9"%char ∧ uid_digit c = 35) ∨
  (Ascii.eqb c "Z" = false ∧ Ascii.eqb c "9" = false ∧ uid_digit c < 35 ∧ uid_digit c ≠ 25 ∧
   uid_digit (char_of (code c + 1)) = uid_digit c + 1).
Proof.
  revert c.
  assert (∀ c, (if 0 <=? uid_digit c then
    (Ascii.eqb c "Z" && (uid_digit c =? 25)) || (Ascii.eqb c "9" && (uid_digit c =? 35)) ||
    (negb (Ascii.eqb c "Z") && negb (Ascii.eqb c "9") && (uid_digit c <? 35) && negb (uid_digit c =? 25) &&
     (uid_digit (char_of (code c + 1)) =? uid_digit c + 1)) else true) = true) as H
    by (apply forall_chars; vm_compute; reflexivity).
  intros c Hc. specialize (H c). destruct (Z.leb_spec 0 (uid_digit c)); [|lia].
  apply orb_true_iff in H as [[H|H]%orb_true_iff|H]; bool_simpl.
  - left. by split; [apply Ascii.eqb_eq|].
  - right; left. by split; [apply Ascii.eqb_eq|].
  - right; right. done.
Qed.

Lemma uid_digit_range c : uid_digit c ≤ 35.
Proof.
  unfold uid_digit. repeat case_match; bool_simpl; lia.
Qed.

(** One position of the loop: the digit goes up in place, or wraps with a carry. *)
Lemma uid_loop_step n i uid c :
  char_at uid i = c → 0 ≤ uid_digit c → (3 < i)%nat →
  uid_loop (S n) i uid =
    if uid_digit c =? 35 then uid_loop n (i - 1) (str_set uid i "A")
    else (str_set uid i (if uid_digit c =? 25 then "0" else char_of (code c + 1)), true).
Proof.
  intros Hc Hd Hi. cbn [uid_loop]. rewrite (proj2 (Nat.ltb_lt 3 i) Hi), Hc.
  destruct (uid_digit_step c Hd) as [[-> ->]|[[-> ->]|(-> & -> & ? & ? & ?)]]; simpl; [done..|].
  destruct (Z.eqb_spec (uid_digit c) 35); [lia|]. destruct (Z.eqb_spec (uid_digit c) 25); [lia|done].
Qed.

Lemma uid_next_digit c :
  0 ≤ uid_digit c → uid_digit c ≠ 35 →
  uid_digit (if uid_digit c =? 25 then "0" else char_of (code c + 1)) = uid_digit c + 1.
Proof.
  intros Hd Hn.
  destruct (uid_digit_step c Hd) as [[-> ->]|[[-> ?]|(_ & _ & ? & ? & ?)]]; [done..|].
  destruct (Z.eqb_spec (uid_digit c) 25); [lia|done].
Qed.

(** The digits of a unique id as a number. *)
Definition digits_number (e3 e4 e5 e6 e7 e8 : ascii) : Z :=
  ((((uid_digit e3 * 36 + uid_digit e4) * 36 + uid_digit e5) * 36 + uid_digit e6) * 36
   + uid_digit e7) * 36 + uid_digit e8.

Definition uid_text (a b c e3 e4 e5 e6 e7 e8 : ascii) : string :=
  of_chars [a; b; c; e3; e4; e5; e6; e7; e8].

Lemma uid_number_text a b c e3 e4 e5 e6 e7 e8 :
  uid_number (uid_text a b c e3 e4 e5 e6 e7 e8) = digits_number e3 e4 e5 e6 e7 e8.
Proof. unfold uid_number, uid_value, digits_number, uid_text. simpl. lia. Qed.

(** What one call has to establish, as arithmetic on the digits. *)
Lemma uid_counted a b c e3 e4 e5 e6 e7 e8 v ok :
  0 ≤ uid_digit e3 < 26 → Forall (fun d => 0 ≤ uid_digit d) [e4; e5; e6; e7; e8] →
  digits_number e3 e4 e5 e6 e7 e8 = (v + 1) `mod` UID_COUNT → (ok = true ↔ v + 1 < UID_COUNT) →
  uid_ok (of_chars [a; b; c]) (uid_text a b c e3 e4 e5 e6 e7 e8) ∧
  uid_number (uid_text a b c e3 e4 e5 e6 e7 e8) = (v + 1) `mod` UID_COUNT ∧
  (ok = true ↔ v + 1 < UID_COUNT).
Proof.
  intros H3 Hd Hv Hok. split; [|by rewrite uid_number_text].
  by exists e3, e4, e5, e6, e7, e8.
Qed.

(** The last positions first: a digit goes up, or a carry moves on. *)
Ltac uid_position d :=
  rewrite (uid_loop_step _ _ _ d) by (done || lia);
  let H := fresh in let E := fresh in
  destruct (Z.eqb_spec (uid_digit d) 35) as [H|H];
  [cbn [str_set Nat.sub]
  |pose proof (uid_next_digit d ltac:(done) H) as E; cbn [str_set];
   match type of E with uid_digit ?x = _ => set (e := x) in *; clearbody e end;
   apply uid_counted; [done|repeat constructor; done || (change (uid_digit "A") with 0; lia)|
     unfold digits_number in *; change (uid_digit "A") with 0; rewrite ?Z.mod_small; lia|
     unfold digits_number in *; split; [lia|done]]].

Lemma next_uid_text a b c d3 d4 d5 d6 d7 d8 :
  0 ≤ uid_digit d3 < 26 → Forall (fun d => 0 ≤ uid_digit d) [d4; d5; d6; d7; d8] →
  let uid := uid_text a b c d3 d4 d5 d6 d7 d8 in
  let '(uid', ok) := next_uid uid in
  uid_ok (of_chars [a; b; c]) uid' ∧
  uid_number uid' = (uid_number uid + 1) `mod` UID_COUNT ∧
  (ok = true ↔ uid_number uid + 1 < UID_COUNT).
Proof.
  intros H3 Hd. repeat (apply Forall_cons in Hd as [? Hd]). clear Hd.
  pose proof (uid_digit_range d4). pose proof (uid_digit_range d5). pose proof (uid_digit_range d6).
  pose proof (uid_digit_range d7). pose proof (uid_digit_range d8).
  cbn zeta. rewrite uid_number_text. unfold uid_text, next_uid. cbn [string_of_list_ascii].
  assert (UID_COUNT = 1572120576) as EC by done.
  uid_position d8. uid_position d7. uid_position d6. uid_position d5. uid_position d4.
  cbn [uid_loop Nat.ltb Nat.leb].
  match goal with |- context [char_at ?u 3] => change (char_at u 3) with d3 end.
  destruct (uid_digit_step d3) as [[-> E3]|[[-> ?]|(-> & _ & ? & ? & E)]]; [lia|..]; cbn [str_set].
  - apply uid_counted; [done|repeat constructor; change (uid_digit "A") with 0; lia|
      unfold digits_number; change (uid_digit "A") with 0; rewrite E3|
      unfold digits_number; rewrite E3; split; [done|lia]].
    match goal with |- _ = ?x `mod` _ => replace x with UID_COUNT by lia end.
    by rewrite Z.mod_same by lia.
  - simpl in *; lia.
  - apply uid_counted; [lia|repeat constructor; change (uid_digit "A") with 0; lia|
      unfold digits_number; change (uid_digit "A") with 0; rewrite Z.mod_small; lia|
      unfold digits_number; split; [lia|done]].
Qed.

Lemma next_uid_count sid uid :
  String.length sid = 3%nat → uid_ok sid uid →
  let '(uid', ok) := next_uid uid in
  uid_ok sid uid' ∧
  uid_number uid' = (uid_number uid + 1) `mod` UID_COUNT ∧
  (ok = true ↔ uid_number uid + 1 < UID_COUNT).
Proof.
  intros Hsid (d3 & d4 & d5 & d6 & d7 & d8 & -> & H3 & Hd).
  destruct sid as [|a [|b [|c [|]]]]; try done. by apply next_uid_text.
Qed.

Lemma uid_number_range sid uid :
  String.length sid = 3%nat → uid_ok sid uid → 0 ≤ uid_number uid < UID_COUNT.
Proof.
  intros Hsid (d3 & d4 & d5 & d6 & d7 & d8 & -> & H3 & Hd).
  destruct sid as [|a [|b [|c [|]]]]; try done.
  repeat (apply Forall_cons in Hd as [? Hd]). change (UID_COUNT) with 1572120576.
  pose proof (uid_digit_range d4). pose proof (uid_digit_range d5). pose proof (uid_digit_range d6).
  pose proof (uid_digit_range d7). pose proof (uid_digit_range d8).
  change (0 ≤ uid_number (uid_text a b c d3 d4 d5 d6 d7 d8) < 1572120576).
  rewrite uid_number_text. unfold digits_number. lia.
Qed.

Section uids.
Context `{Sys}.

Lemma generate_uid_first w :
  done_init w = false →
  let uid := (of_chars (char_at (cf_sid (config_file w)) <$> seq 0 3) ++ "AAAAAA")%string in
  generate_uid w = Ok uid (w <| current_uid := uid |> <| done_init := true |>).
Proof. intros E. unfold generate_uid. erewrite bind_ok by done. by rewrite E. Qed.

Lemma generate_uid_next w u :
  done_init w = true → next_uid (current_uid w) = (u, true) →
  generate_uid w = Ok u (w <| current_uid := u |>).
Proof. intros E En. unfold generate_uid. erewrite bind_ok by done. by rewrite E, En. Qed.

(** [n] ids, one after the other. *)
Fixpoint uids (n : nat) : M world (list string) :=
  match n with
  | O => mret []
  | S n => u ← generate_uid; us ← uids n; mret (u :: us)
  end.

Lemma uids_numbers n : ∀ w sid,
  String.length sid = 3%nat → done_init w = true → uid_ok sid (current_uid w) →
  uid_number (current_uid w) + Z.of_nat n < UID_COUNT →
  ∃ w' us, uids n w = Ok us w' ∧ Forall (uid_ok sid) us ∧
    uid_number <$> us = seqZ (uid_number (current_uid w) + 1) (Z.of_nat n).
Proof.
  induction n as [|n IH]; intros w sid Hsid Hinit Hok Hn.
  { exists w, []. done. }
  cbn [uids]. pose proof (next_uid_count sid _ Hsid Hok) as Hnext.
  pose proof (uid_number_range sid _ Hsid Hok).
  destruct (next_uid (current_uid w)) as [u ok] eqn:E. destruct Hnext as (Hu & Hnum & Hret).
  rewrite Z.mod_small in Hnum by lia.
  set (w1 := w <| current_uid := u |>).
  destruct (IH w1 sid Hsid Hinit Hu) as (w' & us & Eus & Hus & Hseq); [simpl; lia|].
  simpl in Hseq.
  rewrite (proj2 Hret) in E by lia. exists w', (u :: us).
  erewrite bind_ok by (by apply generate_uid_next). fold w1. erewrite bind_ok by done.
  split; [done|].
  split; [by constructor|]. rewrite fmap_cons, Hseq, Hnum, (seqZ_cons _ (Z.of_nat (S n))) by lia.
  f_equal. f_equal; lia.
Qed.

(** The ids that [generate_uid()] gives out, from the first call on, are the
    server's id followed by a letter and five letters or digits, and they are all
    different: no id is repeated within the first [26 * 36 ^ 5] calls. *)
Theorem generate_uid_distinct (w : world) (n : nat)
  (Hsid : String.length (cf_sid (config_file w)) = 3%nat)
  (Hinit : done_init w = false) (Hn : Z.of_nat n ≤ UID_COUNT) :
  ∃ w' us, uids n w = Ok us w' ∧ length us = n ∧ NoDup us ∧
    Forall (uid_ok (cf_sid (config_file w))) us.
Proof.
  destruct n as [|n]; [exists w, []; repeat split; constructor|].
  set (sid := cf_sid (config_file w)) in *. set (u := (sid ++ "AAAAAA")%string).
  assert (uid_ok sid u) as Hu.
  { exists "A"%char, "A"%char, "A"%char, "A"%char, "A"%char, "A"%char.
    split; [done|]. split; [vm_compute; by split|repeat constructor; by vm_compute]. }
  assert (uid_number u = 0) as Hu0
    by (unfold u; destruct sid as [|? [|? [|? [|]]]]; done).
  set (w1 := w <| current_uid := u |> <| done_init := true |>).
  destruct (uids_numbers n w1 sid) as (w' & us & E & Hok & Hseq); [done..|simpl; lia|].
  simpl in Hseq.
  exists w', (u :: us). split_and!.
  - cbn [uids]. pose proof (generate_uid_first w Hinit) as Ew. cbn zeta in Ew. fold sid in Ew.
    replace (of_chars (char_at sid <$> seq 0 3)) with sid in Ew
      by (destruct sid as [|? [|? [|? [|]]]]; done).
    rewrite (bind_ok _ _ _ _ _ Ew). fold u w1. by rewrite (bind_ok _ _ _ _ _ E).
  - apply (f_equal length) in Hseq. rewrite length_fmap, length_seqZ, Nat2Z.id in Hseq. simpl. by f_equal.
  - apply (NoDup_fmap_1 uid_number). rewrite fmap_cons, Hseq, Hu0.
    replace (0 :: seqZ (0 + 1) (Z.of_nat n)) with (seqZ 0 (Z.of_nat (S n))).
    + apply NoDup_seqZ.
    + rewrite (seqZ_cons _ (Z.of_nat (S n))) by lia. f_equal. f_equal; lia.
  - by constructor.
Qed.
End uids.

Lemma generate_uid_distinct_witness :
  done_init quiet_world = false ∧
  ∃ w' us, @uids quiet_sys 40 quiet_world = Ok us w' ∧ length us = 40%nat ∧ NoDup us ∧
    Forall (uid_ok "0SV") us.
Proof.
  split; [reflexivity|]. apply (@generate_uid_distinct quiet_sys quiet_world 40).
  - reflexivity.
  - reflexivity.
  - vm_compute. discriminate.
Defined.
