(* ===== verification/ModeBuild.v ===== *)
(** * Mode and kick lines ([src/modebuild.c])

    A burst of mode changes is collected into two buffers, the modes and their
    parameters, and sent in as many lines as the limits on a line ask for.  The
    buffers are strings of at most [BUFSIZE - 1] characters: [strcat] past the end
    of one is a fault. *)

From S2P Require Import Prelude CString Rblib Tools Fault World.

Section modebuild.
Context `{Sys}.

Definition upd_mb (f : modebuild → modebuild) : M world unit := modify (fun w => w <| mb ::= f |>).

Definition modebuild_init : M world unit :=
  upd_mb (fun b => b <| cur_len := mlen b |> <| plen := 0 |> <| parabuf := ""%string |>
                     <| modedir := DIR_NONE |> <| modecount := 0 |>).

(** The text of [snprintf(modebuf, ...)]. *)
Definition modebuild_header (w : world) (src : client) (ch : channel) : string :=
  if has_sid w
  then ":" ++ cl_uid src ++ " TMODE " ++ lu (ch_tsinfo ch) ++ " " ++ ch_name ch ++ " "
  else ":" ++ cl_name src ++ " MODE " ++ ch_name ch ++ " ".

Definition modebuild_start (source_p chptr : ptr) : M world unit :=
  w ← get;
  src ← rd clients source_p;
  ch ← rd channels chptr;
  let text := modebuild_header w src ch in
  _ ← upd_mb (fun b => b <| modebuf := str_take (BUFSIZE - 1) text |>
                         <| mlen := Z.of_nat (strlen text) |>);
  modebuild_init.

(** [strcat] onto a buffer of [BUFSIZE] bytes. *)
Definition strcat (buf s : string) : M world string :=
  if (strlen buf + strlen s <? BUFSIZE)%nat then mret (buf ++ s)%string else faulty OutOfBounds.

Definition modebuild_flush : M world unit :=
  w ← get;
  sendto_server (modebuf (mb w) ++ " " ++ parabuf (mb w)).

(** The first half of [modebuild_add()]: a line that would become too long, or has
    enough parameters, is sent, and the next one begun. *)
Definition modebuild_room (len : Z) : M world unit :=
  b ← gets mb;
  when ((Z.of_nat BUFSIZE - 3 <? cur_len b + plen b + len + 4) || (MAX_MODES <=? modecount b))
    (_ ← modebuild_flush;
     _ ← (if mlen b <? Z.of_nat BUFSIZE
          then upd_mb (fun b => b <| modebuf ::= str_take (Z.to_nat (mlen b)) |>)
          else faulty OutOfBounds);
     modebuild_init).

(** The second half: the sign, the mode and the parameter. *)
Definition modebuild_put (dir : Z) (mode : string) (arg : option string) (len : Z) : M world unit :=
  b ← gets mb;
  _ ← when (negb (modedir b =? dir))
    (m ← strcat (modebuf b) (if dir =? DIR_ADD then "+" else "-");
     upd_mb (fun b => b <| modebuf := m |> <| cur_len ::= Z.add 1 |>));
  b ← gets mb;
  m ← strcat (modebuf b) mode;
  _ ← upd_mb (fun b => b <| modebuf := m |>);
  _ ← match arg with
      | None => mret tt
      | Some a =>
        p ← strcat (parabuf b) a;
        p ← strcat p " ";
        upd_mb (fun b => b <| parabuf := p |> <| modecount ::= Z.add 1 |>
                           <| plen ::= Z.add (len + 1) |>)
      end;
  upd_mb (fun b => b <| cur_len ::= Z.add 1 |>).

Definition modebuild_add (dir : Z) (mode : string) (arg : option string) : M world unit :=
  let len := match arg with Some a => Z.of_nat (strlen a) | None => 0 end in
  _ ← modebuild_room len;
  modebuild_put dir mode arg len.

Definition modebuild_finish : M world unit :=
  b ← gets mb;
  when (negb (cur_len b =? mlen b)) modebuild_flush.

(** ** Kicks *)
Definition kickbuild_start : M world unit :=
  modify (fun w => w <| kickbuild_list := [] |> <| kickbuildr_list := [] |>).

Definition kickbuild_add (nick reason : string) : M world unit :=
  modify (fun w => w <| kickbuild_list ::= rb_dlinkAddTail nick |>
                     <| kickbuildr_list ::= rb_dlinkAddTail reason |>).

Fixpoint kickbuild_loop (nicks : list string) (service_p chptr : ptr) : M world unit :=
  match nicks with
  | [] => mret tt
  | nick :: nicks =>
    w ← get;
    reason ← need NullDeref (head (kickbuildr_list w));
    src ← rd clients service_p;
    ch ← rd channels chptr;
    _ ← sendto_server (":" ++ SVC_UID w src ++ " KICK " ++ ch_name ch ++ " " ++ nick ++ " :" ++ reason);
    _ ← modify (fun w => w <| kickbuildr_list ::= List.tl |> <| kickbuild_list ::= List.tl |>);
    kickbuild_loop nicks service_p chptr
  end.

Definition kickbuild_finish (service_p chptr : ptr) : M world unit :=
  nicks ← gets kickbuild_list; kickbuild_loop nicks service_p chptr.
End modebuild.

(** ** What is sent *)

Record change := Change { c_dir : bool; c_letter : ascii; c_arg : option string }.

Definition sign (dir : bool) : ascii := if dir then "+" else "-".
Definition mode_text (cs : list change) : string :=
  foldr (fun c s => String (sign (c_dir c)) (String (c_letter c) s)) ""%string cs.
Definition arg_text (cs : list change) : string :=
  foldr (fun c s => match c_arg c with Some a => a ++ " " ++ s | None => s end)%string ""%string cs.
Definition mode_line (header : string) (cs : list change) : string :=
  (header ++ mode_text cs) ++ " " ++ arg_text cs.

Definition arg_len (c : change) : nat := match c_arg c with Some a => strlen a | None => 0 end.
Definition args_of (cs : list change) : nat := length (omap c_arg cs).

(** A header and a parameter fit a line with something to spare. *)
Definition fits (header : string) (c : change) : Prop := (strlen header + arg_len c ≤ 505)%nat.

Lemma mode_text_app cs ds : mode_text (cs ++ ds) = (mode_text cs ++ mode_text ds)%string.
Proof. induction cs as [|c cs IH]; simpl; [done|]. by rewrite IH, !str_app_cons. Qed.

Lemma arg_text_app cs ds : arg_text (cs ++ ds) = (arg_text cs ++ arg_text ds)%string.
Proof.
  induction cs as [|c cs IH]; simpl; [done|]. rewrite IH.
  destruct (c_arg c); [by autorewrite with str|done].
Qed.

Lemma strlen_mode_text cs : strlen (mode_text cs) = (2 * length cs)%nat.
Proof. induction cs as [|c cs IH]; simpl; lia. Qed.

Lemma put_text header cs c :
  (header ++ mode_text (cs ++ [c]) =
   ((header ++ mode_text cs) ++ (if c_dir c then "+" else "-")) ++ String (c_letter c) "")%string.
Proof. rewrite mode_text_app. autorewrite with str. by destruct c as [[]]. Qed.

Lemma strlen_arg_text1 c :
  strlen (arg_text [c]) = match c_arg c with Some a => (strlen a + 1)%nat | None => 0%nat end.
Proof. unfold arg_text. simpl. destruct (c_arg c); [|done]. by rewrite !strlen_app. Qed.

Section lines.
Context `{Sys} (header : string).

Definition run_changes (cs : list change) : M world unit :=
  foldr (fun c k => _ ← modebuild_add (dir_code (c_dir c)) (String (c_letter c) "") (c_arg c); k)
    (mret tt) cs.

(** The buffers when the changes [cs] are waiting to be sent. *)
Definition buffers (cs : list change) : modebuild :=
  Modebuild (header ++ mode_text cs) (arg_text cs) DIR_NONE (Z.of_nat (args_of cs))
    (Z.of_nat (strlen header)) (Z.of_nat (strlen (arg_text cs)))
    (Z.of_nat (strlen header + strlen (mode_text cs))).

Definition waiting (w0 : world) (groups : list (list change)) (cs : list change) : world :=
  w0 <| mb := buffers cs |> <| sent := sent w0 ++ (mode_line header <$> groups) |>.

(** Lines within the limits: at least one change, at most eight parameters. *)
Definition good_line (cs : list change) : Prop :=
  cs ≠ [] ∧ (args_of cs ≤ 8)%nat ∧ (strlen (mode_line header cs) ≤ BUFSIZE - 3)%nat.

Definition link_alive (w : world) : Prop :=
  (∃ l, server_p w = Some l ∧ ConnDead l = false) ∧ ∀ s, link_up s = true.

Lemma sendto_server_alive w line :
  link_alive w → sendto_server line w = Ok tt (w <| sent ::= fun s => s ++ [line] |>).
Proof.
  intros [(l & E & Hl) Hup]. unfold sendto_server. erewrite bind_ok by done.
  rewrite E, Hl. erewrite bind_ok by done. erewrite bind_ok by done. by rewrite Hup.
Qed.


Lemma strcat_ok (buf s : string) (w : world) :
  (strlen buf + strlen s < BUFSIZE)%nat → strcat buf s w = Ok (buf ++ s)%string w.
Proof. intros E. unfold strcat. by rewrite (proj2 (Nat.ltb_lt _ _) E). Qed.

(** Room is made by sending the line, or was there. *)
Lemma modebuild_room_ok w0 groups cs c :
  link_alive w0 → fits header c → Forall good_line groups →
  (cs ≠ [] → good_line cs) →
  ∃ groups' cs',
    modebuild_room (Z.of_nat (arg_len c)) (waiting w0 groups cs) = Ok tt (waiting w0 groups' cs') ∧
    Forall good_line groups' ∧ concat groups' ++ cs' = concat groups ++ cs ∧ (cs' ≠ [] → good_line cs') ∧
    (args_of cs' < 8)%nat ∧
    (strlen header + 2 * length cs' + strlen (arg_text cs') + arg_len c + 4 ≤ BUFSIZE - 3)%nat.
Proof.
  intros Hl Hc Hg Hgood. unfold fits in Hc. unfold modebuild_room. erewrite bind_ok by done.
  change (mb (waiting w0 groups cs)) with (buffers cs).
  set (full := _ || _).
  assert (full = false →
    (strlen header + 2 * length cs + strlen (arg_text cs) + arg_len c + 4 ≤ BUFSIZE - 3)%nat ∧
    (args_of cs < 8)%nat) as Hroom.
  { unfold full, buffers, MAX_MODES, BUFSIZE. cbn [cur_len plen modecount]. intros E. bool_simpl.
    rewrite strlen_mode_text in *. lia. }
  destruct full eqn:Efull; cbn [when].
  2:{ exists groups, cs. destruct Hroom as [? ?]; [done|]. by split_and!. }
  assert (cs ≠ []) as Hne.
  { intros ->. apply orb_true_iff in Efull as [E|E]; bool_simpl;
      unfold buffers, MAX_MODES, BUFSIZE in *; cbn [cur_len plen modecount] in E;
      unfold strlen, args_of in *; simpl in *; lia. }
  exists (groups ++ [cs]), []. split_and!.
  - unfold modebuild_flush.
    erewrite bind_ok by (erewrite bind_ok by done; by apply sendto_server_alive).
    erewrite bind_ok.
    2:{ replace (mlen _ <? Z.of_nat BUFSIZE) with true; [done|]. symmetry. apply Z.ltb_lt.
        unfold waiting, buffers, BUFSIZE. simpl. lia. }
    unfold modebuild_init, upd_mb, modify. f_equal. unfold waiting, buffers. simpl.
    rewrite Nat2Z.id, str_take_app. f_equal.
    + unfold strlen. rewrite str_app_nil_r, Nat.add_0_r. done.
    + by rewrite fmap_app, app_assoc.
  - apply Forall_app. split; [done|]. constructor; [by apply Hgood|done].
  - by rewrite concat_app, app_nil_r; simpl; rewrite app_nil_r.
  - done.
  - unfold args_of. simpl. lia.
  - unfold BUFSIZE, strlen in *. simpl. lia.
Qed.

Lemma modebuild_put_ok w0 groups cs c :
  (args_of cs < 8)%nat →
  (strlen header + 2 * length cs + strlen (arg_text cs) + arg_len c + 4 ≤ BUFSIZE - 3)%nat →
  modebuild_put (dir_code (c_dir c)) (String (c_letter c) "") (c_arg c) (Z.of_nat (arg_len c))
    (waiting w0 groups cs) = Ok tt (waiting w0 groups (cs ++ [c])) ∧
  good_line (cs ++ [c]).
Proof.
  intros Ha Hlen. split.
  - unfold modebuild_put. erewrite bind_ok by done.
    change (mb (waiting w0 groups cs)) with (buffers cs).
    replace (negb (modedir (buffers cs) =? dir_code (c_dir c))) with true by (by destruct (c_dir c)).
    replace (dir_code (c_dir c) =? DIR_ADD) with (c_dir c) by (by destruct (c_dir c)).
    assert (strlen (header ++ mode_text cs) = strlen header + 2 * length cs)%nat as Lm
      by (rewrite strlen_app, strlen_mode_text; done).
    assert (strlen header + 2 * length cs + strlen (arg_text cs) + arg_len c < 506)%nat as Hs
      by (unfold BUFSIZE in *; lia).
    eapply run_bind.
    { eapply run_bind; [|done]. apply strcat_ok. unfold BUFSIZE, buffers. cbn [modebuf].
      rewrite Lm. destruct (c_dir c); simpl; lia. }
    eapply run_bind; [done|]. eapply run_bind.
    { apply strcat_ok. unfold BUFSIZE. cbn [modebuf]. simpl. change String.length with strlen.
      rewrite strlen_app, Lm. destruct (c_dir c); simpl; lia. }
    eapply run_bind; [done|].
    pose proof (arg_text_app cs [c]) as Et. pose proof (strlen_arg_text1 c) as E1.
    unfold arg_len in *. unfold arg_text in Et at 3. simpl in Et.
    destruct (c_arg c) as [a|] eqn:Ea.
    + eapply run_bind.
      { eapply run_bind; [apply strcat_ok; unfold BUFSIZE; simpl; unfold strlen in *; lia|].
        eapply run_bind; [|done]. apply strcat_ok. simpl.
        change String.length with strlen. rewrite strlen_app. unfold BUFSIZE, strlen in *. simpl. lia. }
      unfold upd_mb, modify. f_equal. unfold waiting, buffers. simpl. do 2 f_equal.
      * by rewrite <- put_text.
      * by rewrite Et, !str_app_assoc.
      * unfold args_of. rewrite omap_app, length_app. simpl. rewrite Ea. simpl. lia.
      * rewrite Et, !strlen_app. simpl. lia.
      * rewrite strlen_mode_text, strlen_mode_text, length_app. simpl. lia.
    + eapply run_bind; [done|]. unfold upd_mb, modify. f_equal. unfold waiting, buffers. simpl. do 2 f_equal.
      * by rewrite <- put_text.
      * by rewrite Et, str_app_nil_r.
      * unfold args_of. rewrite omap_app, length_app. simpl. rewrite Ea. simpl. lia.
      * by rewrite Et, str_app_nil_r.
      * rewrite strlen_mode_text, strlen_mode_text, length_app. simpl. lia.
  - split; [by destruct cs|]. unfold good_line, mode_line, args_of in *. rewrite omap_app, length_app.
    split; [simpl; destruct (c_arg c); simpl; lia|].
    rewrite !strlen_app, strlen_mode_text, arg_text_app, strlen_app, length_app, strlen_arg_text1.
    unfold arg_len, BUFSIZE in *. simpl. destruct (c_arg c); unfold strlen in *; lia.
Qed.

Lemma modebuild_add_ok w0 groups cs c :
  link_alive w0 → fits header c → Forall good_line groups → (cs ≠ [] → good_line cs) →
  ∃ groups' cs',
    modebuild_add (dir_code (c_dir c)) (String (c_letter c) "") (c_arg c) (waiting w0 groups cs)
      = Ok tt (waiting w0 groups' cs') ∧
    Forall good_line groups' ∧ concat groups' ++ cs' = concat groups ++ cs ++ [c] ∧ good_line cs'.
Proof.
  intros Hl Hc Hg Hcs.
  destruct (modebuild_room_ok w0 groups cs c) as (groups' & cs' & E & Hg' & Eq & _ & Ha & Hs); [done..|].
  destruct (modebuild_put_ok w0 groups' cs' c Ha Hs) as [E' Hgood].
  exists groups', (cs' ++ [c]). split_and!; [|done|by rewrite !app_assoc, Eq|done].
  unfold modebuild_add. replace (match c_arg c with Some a => _ | None => 0 end)
    with (Z.of_nat (arg_len c)) by (unfold arg_len; by destruct (c_arg c)).
  by rewrite (bind_ok _ _ _ _ _ E).
Qed.

Lemma run_changes_ok w0 todo : ∀ groups cs,
  link_alive w0 → Forall (fits header) todo → Forall good_line groups → (cs ≠ [] → good_line cs) →
  ∃ groups' cs',
    run_changes todo (waiting w0 groups cs) = Ok tt (waiting w0 groups' cs') ∧
    Forall good_line groups' ∧ concat groups' ++ cs' = concat groups ++ cs ++ todo ∧
    (cs' ≠ [] → good_line cs') ∧ (cs ++ todo ≠ [] → cs' ≠ []).
Proof.
  induction todo as [|c todo IH]; intros groups cs Hl Hfit Hg Hcs.
  { exists groups, cs. split_and!; [done..|by rewrite app_nil_r|done|by rewrite app_nil_r]. }
  apply Forall_cons in Hfit as [Hc Hfit].
  destruct (modebuild_add_ok w0 groups cs c) as (g1 & c1 & E1 & Hg1 & Eq1 & Hc1); [done..|].
  destruct (IH g1 c1) as (g2 & c2 & E2 & Hg2 & Eq2 & Hc2 & Hne); [done..|].
  exists g2, c2. split_and!; [|done| |done|].
  - unfold run_changes. simpl. by rewrite (bind_ok _ _ _ _ _ E1).
  - rewrite Eq2, app_assoc, Eq1. by rewrite <- !app_assoc.
  - intros _. apply Hne. destruct Hc1 as [? _]. by destruct c1.
Qed.
End lines.

Section sent.
Context `{Sys}.

Lemma modebuild_start_ok w source_p chptr src ch :
  clients w !! source_p = Some src → channels w !! chptr = Some ch →
  (strlen (modebuild_header w src ch) < BUFSIZE)%nat →
  modebuild_start source_p chptr w = Ok tt (waiting (modebuild_header w src ch) w [] []).
Proof.
  intros Es Ec Hlen. unfold modebuild_start. eapply run_bind; [done|].
  eapply run_bind; [eapply run_bind; [done|]; by rewrite Es|].
  eapply run_bind; [eapply run_bind; [done|]; by rewrite Ec|].
  cbn zeta. rewrite (str_take_ge (BUFSIZE - 1)) by (unfold strlen, BUFSIZE in *; lia).
  eapply run_bind; [done|]. unfold modebuild_init, upd_mb, modify, waiting, buffers. simpl. f_equal.
  rewrite str_app_nil_r, app_nil_r. unfold strlen. rewrite Nat.add_0_r. by destruct w.
Qed.

Lemma modebuild_finish_ok h w groups rest :
  link_alive w → Forall (good_line h) groups → (rest ≠ [] → good_line h rest) →
  ∃ groups' b, modebuild_finish (waiting h w groups rest) =
      Ok tt (w <| mb := b |> <| sent := sent w ++ (mode_line h <$> groups') |>) ∧
    Forall (good_line h) groups' ∧ concat groups' = concat groups ++ rest.
Proof.
  intros Hl Hg Hrest. assert (link_alive (waiting h w groups rest)) as Hl' by done.
  destruct (decide (rest = [])) as [->|Hr].
  - exists groups, (buffers h []). split_and!; [|done|by rewrite app_nil_r].
    unfold modebuild_finish. eapply run_bind; [done|]. simpl.
    unfold strlen. simpl. rewrite Nat.add_0_r, Z.eqb_refl. done.
  - exists (groups ++ [rest]), (buffers h rest). split_and!.
    + unfold modebuild_finish. eapply run_bind; [done|]. replace (negb _) with true.
      * cbn [when]. unfold modebuild_flush. eapply run_bind; [done|].
        rewrite sendto_server_alive by done. rewrite fmap_app, app_assoc. done.
      * symmetry. apply negb_true_iff, Z.eqb_neq. unfold waiting, buffers. simpl.
        rewrite strlen_mode_text. destruct rest; [done|simpl; lia].
    + apply Forall_app. split; [done|]. constructor; [by apply Hrest|done].
    + by rewrite concat_app; simpl; rewrite app_nil_r.
Qed.

(** C25.  A burst of mode changes reaches the server completely and in order.
    Between [modebuild_start()] and [modebuild_finish()], for changes whose
    parameter leaves room next to the header of the line, no buffer overflows, and
    what is sent is the changes cut into lines, each of them with at least one
    change, at most eight parameters and at most 509 characters; every change
    carries its own sign. *)
Theorem modebuild_lines (w : world) (source_p chptr : ptr) (src : client) (ch : channel) (cs : list change)
  (Hsrc : clients w !! source_p = Some src) (Hch : channels w !! chptr = Some ch)
  (Hlink : link_alive w)
  (Hheader : (strlen (modebuild_header w src ch) < BUFSIZE)%nat)
  (Hfits : Forall (fits (modebuild_header w src ch)) cs) :
  ∃ w' groups,
    (_ ← modebuild_start source_p chptr; _ ← run_changes cs; modebuild_finish) w = Ok tt w' ∧
    concat groups = cs ∧
    Forall (good_line (modebuild_header w src ch)) groups ∧
    sent w' = sent w ++ (mode_line (modebuild_header w src ch) <$> groups).
Proof.
  set (h := modebuild_header w src ch) in *.
  destruct (run_changes_ok h w cs [] []) as (groups & rest & E & Hg & Eq & Hrest & Hne); [done..|].
  simpl in Eq, Hne.
  destruct (modebuild_finish_ok h w groups rest) as (groups' & b & Ef & Hg' & Eq'); [done..|].
  exists (w <| mb := b |> <| sent := sent w ++ (mode_line h <$> groups') |>), groups'.
  split_and!; [|by rewrite Eq'|done|done].
  eapply run_bind; [by apply modebuild_start_ok|]. fold h. by eapply run_bind.
Qed.
End sent.


Lemma modebuild_lines_witness :
  let w := @field_upd world _ server_p _ (fun _ => Some (Lconn (Some 2%positive) "hub" (Some "1AA"%string) 0x4000 0 0 ""%string))
             (quiet_world <| clients := {[ 1%positive := zero_client <| cl_uid := "0SVAAAAAA"%string |> ]} |>
                          <| channels := {[ 1%positive := zero_channel <| ch_name := "#a"%string |> ]} |>) in
  let cs := [Change true "o" (Some "1AAAAAAAB"%string); Change false "n" None] in
  @link_alive quiet_sys w ∧
  ∃ w' groups,
    (_ ← @modebuild_start quiet_sys 1 1; _ ← @run_changes quiet_sys cs; @modebuild_finish quiet_sys) w = Ok tt w' ∧
    concat groups = cs ∧ sent w' = sent w ++ (mode_line ":0SVAAAAAA TMODE 0 #a " <$> groups).
Proof.
  cbv zeta. set (w := field_upd server_p _ _).
  assert (@link_alive quiet_sys w) as Hl by (split; [eexists; split; reflexivity|reflexivity]).
  split; [exact Hl|].
  destruct (@modebuild_lines quiet_sys w 1 1 (zero_client <| cl_uid := "0SVAAAAAA"%string |>)
    (zero_channel <| ch_name := "#a"%string |>)
    [Change true "o" (Some "1AAAAAAAB"%string); Change false "n" None])
    as (w' & groups & E & Eq & _ & Es).
  - reflexivity.
  - reflexivity.
  - exact Hl.
  - apply Nat.ltb_lt. vm_compute. reflexivity.
  - repeat constructor; apply Nat.leb_le; vm_compute; reflexivity.
  - exists w', groups. split; [exact E|]. split; [exact Eq|exact Es].
Defined.
