(* ===== verification/Channel.v ===== *)
(** * Channels and their members ([src/channel.c], first part)

    The channel table, the memberships that tie channels and users together, the
    services inside channels, and the simple modes of a channel: what the
    handlers of the next files call. *)

From S2P Require Import Prelude CString Match Rblib Tools Fault World Lookup ModeBuild.

(** [while( *p && --i)] with [i = 30]: at most 29 characters are hashed. *)
Fixpoint hash_channel_loop (i : nat) (h : Z) (p : string) : Z :=
  match i, p with
  | O, _ | _, EmptyString => h
  | S i, String c p => if Ascii.eqb c NUL then h else hash_channel_loop i (hash_step h c) p
  end.

Definition hash_channel (p : string) : Z :=
  Z.land (hash_channel_loop 29 0 p) (MAX_CHANNEL_TABLE - 1).

Definition valid_chname (name : string) : bool :=
  if (CHANNELLEN <? strlen name)%nat then false
  else if negb (Ascii.eqb (deref name) "#") then false
  else true.

Record chmode_entry := ChmodeEntry { ct_mode : Z; ct_modestr : ascii; ct_prevent_join : Z }.
Definition chmode_table : list chmode_entry := [
  ChmodeEntry MODE_INVITEONLY "i" 1;
  ChmodeEntry MODE_MODERATED "m" 0;
  ChmodeEntry MODE_NOEXTERNAL "n" 0;
  ChmodeEntry MODE_PRIVATE "p" 0;
  ChmodeEntry MODE_SECRET "s" 0;
  ChmodeEntry MODE_TOPIC "t" 0;
  ChmodeEntry MODE_REGONLY "r" 1;
  ChmodeEntry MODE_SSLONLY "S" 1
].

(** ** Modes as text *)
Definition simple_letters (mode : chmode) : string :=
  of_chars (ct_modestr <$> filter (fun e => has_flag (cm_mode mode) (ct_mode e) = true) chmode_table).

Definition key_set (mode : chmode) : bool := negb (is_empty (Some (cm_key mode))).

Definition chmode_to_string (mode : chmode) : string :=
  "+" ++ simple_letters mode ++
  (if negb (cm_limit mode =? 0) && key_set mode
   then "lk " ++ print_z (cm_limit mode) ++ " " ++ cm_key mode
   else if negb (cm_limit mode =? 0) then "l " ++ print_z (cm_limit mode)
   else if key_set mode then "k " ++ cm_key mode
   else "").

Definition chmode_to_string_simple (mode : chmode) : string :=
  "+" ++ simple_letters mode ++
  (if negb (cm_limit mode =? 0) then "l" else "") ++ (if key_set mode then "k" else "").

Definition prevents_join (mode : chmode) : bool :=
  existsb (fun e => negb (ct_prevent_join e =? 0) && has_flag (cm_mode mode) (ct_mode e)) chmode_table
  || (key_set mode || negb (cm_limit mode =? 0)).

Section channel.
Context `{Sys}.

Definition has_prevent_join_mode (chptr : ptr) : M world bool :=
  ch ← rd channels chptr; mret (prevents_join (ch_mode ch)).

(** ** The table of channels *)
Definition add_channel (chptr : ptr) : M world unit :=
  ch ← rd channels chptr;
  modify (fun w => w <| channel_table ::= upd_bucket (hash_channel (ch_name ch)) (rb_dlinkAdd chptr) |>
                     <| channel_list ::= rb_dlinkAdd chptr |>).

Definition del_channel (chptr : ptr) : M world unit :=
  ch ← rd channels chptr;
  modify (fun w => w <| channel_table ::= upd_bucket (hash_channel (ch_name ch)) (rb_dlinkDelete chptr) |>
                     <| channel_list ::= rb_dlinkDelete chptr |>).

Definition channel_is (name : string) (p : ptr) : M world bool :=
  ch ← rd channels p; mret (irccmp (ch_name ch) name =? 0).

Definition find_channel (name : string) : M world (option ptr) :=
  l ← gets (fun w => bucket (channel_table w) (hash_channel name));
  find_first (channel_is name) l.

Definition free_channel (chptr : ptr) : M world unit :=
  _ ← hook HOOK_CHANNEL_DESTROY (HookPtr chptr);
  _ ← del_channel chptr;
  _ ← rd channels chptr;
  modify (fun w => w <| channels ::= delete chptr |>).

(** A channel of the given contents in fresh memory. *)
Definition new_channel (ch : channel) : M world ptr :=
  p ← gets (fun w => rb_bh_alloc (dom (channels w)));
  _ ← modify (fun w => w <| channels ::= <[p := ch]> |>);
  mret p.

(** ** Members *)
Definition is_opped (m : chmember) : bool := has_flag (mb_flags m) MODE_OPPED.
Definition is_voiced (m : chmember) : bool := has_flag (mb_flags m) MODE_VOICED.

Definition add_chmember (chptr target_p : ptr) (flags : Z) : M world ptr :=
  mptr ← gets (fun w => rb_bh_alloc (dom (members w)));
  let m := Chmember chptr target_p (uint32 flags) in
  _ ← modify (fun w => w <| members ::= <[mptr := m]> |>);
  _ ← upd_channel chptr (fun ch => ch <| ch_users ::= rb_dlinkAdd mptr |>);
  _ ← upd_user target_p (fun u => u <| us_channels ::= rb_dlinkAdd mptr |>);
  _ ← upd_channel chptr (fun ch =>
        if is_opped m then ch <| ch_users_opped ::= rb_dlinkAdd mptr |>
        else ch <| ch_users_unopped ::= rb_dlinkAdd mptr |>);
  mret mptr.

Definition is_nil {A} (l : list A) : bool := match l with [] => true | _ => false end.

(** Nobody is in the channel, neither users nor services. *)
Definition channel_empty (ch : channel) : bool := is_nil (ch_users ch) && is_nil (ch_services ch).

Definition del_chmember (mptr : ptr) : M world unit :=
  m ← rd members mptr;
  let chptr := mb_chptr m in
  let client_p := mb_client_p m in
  _ ← upd_channel chptr (fun ch => ch <| ch_users ::= rb_dlinkDelete mptr |>);
  _ ← upd_user client_p (fun u => u <| us_channels ::= rb_dlinkDelete mptr |>);
  _ ← (if is_opped m then
         _ ← upd_channel chptr (fun ch => ch <| ch_users_opped ::= rb_dlinkDelete mptr |>);
         ch ← rd channels chptr;
         when (is_nil (ch_users_opped ch)) (hook HOOK_CHANNEL_OPLESS (HookPtr chptr))
       else upd_channel chptr (fun ch => ch <| ch_users_unopped ::= rb_dlinkDelete mptr |>));
  ch ← rd channels chptr;
  _ ← when (channel_empty ch) (free_channel chptr);
  _ ← rd members mptr;
  modify (fun w => w <| members ::= delete mptr |>).

Definition find_chmember (chptr target_p : ptr) : M world (option ptr) :=
  ch ← rd channels chptr;
  u ← user_of target_p;
  if (length (ch_users ch) <? length (us_channels u))%nat
  then find_first (fun p => m ← rd members p; mret (bool_decide (mb_client_p m = target_p))) (ch_users ch)
  else find_first (fun p => m ← rd members p; mret (bool_decide (mb_chptr m = chptr))) (us_channels u).

Definition is_member (chptr target_p : ptr) : M world bool :=
  m ← find_chmember chptr target_p; mret (bool_decide (is_Some m)).

Definition op_chmember (member_p : ptr) : M world unit :=
  m ← rd members member_p;
  if is_opped m then mret tt
  else
    _ ← upd_member member_p (fun m =>
          m <| mb_flags ::= fun f => set_flag (clear_flag f MODE_DEOPPED) MODE_OPPED |>);
    upd_channel (mb_chptr m) (fun ch =>
      let '(unopped, opped) := rb_dlinkMoveNode member_p (ch_users_unopped ch) (ch_users_opped ch) in
      ch <| ch_users_unopped := unopped |> <| ch_users_opped := opped |>).

Definition deop_chmember (member_p : ptr) : M world unit :=
  m ← rd members member_p;
  if negb (is_opped m) then mret tt
  else
    _ ← upd_member member_p (fun m => m <| mb_flags ::= fun f => clear_flag f MODE_OPPED |>);
    _ ← upd_channel (mb_chptr m) (fun ch =>
          let '(opped, unopped) := rb_dlinkMoveNode member_p (ch_users_opped ch) (ch_users_unopped ch) in
          ch <| ch_users_opped := opped |> <| ch_users_unopped := unopped |>);
    ch ← rd channels (mb_chptr m);
    when (is_nil (ch_users_opped ch)) (hook HOOK_CHANNEL_OPLESS (HookPtr (mb_chptr m))).

Definition find_exempt (chptr target_p : ptr) : M world bool :=
  ch ← rd channels chptr;
  r ← find_first (fun e => u ← user_of target_p;
                           mret (negb (match_mask (Some e) (us_mask u) =? 0))) (ch_excepts ch);
  mret (bool_decide (is_Some r)).

Fixpoint count_loop (l : list ptr) (topic_count : Z) : M world Z :=
  match l with
  | [] => mret topic_count
  | p :: l => ch ← rd channels p;
              count_loop l (if is_empty (Some (ch_topic ch)) then topic_count else topic_count + 1)
  end.

Definition count_topics : M world Z := l ← gets channel_list; count_loop l 0.

(** ** Services in channels *)
Definition service_mode (old : chmode) (mode : option chmode) : chmode :=
  match mode with
  | Some m =>
    let k := if is_empty (Some (cm_key m)) then cm_key old else rb_strlcpy (KEYLEN + 1) (cm_key m) in
    Chmode (cm_mode m) k (cm_limit m)
  | None => old <| cm_mode := Z.lor MODE_NOEXTERNAL MODE_TOPIC |>
  end.

Definition sjoin_line (w : world) (src : client) (ch : channel) : string :=
  ":" ++ MYUID w ++ " SJOIN " ++ lu (ch_tsinfo ch) ++ " " ++ ch_name ch ++ " " ++
  chmode_to_string (ch_mode ch) ++ " :@" ++ SVC_UID w src.

Definition send_sjoin (service_p chptr : ptr) : M world unit :=
  w ← get;
  src ← rd clients service_p;
  ch ← rd channels chptr;
  sendto_server (sjoin_line w src ch).

Definition enter_service (service_p chptr : ptr) : M world unit :=
  _ ← upd_channel chptr (fun ch => ch <| ch_services ::= rb_dlinkAdd service_p |>);
  _ ← upd_service service_p (fun s => s <| sr_channels ::= rb_dlinkAdd chptr |>);
  w ← get;
  when (sent_burst w) (send_sjoin service_p chptr).

Definition join_service (service_p : ptr) (chname : string) (tsinfo : Z) (mode : option chmode)
    (override : bool) : M world unit :=
  r ← find_channel chname;
  match r with
  | None =>
    now ← gets rb_time;
    let ch := zero_channel <| ch_name := rb_strlcpy (CHANNELLEN + 1) chname |>
                           <| ch_tsinfo := if tsinfo =? 0 then now else tsinfo |>
                           <| ch_mode ::= fun m => service_mode m mode |> in
    chptr ← new_channel ch;
    _ ← add_channel chptr;
    enter_service service_p chptr
  | Some chptr =>
    ch ← rd channels chptr;
    if rb_dlinkFind service_p (ch_services ch) then mret tt
    else
      _ ← when (override && (tsinfo <? ch_tsinfo ch))
            (upd_channel chptr (fun ch => ch <| ch_tsinfo := tsinfo |>
                                             <| ch_mode ::= fun m => service_mode m mode |>));
      enter_service service_p chptr
  end.

Definition part_service (service_p : ptr) (chname : string) : M world bool :=
  r ← find_channel chname;
  match r with
  | None => mret false
  | Some chptr =>
    ch ← rd channels chptr;
    if negb (rb_dlinkFind service_p (ch_services ch)) then mret false
    else
      _ ← upd_channel chptr (fun ch => ch <| ch_services ::= rb_dlinkFindDestroy service_p |>);
      _ ← upd_service service_p (fun s => s <| sr_channels ::= rb_dlinkFindDestroy chptr |>);
      w ← get;
      src ← rd clients service_p;
      _ ← when (sent_burst w) (sendto_server (":" ++ SVC_UID w src ++ " PART " ++ ch_name ch));
      ch ← rd channels chptr;
      _ ← when (channel_empty ch) (free_channel chptr);
      mret true
  end.

Definition rejoin_service (service_p chptr : ptr) (reop : bool) : M world unit :=
  w ← get;
  src ← rd clients service_p;
  ch ← rd channels chptr;
  if reop && negb (cf_ratbox (config_file w) =? 0) then
    sendto_server (":" ++ MYUID w ++ " MODE " ++ ch_name ch ++ " +o " ++ SVC_UID w src)
  else
    _ ← when reop (sendto_server (":" ++ SVC_UID w src ++ " PART " ++ ch_name ch));
    send_sjoin service_p chptr.

(** ** Clearing modes *)
Fixpoint send_simple_modes (es : list chmode_entry) (chptr : ptr) (prevent_join : Z) : M world unit :=
  match es with
  | [] => mret tt
  | e :: es =>
    ch ← rd channels chptr;
    (* [prevent_join & !chmode_table[i].prevent_join] *)
    let skip := has_flag prevent_join (if ct_prevent_join e =? 0 then 1 else 0) in
    _ ← when (negb skip && has_flag (cm_mode (ch_mode ch)) (ct_mode e))
          (modebuild_add DIR_DEL (String (ct_modestr e) "") None);
    send_simple_modes es chptr prevent_join
  end.

Definition upd_mode (chptr : ptr) (f : chmode → chmode) : M world unit :=
  upd_channel chptr (fun ch => ch <| ch_mode ::= f |>).

Definition remove_our_simple_modes (chptr : ptr) (service_p : option ptr) (prevent_join : Z)
    : M world unit :=
  _ ← match service_p with
      | None => mret tt
      | Some service_p =>
        _ ← modebuild_start service_p chptr;
        _ ← send_simple_modes chmode_table chptr prevent_join;
        ch ← rd channels chptr;
        _ ← when (key_set (ch_mode ch))
              (_ ← modebuild_add DIR_DEL "k" (Some "*");
               upd_mode chptr (fun m => m <| cm_mode ::= fun x => clear_flag x MODE_KEY |>));
        _ ← when (negb (cm_limit (ch_mode ch) =? 0))
              (_ ← modebuild_add DIR_DEL "l" None;
               upd_mode chptr (fun m => m <| cm_mode ::= fun x => clear_flag x MODE_LIMIT |>));
        modebuild_finish
      end;
  upd_mode chptr (fun m => m <| cm_mode := 0 |> <| cm_key := ""%string |> <| cm_limit := 0 |>).

Definition users_of (chptr : ptr) (w : world) : list ptr :=
  match channels w !! chptr with Some ch => ch_users ch | None => [] end.

Definition remove_our_ov_modes (chptr : ptr) : M world unit :=
  _ ← rd channels chptr;
  _ ← foreach (users_of chptr) (fun msptr =>
        upd_member msptr (fun m => m <| mb_flags ::= fun f => clear_flag f (Z.lor MODE_OPPED MODE_VOICED) |>));
  upd_channel chptr (fun ch =>
    let '(opped, unopped) := rb_dlinkMoveList (ch_users_opped ch) (ch_users_unopped ch) in
    ch <| ch_users_opped := opped |> <| ch_users_unopped := unopped |>).

(** One of the three loops: every string is announced, freed and unlinked. *)
Fixpoint drop_bans (l : list string) (mode : string) (announce : bool) (unlink : M world unit) : M world unit :=
  match l with
  | [] => mret tt
  | b :: l => _ ← when announce (modebuild_add DIR_DEL mode (Some b));
              _ ← unlink;
              drop_bans l mode announce unlink
  end.

Definition remove_our_bans (chptr : ptr) (service_p : option ptr)
    (remove_bans remove_exceptions remove_invex : bool) : M world unit :=
  let announce := bool_decide (is_Some service_p) in
  _ ← match service_p with Some p => modebuild_start p chptr | None => mret tt end;
  ch ← rd channels chptr;
  _ ← when remove_bans (drop_bans (ch_bans ch) "b" announce
        (upd_channel chptr (fun ch => ch <| ch_bans ::= List.tl |>)));
  _ ← when remove_exceptions (drop_bans (ch_excepts ch) "e" announce
        (upd_channel chptr (fun ch => ch <| ch_excepts ::= List.tl |>)));
  _ ← when remove_invex (drop_bans (ch_invites ch) "I" announce
        (upd_channel chptr (fun ch => ch <| ch_invites ::= List.tl |>)));
  when announce modebuild_finish.
End channel.

(** ** Clearing the simple modes *)
Section clearing.
Context `{Sys}.

(** The modes that a call with [prevent_join] announces as removed. *)
Definition announced (prevent_join : bool) (m : chmode) : list change :=
  ((fun e => Change false (ct_modestr e) None) <$>
     filter (fun e => has_flag (cm_mode m) (ct_mode e) && (negb prevent_join || negb (ct_prevent_join e =? 0)) = true)
       chmode_table)
  ++ (if key_set m then [Change false "k" (Some "*"%string)] else [])
  ++ (if cm_limit m =? 0 then [] else [Change false "l" None]).

Definition code_of (b : bool) : Z := if b then 1 else 0.

Lemma run_changes_app cs ds w :
  run_changes (cs ++ ds) w = (_ ← run_changes cs; run_changes ds) w.
Proof.
  revert w. induction cs as [|c cs IH]; intros w; [done|].
  unfold run_changes at 1 2. simpl. unfold mbind, M_bind. destruct (modebuild_add _ _ _ w); [|done..].
  apply IH.
Qed.

Lemma send_simple_modes_run h w0 chptr ch pj es : ∀ groups cs,
  link_alive w0 → channels w0 !! chptr = Some ch → Forall (fun _ => fits h (Change false "n" None)) es →
  Forall (good_line h) groups → (cs ≠ [] → good_line h cs) →
  send_simple_modes es chptr (code_of pj) (waiting h w0 groups cs) =
  run_changes ((fun e => Change false (ct_modestr e) None) <$>
     filter (fun e => has_flag (cm_mode (ch_mode ch)) (ct_mode e) && (negb pj || negb (ct_prevent_join e =? 0)) = true) es)
    (waiting h w0 groups cs).
Proof.
  induction es as [|e es IH]; intros groups cs Hl Hch Hfit Hg Hcs; [done|].
  apply Forall_cons in Hfit as [Hfit Hfits].
  cbn [send_simple_modes]. erewrite bind_ok.
  2:{ unfold rd. erewrite bind_ok by done. change (channels (waiting h w0 groups cs)) with (channels w0).
      by rewrite Hch. }
  rewrite filter_cons.
  replace (negb (has_flag (code_of pj) (if ct_prevent_join e =? 0 then 1 else 0)) &&
    has_flag (cm_mode (ch_mode ch)) (ct_mode e)) with
    (has_flag (cm_mode (ch_mode ch)) (ct_mode e) && (negb pj || negb (ct_prevent_join e =? 0)))
    by (rewrite andb_comm; destruct pj, (ct_prevent_join e =? 0); done).
  destruct (_ && _) eqn:E; cbn [when].
  - rewrite decide_True by done. rewrite fmap_cons. unfold run_changes. cbn [foldr].
    destruct (modebuild_add_ok h w0 groups cs (Change false (ct_modestr e) None)) as (g & c & Ea & Hg' & _ & Hc);
      [done..|].
    cbn [c_dir c_letter c_arg dir_code] in *.
    rewrite (bind_ok _ _ _ _ _ Ea), (bind_ok _ _ _ _ _ Ea). by apply IH.
  - rewrite decide_False by done. erewrite bind_ok by done. by apply IH.
Qed.

(** The mode as [remove_our_simple_modes] leaves it. *)
Definition mode_at (chptr : ptr) (m : chmode) (w : world) : world :=
  w <| channels ::= alter (fun ch => ch <| ch_mode := m |>) chptr |>.

Lemma upd_mode_run w chptr ch f :
  channels w !! chptr = Some ch →
  upd_mode chptr f w = Ok tt (w <| channels ::= alter (fun ch => ch <| ch_mode ::= f |>) chptr |>).
Proof.
  intros E. unfold upd_mode, upd_channel. eapply run_bind; [|done].
  unfold rd. erewrite bind_ok by done. by rewrite E.
Qed.

(** A change that is announced and made only if it is needed. *)
Lemma optional_change h w chptr ch (b : bool) c f groups cs :
  link_alive w → channels w !! chptr = Some ch → fits h c → Forall (good_line h) groups →
  (cs ≠ [] → good_line h cs) →
  ∃ w' ch' groups' cs',
    when b (_ ← modebuild_add (dir_code (c_dir c)) (String (c_letter c) "") (c_arg c); upd_mode chptr f)
      (waiting h w groups cs) = Ok tt (waiting h w' groups' cs') ∧
    concat groups' ++ cs' = concat groups ++ cs ++ (if b then [c] else []) ∧
    Forall (good_line h) groups' ∧ (cs' ≠ [] → good_line h cs') ∧
    link_alive w' ∧ channels w' !! chptr = Some ch' ∧ sent w' = sent w.
Proof.
  intros Hl Hch Hfit Hg Hcs. destruct b; cbn [when].
  - destruct (modebuild_add_ok h w groups cs c) as (g & c' & E & Hg' & Eq & Hc'); [done..|].
    exists (w <| channels ::= alter (fun ch => ch <| ch_mode ::= f |>) chptr |>).
    exists (ch <| ch_mode ::= f |>), g, c'. split_and!; try done.
    + rewrite (bind_ok _ _ _ _ _ E). by erewrite upd_mode_run by done.
    + simpl. rewrite lookup_alter, Hch. by rewrite decide_True by done.
  - exists w, ch, groups, cs. by rewrite app_nil_r.
Qed.

(** [remove_our_simple_modes()], sent by a service: the lines announce, in
    order and within the limits, the removal of the flags of the channel - all of
    them, or with [prevent_join] only those that keep users out -, of the key and of
    the limit. Afterwards the program takes the channel to have no mode at all, in
    both cases: with [prevent_join] the modes that were not announced, which the
    network therefore keeps, are forgotten. *)
Theorem remove_simple_modes_spec (w : world) (chptr service_p : ptr) (src : client) (ch : channel) (pj : bool)
  (Hsrc : clients w !! service_p = Some src) (Hch : channels w !! chptr = Some ch)
  (Hlink : link_alive w) (Hheader : (strlen (modebuild_header w src ch) ≤ 500)%nat) :
  ∃ w' groups,
    remove_our_simple_modes chptr (Some service_p) (code_of pj) w = Ok tt w' ∧
    concat groups = announced pj (ch_mode ch) ∧
    Forall (good_line (modebuild_header w src ch)) groups ∧
    sent w' = sent w ++ (mode_line (modebuild_header w src ch) <$> groups) ∧
    ∃ ch', channels w' !! chptr = Some ch' ∧ ch_mode ch' = zero_chmode.
Proof.
  set (h := modebuild_header w src ch) in *.
  assert (∀ c, (arg_len c ≤ 1)%nat → fits h c) as Hfit by (intros; unfold fits; lia).
  assert (strlen h < BUFSIZE)%nat as Hh by (unfold BUFSIZE; lia).
  set (todo := (fun e => Change false (ct_modestr e) None) <$> filter (fun e =>
    has_flag (cm_mode (ch_mode ch)) (ct_mode e) && (negb pj || negb (ct_prevent_join e =? 0)) = true) chmode_table).
  destruct (run_changes_ok h w todo [] []) as (g1 & c1 & E1 & Hg1 & Eq1 & Hc1 & _); [done|..|constructor|done|].
  { apply Forall_fmap, Forall_forall. intros e _. apply Hfit. unfold arg_len. simpl. lia. }
  destruct (optional_change h w chptr ch (key_set (ch_mode ch)) (Change false "k" (Some "*"%string))
    (fun m => m <| cm_mode ::= fun x => clear_flag x MODE_KEY |>) g1 c1)
    as (w2 & ch2 & g2 & c2 & E2 & Eq2 & Hg2 & Hc2 & Hl2 & Hch2 & Es2); [done..|apply Hfit; unfold arg_len; simpl; lia|done|done|].
  destruct (optional_change h w2 chptr ch2 (negb (cm_limit (ch_mode ch) =? 0)) (Change false "l" None)
    (fun m => m <| cm_mode ::= fun x => clear_flag x MODE_LIMIT |>) g2 c2)
    as (w3 & ch3 & g3 & c3 & E3 & Eq3 & Hg3 & Hc3 & Hl3 & Hch3 & Es3); [done..|apply Hfit; unfold arg_len; simpl; lia|done|done|].
  destruct (modebuild_finish_ok h w3 g3 c3) as (g4 & b & E4 & Hg4 & Eq4); [done..|].
  eexists _, g4. split_and!; [|..|eexists; split].
  - unfold remove_our_simple_modes. eapply run_bind.
    { eapply run_bind; [by apply modebuild_start_ok|]. fold h.
      eapply run_bind; [erewrite send_simple_modes_run; [exact E1|done|done| |constructor|done]|].
      { apply Forall_forall. intros e _. apply Hfit. unfold arg_len. simpl. lia. }
      eapply run_bind.
      { unfold rd. eapply run_bind; [done|]. change (channels (waiting h w g1 c1)) with (channels w). by rewrite Hch. }
      eapply run_bind; [exact E2|]. eapply run_bind; [exact E3|exact E4]. }
    by eapply upd_mode_run.
  - rewrite Eq4, Eq3, app_assoc, Eq2, <- !app_assoc, app_assoc, Eq1. simpl.
    unfold announced. fold todo. do 2 f_equal. by destruct (cm_limit (ch_mode ch) =? 0).
  - done.
  - simpl. by rewrite Es3, Es2.
  - simpl. rewrite lookup_alter, Hch3. by rewrite decide_True by done.
  - done.
Qed.
End clearing.

Lemma remove_simple_modes_spec_witness :
  let w := @field_upd world _ server_p _ (fun _ => Some (Lconn (Some 2%positive) "hub" (Some "1AA"%string) 0x4000 0 0 ""%string))
             (quiet_world <| clients := {[ 1%positive := zero_client <| cl_uid := "0SVAAAAAA"%string |> ]} |>
                          <| channels := {[ 1%positive := zero_channel <| ch_name := "#a"%string |>
                                              <| ch_mode := Chmode 0x00a4 "sesame" 0 |> ]} |>) in
  ∃ w' groups ch',
    @remove_our_simple_modes quiet_sys 1 (Some 1%positive) 1 w = Ok tt w' ∧
    concat groups = [Change false "k" (Some "*"%string)] ∧
    sent w' = sent w ++ (mode_line ":0SVAAAAAA TMODE 0 #a " <$> groups) ∧
    channels w' !! 1%positive = Some ch' ∧ ch_mode ch' = zero_chmode.
Proof.
  cbv zeta. set (w := field_upd server_p _ _).
  destruct (@remove_simple_modes_spec quiet_sys w 1 1 (zero_client <| cl_uid := "0SVAAAAAA"%string |>)
    (zero_channel <| ch_name := "#a"%string |> <| ch_mode := Chmode 0x00a4 "sesame" 0 |>) true)
    as (w' & groups & E & Eq & _ & Es & ch' & Ech & Em).
  - reflexivity.
  - reflexivity.
  - split; [eexists; split; reflexivity|reflexivity].
  - apply Nat.leb_le. vm_compute. reflexivity.
  - exists w', groups, ch'. split; [exact E|]. split; [exact Eq|]. split; [exact Es|]. split; [exact Ech|exact Em].
Defined.

(** ** The hash of a channel's name *)
Lemma hash_channel_loop_lower s t : ∀ i h,
  no_nul s = true → no_nul t = true → lower_chars s = lower_chars t →
  hash_channel_loop i h s = hash_channel_loop i h t.
Proof.
  revert t. induction s as [|c s IH]; intros [|d t] [|i] h Hs Ht E; try done.
  simpl in *. bool_simpl. injection E as Ec Et.
  rewrite (hash_step_lower _ _ _ Ec).
  repeat match goal with H : Ascii.eqb _ NUL = false |- _ => rewrite H; clear H end.
  by apply IH.
Qed.

Lemma hash_channel_irccmp s t :
  no_nul s = true → no_nul t = true → irccmp s t = 0 → hash_channel s = hash_channel t.
Proof.
  intros Hs Ht E. unfold hash_channel. f_equal. apply hash_channel_loop_lower; [done..|].
  by apply irccmp_lower.
Qed.

(** Names that [irccmp()] takes for the same hash to the same bucket, although it
    compares upper-case images and the hashes use lower-case ones; and a hash always is
    an index of its table. *)
Theorem hash_irccmp (s t : string)
  (Hs : no_nul s = true) (Ht : no_nul t = true) (E : irccmp s t = 0) :
  hash_name s = hash_name t ∧ hash_host s = hash_host t ∧ hash_channel s = hash_channel t ∧
  0 ≤ hash_name s < MAX_NAME_HASH ∧ 0 ≤ hash_host s < MAX_HOST_HASH ∧
  0 ≤ hash_channel s < MAX_CHANNEL_TABLE.
Proof.
  split_and!; [by apply hash_name_irccmp| |by apply hash_channel_irccmp|..].
  - apply (hash_name_irccmp s t); done.
  - apply (land_pow2_range _ 16); lia.
  - apply (land_pow2_range _ 16); lia.
  - apply (land_pow2_range _ 16); lia.
  - apply (land_pow2_range _ 16); lia.
  - apply (land_pow2_range _ 14); lia.
  - apply (land_pow2_range _ 14); lia.
Qed.

Lemma hash_irccmp_witness :
  irccmp "#Caf{e" "#cAF[E" = 0 ∧ hash_channel "#Caf{e" = hash_channel "#cAF[E".
Proof.
  split; [vm_compute; reflexivity|].
  apply (hash_irccmp "#Caf{e" "#cAF[E"); vm_compute; reflexivity.
Defined.
