(* ===== verification/SimpleMode.v ===== *)
(** * Keys, bans and simple modes ([src/c_mode.c], first part)

    Validation of channel keys and ban masks, the lists of bans of a channel, and
    the parser of a channel's simple modes, which SJOIN and JOIN use as well as
    the services. *)

From S2P Require Import Prelude CString Match Rblib Tools Fault World Channel.

(** The loop of [valid_key()] over its buffer: 7-bit characters, no colon, no
    space and no control character; [None] is NULL. *)
Fixpoint fix_key (s : string) : option string :=
  match s with
  | EmptyString => Some EmptyString
  | String c s =>
    if Ascii.eqb c NUL then Some EmptyString
    else
      let d := Z.land (code c) 0x7f in
      if (d =? code ":") || (d <=? code " ") then None
      else String (char_of d) <$> fix_key s
  end.

(** The lists of bans: [None] when the ban is there already, is not there. *)
Fixpoint ban_present (banstr : string) (l : list string) : bool :=
  match l with
  | [] => false
  | b :: l => if irccmp b banstr =? 0 then true else ban_present banstr l
  end.

Fixpoint ban_removed (banstr : string) (l : list string) : option (string * list string) :=
  match l with
  | [] => None
  | b :: l =>
    if irccmp banstr b =? 0 then Some (b, l)
    else match ban_removed banstr l with
         | Some (r, l) => Some (r, b :: l)
         | None => None
         end
  end.

(** The flag of a mode without parameter that everybody may set. *)
Definition simple_bit (c : ascii) : option Z :=
  match c with
  | "i" => Some MODE_INVITEONLY
  | "m" => Some MODE_MODERATED
  | "n" => Some MODE_NOEXTERNAL
  | "p" => Some MODE_PRIVATE
  | "s" => Some MODE_SECRET
  | "t" => Some MODE_TOPIC
  | "r" => Some MODE_REGONLY
  | _ => None
  end%char.

Definition toggle (dir : bool) (bit : Z) (mode : chmode) : chmode :=
  mode <| cm_mode ::= fun m => if dir then set_flag m bit else clear_flag m bit |>.

Section simplemode.
Context `{Sys}.

Definition valid_key (data : string) : option string := fix_key (rb_strlcpy (KEYLEN + 1) data).

Fixpoint ban_chars (s : string) : bool :=
  match s with
  | EmptyString => true
  | String c s => if Ascii.eqb c NUL then true else if IsBanChar c then ban_chars s else false
  end.

Definition valid_ban (banstr : string) : bool :=
  if negb (ban_chars banstr) then false
  else match strchr banstr "!" with
       | None => false
       | Some (nick, user) =>
         match strchr user "@" with
         | None => false
         | Some (user, host) =>
           if is_empty (Some nick) || is_empty (Some user) || is_empty (Some host) then false
           else if (NICKLEN <? strlen nick)%nat || (USERLEN <? strlen user)%nat
                   || (HOSTLEN <? strlen host)%nat then false
           else true
         end
       end.

(** The new list and the string added, NULL if it was there. *)
Definition add_ban (banstr : string) (l : list string) : list string * option string :=
  if ban_present banstr l then (l, None) else (rb_dlinkAdd banstr l, Some banstr).

(** The new list and the string removed, NULL if there was none. *)
Definition del_ban (banstr : string) (l : list string) : list string * option string :=
  match ban_removed banstr l with
  | Some (b, l) => (l, Some b)
  | None => (l, None)
  end.

(** The loop over the mode letters: the next argument, 0 if the modes are
    invalid, and the mode as far as it was changed. *)
Fixpoint simple_loop (parv : list string) (allow_sslonly : bool) (p : string) (start : nat)
    (dir : bool) (mode : chmode) : M world (nat * chmode) :=
  match p with
  | EmptyString => mret (start, mode)
  | String c p =>
    let go := simple_loop parv allow_sslonly p in
    if Ascii.eqb c NUL then mret (start, mode)
    else if Ascii.eqb c "+" then go start true mode
    else if Ascii.eqb c "-" then go start false mode
    else match simple_bit c with
    | Some bit => go start dir (toggle dir bit mode)
    | None =>
      if Ascii.eqb c "S" then
        if allow_sslonly then go start dir (toggle dir MODE_SSLONLY mode) else mret (0%nat, mode)
      else if Ascii.eqb c "k" then
        a ← argv parv start;
        if is_empty a then mret (0%nat, mode)
        else if dir then
          key ← str a;
          match valid_key key with
          | None => mret (0%nat, mode)
          | Some fixed =>
            go (S start) dir (toggle true MODE_KEY mode <| cm_key := rb_strlcpy (KEYLEN + 1) fixed |>)
          end
        else go (S start) dir (toggle false MODE_KEY mode <| cm_key := ""%string |>)
      else if Ascii.eqb c "l" then
        if dir then
          a ← argv parv start;
          if is_empty a then mret (0%nat, mode)
          else
            limit ← str a;
            go (S start) dir (toggle true MODE_LIMIT mode <| cm_limit := atoi limit |>)
        else go start dir (toggle false MODE_LIMIT mode <| cm_limit := 0 |>)
      else mret (0%nat, mode)
    end
  end.

Definition parse_simple_mode (mode : chmode) (parv : list string) (start : nat)
    (allow_sslonly : bool) : M world (nat * chmode) :=
  p ← argv parv start;
  if (length parv <=? start)%nat then mret (0%nat, mode)
  else
    p ← str p;
    simple_loop parv allow_sslonly p (S start) true mode.
End simplemode.

(** ** Ban masks *)
Lemma ban_chars_spec s :
  no_nul s = true → ban_chars s = true ↔ Forall (fun c => IsBanChar c = true) (chars s).
Proof.
  induction s as [|c s IH]; simpl; [by split|]. intros Hs. bool_simpl.
  match goal with H : Ascii.eqb c NUL = false |- _ => rewrite H end.
  rewrite Forall_cons. destruct (IsBanChar c); [|by split; [|intros [? _]]].
  rewrite IH by done. tauto.
Qed.

Section bans.
Context `{Sys}.

(** The shape of a ban mask. *)
Definition ban_shape (nick user host : string) : Prop :=
  "!"%char ∉ chars nick ∧ "@"%char ∉ chars user ∧
  (0 < strlen nick ≤ NICKLEN)%nat ∧ (0 < strlen user ≤ USERLEN)%nat ∧ (0 < strlen host ≤ HOSTLEN)%nat.

Lemma is_empty_strlen s : no_nul s = true → is_empty (Some s) = (strlen s =? 0)%nat.
Proof.
  intros Hs. apply eq_true_iff_eq. rewrite is_empty_Some, Nat.eqb_eq by done.
  destruct s; simpl; split; intros; try done; lia.
Qed.

(** The test of the lengths, in one place. *)
Lemma ban_lengths nick user host :
  no_nul nick = true → no_nul user = true → no_nul host = true →
  (if is_empty (Some nick) || is_empty (Some user) || is_empty (Some host) then false
   else if (NICKLEN <? strlen nick)%nat || (USERLEN <? strlen user)%nat || (HOSTLEN <? strlen host)%nat
   then false else true) = true ↔
  (0 < strlen nick ≤ NICKLEN)%nat ∧ (0 < strlen user ≤ USERLEN)%nat ∧ (0 < strlen host ≤ HOSTLEN)%nat.
Proof.
  intros Hn Hu Hh. rewrite !is_empty_strlen by done.
  destruct (Nat.eqb_spec (strlen nick) 0), (Nat.eqb_spec (strlen user) 0),
    (Nat.eqb_spec (strlen host) 0); simpl; try (split; [done|lia]).
  destruct (Nat.ltb_spec NICKLEN (strlen nick)), (Nat.ltb_spec USERLEN (strlen user)),
    (Nat.ltb_spec HOSTLEN (strlen host)); simpl; split; try done; lia.
Qed.

(** C31.  [valid_ban()] accepts exactly the masks [nick!user@host] of ban characters
    whose three parts are nonempty and within the lengths of the network: the
    first exclamation mark ends the nick, the first at sign after it the user. *)
Theorem valid_ban_correct (banstr : string) (Hnul : no_nul banstr = true) :
  valid_ban banstr = true ↔
  Forall (fun c => IsBanChar c = true) (chars banstr) ∧
  ∃ nick user host, banstr = (nick ++ "!" ++ user ++ "@" ++ host)%string ∧ ban_shape nick user host.
Proof.
  unfold valid_ban, ban_shape. rewrite <- ban_chars_spec by done.
  destruct (ban_chars banstr); simpl; [|by split; [|intros [? _]]].
  split.
  - destruct (strchr banstr "!") as [[nick r]|] eqn:E1; [|done].
    apply strchr_inv in E1 as [-> Hn].
    destruct (strchr r "@") as [[user host]|] eqn:E2; [|done].
    apply strchr_inv in E2 as [-> Hu].
    repeat (rewrite no_nul_app in Hnul || cbn [no_nul] in Hnul). bool_simpl.
    intros Hlen. apply ban_lengths in Hlen; [|done..]. split; [done|].
    by exists nick, user, host.
  - intros (_ & nick & user & host & -> & Hn & Hu & Hlen).
    repeat (rewrite no_nul_app in Hnul || cbn [no_nul] in Hnul). bool_simpl.
    rewrite !str_app_cons, !str_app_nil_l.
    rewrite strchr_app, strchr_app by done. by apply ban_lengths.
Qed.

(** ** Keys *)

(** A character that may stand in a key. *)
Definition key_char (c : ascii) : bool :=
  (code c <? 128) && negb (Ascii.eqb c ":") && (code " " <? code c).

Lemma key_char_land c :
  Z.land (code c) 0x7f =? code ":" = false → Z.land (code c) 0x7f <=? code " " = false →
  key_char (char_of (Z.land (code c) 0x7f)) = true.
Proof.
  revert c. assert (∀ c, (if (Z.land (code c) 0x7f =? code ":") || (Z.land (code c) 0x7f <=? code " ")
    then true else key_char (char_of (Z.land (code c) 0x7f))) = true) as Hall
    by (apply forall_chars; vm_compute; reflexivity).
  intros c E1 E2. specialize (Hall c). by rewrite E1, E2 in Hall.
Qed.

Lemma key_char_fixed c :
  key_char c = true → c ≠ NUL ∧ Z.land (code c) 0x7f = code c ∧
    code c =? code ":" = false ∧ code c <=? code " " = false.
Proof.
  revert c. assert (∀ c, (if key_char c then negb (Ascii.eqb c NUL) && (Z.land (code c) 0x7f =? code c)
    && negb (code c =? code ":") && negb (code c <=? code " ") else true) = true) as Hall
    by (apply forall_chars; vm_compute; reflexivity).
  intros c E. specialize (Hall c). rewrite E in Hall. bool_simpl.
  split_and!; [by apply Ascii.eqb_neq|done|by apply Z.eqb_neq|by apply Z.leb_gt].
Qed.

Lemma fix_key_chars s k : fix_key s = Some k → Forall (fun c => key_char c = true) (chars k) ∧
  (strlen k ≤ strlen s)%nat.
Proof.
  revert k. induction s as [|c s IH]; simpl; intros k.
  { intros [= <-]. split; [constructor|done]. }
  destruct (Ascii.eqb c NUL); [intros [= <-]; split; [constructor|simpl; lia]|].
  destruct (_ =? _) eqn:E1; simpl; [done|]. destruct (_ <=? _) eqn:E2; [done|].
  destruct (fix_key s) as [k'|]; simpl; [|done]. intros [= <-].
  destruct (IH k' eq_refl) as [Hk Hl]. split; [|simpl; unfold strlen in *; simpl; lia].
  constructor; [by apply key_char_land|done].
Qed.

Lemma fix_key_fixed s : Forall (fun c => key_char c = true) (chars s) → fix_key s = Some s.
Proof.
  induction s as [|c s IH]; [done|]. rewrite chars_cons, Forall_cons. intros [Hc Hs].
  destruct (key_char_fixed c Hc) as (Hnul & E & E1 & E2).
  cbn [fix_key]. rewrite (proj2 (Ascii.eqb_neq c NUL) Hnul), E, E1, E2, IH by done. simpl.
  by rewrite char_of_code.
Qed.

(** What [valid_key()] returns is a key that fits its buffer and holds only
    7-bit characters above the space and no colon; and a text that is such a key
    already is returned as it is, so that a second call changes nothing. *)
Theorem valid_key_correct (Hrb : RbSpec) (data : string) :
  (∀ k, valid_key data = Some k →
     Forall (fun c => key_char c = true) (chars k) ∧ (strlen k ≤ KEYLEN)%nat ∧ valid_key k = Some k) ∧
  (Forall (fun c => key_char c = true) (chars data) → (strlen data ≤ KEYLEN)%nat →
     valid_key data = Some data).
Proof.
  assert (∀ s, Forall (fun c => key_char c = true) (chars s) → (strlen s ≤ KEYLEN)%nat →
    valid_key s = Some s) as Hfix.
  { intros s Hs Hl. unfold valid_key. rewrite rb_strlcpy_fits by (unfold strlen in *; lia).
    by apply fix_key_fixed. }
  split; [|by apply Hfix]. intros k E. unfold valid_key in E. apply fix_key_chars in E as [Hk Hl].
  pose proof (rb_strlcpy_length (KEYLEN + 1) data ltac:(lia)).
  assert (strlen k ≤ KEYLEN)%nat by (unfold strlen in *; lia).
  split_and!; [done..|]. by apply Hfix.
Qed.
End bans.

(** ** The parser of simple modes *)
Section parser.
Context `{Sys} `{!RbSpec}.

(** A result of the parser that a caller may rely on. *)
Definition parse_post (parv : list string) (start : nat) (r : nat * chmode) : Prop :=
  (r.1 = 0%nat ∨ (start ≤ r.1 ≤ length parv)%nat) ∧ (strlen (cm_key r.2) ≤ KEYLEN)%nat.

Lemma argv_ok parv start w :
  (start ≤ length parv)%nat → argv parv start w = Ok (parv !! start) w.
Proof.
  intros Hs. unfold argv. destruct (Nat.ltb_spec start (length parv)); [done|].
  rewrite (proj2 (Nat.eqb_eq _ _)) by lia. by rewrite lookup_ge_None_2 by lia.
Qed.

(** The argument of a mode: absent, or within the array. *)
Lemma argv_case parv start w :
  (start ≤ length parv)%nat →
  ∃ a, argv parv start w = Ok a w ∧ (is_empty a = false → ∃ s, a = Some s ∧ (S start ≤ length parv)%nat).
Proof.
  intros Hs. exists (parv !! start). split; [by apply argv_ok|].
  destruct (parv !! start) as [s|] eqn:E; [|done]. intros _. exists s.
  split; [done|]. by apply lookup_lt_Some in E.
Qed.

Lemma fixed_key_length k : (strlen (rb_strlcpy (KEYLEN + 1) k) ≤ KEYLEN)%nat.
Proof. pose proof (rb_strlcpy_length (KEYLEN + 1) k ltac:(lia)). unfold strlen. lia. Qed.

Lemma simple_loop_post parv allow w p : ∀ start dir mode,
  (start ≤ length parv)%nat → (strlen (cm_key mode) ≤ KEYLEN)%nat →
  ∃ r, simple_loop parv allow p start dir mode w = Ok r w ∧ parse_post parv start r.
Proof.
  assert (∀ m : chmode, (strlen (cm_key m) ≤ KEYLEN)%nat → parse_post parv 0 (0%nat, m)) as Hbad
    by (intros; split; [by left|done]).
  assert (∀ start m, parse_post parv 0 (0%nat, m) → parse_post parv start (0%nat, m)) as Hbad'
    by (intros ? ? [_ ?]; split; [by left|done]).
  assert (∀ start start' r, (start ≤ start')%nat → parse_post parv start' r → parse_post parv start r) as Hmono
    by (intros ? ? ? ? [[?|?] ?]; split; [by left|done|right; lia|done]).
  induction p as [|c p IH]; intros start dir mode Hs Hk; cbn [simple_loop].
  { exists (start, mode). split; [done|]. split; [right; simpl; lia|done]. }
  destruct (Ascii.eqb c NUL); [exists (start, mode); split; [done|split; [right; simpl; lia|done]]|].
  destruct (Ascii.eqb c "+"); [by apply IH|]. destruct (Ascii.eqb c "-"); [by apply IH|].
  destruct (simple_bit c); [by apply IH|].
  destruct (Ascii.eqb c "S").
  { destruct allow; [by apply IH|]. exists (0%nat, mode). split; [done|]. by apply Hbad', Hbad. }
  destruct (argv_case parv start w Hs) as (a & Ea & Ha).
  destruct (Ascii.eqb c "k").
  { rewrite (bind_ok _ _ _ _ _ Ea). destruct (is_empty a).
    { exists (0%nat, mode). split; [done|]. by apply Hbad', Hbad. }
    destruct (Ha eq_refl) as (s & -> & Hs'). destruct dir.
    - erewrite bind_ok by done. destruct (valid_key s) as [k|].
      + destruct (IH (S start) true (toggle true MODE_KEY mode <| cm_key := rb_strlcpy (KEYLEN + 1) k |>))
          as (r & E & Hr); [done|apply fixed_key_length|]. exists r. split; [done|].
        eapply Hmono; [|done]. lia.
      + exists (0%nat, mode). split; [done|]. by apply Hbad', Hbad.
    - destruct (IH (S start) false (toggle false MODE_KEY mode <| cm_key := ""%string |>))
        as (r & E & Hr); [done|simpl; lia|]. exists r. split; [done|]. eapply Hmono; [|done]. lia. }
  destruct (Ascii.eqb c "l").
  { destruct dir; [|by apply IH]. rewrite (bind_ok _ _ _ _ _ Ea). destruct (is_empty a).
    { exists (0%nat, mode). split; [done|]. by apply Hbad', Hbad. }
    destruct (Ha eq_refl) as (s & -> & Hs'). erewrite bind_ok by done.
    destruct (IH (S start) true (toggle true MODE_LIMIT mode <| cm_limit := atoi s |>))
      as (r & E & Hr); [done..|]. exists r. split; [done|]. eapply Hmono; [|done]. lia. }
  exists (0%nat, mode). split; [done|]. by apply Hbad', Hbad.
Qed.

Lemma parse_simple_mode_post mode parv start allow w :
  (start ≤ length parv)%nat → (strlen (cm_key mode) ≤ KEYLEN)%nat →
  ∃ r, parse_simple_mode mode parv start allow w = Ok r w ∧ parse_post parv (S start) r.
Proof.
  intros Hs Hk. unfold parse_simple_mode. rewrite (bind_ok _ _ _ _ _ (argv_ok parv start w Hs)).
  destruct (Nat.leb_spec (length parv) start).
  { exists (0%nat, mode). split; [done|]. split; [by left|done]. }
  destruct (lookup_lt_is_Some_2 parv start) as [p E]; [lia|]. rewrite E.
  erewrite bind_ok by done. by apply simple_loop_post.
Qed.

(** C29.  [parse_simple_mode()] is safe on whatever a remote server sends: started
    inside the argument array, or at its end, it reads nothing behind the NULL that
    ends the array, returns without changing any other state, and the index that it
    returns is 0 or lies behind the mode letters and inside the array; the key it
    leaves fits its field. *)
Theorem parse_simple_mode_safe (mode : chmode) (parv : list string) (start : nat) (allow : bool) (w : world)
  (Hstart : (start ≤ length parv)%nat) (Hkey : (strlen (cm_key mode) ≤ KEYLEN)%nat) :
  ∃ args mode',
    parse_simple_mode mode parv start allow w = Ok (args, mode') w ∧
    (args = 0%nat ∨ (start < args ≤ length parv)%nat) ∧ (strlen (cm_key mode') ≤ KEYLEN)%nat.
Proof.
  destruct (parse_simple_mode_post mode parv start allow w Hstart Hkey) as ([args mode'] & E & Hr & Hk).
  exists args, mode'. split; [done|]. simpl in *. split; [|done]. destruct Hr; [by left|right; lia].
Qed.
End parser.

Lemma parse_simple_mode_safe_witness :
  (2 ≤ length ["1"; "#a"; "+ntl"; "5"; "@x"])%nat ∧
  ∃ args mode',
    @parse_simple_mode quiet_sys zero_chmode ["1"; "#a"; "+ntl"; "5"; "@x"]%string 2 true quiet_world
      = Ok (args, mode') quiet_world ∧
    (args = 0%nat ∨ (2 < args ≤ 5)%nat) ∧ (strlen (cm_key mode') ≤ KEYLEN)%nat.
Proof.
  split; [simpl; lia|].
  apply (@parse_simple_mode_safe quiet_sys rb_reference_spec zero_chmode
    ["1"; "#a"; "+ntl"; "5"; "@x"]%string 2 true quiet_world); simpl; lia.
Defined.

(** ** Printing and parsing a channel's modes *)

(** The flags of the table, which are the modes without parameter. *)
Definition TABLE_MODES : Z := foldr (fun e m => Z.lor (ct_mode e) m) 0 chmode_table.

(** A mode that can be written down: known flags, a limit that is an [int], and a key,
    if any, that [valid_key()] lets pass.  The flags [MODE_LIMIT] and [MODE_KEY] need
    not agree with the limit and the key: the program lets them differ, after [+l 0]
    and after an SJOIN without a key at the channel's timestamp. *)
Record chmode_ok (m : chmode) : Prop := ChmodeOk {
  mode_known : 0 ≤ cm_mode m < 1024;
  mode_limit_range : - 2 ^ 31 ≤ cm_limit m < 2 ^ 31;
  mode_key_chars : Forall (fun c => key_char c = true) (chars (cm_key m));
  mode_key_length : (strlen (cm_key m) ≤ KEYLEN)%nat
}.

(** The flags [x] with those of the limit and the key as [l] and [k] say. *)
Definition with_flags (l k : bool) (x : Z) : Z :=
  let x := clear_flag (clear_flag x MODE_LIMIT) MODE_KEY in
  let x := if l then set_flag x MODE_LIMIT else x in
  if k then set_flag x MODE_KEY else x.

(** What a reader of the text takes the mode for. *)
Definition shown (m : chmode) : chmode :=
  m <| cm_mode ::= with_flags (negb (cm_limit m =? 0)) (key_set m) |>.

(** The flags say whether there is a limit and a key. *)
Definition flags_agree (m : chmode) : Prop :=
  has_flag (cm_mode m) MODE_LIMIT = negb (cm_limit m =? 0) ∧ has_flag (cm_mode m) MODE_KEY = key_set m.

Definition limit_args (m : chmode) : list string :=
  if cm_limit m =? 0 then [] else [print_z (cm_limit m)].
Definition key_args (m : chmode) : list string := if key_set m then [cm_key m] else [].

(** The first word of a mode: the letters. *)
Definition letters (m : chmode) : string :=
  "+" ++ simple_letters m ++ (if cm_limit m =? 0 then "" else "l") ++ (if key_set m then "k" else "").

Lemma key_char_no_space c : key_char c = true → c ≠ " "%char.
Proof. intros Hc ->. done. Qed.

Lemma no_space_letters m : " "%char ∉ chars (letters m).
Proof.
  unfold letters. rewrite !chars_app, !not_elem_of_app. split_and!; try (case_match; set_solver).
  - simpl. set_solver.
  - unfold simple_letters. rewrite chars_of_chars, list_elem_of_fmap.
    intros (e & He & Hin). apply list_elem_of_filter in Hin as [_ Hin].
    unfold chmode_table in Hin. repeat (apply elem_of_cons in Hin as [->|Hin]; [done|]).
    by apply not_elem_of_nil in Hin.
Qed.

Lemma chmode_to_string_words m :
  chmode_ok m →
  split_on " " (chmode_to_string m) = letters m :: limit_args m ++ key_args m.
Proof.
  intros Hm. pose proof (no_space_letters m) as Hl.
  assert (" "%char ∉ chars (cm_key m)) as Hk.
  { intros Hin. pose proof (mode_key_chars m Hm) as Hc. rewrite Forall_forall in Hc.
    by apply Hc in Hin. }
  assert (" "%char ∉ chars (print_z (cm_limit m))) as Hp
    by (by apply print_z_plain).
  unfold chmode_to_string, letters, limit_args, key_args in *.
  destruct (cm_limit m =? 0); simpl negb; cbn [andb];
    destruct (key_set m); rewrite ?str_app_nil_l, ?str_app_nil_r in *.
  - change ("k " ++ cm_key m)%string with ("k" ++ String " " (cm_key m))%string.
    rewrite <- !(str_app_assoc _ _ (String " " _)). rewrite split_on_app, split_on_none by done. done.
  - by rewrite split_on_none.
  - change ("lk " ++ print_z (cm_limit m) ++ " " ++ cm_key m)%string
      with ("lk" ++ String " " (print_z (cm_limit m) ++ String " " (cm_key m)))%string.
    rewrite <- !(str_app_assoc _ _ (String " " (_ ++ String " " _))).
    by rewrite split_on_app, split_on_app, split_on_none by done.
  - change ("l " ++ print_z (cm_limit m))%string with ("l" ++ String " " (print_z (cm_limit m)))%string.
    rewrite <- !(str_app_assoc _ _ (String " " _)). by rewrite split_on_app, split_on_none by done.
Qed.

Definition table_flags (x : Z) (es : list chmode_entry) : Z :=
  foldl (fun x e => set_flag x (ct_mode e)) x es.

(** The flags rebuilt from the letters, with the limit's and the key's. *)
Definition rebuilt (l k : bool) (x : Z) : Z :=
  let t := table_flags 0 (filter (fun e => has_flag x (ct_mode e) = true) chmode_table) in
  let t := if l then set_flag t MODE_LIMIT else t in
  if k then set_flag t MODE_KEY else t.

(** A fact about all words of known flags. *)
Lemma known_flags (P : Z → bool) x : forallb P (seqZ 0 1024) = true → 0 ≤ x < 1024 → P x = true.
Proof. intros Hall Hx. apply (proj1 (forallb_forall _ _) Hall x). apply list_elem_of_In, elem_of_seqZ. lia. Qed.

Lemma rebuilt_same l k x : 0 ≤ x < 1024 → rebuilt l k x = with_flags l k x.
Proof.
  intros Hx. set (same x := rebuilt l k x =? with_flags l k x). apply Z.eqb_eq. change (same x = true).
  apply known_flags; [|done]. subst same. destruct l, k; vm_compute; reflexivity.
Qed.

Lemma with_flags_same l k x :
  0 ≤ x < 1024 → with_flags l k x = x ↔ has_flag x MODE_LIMIT = l ∧ has_flag x MODE_KEY = k.
Proof.
  intros Hx. set (same x := Bool.eqb (with_flags l k x =? x) (Bool.eqb (has_flag x MODE_LIMIT) l && Bool.eqb (has_flag x MODE_KEY) k)).
  assert (same x = true) as E.
  { apply known_flags; [|done]. subst same. destruct l, k; vm_compute; reflexivity. }
  subst same. cbv beta in E. apply eqb_prop in E. by rewrite <- Z.eqb_eq, E, andb_true_iff, !eqb_true_iff.
Qed.

Section roundtrip.
Context `{Sys} `{!RbSpec}.

Lemma simple_loop_letters parv es rest start m w :
  es ⊆ chmode_table →
  simple_loop parv true (of_chars (ct_modestr <$> es) ++ rest) start true m w =
  simple_loop parv true rest start true (m <| cm_mode := table_flags (cm_mode m) es |>) w.
Proof.
  revert m. induction es as [|e es IH]; intros m Hes; [by destruct m|].
  assert (e ∈ chmode_table) as He by set_solver. specialize (IH (toggle true (ct_mode e) m)).
  unfold chmode_table in He.
  repeat (apply elem_of_cons in He as [->|He]; [apply IH; set_solver|]). by apply not_elem_of_nil in He.
Qed.

(** The branch of the parser for a letter that is known. *)
Ltac mode_letter := cbn [simple_loop simple_bit]; cbn [Ascii.eqb Bool.eqb]; unfold NUL; cbv beta iota.

Lemma argv_middle pre a q w : argv (pre ++ a :: q) (length pre) w = Ok (Some a) w.
Proof.
  rewrite argv_ok by (rewrite length_app; simpl; lia). by rewrite list_lookup_middle.
Qed.

Lemma simple_loop_limit pre q p m0 l w :
  - 2 ^ 31 ≤ l < 2 ^ 31 →
  simple_loop (pre ++ print_z l :: q) true (String "l" p) (length pre) true m0 w =
  simple_loop (pre ++ print_z l :: q) true p (S (length pre)) true
    (toggle true MODE_LIMIT m0 <| cm_limit := l |>) w.
Proof.
  intros Hl. mode_letter.
  rewrite (bind_ok _ _ _ _ _ (argv_middle _ _ _ _)).
  assert (is_empty (Some (print_z l)) = false) as ->.
  { unfold is_empty. destruct (Ascii.eqb_spec (deref (print_z l)) NUL) as [E|E]; [|done]. by destruct (print_z_head l). }
  erewrite bind_ok by done. unfold atoi. rewrite atol_print by lia. by rewrite int32_small by lia.
Qed.

Lemma simple_loop_key pre q p m0 k w :
  Forall (fun c => key_char c = true) (chars k) → (strlen k ≤ KEYLEN)%nat → is_empty (Some k) = false →
  simple_loop (pre ++ k :: q) true (String "k" p) (length pre) true m0 w =
  simple_loop (pre ++ k :: q) true p (S (length pre)) true
    (toggle true MODE_KEY m0 <| cm_key := k |>) w.
Proof.
  intros Hc Hl He. mode_letter.
  rewrite (bind_ok _ _ _ _ _ (argv_middle _ _ _ _)), He. erewrite bind_ok by done.
  assert (rb_strlcpy (KEYLEN + 1) k = k) as Ek by (apply rb_strlcpy_fits; unfold strlen in *; lia).
  unfold valid_key. by rewrite Ek, fix_key_fixed, Ek.
Qed.

Lemma shown_same m : chmode_ok m → shown m = m ↔ flags_agree m.
Proof.
  intros Hm. unfold flags_agree. rewrite <- with_flags_same by apply Hm. unfold shown. destruct m as [x k l]. simpl.
  split; [by intros [= ->]|]. intros E. by f_equal.
Qed.

Lemma no_key m : chmode_ok m → key_set m = false → cm_key m = ""%string.
Proof.
  intros Hm E. unfold key_set in E. apply negb_false_iff in E. unfold is_empty in E.
  apply Ascii.eqb_eq in E. destruct (cm_key m) as [|c k] eqn:Ek; [done|].
  pose proof (mode_key_chars m Hm) as Hc. rewrite Ek, chars_cons, Forall_cons in Hc.
  destruct Hc as [Hc _]. simpl in E. by rewrite E in Hc.
Qed.

(** C24.  What the services announce, they read back: the text of a channel's modes
    ([chmode_to_string()], as it is sent in an SJOIN), cut at its spaces and put at
    any place in an argument array, is parsed by [parse_simple_mode()], which goes on
    behind it, to that mode with the flags of the limit and the key set as there is a
    limit and a key.  That is the mode itself exactly if its flags agreed with them
    before. *)
Theorem chmode_roundtrip (m : chmode) (pre post : list string) (w : world) (Hm : chmode_ok m) :
  let words := split_on " " (chmode_to_string m) in
  parse_simple_mode zero_chmode (pre ++ words ++ post) (length pre) true w =
  Ok ((length pre + length words)%nat, shown m) w ∧ (shown m = m ↔ flags_agree m).
Proof.
  cbv zeta. split; [|by apply shown_same]. rewrite chmode_to_string_words by done. unfold parse_simple_mode.
  change ((letters m :: limit_args m ++ key_args m) ++ post)
    with (letters m :: (limit_args m ++ key_args m) ++ post).
  rewrite (bind_ok _ _ _ _ _ (argv_middle _ _ _ _)).
  destruct (Nat.leb_spec (length (pre ++ letters m :: (limit_args m ++ key_args m) ++ post)) (length pre))
    as [Hle|_]; [rewrite length_app in Hle; simpl in Hle; lia|].
  erewrite bind_ok by done.
  assert (pre ++ letters m :: (limit_args m ++ key_args m) ++ post
    = (pre ++ [letters m]) ++ (limit_args m ++ key_args m) ++ post) as -> by (by rewrite <- (app_assoc pre)).
  replace (S (length pre)) with (length (pre ++ [letters m])) by (rewrite length_app; simpl; lia).
  set (pre' := pre ++ [letters m]).
  unfold letters at 1. rewrite str_app_cons, str_app_nil_l. mode_letter.
  unfold simple_letters. rewrite simple_loop_letters by (intros e [_ He]%list_elem_of_filter; done).
  pose proof (rebuilt_same (negb (cm_limit m =? 0)) (key_set m) (cm_mode m) (mode_known m Hm)) as Hr. unfold rebuilt in Hr.
  cbn [cm_mode zero_chmode]. unfold shown.
  set (t := table_flags 0 _) in *. unfold limit_args, key_args in *.
  destruct (Z.eqb_spec (cm_limit m) 0) as [El|El], (key_set m) eqn:Ek; simpl negb in Hr; cbv iota in Hr.
  1, 2: cbn [app]; rewrite str_app_nil_l.
  3, 4: cbn [app]; rewrite str_app_cons, str_app_nil_l, simple_loop_limit
          by (pose proof (mode_limit_range m Hm); lia).
  3: rewrite (cons_middle (print_z _) pre'), app_assoc.
  3: replace (S (length pre')) with (length (pre' ++ [print_z (cm_limit m)])) by (rewrite length_app; simpl; lia).
  1, 3: rewrite simple_loop_key by (apply Hm || by apply negb_true_iff in Ek).
  all: cbn [simple_loop]; unfold mret, M_ret; f_equal; f_equal;
    [subst pre'; rewrite ?length_app; simpl; lia|].
  all: try pose proof (no_key m Hm Ek) as E0.
  all: clearbody t; clear pre' Hm Ek; destruct m as [x k l]; unfold toggle; cbn -[with_flags set_flag] in *;
    rewrite <- Hr; by subst.
Qed.
End roundtrip.

Definition example_mode : chmode := Chmode 0x00e4 "sesame" 25.

Lemma example_mode_ok : chmode_ok example_mode.
Proof.
  split; try (vm_compute; split; discriminate || reflexivity).
  - apply Forall_forall. intros c Hc. unfold example_mode in Hc. simpl in Hc.
    repeat (apply elem_of_cons in Hc as [->|Hc]; [reflexivity|]). by apply not_elem_of_nil in Hc.
  - apply Nat.leb_le. vm_compute. reflexivity.
Qed.

(** The mode after an SJOIN without a key: the flag is still there. *)
Definition stale_mode : chmode := Chmode 0x00e4 "" 25.

Lemma stale_mode_ok : chmode_ok stale_mode.
Proof. split; try (vm_compute; split; discriminate || reflexivity); [constructor|vm_compute; lia]. Qed.

Lemma chmode_roundtrip_witness :
  split_on " " (chmode_to_string example_mode) = ["+ntlk"; "25"; "sesame"]%string ∧
  @parse_simple_mode quiet_sys zero_chmode ["0"; "#a"; "+ntlk"; "25"; "sesame"; "@x"]%string 2 true quiet_world
    = Ok (5%nat, example_mode) quiet_world ∧
  @parse_simple_mode quiet_sys zero_chmode ["0"; "#a"; "+ntl"; "25"; "@x"]%string 2 true quiet_world
    = Ok (4%nat, Chmode 0x0064 "" 25) quiet_world ∧ shown stale_mode ≠ stale_mode.
Proof.
  split; [vm_compute; reflexivity|]. split; [|split].
  - exact (proj1 (@chmode_roundtrip quiet_sys rb_reference_spec example_mode ["0"; "#a"]%string ["@x"]%string
      quiet_world example_mode_ok)).
  - exact (proj1 (@chmode_roundtrip quiet_sys rb_reference_spec stale_mode ["0"; "#a"]%string ["@x"]%string
      quiet_world stale_mode_ok)).
  - intros E. apply (proj2 (@chmode_roundtrip quiet_sys rb_reference_spec stale_mode ["0"; "#a"]%string ["@x"]%string
      quiet_world stale_mode_ok)) in E as [_ E]. vm_compute in E. discriminate.
Defined.

Lemma valid_ban_correct_witness :
  no_nul "*!bad@*.example" = true ∧ @valid_ban quiet_sys "*!bad@*.example" = true ∧
  ∃ nick user host, ("*!bad@*.example" = nick ++ "!" ++ user ++ "@" ++ host)%string ∧
    @ban_shape quiet_sys nick user host.
Proof.
  split; [reflexivity|]. split; [vm_compute; reflexivity|].
  apply (@valid_ban_correct quiet_sys "*!bad@*.example"); vm_compute; reflexivity.
Defined.

Lemma valid_key_correct_witness :
  @RbSpec rb_reference ∧ @valid_key quiet_sys "sesame" = Some "sesame"%string.
Proof.
  split; [exact rb_reference_spec|].
  apply (@valid_key_correct quiet_sys rb_reference_spec "sesame").
  - repeat constructor.
  - apply Nat.leb_le. vm_compute. reflexivity.
Defined.
