(* ===== verification/ChanCmd.v ===== *)
(** * Channel commands ([src/channel.c], second part)

    The handlers of KICK, PART, TOPIC, TB, SJOIN and JOIN.  A handler gets the
    client that a line came from and the arguments of the line; a client that
    leaves through an early [return] of the source is an early [mret tt]. *)

From S2P Require Import Prelude CString Match Rblib Tools Rserv Fault World Lookup ModeBuild Channel SimpleMode.

Section commands.
Context `{Sys}.

Definition c_kick (client_p : ptr) (parv : list string) : M world unit :=
  if (length parv <? 2)%nat then mret tt else
  a1 ← argv parv 1;
  if is_empty a1 then mret tt else
  name ← arg parv 0;
  nick ← str a1;
  r ← find_channel name;
  match r with
  | None => mret tt
  | Some chptr =>
    t ← find_service nick;
    match t with
    | Some target_p => rejoin_service target_p chptr false
    | None =>
      t ← find_user nick true;
      match t with
      | None => mret tt
      | Some target_p =>
        m ← find_chmember chptr target_p;
        match m with
        | None => mret tt
        | Some mptr => del_chmember mptr
        end
      end
    end
  end.

Definition c_part (client_p : ptr) (parv : list string) : M world unit :=
  if (length parv <? 1)%nat then mret tt else
  a0 ← argv parv 0;
  if is_empty a0 then mret tt else
  b ← IsUser client_p;
  if negb b then mret tt else
  name ← str a0;
  r ← find_channel name;
  match r with
  | None => mret tt
  | Some chptr =>
    m ← find_chmember chptr client_p;
    match m with
    | None => mret tt
    | Some mptr => del_chmember mptr
    end
  end.

Definition c_topic (client_p : ptr) (parv : list string) : M world unit :=
  if (length parv <? 2)%nat then mret tt else
  name ← arg parv 0;
  r ← find_channel name;
  match r with
  | None => mret tt
  | Some chptr =>
    a1 ← argv parv 1;
    _ ← (if is_empty a1 then
           upd_channel chptr (fun ch => ch <| ch_topic := ""%string |> <| ch_topicwho := ""%string |>
                                           <| ch_topic_tsinfo := 0 |>)
         else
           topic ← str a1;
           c ← rd clients client_p;
           let who := match cl_user c with
                      | Some u => nickuserhost (NICKUSERHOSTLEN + 1) (cl_name c) (us_username u) (us_host u)
                      | None => rb_strlcpy (NICKUSERHOSTLEN + 1) (cl_name c)
                      end in
           now ← gets rb_time;
           upd_channel chptr (fun ch => ch <| ch_topic := rb_strlcpy (TOPICLEN + 1) topic |>
                                           <| ch_topicwho := who |> <| ch_topic_tsinfo := now |>));
    hook HOOK_CHANNEL_TOPIC (HookPtr chptr)
  end.

(** [rb_strlcpy] of a topic and its author, and the time of both. *)
Definition set_topic (chptr : ptr) (topic who : string) : M world unit :=
  now ← gets rb_time;
  _ ← upd_channel chptr (fun ch => ch <| ch_topic := rb_strlcpy (TOPICLEN + 1) topic |>
                                      <| ch_topicwho := rb_strlcpy (NICKUSERHOSTLEN + 1) who |>
                                      <| ch_topic_tsinfo := now |>);
  hook HOOK_CHANNEL_TOPIC (HookPtr chptr).

Definition c_tb (client_p : ptr) (parv : list string) : M world unit :=
  if (length parv <? 3)%nat then mret tt else
  b ← IsServer client_p;
  if negb b then mret tt else
  name ← arg parv 0;
  r ← find_channel name;
  match r with
  | None => mret tt
  | Some chptr =>
    ts ← arg parv 1;
    let topicts := atol ts in
    ch ← rd channels chptr;
    if negb (is_empty (Some (ch_topic ch))) && (ch_topic_tsinfo ch <? topicts) then mret tt
    else if (length parv =? 4)%nat then
      a3 ← argv parv 3;
      if is_empty a3 then mret tt
      else topic ← str a3; who ← arg parv 2; set_topic chptr topic who
    else
      a2 ← argv parv 2;
      if is_empty a2 then mret tt
      else topic ← str a2; c ← rd clients client_p; set_topic chptr topic (cl_name c)
  end.

(** ** Joining *)

(** The channel of a join: its address, the timestamp of the join, and whether
    the old modes and the new modes are to be kept. *)
Definition join_channel (name ts : string) (both : bool) : M world (ptr * Z * bool * bool) :=
  r ← find_channel name;
  match r with
  | None =>
    let newts := atol ts in
    chptr ← new_channel (zero_channel <| ch_name := rb_strlcpy (CHANNELLEN + 1) name |>
                                      <| ch_tsinfo := newts |>);
    _ ← add_channel chptr;
    mret (chptr, newts, false, true)
  | Some chptr =>
    ch ← rd channels chptr;
    let newts := atol ts in
    if (newts =? 0) || (ch_tsinfo ch =? 0) then
      _ ← upd_channel chptr (fun ch => ch <| ch_tsinfo := 0 |>);
      mret (chptr, newts, true, true)
    else if newts <? ch_tsinfo ch then mret (chptr, newts, false, true)
    else if both && (ch_tsinfo ch <? newts) then mret (chptr, newts, true, false)
    else mret (chptr, newts, true, true)
  end.

Definition services_of (chptr : ptr) (w : world) : list ptr :=
  match channels w !! chptr with Some ch => ch_services ch | None => [] end.

(** What a join with a lower timestamp clears. *)
Definition lower_ts (chptr : ptr) (newts : Z) (drop : bool) : M world unit :=
  _ ← upd_channel chptr (fun ch => ch <| ch_tsinfo := newts |>);
  _ ← remove_our_simple_modes chptr None 0;
  _ ← remove_our_ov_modes chptr;
  _ ← when drop (remove_our_bans chptr None true true true);
  w ← get;
  when (sent_burst w)
    (foreach (services_of chptr) (fun service_p => rejoin_service service_p chptr true)).

Definition merge_mode (newmode old : chmode) : chmode :=
  let l := if (cm_limit old =? 0) || (cm_limit old <? cm_limit newmode) then cm_limit newmode
           else cm_limit old in
  let k := if negb (key_set old) || (0 <? strcmp (cm_key old) (cm_key newmode))
           then rb_strlcpy (KEYLEN + 1) (cm_key newmode) else cm_key old in
  Chmode (Z.lor (cm_mode old) (cm_mode newmode)) k l.

Fixpoint skip_blanks (s : string) : string :=
  match s with String c s' => if Ascii.eqb c " " then skip_blanks s' else s | EmptyString => s end.

(** The text up to the next space, and what follows it. *)
Definition next_word (s : string) : string * option string :=
  match strchr s " " with Some (w, rest) => (w, Some rest) | None => (s, None) end.

(** The status prefixes of a nick in an SJOIN. *)
Definition nick_flags (s : string) : Z * string :=
  if Ascii.eqb (deref s) "@" then
    if Ascii.eqb (deref (tail s)) "+" then (Z.lor MODE_OPPED MODE_VOICED, tail (tail s))
    else (MODE_OPPED, tail s)
  else if Ascii.eqb (deref s) "+" then
    if Ascii.eqb (deref (tail s)) "@" then (Z.lor MODE_VOICED MODE_OPPED, tail (tail s))
    else (MODE_VOICED, tail s)
  else (0, s).

Definition kept_flags (keep_new_modes : bool) (flags : Z) : Z :=
  if keep_new_modes then flags
  else if has_flag flags MODE_OPPED then MODE_DEOPPED else 0.

Fixpoint sjoin_loop (fuel : nat) (s : option string) (chptr : ptr) (keep_new_modes : bool)
    (joined : list ptr) : M world (list ptr) :=
  match fuel with
  | O => faulty OutOfFuel
  | S fuel =>
    if is_empty s then mret joined
    else
      s ← str s;
      let '(word, p) := next_word (skip_blanks s) in
      let '(flags, nick) := nick_flags word in
      let flags := kept_flags keep_new_modes flags in
      t ← find_user nick true;
      match t with
      | None => sjoin_loop fuel p chptr keep_new_modes joined
      | Some target_p =>
        b ← is_member chptr target_p;
        if (b : bool) then sjoin_loop fuel p chptr keep_new_modes joined
        else
          member_p ← add_chmember chptr target_p flags;
          sjoin_loop fuel p chptr keep_new_modes (rb_dlinkAdd member_p joined)
      end
  end.

(** After the modes of an SJOIN: the hook and the nick list. *)
Definition sjoin_members (chptr : ptr) (nicks : option string) (keep_old_modes keep_new_modes : bool)
    : M world unit :=
  _ ← when (negb keep_old_modes) (hook HOOK_CHANNEL_SJOIN_LOWERTS (HookPtr chptr));
  if is_empty nicks then mret tt
  else
    s ← str nicks;
    joined ← sjoin_loop (S (S (strlen s))) (Some s) chptr keep_new_modes [];
    ch ← rd channels chptr;
    if channel_empty ch then free_channel chptr
    else _ ← hook_call HOOK_CHANNEL_JOIN (HookPtr chptr) (Members joined); mret tt.

Definition c_sjoin (client_p : ptr) (parv : list string) : M world unit :=
  if (length parv <? 4)%nat then mret tt else
  a3 ← argv parv 3;
  if is_empty a3 then mret tt else
  name ← arg parv 1;
  if negb (valid_chname name) then mret tt else
  ts ← arg parv 0;
  '(chptr, newts, keep_old_modes, keep_new_modes) ← join_channel name ts true;
  modes ← arg parv 2;
  '(args, newmode) ← (if negb (strcmp modes "0" =? 0)
                      then parse_simple_mode zero_chmode parv 2 true
                      else mret (3%nat, zero_chmode));
  _ ← s_assert (negb (args =? 0)%nat);
  if (args =? 0)%nat then
    mlog ("PROTO: SJOIN issued with invalid mode: " ++ rebuild_params parv 2)
  else
    _ ← when (negb keep_old_modes)
          (c ← rd clients client_p; lower_ts chptr newts (negb (is_empty (Some (cl_uid c)))));
    _ ← when keep_new_modes (upd_mode chptr (merge_mode newmode));
    nicks ← argv parv args;
    sjoin_members chptr nicks keep_old_modes keep_new_modes.

Definition channels_of (client_p : ptr) (w : world) : list ptr :=
  match clients w !! client_p ≫= cl_user with Some u => us_channels u | None => [] end.

(** A user leaves every channel. *)
Definition part_all (client_p : ptr) : M world unit :=
  _ ← user_of client_p; foreach_safe (channels_of client_p) del_chmember.

Definition c_join (client_p : ptr) (parv : list string) : M world unit :=
  a0 ← argv parv 0;
  if is_empty a0 then mret tt else
  b ← IsUser client_p;
  if negb b then mret tt else
  ts ← str a0;
  if (length parv =? 1)%nat && Ascii.eqb (deref ts) "0" then part_all client_p
  else if (length parv <? 3)%nat then mlog "PROTO: JOIN issued with insufficient parameters"
  else
    name ← arg parv 1;
    if negb (valid_chname name) then mret tt else
    '(chptr, newts, keep_old_modes, _) ← join_channel name ts false;
    '(args, newmode) ← parse_simple_mode zero_chmode parv 2 true;
    _ ← s_assert (negb (args =? 0)%nat);
    if (args =? 0)%nat then
      mlog ("PROTO: JOIN issued with invalid modestring: " ++ rebuild_params parv 2)
    else
      _ ← when (negb keep_old_modes) (lower_ts chptr newts false);
      _ ← when (negb keep_old_modes) (hook HOOK_CHANNEL_SJOIN_LOWERTS (HookPtr chptr));
      b ← is_member chptr client_p;
      joined ← (if (b : bool) then mret []
                else m ← add_chmember chptr client_p 0; mret (rb_dlinkAdd m []));
      _ ← hook_call HOOK_CHANNEL_JOIN (HookPtr chptr) (Members joined);
      mret tt.
End commands.
