(* ===== verification/ChMode.v ===== *)
(** * Channel modes ([src/c_mode.c], second part)

    The parser that applies a mode line to a channel - for lines received, and for
    modes that services set, which it also announces -, and the handlers of MODE,
    TMODE and BMASK. *)

From S2P Require Import Prelude CString Match Rblib Tools Fault World Lookup ModeBuild Channel SimpleMode ChanCmd Umode.

Section chmode.
Context `{Sys}.

(** [if(source_p) modebuild_add(dir, mode, arg)]. *)
Definition announce (source_p : option ptr) (dir : bool) (mode : string) (arg : option string)
    : M world unit :=
  when (bool_decide (is_Some source_p)) (modebuild_add (dir_code dir) mode arg).

(** A flag mode: change it and announce it. *)
Definition full_flag (chptr : ptr) (source_p : option ptr) (dir : bool) (bit : Z) (c : ascii)
    : M world unit :=
  _ ← upd_mode chptr (toggle dir bit);
  announce source_p dir (String c "") None.

(** [case 'o'], [case 'v'] for an argument that names a service. *)
Definition full_service (target_p : ptr) (source_p : option ptr) (dir : bool) (c : ascii) : M world unit :=
  if bool_decide (is_Some source_p) || negb (Ascii.eqb c "o") then mret tt
  else if dir then modify (fun w => w <| deopped_list ::= rb_dlinkFindDestroy target_p |>)
  else modify (fun w => w <| deopped_list ::= fun l =>
         if rb_dlinkFind target_p l then l else rb_dlinkAdd target_p l |>).

Definition set_member_flag (mptr : ptr) (f : Z → Z) : M world unit :=
  upd_member mptr (fun m => m <| mb_flags ::= f |>).

(** [case 'o'] for a member. *)
Definition full_op (mptr : ptr) (source_p : option ptr) (dir : bool) (nick : string) : M world unit :=
  if dir then
    _ ← set_member_flag mptr (fun f => clear_flag f MODE_DEOPPED);
    m ← rd members mptr;
    if is_opped m then mret tt
    else
      _ ← op_chmember mptr;
      _ ← modify (fun w => w <| opped_list ::= rb_dlinkAdd mptr |>);
      announce source_p dir "o" (Some nick)
  else
    m ← rd members mptr;
    _ ← when (is_opped m)
          (_ ← modify (fun w => w <| opped_list ::= rb_dlinkFindDestroy mptr |>);
           deop_chmember mptr);
    announce source_p dir "o" (Some nick).

(** [case 'v'] for a member. *)
Definition full_voice (mptr : ptr) (source_p : option ptr) (dir : bool) (nick : string) : M world unit :=
  m ← rd members mptr;
  if dir then
    if is_voiced m then mret tt
    else
      _ ← set_member_flag mptr (fun f => set_flag f MODE_VOICED);
      _ ← modify (fun w => w <| voiced_list ::= rb_dlinkAdd mptr |>);
      announce source_p dir "v" (Some nick)
  else
    _ ← when (is_voiced m)
          (_ ← modify (fun w => w <| voiced_list ::= rb_dlinkFindDestroy mptr |>);
           set_member_flag mptr (fun f => clear_flag f MODE_VOICED));
    announce source_p dir "v" (Some nick).

Definition full_status (chptr : ptr) (source_p : option ptr) (dir : bool) (c : ascii) (nick : string)
    : M world unit :=
  t ← find_service nick;
  match t with
  | Some target_p => full_service target_p source_p dir c
  | None =>
    t ← find_user nick true;
    match t with
    | None => mret tt
    | Some target_p =>
      m ← find_chmember chptr target_p;
      match m with
      | None => mret tt
      | Some mptr =>
        if Ascii.eqb c "o" then full_op mptr source_p dir nick else full_voice mptr source_p dir nick
      end
    end
  end.

(** [case 'b']: a new ban is noted in [ban_list], one removed is taken out of it. *)
Definition full_ban (chptr : ptr) (source_p : option ptr) (dir : bool) (mask : string) : M world unit :=
  ch ← rd channels chptr;
  _ ← (if dir then
         let '(l, added) := add_ban mask (ch_bans ch) in
         _ ← upd_channel chptr (fun ch => ch <| ch_bans := l |>);
         match added with
         | Some b => modify (fun w => w <| ban_list ::= rb_dlinkAdd b |>)
         | None => mret tt
         end
       else
         let '(l, removed) := del_ban mask (ch_bans ch) in
         _ ← upd_channel chptr (fun ch => ch <| ch_bans := l |>);
         match removed with
         | Some b => modify (fun w => w <| ban_list ::= rb_dlinkFindDestroy b |>)
         | None => mret tt
         end);
  announce source_p dir "b" (Some mask).

(** [case 'e'] and [case 'I']: [edit] changes the list of the mode. *)
Definition full_list (chptr : ptr) (source_p : option ptr) (dir : bool) (mode : string)
    (edit : (list string → list string) → channel → channel) (mask : string) : M world unit :=
  _ ← upd_channel chptr (edit (fun l => fst (if dir then add_ban mask l else del_ban mask l)));
  announce source_p dir mode (Some mask).

(** The limit of [+l]: [false] ends the parse. *)
Definition full_limit (chptr : ptr) (source_p : option ptr) (limit_s : string) : M world bool :=
  let '(value, endptr) := strtol limit_s in
  let limit := int32 value in
  if limit <=? 0 then mret false
  else if bool_decide (is_Some source_p) && negb (is_empty (Some endptr)) then mret false
  else
    _ ← announce source_p true "l" (Some limit_s);
    _ ← upd_mode chptr (fun m => toggle true MODE_LIMIT m <| cm_limit := limit |>);
    mret true.

Definition full_key (chptr : ptr) (source_p : option ptr) (dir : bool) (key : string) : M world unit :=
  if dir then
    let k := rb_strlcpy (KEYLEN + 1) key in
    _ ← upd_mode chptr (fun m => toggle true MODE_KEY m <| cm_key := k |>);
    announce source_p dir "k" (Some k)
  else
    _ ← upd_mode chptr (fun m => toggle false MODE_KEY m <| cm_key := ""%string |>);
    announce source_p dir "k" (Some "*"%string).

(** The loop over the letters; [false] when the source returns from inside it. *)
Fixpoint full_loop (chptr : ptr) (source_p : option ptr) (parv : list string) (allow_sslonly : bool)
    (p : string) (start : nat) (dir : bool) : M world bool :=
  match p with
  | EmptyString => mret true
  | String c p =>
    let go := full_loop chptr source_p parv allow_sslonly p in
    (* an argument that must be there, then the rest of the letters *)
    let with_arg (act : string → M world unit) :=
      a ← argv parv start;
      if is_empty a then mret false
      else x ← str a; _ ← act x; go (S start) dir in
    if Ascii.eqb c NUL then mret true
    else if Ascii.eqb c "+" then go start true
    else if Ascii.eqb c "-" then go start false
    else match simple_bit c with
    | Some bit => _ ← full_flag chptr source_p dir bit c; go start dir
    | None =>
      if Ascii.eqb c "S" then
        if allow_sslonly then _ ← full_flag chptr source_p dir MODE_SSLONLY c; go start dir
        else mret false
      else if Ascii.eqb c "k" then with_arg (full_key chptr source_p dir)
      else if Ascii.eqb c "l" then
        if dir then
          a ← argv parv start;
          if is_empty a then mret false
          else
            x ← str a;
            b ← full_limit chptr source_p x;
            if (b : bool) then go (S start) dir else mret false
        else
          _ ← upd_mode chptr (fun m => toggle false MODE_LIMIT m <| cm_limit := 0 |>);
          _ ← announce source_p dir "l" None;
          go start dir
      else if Ascii.eqb c "o" || Ascii.eqb c "v" then with_arg (full_status chptr source_p dir c)
      else if Ascii.eqb c "b" then with_arg (full_ban chptr source_p dir)
      else if Ascii.eqb c "e" then
        with_arg (full_list chptr source_p dir "e" (fun f ch => ch <| ch_excepts ::= f |>))
      else if Ascii.eqb c "I" then
        with_arg (full_list chptr source_p dir "I" (fun f ch => ch <| ch_invites ::= f |>))
      else go start dir
    end
  end.

Definition parse_full_mode (chptr : ptr) (source_p : option ptr) (parv : list string) (start : nat)
    (allow_sslonly : bool) : M world unit :=
  p ← argv parv start;
  if (length parv <=? start)%nat then mret tt
  else
    _ ← match source_p with Some s => modebuild_start s chptr | None => mret tt end;
    p ← str p;
    done ← full_loop chptr source_p parv allow_sslonly p (S start) true;
    when (done && bool_decide (is_Some source_p)) modebuild_finish.

(** The services deopped by a line, rejoined one after the other. *)
Fixpoint rejoin_deopped (l : list ptr) (chptr : ptr) : M world unit :=
  match l with
  | [] => mret tt
  | target_p :: l =>
    _ ← rejoin_service target_p chptr true;
    _ ← modify (fun w => w <| deopped_list ::= rb_dlinkDelete target_p |>);
    rejoin_deopped l chptr
  end.

Definition handle_chmode (chptr source_p : ptr) (parv : list string) : M world unit :=
  ch ← rd channels chptr;
  let oldmode := ch_mode ch in
  _ ← parse_full_mode chptr None parv 0 true;
  w ← get;
  _ ← when (negb (is_nil (opped_list w)))
        (r ← hook_call HOOK_CHANNEL_MODE_OP (HookPtr chptr) (Members (opped_list w));
         match snd r with
         | Members l => modify (fun w => w <| opped_list := l |>)
         | _ => mret tt
         end);
  w ← get;
  _ ← when (negb (is_nil (voiced_list w)))
        (r ← hook_call HOOK_CHANNEL_MODE_VOICE (HookPtr chptr) (Members (voiced_list w));
         match snd r with
         | Members l => modify (fun w => w <| voiced_list := l |>)
         | _ => mret tt
         end);
  ch ← rd channels chptr;
  _ ← when (negb (cm_mode oldmode =? cm_mode (ch_mode ch))
            || negb (cm_limit oldmode =? cm_limit (ch_mode ch))
            || negb (strcasecmp (cm_key oldmode) (cm_key (ch_mode ch)) =? 0))
        (hook HOOK_CHANNEL_MODE_SIMPLE (HookPtr chptr));
  u ← IsUser source_p;
  w ← get;
  _ ← when (u && negb (is_nil (ban_list w)))
        (_ ← hook_call HOOK_CHANNEL_MODE_BAN (HookPtr chptr) (Bans (ban_list w)); mret tt);
  _ ← modify (fun w => w <| opped_list := [] |> <| voiced_list := [] |> <| ban_list := [] |>);
  l ← gets deopped_list;
  rejoin_deopped l chptr.

Definition c_mode (client_p : ptr) (parv : list string) : M world unit :=
  if (length parv <? 1)%nat then mret tt else
  a0 ← argv parv 0;
  if is_empty a0 then mret tt else
  name ← str a0;
  if negb (IsChanPrefix (deref name)) then
    if (length parv <? 2)%nat then mret tt else
    a1 ← argv parv 1;
    if is_empty a1 then mret tt else
    modes ← str a1;
    t ← find_user name true;
    match t with
    | None => mret tt
    | Some target_p =>
      if negb (bool_decide (target_p = client_p)) then mret tt
      else upd_user target_p (fun u => u <| us_umode ::= string_to_umode modes |>)
    end
  else
    if (length parv <? 2)%nat then mret tt else
    a1 ← argv parv 1;
    if is_empty a1 then mret tt else
    r ← find_channel name;
    match r with
    | None => mret tt
    | Some chptr =>
      u ← IsUser client_p;
      m ← (if (u : bool) then find_chmember chptr client_p else mret None);
      deopped ← match m with
                | None => mret false
                | Some msptr => m ← rd members msptr; mret (has_flag (mb_flags m) MODE_DEOPPED)
                end;
      if (deopped : bool) then mret tt else handle_chmode chptr client_p (drop 1 parv)
    end.

Definition c_tmode (client_p : ptr) (parv : list string) : M world unit :=
  if (length parv <? 3)%nat then mret tt else
  a2 ← argv parv 2;
  if is_empty a2 then mret tt else
  name ← arg parv 1;
  r ← find_channel name;
  match r with
  | None => mret tt
  | Some chptr =>
    ts ← arg parv 0;
    ch ← rd channels chptr;
    if ch_tsinfo ch <? atol ts then mret tt
    else handle_chmode chptr client_p (drop 2 parv)
  end.

(** ** Bursts of bans *)

Definition skip_rest (t : option string) : option string := skip_blanks <$> t.

(** The loop over the masks: [s] is the mask, [t] the text after it. *)
Fixpoint bmask_loop (fuel : nat) (s t : option string) (chptr : ptr)
    (edit : (list string → list string) → channel → channel) : M world unit :=
  match fuel with
  | O => faulty OutOfFuel
  | S fuel =>
    if is_empty s then mret tt
    else
      mask ← str s;
      _ ← when (negb (Ascii.eqb (deref mask) ":") && valid_ban mask)
            (upd_channel chptr (edit (fun l => fst (add_ban mask l))));
      match t with
      | None => mret tt
      | Some t =>
        let '(s, t) := next_word t in
        bmask_loop fuel (Some s) (skip_rest t) chptr edit
      end
  end.

Definition bmask_list (c : ascii) : option ((list string → list string) → channel → channel) :=
  match c with
  | "b" => Some (fun f ch => ch <| ch_bans ::= f |>)
  | "e" => Some (fun f ch => ch <| ch_excepts ::= f |>)
  | "I" => Some (fun f ch => ch <| ch_invites ::= f |>)
  | _ => None
  end%char.

Definition c_bmask (client_p : ptr) (parv : list string) : M world unit :=
  name ← arg parv 1;
  r ← find_channel name;
  match r with
  | None => mret tt
  | Some chptr =>
    ts ← arg parv 0;
    ch ← rd channels chptr;
    if ch_tsinfo ch <? atol ts then mret tt
    else
      kind ← arg parv 2;
      match bmask_list (deref kind) with
      | None => mret tt
      | Some edit =>
        masks ← arg parv 3;
        let '(s, t) := next_word (skip_blanks masks) in
        bmask_loop (S (strlen masks)) (Some s) (skip_rest t) chptr edit
      end
  end.
End chmode.
