(* ===== verification/Service.v ===== *)
(** * Introducing services ([src/service.c], [src/conf.c])

    How the services of the process appear on and leave the network, and the
    reference counts that keep an operator block alive while it is used. *)

From S2P Require Import Prelude CString Match Rblib Tools Fault World Lookup Channel.

Definition CONF_DEAD : Z := 0x0001.

Section service.
Context `{Sys}.

Definition introduce_service (target_p : ptr) : M world unit :=
  c ← rd clients target_p;
  s ← service_of target_p;
  _ ← sendto_server ("UID " ++ cl_name c ++ " 1 1 +iDS" ++
        (if has_flag (sr_flags s) SERVICE_OPERED then "o" else "") ++ " " ++
        sr_username s ++ " " ++ sr_host s ++ " 0 " ++ cl_uid c ++ " :" ++ cl_info c);
  _ ← upd_service target_p (fun s => s <| sr_status ::= fun x => set_flag x SERVICE_INTRODUCED |>);
  add_client target_p.

Definition ConnCapTB (w : world) : M world bool :=
  l ← need NullDeref (server_p w); mret (has_flag (lc_flags l) CONN_CAP_TB).

Definition service_channels_of (p : ptr) (w : world) : list ptr :=
  match clients w !! p ≫= cl_service with Some s => sr_channels s | None => [] end.

Definition tb_line (w : world) (ch : channel) : string :=
  ":" ++ MYUID w ++ " TB " ++ ch_name ch ++ " " ++ lu (ch_topic_tsinfo ch) ++ " " ++
  ch_topicwho ch ++ " :" ++ ch_topic ch.

Definition introduce_service_channels (target_p : ptr) (send_tb : bool) : M world unit :=
  _ ← service_of target_p;
  foreach (service_channels_of target_p) (fun chptr =>
    _ ← send_sjoin target_p chptr;
    w ← get;
    ch ← rd channels chptr;
    when send_tb
      (tb ← ConnCapTB w;
       when (tb && negb (is_empty (Some (ch_topic ch)))) (sendto_server (tb_line w ch)))).

Definition ServiceDisabled (p : ptr) : M world bool :=
  s ← service_of p; mret (has_flag (sr_flags s) SERVICE_DISABLED).

Definition introduce_services : M world unit :=
  foreach service_list (fun service_p =>
    b ← ServiceDisabled service_p; when (negb b) (introduce_service service_p)).

Definition introduce_services_channels : M world unit :=
  foreach service_list (fun service_p =>
    b ← ServiceDisabled service_p; when (negb b) (introduce_service_channels service_p true)).

Definition reintroduce_service (target_p : ptr) : M world unit :=
  w ← get;
  c ← rd clients target_p;
  _ ← sendto_server (":" ++ SVC_UID w c ++ " QUIT :Updating information");
  _ ← del_client target_p;
  _ ← introduce_service target_p;
  _ ← introduce_service_channels target_p false;
  upd_service target_p (fun s => s <| sr_status ::= fun x => clear_flag x SERVICE_REINTRODUCE |>).

Definition deintroduce_service (target_p : ptr) : M world unit :=
  w ← get;
  c ← rd clients target_p;
  _ ← sendto_server (":" ++ SVC_UID w c ++ " QUIT :Disabled");
  _ ← upd_service target_p (fun s => s <| sr_status ::= fun x => clear_flag x SERVICE_INTRODUCED |>);
  del_client target_p.

Definition update_service_floodcount : M world unit :=
  foreach service_list (fun p =>
    upd_service p (fun s => s <| sr_flood ::= fun x => Z.max 0 (int32 (x - sr_flood_grace s)) |>)).

(** ** Operator blocks *)
Definition deallocate_conf_oper (conf_p : ptr) : M world unit :=
  _ ← rd conf_opers conf_p;
  _ ← modify (fun w => w <| conf_opers ::= alter (fun o => o <| oper_refcount ::= Z.add (-1) |>) conf_p |>);
  o ← rd conf_opers conf_p;
  when (has_flag (oper_flags o) CONF_DEAD && (oper_refcount o =? 0))
    (modify (fun w => w <| conf_opers ::= delete conf_p |>)).

Definition store_client_oper (client_p : ptr) : M world unit :=
  c ← rd clients client_p;
  u ← user_of client_p;
  uplink ← need NullDeref (cl_uplink c);
  up ← rd clients uplink;
  o ← need NullDeref (us_oper u);
  _ ← rd conf_opers o;
  now ← gets rb_time;
  modify (fun w =>
    w <| conf_opers ::= alter (fun o => o <| oper_refcount ::= Z.add 1 |>) o |>
      <| client_oper_list ::= rb_dlinkAdd
           (ClientOper (rb_strlcpy (UIDLEN + 1) (cl_uid c)) (rb_strlcpy (USERLEN + 1) (us_username u))
              (rb_strlcpy (HOSTLEN + 1) (us_host u)) (rb_strlcpy (UIDLEN + 1) (cl_uid up)) o now) |>).
End service.
