(* ===== verification/Conf.v ===== *)
(** * Operator blocks ([src/conf.c], [src/newconf.c])

    The blocks of the configuration that say who may be an operator: how they are
    searched, and how a rehash replaces them while users are logged in to them.  The
    parser of the file is not modelled: a configuration is the list of the blocks
    that it reads. *)

From S2P Require Import Prelude CString Match Rblib Tools Fault World Service.

Definition CONF_OPER_ENCRYPTED : Z := 0x0010.
Definition CONF_OPER_DCC : Z := 0x0020.
Definition CONF_OPER_ADMIN : Z := 0x0100.
Definition OPERNAMELEN : nat := 30.

Definition ConfDead (o : conf_oper) : bool := has_flag (oper_flags o) CONF_DEAD.
Definition ConfOperEncrypted (o : conf_oper) : bool := has_flag (oper_flags o) CONF_OPER_ENCRYPTED.
Definition ConfOperDcc (o : conf_oper) : bool := has_flag (oper_flags o) CONF_OPER_DCC.

(** [match(mask, name)] as a condition. *)
Definition matches (mask name : string) : bool := negb (match_mask (Some mask) (Some name) =? 0).

Section conf.
Context `{Sys}.

(** The test of [find_conf_oper()] on a block. *)
Definition oper_matches (username host server : string) (login : option string) (o : conf_oper) : bool :=
  if ConfDead o then false else
  matches (oper_username o) username && matches (oper_host o) host &&
  (is_empty (oper_server o) || matches (default ""%string (oper_server o)) server) &&
  (is_empty login || (irccmp (oper_name o) (default ""%string login) =? 0)).

Definition find_conf_oper (username host server : string) (login : option string) : M world (option ptr) :=
  l ← gets conf_oper_list;
  find_first (fun p => o ← rd conf_opers p; mret (oper_matches username host server login o)) l.

(** ** Rehash *)

Definition upd_oper (p : ptr) (f : conf_oper → conf_oper) : M world unit :=
  _ ← rd conf_opers p; modify (fun w => w <| conf_opers ::= alter f p |>).

(** [SetConfDead()] on every block. *)
Definition clear_old_conf : M world unit :=
  foreach_safe conf_oper_list (fun p => upd_oper p (fun o => o <| oper_flags ::= fun f => set_flag f CONF_DEAD |>)).

Definition clear_old_conf_final : M world unit :=
  foreach_safe conf_oper_list (fun p =>
    o ← rd conf_opers p;
    when (ConfDead o && (oper_refcount o =? 0))
      (modify (fun w => w <| conf_opers ::= delete p |> <| conf_oper_list ::= rb_dlinkDelete p |>))).

(** The dead block of the running configuration that a new one brings back. *)
Definition same_block (name : string) (tmp cl : conf_oper) : bool :=
  ConfDead cl && (irccmp (oper_username cl) (oper_username tmp) =? 0) && (irccmp (oper_host cl) (oper_host tmp) =? 0) &&
  (irccmp (oper_name cl) name =? 0) &&
  (if is_empty (oper_server cl) then is_empty (oper_server tmp)
   else negb (is_empty (oper_server tmp)) &&
        (irccmp (default ""%string (oper_server cl)) (default ""%string (oper_server tmp)) =? 0)).

(** One [user] of an operator block: its user, host and server in [tmp], the rest in [yy_oper]. *)
Definition add_block (yy_oper tmp : conf_oper) : M world unit :=
  l ← gets conf_oper_list;
  found ← find_first (fun p => o ← rd conf_opers p; mret (same_block (oper_name yy_oper) tmp o)) l;
  match found with
  | Some p =>
    upd_oper p (fun o => o <| oper_pass := oper_pass yy_oper |>
                           <| oper_flags := clear_flag (oper_flags yy_oper) CONF_DEAD |>
                           <| oper_sflags := oper_sflags yy_oper |>)
  | None =>
    p ← gets (fun w => rb_bh_alloc (dom (conf_opers w)));
    modify (fun w => w
      <| conf_opers ::= <[p := tmp <| oper_name := oper_name yy_oper |> <| oper_pass := oper_pass yy_oper |>
                                   <| oper_flags := oper_flags yy_oper |> <| oper_sflags := oper_sflags yy_oper |>]> |>
      <| conf_oper_list ::= rb_dlinkAddTail p |>)
  end.

Fixpoint add_blocks (yy_oper : conf_oper) (yy_oper_list : list conf_oper) : M world unit :=
  match yy_oper_list with
  | [] => mret tt
  | tmp :: l => _ ← add_block yy_oper tmp; add_blocks yy_oper l
  end.

Definition conf_end_operator (yy_oper : conf_oper) (yy_oper_list : list conf_oper) : M world unit :=
  if is_empty (Some (oper_name yy_oper)) || is_empty (Some (oper_pass yy_oper)) then mret tt else
  if (OPERNAMELEN <? strlen (oper_name yy_oper))%nat then mret tt else
  add_blocks yy_oper yy_oper_list.

(** The operator blocks of a configuration file, in order. *)
Fixpoint read_operators (blocks : list (conf_oper * list conf_oper)) : M world unit :=
  match blocks with
  | [] => mret tt
  | (yy_oper, l) :: blocks => _ ← conf_end_operator yy_oper l; read_operators blocks
  end.

(** The loop of [conf_parse()] over the services, whose settings may have changed. *)
Definition update_services : M world unit :=
  foreach service_list (fun target_p =>
    s ← service_of target_p;
    let disabled := has_flag (sr_flags s) SERVICE_DISABLED in
    let done := upd_service target_p (fun s => s <| sr_status ::= fun x => clear_flag x SERVICE_REINTRODUCE |>) in
    if has_flag (sr_status s) SERVICE_INTRODUCED then
      if disabled then deintroduce_service target_p
      else if has_flag (sr_status s) SERVICE_REINTRODUCE then reintroduce_service target_p
      else done
    else _ ← when (negb disabled) (introduce_service target_p); done).

(** [conf_parse(0)]: [settings] is what the rest of the file sets. *)
Definition conf_parse (blocks : list (conf_oper * list conf_oper)) (settings : M world unit) : M world unit :=
  _ ← clear_old_conf;
  _ ← read_operators blocks;
  _ ← settings;
  w ← get;
  _ ← when (sent_burst w) update_services;
  clear_old_conf_final.

(** ** Stored operators *)
Fixpoint expire_entries (now : Z) (l : list client_oper) : M world (list client_oper) :=
  match l with
  | [] => mret []
  | e :: l =>
    w ← get;
    if co_timestamp e + cf_split_oper_time (config_file w) <? now
    then _ ← deallocate_conf_oper (co_oper e); expire_entries now l
    else l' ← expire_entries now l; mret (e :: l')
  end.

Definition expire_client_oper : M world unit :=
  w ← get;
  rest ← expire_entries (rb_time w) (client_oper_list w);
  modify (fun w => w <| client_oper_list := rest |>).

(** ** Flags in words *)
Definition oper_flag_table : list (ascii * Z) := [("D"%char, CONF_OPER_DCC); ("A"%char, CONF_OPER_ADMIN)].

Definition conf_oper_flags (flags : Z) : string :=
  let buf := foldr (fun e s => if has_flag flags (snd e) then String (fst e) s else s) ""%string oper_flag_table in
  if is_empty (Some buf) then "-"%string else buf.

(** [service_flags]: the number and name of a service, a flag and its letter. *)
Definition service_flags : list (Z * string * Z * string) :=
  [(1, "OS", 0x20000, "M"); (1, "OS", 0x40000, "I"); (1, "OS", 0x4000, "C"); (1, "OS", 0x8000, "T");
   (1, "OS", 0x10000, "O"); (2, "US", 0x1, "R"); (2, "US", 0x2, "S"); (2, "US", 0x4, "D");
   (2, "US", 0x20, "P"); (2, "US", 0x8, "L"); (2, "US", 0x10, "I"); (3, "CS", 0x100, "R");
   (3, "CS", 0x200, "S"); (3, "CS", 0x400, "D"); (3, "CS", 0x800, "L"); (3, "CS", 0x1000, "I");
   (4, "NS", 0x2000, "D"); (5, "OB", 0x100000, "C"); (6, "GL", 0x200000, "N"); (6, "GL", 0x400000, "W");
   (7, "JS", 0x800000, "J"); (8, "BS", 0x1000000, "K"); (8, "BS", 0x2000000, "X"); (8, "BS", 0x40000000, "P");
   (8, "BS", 0x4000000, "R"); (8, "BS", 0x8000000, "P"); (8, "BS", 0x10000000, "V"); (8, "BS", 0x20000000, "S");
   (8, "BS", 0x80000, "M"); (9, "CF", 0x100000000, "I"); (9, "CF", 0x200000000, "N"); (9, "CF", 0x400000000, "B");
   (9, "CF", 0x800000000, "C")]%string.

Fixpoint service_flags_loop (flags : Z) (table : list (Z * string * Z * string)) (serviceid : Z) (buf : string) : string :=
  match table with
  | [] => buf
  | (id, sname, flag, name) :: table =>
    if has_flag flags flag then
      let buf := if serviceid =? id then buf else
        let buf := if serviceid =? 0 then buf else rb_strlcat BUFSIZE buf " " in
        rb_strlcat BUFSIZE (rb_strlcat BUFSIZE buf sname) ":" in
      service_flags_loop flags table id (rb_strlcat BUFSIZE buf name)
    else service_flags_loop flags table serviceid buf
  end.

Definition conf_service_flags (flags : Z) : string :=
  let buf := service_flags_loop flags service_flags 0 "" in
  if is_empty (Some buf) then "-"%string else buf.
End conf.
