(* ===== verification/Client.v ===== *)
(** * Clients coming and going ([src/client.c], second part)

    The exit of users and of servers with everything behind them, and the
    handlers of NICK, UID, QUIT, KILL, SERVER, SID and SQUIT. *)

From S2P Require Import Prelude CString Match Rblib Tools Fault World Lookup Channel ChanCmd Umode Service.

Section client.
Context `{Sys}.

Definition IsDead (p : ptr) : M world bool :=
  c ← rd clients p; mret (has_flag (cl_flags c) FLAGS_DEAD).
Definition SetDead (p : ptr) : M world unit :=
  upd_client p (fun c => c <| cl_flags ::= fun f => set_flag f FLAGS_DEAD |>).

(** [c->uplink], dereferenced. *)
Definition uplink_of (p : ptr) : M world ptr := c ← rd clients p; need NullDeref (cl_uplink c).

(** [deallocate_conf_oper] and the list of operators, for a user that is one. *)
Definition exit_oper (target_p : ptr) (oper : ptr) : M world unit :=
  _ ← modify (fun w => w <| oper_list ::= rb_dlinkFindDestroy target_p |>);
  deallocate_conf_oper oper.

Definition exit_login (target_p reg : ptr) : M world unit :=
  _ ← rd user_regs reg;
  modify (fun w => w <| user_regs ::= alter (fun r => r <| ur_users ::= rb_dlinkFindDestroy target_p |>) reg |>).

Definition exit_user (target_p : ptr) (split : bool) : M world unit :=
  d ← IsDead target_p;
  if (d : bool) then mret tt else
  _ ← SetDead target_p;
  _ ← hook HOOK_CLIENT_EXIT (HookPtr target_p);
  cf ← gets config_file;
  u ← user_of target_p;
  _ ← when (split && (0 <? cf_split_oper_time cf) && bool_decide (is_Some (us_oper u)))
        (store_client_oper target_p);
  _ ← match us_user_reg u with Some r => exit_login target_p r | None => mret tt end;
  _ ← match us_oper u with Some o => exit_oper target_p o | None => mret tt end;
  _ ← part_all target_p;
  _ ← modify (fun w =>
        let '(users, exited) := rb_dlinkMoveNode target_p (user_list w) (exited_list w) in
        w <| user_list := users |> <| exited_list := exited |>);
  up ← uplink_of target_p;
  upd_server up (fun s => s <| sv_users ::= rb_dlinkDelete target_p |>).

Definition server_users_of (p : ptr) (w : world) : list ptr :=
  match clients w !! p ≫= cl_server with Some s => sv_users s | None => [] end.
Definition server_servers_of (p : ptr) (w : world) : list ptr :=
  match clients w !! p ≫= cl_server with Some s => sv_servers s | None => [] end.

(** [exit_server()], given the [exit_client()] that it calls. *)
Definition exit_server (exit_client : ptr → bool → M world unit) (target_p : ptr) (split : bool)
    : M world unit :=
  d ← IsDead target_p;
  if (d : bool) then mret tt else
  _ ← SetDead target_p;
  _ ← hook HOOK_SERVER_EXIT_WARNING (HookPtr target_p);
  _ ← server_of target_p;
  _ ← foreach_safe (server_users_of target_p) (fun p =>
        _ ← hook HOOK_CLIENT_EXIT_SPLIT (HookPtr p); exit_client p split);
  _ ← foreach_safe (server_servers_of target_p) (fun p => exit_client p split);
  _ ← hook HOOK_SERVER_EXIT (HookPtr target_p);
  _ ← modify (fun w =>
        let '(servers, exited) := rb_dlinkMoveNode target_p (server_list w) (exited_list w) in
        w <| server_list := servers |> <| exited_list := exited |>);
  c ← rd clients target_p;
  match cl_uplink c with
  | Some up => upd_server up (fun s => s <| sv_servers ::= rb_dlinkDelete target_p |>)
  | None => mret tt
  end.

(** Servers nest: the fuel bounds the depth of the recursion. *)
Fixpoint exit_from (fuel : nat) (target_p : ptr) (split : bool) : M world unit :=
  match fuel with
  | O => faulty OutOfFuel
  | S fuel =>
    svc ← IsService target_p;
    _ ← s_assert (negb svc);
    if (svc : bool) then mret tt else
    srv ← IsServer target_p;
    usr ← IsUser target_p;
    _ ← (if (srv : bool) then exit_server (exit_from fuel) target_p split
         else if (usr : bool) then exit_user target_p split
         else mret tt);
    del_client target_p
  end.

(** A server can only be behind another one, so that the number of clients bounds
    the depth. *)
Definition exit_client (target_p : ptr) (split : bool) : M world unit :=
  n ← gets (fun w => size (clients w)); exit_from (S n) target_p split.

Definition free_client (target_p : ptr) : M world unit :=
  _ ← rd clients target_p; modify (fun w => w <| clients ::= delete target_p |>).

Definition new_client (c : client) : M world ptr :=
  p ← gets (fun w => rb_bh_alloc (dom (clients w)));
  _ ← modify (fun w => w <| clients ::= <[p := c]> |>);
  mret p.

(** ** Users *)

(** What NICK and UID do about a client that has the name already: whether the
    newcomer is still to be introduced. *)
Definition nick_collision (target_p : option ptr) (newts : Z) : M world bool :=
  match target_p with
  | None => mret true
  | Some p =>
    srv ← IsServer p;
    _ ← s_assert (negb srv);
    if (srv : bool) then mret false else
    c ← rd clients p;
    match cl_user c with
    | Some u =>
      if us_tsinfo u <? newts then
        _ ← mlog ("PROTO: NICK " ++ cl_name c ++ " with higher TS introduced causing collision.");
        mret false
      else _ ← exit_client p false; mret true
    | None =>
      if bool_decide (is_Some (cl_service c)) then
        if newts <=? 1 then die "service fight" else mret false
      else mret true
    end
  end.

(** A user is entered into the tables, the list of users and its server's. *)
Definition link_user (target_p uplink_p : ptr) : M world unit :=
  _ ← add_client target_p;
  _ ← modify (fun w => w <| user_list ::= rb_dlinkAdd target_p |>);
  _ ← upd_server uplink_p (fun s => s <| sv_users ::= rb_dlinkAdd target_p |>);
  up ← rd clients uplink_p;
  if has_flag (cl_flags up) FLAGS_EOB then hook HOOK_CLIENT_CONNECT (HookPtr target_p)
  else hook HOOK_CLIENT_CONNECT_BURST (HookPtr target_p).

Definition new_user (name username host : string) (ip : option string) (servername : ptr)
    (umode : string) (newts : Z) : user :=
  let username := rb_strlcpy (USERLEN + 1) username in
  let host := rb_strlcpy (HOSTLEN + 1) host in
  zero_user <| us_username := username |> <| us_host := host |> <| us_ip := ip |>
            <| us_servername := servername |> <| us_tsinfo := newts |>
            <| us_umode := string_to_umode umode 0 |>
            <| us_mask := Some (nickuserhost BUFSIZE name username host) |>.

Definition nick_introduce (parv : list string) : M world unit :=
  nick ← arg parv 0;
  target_p ← find_named_client nick;
  ts ← arg parv 2;
  let newts := atol ts in
  srv ← arg parv 6;
  up ← find_server srv;
  match up with
  | None => mlog ("PROTO: NICK " ++ nick ++ " introduced on non-existant server " ++ srv)
  | Some uplink_p =>
    if (NICKLEN <? strlen nick)%nat then die "Compiled NICKLEN appears to be wrong" else
    go ← nick_collision target_p newts;
    if negb go then mret tt else
    umode ← arg parv 3; username ← arg parv 4; host ← arg parv 5; info ← arg parv 7;
    let name := rb_strlcpy (HOSTLEN + 1) nick in
    target_p ← new_client (zero_client
      <| cl_name := name |> <| cl_info := rb_strlcpy (REALLEN + 1) info |>
      <| cl_uplink := Some uplink_p |>
      <| cl_user := Some (new_user name username host None uplink_p umode newts) |>);
    link_user target_p uplink_p
  end.

Definition nick_change (client_p : ptr) (parv : list string) : M world unit :=
  usr ← IsUser client_p;
  _ ← s_assert usr;
  if negb usr then mret tt else
  nick ← arg parv 0;
  if (NICKLEN <? strlen nick)%nat then die "Compiled NICKLEN appears to be wrong" else
  let name := rb_strlcpy (HOSTLEN + 1) nick in
  _ ← del_client client_p;
  _ ← upd_client client_p (fun c => c <| cl_name := name |>);
  _ ← add_client client_p;
  ts ← arg parv 1;
  _ ← upd_user client_p (fun u =>
        u <| us_mask := Some (nickuserhost BUFSIZE name (us_username u) (us_host u)) |>
          <| us_tsinfo := atol ts |>);
  hook HOOK_CLIENT_NICKCHANGE (HookPtr client_p).

Definition c_nick (client_p : ptr) (parv : list string) : M world unit :=
  let parc := length parv in
  _ ← s_assert ((parc =? 2) || (parc =? 8))%nat;
  if (parc =? 8)%nat then nick_introduce parv
  else if (parc =? 2)%nat then nick_change client_p parv
  else mret tt.

(** The address of a UID: kept if it is neither "0" nor one character long. *)
Definition uid_ip (s : string) : option string :=
  if negb (Ascii.eqb (char_at s 0) "0") && negb (Ascii.eqb (char_at s 1) NUL) then Some s else None.

Definition c_uid (client_p : ptr) (parv : list string) : M world unit :=
  _ ← s_assert (length parv =? 9)%nat;
  if negb (length parv =? 9)%nat then mret tt else
  nick ← arg parv 0;
  target_p ← find_client nick;
  ts ← arg parv 2;
  let newts := atol ts in
  if (NICKLEN <? strlen nick)%nat then die "Compiled NICKLEN appears to be wrong" else
  go ← nick_collision target_p newts;
  if negb go then mret tt else
  umode ← arg parv 3; username ← arg parv 4; host ← arg parv 5; addr ← arg parv 6;
  uid ← arg parv 7; info ← arg parv 8;
  let name := rb_strlcpy (HOSTLEN + 1) nick in
  let u := new_user name username host (uid_ip addr) client_p umode newts in
  let nodns := match us_ip u with
               | Some ip => strncmp (us_host u) ip 39 =? 0
               | None => false
               end in
  target_p ← new_client (zero_client
    <| cl_name := name |> <| cl_uid := rb_strlcpy (UIDLEN + 1) uid |>
    <| cl_info := rb_strlcpy (REALLEN + 1) info |> <| cl_uplink := Some client_p |>
    <| cl_flags ::= fun f => if nodns then set_flag f FLAGS_NODNS else f |>
    <| cl_user := Some u |>);
  link_user target_p client_p.

Definition c_quit (client_p : ptr) (parv : list string) : M world unit :=
  usr ← IsUser client_p;
  if negb usr then
    c ← rd clients client_p; mlog ("PROTO: QUIT received from server " ++ cl_name c)
  else exit_client client_p false.

(** The text of the log line of a kill. *)
Definition kill_line (target_p client_p : ptr) : M world unit :=
  t ← rd clients target_p;
  c ← rd clients client_p;
  match cl_user c with
  | Some u =>
    srv ← rd clients (us_servername u);
    mlog ("service " ++ cl_name t ++ " killed by " ++ cl_name c ++ "!" ++ us_username u ++ "@" ++
          us_host u ++ "{" ++ cl_name srv ++ "}")
  | None => mlog ("service " ++ cl_name t ++ " killed by " ++ cl_name c)
  end.

Definition kill_count : M world unit :=
  w ← get;
  _ ← (if first_kill w + 20 <? rb_time w
       then modify (fun w => w <| first_kill := rb_time w |> <| num_kill := 1 |>)
       else if 20 <? num_kill w then die "service kill fight!" else mret tt);
  modify (fun w => w <| num_kill ::= Z.add 1 |>).

Definition c_kill (client_p : ptr) (parv : list string) : M world unit :=
  if (length parv <? 1)%nat then mret tt else
  a0 ← argv parv 0;
  if is_empty a0 then mret tt else
  name ← str a0;
  t ← find_client name;
  match t with
  | None => mret tt
  | Some target_p =>
    c ← rd clients target_p;
    if bool_decide (is_Some (cl_server c)) then mlog ("PROTO: KILL received for server " ++ cl_name c)
    else if bool_decide (is_Some (cl_service c)) then
      _ ← kill_line target_p client_p;
      _ ← kill_count;
      _ ← del_client target_p;
      _ ← introduce_service target_p;
      introduce_service_channels target_p false
    else exit_client target_p false
  end.

(** ** Servers *)

Definition default_gecos : string := "(Unknown Location)".

(** [signoff_server()] of [src/io.c], less its socket. *)
Definition signoff_server : M world unit :=
  w ← get;
  l ← need NullDeref (server_p w);
  if ConnDead l then mret tt else
  _ ← modify (fun w => w <| server_p := Some (l <| lc_flags ::= fun f => set_flag f CONN_DEAD |>) |>);
  _ ← foreach service_list (fun service_p =>
        _ ← upd_service service_p (fun s => s <| sr_status ::= fun x => clear_flag x SERVICE_INTRODUCED |>);
        del_client service_p);
  match lc_client_p l with
  | Some p => exit_client p false
  | None => mret tt
  end.

Definition upd_server_p (f : lconn → lconn) : M world unit :=
  w ← get;
  l ← need NullDeref (server_p w);
  modify (fun w => w <| server_p := Some (f l) |>).

(** The checks on our own uplink: whether it may be introduced. *)
Definition uplink_ok (name : string) : M world bool :=
  w ← get;
  l ← need NullDeref (server_p w);
  if negb (has_flag (lc_flags l) CONN_TS) then
    _ ← mlog ("Connection to server " ++ lc_name l ++ " failed: (Protocol mismatch)");
    _ ← signoff_server; mret false
  else if negb (irccmp (lc_name l) name =? 0) then
    _ ← mlog ("Connection to server " ++ lc_name l ++ " failed: (Servername mismatch)");
    _ ← signoff_server; mret false
  else
    _ ← upd_server_p (fun l => l <| lc_flags ::= fun f => clear_flag f CONN_HANDSHAKE |>
                                 <| lc_first_time := rb_time w |>);
    mret true.

(** [PING] to a new server. *)
Definition ping_server (target_p : ptr) : M world unit :=
  w ← get;
  c ← rd clients target_p;
  sendto_server (":" ++ MYUID w ++ " PING " ++ cl_name c ++ " " ++ UID c).

Definition new_server (parv_name parv_hops : string) (info : option string) (uid : string)
    (uplink : option ptr) : client :=
  zero_client <| cl_name := rb_strlcpy (HOSTLEN + 1) parv_name |>
              <| cl_info := rb_strlcpy (REALLEN + 1) (if is_empty info then default_gecos
                                                      else default ""%string info) |>
              <| cl_uid := uid |>
              <| cl_uplink := uplink |>
              <| cl_server := Some (zero_server <| sv_hops := atoi parv_hops |>) |>.

Definition c_server (client_p : option ptr) (parv : list string) : M world unit :=
  if (length parv <? 3)%nat then mret tt else
  name ← arg parv 0;
  if (HOSTLEN <? strlen name)%nat then die "Compiled HOSTLEN appears to be wrong" else
  ok ← (match client_p with Some _ => mret true | None => uplink_ok name end);
  if negb ok then mret tt else
  hops ← arg parv 1;
  info ← argv parv 2;
  w ← get;
  uid ← (match client_p with
         | Some _ => mret ""%string
         | None => l ← need NullDeref (server_p w); sid ← str (lc_sid l);
                   mret (rb_strlcpy (UIDLEN + 1) sid)
         end);
  target_p ← new_client (new_server name hops info uid client_p);
  _ ← match client_p with
      | Some up => upd_server up (fun s => s <| sv_servers ::= rb_dlinkAdd target_p |>)
      | None =>
        _ ← upd_server_p (fun l => l <| lc_client_p := Some target_p |>);
        l ← need NullDeref (server_p w);
        when (has_flag (lc_flags l) CONN_CAP_RSFNC)
          (upd_client target_p (fun c => c <| cl_flags ::= fun f => set_flag f FLAGS_RSFNC |>))
      end;
  _ ← add_client target_p;
  _ ← modify (fun w => w <| server_list ::= rb_dlinkAdd target_p |>);
  _ ← match client_p with
      | Some _ => mret tt
      | None => _ ← introduce_services; introduce_services_channels
      end;
  _ ← upd_server_p (fun l => l <| lc_flags ::= fun f => set_flag f CONN_FLAGS_SENTBURST |>);
  ping_server target_p.

Definition c_sid (client_p : ptr) (parv : list string) : M world unit :=
  _ ← s_assert (length parv =? 4)%nat;
  if (length parv <? 4)%nat then mret tt else
  name ← arg parv 0;
  if (HOSTLEN <? strlen name)%nat then die "Compiled HOSTLEN appears to be wrong" else
  hops ← arg parv 1;
  uid ← arg parv 2;
  info ← argv parv 3;
  target_p ← new_client (new_server name hops info (rb_strlcpy (UIDLEN + 1) uid) (Some client_p));
  _ ← upd_server client_p (fun s => s <| sv_servers ::= rb_dlinkAdd target_p |>);
  _ ← add_client target_p;
  _ ← modify (fun w => w <| server_list ::= rb_dlinkAdd target_p |>);
  ping_server target_p.

Definition c_squit (client_p : ptr) (parv : list string) : M world unit :=
  a0 ← (if (length parv <? 1)%nat then mret None else argv parv 0);
  if is_empty a0 then
    w ← get;
    l ← need NullDeref (server_p w);
    p ← need NullDeref (lc_client_p l);
    exit_client p true
  else
    name ← str a0;
    t ← find_server name;
    match t with
    | None =>
      r ← hook_call HOOK_PROTO_SQUIT_UNKNOWN (HookName name) NoList;
      when (fst r =? 0) (mlog ("PROTO: SQUIT for unknown server " ++ name))
    | Some target_p => exit_client target_p true
    end.

Fixpoint eob_count (l : list ptr) : M world Z :=
  match l with
  | [] => mret 0
  | p :: l => c ← rd clients p; n ← eob_count l;
              mret (if has_flag (cl_flags c) FLAGS_EOB then n + 1 else n)
  end.

Definition is_network_split : M world bool :=
  w ← get;
  let cf := config_file w in
  few ← (if 0 <? cf_min_servers cf then
           s_count ← eob_count (server_list w); mret (s_count <? cf_min_servers cf)
         else mret false);
  if (few : bool) then _ ← mlog "Network split detected (servers)"; mret true
  else if (0 <? cf_min_users cf) && (Z.of_nat (length (user_list w)) <? cf_min_users cf) then
    _ ← mlog "Network split detected (users)"; mret true
  else mret false.
End client.
