(* ===== verification/Dispatch.v ===== *)
(** * Commands of the services ([src/service.c], second part)

    The tables of commands - sorted by name and searched by halves, and how the
    commands of one service are merged into another - and [handle_service()], which
    decides about a user's message: ignored, paced, refused, answered with help, a
    login or logout of an operator, or a command.  The functions of the commands are
    in the [s_*.c] files: [handle_service] takes [run], which calls one. *)

From S2P Require Import Prelude CString Match Rblib Tools Fault World Lookup Service Conf Client.

Definition SVC_UNKNOWNCOMMAND : Z := 0.
Definition SVC_NEEDMOREPARAMS : Z := 6.
Definition SVC_NOACCESS : Z := 10.
Definition SVC_RATELIMITEDGENERIC : Z := 13.
Definition SVC_NOTLOGGEDIN : Z := 16.
Definition SVC_USECOMMANDSHORTCUT : Z := 19.
Definition SVC_HELP_INDEXINFO : Z := 36.
Definition SVC_HELP_TOPICS : Z := 37.
Definition SVC_HELP_UNAVAILABLE : Z := 38.
Definition SVC_HELP_UNAVAILABLETOPIC : Z := 39.
Definition SVC_HELP_INDEXADMIN : Z := 40.

Definition US_FLAGS_NEEDUPDATE : Z := 0x00010000.

(** [include/watch.h]. *)
Definition WATCH_OPERSERV : Z := 0x00000001.
Definition WATCH_GLOBAL : Z := 0x00000002.
Definition WATCH_OPERBOT : Z := 0x00000004.
Definition WATCH_JUPESERV : Z := 0x00000008.
Definition WATCH_CSADMIN : Z := 0x00000010.
Definition WATCH_CSOPER : Z := 0x00000020.
Definition WATCH_CSREGISTER : Z := 0x00000040.
Definition WATCH_USADMIN : Z := 0x00000080.
Definition WATCH_USOPER : Z := 0x00000100.
Definition WATCH_USREGISTER : Z := 0x00000200.
Definition WATCH_NSADMIN : Z := 0x00000400.
Definition WATCH_NSREGISTER : Z := 0x00000800.
Definition WATCH_BANSERV : Z := 0x00001000.
Definition WATCH_AUTH : Z := 0x00002000.
Definition WATCH_CHANFIX : Z := 0x00004000.
Definition WATCH_ALL : Z := 0x00007fff.

(** The names of the flags, with every service built. *)
Definition watch_flags : list (string * Z) :=
  [("auth", WATCH_AUTH); ("banserv", WATCH_BANSERV); ("csadmin", WATCH_CSADMIN); ("csoper", WATCH_CSOPER);
   ("csregister", WATCH_CSREGISTER); ("global", WATCH_GLOBAL); ("jupeserv", WATCH_JUPESERV);
   ("nsadmin", WATCH_NSADMIN); ("nsregister", WATCH_NSREGISTER); ("operbot", WATCH_OPERBOT);
   ("operserv", WATCH_OPERSERV); ("usadmin", WATCH_USADMIN); ("usoper", WATCH_USOPER);
   ("usregister", WATCH_USREGISTER); ("chanfix", WATCH_CHANFIX); ("all", WATCH_ALL)]%string.

Definition watch_find_name (flag : Z) : string :=
  match list_find (fun e => snd e = flag) watch_flags with Some (_, e) => fst e | None => "unknown" end.

(** ** Tables of commands *)

(** [bsearch(name, tbl, n, sizeof *tbl, scmd_compare)] of the C library, with the index. *)
Fixpoint bsearch_loop (fuel : nat) (name : string) (tbl : list service_command) (l u : nat) : option (nat * service_command) :=
  match fuel with
  | O => None
  | S fuel =>
    if (l <? u)%nat then
      let idx := ((l + u) / 2)%nat in
      match tbl !! idx with
      | None => None
      | Some e =>
        let d := strcasecmp name (scm_cmd e) in
        if d <? 0 then bsearch_loop fuel name tbl l idx
        else if 0 <? d then bsearch_loop fuel name tbl (S idx) u
        else Some (idx, e)
      end
    else None
  end.

Definition bsearch (name : string) (tbl : list service_command) : option (nat * service_command) :=
  bsearch_loop (S (length tbl)) name tbl 0 (length tbl).

(** [qsort(tbl, n, sizeof *tbl, scmd_sort)]. *)
Definition scmd_le (one two : service_command) : Prop := strcasecmp (scm_cmd one) (scm_cmd two) <= 0.
#[export] Instance scmd_le_dec one two : Decision (scmd_le one two).
Proof. unfold scmd_le. apply _. Defined.

Definition qsort (tbl : list service_command) : list service_command := merge_sort scmd_le tbl.

(** The parts of a service's table that [add_service], [merge_service] and
    [unmerge_service] change. *)
Record service_handler := ServiceHandler {
  sh_command : option (list service_command);
  sh_ucommand : option (list ucommand_handler)
}.

Definition table (t : option (list service_command)) : list service_command := default [] t.

Definition sort_commands (h : service_handler) : option (list service_command) := qsort <$> sh_command h.

Definition merge_service (h : service_handler) (s : service) : service :=
  let svc_cmd := qsort (table (sr_command s) ++ table (sh_command h)) in
  let s := s <| sr_orig_command := match sr_orig_command s with None => sr_command s | o => o end |>
             <| sr_command := Some svc_cmd |> in
  match sh_ucommand h with
  | None => s
  | Some new =>
    s <| sr_orig_ucommand := match sr_orig_ucommand s with None => sr_ucommand s | o => o end |>
      <| sr_ucommand := Some (default [] (sr_ucommand s) ++ new) |>
  end.

Definition unmerge_service (s : service) : service :=
  match sr_orig_command s with
  | None => s
  | Some orig =>
    let s := s <| sr_command := Some orig |> in
    let s := match sr_orig_ucommand s with
             | Some u => s <| sr_ucommand := Some u |>
             | None => s
             end in
    s <| sr_orig_command := None |> <| sr_orig_ucommand := None |>
  end.

Section dispatch.
Context `{Sys}.

(** ** Replies *)

(** [NOTICE] from the service or from the server. *)
Definition service_error (service_p client_p : ptr) (text : string) : M world unit :=
  w ← get;
  s ← service_of service_p;
  svc ← rd clients service_p;
  c ← rd clients client_p;
  sendto_server (":" ++ (if has_flag (sr_flags s) SERVICE_MSGSELF then SVC_UID w svc else MYUID w) ++
    " NOTICE " ++ UID c ++ " :" ++ str_take (BUFSIZE - 1) text).

(** The language that a user registered with the services has chosen. *)
Definition user_language (client_p : ptr) : M world (option Z) :=
  if negb ENABLE_USERSERV then mret None else
  c ← rd clients client_p;
  match cl_user c ≫= us_user_reg with
  | None => mret None
  | Some r => reg ← rd user_regs r; mret (Some (ur_language reg))
  end.

Definition service_err (service_p client_p : ptr) (msgid : Z) (args : list string) : M world unit :=
  lang ← user_language client_p;
  service_error service_p client_p (svc_notice lang msgid args).

Definition lang_get_cachefile (translations : cachefiles) (client_p : ptr) : M world (option (list string)) :=
  lang ← user_language client_p;
  cf ← gets config_file;
  let base := match translations !! cf_default_language cf with Some f => Some f | None => translations !! 0 end in
  mret (match lang with
        | Some l => match translations !! l with Some f => Some f | None => base end
        | None => base
        end).

Fixpoint send_file (service_p client_p : ptr) (lines : list string) : M world unit :=
  match lines with
  | [] => mret tt
  | line :: lines => _ ← service_error service_p client_p line; send_file service_p client_p lines
  end.

(** ** Counters *)
Definition uint_add (n x : Z) : Z := uint32 (x + n).

Definition add_flood_count (client_p : ptr) (n : Z) : M world unit :=
  upd_user client_p (fun u => u <| us_flood_count ::= uint_add n |>).
Definition add_flood (service_p : ptr) (n : Z) : M world unit :=
  upd_service service_p (fun s => s <| sr_flood ::= fun x => int32 (x + n) |>).

(** ** Who may go on *)
Definition is_oper (u : user) : bool := has_flag (us_umode u) CLIENT_OPER.

(** The server that a user names: [client_p->user->servername]. *)
Definition servername_of (u : user) : M world string := c ← rd clients (us_servername u); mret (cl_name c).

(** [find_conf_oper()] for a user. *)
Definition find_user_oper (client_p : ptr) (login : option string) : M world (option ptr) :=
  u ← user_of client_p;
  sv ← servername_of u;
  find_conf_oper (us_username u) (us_host u) sv login.

Definition find_ignore (client_p : ptr) : M world bool :=
  u ← user_of client_p;
  l ← gets ignore_list;
  mret (existsb (fun ig => negb (match_mask (Some (ig_mask ig)) (us_mask u) =? 0)) l).

(** The ignores and the limits of a user who is not logged in as an operator:
    whether the message is dealt with any further. *)
Definition flood_limit (service_p client_p : ptr) (command : string) : M world bool :=
  u ← user_of client_p;
  match us_oper u with
  | Some _ => mret true
  | None =>
    ignored ← find_ignore client_p;
    skip ← (if negb (ignored : bool) then mret false
            else if negb (strcasecmp command "OLOGIN" =? 0) then mret true
            else o ← find_user_oper client_p None; mret (bool_decide (o = None)));
    if (skip : bool) then mret false else
    w ← get;
    let cf := config_file w in
    _ ← when (us_flood_time u + cf_client_flood_time cf <? rb_time w)
          (upd_user client_p (fun u => u <| us_flood_time := rb_time w |> <| us_flood_count := 0 |>));
    u ← user_of client_p;
    if cf_client_flood_max_ignore cf <? us_flood_count u then
      _ ← add_flood_count client_p 1;
      _ ← upd_service service_p (fun s => s <| sr_ignored_count ::= fun x => uint64 (x + 1) |>);
      mret false
    else
      s ← service_of service_p;
      if (negb (sr_flood_max s =? 0) && (sr_flood_max s <? sr_flood s)) || (cf_client_flood_max cf <? us_flood_count u) then
        _ ← service_err service_p client_p SVC_RATELIMITEDGENERIC [];
        _ ← add_flood_count client_p 1;
        _ ← upd_service service_p (fun s => s <| sr_paced_count ::= fun x => uint64 (x + 1) |>);
        mret false
      else mret true
  end.

(** [ServiceStealth(service_p) && !client_p->user->oper && !is_oper(client_p)]. *)
Definition stealthy (service_p client_p : ptr) : M world bool :=
  s ← service_of service_p;
  u ← user_of client_p;
  mret (has_flag (sr_flags s) SERVICE_STEALTH && bool_decide (us_oper u = None) && negb (is_oper u)).

(** The flags of the operator block of a user, none without a login. *)
Definition oper_field (field : conf_oper → Z) (u : user) : M world (option Z) :=
  match us_oper u with
  | None => mret None
  | Some o => b ← rd conf_opers o; mret (Some (field b))
  end.

(** Whether a command is closed to a user, given the flags of the user's login. *)
Definition closed (u : user) (flags : option Z) (e : service_command) : bool :=
  (scm_operonly e && negb (is_oper u)) ||
  (negb (scm_operflags e =? 0) &&
   match flags with None => true | Some f => Z.land f (scm_operflags e) =? 0 end).

(** ** Help *)
Definition has_cachefile (t : option cachefiles) (client_p : ptr) : M world bool :=
  match t with
  | None => mret false
  | Some t => f ← lang_get_cachefile t client_p; mret (bool_decide (is_Some f))
  end.

(** The names of the commands that are not closed, in a buffer. *)
Fixpoint command_names (u : user) (flags : option Z) (tbl : list service_command) (buf : string) : string :=
  match tbl with
  | [] => buf
  | e :: tbl =>
    command_names u flags tbl
      (if closed u flags e then buf else rb_strlcat BUFSIZE (rb_strlcat BUFSIZE buf (scm_cmd e)) " ")
  end.

Definition handle_service_help_index (service_p client_p : ptr) : M world unit :=
  s ← service_of service_p;
  u ← user_of client_p;
  svc ← rd clients service_p;
  short ← (if has_flag (sr_flags s) SERVICE_SHORTHELP then mret true else
           h ← has_cachefile (sr_help s) client_p;
           if (h : bool) then mret false
           else if bool_decide (us_oper u = None) then mret true
           else a ← has_cachefile (sr_helpadmin s) client_p; mret (negb a));
  if (short : bool) then
    flags ← oper_field oper_flags u;
    let buf := command_names u flags (table (sr_command s)) "" in
    _ ← (if negb (is_empty (Some buf)) then
           _ ← service_err service_p client_p SVC_HELP_INDEXINFO [cl_name svc];
           service_err service_p client_p SVC_HELP_TOPICS [buf]
         else service_err service_p client_p SVC_HELP_UNAVAILABLE []);
    upd_service service_p (fun s => s <| sr_help_count ::= fun x => uint64 (x + 1) |>)
  else
    _ ← add_flood service_p 1;
    h ← need NullDeref (sr_help s);
    f ← lang_get_cachefile h client_p;
    _ ← send_file service_p client_p (default [] f);
    h ← need NullDeref (sr_helpadmin s);
    f ← lang_get_cachefile h client_p;
    match us_oper u, f with
    | Some _, Some lines =>
      _ ← service_err service_p client_p SVC_HELP_INDEXADMIN [];
      send_file service_p client_p lines
    | _, _ => mret tt
    end.

Definition handle_service_help (service_p client_p : ptr) (topic : string) : M world unit :=
  s ← service_of service_p;
  match bsearch topic (table (sr_command s)) with
  | None => service_err service_p client_p SVC_HELP_UNAVAILABLETOPIC [topic]
  | Some (_, e) =>
    u ← user_of client_p;
    h ← has_cachefile (scm_helpfile e) client_p;
    if negb h || (scm_operonly e && negb (is_oper u)) then
      service_err service_p client_p SVC_HELP_UNAVAILABLETOPIC [topic]
    else
      t ← need NullDeref (scm_helpfile e);
      f ← lang_get_cachefile t client_p;
      lines ← need NullDeref f;
      _ ← send_file service_p client_p lines;
      _ ← add_flood service_p (scm_help_penalty e);
      upd_service service_p (fun s => s <| sr_ehelp_count ::= fun x => uint64 (x + 1) |>)
  end.

(** ** Logins of operators *)

(** [OPER_NAME()] for a user, and the name of a user's registration. *)
Definition OPER_NAME (u : user) : M world string :=
  match us_oper u with None => mret "-"%string | Some o => b ← rd conf_opers o; mret (oper_name b) end.
Definition reg_name (u : user) : M world string :=
  match us_user_reg u with None => mret "-"%string | Some r => reg ← rd user_regs r; mret (ur_name reg) end.

(** [watch_send()] of [s_watchserv.c] for a user: a notice to each operator who
    watches. *)
Definition watch_send (flag : Z) (source_p : ptr) (oper : bool) (text : string) : M world unit :=
  let flagname := watch_find_name flag in
  u ← user_of source_p;
  name ← (if oper then OPER_NAME u else reg_name u);
  mask ← need NullDeref (us_mask u);
  foreach oper_list (fun client_p =>
    u ← user_of client_p;
    when (has_flag (us_watchflags u) flag)
      (wp ← gets watchserv_p; watchserv ← need NullDeref wp;
       service_error watchserv client_p
         ("[watch:" ++ flagname ++ "] [" ++ (if oper then "*" else "") ++ name ++ ":" ++ mask ++ "] " ++ str_take (BUFSIZE - 1) text))).

(** A notice of the server to a user. *)
Definition server_notice (client_p : ptr) (text : string) : M world unit :=
  w ← get;
  c ← rd clients client_p;
  sendto_server (":" ++ MYUID w ++ " NOTICE " ++ UID c ++ " :" ++ text).

Definition oper_login (service_p client_p : ptr) (parv : list string) : M world unit :=
  u ← user_of client_p;
  svc ← rd clients service_p;
  match us_oper u with
  | Some _ => server_notice client_p "You are already logged in as an oper"
  | None =>
    if (length parv <? 2)%nat then
      _ ← server_notice client_p ("Insufficient parameters to " ++ cl_name svc ++ "::OLOGIN");
      add_flood_count client_p 1
    else
      login ← arg parv 0;
      oper ← find_user_oper client_p (Some login);
      match oper with
      | None =>
        _ ← server_notice client_p ("No access to " ++ ucase (cl_name svc) ++ "::OLOGIN");
        add_flood_count client_p 1
      | Some oper_p =>
        b ← rd conf_opers oper_p;
        pass ← arg parv 1;
        crpass ← (if ConfOperEncrypted b then need NullDeref (rb_crypt pass (oper_pass b)) else mret pass);
        if negb (strcmp crpass (oper_pass b) =? 0) then server_notice client_p "Invalid password"
        else
          _ ← server_notice client_p "Oper login successful";
          _ ← upd_user client_p (fun u => u <| us_oper := Some oper_p |>);
          _ ← upd_oper oper_p (fun b => b <| oper_refcount ::= Z.add 1 |>);
          _ ← modify (fun w => w <| oper_list ::= rb_dlinkAdd client_p |>);
          watch_send WATCH_AUTH client_p true "has logged in (irc)"
      end
  end.

Definition oper_logout (client_p : ptr) : M world unit :=
  u ← user_of client_p;
  match us_oper u with
  | None =>
    _ ← server_notice client_p "You are not logged in as an oper";
    add_flood_count client_p 1
  | Some oper_p =>
    _ ← watch_send WATCH_AUTH client_p true "has logged out (irc)";
    _ ← deallocate_conf_oper oper_p;
    _ ← upd_user client_p (fun u => u <| us_oper := None |>);
    _ ← modify (fun w => w <| oper_list ::= rb_dlinkFindDestroy client_p |>);
    server_notice client_p "Oper logout successful"
  end.

(** ** The message *)
Section run.
Variable run : ptr → ptr → list string → M world Z.

(** A refusal: the reply and its cost. *)
Definition refuse (service_p client_p : ptr) (msgid : Z) (args : list string) : M world unit :=
  _ ← service_err service_p client_p msgid args;
  _ ← add_flood_count client_p 1;
  add_flood service_p 1.

(** Whether a command for registered users is refused; it is noted in the registration. *)
Definition not_logged_in (client_p : ptr) (e : service_command) : M world bool :=
  if negb (ENABLE_USERSERV && scm_userreg e) then mret false else
  u ← user_of client_p;
  match us_user_reg u with
  | None => mret true
  | Some r =>
    _ ← rd user_regs r;
    now ← gets rb_time;
    _ ← modify (fun w => w <| user_regs ::= alter (fun g =>
          g <| ur_last_time := now |> <| ur_flags ::= fun f => set_flag f US_FLAGS_NEEDUPDATE |>) r |>);
    mret false
  end.

Definition run_command (service_p client_p : ptr) (i : nat) (e : service_command) (parv : list string) : M world unit :=
  svc ← rd clients service_p;
  u ← user_of client_p;
  flags ← oper_field oper_sflags u;
  if closed u flags e then refuse service_p client_p SVC_NOACCESS [cl_name svc; scm_cmd e] else
  out ← not_logged_in client_p e;
  if (out : bool) then refuse service_p client_p SVC_NOTLOGGEDIN [cl_name svc; scm_cmd e] else
  if Z.of_nat (length parv) <? scm_minparc e then
    refuse service_p client_p SVC_NEEDMOREPARAMS [cl_name svc; scm_cmd e]
  else
    _ ← upd_service service_p (fun s => s <| sr_command ::=
          fmap (alter (fun e => e <| scm_cmd_use ::= fun x => uint64 (x + 1) |>) i) |>);
    retval ← match scm_func e with Some f => run f client_p parv | None => mret 0 end;
    _ ← add_flood_count client_p retval;
    add_flood service_p retval.

Definition handle_help (service_p client_p : ptr) (parv : list string) : M world unit :=
  st ← stealthy service_p client_p;
  if (st : bool) then mret tt else
  svc ← rd clients service_p;
  s ← service_of service_p;
  u ← user_of client_p;
  if ENABLE_USERSERV && has_flag (sr_flags s) SERVICE_LOGINHELP && bool_decide (us_user_reg u = None) &&
     bool_decide (us_oper u = None) && negb (is_oper u)
  then service_err service_p client_p SVC_NOTLOGGEDIN [cl_name svc; "HELP"%string]
  else
    _ ← add_flood_count client_p 2;
    _ ← add_flood service_p 2;
    match parv with
    | topic :: _ => if is_empty (Some topic) then handle_service_help_index service_p client_p
                    else handle_service_help service_p client_p topic
    | [] => handle_service_help_index service_p client_p
    end.

Definition same_command (command name : string) : bool := strcasecmp command name =? 0.

Definition handle_service (service_p client_p : ptr) (command : string) (parv : list string) (msg : bool) : M world unit :=
  s ← service_of service_p;
  match sr_command s with
  | None => mret tt
  | Some _ =>
    go ← flood_limit service_p client_p command;
    if negb go then mret tt else
    svc ← rd clients service_p;
    if msg && has_flag (sr_flags s) SERVICE_SHORTCUT then
      st ← stealthy service_p client_p;
      if (st : bool) then mret tt else
      _ ← add_flood_count client_p 1;
      _ ← add_flood service_p 1;
      service_err service_p client_p SVC_USECOMMANDSHORTCUT [cl_name svc]
    else if same_command command "HELP" then handle_help service_p client_p parv
    else if same_command command "OPERLOGIN" || same_command command "OLOGIN" then oper_login service_p client_p parv
    else if same_command command "OPERLOGOUT" || same_command command "OLOGOUT" then oper_logout client_p
    else
      st ← stealthy service_p client_p;
      if (st : bool) then mret tt else
      s ← service_of service_p;
      match bsearch command (table (sr_command s)) with
      | Some (i, e) => run_command service_p client_p i e parv
      | None => refuse service_p client_p SVC_UNKNOWNCOMMAND [cl_name svc; command]
      end
  end.

(** A message to a service: the first word is the command. *)
Definition handle_service_msg (service_p client_p : ptr) (text : string) : M world unit :=
  u ← IsUser client_p;
  if negb u then mret tt else
  match strchr text " " with
  | Some (command, rest) => handle_service service_p client_p command (rb_string_to_array (Some rest) MAXPARA) true
  | None => handle_service service_p client_p text [] true
  end.
End run.
End dispatch.
