(* ===== verification/Scommand.v ===== *)
(** * Lines from the server ([src/scommand.c], [parse_server] of [src/io.c])

    The table of the commands of the server protocol, the dispatch of a line to
    the handler of its command, and the splitting of the line. *)

From S2P Require Import Prelude CString Match Rblib Tools Fault World Lookup ModeBuild Channel ChanCmd ChMode Client.

Definition MAX_SCOMMAND_HASH : Z := 100.
Definition FLAGS_UNKNOWN : Z := 0x0001.

(** A [char], which is signed, as an [int]. *)
Definition int_of_char (c : ascii) : Z := if code c <? 128 then code c else code c - 256.

(** [(int) ( *p) & 0xDF] summed up. *)
Fixpoint hash_command_loop (hash_val : Z) (p : string) : Z :=
  match p with
  | EmptyString => hash_val
  | String c p =>
    if Ascii.eqb c NUL then hash_val
    else hash_command_loop (uint32 (hash_val + Z.land (int_of_char c) 0xDF)) p
  end.

Definition hash_command (p : string) : Z := hash_command_loop 0 p `mod` MAX_SCOMMAND_HASH.

Section scommand.
Context `{Sys}.

Record scommand_handler := ScommandHandler {
  cmd : string;
  func : option ptr → list string → M world unit;
  sc_flags : Z;
  sc_hooks : list (ptr → list string → M world unit)
}.

Notation scommands := (gmap Z (list scommand_handler)).
Definition sbucket (t : scommands) (h : Z) : list scommand_handler := default [] (t !! h).

Definition add_scommand_handler (chandler : scommand_handler) (t : scommands) : scommands :=
  if is_empty (Some (cmd chandler)) then t
  else let hashv := hash_command (cmd chandler) in
       <[hashv := rb_dlinkAdd chandler (sbucket t hashv)]> t.

(** The loop over a bucket: the first handler of the command. *)
Fixpoint first_handler (command : string) (l : list scommand_handler) : option scommand_handler :=
  match l with
  | [] => None
  | handler :: l =>
    if strcasecmp command (cmd handler) =? 0 then Some handler else first_handler command l
  end.

Definition handle_scommand_unknown (t : scommands) (command : string) (parv : list string) : M world unit :=
  match first_handler command (sbucket t (hash_command command)) with
  | None => mret tt
  | Some handler => when (has_flag (sc_flags handler) FLAGS_UNKNOWN) (func handler None parv)
  end.

Fixpoint run_scommand_hooks (l : list (ptr → list string → M world unit)) (client_p : ptr)
    (parv : list string) : M world unit :=
  match l with
  | [] => mret tt
  | hook :: l => _ ← hook client_p parv; run_scommand_hooks l client_p parv
  end.

Definition handle_scommand_client (t : scommands) (client_p : ptr) (command : string) (parv : list string)
    : M world unit :=
  match first_handler command (sbucket t (hash_command command)) with
  | None => mret tt
  | Some handler =>
    _ ← func handler (Some client_p) parv; run_scommand_hooks (sc_hooks handler) client_p parv
  end.

Definition handle_scommand (t : scommands) (source command : string) (parv : list string) : M world unit :=
  c ← find_client source;
  match c with
  | Some client_p => handle_scommand_client t client_p command parv
  | None =>
    w ← get;
    l ← need NullDeref (server_p w);
    match lc_client_p l with
    | None => handle_scommand_unknown t command parv
    | Some _ => mlog ("unknown prefix " ++ source ++ " for command " ++ command)
    end
  end.

(** ** The line *)

(** [if((s = strchr(buf, c))) *s = '\0']. *)
Definition cut_at (c : ascii) (s : string) : string :=
  match strchr s c with Some (p, _) => p | None => s end.

Definition CR : ascii := "013".
Definition LF : ascii := "010".

(** The source of a line, if it names one, and the rest of the line. *)
Definition line_source (ch : string) : option string * string :=
  if Ascii.eqb (deref ch) ":" then
    let ch := tail ch in
    match strchr ch " " with
    | Some (source, s) => (Some source, skip_blanks s)
    | None => (Some ch, ch)
    end
  else (None, ch).

Definition line_command (ch : string) : string * option string :=
  match strchr ch " " with
  | Some (command, s) => (command, Some (skip_blanks s))
  | None => (ch, None)
  end.

(** Source, command and arguments of a line; [name] is that of our uplink. *)
Definition split_line (name buf : string) (len : Z) : option (string * string * list string) :=
  let buf := if Z.of_nat BUFSIZE <? len then str_take (BUFSIZE - 1) buf else buf in
  let ch := skip_blanks (cut_at CR (cut_at LF buf)) in
  let '(source, ch) := line_source ch in
  if is_empty (Some ch) then None
  else
    let '(command, args) := line_command ch in
    Some (default name source, command, rb_string_to_array args MAXPARA).

Definition parse_server (t : scommands) (buf : string) (len : Z) : M world unit :=
  w ← get;
  l ← need NullDeref (server_p w);
  match split_line (lc_name l) buf len with
  | None => mret tt
  | Some (source, command, parv) => handle_scommand t source command parv
  end.

(** ** The handlers of [channel.c], [c_mode.c] and [client.c] *)

(** A handler that is only called for a known client. *)
Definition known (f : ptr → list string → M world unit) : option ptr → list string → M world unit :=
  fun client_p parv => match client_p with Some p => f p parv | None => faulty NullDeref end.

Definition join_command := ScommandHandler "JOIN" (known c_join) 0 [].
Definition kick_command := ScommandHandler "KICK" (known c_kick) 0 [].
Definition part_command := ScommandHandler "PART" (known c_part) 0 [].
Definition sjoin_command := ScommandHandler "SJOIN" (known c_sjoin) 0 [].
Definition tb_command := ScommandHandler "TB" (known c_tb) 0 [].
Definition topic_command := ScommandHandler "TOPIC" (known c_topic) 0 [].
Definition mode_command := ScommandHandler "MODE" (known c_mode) 0 [].
Definition tmode_command := ScommandHandler "TMODE" (known c_tmode) 0 [].
Definition bmask_command := ScommandHandler "BMASK" (known c_bmask) 0 [].
Definition kill_command := ScommandHandler "KILL" (known c_kill) 0 [].
Definition nick_command := ScommandHandler "NICK" (known c_nick) 0 [].
Definition uid_command := ScommandHandler "UID" (known c_uid) 0 [].
Definition quit_command := ScommandHandler "QUIT" (known c_quit) 0 [].
Definition server_command := ScommandHandler "SERVER" c_server FLAGS_UNKNOWN [].
Definition sid_command := ScommandHandler "SID" (known c_sid) 0 [].
Definition squit_command := ScommandHandler "SQUIT" (known c_squit) 0 [].

Definition add_all (l : list scommand_handler) (t : scommands) : scommands :=
  fold_left (fun t h => add_scommand_handler h t) l t.

(** [init_channel()], and [main()] for the commands of [c_mode.c]. *)
Definition channel_commands : list scommand_handler :=
  [join_command; kick_command; part_command; sjoin_command; tb_command; topic_command;
   mode_command; tmode_command; bmask_command].

Definition client_commands : list scommand_handler :=
  [kill_command; nick_command; uid_command; quit_command; server_command; sid_command; squit_command].
End scommand.

(** ** Commands in any case *)
Definition masked (c : ascii) : Z := Z.land (int_of_char c) 0xDF.

Lemma masked_lower c : masked (tolower c) = masked c.
Proof. destruct c as [[] [] [] [] [] [] [] []]; vm_compute; reflexivity. Qed.

Lemma tolower_nul c : Ascii.eqb (tolower c) NUL = Ascii.eqb c NUL.
Proof. destruct c as [[] [] [] [] [] [] [] []]; vm_compute; reflexivity. Qed.

Lemma strcasecmp_cons a s b t :
  strcasecmp (String a s) (String b t) = 0 ↔ tolower a = tolower b ∧ strcasecmp s t = 0.
Proof.
  cbn [strcasecmp]. cbv zeta. destruct (_ =? 0) eqn:E.
  - apply Z.eqb_eq in E. split; [|tauto]. intros. split; [|done]. apply code_inj. lia.
  - apply Z.eqb_neq in E. split; [done|]. intros [E' _]. rewrite E' in E. lia.
Qed.

Lemma code_pos c : c ≠ NUL → 0 < code c.
Proof. intros Hc. pose proof (code_range c). enough (code c ≠ 0) by lia. by rewrite code_NUL. Qed.

Lemma strcasecmp_nil_l b t : Ascii.eqb b NUL = false → strcasecmp "" (String b t) ≠ 0.
Proof.
  intros Hb. simpl. assert (tolower b ≠ NUL) as Hn by (apply Ascii.eqb_neq; by rewrite tolower_nul).
  pose proof (code_pos _ Hn). lia.
Qed.

Lemma strcasecmp_nil_r b t : Ascii.eqb b NUL = false → strcasecmp (String b t) "" ≠ 0.
Proof.
  intros Hb. simpl. assert (tolower b ≠ NUL) as Hn by (apply Ascii.eqb_neq; by rewrite tolower_nul).
  pose proof (code_pos _ Hn). lia.
Qed.

Lemma hash_command_loop_case s : ∀ t h,
  no_nul s = true → no_nul t = true → strcasecmp s t = 0 → hash_command_loop h s = hash_command_loop h t.
Proof.
  induction s as [|a s IH]; intros [|b t] h Hs Ht E.
  - done.
  - simpl in Ht. bool_simpl. by apply strcasecmp_nil_l in E.
  - simpl in Hs. bool_simpl. by apply strcasecmp_nil_r in E.
  - apply strcasecmp_cons in E as [Ec E]. simpl in Hs, Ht. bool_simpl. cbn [hash_command_loop].
    repeat match goal with H : Ascii.eqb _ NUL = false |- _ => rewrite H; clear H end.
    change (Z.land (int_of_char a) 0xDF) with (masked a). change (Z.land (int_of_char b) 0xDF) with (masked b).
    rewrite <- (masked_lower a), Ec, masked_lower. by apply IH.
Qed.

Lemma hash_command_case s t :
  no_nul s = true → no_nul t = true → strcasecmp s t = 0 → hash_command s = hash_command t.
Proof. intros. unfold hash_command. f_equal. by apply hash_command_loop_case. Qed.

Lemma strcasecmp_sym s : ∀ t, strcasecmp s t = 0 → strcasecmp t s = 0.
Proof.
  induction s as [|a s IH]; intros [|b t] E; [done|simpl in *; lia..|].
  apply strcasecmp_cons in E as [? ?]. apply strcasecmp_cons. split; [done|by apply IH].
Qed.

Lemma strcasecmp_trans s : ∀ t u, strcasecmp s t = 0 → strcasecmp t u = 0 →
  no_nul s = true → no_nul t = true → no_nul u = true → strcasecmp s u = 0.
Proof.
  induction s as [|a s IH]; intros [|b t] [|c u] E1 E2 Hs Ht Hu; try done;
    try (simpl in Hs, Ht, Hu; bool_simpl; first [by apply strcasecmp_nil_l in E1|by apply strcasecmp_nil_r in E1
      |by apply strcasecmp_nil_l in E2|by apply strcasecmp_nil_r in E2]).
  apply strcasecmp_cons in E1 as [? ?]. apply strcasecmp_cons in E2 as [? ?]. apply strcasecmp_cons.
  simpl in Hs, Ht, Hu. bool_simpl. split; [congruence|by eapply IH].
Qed.

Section dispatch.
Context `{SYS : Sys} `{RB : !RbSpec}.

Definition names_ok (hs : list scommand_handler) : Prop :=
  Forall (fun h => no_nul (cmd h) = true ∧ cmd h ≠ ""%string) hs.

(** The handlers with a command of the list come after one another under its hash. *)
Lemma sbucket_add h t k :
  no_nul (cmd h) = true → cmd h ≠ ""%string →
  sbucket (add_scommand_handler h t) k =
  if decide (hash_command (cmd h) = k) then h :: sbucket t k else sbucket t k.
Proof.
  intros Hn He. unfold add_scommand_handler. destruct (is_empty _) eqn:E.
  { by apply is_empty_Some in E. }
  cbv zeta. unfold sbucket at 1. case_decide as Ek.
  - subst k. by rewrite lookup_insert_eq, rb_dlinkAdd_spec.
  - by rewrite lookup_insert_ne.
Qed.

(** Of two handlers for one command the one added last is found. *)
Lemma first_handler_all command hs : ∀ t,
  no_nul command = true → names_ok hs →
  first_handler command (sbucket (add_all hs t) (hash_command command)) =
  match first_handler command (rev hs) with
  | Some h => Some h
  | None => first_handler command (sbucket t (hash_command command))
  end.
Proof.
  induction hs as [|h hs IH]; intros t Hc Hok; [done|]. apply Forall_cons in Hok as [[Hn He] Hok].
  change (add_all (h :: hs) t) with (add_all hs (add_scommand_handler h t)). rewrite IH by done.
  assert (∀ l, first_handler command (l ++ [h]) = match first_handler command l with
    | Some x => Some x | None => if strcasecmp command (cmd h) =? 0 then Some h else None end) as Happ.
  { intros l. induction l as [|x l IHl]; [done|]. simpl.
    destruct (strcasecmp command (cmd x) =? 0); [done|exact IHl]. }
  cbn [rev]. rewrite Happ. destruct (first_handler command (rev hs)); [done|].
  rewrite sbucket_add by done. destruct (strcasecmp command (cmd h) =? 0) eqn:E.
  - apply Z.eqb_eq in E as E'. rewrite decide_True; [|symmetry; by apply hash_command_case].
    simpl. by rewrite E.
  - case_decide; [|done]. simpl. by rewrite E.
Qed.

Lemma first_handler_Some command l h : first_handler command l = Some h → h ∈ l ∧ strcasecmp command (cmd h) = 0.
Proof.
  induction l as [|x l IH]; [done|]. simpl. destruct (_ =? 0) eqn:E.
  - intros [= ->]. split; [by left|by apply Z.eqb_eq].
  - intros [? ?]%IH. split; [by right|done].
Qed.

Lemma first_handler_None command l h : first_handler command l = None → h ∈ l → strcasecmp command (cmd h) ≠ 0.
Proof.
  induction l as [|x l IH]; [by intros _ ?%elem_of_nil|]. simpl. destruct (_ =? 0) eqn:E; [done|].
  intros Hl [->|Hin]%elem_of_cons; [by apply Z.eqb_neq|by apply IH].
Qed.

(** No two handlers of the list are for the same command. *)
Definition distinct (hs : list scommand_handler) : Prop :=
  ∀ h h', h ∈ hs → h' ∈ hs → strcasecmp (cmd h) (cmd h') = 0 → h = h'.

(** C30.  The table of commands: after handlers for different commands have been added,
    a command in any mix of cases - and only its own - leads to its handler, although
    the table is searched by a hash of the command as it was typed. *)
Theorem scommand_lookup (hs : list scommand_handler) (command : string) (h : scommand_handler)
  (Hn : names_ok hs) (Hd : distinct hs) (Hc : no_nul command = true) :
  first_handler command (sbucket (add_all hs ∅) (hash_command command)) = Some h ↔
  h ∈ hs ∧ strcasecmp command (cmd h) = 0.
Proof.
  rewrite first_handler_all by done.
  replace (first_handler command (sbucket ∅ _)) with (@None scommand_handler)
    by (unfold sbucket; by rewrite lookup_empty).
  destruct (first_handler command (rev hs)) as [x|] eqn:E.
  - apply first_handler_Some in E as [Hx Ex]. rewrite list_elem_of_In, <- in_rev, <- list_elem_of_In in Hx.
    split; [by intros [= ->]|]. intros [Hh Eh]. f_equal. apply Hd; [done..|].
    unfold names_ok in Hn. rewrite Forall_forall in Hn. destruct (Hn x Hx), (Hn h Hh).
    eapply (strcasecmp_trans _ command); try done. by apply strcasecmp_sym.
  - split; [done|]. intros [Hh Eh]. eapply (first_handler_None command) in E; [done|].
    by rewrite list_elem_of_In, <- in_rev, <- list_elem_of_In.
Qed.
End dispatch.

Lemma scommand_lookup_witness :
  ∃ h, first_handler "tMode" (sbucket (@add_all quiet_sys (@channel_commands quiet_sys) ∅) (hash_command "tMode")) = Some h ∧
       cmd h = "TMODE"%string.
Proof.
  exists (@tmode_command quiet_sys). split; [|reflexivity].
  apply (@scommand_lookup quiet_sys rb_reference_spec (@channel_commands quiet_sys) "tMode" (@tmode_command quiet_sys)).
  - repeat constructor; done.
  - unfold channel_commands. intros h h' Hh Hh'.
    repeat (apply elem_of_cons in Hh as [->|Hh]); [..|by apply elem_of_nil in Hh];
      (repeat (apply elem_of_cons in Hh' as [->|Hh']); [..|by apply elem_of_nil in Hh']);
      first [reflexivity|intros E; vm_compute in E; discriminate E].
  - reflexivity.
  - split; [|reflexivity]. unfold channel_commands. do 7 right. by left.
Defined.
