(* ===== verification/Message.v ===== *)
(** * Messages of users to services ([src/c_message.c], [src/c_error.c], [src/scommand.c])

    PRIVMSG and the [RSMSG] of ENCAP hand a user's text to [handle_service()]; a CTCP
    asks for the partyline, whose connections are in [io.c].  ERROR ends the link. *)

From S2P Require Import Prelude CString Match Rblib Tools Fault World Lookup Service Conf ModeBuild Channel ChanCmd ChMode Client Dispatch Scommand.

Section message.
Context `{Sys}.

(** The first service that is not switched off with this user name. *)
Fixpoint service_of_username (username : string) (l : list ptr) : M world (option ptr) :=
  match l with
  | [] => mret None
  | p :: l =>
    s ← service_of p;
    if has_flag (sr_flags s) SERVICE_DISABLED then service_of_username username l
    else if irccmp username (sr_username s) =? 0 then mret (Some p)
    else service_of_username username l
  end.

(** The service that a message is for: [username@server] or a nick. *)
Definition message_target (target : string) : M world (option ptr) :=
  match strchr target "@" with
  | Some (username, _) => l ← gets service_list; service_of_username username l
  | None => find_service target
  end.

Definition CTCP : ascii := "001".
Definition ctcp_chat : string := String CTCP ("CHAT" ++ String CTCP "").
Definition ctcp_dcc_chat : string := String CTCP "DCC CHAT ".

(** What follows [DCC CHAT]: a word, the host and the port up to the closing \001. *)
Definition dcc_offer (p : string) : option (string * string) :=
  match strchr p " " with
  | None => None
  | Some (_, rest) =>
    match strchr rest " " with
    | None => None
    | Some (host, cport) =>
      if has_char cport " " then None else
      match strchr cport CTCP with Some (cport, _) => Some (host, cport) | None => None end
    end
  end.

Definition ctcp_message (target_p client_p : ptr) (text : string) : M world unit :=
  let chat := strncasecmp text ctcp_chat 6 =? 0 in
  if negb chat && negb (strncasecmp text ctcp_dcc_chat 10 =? 0) then mret tt else
  oper ← find_user_oper client_p None;
  dcc ← match oper with
        | None => mret None
        | Some o => b ← rd conf_opers o; mret (if ConfOperDcc b then Some o else None)
        end;
  match dcc with
  | None => server_notice client_p "No access."
  | Some oper_p =>
    if (chat : bool) then
      target ← rd clients target_p; dcc_chat client_p oper_p (DccFrom (cl_name target))
    else
      match dcc_offer (str_drop 10 text) with
      | None => server_notice client_p "Invalid dcc parameters"
      | Some (host, cport) =>
        let port := atoi cport in
        if port <=? 1024 then server_notice client_p "Invalid dcc port"
        else dcc_chat client_p oper_p (DccTo host port)
      end
  end.

Definition c_message (client_p : ptr) (parv : list string) : M world unit :=
  if (length parv <? 2)%nat then mret tt else
  a1 ← argv parv 1;
  if is_empty a1 then mret tt else
  target ← arg parv 0;
  target_p ← message_target target;
  match target_p with
  | None => mret tt
  | Some target_p =>
    text ← str a1;
    if Ascii.eqb (deref text) CTCP then ctcp_message target_p client_p text
    else handle_service_msg command_func target_p client_p text
  end.

(** ** ENCAP *)

(** [(p = strstr(s, t))] and [*(p + strlen(t))]: the character after the first [t] in [s]. *)
Fixpoint strstr (s t : string) : option string :=
  if bool_decide (str_take (strlen t) s = t) then Some s
  else match s with EmptyString => None | String _ s' => strstr s' t end.

Definition after_cap (caps cap : string) : option ascii :=
  match strstr caps cap with Some p => Some (deref (str_drop (strlen cap) p)) | None => None end.

Definition c_encap (client_p : ptr) (parv : list string) : M world unit :=
  if (length parv <? 2)%nat then mret tt else
  mask ← arg parv 0;
  w ← get;
  if negb (matches mask (cf_name (config_file w))) then mret tt else
  sub ← arg parv 1;
  if irccmp sub "LOGIN" =? 0 then
    a2 ← argv parv 2;
    u ← (if is_empty a2 then mret false else IsUser client_p);
    if negb u then mret tt else
    name ← str a2;
    _ ← hook_call HOOK_USERSERV_LOGIN_BURST (HookPtr client_p) (Text name); mret tt
  else if irccmp sub "GCAP" =? 0 then
    a2 ← argv parv 2;
    s ← (if is_empty a2 then mret false else IsServer client_p);
    if negb s then mret tt else
    caps ← str a2;
    match after_cap caps "RSFNC" with
    | Some c => when (Ascii.eqb c NUL || Ascii.eqb c " ")
                  (upd_client client_p (fun c => c <| cl_flags ::= fun f => set_flag f FLAGS_RSFNC |>))
    | None => mret tt
    end
  else if irccmp sub "RSMSG" =? 0 then
    u ← (if (length parv <? 4)%nat then mret false else IsUser client_p);
    if negb u then mret tt else
    name ← arg parv 2;
    service ← find_service name;
    match service with
    | None => mret tt
    | Some service_p =>
      command ← arg parv 3;
      handle_service command_func service_p client_p command (drop 4 parv) false
    end
  else mret tt.

(** ** ERROR *)
Definition c_error (client_p : option ptr) (parv : list string) : M world unit :=
  if (length parv <? 1)%nat then mret tt else
  a0 ← argv parv 0;
  if is_empty a0 then mret tt else
  text ← str a0;
  w ← get;
  l ← need NullDeref (server_p w);
  _ ← mlog ("Connection to server " ++ lc_name l ++ " error: (" ++ text ++ ")");
  signoff_server.

(** ** The table's entries *)
Definition privmsg_command := ScommandHandler "PRIVMSG" (known c_message) 0 [].
Definition encap_command := ScommandHandler "ENCAP" (known c_encap) 0 [].
Definition error_command := ScommandHandler "ERROR" c_error FLAGS_UNKNOWN [].

Definition message_commands : list scommand_handler := [privmsg_command; encap_command; error_command].
End message.
