(* ===== verification/Queries.v ===== *)
(** * Commands of the link and queries ([src/scommand.c], second part)

    The handlers that [scommand.c] itself has for the link - CAPAB, PASS, PING and
    PONG - and for what users ask of us as of any server: ADMIN, TRACE, VERSION,
    TIME and WHOIS.  ENCAP, which hands its commands on to the services, is in
    [Message]; STATS, which prints the configuration, is not modelled.
    [sendto_all()], the notice to the DCC partyline, has no state here. *)

From S2P Require Import Prelude CString Match Rblib Tools Rserv Fault World Lookup Channel Service Client Scommand.

Section queries.
Context `{Sys}.

(** A numeric to a user: [:%s NUM %s] and the rest. *)
Definition numeric (num : string) (client_p : ptr) (rest : string) : M world unit :=
  w ← get;
  c ← rd clients client_p;
  sendto_server (":" ++ MYUID w ++ " " ++ num ++ " " ++ UID c ++ " " ++ rest).

(** [if(parc < 1 || EmptyString(parv[0])) return;] *)
Definition no_argument (parv : list string) : M world bool :=
  if (length parv <? 1)%nat then mret true else a0 ← argv parv 0; mret (is_empty a0).

Definition admin_line (num : string) (client_p : ptr) (line : option string) : M world unit :=
  match line with
  | Some l => when (negb (is_empty (Some l))) (numeric num client_p (":" ++ l))
  | None => mret tt
  end.

Definition c_admin (client_p : ptr) (parv : list string) : M world unit :=
  e ← no_argument parv;
  if (e : bool) then mret tt else
  u ← IsUser client_p;
  if negb u then mret tt else
  cf ← gets config_file;
  _ ← numeric "256" client_p (":Administrative info about " ++ cf_name cf);
  _ ← admin_line "257" client_p (cf_admin1 cf);
  _ ← admin_line "258" client_p (cf_admin2 cf);
  admin_line "259" client_p (cf_admin3 cf).

Definition capab_table : list (string * Z) :=
  [("SERVICES", CONN_CAP_SERVICE); ("RSFNC", CONN_CAP_RSFNC); ("TB", CONN_CAP_TB)]%string.

(** The first entry of that name. *)
Fixpoint capab_flag (data : string) (table : list (string * Z)) : option Z :=
  match table with
  | [] => None
  | (name, flag) :: table => if irccmp name data =? 0 then Some flag else capab_flag data table
  end.

Fixpoint capab_loop (words : list string) : M world unit :=
  match words with
  | [] => mret tt
  | data :: words =>
    _ ← match capab_flag data capab_table with
        | Some flag => upd_server_p (fun l => l <| lc_flags ::= fun f => set_flag f flag |>)
        | None => mret tt
        end;
    capab_loop words
  end.

Definition c_capab (client_p : option ptr) (parv : list string) : M world unit :=
  if (length parv <? 1)%nat then mret tt else
  match client_p with
  | Some _ => mret tt
  | None => a0 ← arg parv 0; capab_loop (split_on " " (rb_strlcpy BUFSIZE a0))
  end.

(** The link fails: a line to the log, and the server is signed off. *)
Definition refuse_server (why : string) : M world unit :=
  w ← get;
  l ← need NullDeref (server_p w);
  _ ← mlog ("Connection to server " ++ lc_name l ++ " failed: (" ++ why ++ ")");
  signoff_server.

Definition c_pass (client_p : option ptr) (parv : list string) : M world unit :=
  if (length parv <? 2)%nat then mret tt else
  match client_p with
  | Some _ => mret tt
  | None =>
    w ← get;
    l ← need NullDeref (server_p w);
    pass ← arg parv 0;
    if negb (strcmp (lc_pass l) pass =? 0) then refuse_server "Password mismatch" else
    ts ← arg parv 1;
    if negb (strcasecmp ts "TS" =? 0) then refuse_server "Protocol mismatch" else
    _ ← upd_server_p (fun l => l <| lc_flags ::= fun f => set_flag f CONN_TS |>);
    sid ← (if (3 <? length parv)%nat then
             version ← arg parv 2;
             if 6 <=? atoi version then
               sid ← arg parv 3;
               mret (if negb (is_empty (Some sid)) && valid_sid sid then Some sid else None)
             else mret None
           else mret None);
    match sid with
    | Some sid => upd_server_p (fun l => l <| lc_sid := Some sid |>)
    | None => refuse_server "TS6 required"
    end
  end.

Definition c_ping (client_p : ptr) (parv : list string) : M world unit :=
  e ← no_argument parv;
  if (e : bool) then mret tt else
  w ← get;
  c ← rd clients client_p;
  sendto_server (":" ++ MYUID w ++ " PONG " ++ MYUID w ++ " :" ++ UID c).

(** [clear_client_oper_sid()] of [conf.c]: the entries that it does not free stay. *)
Fixpoint clear_entries (sid : string) (l : list client_oper) : M world (list client_oper) :=
  match l with
  | [] => mret []
  | e :: l =>
    if irccmp (co_sid e) sid =? 0 then _ ← deallocate_conf_oper (co_oper e); clear_entries sid l
    else l' ← clear_entries sid l; mret (e :: l')
  end.

Definition clear_client_oper_sid (client_p : ptr) : M world unit :=
  c ← rd clients client_p;
  entries ← gets client_oper_list;
  rest ← clear_entries (cl_uid c) entries;
  modify (fun w => w <| client_oper_list := rest |>).

Definition finished_bursting (w : world) : bool :=
  match server_p w with Some l => has_flag (lc_flags l) CONN_FLAGS_EOB | None => false end.

Definition c_pong (client_p : ptr) (parv : list string) : M world unit :=
  e ← no_argument parv;
  if (e : bool) then mret tt else
  s ← IsServer client_p;
  if negb s then mret tt else
  w ← get;
  _ ← when (negb (finished_bursting w))
        (l ← need NullDeref (server_p w);
         _ ← mlog ("Connection to server " ++ lc_name l ++ " completed");
         _ ← upd_server_p (fun l => l <| lc_flags ::= fun f => set_flag f CONN_FLAGS_EOB |>);
         hook HOOK_EOB_UPLINK HookNull);
  c ← rd clients client_p;
  when (negb (has_flag (cl_flags c) FLAGS_EOB))
    (_ ← upd_client client_p (fun c => c <| cl_flags ::= fun f => set_flag f FLAGS_EOB |>);
     _ ← hook HOOK_EOB_SERVER (HookPtr client_p);
     clear_client_oper_sid client_p).

Definition trace_line (service_p : ptr) (client_p : ptr) : M world unit :=
  s ← service_of service_p;
  if has_flag (sr_flags s) SERVICE_DISABLED then mret tt else
  c ← rd clients service_p;
  let opered := has_flag (sr_flags s) SERVICE_OPERED in
  numeric (if opered then "204" else "205") client_p
    ((if opered then "Oper" else "User") ++ " service " ++ cl_name c ++ "[" ++ sr_username s ++ "@" ++
     sr_host s ++ "] (127.0.0.1) 0 0").

Definition c_trace (client_p : ptr) (parv : list string) : M world unit :=
  e ← no_argument parv;
  if (e : bool) then mret tt else
  u ← IsUser client_p;
  if negb u then mret tt else
  _ ← foreach service_list (fun service_p => trace_line service_p client_p);
  w ← get;
  l ← need NullDeref (server_p w);
  let me := cf_name (config_file w) in
  _ ← numeric "206" client_p ("Serv uplink 1S 1C " ++ lc_name l ++ " *!*@" ++ me ++ " 0");
  numeric "262" client_p (me ++ " :End of /TRACE").

Definition c_version (client_p : ptr) (parv : list string) : M world unit :=
  e ← no_argument parv;
  if (e : bool) then mret tt else
  u ← IsUser client_p;
  cf ← gets config_file;
  when u (numeric "351" client_p
    ("ratbox-services-" ++ RSERV_VERSION ++ "(" ++ SERIALNUM ++ "). " ++ cf_name cf ++ " A TS")).

Definition c_time (client_p : ptr) (parv : list string) : M world unit :=
  e ← no_argument parv;
  if (e : bool) then mret tt else
  u ← IsUser client_p;
  now ← gets rb_time;
  when u (numeric "391" client_p (rb_date now)).

(** What WHOIS says of a user, and of one of our services. *)
Definition whois_user (client_p target_p : ptr) (t : client) (u : user) : M world unit :=
  _ ← numeric "311" client_p (cl_name t ++ " " ++ us_username u ++ " " ++ us_host u ++ " * :" ++ cl_info t);
  home ← rd clients (us_servername u);
  up ← need NullDeref (cl_uplink t);
  uplink ← rd clients up;
  _ ← numeric "312" client_p (cl_name t ++ " " ++ cl_name home ++ " :" ++ cl_info uplink);
  _ ← when (has_flag (us_umode u) CLIENT_OPER) (numeric "313" client_p (cl_name t ++ " :is an IRC Operator"));
  match us_user_reg u with
  | Some r =>
    if ENABLE_USERSERV then
      reg ← rd user_regs r; numeric "330" client_p (cl_name t ++ " " ++ ur_name reg ++ " :is logged in as")
    else mret tt
  | None => mret tt
  end.

Definition whois_service (client_p : ptr) (t : client) : M world unit :=
  s ← need NullDeref (cl_service t);
  cf ← gets config_file;
  _ ← numeric "311" client_p (cl_name t ++ " " ++ sr_username s ++ " " ++ sr_host s ++ " * :" ++ cl_info t);
  _ ← numeric "312" client_p (cl_name t ++ " " ++ cf_name cf ++ " :" ++ cf_gecos cf);
  when (has_flag (sr_flags s) SERVICE_OPERED) (numeric "313" client_p (cl_name t ++ " :is an IRC Operator")).

(** The last line names the target, whether or not there is one. *)
Definition c_whois (client_p : ptr) (parv : list string) : M world unit :=
  if (length parv <? 2)%nat then mret tt else
  a1 ← argv parv 1;
  if is_empty a1 then mret tt else
  u ← IsUser client_p;
  if negb u then mret tt else
  name ← str a1;
  target ← find_client name;
  _ ← match target with
      | None => numeric "401" client_p (name ++ " :No such nick/channel")
      | Some target_p =>
        t ← rd clients target_p;
        match cl_server t, cl_user t with
        | Some _, _ => numeric "401" client_p (name ++ " :No such nick/channel")
        | None, Some u => whois_user client_p target_p t u
        | None, None => whois_service client_p t
        end
      end;
  target_p ← need NullDeref target;
  t ← rd clients target_p;
  numeric "318" client_p (cl_name t ++ " :End of /WHOIS list.").

Definition admin_command := ScommandHandler "ADMIN" (known c_admin) 0 [].
Definition capab_command := ScommandHandler "CAPAB" c_capab FLAGS_UNKNOWN [].
Definition pass_command := ScommandHandler "PASS" c_pass FLAGS_UNKNOWN [].
Definition ping_command := ScommandHandler "PING" (known c_ping) 0 [].
Definition pong_command := ScommandHandler "PONG" (known c_pong) 0 [].
Definition trace_command := ScommandHandler "TRACE" (known c_trace) 0 [].
Definition version_command := ScommandHandler "VERSION" (known c_version) 0 [].
Definition time_command := ScommandHandler "TIME" (known c_time) 0 [].
Definition whois_command := ScommandHandler "WHOIS" (known c_whois) 0 [].

(** [init_scommand()]. *)
Definition link_commands : list scommand_handler :=
  [admin_command; capab_command; pass_command; ping_command; pong_command; trace_command;
   version_command; time_command; whois_command].
End queries.
