(* ===== verification/Link.v ===== *)
(** * The connection to the uplink ([src/io.c])

    What becomes of the connection: the lines that are sent once it is made, the
    loop over the lines that were read, the checks of its state that run every few
    seconds, and the freeing of the clients that exited.  The sockets and the
    buffers of lines are libratbox's; [sendto_all()] has no state here. *)

From S2P Require Import Prelude CString Match Rblib Tools Fault World Lookup Service Client Scommand.

Section link.
Context `{Sys}.

Definition CONN_CONNECTING_TIMEOUT : Z := 30.
Definition CONN_HANDSHAKE_TIMEOUT : Z := 60.

(** [signon_server()]: [read_server()], which it ends with, is [reads] here. *)
Definition signon_server (reads : M world unit) : M world unit :=
  _ ← upd_server_p (fun l => l <| lc_flags ::= fun f => set_flag (clear_flag f CONN_CONNECTING) CONN_HANDSHAKE |>);
  w ← get;
  l ← need NullDeref (server_p w);
  let cf := config_file w in
  _ ← sendto_server ("PASS " ++ lc_pass l ++ " TS 6 " ++ cf_sid cf);
  w ← get;
  l ← need NullDeref (server_p w);
  if ConnDead l then mret tt else
  _ ← mlog ("Connection to server " ++ lc_name l ++ " established");
  _ ← sendto_server "CAPAB :QS TB EX IE ENCAP SERVICES";
  _ ← sendto_server ("SERVER " ++ cf_name cf ++ " 1 :" ++ cf_gecos cf);
  reads.

(** [IsDead(conn_p)]: the flag of a client, asked of a connection. *)
Definition IsDead (l : lconn) : bool := has_flag (lc_flags l) FLAGS_DEAD.

(** The loop of [read_server()] over the lines in the buffer, each with its length. *)
Fixpoint read_lines (t : gmap Z (list scommand_handler)) (lines : list (string * Z)) : M world unit :=
  match lines with
  | [] => mret tt
  | (buf, len) :: lines =>
    w ← get;
    l ← need NullDeref (server_p w);
    if (len <=? 0) || IsDead l then mret tt else
    _ ← parse_server t buf len;
    w ← get;
    l ← need NullDeref (server_p w);
    if IsDead l then mret tt else read_lines t lines
  end.

(** After [read_any()]. *)
Definition read_server (t : gmap Z (list scommand_handler)) (lines : list (string * Z)) : M world unit :=
  w ← get;
  l ← need NullDeref (server_p w);
  if IsDead l then mret tt else
  _ ← upd_server_p (fun l => l <| lc_flags ::= fun f => clear_flag f CONN_SENTPING |>);
  read_lines t lines.

(** [server_p->client_p != NULL && IsDead(server_p->client_p)]. *)
Definition uplink_dead (l : lconn) : M world bool :=
  match lc_client_p l with
  | None => mret false
  | Some p => c ← rd clients p; mret (has_flag (cl_flags c) FLAGS_DEAD)
  end.

Definition lose_server (why : string) : M world unit :=
  w ← get;
  l ← need NullDeref (server_p w);
  _ ← mlog ("Connection to server " ++ lc_name l ++ why);
  signoff_server.

Definition check_server_status : M world unit :=
  w ← get;
  match server_p w with
  | None => mret tt
  | Some l =>
    let now := rb_time w in
    let ping := cf_ping_time (config_file w) in
    let on f := has_flag (lc_flags l) f in
    if negb (ConnDead l) then
      gone ← uplink_dead l;
      if (gone : bool) then lose_server " lost: (Server exited)"
      else if on CONN_CONNECTING && (lc_first_time l + CONN_CONNECTING_TIMEOUT <=? now) then lose_server " timed out"
      else if on CONN_HANDSHAKE && (lc_first_time l + CONN_HANDSHAKE_TIMEOUT <=? now) then lose_server " timed out"
      else if on CONN_SENTPING && (lc_last_time l + ping * 2 <=? now) then lose_server " lost: (Ping timeout)"
      else when (negb (on CONN_SENTPING) && (lc_last_time l + ping <=? now))
        (_ ← sendto_server ("PING :" ++ MYUID w);
         upd_server_p (fun l => l <| lc_flags ::= fun f => set_flag f CONN_SENTPING |>))
    else
      _ ← match lc_client_p l with
          | None => mret tt
          | Some p =>
            c ← rd clients p;
            when (negb (has_flag (cl_flags c) FLAGS_DEAD)) (exit_client p false)
          end;
      modify (fun w => w <| server_p := None |>)
  end.

(** The clients of [cleanup_exited_clients()]; the DCC connections are left out. *)
Fixpoint free_clients (l : list ptr) : M world unit :=
  match l with
  | [] => mret tt
  | p :: l => _ ← free_client p; free_clients l
  end.

Definition cleanup_exited_clients : M world unit :=
  l ← gets exited_list;
  _ ← free_clients l;
  modify (fun w => w <| exited_list := [] |>).
End link.
