(* ===== verification/Net.v ===== *)
(** * The network state and what leaves it alone

    [same_net w w'] says that two states agree on the users, servers, channels and
    memberships, on the tables and lists that index them and on the hooks; they may
    differ in what was sent and logged, in the line being built and in the services'
    own data.  A computation that only leads to such states is [quiet].

    [QuietHooks] is what the handlers rely on of those hooks of the services (the
    [s_*.c] files) that send lines and keep data of their own: the ones called in
    the middle of a change to the network, and the ones about users who come or
    change their nick. *)

From S2P Require Import Prelude CString Match Rblib Tools Fault World Lookup ModeBuild Channel.

Section net.
Context `{Sys}.

Record same_net (w w' : world) : Prop := SameNet {
  sn_clients : clients w' = clients w;
  sn_channels : channels w' = channels w;
  sn_members : members w' = members w;
  sn_user_regs : user_regs w' = user_regs w;
  sn_conf_opers : conf_opers w' = conf_opers w;
  sn_name_table : name_table w' = name_table w;
  sn_uid_table : uid_table w' = uid_table w;
  sn_user_list : user_list w' = user_list w;
  sn_oper_list : oper_list w' = oper_list w;
  sn_server_list : server_list w' = server_list w;
  sn_exited_list : exited_list w' = exited_list w;
  sn_channel_table : channel_table w' = channel_table w;
  sn_channel_list : channel_list w' = channel_list w;
  sn_deopped_list : deopped_list w' = deopped_list w;
  sn_opped_list : opped_list w' = opped_list w;
  sn_voiced_list : voiced_list w' = voiced_list w;
  sn_ban_list : ban_list w' = ban_list w;
  sn_service_list : service_list w' = service_list w;
  sn_client_opers : client_oper_list w' = client_oper_list w;
  sn_config : config_file w' = config_file w;
  sn_time : rb_time w' = rb_time w;
  sn_hooks : hooks w' = hooks w;
  sn_conf_list : conf_oper_list w' = conf_oper_list w;
  sn_watchserv : watchserv_p w' = watchserv_p w;
  sn_uplink : lc_client_p <$> server_p w' = lc_client_p <$> server_p w
}.

#[global] Instance same_net_equiv : Equivalence same_net.
Proof.
  split.
  - intros w. by split.
  - intros w w' []. by split.
  - intros w w' w'' [] []. split; congruence.
Qed.

Definition quiet {A} (m : M world A) (w : world) : Prop := wp m (fun _ w' => same_net w w') w.

Lemma quiet_ret {A} (a : A) w : quiet (mret a) w.
Proof. by apply wp_ret. Qed.

Lemma quiet_bind {A B} (m : M world A) (k : A → M world B) w :
  quiet m w → (∀ a w', same_net w w' → quiet (k a) w') → quiet (mbind k m) w.
Proof.
  intros Hm Hk. apply wp_bind. eapply wp_conseq; [exact Hm|]. simpl. intros a w' Hw.
  eapply wp_conseq; [by apply Hk|]. simpl. intros. by etrans.
Qed.

Lemma quiet_gets {A} (f : world → A) w : quiet (gets f) w.
Proof. by apply wp_gets. Qed.
Lemma quiet_get w : quiet get w.
Proof. by apply (wp_gets (fun s => s)). Qed.
Lemma quiet_die {A} why w : quiet (die why : M world A) w.
Proof. apply wp_die. Qed.
Lemma quiet_when (b : bool) m w : (b = true → quiet m w) → quiet (when b m) w.
Proof. intros Hm. apply wp_when; [done|]. by intros. Qed.
Lemma quiet_modify f w : same_net w (f w) → quiet (modify f) w.
Proof. intros. by apply wp_modify. Qed.

Lemma quiet_rd {T} (heap : world → gmap ptr T) p w : is_Some (heap w !! p) → quiet (rd heap p) w.
Proof.
  intros [x E]. unfold quiet, rd. wp_steps. eapply wp_need; [exact E|]. done.
Qed.

Lemma quiet_mlog s w : quiet (mlog s) w.
Proof. by apply quiet_modify. Qed.

Lemma quiet_s_assert b w : quiet (s_assert b) w.
Proof.
  unfold s_assert. destruct b; [apply quiet_ret|]. destruct soft_assert; [apply quiet_mlog|apply quiet_die].
Qed.

Lemma quiet_sendto_server s w : quiet (sendto_server s) w.
Proof.
  unfold quiet, sendto_server. wp_steps; try done. split; simpl; try done.
  by repeat match goal with E : server_p _ = _ |- _ => rewrite E end.
Qed.

(** A read of memory that is there. *)
Lemma wp_rd {T} (heap : world → gmap ptr T) p x Q w : heap w !! p = Some x → Q x w → wp (rd heap p) Q w.
Proof. intros E HQ. unfold rd. wp_steps. by eapply wp_need. Qed.

Lemma keeps_rd {B} (f : world → B) {T} (heap : world → gmap ptr T) p : keeps f (rd heap p).
Proof. unfold rd. keeps_tac. Qed.

Lemma wp_user_of p c u Q w :
  clients w !! p = Some c → cl_user c = Some u → Q u w → wp (user_of p) Q w.
Proof. intros E Eu HQ. unfold user_of. apply wp_bind. eapply wp_rd; [done|]. by eapply wp_need. Qed.

Lemma wp_server_of p c u Q w :
  clients w !! p = Some c → cl_server c = Some u → Q u w → wp (server_of p) Q w.
Proof. intros E Eu HQ. unfold server_of. apply wp_bind. eapply wp_rd; [done|]. by eapply wp_need. Qed.

Lemma wp_upd_client p c f Q w :
  clients w !! p = Some c → Q tt (w <| clients ::= alter f p |>) → wp (upd_client p f) Q w.
Proof. intros E HQ. unfold upd_client. apply wp_bind. eapply wp_rd; [done|]. by apply wp_modify. Qed.

Lemma wp_upd_channel p c f Q w :
  channels w !! p = Some c → Q tt (w <| channels ::= alter f p |>) → wp (upd_channel p f) Q w.
Proof. intros E HQ. unfold upd_channel. apply wp_bind. eapply wp_rd; [done|]. by apply wp_modify. Qed.

Lemma wp_upd_member p c f Q w :
  members w !! p = Some c → Q tt (w <| members ::= alter f p |>) → wp (upd_member p f) Q w.
Proof. intros E HQ. unfold upd_member. apply wp_bind. eapply wp_rd; [done|]. by apply wp_modify. Qed.

Lemma wp_upd_user p c u f Q w :
  clients w !! p = Some c → cl_user c = Some u →
  Q tt (w <| clients ::= alter (fun c => c <| cl_user ::= fmap f |>) p |>) → wp (upd_user p f) Q w.
Proof.
  intros E Eu HQ. unfold upd_user. apply wp_bind. eapply wp_user_of; [done..|]. by eapply wp_upd_client.
Qed.

Lemma wp_upd_server p c u f Q w :
  clients w !! p = Some c → cl_server c = Some u →
  Q tt (w <| clients ::= alter (fun c => c <| cl_server ::= fmap f |>) p |>) → wp (upd_server p f) Q w.
Proof.
  intros E Eu HQ. unfold upd_server. apply wp_bind. eapply wp_server_of; [done..|]. by eapply wp_upd_client.
Qed.

Lemma wp_service_of p c u Q w :
  clients w !! p = Some c → cl_service c = Some u → Q u w → wp (service_of p) Q w.
Proof. intros E Eu HQ. unfold service_of. apply wp_bind. eapply wp_rd; [done|]. by eapply wp_need. Qed.
Lemma wp_upd_service p c u f Q w :
  clients w !! p = Some c → cl_service c = Some u →
  Q tt (w <| clients ::= alter (fun c => c <| cl_service ::= fmap f |>) p |>) → wp (upd_service p f) Q w.
Proof.
  intros E Eu HQ. unfold upd_service. apply wp_bind. eapply wp_service_of; [done..|]. by eapply wp_upd_client.
Qed.

(** ** Hooks *)

(** The hooks about a user who connects or changes nick. *)
Definition client_hook (h : Z) : Prop :=
  h = HOOK_CLIENT_CONNECT ∨ h = HOOK_CLIENT_CONNECT_BURST ∨ h = HOOK_CLIENT_NICKCHANGE.

(** The calls made in the middle of a change, and those whose hooks only send. *)
Definition mid_change (w : world) (h : Z) (a : hook_arg) : Prop :=
  h = HOOK_CHANNEL_OPLESS ∨ h = HOOK_CLIENT_EXIT ∨ h = HOOK_CLIENT_EXIT_SPLIT ∨
  h = HOOK_SERVER_EXIT ∨ h = HOOK_SERVER_EXIT_WARNING ∨
  (client_hook h ∧ ∃ p c u, a = HookPtr p ∧ clients w !! p = Some c ∧ cl_user c = Some u) ∨
  (h = HOOK_PROTO_SQUIT_UNKNOWN ∧ ∃ name, a = HookName name) ∨
  (h = HOOK_CHANNEL_DESTROY ∧
   ∃ p ch, a = HookPtr p ∧ channels w !! p = Some ch ∧ channel_empty ch = true).

Class QuietHooks : Prop :=
  quiet_hook w h a f l :
    mid_change w h a → f ∈ bucket (hooks w) h → quiet (hook_func f a l) w.

Lemma mid_change_same w w' h a : same_net w w' → mid_change w h a → mid_change w' h a.
Proof.
  intros Hw. unfold mid_change. by rewrite (sn_channels w w' Hw), (sn_clients w w' Hw).
Qed.

Lemma quiet_hook_run `{!QuietHooks} h a fs : ∀ w l,
  mid_change w h a → (∀ f, f ∈ fs → f ∈ bucket (hooks w) h) → quiet (hook_run fs a l) w.
Proof.
  induction fs as [|f fs IH]; intros w l Hmid Hfs; [apply quiet_ret|].
  cbn [hook_run]. apply quiet_bind.
  - apply (quiet_hook w h); [done|]. apply Hfs. by left.
  - intros [r l'] w' Hw. simpl. destruct (r <? 0); [apply quiet_ret|].
    apply IH; [by eapply mid_change_same|]. rewrite (sn_hooks w w' Hw). intros g Hg. apply Hfs. by right.
Qed.

Lemma quiet_hook_call `{!QuietHooks} w h a l : mid_change w h a → quiet (hook_call h a l) w.
Proof.
  intros Hmid. unfold hook_call. destruct (HOOK_LAST_HOOK <=? h); [apply quiet_ret|].
  unfold quiet. wp_steps. by apply (quiet_hook_run h).
Qed.

Lemma quiet_hook1 `{!QuietHooks} w h a : mid_change w h a → quiet (hook h a) w.
Proof.
  intros Hmid. unfold hook. apply quiet_bind; [by apply quiet_hook_call|]. intros. apply quiet_ret.
Qed.

(** A quiet computation in front of others: they start from the same network. *)
Lemma wp_quiet {A} (m : M world A) Q w :
  quiet m w → (∀ a w', same_net w w' → Q a w') → wp m Q w.
Proof. intros Hm HQ. eapply wp_conseq; [exact Hm|]. auto. Qed.
End net.
#[export] Hint Resolve keeps_rd : keeps.

Create HintDb quiet.
#[export] Hint Resolve quiet_ret quiet_gets quiet_get quiet_die quiet_mlog quiet_s_assert
  quiet_sendto_server : quiet.
