(* ===== verification/Members.v ===== *)
(** * The invariant of channels and members

    What holds of the channel table, of the memberships and of the services inside
    channels between any two commands, and that the operations of [channel.c] keep
    it and do not fault.  An intrusive list is described by [lists l P]: it has no
    duplicates and consists of the addresses that satisfy [P]. *)

From S2P Require Import Prelude CString Match Rblib Tools Fault World Lookup ModeBuild Channel Net.

Definition lists (l : list ptr) (P : ptr → Prop) : Prop := NoDup l ∧ ∀ x, x ∈ l ↔ P x.

Lemma lists_iff l P Q : (∀ x, P x ↔ Q x) → lists l P → lists l Q.
Proof. intros Heq [Hnd Hl]. split; [done|]. intros x. by rewrite Hl. Qed.

Lemma lists_nil (P : ptr → Prop) : (∀ x, ¬ P x) → lists [] P.
Proof. intros HP. split; [constructor|]. intros x. rewrite elem_of_nil. split; [done|apply HP]. Qed.

Section lists.
Context `{RbSpec}.

Lemma lists_add l P x : lists l P → ¬ P x → lists (rb_dlinkAdd x l) (fun y => P y ∨ y = x).
Proof.
  intros [Hnd Hl] Hx. rewrite rb_dlinkAdd_spec. split.
  - constructor; [by rewrite Hl|done].
  - intros y. rewrite elem_of_cons, Hl. tauto.
Qed.

Lemma lists_delete l P x : lists l P → P x → lists (rb_dlinkDelete x l) (fun y => P y ∧ y ≠ x).
Proof.
  intros [Hnd Hl] Hx. rewrite rb_dlinkDelete_spec by (by rewrite Hl). split.
  - by apply NoDup_remove_first.
  - intros y. by rewrite elem_of_remove_first, Hl.
Qed.

Lemma lists_destroy l P x : lists l P → lists (rb_dlinkFindDestroy x l) (fun y => P y ∧ y ≠ x).
Proof.
  intros [Hnd Hl]. rewrite rb_dlinkFindDestroy_spec. split.
  - by apply NoDup_remove_first.
  - intros y. by rewrite elem_of_remove_first, Hl.
Qed.

Lemma lists_move from to P Q x :
  lists from P → lists to Q → P x → ¬ Q x →
  lists (rb_dlinkMoveNode x from to).1 (fun y => P y ∧ y ≠ x) ∧
  lists (rb_dlinkMoveNode x from to).2 (fun y => Q y ∨ y = x).
Proof.
  intros [Hnd Hl] [Hnd' Hl'] Hx Hx'.
  destruct (rb_dlinkMoveNode_spec x from to) as [E1 E2]; [by rewrite Hl|]. split; split.
  - rewrite E1. by apply NoDup_remove_first.
  - intros y. rewrite E1. by rewrite elem_of_remove_first, Hl.
  - rewrite E2. constructor; [by rewrite Hl'|done].
  - intros y. rewrite E2, elem_of_cons, Hl'. tauto.
Qed.

Lemma lists_move_all from to P Q :
  lists from P → lists to Q → (∀ x, P x → ¬ Q x) →
  (rb_dlinkMoveList from to).1 = [] ∧
  lists (rb_dlinkMoveList from to).2 (fun y => P y ∨ Q y).
Proof.
  intros [Hnd Hl] [Hnd' Hl'] Hx. destruct (rb_dlinkMoveList_spec from to) as [E1 E2].
  split; [done|]. split.
  - rewrite E2. apply NoDup_app. split_and!; [done| |done]. intros x Hin. rewrite Hl'.
    apply Hx. by apply Hl.
  - intros y. by rewrite E2, elem_of_app, Hl, Hl'.
Qed.
End lists.

(** ** Buckets *)
Lemma bucket_upd h f t h' :
  bucket (upd_bucket h f t) h' = if decide (h = h') then f (bucket t h) else bucket t h'.
Proof.
  unfold bucket, upd_bucket. case_decide as E.
  - subst. by rewrite lookup_insert_eq.
  - by rewrite lookup_insert_ne.
Qed.

(** A table that files the addresses [x] with [P x h] under [h]. *)
Definition indexed (t : gmap Z (list ptr)) (P : ptr → Z → Prop) : Prop :=
  ∀ h, lists (bucket t h) (fun x => P x h).

Lemma indexed_iff t P Q : (∀ x h, P x h ↔ Q x h) → indexed t P → indexed t Q.
Proof. intros Heq Ht h. eapply lists_iff; [|apply Ht]. intros. apply Heq. Qed.

Lemma indexed_add `{RbSpec} t P x h :
  indexed t P → ¬ P x h →
  indexed (upd_bucket h (rb_dlinkAdd x) t) (fun y h' => P y h' ∨ (y = x ∧ h' = h)).
Proof.
  intros Ht Hx h'. rewrite bucket_upd. case_decide as E; [subst h'|].
  - eapply lists_iff; [|by apply lists_add; [apply Ht|]]. intros y. simpl. naive_solver.
  - eapply lists_iff; [|apply Ht]. intros y. simpl. naive_solver.
Qed.

Lemma indexed_delete `{RbSpec} t P x h :
  indexed t P → P x h → (∀ h', P x h' → h' = h) →
  indexed (upd_bucket h (rb_dlinkDelete x) t) (fun y h' => P y h' ∧ y ≠ x).
Proof.
  intros Ht Hx Hfun h'. rewrite bucket_upd. case_decide as E; [subst h'|].
  - apply lists_delete; [apply Ht|done].
  - eapply lists_iff; [|apply Ht]. intros y. simpl. split; [|tauto]. intros Hy. split; [done|].
    intros ->. by apply E, eq_sym, Hfun.
Qed.

Section invariant.
Context `{Sys}.

(** ** The invariant *)

(** The channel list and the channel table hold exactly the channels, under the
    hash of their name; names are unique up to case. *)
Record chans_ok (w : world) : Prop := ChansOk {
  chan_list : lists (channel_list w) (fun p => is_Some (channels w !! p));
  chan_table : indexed (channel_table w)
    (fun p h => ∃ ch, channels w !! p = Some ch ∧ hash_channel (ch_name ch) = h);
  chan_name p ch : channels w !! p = Some ch → no_nul (ch_name ch) = true;
  chan_unique p q ch ch' :
    channels w !! p = Some ch → channels w !! q = Some ch' → irccmp (ch_name ch) (ch_name ch') = 0 → p = q
}.

Definition member_with (w : world) (P : chmember → Prop) (m : ptr) : Prop :=
  ∃ mb, members w !! m = Some mb ∧ P mb.

Definition in_channel (p : ptr) (mb : chmember) : Prop := mb_chptr mb = p.
Definition of_client (c : ptr) (mb : chmember) : Prop := mb_client_p mb = c.

(** Every membership ties a channel to a user and is in the lists of both; the
    users of a channel are split by their status; nobody is in a channel twice. *)
Record membs_ok (w : world) : Prop := MembsOk {
  memb_channel m mb : members w !! m = Some mb → is_Some (channels w !! mb_chptr mb);
  memb_user m mb : members w !! m = Some mb →
    ∃ c u, clients w !! mb_client_p mb = Some c ∧ cl_user c = Some u;
  memb_users p ch : channels w !! p = Some ch → lists (ch_users ch) (member_with w (in_channel p));
  memb_opped p ch : channels w !! p = Some ch →
    lists (ch_users_opped ch) (member_with w (fun mb => in_channel p mb ∧ is_opped mb = true));
  memb_unopped p ch : channels w !! p = Some ch →
    lists (ch_users_unopped ch) (member_with w (fun mb => in_channel p mb ∧ is_opped mb = false));
  memb_channels c cl u : clients w !! c = Some cl → cl_user cl = Some u →
    lists (us_channels u) (member_with w (of_client c));
  memb_unique m m' mb mb' : members w !! m = Some mb → members w !! m' = Some mb' →
    mb_chptr mb = mb_chptr mb' → mb_client_p mb = mb_client_p mb' → m = m'
}.

(** A service is in a channel's list exactly if the channel is in the service's. *)
Record servs_ok (w : world) : Prop := ServsOk {
  serv_services p ch : channels w !! p = Some ch →
    lists (ch_services ch) (fun s => ∃ c sv, clients w !! s = Some c ∧ cl_service c = Some sv ∧ p ∈ sr_channels sv);
  serv_channels s c sv : clients w !! s = Some c → cl_service c = Some sv →
    lists (sr_channels sv) (fun p => ∃ ch, channels w !! p = Some ch ∧ s ∈ ch_services ch)
}.

Record chan_inv (w : world) : Prop := ChanInv {
  inv_chans : chans_ok w;
  inv_membs : membs_ok w;
  inv_servs : servs_ok w
}.

Lemma chan_inv_same w w' : same_net w w' → chan_inv w → chan_inv w'.
Proof.
  intros [] [[] [] []]. split; split; unfold indexed, member_with in *; intros *;
    repeat match goal with E : _ w' = _ w |- _ => rewrite E; clear E end; eauto.
Qed.

(** The users of a channel are its opped and its unopped members. *)
Lemma users_split w p ch :
  membs_ok w → channels w !! p = Some ch → ch_users ch ≡ₚ ch_users_opped ch ++ ch_users_unopped ch.
Proof.
  intros Hw Hp. destruct (memb_users w Hw p ch Hp) as [Hn Hu].
  destruct (memb_opped w Hw p ch Hp) as [Hno Ho]. destruct (memb_unopped w Hw p ch Hp) as [Hnu Huu].
  apply NoDup_Permutation; [done| |].
  - apply NoDup_app. split_and!; [done| |done]. intros m Hm Hm'.
    apply Ho in Hm as (mb & E & _ & E1). apply Huu in Hm' as (mb' & E' & _ & E2). congruence.
  - intros m. rewrite elem_of_app, Hu, Ho, Huu. unfold member_with. split.
    + intros (mb & E & Hc). destruct (is_opped mb) eqn:Eo; [left|right]; eauto.
    + intros [(mb & E & Hc & _)|(mb & E & Hc & _)]; eauto.
Qed.
End invariant.

(** ** Lookups *)
Lemma find_first_heap {S T} (heap : S → gmap ptr T) (t : T → bool) (test : ptr → M S bool) l w :
  (∀ p x, heap w !! p = Some x → test p w = Ok (t x) w) →
  (∀ p, p ∈ l → is_Some (heap w !! p)) →
  ∃ r, find_first test l w = Ok r w ∧
    match r with
    | Some p => p ∈ l ∧ ∃ x, heap w !! p = Some x ∧ t x = true
    | None => ∀ p x, p ∈ l → heap w !! p = Some x → t x = false
    end.
Proof.
  intros Htest. induction l as [|p l IH]; intros Hl.
  { exists None. split; [done|]. intros p x Hp. by apply elem_of_nil in Hp. }
  destruct (Hl p) as [x Ex]; [by left|]. cbn [find_first].
  rewrite (bind_ok _ _ _ _ _ (Htest p x Ex)). destruct (t x) eqn:Et.
  { exists (Some p). split; [done|]. split; [by left|by exists x]. }
  destruct IH as (r & Er & Hr); [by intros; apply Hl; right|]. exists r. split; [done|].
  destruct r as [q|]; [destruct Hr as [? ?]; by split; [right|]|].
  intros q y [->|Hq]%elem_of_cons Ey; [congruence|by eapply Hr].
Qed.

Section operations.
Context `{SYS : Sys} `{RB : !RbSpec} `{QH : !QuietHooks}.

Definition find_channel_spec (name : string) (w : world) (r : option ptr) : Prop :=
  match r with
  | Some p => ∃ ch, channels w !! p = Some ch ∧ irccmp (ch_name ch) name = 0
  | None => ∀ p ch, channels w !! p = Some ch → irccmp (ch_name ch) name ≠ 0
  end.

Lemma find_channel_ok w name :
  chans_ok w → no_nul name = true →
  ∃ r, find_channel name w = Ok r w ∧ find_channel_spec name w r.
Proof.
  intros Hw Hn. unfold find_channel. erewrite bind_ok by done.
  destruct (find_first_heap channels (fun ch => irccmp (ch_name ch) name =? 0) (channel_is name)
    (bucket (channel_table w) (hash_channel name)) w) as (r & Er & Hr).
  - intros p ch E. unfold channel_is, rd. erewrite bind_ok; [|erewrite bind_ok by done; by rewrite E]. done.
  - intros p Hp. apply (chan_table w Hw) in Hp as (ch & E & _). by exists ch.
  - exists r. split; [done|]. destruct r as [p|]; simpl.
    + destruct Hr as (_ & ch & E & Hc). exists ch. split; [done|]. by apply Z.eqb_eq.
    + intros p ch E Hc. pose proof (chan_name w Hw p ch E) as Hcn.
      specialize (Hr p ch). rewrite (proj2 (Z.eqb_eq _ _) Hc) in Hr. enough (true = false) by done.
      apply Hr; [|done]. apply (chan_table w Hw). exists ch. split; [done|]. by apply hash_channel_irccmp.
Qed.

Lemma wp_find_channel w name (Q : option ptr → world → Prop) :
  chans_ok w → no_nul name = true → (∀ r, find_channel_spec name w r → Q r w) → wp (find_channel name) Q w.
Proof.
  intros Hw Hn HQ. destruct (find_channel_ok w name Hw Hn) as (r & E & Hr).
  apply (wp_ok _ _ _ _ _ E). by apply HQ.
Qed.

(** Members are looked up in the shorter of the two lists. *)
Lemma wp_find_chmember w chptr target_p ch cl u (Q : option ptr → world → Prop) :
  membs_ok w → channels w !! chptr = Some ch → clients w !! target_p = Some cl → cl_user cl = Some u →
  (∀ r, match r with
        | Some m => member_with w (fun mb => in_channel chptr mb ∧ of_client target_p mb) m
        | None => ∀ m, ¬ member_with w (fun mb => in_channel chptr mb ∧ of_client target_p mb) m
        end → Q r w) →
  wp (find_chmember chptr target_p) Q w.
Proof.
  intros Hw Hch Hcl Hu HQ. unfold find_chmember. apply wp_bind. eapply wp_rd; [done|].
  apply wp_bind. eapply wp_user_of; [done..|].
  pose proof (memb_users w Hw chptr ch Hch) as [_ H1]. pose proof (memb_channels w Hw target_p cl u Hcl Hu) as [_ H2].
  destruct (_ <? _)%nat.
  - destruct (find_first_heap members (fun m => bool_decide (mb_client_p m = target_p))
      (fun p => m ← rd members p; mret (bool_decide (mb_client_p m = target_p))) (ch_users ch) w) as (r & Er & Hr).
    + intros p m E. unfold rd. erewrite bind_ok; [|erewrite bind_ok by done; by rewrite E]. done.
    + intros p Hp. apply H1 in Hp as (mb & E & _). by exists mb.
    + apply (wp_ok _ _ _ _ _ Er). apply HQ. destruct r as [m|].
      * destruct Hr as (Hm & mb & E & Ht). apply bool_decide_eq_true in Ht. apply H1 in Hm as (mb' & E' & Hc).
        exists mb. split; [done|]. split; [|done]. by simplify_eq.
      * intros m (mb & E & Hc & Ho). specialize (Hr m mb). rewrite bool_decide_true in Hr by done.
        discriminate Hr; [|done]. apply H1. by exists mb.
  - destruct (find_first_heap members (fun m => bool_decide (mb_chptr m = chptr))
      (fun p => m ← rd members p; mret (bool_decide (mb_chptr m = chptr))) (us_channels u) w) as (r & Er & Hr).
    + intros p m E. unfold rd. erewrite bind_ok; [|erewrite bind_ok by done; by rewrite E]. done.
    + intros p Hp. apply H2 in Hp as (mb & E & _). by exists mb.
    + apply (wp_ok _ _ _ _ _ Er). apply HQ. destruct r as [m|].
      * destruct Hr as (Hm & mb & E & Ht). apply bool_decide_eq_true in Ht. apply H2 in Hm as (mb' & E' & Hc).
        exists mb. split; [done|]. split; [done|]. by simplify_eq.
      * intros m (mb & E & Hc & Ho). specialize (Hr m mb). rewrite bool_decide_true in Hr by done.
        discriminate Hr; [|done]. apply H2. by exists mb.
Qed.
End operations.

(** ** What the operations do to the network *)
Section effects.
Context `{SYS : Sys}.

Definition drop_channel (p : ptr) (name : string) (w : world) : world :=
  w <| channel_table ::= upd_bucket (hash_channel name) (rb_dlinkDelete p) |>
    <| channel_list ::= rb_dlinkDelete p |>
    <| channels ::= delete p |>.

(** The user's and the channel's side of a membership, and the membership. *)
Definition upd_user_channels (f : list ptr → list ptr) (c : client) : client :=
  c <| cl_user ::= fmap (fun u => u <| us_channels ::= f |>) |>.

Definition leave (m : ptr) (opped : bool) (ch : channel) : channel :=
  let ch := ch <| ch_users ::= rb_dlinkDelete m |> in
  if opped then ch <| ch_users_opped ::= rb_dlinkDelete m |>
  else ch <| ch_users_unopped ::= rb_dlinkDelete m |>.

Definition enter (m : ptr) (opped : bool) (ch : channel) : channel :=
  let ch := ch <| ch_users ::= rb_dlinkAdd m |> in
  if opped then ch <| ch_users_opped ::= rb_dlinkAdd m |>
  else ch <| ch_users_unopped ::= rb_dlinkAdd m |>.

Definition remove_member (m : ptr) (mb : chmember) (w : world) : world :=
  w <| channels ::= alter (leave m (is_opped mb)) (mb_chptr mb) |>
    <| clients ::= alter (upd_user_channels (rb_dlinkDelete m)) (mb_client_p mb) |>
    <| members ::= delete m |>.

Definition insert_member (m : ptr) (mb : chmember) (w : world) : world :=
  w <| channels ::= alter (enter m (is_opped mb)) (mb_chptr mb) |>
    <| clients ::= alter (upd_user_channels (rb_dlinkAdd m)) (mb_client_p mb) |>
    <| members ::= <[m := mb]> |>.

(** A channel that nobody is left in goes with its last member. *)
Definition after_leave (p : ptr) (w : world) : world :=
  match channels w !! p with
  | Some ch => if channel_empty ch then drop_channel p (ch_name ch) w else w
  | None => w
  end.

Lemma same_net_drop p name w w' : same_net w w' → same_net (drop_channel p name w) (drop_channel p name w').
Proof. intros []. split; simpl; congruence. Qed.
End effects.

Section preservation.
Context `{SYS : Sys} `{RB : !RbSpec} `{QH : !QuietHooks}.

Lemma wp_free_channel w p ch :
  channels w !! p = Some ch → channel_empty ch = true →
  wp (free_channel p) (fun _ w' => same_net (drop_channel p (ch_name ch) w) w') w.
Proof.
  intros Hp He. unfold free_channel. apply wp_bind. eapply wp_quiet.
  { apply quiet_hook1. repeat right. split; [done|]. by exists p, ch. }
  intros _ w1 Hw1. assert (channels w1 !! p = Some ch) as Hp1 by (by rewrite (sn_channels w w1 Hw1)).
  apply wp_bind. unfold del_channel. apply wp_bind. eapply wp_rd; [done|]. apply wp_modify.
  apply wp_bind. eapply wp_rd; [done|]. apply wp_modify. by apply same_net_drop.
Qed.

Lemma channel_empty_true ch : channel_empty ch = true ↔ ch_users ch = [] ∧ ch_services ch = [].
Proof.
  unfold channel_empty. destruct (ch_users ch), (ch_services ch); simpl; split; naive_solver.
Qed.

Lemma chan_inv_drop w p ch :
  chan_inv w → channels w !! p = Some ch → channel_empty ch = true →
  chan_inv (drop_channel p (ch_name ch) w).
Proof.
  intros [Hc Hm Hs] Hp He. apply channel_empty_true in He as [Hu Hsv].
  assert (∀ m mb, members w !! m = Some mb → mb_chptr mb ≠ p) as Hnone.
  { intros m mb E <-. pose proof (memb_users w Hm _ ch Hp) as [_ Hl]. rewrite Hu in Hl.
    apply (not_elem_of_nil m). apply Hl. by exists mb. }
  split; split; simpl.
  - eapply lists_iff; [|apply lists_delete; [apply Hc|by exists ch]]. intros q. simpl.
    destruct (decide (q = p)) as [->|]; [rewrite lookup_delete_eq|rewrite lookup_delete_ne by done].
    + split; [intros [_ ?]; done|intros [? ?]; done].
    + tauto.
  - eapply indexed_iff; [|apply indexed_delete; [apply Hc|by exists ch|]].
    + intros q h. simpl. destruct (decide (q = p)) as [->|]; [rewrite lookup_delete_eq|rewrite lookup_delete_ne by done].
      * split; [intros [_ ?]; done|intros (? & ? & _); done].
      * tauto.
    + intros h (ch' & E & <-). by simplify_eq.
  - intros q ch'. rewrite lookup_delete_Some. intros [_ E]. by eapply (chan_name w Hc).
  - intros q q' ch1 ch2. rewrite !lookup_delete_Some. intros [_ E1] [_ E2]. by eapply (chan_unique w Hc).
  - intros m mb E. rewrite lookup_delete_ne by (by apply not_eq_sym, (Hnone m)). by eapply (memb_channel w Hm).
  - by apply (memb_user w Hm).
  - intros q ch'. rewrite lookup_delete_Some. intros [_ E]. by apply (memb_users w Hm).
  - intros q ch'. rewrite lookup_delete_Some. intros [_ E]. by apply (memb_opped w Hm).
  - intros q ch'. rewrite lookup_delete_Some. intros [_ E]. by apply (memb_unopped w Hm).
  - by apply (memb_channels w Hm).
  - by apply (memb_unique w Hm).
  - intros q ch'. rewrite lookup_delete_Some. intros [_ E]. by apply (serv_services w Hs).
  - intros s c sv E Ev. eapply lists_iff; [|by apply (serv_channels w Hs s c sv)]. intros q. simpl.
    destruct (decide (q = p)) as [->|]; [rewrite lookup_delete_eq|by rewrite lookup_delete_ne by done].
    split; [|intros (? & ? & _); done]. intros (ch' & E' & Hin). simplify_eq. rewrite Hsv in Hin.
    by apply elem_of_nil in Hin.
Qed.
End preservation.

Lemma lookup_alter_iff {K A} `{Countable K} (f : A → A) (p q : K) (h : gmap K A) y :
  alter f p h !! q = Some y ↔ ∃ x, h !! q = Some x ∧ y = if decide (p = q) then f x else x.
Proof.
  rewrite lookup_alter. case_decide as E.
  - subst. rewrite fmap_Some. naive_solver.
  - naive_solver.
Qed.

Lemma lookup_alter_is_Some {K A} `{Countable K} (f : A → A) (p q : K) (h : gmap K A) :
  is_Some (alter f p h !! q) ↔ is_Some (h !! q).
Proof.
  split.
  - intros [y (x & E & _)%lookup_alter_iff]. by exists x.
  - intros [x E]. eexists. apply lookup_alter_iff. by exists x.
Qed.

Section members.
Context `{SYS : Sys} `{RB : !RbSpec} `{QH : !QuietHooks}.

(** The fields of a channel that an operation on its members leaves alone. *)
Record same_frame (ch ch' : channel) : Prop := SameFrame {
  sf_name : ch_name ch' = ch_name ch;
  sf_services : ch_services ch' = ch_services ch
}.

Lemma leave_frame m o ch : same_frame ch (leave m o ch).
Proof. by destruct o. Qed.
Lemma enter_frame m o ch : same_frame ch (enter m o ch).
Proof. by destruct o. Qed.

(** The table of channels depends on their names only. *)
Lemma chans_ok_names w w' p f :
  (∀ ch, ch_name (f ch) = ch_name ch) → channels w' = alter f p (channels w) →
  channel_table w' = channel_table w → channel_list w' = channel_list w →
  chans_ok w → chans_ok w'.
Proof.
  intros Hf Ec Et El [Hl Ht Hn Hu].
  assert (∀ q ch', channels w' !! q = Some ch' → ∃ ch, channels w !! q = Some ch ∧ ch_name ch' = ch_name ch) as Hback.
  { intros q ch'. rewrite Ec, lookup_alter_iff. intros (ch & E & ->). exists ch. split; [done|].
    case_decide; [apply Hf|done]. }
  split.
  - rewrite El. eapply lists_iff; [|exact Hl]. intros q. by rewrite Ec, lookup_alter_is_Some.
  - rewrite Et. eapply indexed_iff; [|exact Ht]. intros q h. simpl. split.
    + intros (ch & E & <-). rewrite Ec. eexists. split; [apply lookup_alter_iff; by exists ch|].
      case_decide; [|done]. f_equal. apply Hf.
    + intros (ch & (ch0 & E & En)%Hback & <-). exists ch0. by rewrite En.
  - intros q ch (ch0 & E & ->)%Hback. by eapply Hn.
  - intros q q' ch1 ch2 (c1 & E1 & ->)%Hback (c2 & E2 & ->)%Hback. by eapply Hu.
Qed.

(** The channel table and the services do not depend on members: any change of the
    channels that keeps their frames, and of the users' lists, keeps both. *)
Lemma chans_ok_alter w w' p f :
  (∀ ch, same_frame ch (f ch)) → channels w' = alter f p (channels w) →
  channel_table w' = channel_table w → channel_list w' = channel_list w →
  chans_ok w → chans_ok w'.
Proof. intros Hf. apply chans_ok_names. intros ch. apply Hf. Qed.

Lemma servs_ok_alter w w' p f c g :
  (∀ ch, same_frame ch (f ch)) → (∀ cl, cl_service (g cl) = cl_service cl) →
  channels w' = alter f p (channels w) → clients w' = alter g c (clients w) →
  servs_ok w → servs_ok w'.
Proof.
  intros Hf Hg Ec El [Hs Hc].
  assert (∀ q ch', channels w' !! q = Some ch' ↔ ∃ ch, channels w !! q = Some ch ∧ ch' = if decide (p = q) then f ch else ch) as Hch
    by (intros; by rewrite Ec, lookup_alter_iff).
  assert (∀ s cl', clients w' !! s = Some cl' ↔ ∃ cl, clients w !! s = Some cl ∧ cl' = if decide (c = s) then g cl else cl) as Hcl
    by (intros; by rewrite El, lookup_alter_iff).
  assert (∀ q ch, ch_services (if decide (p = q) then f ch else ch) = ch_services ch) as Es
    by (intros; case_decide; [apply Hf|done]).
  assert (∀ s cl, cl_service (if decide (c = s) then g cl else cl) = cl_service cl) as Ev
    by (intros; case_decide; [apply Hg|done]).
  split.
  - intros q ch' (ch & E & ->)%Hch. rewrite Es. eapply lists_iff; [|by apply Hs]. intros s. split.
    + intros (cl & sv & E1 & E2 & Hin). eexists _, sv. split; [apply Hcl; by exists cl|]. by rewrite Ev.
    + intros (cl' & sv & (cl & E1 & ->)%Hcl & E2 & Hin). rewrite Ev in E2. by exists cl, sv.
  - intros s cl' sv (cl & E & ->)%Hcl E2. rewrite Ev in E2. eapply lists_iff; [|by eapply Hc]. intros q. split.
    + intros (ch & E1 & Hin). eexists. split; [apply Hch; by exists ch|]. by rewrite Es.
    + intros (ch' & (ch & E1 & ->)%Hch & Hin). rewrite Es in Hin. by exists ch.
Qed.

Lemma member_with_delete w w' m P x :
  members w' = delete m (members w) → member_with w' P x ↔ member_with w P x ∧ x ≠ m.
Proof.
  intros Em. unfold member_with. rewrite Em. split.
  - intros (mb & E & HP). rewrite lookup_delete_Some in E. destruct E. split; [by exists mb|done].
  - intros [(mb & E & HP) Hx]. exists mb. by rewrite lookup_delete_ne by done.
Qed.

Lemma lists_exclude l P (m : ptr) : lists l P → ¬ P m → lists l (fun x => P x ∧ x ≠ m).
Proof. intros Hl Hm. eapply lists_iff; [|exact Hl]. intros x. split; [|tauto]. intros Hx. split; [done|by intros ->]. Qed.

Lemma member_with_not w m mb (P : chmember → Prop) :
  members w !! m = Some mb → ¬ P mb → ¬ member_with w P m.
Proof. intros E HP (mb' & E' & HP'). by simplify_eq. Qed.

(** The three lists of a channel after a member has left. *)
Lemma leave_users m o ch : ch_users (leave m o ch) = rb_dlinkDelete m (ch_users ch).
Proof. by destruct o. Qed.
Lemma leave_opped m o ch :
  ch_users_opped (leave m o ch) = if o then rb_dlinkDelete m (ch_users_opped ch) else ch_users_opped ch.
Proof. by destruct o. Qed.
Lemma leave_unopped m o ch :
  ch_users_unopped (leave m o ch) = if o then ch_users_unopped ch else rb_dlinkDelete m (ch_users_unopped ch).
Proof. by destruct o. Qed.

Lemma chan_inv_remove w m mb :
  chan_inv w → members w !! m = Some mb → chan_inv (remove_member m mb w).
Proof.
  intros [Hc Hm Hs] Em. split.
  - eapply chans_ok_alter; [apply (leave_frame m (is_opped mb))|done..].
  - set (w' := remove_member m mb w).
    assert (∀ P x, member_with w' P x ↔ member_with w P x ∧ x ≠ m) as Hmw
      by (intros; by apply member_with_delete).
    split.
    + intros x xb. simpl. rewrite lookup_delete_Some, lookup_alter_is_Some. intros [_ E].
      by eapply (memb_channel w Hm).
    + intros x xb. simpl. rewrite lookup_delete_Some. intros [_ E].
      destruct (memb_user w Hm x xb E) as (c & u & E1 & E2).
      exists (if decide (mb_client_p mb = mb_client_p xb) then upd_user_channels (rb_dlinkDelete m) c else c).
      case_decide.
      * exists (u <| us_channels ::= rb_dlinkDelete m |>). split; [|simpl; by rewrite E2].
        apply lookup_alter_iff. exists c. by rewrite decide_True.
      * exists u. split; [|done]. apply lookup_alter_iff. exists c. by rewrite decide_False.
    + intros p ch'. simpl. rewrite lookup_alter_iff. intros (ch & E & ->).
      eapply lists_iff; [intros x; symmetry; apply Hmw|]. case_decide as Ep.
      * subst p. rewrite leave_users. apply lists_delete; [by apply (memb_users w Hm)|by exists mb].
      * apply lists_exclude; [by apply (memb_users w Hm)|]. by eapply member_with_not.
    + intros p ch'. simpl. rewrite lookup_alter_iff. intros (ch & E & ->).
      eapply lists_iff; [intros x; symmetry; apply Hmw|]. pose proof (memb_opped w Hm p ch E) as Hl.
      case_decide as Ep; [subst p; rewrite leave_opped; destruct (is_opped mb) eqn:Eo|].
      * apply lists_delete; [done|by exists mb].
      * apply lists_exclude; [done|]. eapply member_with_not; [done|]. intros [_ ?]. congruence.
      * apply lists_exclude; [done|]. eapply member_with_not; [done|]. by intros [? _].
    + intros p ch'. simpl. rewrite lookup_alter_iff. intros (ch & E & ->).
      eapply lists_iff; [intros x; symmetry; apply Hmw|]. pose proof (memb_unopped w Hm p ch E) as Hl.
      case_decide as Ep; [subst p; rewrite leave_unopped; destruct (is_opped mb) eqn:Eo|].
      * apply lists_exclude; [done|]. eapply member_with_not; [done|]. intros [_ ?]. congruence.
      * apply lists_delete; [done|by exists mb].
      * apply lists_exclude; [done|]. eapply member_with_not; [done|]. by intros [? _].
    + intros c cl' u'. simpl. rewrite lookup_alter_iff. intros (cl & E & ->) Eu.
      eapply lists_iff; [intros x; symmetry; apply Hmw|]. case_decide as Ec.
      * subst c. simpl in Eu. destruct (cl_user cl) as [u|] eqn:Eu0; [|done]. injection Eu as <-.
        simpl. apply lists_delete; [by apply (memb_channels w Hm _ cl)|by exists mb].
      * apply lists_exclude; [by apply (memb_channels w Hm _ cl)|]. by eapply member_with_not.
    + intros x y xb yb. simpl. rewrite !lookup_delete_Some. intros [_ E1] [_ E2]. by apply (memb_unique w Hm).
  - eapply servs_ok_alter; [apply (leave_frame m (is_opped mb))| |done..]. done.
Qed.
End members.

Section del_chmember.
Context `{SYS : Sys} `{RB : !RbSpec} `{QH : !QuietHooks}.

(** The network after both lists and before the membership itself is freed. *)
Definition unlinked (m : ptr) (mb : chmember) (w : world) : world :=
  w <| channels ::= alter (leave m (is_opped mb)) (mb_chptr mb) |>
    <| clients ::= alter (upd_user_channels (rb_dlinkDelete m)) (mb_client_p mb) |>.

Definition unlinked_user (m : ptr) (mb : chmember) (w : world) : world :=
  w <| channels ::= alter (fun ch => ch <| ch_users ::= rb_dlinkDelete m |>) (mb_chptr mb) |>
    <| clients ::= alter (upd_user_channels (rb_dlinkDelete m)) (mb_client_p mb) |>.

Lemma wp_unlink w m mb ch (Q : unit → world → Prop) :
  channels w !! mb_chptr mb = Some ch →
  (∀ w', same_net (unlinked m mb w) w' → Q tt w') →
  wp (if is_opped mb then
        _ ← upd_channel (mb_chptr mb) (fun ch => ch <| ch_users_opped ::= rb_dlinkDelete m |>);
        ch ← rd channels (mb_chptr mb);
        when (is_nil (ch_users_opped ch)) (hook HOOK_CHANNEL_OPLESS (HookPtr (mb_chptr mb)))
      else upd_channel (mb_chptr mb) (fun ch => ch <| ch_users_unopped ::= rb_dlinkDelete m |>)) Q
    (unlinked_user m mb w).
Proof.
  intros Ech HQ. set (w2 := unlinked_user m mb w).
  assert (channels w2 !! mb_chptr mb = Some (ch <| ch_users ::= rb_dlinkDelete m |>)) as E2.
  { apply lookup_alter_iff. exists ch. by rewrite decide_True. }
  assert (∀ f, (∀ ch, leave m (is_opped mb) ch = f (ch <| ch_users ::= rb_dlinkDelete m |>)) →
    same_net (unlinked m mb w) (w2 <| channels ::= alter f (mb_chptr mb) |>)) as Hs.
  { intros f Hf. split; try done. apply map_eq. intros p. simpl. rewrite !lookup_alter. case_decide; [|done].
    rewrite decide_True by done. destruct (channels w !! mb_chptr mb) as [ch0|]; [|done].
    simpl. by rewrite Hf. }
  destruct (is_opped mb).
  - apply wp_bind. eapply wp_upd_channel; [exact E2|]. specialize (Hs _ (fun _ => eq_refl)).
    set (w3 := w2 <| channels ::= _ |>) in *.
    assert (is_Some (channels w3 !! mb_chptr mb)) as [ch3 E3] by (by apply lookup_alter_is_Some; eexists).
    apply wp_bind. eapply wp_rd; [exact E3|]. apply wp_when; [|by intros; apply HQ]. intros _.
    eapply wp_quiet; [apply quiet_hook1; by left|]. intros [] w4 Hw4. apply HQ. by etrans.
  - eapply wp_upd_channel; [exact E2|]. by apply HQ, Hs.
Qed.

Lemma same_net_delete m w w' : same_net w w' → same_net (w <| members ::= delete m |>) (w' <| members ::= delete m |>).
Proof. intros []. split; simpl; congruence. Qed.

(** [del_chmember()] does not fault, and takes the membership out of the network,
    together with its channel if nobody is left in it. *)
Lemma wp_del_chmember w m mb :
  chan_inv w → members w !! m = Some mb →
  wp (del_chmember m) (fun _ w' => same_net (after_leave (mb_chptr mb) (remove_member m mb w)) w') w.
Proof.
  intros Hw Em. pose proof Hw as [_ Hm _].
  destruct (memb_channel w Hm m mb Em) as [ch Ech].
  destruct (memb_user w Hm m mb Em) as (cl & u & Ecl & Eu).
  unfold del_chmember. apply wp_bind. eapply wp_rd; [done|]. cbv zeta.
  apply wp_bind. eapply wp_upd_channel; [done|]. apply wp_bind. eapply wp_upd_user; [done..|].
  apply wp_bind. eapply wp_unlink; [done|]. intros w1 Hw1.
  assert (channels w1 !! mb_chptr mb = Some (leave m (is_opped mb) ch)) as E1.
  { rewrite (sn_channels _ _ Hw1). apply lookup_alter_iff. exists ch. by rewrite decide_True. }
  apply wp_bind. eapply wp_rd; [exact E1|]. apply wp_bind.
  assert (members w1 !! m = Some mb) as Em1 by (by rewrite (sn_members _ _ Hw1)).
  unfold after_leave. replace (channels (remove_member m mb w) !! mb_chptr mb) with (Some (leave m (is_opped mb) ch))
    by (rewrite <- E1; by rewrite (sn_channels _ _ Hw1)).
  apply wp_when; intros He; rewrite He.
  - eapply wp_conseq; [by eapply wp_free_channel|]. simpl. intros _ w2 Hw2.
    apply wp_bind. eapply wp_rd; [by rewrite (sn_members _ _ Hw2)|]. apply wp_modify.
    apply (same_net_delete m) in Hw2. etrans; [|exact Hw2].
    apply (same_net_drop (mb_chptr mb) (ch_name (leave m (is_opped mb) ch))) in Hw1. 
    apply (same_net_delete m) in Hw1. exact Hw1.
  - apply wp_bind. eapply wp_rd; [exact Em1|]. apply wp_modify. by apply (same_net_delete m) in Hw1.
Qed.

Lemma chan_inv_after_leave w p : chan_inv w → chan_inv (after_leave p w).
Proof.
  intros Hw. unfold after_leave. destruct (channels w !! p) as [ch|] eqn:E; [|done].
  destruct (channel_empty ch) eqn:He; [by apply chan_inv_drop|done].
Qed.

Lemma wp_del_chmember_inv w m mb :
  chan_inv w → members w !! m = Some mb →
  wp (del_chmember m) (fun _ w' => chan_inv w' ∧ same_net (after_leave (mb_chptr mb) (remove_member m mb w)) w') w.
Proof.
  intros Hw Em. eapply wp_conseq; [by eapply wp_del_chmember|]. simpl. intros _ w' Hw'. split; [|done].
  eapply chan_inv_same; [exact Hw'|]. by apply chan_inv_after_leave, chan_inv_remove.
Qed.
End del_chmember.

(** ** Joining *)
Section add_chmember.
Context `{SYS : Sys} `{RB : !RbSpec}.

Lemma member_with_insert w w' m mb P x :
  members w' = <[m := mb]> (members w) → members w !! m = None →
  member_with w' P x ↔ member_with w P x ∨ (x = m ∧ P mb).
Proof.
  intros Em Hm. unfold member_with. rewrite Em. split.
  - intros (xb & E & HP). rewrite lookup_insert_Some in E. destruct E as [[<- <-]|[_ E]]; [by right|].
    left. by exists xb.
  - intros [(xb & E & HP)|[-> HP]].
    + exists xb. rewrite lookup_insert_ne; [done|]. intros ->. congruence.
    + exists mb. by rewrite lookup_insert_eq.
Qed.

Lemma lists_extra l P (m : ptr) (R : Prop) : lists l P → ¬ R → lists l (fun x => P x ∨ (x = m ∧ R)).
Proof. intros Hl HR. eapply lists_iff; [|exact Hl]. intros x. simpl. tauto. Qed.

Lemma lists_enter l P (m : ptr) (R : Prop) :
  lists l P → ¬ P m → R → lists (rb_dlinkAdd m l) (fun x => P x ∨ (x = m ∧ R)).
Proof. intros Hl Hm HR. eapply lists_iff; [|by apply lists_add]. intros x. simpl. tauto. Qed.

Lemma enter_users m o ch : ch_users (enter m o ch) = rb_dlinkAdd m (ch_users ch).
Proof. by destruct o. Qed.
Lemma enter_opped m o ch :
  ch_users_opped (enter m o ch) = if o then rb_dlinkAdd m (ch_users_opped ch) else ch_users_opped ch.
Proof. by destruct o. Qed.
Lemma enter_unopped m o ch :
  ch_users_unopped (enter m o ch) = if o then ch_users_unopped ch else rb_dlinkAdd m (ch_users_unopped ch).
Proof. by destruct o. Qed.

(** A new membership of a user in a channel that it is not in. *)
Record may_join (w : world) (m : ptr) (mb : chmember) : Prop := MayJoin {
  mj_fresh : members w !! m = None;
  mj_channel : is_Some (channels w !! mb_chptr mb);
  mj_user : ∃ c u, clients w !! mb_client_p mb = Some c ∧ cl_user c = Some u;
  mj_new : ∀ x, ¬ member_with w (fun xb => in_channel (mb_chptr mb) xb ∧ of_client (mb_client_p mb) xb) x
}.

Lemma chan_inv_insert w m mb : chan_inv w → may_join w m mb → chan_inv (insert_member m mb w).
Proof.
  intros [Hc Hm Hs] [Hfresh Hch (c0 & u0 & Ec0 & Eu0) Hnew]. split.
  - eapply chans_ok_alter; [apply (enter_frame m (is_opped mb))|done..].
  - set (w' := insert_member m mb w).
    assert (∀ P x, member_with w' P x ↔ member_with w P x ∨ (x = m ∧ P mb)) as Hmw
      by (intros; by apply member_with_insert).
    assert (∀ P, ¬ member_with w P m) as Hnot by (intros P (? & ? & _); congruence).
    split.
    + intros x xb. simpl. rewrite lookup_insert_Some, lookup_alter_is_Some.
      intros [[_ <-]|[_ E]]; [done|]. by eapply (memb_channel w Hm).
    + intros x xb E. assert (∃ c u, clients w !! mb_client_p xb = Some c ∧ cl_user c = Some u) as (c & u & E1 & E2).
      { simpl in E. rewrite lookup_insert_Some in E. destruct E as [[_ <-]|[_ E]]; [by exists c0, u0|].
        by apply (memb_user w Hm x). }
      exists (if decide (mb_client_p mb = mb_client_p xb) then upd_user_channels (rb_dlinkAdd m) c else c).
      case_decide.
      * exists (u <| us_channels ::= rb_dlinkAdd m |>). split; [|simpl; by rewrite E2].
        apply lookup_alter_iff. exists c. by rewrite decide_True.
      * exists u. split; [|done]. apply lookup_alter_iff. exists c. by rewrite decide_False.
    + intros p ch'. simpl. rewrite lookup_alter_iff. intros (ch & E & ->).
      eapply lists_iff; [intros x; symmetry; apply Hmw|]. pose proof (memb_users w Hm p ch E) as Hl.
      case_decide as Ep; [subst p; rewrite enter_users; by apply lists_enter|by apply lists_extra].
    + intros p ch'. simpl. rewrite lookup_alter_iff. intros (ch & E & ->).
      eapply lists_iff; [intros x; symmetry; apply Hmw|]. pose proof (memb_opped w Hm p ch E) as Hl.
      case_decide as Ep; [subst p; rewrite enter_opped; destruct (is_opped mb) eqn:Eo|].
      * by apply lists_enter.
      * apply lists_extra; [done|]. intros [_ ?]. congruence.
      * apply lists_extra; [done|]. by intros [? _].
    + intros p ch'. simpl. rewrite lookup_alter_iff. intros (ch & E & ->).
      eapply lists_iff; [intros x; symmetry; apply Hmw|]. pose proof (memb_unopped w Hm p ch E) as Hl.
      case_decide as Ep; [subst p; rewrite enter_unopped; destruct (is_opped mb) eqn:Eo|].
      * apply lists_extra; [done|]. intros [_ ?]. congruence.
      * by apply lists_enter.
      * apply lists_extra; [done|]. by intros [? _].
    + intros c cl' u'. simpl. rewrite lookup_alter_iff. intros (cl & E & ->) Eu.
      eapply lists_iff; [intros x; symmetry; apply Hmw|]. case_decide as Ec.
      * subst c. simpl in Eu. destruct (cl_user cl) as [u|] eqn:Eu1; [|done]. injection Eu as <-.
        simpl. apply lists_enter; [by apply (memb_channels w Hm _ cl)|done..].
      * apply lists_extra; [by apply (memb_channels w Hm _ cl)|done].
    + intros x y xb yb. simpl. rewrite !lookup_insert_Some.
      intros [[<- <-]|[_ E1]] [[<- <-]|[_ E2]] Hp Ho; [done|..].
      * destruct (Hnew y). by exists yb.
      * destruct (Hnew x). by exists xb.
      * by eapply (memb_unique w Hm).
  - eapply servs_ok_alter; [apply (enter_frame m (is_opped mb))| |done..]. done.
Qed.

(** [add_chmember()] makes exactly that membership, in fresh memory. *)
Lemma wp_add_chmember w chptr target_p flags (Q : ptr → world → Prop) :
  let m := rb_bh_alloc (dom (members w)) in
  let mb := Chmember chptr target_p (uint32 flags) in
  may_join w m mb →
  (∀ w', same_net (insert_member m mb w) w' → Q m w') →
  wp (add_chmember chptr target_p flags) Q w.
Proof.
  intros m mb [Hfresh [ch Ech] (c & u & Ec & Eu) _] HQ. unfold add_chmember. simpl in Ech, Ec.
  apply wp_bind, wp_gets. fold m mb. apply wp_bind, wp_modify.
  apply wp_bind. eapply wp_upd_channel; [exact Ech|].
  apply wp_bind. eapply wp_upd_user; [exact Ec|exact Eu|].
  apply wp_bind. eapply wp_upd_channel.
  { apply lookup_alter_iff. exists ch. split; [exact Ech|done]. }
  apply wp_ret, HQ. split; try done. apply map_eq. intros p. simpl. rewrite !lookup_alter.
  case_decide; [|done]. rewrite decide_True by done. destruct (channels w !! chptr); [|done].
  simpl. unfold enter. by destruct (is_opped mb).
Qed.

Lemma fresh_member w : members w !! rb_bh_alloc (dom (members w)) = None.
Proof. apply not_elem_of_dom, rb_bh_alloc_spec. Qed.
End add_chmember.

(** ** Status *)
Section status.
Context `{SYS : Sys} `{RB : !RbSpec} `{QH : !QuietHooks}.

(** The channel of a member whose operator status changes. *)
Definition restatus (m : ptr) (o o' : bool) (ch : channel) : channel :=
  match o, o' with
  | false, true =>
    let '(unopped, opped) := rb_dlinkMoveNode m (ch_users_unopped ch) (ch_users_opped ch) in
    ch <| ch_users_unopped := unopped |> <| ch_users_opped := opped |>
  | true, false =>
    let '(opped, unopped) := rb_dlinkMoveNode m (ch_users_opped ch) (ch_users_unopped ch) in
    ch <| ch_users_opped := opped |> <| ch_users_unopped := unopped |>
  | _, _ => ch
  end.

Lemma restatus_frame m o o' ch : same_frame ch (restatus m o o' ch).
Proof. destruct o, o'; simpl; try done; by destruct (rb_dlinkMoveNode _ _ _). Qed.

Lemma restatus_users m o o' ch : ch_users (restatus m o o' ch) = ch_users ch.
Proof. destruct o, o'; simpl; try done; by destruct (rb_dlinkMoveNode _ _ _). Qed.

Definition set_status (m : ptr) (mb : chmember) (fl : Z) (w : world) : world :=
  w <| members ::= <[m := mb <| mb_flags := fl |>]> |>
    <| channels ::= alter (restatus m (is_opped mb) (has_flag fl MODE_OPPED)) (mb_chptr mb) |>.

Lemma member_with_status w w' m mb mb' (P : chmember → Prop) x :
  members w' = <[m := mb']> (members w) → members w !! m = Some mb →
  member_with w' P x ↔ if decide (x = m) then P mb' else member_with w P x.
Proof.
  intros Em Hm. unfold member_with. rewrite Em. case_decide as Ex.
  - subst x. rewrite lookup_insert_eq. naive_solver.
  - by rewrite lookup_insert_ne by done.
Qed.

(** Lists that do not look at the status. *)
Lemma lists_status w w' m mb mb' l (P : chmember → Prop) :
  members w' = <[m := mb']> (members w) → members w !! m = Some mb → (P mb' ↔ P mb) →
  lists l (member_with w P) → lists l (member_with w' P).
Proof.
  intros Em Hm HP Hl. eapply lists_iff; [|exact Hl]. intros x.
  rewrite (member_with_status w w') by done. case_decide as Ex; [|done]. subst x.
  unfold member_with. naive_solver.
Qed.

(** A member that moves from one list to the other. *)
Lemma lists_status_move w w' m mb mb' from to (P Q : chmember → Prop) :
  members w' = <[m := mb']> (members w) → members w !! m = Some mb →
  P mb → ¬ Q mb → ¬ P mb' → Q mb' →
  lists from (member_with w P) → lists to (member_with w Q) →
  lists (rb_dlinkMoveNode m from to).1 (member_with w' P) ∧
  lists (rb_dlinkMoveNode m from to).2 (member_with w' Q).
Proof.
  intros Em Hm HP HQ HP' HQ' Hf Ht.
  destruct (lists_move from to (member_with w P) (member_with w Q) m) as [H1 H2]; [done..| | |].
  { by exists mb. } { by eapply member_with_not. }
  split; (eapply lists_iff; [|eassumption]); intros x; rewrite (member_with_status w w') by done;
    case_decide; naive_solver.
Qed.

Lemma chan_inv_status w m mb fl :
  chan_inv w → members w !! m = Some mb → chan_inv (set_status m mb fl w).
Proof.
  intros [Hc Hm Hs] Em. set (w' := set_status m mb fl w). set (mb' := mb <| mb_flags := fl |>).
  assert (members w' = <[m := mb']> (members w)) as Ew by done.
  set (o := is_opped mb). set (o' := has_flag fl MODE_OPPED).
  assert (∀ P, (∀ xb fl, P (xb <| mb_flags := fl |>) ↔ P xb) → ∀ l, lists l (member_with w P) → lists l (member_with w' P))
    as Hpos by (intros P HP l; apply (lists_status w w' m mb mb'); [done|done|apply HP]).
  assert (∀ x xb, members w' !! x = Some xb → ∃ yb, members w !! x = Some yb ∧
    mb_chptr xb = mb_chptr yb ∧ mb_client_p xb = mb_client_p yb) as Hback.
  { intros x xb. rewrite Ew, lookup_insert_Some. intros [[<- Hx]|[_ E]]; [exists mb; rewrite <- Hx|by exists xb].
 done. }
  split.
  - apply (chans_ok_alter w w' (mb_chptr mb) (restatus m o o')); [apply restatus_frame|reflexivity..|done].
  - assert (∀ p ch, channels w !! p = Some ch →
      lists (ch_users_opped (if decide (mb_chptr mb = p) then restatus m o o' ch else ch))
        (member_with w' (fun mb => in_channel p mb ∧ is_opped mb = true)) ∧
      lists (ch_users_unopped (if decide (mb_chptr mb = p) then restatus m o o' ch else ch))
        (member_with w' (fun mb => in_channel p mb ∧ is_opped mb = false))) as Hsplit.
    { intros p ch E. pose proof (memb_opped w Hm p ch E) as Ho. pose proof (memb_unopped w Hm p ch E) as Hu.
      assert (is_opped mb' = o' ∧ is_opped mb = o) as [Eo' Eom] by done.
      case_decide as Ep.
      2:{ split; (eapply lists_status; [done|exact Em| |eassumption]);
            unfold in_channel; split; intros [? _]; by destruct Ep. }
      unfold restatus. destruct o eqn:Eo, o'; cycle 1.
      { destruct (lists_status_move w w' m mb mb' (ch_users_opped ch) (ch_users_unopped ch)
          (fun mb => in_channel p mb ∧ is_opped mb = true) (fun mb => in_channel p mb ∧ is_opped mb = false));
          [done..| | | | | | |]; try done; try (by split); try (intros [_ ?]; congruence).
        by destruct (rb_dlinkMoveNode m (ch_users_opped ch) (ch_users_unopped ch)). }
      { destruct (lists_status_move w w' m mb mb' (ch_users_unopped ch) (ch_users_opped ch)
          (fun mb => in_channel p mb ∧ is_opped mb = false) (fun mb => in_channel p mb ∧ is_opped mb = true));
          [done..| | | | | | |]; try done; try (by split); try (intros [_ ?]; congruence).
        by destruct (rb_dlinkMoveNode m (ch_users_unopped ch) (ch_users_opped ch)). }
      all: split; (eapply lists_status; [done|exact Em| |eassumption]); unfold in_channel;
        change (mb_chptr mb') with (mb_chptr mb); rewrite Eo'; fold o; by rewrite Eo. }
    split.
    + intros x xb (yb & E & E1 & E2)%Hback. rewrite E1. simpl. rewrite lookup_alter_is_Some.
      by eapply (memb_channel w Hm).
    + intros x xb (yb & E & E1 & E2)%Hback. rewrite E2. by apply (memb_user w Hm x).
    + intros p ch'. simpl. rewrite lookup_alter_iff. intros (ch & E & ->).
      apply Hpos; [done|]. case_decide; [rewrite restatus_users|]; by apply (memb_users w Hm).
    + intros p ch'. simpl. rewrite lookup_alter_iff. intros (ch & E & ->). by apply Hsplit.
    + intros p ch'. simpl. rewrite lookup_alter_iff. intros (ch & E & ->). by apply Hsplit.
    + intros c cl u E Eu. apply Hpos; [done|]. by apply (memb_channels w Hm c cl).
    + intros x y xb yb (xb' & E1 & Hp1 & Ho1)%Hback (yb' & E2 & Hp2 & Ho2)%Hback.
      rewrite Hp1, Ho1, Hp2, Ho2. by apply (memb_unique w Hm).
  - eapply (servs_ok_alter w _ (mb_chptr mb) (restatus m o o') (mb_client_p mb) (fun c => c));
      [apply restatus_frame|done|done| |done]. simpl. symmetry. by apply alter_id.
Qed.
End status.

Section status_ops.
Context `{SYS : Sys} `{RB : !RbSpec} `{QH : !QuietHooks}.

Lemma same_net_members w w' f :
  same_net w w' → same_net (w <| members ::= f |>) (w' <| members ::= f |>).
Proof. intros []. split; simpl; congruence. Qed.

Lemma alter_as_insert {T} (h : gmap ptr T) p x f : h !! p = Some x → alter f p h = <[p := f x]> h.
Proof. intros E. apply map_eq. intros q. rewrite lookup_alter, lookup_insert. case_decide; [|done]. subst. by rewrite E. Qed.

(** A change of the flags that leaves the operator status alone. *)
Lemma wp_member_flags w m mb f (Q : unit → world → Prop) :
  members w !! m = Some mb → has_flag (f (mb_flags mb)) MODE_OPPED = is_opped mb →
  (∀ w', same_net (set_status m mb (f (mb_flags mb)) w) w' → Q tt w') →
  wp (upd_member m (fun mb => mb <| mb_flags ::= f |>)) Q w.
Proof.
  intros Em Hf HQ. eapply wp_upd_member; [exact Em|]. apply HQ. split; try done; simpl.
  - apply map_eq. intros p. rewrite lookup_alter. case_decide; [|done]. subst.
    rewrite Hf. destruct (channels w !! _) as [ch|]; [|done]. simpl. by destruct (is_opped mb).
  - by erewrite alter_as_insert.
Qed.

Definition opped_flags (f : Z) : Z := set_flag (clear_flag f MODE_DEOPPED) MODE_OPPED.

Lemma opped_flags_opped f : has_flag (opped_flags f) MODE_OPPED = true.
Proof. by apply has_flag_set_same. Qed.

Lemma status_net w m mb f fl ch :
  members w !! m = Some mb → channels w !! mb_chptr mb = Some ch → fl = f (mb_flags mb) →
  same_net (set_status m mb fl w)
    (w <| members ::= alter (fun mb => mb <| mb_flags ::= f |>) m |>
       <| channels ::= alter (restatus m (is_opped mb) (has_flag fl MODE_OPPED)) (mb_chptr mb) |>).
Proof. intros Em Ech ->. split; try done. simpl. by erewrite alter_as_insert. Qed.

Lemma wp_op_chmember w m mb (Q : unit → world → Prop) :
  membs_ok w → members w !! m = Some mb →
  (∀ w', same_net (if is_opped mb then w else set_status m mb (opped_flags (mb_flags mb)) w) w' → Q tt w') →
  wp (op_chmember m) Q w.
Proof.
  intros Hm Em HQ. destruct (memb_channel w Hm m mb Em) as [ch Ech].
  unfold op_chmember. apply wp_bind. eapply wp_rd; [exact Em|]. destruct (is_opped mb) eqn:Eo.
  { by apply wp_ret, HQ. }
  apply wp_bind. eapply wp_upd_member; [exact Em|]. eapply wp_upd_channel; [exact Ech|]. apply HQ.
  pose proof (status_net w m mb opped_flags _ ch Em Ech eq_refl) as Hn.
  rewrite Eo, opped_flags_opped in Hn. exact Hn.
Qed.

Lemma wp_deop_chmember w m mb (Q : unit → world → Prop) :
  membs_ok w → members w !! m = Some mb →
  (∀ w', same_net (if is_opped mb then set_status m mb (clear_flag (mb_flags mb) MODE_OPPED) w else w) w' → Q tt w') →
  wp (deop_chmember m) Q w.
Proof.
  intros Hm Em HQ. destruct (memb_channel w Hm m mb Em) as [ch Ech].
  unfold deop_chmember. apply wp_bind. eapply wp_rd; [exact Em|]. destruct (is_opped mb) eqn:Eo; cbn [negb].
  2:{ by apply wp_ret, HQ. }
  apply wp_bind. eapply wp_upd_member; [exact Em|]. apply wp_bind. eapply wp_upd_channel; [exact Ech|].
  pose proof (status_net w m mb (fun f => clear_flag f MODE_OPPED) _ ch Em Ech eq_refl) as Hn.
  rewrite Eo, has_flag_clear_same in Hn. set (w1 := w <| members ::= _ |> <| channels ::= _ |>) in Hn.
  apply wp_bind. eapply wp_rd.
  { apply lookup_alter_iff. exists ch. by rewrite decide_True. }
  apply wp_when; [|by intros; apply HQ]. intros _.
  eapply wp_quiet; [apply quiet_hook1; by left|]. intros [] w2 Hw2. apply HQ. by etrans.
Qed.

(** ** Changes of a channel that are not about members *)
Record same_lists (ch ch' : channel) : Prop := SameLists {
  sl_frame : same_frame ch ch';
  sl_users : ch_users ch' = ch_users ch;
  sl_opped : ch_users_opped ch' = ch_users_opped ch;
  sl_unopped : ch_users_unopped ch' = ch_users_unopped ch
}.

Lemma chan_inv_settings w p f :
  (∀ ch, same_lists ch (f ch)) → chan_inv w → chan_inv (w <| channels ::= alter f p |>).
Proof.
  intros Hf [Hc Hm Hs]. set (w' := w <| channels ::= alter f p |>).
  assert (∀ q ch', channels w' !! q = Some ch' → ∃ ch, channels w !! q = Some ch ∧ same_lists ch ch') as Hback.
  { intros q ch'. simpl. rewrite lookup_alter_iff. intros (ch & E & ->). exists ch. split; [done|].
    case_decide; [apply Hf|]. by repeat split. }
  split.
  - apply (chans_ok_alter w w' p f); [apply Hf|reflexivity..|done].
  - split.
    + intros m mb E. simpl. rewrite lookup_alter_is_Some. by eapply (memb_channel w Hm).
    + by apply (memb_user w Hm).
    + intros q ch' (ch & E & [])%Hback. rewrite sl_users0. by apply (memb_users w Hm).
    + intros q ch' (ch & E & [])%Hback. rewrite sl_opped0. by apply (memb_opped w Hm).
    + intros q ch' (ch & E & [])%Hback. rewrite sl_unopped0. by apply (memb_unopped w Hm).
    + by apply (memb_channels w Hm).
    + by apply (memb_unique w Hm).
  - eapply (servs_ok_alter w w' p f 1%positive (fun c => c)); [apply Hf|done|done| |done].
    simpl. symmetry. by apply alter_id.
Qed.
End status_ops.

(** ** All members lose their status *)
Section strip.
Context `{SYS : Sys} `{RB : !RbSpec}.

Definition stripped (mb : chmember) : chmember :=
  mb <| mb_flags ::= fun f => clear_flag f (Z.lor MODE_OPPED MODE_VOICED) |>.

Definition strip (l : list ptr) (h : gmap ptr chmember) : gmap ptr chmember :=
  map_imap (fun m mb => Some (if decide (m ∈ l) then stripped mb else mb)) h.

Lemma lookup_strip l h m mb' :
  strip l h !! m = Some mb' ↔ ∃ mb, h !! m = Some mb ∧ mb' = if decide (m ∈ l) then stripped mb else mb.
Proof. unfold strip. rewrite map_lookup_imap, bind_Some. naive_solver. Qed.

Lemma strip_nil h : strip [] h = h.
Proof.
  apply map_eq. intros m. apply option_eq. intros mb'. rewrite lookup_strip. split.
  - intros (mb & E & ->). by rewrite decide_False by apply not_elem_of_nil.
  - intros E. exists mb'. by rewrite decide_False by apply not_elem_of_nil.
Qed.

Lemma strip_snoc p x h : x ∉ p → strip (p ++ [x]) h = alter stripped x (strip p h).
Proof.
  intros Hx. apply map_eq. intros m. apply option_eq. intros mb'.
  rewrite lookup_alter_iff, lookup_strip. setoid_rewrite lookup_strip. split.
  - intros (mb & E & ->). eexists. split; [by exists mb|]. destruct (decide (x = m)) as [->|Hm].
    + rewrite decide_True by set_solver. by rewrite decide_False.
    + destruct (decide (m ∈ p)); [by rewrite decide_True by set_solver|by rewrite decide_False by set_solver].
  - intros (y & (mb & E & ->) & ->). exists mb. split; [done|]. destruct (decide (x = m)) as [->|Hm].
    + rewrite (decide_True _ _ (P := m ∈ p ++ [m])) by set_solver. by rewrite decide_False.
    + destruct (decide (m ∈ p)); [by rewrite decide_True by set_solver|by rewrite decide_False by set_solver].
Qed.

Lemma stripped_opped mb : is_opped (stripped mb) = false.
Proof.
  unfold is_opped, stripped. simpl. apply not_true_iff_false. rewrite has_flag_spec.
  intros (n & Hn & E & Eo). unfold clear_flag in E.
  rewrite Z.land_spec, Z.lnot_spec, Z.lor_spec, Eo in E by done. by rewrite orb_true_l, andb_false_r in E.
Qed.

(** The channel afterwards: everybody is among the unopped. *)
Definition all_unopped (ch : channel) : channel :=
  let '(opped, unopped) := rb_dlinkMoveList (ch_users_opped ch) (ch_users_unopped ch) in
  ch <| ch_users_opped := opped |> <| ch_users_unopped := unopped |>.

Lemma all_unopped_frame ch : same_frame ch (all_unopped ch).
Proof. unfold all_unopped. by destruct (rb_dlinkMoveList _ _). Qed.

Definition strip_channel (p : ptr) (l : list ptr) (w : world) : world :=
  w <| members ::= strip l |> <| channels ::= alter all_unopped p |>.

Lemma chan_inv_strip w p ch :
  chan_inv w → channels w !! p = Some ch → chan_inv (strip_channel p (ch_users ch) w).
Proof.
  intros [Hc Hm Hs] Ech. set (w' := strip_channel p (ch_users ch) w).
  pose proof (memb_users w Hm p ch Ech) as [_ Hl].
  assert (∀ x xb', members w' !! x = Some xb' ↔ ∃ xb, members w !! x = Some xb ∧
    xb' = if decide (mb_chptr xb = p) then stripped xb else xb) as Hback.
  { intros x xb'. simpl. rewrite lookup_strip. split; intros (xb & E & ->); exists xb; (split; [done|]).
    - destruct (decide (mb_chptr xb = p)) as [Hp|Hp].
      + rewrite decide_True; [done|]. apply Hl. by exists xb.
      + rewrite decide_False; [done|]. intros (xb' & E' & Hin)%Hl. by simplify_eq.
    - destruct (decide (mb_chptr xb = p)) as [Hp|Hp].
      + rewrite decide_True; [done|]. apply Hl. by exists xb.
      + rewrite decide_False; [done|]. intros (xb' & E' & Hin)%Hl. by simplify_eq. }
  assert (∀ P, (∀ xb, mb_chptr xb = p → P (stripped xb) ↔ P xb) → ∀ x, member_with w' P x ↔ member_with w P x) as Hmw.
  { intros P HP x. unfold member_with. split.
    - intros (xb' & (xb & E & ->)%Hback & Hx). exists xb. split; [done|]. case_decide; [by apply HP|done].
    - intros (xb & E & Hx). eexists. split; [apply Hback; by exists xb|]. case_decide; [by apply HP|done]. }
  assert (∀ P l, (∀ xb, mb_chptr xb = p → P (stripped xb) ↔ P xb) → lists l (member_with w P) → lists l (member_with w' P))
    as Hlists by (intros P l HP; apply lists_iff; intros x; symmetry; by apply Hmw).
  split.
  - apply (chans_ok_alter w w' p all_unopped); [apply all_unopped_frame|reflexivity..|done].
  - split.
    + intros m mb (xb & E & ->)%Hback. simpl. rewrite lookup_alter_is_Some.
      case_decide; by apply (memb_channel w Hm m xb).
    + intros m mb (xb & E & ->)%Hback. case_decide; by apply (memb_user w Hm m xb).
    + intros q ch'. simpl. rewrite lookup_alter_iff. intros (ch0 & E & ->). apply Hlists; [done|].
      pose proof (memb_users w Hm q ch0 E). case_decide; [|done]. unfold all_unopped. by destruct (rb_dlinkMoveList _ _).
    + intros q ch'. simpl. rewrite lookup_alter_iff. intros (ch0 & E & ->). case_decide as Eq.
      * subst q. simplify_eq. unfold all_unopped.
        destruct (lists_move_all (ch_users_opped ch) (ch_users_unopped ch) _ _ (memb_opped w Hm p ch Ech)
          (memb_unopped w Hm p ch Ech)) as [Eo _]; [intros x (?&?&?&?) (?&?&?&?); simplify_eq; congruence|].
        destruct (rb_dlinkMoveList _ _). simpl in *. subst. apply lists_nil.
        intros x (xb' & (xb & E & ->)%Hback & Hp & Ho). case_decide as Ec; [by rewrite stripped_opped in Ho|].
        by destruct Ec.
      * apply Hlists; [|by apply (memb_opped w Hm)]. intros xb Hx. unfold in_channel. split; intros [? _]; simpl in *; congruence.
    + intros q ch'. simpl. rewrite lookup_alter_iff. intros (ch0 & E & ->). case_decide as Eq.
      * subst q. simplify_eq. unfold all_unopped.
        destruct (lists_move_all (ch_users_opped ch) (ch_users_unopped ch) _ _ (memb_opped w Hm p ch Ech)
          (memb_unopped w Hm p ch Ech)) as [_ Hu]; [intros x (?&?&?&?) (?&?&?&?); simplify_eq; congruence|].
        destruct (rb_dlinkMoveList _ _). simpl in *. eapply lists_iff; [|exact Hu]. intros x. simpl. split.
        -- intros [(xb & E1 & Hp & _)|(xb & E1 & Hp & _)];
             (eexists; split; [apply Hback; by exists xb|]); rewrite decide_True by done;
             (split; [done|apply stripped_opped]).
        -- intros (xb' & (xb & E1 & ->)%Hback & Hp & _). assert (mb_chptr xb = p) by (by case_decide).
           destruct (is_opped xb) eqn:Eo; [left|right]; by exists xb.
      * apply Hlists; [|by apply (memb_unopped w Hm)]. intros xb Hx. unfold in_channel. split; intros [? _]; simpl in *; congruence.
    + intros c cl u E Eu. apply Hlists; [done|]. by apply (memb_channels w Hm c cl).
    + intros x y xb' yb' (xb & E1 & ->)%Hback (yb & E2 & ->)%Hback Hp Ho.
      apply (memb_unique w Hm x y xb yb E1 E2); by repeat case_decide.
  - eapply (servs_ok_alter w w' p all_unopped 1%positive (fun c => c)); [apply all_unopped_frame|done|done| |done].
    simpl. symmetry. by apply alter_id.
Qed.
End strip.

(** ** A new channel *)
Section new_channel.
Context `{SYS : Sys} `{RB : !RbSpec}.

Definition insert_channel (p : ptr) (ch : channel) (w : world) : world :=
  w <| channels ::= <[p := ch]> |>
    <| channel_table ::= upd_bucket (hash_channel (ch_name ch)) (rb_dlinkAdd p) |>
    <| channel_list ::= rb_dlinkAdd p |>.

(** Nobody is in it. *)
Definition fresh_channel (ch : channel) : Prop :=
  ch_users ch = [] ∧ ch_users_opped ch = [] ∧ ch_users_unopped ch = [] ∧ ch_services ch = [].

Lemma chan_inv_new w p ch :
  chan_inv w → channels w !! p = None → fresh_channel ch → no_nul (ch_name ch) = true →
  (∀ q ch', channels w !! q = Some ch' → irccmp (ch_name ch') (ch_name ch) ≠ 0) →
  chan_inv (insert_channel p ch w).
Proof.
  intros [Hc Hm Hs] Hp (Eu & Eo & Eup & Es) Hnul Hnew.
  assert (∀ m mb, members w !! m = Some mb → mb_chptr mb ≠ p) as Hno.
  { intros m mb E <-. destruct (memb_channel w Hm m mb E) as [? ?]. congruence. }
  assert (∀ P, lists [] (member_with w (fun mb => in_channel p mb ∧ P mb))) as Hnil.
  { intros P. apply lists_nil. intros x (mb & E & Hin & _). by eapply Hno. }
  assert (∀ s c sv, clients w !! s = Some c → cl_service c = Some sv → p ∉ sr_channels sv) as Hsv.
  { intros s c sv E Ev Hin. apply (serv_channels w Hs s c sv E Ev) in Hin as (? & ? & _). congruence. }
  assert (∀ q ch', channels w !! q = Some ch' → irccmp (ch_name ch) (ch_name ch') ≠ 0) as Hnew'.
  { intros q ch' E Hirc. apply (Hnew q ch' E). pose proof (chan_name w Hc q ch' E).
    rewrite irccmp_lower in Hirc |- * by done. done. }
  split; split; simpl.
  - eapply lists_iff; [|apply lists_add; [apply Hc|]].
    + intros q. simpl. rewrite lookup_insert_is_Some. destruct (decide (p = q)); naive_solver.
    + intros [? E]. congruence.
  - eapply indexed_iff; [|apply indexed_add; [apply Hc|]].
    + intros q h. simpl. setoid_rewrite lookup_insert_Some. split.
      * intros [(ch' & E & Eh)|[-> ->]]; [|by eauto]. exists ch'. split; [|done]. right. split; [|done].
        intros ->. congruence.
      * intros (ch' & [[<- <-]|[_ E]] & Eh); [by right|left; by exists ch'].
    + intros (ch' & E & _). congruence.
  - intros q ch'. rewrite lookup_insert_Some. intros [[<- <-]|[_ E]]; [done|]. by eapply (chan_name w Hc).
  - intros q q' ch1 ch2. rewrite !lookup_insert_Some.
    intros [[<- <-]|[_ E1]] [[<- <-]|[_ E2]] Hirc; [done|by destruct (Hnew' q' ch2)|by destruct (Hnew q ch1)|].
    by eapply (chan_unique w Hc).
  - intros m mb E. rewrite lookup_insert_ne by (by apply not_eq_sym, (Hno m)). by eapply (memb_channel w Hm).
  - by apply (memb_user w Hm).
  - intros q ch'. rewrite lookup_insert_Some. intros [[<- <-]|[_ E]]; [|by apply (memb_users w Hm)].
    rewrite Eu. apply lists_nil. intros x (mb & E & Hin). by eapply Hno.
  - intros q ch'. rewrite lookup_insert_Some. intros [[<- <-]|[_ E]]; [|by apply (memb_opped w Hm)].
    rewrite Eo. apply Hnil.
  - intros q ch'. rewrite lookup_insert_Some. intros [[<- <-]|[_ E]]; [|by apply (memb_unopped w Hm)].
    rewrite Eup. apply Hnil.
  - by apply (memb_channels w Hm).
  - by apply (memb_unique w Hm).
  - intros q ch'. rewrite lookup_insert_Some. intros [[<- <-]|[_ E]]; [|by apply (serv_services w Hs)].
    rewrite Es. apply lists_nil. intros s (c & sv & E & Ev & Hin). by eapply Hsv.
  - intros s c sv E Ev. eapply lists_iff; [|by apply (serv_channels w Hs s c sv)]. intros q. simpl.
    destruct (decide (q = p)) as [->|Hq]; [rewrite lookup_insert_eq|by rewrite lookup_insert_ne by done].
    split; [intros (ch' & E' & _); congruence|]. intros (ch' & [= <-] & Hin). rewrite Es in Hin. by apply elem_of_nil in Hin.
Qed.

Lemma wp_make_channel {A} w ch (k : ptr → M world A) (Q : A → world → Prop) :
  (∀ p, channels w !! p = None → wp (k p) Q (insert_channel p ch w)) →
  wp (p ← new_channel ch; _ ← add_channel p; k p) Q w.
Proof.
  intros HQ. set (p := rb_bh_alloc (dom (channels w))).
  assert (channels w !! p = None) as Hp by apply not_elem_of_dom, rb_bh_alloc_spec.
  apply wp_bind. unfold new_channel. apply wp_bind, wp_gets, wp_bind, wp_modify, wp_ret. fold p.
  apply wp_bind. unfold add_channel. apply wp_bind. eapply wp_rd; [by apply lookup_insert_eq|].
  apply wp_modify. by apply HQ.
Qed.
End new_channel.
