(* ===== verification/Index.v ===== *)
(** * The invariant of the tables of clients, and of the network

    The hash tables and the lists of [client.c] depend on what a client is called
    and whether it is on the network ([ident]); [tables_ok] says that they file
    exactly the clients that are on the network.  [net_inv] joins it to the
    invariant of channels and members, and [HooksOk] is what the handlers rely on
    of the services' hooks, whose code is in the [s_*.c] files. *)

From S2P Require Import Prelude CString Match Rblib Tools Fault World Lookup ModeBuild Channel Net Members.

(** ** Identities *)
Inductive kind := KUser | KServer | KService | KOther.
#[export] Instance kind_eq_dec : EqDecision kind.
Proof. solve_decision. Defined.

Definition kind_of (c : client) : kind :=
  match cl_user c, cl_server c, cl_service c with
  | Some _, None, None => KUser
  | None, Some _, None => KServer
  | None, None, Some _ => KService
  | _, _, _ => KOther
  end.

(** A user or server is on the network until it exits, a service while it is
    introduced. *)
Definition on_net (c : client) : bool :=
  match cl_service c with
  | Some s => has_flag (sr_status s) SERVICE_INTRODUCED
  | None => negb (has_flag (cl_flags c) FLAGS_DEAD)
  end.

(** All of a client that the tables and lists of clients are about. *)
Record ident := Ident {
  id_name : string;
  id_uid : string;
  id_kind : kind;
  id_net : bool;
  id_uplink : option ptr;
  id_users : list ptr;
  id_servers : list ptr;
  id_oper : option ptr;
  id_reg : option ptr;
  id_home : option ptr
}.

Definition users_behind (c : client) : list ptr := match cl_server c with Some s => sv_users s | None => [] end.
Definition servers_behind (c : client) : list ptr := match cl_server c with Some s => sv_servers s | None => [] end.

Definition ident_of (c : client) : ident :=
  Ident (cl_name c) (cl_uid c) (kind_of c) (on_net c) (cl_uplink c) (users_behind c) (servers_behind c)
    (cl_user c ≫= us_oper) (cl_user c ≫= us_user_reg) (us_servername <$> cl_user c).

Section index.
Context `{SYS : Sys}.

Definition ids (w : world) : gmap ptr ident := ident_of <$> clients w.

Lemma ids_client w p i : ids w !! p = Some i ↔ ∃ c, clients w !! p = Some c ∧ ident_of c = i.
Proof. unfold ids. rewrite lookup_fmap, fmap_Some. naive_solver. Qed.

Lemma ids_of w p c : clients w !! p = Some c → ids w !! p = Some (ident_of c).
Proof. intros E. apply ids_client. by exists c. Qed.

(** What a change of a client that keeps its identity leaves of all identities. *)
Lemma ids_alter (h : gmap ptr client) g p :
  (∀ c, ident_of (g c) = ident_of c) → ident_of <$> alter g p h = ident_of <$> h.
Proof.
  intros Hg. apply map_eq. intros q. rewrite !lookup_fmap, lookup_alter. case_decide; [|done].
  subst. destruct (h !! q); [|done]. simpl. by rewrite Hg.
Qed.

Definition filed_name (tbl : gmap ptr ident) (p : ptr) (h : Z) : Prop :=
  ∃ i, tbl !! p = Some i ∧ id_net i = true ∧ hash_name (id_name i) = h.
Definition filed_uid (tbl : gmap ptr ident) (p : ptr) (h : Z) : Prop :=
  ∃ i, tbl !! p = Some i ∧ id_net i = true ∧ id_uid i ≠ ""%string ∧ hash_name (id_uid i) = h.
Definition filed_kind (tbl : gmap ptr ident) (k : kind) (net : bool) (p : ptr) : Prop :=
  ∃ i, tbl !! p = Some i ∧ id_kind i = k ∧ id_net i = net.

Record tables_ok (w : world) : Prop := TablesOk {
  tab_name : indexed (name_table w) (filed_name (ids w));
  tab_uid : indexed (uid_table w) (filed_uid (ids w));
  tab_users : lists (user_list w) (filed_kind (ids w) KUser true);
  tab_servers : lists (server_list w) (filed_kind (ids w) KServer true);
  tab_exited : lists (exited_list w)
    (fun p => filed_kind (ids w) KUser false p ∨ filed_kind (ids w) KServer false p);
  tab_services : lists (service_list w) (fun p => ∃ i, ids w !! p = Some i ∧ id_kind i = KService);
  tab_ident p i : ids w !! p = Some i →
    id_kind i ≠ KOther ∧ no_nul (id_name i) = true ∧ no_nul (id_uid i) = true
}.

(** The users and servers behind a server. *)
Definition behind (tbl : gmap ptr ident) (k : kind) (q p : ptr) : Prop :=
  ∃ i, tbl !! p = Some i ∧ id_kind i = k ∧ id_net i = true ∧ id_uplink i = Some q.

(** Servers form a forest, with the users at its leaves. *)
Record tree_ok (w : world) : Prop := TreeOk {
  tree_user p i : ids w !! p = Some i → id_net i = true → id_kind i = KUser → is_Some (id_uplink i);
  tree_home p i : ids w !! p = Some i → id_net i = true → id_kind i = KUser → id_home i = id_uplink i;
  tree_service p i : ids w !! p = Some i → id_kind i = KService → id_uplink i = None;
  tree_uplink p i q : ids w !! p = Some i → id_net i = true → id_uplink i = Some q →
    filed_kind (ids w) KServer true q;
  tree_users q j : ids w !! q = Some j → id_kind j = KServer → id_net j = true →
    lists (id_users j) (behind (ids w) KUser q);
  tree_servers q j : ids w !! q = Some j → id_kind j = KServer → id_net j = true →
    lists (id_servers j) (behind (ids w) KServer q);
  tree_depth : ∃ depth : ptr → nat, ∀ p i q,
    ids w !! p = Some i → id_net i = true → id_uplink i = Some q → (depth q < depth p)%nat
}.

(** The users on the network, and the stored operators, that use an operator block. *)
Definition uses_block (tbl : gmap ptr ident) (o p : ptr) : bool :=
  match tbl !! p with Some i => bool_decide (id_oper i = Some o) | None => false end.

Definition block_uses (w : world) (o : ptr) : nat :=
  (length (filter (fun p => uses_block (ids w) o p = true) (user_list w)) +
   length (filter (fun e => co_oper e = o) (client_oper_list w)))%nat.

(** Logins and operator blocks: a block is kept as long as it is used. *)
Record accounts_ok (w : world) : Prop := AccountsOk {
  acc_reg p i r : ids w !! p = Some i → id_net i = true → id_reg i = Some r → is_Some (user_regs w !! r);
  acc_opers : lists (oper_list w)
    (fun p => ∃ i, ids w !! p = Some i ∧ id_net i = true ∧ id_kind i = KUser ∧ is_Some (id_oper i));
  acc_block p i o : ids w !! p = Some i → id_net i = true → id_oper i = Some o → is_Some (conf_opers w !! o);
  acc_entry e : e ∈ client_oper_list w → is_Some (conf_opers w !! co_oper e);
  acc_count o b : conf_opers w !! o = Some b → (Z.of_nat (block_uses w o) ≤ oper_refcount b)%Z
}.

(** The tables and lists of clients, and what they are about, are the same. *)
Record same_index (w w' : world) : Prop := SameIndex {
  si_ids : ids w' = ids w;
  si_user_regs : user_regs w' = user_regs w;
  si_conf_opers : conf_opers w' = conf_opers w;
  si_oper_list : oper_list w' = oper_list w;
  si_client_opers : client_oper_list w' = client_oper_list w;
  si_name_table : name_table w' = name_table w;
  si_uid_table : uid_table w' = uid_table w;
  si_user_list : user_list w' = user_list w;
  si_server_list : server_list w' = server_list w;
  si_exited_list : exited_list w' = exited_list w;
  si_service_list : service_list w' = service_list w
}.

#[global] Instance same_index_equiv : Equivalence same_index.
Proof.
  split.
  - intros w. by split.
  - intros w w' []. by split.
  - intros w w' w'' [] []. split; congruence.
Qed.

Lemma tables_ok_same w w' : same_index w w' → tables_ok w → tables_ok w'.
Proof.
  intros [] []. split; intros *; repeat match goal with E : _ w' = _ w |- _ => rewrite E; clear E end; eauto.
Qed.

Lemma tree_ok_same w w' : same_index w w' → tree_ok w → tree_ok w'.
Proof.
  intros [] []. split; intros *; repeat match goal with E : _ w' = _ w |- _ => rewrite E; clear E end; eauto.
Qed.

Lemma accounts_ok_same w w' : same_index w w' → accounts_ok w → accounts_ok w'.
Proof.
  intros [] []. split; intros *; unfold block_uses in *;
    repeat match goal with E : _ w' = _ w |- _ => rewrite E; clear E end; eauto.
Qed.

Lemma same_net_index w w' : same_net w w' → same_index w w'.
Proof. intros []. split; try done. unfold ids. congruence. Qed.

(** ** Lookups *)

(** What a lookup by [field] finds among the clients on the network. *)
Definition found (w : world) (field : ident → string) (name : string) (r : option ptr) : Prop :=
  match r with
  | Some p => ∃ i, ids w !! p = Some i ∧ id_net i = true ∧ irccmp (field i) name = 0
  | None => ∀ p i, ids w !! p = Some i → id_net i = true → field i ≠ ""%string → irccmp (field i) name ≠ 0
  end.
End index.

Section lookups.
Context `{SYS : Sys} `{RB : !RbSpec}.

Lemma irccmp_empty s : irccmp "" s = 0 → no_nul s = true → s = ""%string.
Proof. destruct s as [|c s]; [done|]. intros E Hs. apply irccmp_lower in E; done. Qed.

(** The bucket of a name leads to every client of that name. *)
Lemma client_bucket_ok w (field : client → string) (ifield : ident → string) t (P : ptr → Z → Prop) name :
  (∀ c, field c = ifield (ident_of c)) →
  indexed t P →
  (∀ p h, P p h → ∃ i, ids w !! p = Some i ∧ id_net i = true) →
  (∀ p i, ids w !! p = Some i → id_net i = true → irccmp (ifield i) name = 0 → ifield i ≠ ""%string →
     P p (hash_name name)) →
  ∃ r, find_first (client_has field name) (bucket t (hash_name name)) w = Ok r w ∧ found w ifield name r.
Proof.
  intros Hf Ht Hin Hout.
  destruct (find_first_heap clients (fun c => irccmp (field c) name =? 0) (client_has field name)
    (bucket t (hash_name name)) w) as (r & Er & Hr).
  - intros p c E. unfold client_has, rd. erewrite bind_ok; [|erewrite bind_ok by done; by rewrite E]. done.
  - intros p Hp%Ht. apply Hin in Hp as (i & (c & E & _)%ids_client & _). by exists c.
  - exists r. split; [done|]. destruct r as [p|]; simpl.
    + destruct Hr as (Hp%Ht & c & E & Hc). apply Hin in Hp as (i & Ei & Hn).
      exists i. split; [done|]. split; [done|]. apply ids_client in Ei as (c' & E' & <-). simplify_eq.
      rewrite <- Hf. by apply Z.eqb_eq.
    + intros p i Ei Hn Hne E. pose proof Ei as (c & Ec & <-)%ids_client.
      enough (true = false) by done. rewrite <- (Hr p c).
      * symmetry. apply Z.eqb_eq. by rewrite Hf.
      * apply Ht. by apply (Hout p (ident_of c)).
      * done.
Qed.

Lemma find_named_client_ok w name :
  tables_ok w → no_nul name = true →
  ∃ r, find_named_client name w = Ok r w ∧ found w id_name name r.
Proof.
  intros Hw Hn. unfold find_named_client. erewrite bind_ok by done.
  apply (client_bucket_ok w cl_name id_name _ (filed_name (ids w))); [done|apply Hw| |].
  - intros p h (i & ? & ? & _). by exists i.
  - intros p i E Hnet Hc _. exists i. split; [done|]. split; [done|].
    apply hash_name_irccmp; [by eapply (tab_ident w Hw)|done..].
Qed.

Lemma find_uid_ok w name :
  tables_ok w → no_nul name = true →
  ∃ r, find_uid name w = Ok r w ∧ found w id_uid name r.
Proof.
  intros Hw Hn. unfold find_uid. erewrite bind_ok by done.
  apply (client_bucket_ok w cl_uid id_uid _ (filed_uid (ids w))); [done|apply Hw| |].
  - intros p h (i & ? & ? & _). by exists i.
  - intros p i E Hnet Hc Hne. exists i. split_and!; [done..|].
    apply hash_name_irccmp; [by eapply (tab_ident w Hw)|done..].
Qed.

(** A name that starts with a digit is looked up as a unique id first. *)
Definition found_client (w : world) (name : string) (r : option ptr) : Prop :=
  if IsDigit (deref name) then
    match r with
    | Some _ => found w id_uid name r ∨ (found w id_uid name None ∧ found w id_name name r)
    | None => found w id_uid name None ∧ found w id_name name None
    end
  else found w id_name name r.

Lemma find_client_ok w name :
  tables_ok w → no_nul name = true →
  ∃ r, find_client name w = Ok r w ∧ found_client w name r.
Proof.
  intros Hw Hn. unfold find_client, found_client.
  destruct (find_named_client_ok w name Hw Hn) as (r & Er & Hr). destruct (IsDigit _).
  - destruct (find_uid_ok w name Hw Hn) as (u & Eu & Hu). rewrite (bind_ok _ _ _ _ _ Eu).
    destruct u as [p|]; [exists (Some p); split; [done|by left]|].
    exists r. split; [done|]. destruct r; [by right|done].
  - erewrite bind_ok by done. by exists r.
Qed.

Lemma found_client_live w name p : found_client w name (Some p) → ∃ i, ids w !! p = Some i ∧ id_net i = true.
Proof.
  unfold found_client, found. destruct (IsDigit _); [intros [H|[_ H]]|intros H]; naive_solver.
Qed.

(** The client found, if it is of the kind asked for. *)
Definition restrict (w : world) (k : kind) (r : option ptr) : option ptr :=
  r ≫= fun p => ids w !! p ≫= fun i => if decide (id_kind i = k) then Some p else None.

Definition is_kind (k : kind) : ptr → M world bool :=
  match k with KUser => IsUser | KServer => IsServer | KService => IsService | KOther => fun _ => mret false end.

Lemma is_kind_run w p i k :
  k ≠ KOther → tables_ok w → ids w !! p = Some i → is_kind k p w = Ok (bool_decide (id_kind i = k)) w.
Proof.
  intros Hk Hw E. destruct (tab_ident w Hw p i E) as [Hko _]. apply ids_client in E as (c & Ec & <-).
  simpl in *. unfold kind_of in *.
  destruct k; [| | |done]; cbn [is_kind]; unfold IsUser, IsServer, IsService, rd;
    (erewrite bind_ok; [|erewrite bind_ok by done; by rewrite Ec]); unfold mret, M_ret;
    do 2 f_equal; by destruct (cl_user c), (cl_server c), (cl_service c).
Qed.

Lemma of_kind_run w k r :
  k ≠ KOther → tables_ok w → (∀ p, r = Some p → is_Some (ids w !! p)) →
  of_kind (is_kind k) r w = Ok (restrict w k r) w.
Proof.
  intros Hk Hw Hr. destruct r as [p|]; [|done]. destruct (Hr p eq_refl) as [i E].
  unfold of_kind. rewrite (bind_ok _ _ _ _ _ (is_kind_run w p i k Hk Hw E)).
  unfold restrict. simpl. rewrite E. simpl. by case_bool_decide; case_decide.
Qed.

Lemma found_live w f name p : found w f name (Some p) → is_Some (ids w !! p).
Proof. intros (i & E & _). by exists i. Qed.

Lemma find_user_ok w name :
  tables_ok w → no_nul name = true →
  ∃ r, find_user name true w = Ok (restrict w KUser r) w ∧ found_client w name r.
Proof.
  intros Hw Hn. destruct (find_client_ok w name Hw Hn) as (r & E & Hr). exists r. split; [|done].
  unfold find_user. rewrite (bind_ok _ _ _ _ _ E). apply (of_kind_run w KUser); [done..|].
  intros p ->. apply found_client_live in Hr as (i & ? & _). by exists i.
Qed.

Lemma find_service_ok w name :
  tables_ok w → no_nul name = true →
  ∃ r, find_service name w = Ok (restrict w KService r) w ∧ found_client w name r.
Proof.
  intros Hw Hn. destruct (find_client_ok w name Hw Hn) as (r & E & Hr). exists r. split; [|done].
  unfold find_service. rewrite (bind_ok _ _ _ _ _ E). apply (of_kind_run w KService); [done..|].
  intros p ->. apply found_client_live in Hr as (i & ? & _). by exists i.
Qed.

Lemma find_server_ok w name :
  tables_ok w → no_nul name = true →
  ∃ r, find_server name w = Ok (restrict w KServer r) w ∧ found_client w name r.
Proof.
  intros Hw Hn. destruct (find_client_ok w name Hw Hn) as (r & E & Hr). exists r. split; [|done].
  unfold find_server. rewrite (bind_ok _ _ _ _ _ E). apply (of_kind_run w KServer); [done..|].
  intros p ->. apply found_client_live in Hr as (i & ? & _). by exists i.
Qed.

(** What the handlers use of a lookup. *)
Lemma restrict_kind w k name r p :
  found_client w name r → restrict w k r = Some p → filed_kind (ids w) k true p.
Proof.
  intros Hr. unfold restrict. destruct r as [q|]; [|done]. simpl.
  apply found_client_live in Hr as (i & E & Hn). rewrite E. simpl. case_decide; [|done].
  intros [= <-]. by exists i.
Qed.

Definition opt_kind (w : world) (k : kind) (r : option ptr) : Prop :=
  match r with Some p => filed_kind (ids w) k true p | None => True end.

Lemma wp_find_user w name (Q : option ptr → world → Prop) :
  tables_ok w → no_nul name = true → (∀ r, opt_kind w KUser r → Q r w) → wp (find_user name true) Q w.
Proof.
  intros Hw Hn HQ. destruct (find_user_ok w name Hw Hn) as (r & E & Hr). apply (wp_ok _ _ _ _ _ E), HQ.
  destruct (restrict w KUser r) eqn:Er; [by eapply restrict_kind|done].
Qed.

Lemma wp_find_service w name (Q : option ptr → world → Prop) :
  tables_ok w → no_nul name = true → (∀ r, opt_kind w KService r → Q r w) → wp (find_service name) Q w.
Proof.
  intros Hw Hn HQ. destruct (find_service_ok w name Hw Hn) as (r & E & Hr). apply (wp_ok _ _ _ _ _ E), HQ.
  destruct (restrict w KService r) eqn:Er; [by eapply restrict_kind|done].
Qed.

Lemma wp_find_server w name (Q : option ptr → world → Prop) :
  tables_ok w → no_nul name = true → (∀ r, opt_kind w KServer r → Q r w) → wp (find_server name) Q w.
Proof.
  intros Hw Hn HQ. destruct (find_server_ok w name Hw Hn) as (r & E & Hr). apply (wp_ok _ _ _ _ _ E), HQ.
  destruct (restrict w KServer r) eqn:Er; [by eapply restrict_kind|done].
Qed.

(** A client of a kind has the part that the kind is named after. *)
Lemma kind_user w p net : filed_kind (ids w) KUser net p → ∃ c u, clients w !! p = Some c ∧ cl_user c = Some u.
Proof.
  intros (i & (c & E & <-)%ids_client & Hk & _). exists c. unfold kind_of in Hk. simpl in Hk.
  destruct (cl_user c) as [u|] eqn:Eu; [by exists u|]. unfold kind_of in Hk. rewrite Eu in Hk.
  by destruct (cl_server c), (cl_service c).
Qed.

Lemma kind_service w p net : filed_kind (ids w) KService net p → ∃ c s, clients w !! p = Some c ∧ cl_service c = Some s.
Proof.
  intros (i & (c & E & <-)%ids_client & Hk & _). exists c. simpl in Hk. unfold kind_of in Hk.
  destruct (cl_service c) as [s|] eqn:Es; [by exists s|].
  by destruct (cl_user c), (cl_server c).
Qed.

Lemma kind_server w p net : filed_kind (ids w) KServer net p → ∃ c s, clients w !! p = Some c ∧ cl_server c = Some s.
Proof.
  intros (i & (c & E & <-)%ids_client & Hk & _). exists c. simpl in Hk. unfold kind_of in Hk.
  destruct (cl_server c) as [s|] eqn:Es; [by exists s|].
  by destruct (cl_user c), (cl_service c).
Qed.
End lookups.

(** ** The invariant of the network *)
Section network.
Context `{SYS : Sys}.

Record net_inv (w : world) : Prop := NetInv {
  ni_chan : chan_inv w;
  ni_tables : tables_ok w;
  ni_tree : tree_ok w;
  ni_accounts : accounts_ok w;
  ni_alive m mb : members w !! m = Some mb → filed_kind (ids w) KUser true (mb_client_p mb)
}.

(** Whoever is in a channel was in one before. *)
Definition members_from (w w' : world) : Prop := ∀ m mb',
  members w' !! m = Some mb' → ∃ mb, members w !! m = Some mb ∧ mb_client_p mb = mb_client_p mb'.

Lemma members_from_eq w w' : members w' = members w → members_from w w'.
Proof. intros E m mb' Em. exists mb'. by rewrite <- E. Qed.

Lemma members_from_trans w w' w'' : members_from w w' → members_from w' w'' → members_from w w''.
Proof. intros H1 H2 m mb'' (mb' & (mb & ? & ?)%H1 & ?)%H2. exists mb. split; congruence. Qed.

(** Whatever keeps the identities of clients and the tables keeps all but the channels. *)
Lemma net_inv_index w w' : chan_inv w' → same_index w w' → members_from w w' → net_inv w → net_inv w'.
Proof.
  intros Hc Hi Hm [_ Ht Htr Ha Hal].
  split; [done|by eapply tables_ok_same|by eapply tree_ok_same|by eapply accounts_ok_same|].
  intros m mb' (mb & E & <-)%Hm. rewrite (si_ids _ _ Hi). by eapply Hal.
Qed.

Lemma net_inv_same w w' : same_net w w' → net_inv w → net_inv w'.
Proof.
  intros Hw Hn. apply (net_inv_index w); [|by apply same_net_index| |done].
  - eapply chan_inv_same; [exact Hw|apply Hn].
  - apply members_from_eq, Hw.
Qed.

(** A step after which the channels, members and clients that were there still are,
    the clients on the network or off it as before. *)
Record calm (w w' : world) : Prop := Calm {
  calm_inv : net_inv w';
  calm_hooks : hooks w' = hooks w;
  calm_channels p : is_Some (channels w !! p) → is_Some (channels w' !! p);
  calm_members m mb : members w !! m = Some mb →
    ∃ mb', members w' !! m = Some mb' ∧ mb_chptr mb' = mb_chptr mb ∧ mb_client_p mb' = mb_client_p mb;
  calm_kinds p i : ids w !! p = Some i →
    ∃ i', ids w' !! p = Some i' ∧ id_kind i' = id_kind i ∧ id_net i' = id_net i
}.

Lemma calm_refl w : net_inv w → calm w w.
Proof. intros Hw. split; try done; eauto. Qed.

Lemma calm_trans w w' w'' : calm w w' → calm w' w'' → calm w w''.
Proof.
  intros [H1 E1 C1 M1 K1] [H2 E2 C2 M2 K2]. split; [done|congruence|by auto| |].
  - intros m mb (mb' & E & ? & ?)%M1. apply M2 in E as (mb'' & E & ? & ?). exists mb''. split_and!; congruence.
  - intros p i (i' & E & ? & ?)%K1. apply K2 in E as (i'' & E & ? & ?). exists i''. split_and!; congruence.
Qed.

Lemma filed_calm w w' k net p : calm w w' → filed_kind (ids w) k net p → filed_kind (ids w') k net p.
Proof. intros C (i & (i' & E & ? & ?)%(calm_kinds _ _ C) & <- & <-). by exists i'. Qed.

Lemma calm_same w w' : net_inv w → same_net w w' → calm w w'.
Proof.
  intros Hw Hs. split.
  - by eapply net_inv_same.
  - apply Hs.
  - intros p. by rewrite (sn_channels _ _ Hs).
  - intros m mb. rewrite (sn_members _ _ Hs). eauto.
  - intros p i. rewrite (si_ids _ _ (same_net_index _ _ Hs)). eauto.
Qed.

(** The lists that the parsing of a mode line leaves for the hooks. *)
Definition mode_lists (w : world) : list ptr * list ptr * list ptr * list string :=
  (deopped_list w, opped_list w, voiced_list w, ban_list w).
Definition idle (w : world) : Prop := mode_lists w = ([], [], [], []).

Lemma same_net_lists w w' : same_net w w' → mode_lists w' = mode_lists w.
Proof. intros []. unfold mode_lists. congruence. Qed.

(** *** Hooks *)

(** The hooks whose object is a channel. *)
Definition channel_hook (h : Z) : Prop :=
  h ∈ [HOOK_CHANNEL_JOIN; HOOK_CHANNEL_SJOIN_LOWERTS; HOOK_CHANNEL_MODE_OP; HOOK_CHANNEL_MODE_VOICE;
       HOOK_CHANNEL_MODE_SIMPLE; HOOK_CHANNEL_MODE_BAN; HOOK_CHANNEL_TOPIC].

(** Those that change settings and status only. *)
Definition calm_hook (h : Z) : Prop := channel_hook h ∧ h ≠ HOOK_CHANNEL_JOIN.

Definition live_list (w : world) (l : hook_list) : Prop :=
  match l with Members ms => Forall (fun m => is_Some (members w !! m)) ms | _ => True end.

Definition live_channel (w : world) (a : hook_arg) : Prop :=
  match a with HookPtr p => is_Some (channels w !! p) | _ => False end.
(** The kind of list is kept. *)
Definition same_shape (l l' : hook_list) : Prop :=
  match l, l' with
  | NoList, NoList | Members _, Members _ | Bans _, Bans _ | Text _, Text _ => True
  | _, _ => False
  end.

(** The calls of [c_pong()] when the uplink, and when a server, has sent its burst,
    and that of [c_encap()] for a user who was logged in before it.  The hooks may
    send whatever they like and make servers exit. *)
Definition eob_call (w : world) (h : Z) (a : hook_arg) : Prop :=
  (h = HOOK_EOB_UPLINK ∧ a = HookNull) ∨
  (h = HOOK_EOB_SERVER ∧ ∃ p c sv, a = HookPtr p ∧ clients w !! p = Some c ∧ cl_server c = Some sv) ∨
  (h = HOOK_USERSERV_LOGIN_BURST ∧ ∃ p i, a = HookPtr p ∧ ids w !! p = Some i ∧ id_kind i = KUser).

Definition kinds_kept (w w' : world) : Prop :=
  ∀ p i, ids w !! p = Some i → ∃ i', ids w' !! p = Some i' ∧ id_kind i' = id_kind i.

(** What the handlers rely on. *)
Class HooksOk : Prop := {
  hooks_quiet :: QuietHooks;
  hooks_calm w h a f l :
    calm_hook h → net_inv w → live_channel w a → live_list w l → f ∈ bucket (hooks w) h →
    wp (hook_func f a l) (fun r w' =>
      calm w w' ∧ mode_lists w' = mode_lists w ∧ live_list w' (snd r) ∧ same_shape l (snd r)) w;
  hooks_join w a f ms :
    net_inv w → idle w → live_channel w a → live_list w (Members ms) → f ∈ bucket (hooks w) HOOK_CHANNEL_JOIN →
    wp (hook_func f a (Members ms)) (fun r w' =>
      net_inv w' ∧ idle w' ∧ hooks w' = hooks w ∧ live_channel w' a ∧
      ∃ ms', snd r = Members ms' ∧ live_list w' (Members ms')) w;
  hooks_eob w h a f l :
    eob_call w h a → net_inv w → idle w → f ∈ bucket (hooks w) h →
    wp (hook_func f a l) (fun _ w' => net_inv w' ∧ idle w' ∧ hooks w' = hooks w ∧ kinds_kept w w') w
}.
End network.

Section hooks_ok.
Context `{SYS : Sys} `{RB : !RbSpec} `{HK : !HooksOk}.

Lemma wp_calm_run h a fs : ∀ w l,
  calm_hook h → net_inv w → live_channel w a → live_list w l → (∀ f, f ∈ fs → f ∈ bucket (hooks w) h) →
  wp (hook_run fs a l) (fun r w' =>
    calm w w' ∧ mode_lists w' = mode_lists w ∧ live_list w' (snd r) ∧ same_shape l (snd r)) w.
Proof.
  induction fs as [|f fs IH]; intros w l Hh Hw Ha Hl Hfs.
  { apply wp_ret. split_and!; [by apply calm_refl|done..|by destruct l]. }
  cbn [hook_run]. apply wp_bind. eapply wp_conseq.
  { apply (hooks_calm w h); [done..|]. apply Hfs. by left. }
  cbn beta. intros [r l1] w1 (Hc & Hm & Hl1 & Hs1). cbn [fst snd] in *.
  destruct (r <? 0); [by apply wp_ret|].
  eapply wp_conseq; [apply IH; [done|apply Hc| |done|]|].
  - destruct a as [|p|]; [done| |done]. by apply (calm_channels _ _ Hc).
  - intros g Hg. rewrite (calm_hooks _ _ Hc). apply Hfs. by right.
  - cbn beta. intros r' w2 (Hc' & Hm' & Hl' & Hs'). split_and!; [by eapply calm_trans|congruence|done|].
    by destruct l, l1, (snd r').
Qed.

Lemma wp_calm_call w h a l (Q : Z * hook_list → world → Prop) :
  calm_hook h → net_inv w → live_channel w a → live_list w l →
  (∀ r w', calm w w' → mode_lists w' = mode_lists w → live_list w' (snd r) → same_shape l (snd r) → Q r w') →
  wp (hook_call h a l) Q w.
Proof.
  intros Hh Hw Ha Hl HQ. unfold hook_call. destruct (_ <=? _).
  { apply wp_ret, HQ; [by apply calm_refl|done..|by destruct l]. }
  wp_step. wp_step. eapply wp_conseq; [by apply (wp_calm_run h)|].
  cbn beta. intros r w' (? & ? & ? & ?). by apply HQ.
Qed.

Lemma wp_calm_hook w h p (Q : unit → world → Prop) :
  calm_hook h → net_inv w → is_Some (channels w !! p) →
  (∀ w', calm w w' → mode_lists w' = mode_lists w → Q tt w') →
  wp (hook h (HookPtr p)) Q w.
Proof.
  intros Hh Hw Hp HQ. unfold hook. apply wp_bind. apply wp_calm_call; [done..|].
  intros r w' ? ? _ _. apply wp_ret. by apply HQ.
Qed.

Lemma wp_join_run a fs : ∀ w ms,
  net_inv w → idle w → live_channel w a → live_list w (Members ms) →
  (∀ f, f ∈ fs → f ∈ bucket (hooks w) HOOK_CHANNEL_JOIN) →
  wp (hook_run fs a (Members ms)) (fun r w' => net_inv w' ∧ idle w') w.
Proof.
  induction fs as [|f fs IH]; intros w ms Hw Hi Ha Hl Hfs; [by apply wp_ret|].
  cbn [hook_run]. apply wp_bind. eapply wp_conseq.
  { apply hooks_join; [done..|]. apply Hfs. by left. }
  cbn beta. intros [r l1] w1 (Hn & Hi1 & Hh & Ha1 & ms1 & E & Hl1). cbn [fst snd] in *. subst l1.
  destruct (r <? 0); [by apply wp_ret|]. apply IH; [done..|].
  intros g Hg. rewrite Hh. apply Hfs. by right.
Qed.

Lemma wp_join_hook w p ms (Q : Z * hook_list → world → Prop) :
  net_inv w → idle w → is_Some (channels w !! p) → Forall (fun m => is_Some (members w !! m)) ms →
  (∀ r w', net_inv w' → idle w' → Q r w') →
  wp (hook_call HOOK_CHANNEL_JOIN (HookPtr p) (Members ms)) Q w.
Proof.
  intros Hw Hi Hp Hl HQ. unfold hook_call. change (HOOK_LAST_HOOK <=? HOOK_CHANNEL_JOIN) with false. cbn iota.
  wp_step. wp_step. eapply wp_conseq; [by apply wp_join_run|].
  cbn beta. intros r w' [? ?]. by apply HQ.
Qed.
End hooks_ok.

(** ** Operations on the network *)
Section steps.
Context `{SYS : Sys} `{RB : !RbSpec} `{QH : !QuietHooks}.

(** A change of channels and members, which no table of clients is about. *)

Lemma user_channels_ident f c : ident_of (upd_user_channels f c) = ident_of c.
Proof. unfold ident_of, kind_of, on_net. simpl. by destruct (cl_user c). Qed.

Lemma remove_index w m mb : same_index w (remove_member m mb w).
Proof. split; try done. unfold ids. simpl. apply ids_alter, user_channels_ident. Qed.

Lemma insert_index w m mb : same_index w (insert_member m mb w).
Proof. split; try done. unfold ids. simpl. apply ids_alter, user_channels_ident. Qed.

Lemma after_leave_members w p : members (after_leave p w) = members w.
Proof. unfold after_leave. destruct (channels w !! p) as [ch|]; [|done]. by destruct (channel_empty ch). Qed.

Lemma after_leave_index w p : same_index w (after_leave p w).
Proof. unfold after_leave. destruct (channels w !! p); [|done]. by destruct (channel_empty _). Qed.

(** What a step on members leaves alone besides. *)
Record same_rest (w w' : world) : Prop := SameRest {
  sr_ids : ids w' = ids w;
  sr_lists : mode_lists w' = mode_lists w;
  sr_hooks : hooks w' = hooks w
}.

Lemma same_net_rest w w' w'' : same_rest w w' → same_net w' w'' → same_rest w w''.
Proof.
  intros [] Hs. split.
  - by rewrite (si_ids _ _ (same_net_index _ _ Hs)).
  - by rewrite (same_net_lists _ _ Hs).
  - by rewrite (sn_hooks _ _ Hs).
Qed.

Lemma after_leave_rest w p : same_rest w (after_leave p w).
Proof. unfold after_leave. destruct (channels w !! p); [|done]. by destruct (channel_empty _). Qed.

(** A member leaves. *)
Lemma wp_leave w m mb (Q : unit → world → Prop) :
  net_inv w → members w !! m = Some mb →
  (∀ w', net_inv w' → same_rest w w' → same_net (after_leave (mb_chptr mb) (remove_member m mb w)) w' → Q tt w') →
  wp (del_chmember m) Q w.
Proof.
  intros Hw Em HQ. eapply wp_conseq; [by apply wp_del_chmember_inv; [apply Hw|]|].
  cbn beta. intros [] w' [Hc Hs]. apply HQ; [| |done].
  - eapply net_inv_index; [done| | |exact Hw].
    + etrans; [apply (remove_index w m mb)|].
      etrans; [apply (after_leave_index _ (mb_chptr mb))|]. by apply same_net_index.
    + intros x xb. rewrite (sn_members _ _ Hs), after_leave_members. simpl. intros [_ E]%lookup_delete_Some. by exists xb.
  - eapply same_net_rest; [|exact Hs].
    pose proof (after_leave_rest (remove_member m mb w) (mb_chptr mb)) as []. split.
    + rewrite sr_ids0. apply (remove_index w m mb).
    + by rewrite sr_lists0.
    + by rewrite sr_hooks0.
Qed.

(** A user joins. *)
Lemma net_inv_insert w m mb :
  net_inv w → may_join w m mb → filed_kind (ids w) KUser true (mb_client_p mb) → net_inv (insert_member m mb w).
Proof.
  intros Hw Hj Hu. pose proof (insert_index w m mb) as Hi. destruct Hw as [Hc Ht Htr Ha Hal].
  split; [by apply chan_inv_insert|by eapply tables_ok_same|by eapply tree_ok_same|by eapply accounts_ok_same|].
  intros x xb. rewrite (si_ids _ _ Hi). simpl. rewrite lookup_insert_Some. intros [[_ <-]|[_ E]]; [done|by eapply Hal].
Qed.

Lemma wp_enter w chptr target_p flags (Q : ptr → world → Prop) :
  net_inv w → is_Some (channels w !! chptr) → filed_kind (ids w) KUser true target_p →
  (∀ m, ¬ member_with w (fun mb => in_channel chptr mb ∧ of_client target_p mb) m) →
  (∀ m w', calm w w' → same_rest w w' → members w !! m = None → is_Some (members w' !! m) →
     same_net (insert_member m (Chmember chptr target_p (uint32 flags)) w) w' → Q m w') →
  wp (add_chmember chptr target_p flags) Q w.
Proof.
  intros Hw Hch Hu Hnew HQ. set (m := rb_bh_alloc (dom (members w))).
  set (mb := Chmember chptr target_p (uint32 flags)).
  assert (members w !! m = None) as Hfresh by apply fresh_member.
  assert (may_join w m mb) as Hj by (split; [done..|by eapply kind_user|done]).
  apply wp_add_chmember; [done|]. intros w' Hs. fold m mb in Hs.
  assert (net_inv (insert_member m mb w)) as Hn.
  { apply net_inv_insert; [done..|]. exact Hu. }
  assert (same_rest w (insert_member m mb w)) as Hr by (split; [apply insert_index|done..]).
  apply HQ; [| |done| |done].
  - eapply calm_trans; [|by apply calm_same]. split; [done|done|..].
    + intros p. simpl. by rewrite lookup_alter_is_Some.
    + intros x xb E. exists xb. split; [|done]. simpl. rewrite lookup_insert_ne; [done|].
      intros E'. subst x. unfold m in *. congruence.
    + intros p i E. exists i. by rewrite (sr_ids _ _ Hr).
  - by eapply same_net_rest.
  - rewrite (sn_members _ _ Hs). simpl. rewrite lookup_insert_eq. by eexists.
Qed.

Lemma set_status_calm w m mb fl :
  net_inv w → members w !! m = Some mb → calm w (set_status m mb fl w) ∧ same_rest w (set_status m mb fl w).
Proof.
  intros Hw Em. split; [|by split]. split.
  - apply (net_inv_index w); [by apply chan_inv_status; [apply Hw|]|by split| |done].
    intros x xb. simpl. rewrite lookup_insert_Some. intros [[<- <-]|[_ E]]; [by exists mb|by exists xb].
  - done.
  - intros p. simpl. by rewrite lookup_alter_is_Some.
  - intros x xb E. simpl. destruct (decide (m = x)) as [->|].
    + exists (mb <| mb_flags := fl |>). rewrite lookup_insert_eq. by simplify_eq.
    + exists xb. by rewrite lookup_insert_ne.
  - intros p i E. exists i. done.
Qed.

(** The conditional form in which the operations change the status. *)
Lemma status_calm w m mb (b : bool) fl w' :
  net_inv w → members w !! m = Some mb → same_net (if b then set_status m mb fl w else w) w' →
  calm w w' ∧ same_rest w w'.
Proof.
  intros Hw Em Hs. destruct (set_status_calm w m mb fl Hw Em) as [H1 H2]. destruct b; split.
  - eapply calm_trans; [exact H1|]. apply calm_same; [apply H1|done].
  - by eapply same_net_rest.
  - by apply calm_same.
  - eapply same_net_rest; [by split|exact Hs].
Qed.

Lemma wp_op w m (Q : unit → world → Prop) :
  net_inv w → is_Some (members w !! m) → (∀ w', calm w w' → same_rest w w' → Q tt w') → wp (op_chmember m) Q w.
Proof.
  intros Hw [mb Em] HQ. eapply wp_op_chmember; [apply Hw|exact Em|]. intros w' Hs.
  destruct (status_calm w m mb (negb (is_opped mb)) (opped_flags (mb_flags mb)) w') as [? ?]; [done..| |by apply HQ].
  by destruct (is_opped mb).
Qed.

Lemma wp_deop w m (Q : unit → world → Prop) :
  net_inv w → is_Some (members w !! m) → (∀ w', calm w w' → same_rest w w' → Q tt w') → wp (deop_chmember m) Q w.
Proof.
  intros Hw [mb Em] HQ. eapply wp_deop_chmember; [apply Hw|exact Em|]. intros w' Hs.
  destruct (status_calm w m mb _ _ w' Hw Em Hs) as [? ?]. by apply HQ.
Qed.

(** Flags other than the operator's. *)
Lemma wp_flags w m f (Q : unit → world → Prop) :
  net_inv w → is_Some (members w !! m) → (∀ fl, has_flag (f fl) MODE_OPPED = has_flag fl MODE_OPPED) →
  (∀ w', calm w w' → same_rest w w' → Q tt w') → wp (upd_member m (fun mb => mb <| mb_flags ::= f |>)) Q w.
Proof.
  intros Hw [mb Em] Hf HQ. eapply wp_member_flags; [exact Em|apply Hf|]. intros w' Hs.
  destruct (status_calm w m mb true _ w' Hw Em Hs) as [? ?]. by apply HQ.
Qed.

(** Settings of a channel. *)
Lemma wp_settings_exact w p f (Q : unit → world → Prop) :
  net_inv w → is_Some (channels w !! p) → (∀ ch, same_lists ch (f ch)) →
  (let w' := w <| channels ::= alter f p |> in calm w w' → same_rest w w' → Q tt w') → wp (upd_channel p f) Q w.
Proof.
  intros Hw [ch Ech] Hf HQ. eapply wp_upd_channel; [exact Ech|]. apply HQ; [|by split]. split.
  - apply (net_inv_index w); [by apply chan_inv_settings; [|apply Hw]|by split|by apply members_from_eq|done].
  - done.
  - intros q. simpl. by rewrite lookup_alter_is_Some.
  - eauto.
  - intros q i E. by exists i.
Qed.

Lemma wp_settings w p f (Q : unit → world → Prop) :
  net_inv w → is_Some (channels w !! p) → (∀ ch, same_lists ch (f ch)) →
  (∀ w', calm w w' → same_rest w w' → Q tt w') → wp (upd_channel p f) Q w.
Proof. intros Hw Hp Hf HQ. apply wp_settings_exact; [done..|]. intros w' C R. by apply HQ. Qed.

(** Sending, logging and the like. *)
Lemma wp_still {A} (m : M world A) w (Q : A → world → Prop) :
  net_inv w → quiet m w → (∀ a w', same_net w w' → net_inv w' → Q a w') → wp m Q w.
Proof. intros Hw Hm HQ. eapply wp_quiet; [exact Hm|]. intros a w' Hs. apply HQ; [done|]. by eapply net_inv_same. Qed.

(** *** Quiet operations *)
Lemma quiet_send_sjoin w s p : is_Some (clients w !! s) → is_Some (channels w !! p) → quiet (send_sjoin s p) w.
Proof.
  intros [c Ec] [ch Ech]. unfold send_sjoin, quiet. apply wp_bind. apply (wp_gets (fun s => s)).
  apply wp_bind. eapply wp_rd; [exact Ec|]. apply wp_bind. eapply wp_rd; [exact Ech|]. apply quiet_sendto_server.
Qed.

Lemma quiet_rejoin_service w s p reop :
  is_Some (clients w !! s) → is_Some (channels w !! p) → quiet (rejoin_service s p reop) w.
Proof.
  intros Hs Hp. pose proof Hs as [c Ec]. pose proof Hp as [ch Ech]. unfold rejoin_service, quiet.
  apply wp_bind. apply (wp_gets (fun s => s)). apply wp_bind. eapply wp_rd; [exact Ec|].
  apply wp_bind. eapply wp_rd; [exact Ech|]. destruct (reop && _); [apply quiet_sendto_server|].
  apply quiet_bind; [apply quiet_when; intros; apply quiet_sendto_server|]. intros _ w' Hw.
  apply quiet_send_sjoin; [by rewrite (sn_clients _ _ Hw)|by rewrite (sn_channels _ _ Hw)].
Qed.

Lemma wp_member_lookup w chptr target_p (Q : option ptr → world → Prop) :
  net_inv w → is_Some (channels w !! chptr) → (∃ c u, clients w !! target_p = Some c ∧ cl_user c = Some u) →
  (∀ r, match r with
        | Some m => member_with w (fun mb => in_channel chptr mb ∧ of_client target_p mb) m
        | None => ∀ m, ¬ member_with w (fun mb => in_channel chptr mb ∧ of_client target_p mb) m
        end → Q r w) →
  wp (find_chmember chptr target_p) Q w.
Proof. intros Hw [ch E] (c & u & Ec & Eu) HQ. eapply wp_find_chmember; [apply Hw|done..]. Qed.
End steps.

(** ** Fields of a user that no list depends on *)
Section user_fields.
Context `{SYS : Sys} `{RB : !RbSpec}.

Definition upd_user_field (f : user → user) (c : client) : client := c <| cl_user ::= fmap f |>.

Lemma chan_inv_user w p f :
  (∀ u, us_channels (f u) = us_channels u) → chan_inv w →
  chan_inv (w <| clients ::= alter (upd_user_field f) p |>).
Proof.
  intros Hf [Hc Hm Hs]. set (w' := w <| clients ::= alter (upd_user_field f) p |>).
  assert (∀ q c', clients w' !! q = Some c' → ∃ c, clients w !! q = Some c ∧
    cl_service c' = cl_service c ∧ (us_channels <$> cl_user c') = (us_channels <$> cl_user c)) as Hback.
  { intros q c'. simpl. rewrite lookup_alter_iff. intros (c & E & ->). exists c. split; [done|].
    case_decide; [|done]. split; [done|]. simpl. destruct (cl_user c); [|done]. simpl. by rewrite Hf. }
  split.
  - destruct Hc. by split.
  - split; try apply Hm.
    + intros m mb E. destruct (memb_user w Hm m mb E) as (c & u & Ec & Eu). simpl.
      destruct (decide (p = mb_client_p mb)) as [Ep|Ep].
      * exists (upd_user_field f c), (f u). split; [|simpl; by rewrite Eu].
        apply lookup_alter_iff. exists c. by rewrite decide_True.
      * exists c, u. split; [|done]. apply lookup_alter_iff. exists c. by rewrite decide_False.
    + intros q c' u' (c & Ec & _ & Eu)%Hback E'. rewrite E' in Eu. simpl in Eu.
      destruct (cl_user c) as [u|] eqn:Eu0; [|done]. injection Eu as ->. by apply (memb_channels w Hm q c).
  - eapply (servs_ok_alter w w' 1%positive (fun ch => ch) p (upd_user_field f)); [by intros; split|done| |done|done].
    simpl. symmetry. by apply alter_id.
Qed.

Lemma net_inv_user w p f :
  (∀ u, us_channels (f u) = us_channels u ∧ us_oper (f u) = us_oper u ∧ us_user_reg (f u) = us_user_reg u ∧
     us_servername (f u) = us_servername u) →
  net_inv w →
  net_inv (w <| clients ::= alter (upd_user_field f) p |>).
Proof.
  intros Hf Hn. apply (net_inv_index w); [by apply chan_inv_user; [intros; apply Hf|apply Hn]| |by apply members_from_eq|done].
  split; try done. unfold ids. simpl. apply ids_alter. intros c.
  unfold ident_of, kind_of, on_net, users_behind, servers_behind. simpl. destruct (cl_user c) as [u|]; [|done].
  simpl. by destruct (Hf u) as (_ & -> & -> & ->).
Qed.
End user_fields.
