(* ===== verification/Handlers.v ===== *)
(** * The channel commands keep the network sound

    For every line that the parser can hand to them, the handlers of PART, KICK,
    TOPIC and TB end without a memory fault in a state that satisfies
    the invariant of the network; the services' hooks are those of [HooksOk]. *)

From S2P Require Import Prelude CString Match Rblib Tools Fault World Lookup ModeBuild Channel SimpleMode ChanCmd Net Members Index.

(** What the parser of the server protocol hands to a handler: texts. *)
Definition parv_ok (parv : list string) : Prop := Forall (fun s => no_nul s = true) parv.

Lemma parv_lookup parv i x : parv_ok parv → parv !! i = Some x → no_nul x = true.
Proof. intros Hp E. by apply (Forall_lookup_1 (fun s => no_nul s = true) parv i). Qed.

Lemma parv_drop n parv : parv_ok parv → parv_ok (drop n parv).
Proof. apply Forall_drop. Qed.

Section arguments.
Context `{SYS : Sys}.

Lemma wp_argv parv i (Q : option string → world → Prop) w :
  (i ≤ length parv)%nat → Q (parv !! i) w → wp (argv parv i) Q w.
Proof.
  intros Hi HQ. unfold argv. destruct (i <? length parv)%nat eqn:E; [by apply wp_ret|].
  apply Nat.ltb_ge in E. rewrite (proj2 (Nat.eqb_eq i (length parv))) by lia. apply wp_ret.
  by rewrite <- (lookup_ge_None_2 parv i).
Qed.

Lemma wp_arg parv i (Q : string → world → Prop) w :
  parv_ok parv → (i < length parv)%nat → (∀ x, parv !! i = Some x → no_nul x = true → Q x w) → wp (arg parv i) Q w.
Proof.
  intros Hp Hi HQ. destruct (lookup_lt_is_Some_2 parv i Hi) as [x E].
  unfold arg. apply wp_bind, wp_argv; [lia|]. eapply wp_need; [exact E|].
  apply HQ; [done|]. by eapply parv_lookup.
Qed.

Lemma is_empty_false x : is_empty x = false → is_Some x.
Proof. destruct x; [by eexists|done]. Qed.
End arguments.

(** The guards at the head of the handlers. *)
Ltac bool_len :=
  repeat match goal with
  | H : (_ <? _)%nat = false |- _ => apply Nat.ltb_ge in H
  | H : (_ <? _)%nat = true |- _ => apply Nat.ltb_lt in H
  | H : (_ <=? _)%nat = false |- _ => apply Nat.leb_gt in H
  | H : (_ <=? _)%nat = true |- _ => apply Nat.leb_le in H
  | H : (_ =? _)%nat = true |- _ => apply Nat.eqb_eq in H
  | H : (_ =? _)%nat = false |- _ => apply Nat.eqb_neq in H
  end.

Section handlers.
Context `{SYS : Sys} `{RB : !RbSpec} `{HK : !HooksOk}.

(** Between two commands. *)
Definition good (w : world) : Prop := net_inv w ∧ idle w.

Lemma good_still {A} (m : M world A) w : good w → quiet m w → wp m (fun _ => good) w.
Proof.
  intros [Hn Hi] Hm. eapply wp_still; [done..|]. intros a w' Hs Hn'. split; [done|].
  unfold idle. by rewrite (same_net_lists _ _ Hs).
Qed.

Lemma idle_rest w w' : same_rest w w' → idle w → idle w'.
Proof. intros Hr Hi. unfold idle. by rewrite (sr_lists _ _ Hr). Qed.

Lemma idle_lists w w' : mode_lists w' = mode_lists w → idle w → idle w'.
Proof. unfold idle. by intros ->. Qed.

Lemma wp_named_channel w name (Q : option ptr → world → Prop) :
  good w → no_nul name = true →
  (∀ r, find_channel_spec name w r → Q r w) → wp (find_channel name) Q w.
Proof. intros [Hn _] Hname HQ. apply wp_find_channel; [apply Hn|done..]. Qed.

(** A member, if one is found, leaves. *)
Lemma wp_leave_good w m mb :
  good w → members w !! m = Some mb → wp (del_chmember m) (fun _ => good) w.
Proof.
  intros [Hn Hi] Em. eapply wp_leave; [done..|]. intros w' Hn' Hr _. split; [done|]. by eapply idle_rest.
Qed.

Lemma wp_part_from w chptr client_p :
  good w → is_Some (channels w !! chptr) → (∃ c u, clients w !! client_p = Some c ∧ cl_user c = Some u) →
  wp (m ← find_chmember chptr client_p; match m with None => mret tt | Some mptr => del_chmember mptr end)
    (fun _ => good) w.
Proof.
  intros Hw Hch Hu. apply wp_bind. apply wp_member_lookup; [apply Hw|done..|]. intros [m|] Hm; [|by apply wp_ret].
  destruct Hm as (mb & E & _). by eapply wp_leave_good.
Qed.

Lemma wp_IsUser w p (Q : bool → world → Prop) :
  is_Some (clients w !! p) →
  (∀ b, (b = true → ∃ c u, clients w !! p = Some c ∧ cl_user c = Some u) → Q b w) → wp (IsUser p) Q w.
Proof.
  intros [c E] HQ. unfold IsUser. apply wp_bind. eapply wp_rd; [exact E|]. apply wp_ret, HQ.
  intros Hb. apply bool_decide_eq_true in Hb as [u Eu]. by exists c, u.
Qed.

Lemma wp_IsServer w p (Q : bool → world → Prop) :
  is_Some (clients w !! p) → (∀ b, Q b w) → wp (IsServer p) Q w.
Proof. intros [c E] HQ. unfold IsServer. apply wp_bind. eapply wp_rd; [exact E|]. by apply wp_ret. Qed.

Lemma c_part_good w client_p parv :
  good w → parv_ok parv → is_Some (clients w !! client_p) → wp (c_part client_p parv) (fun _ => good) w.
Proof.
  intros Hw Hp Hc. unfold c_part. destruct (_ <? _)%nat eqn:E1; bool_len; [by apply wp_ret|].
  apply wp_bind, wp_argv; [lia|]. destruct (is_empty _) eqn:E2; [by apply wp_ret|].
  apply is_empty_false in E2 as [name En]. apply wp_bind, wp_IsUser; [done|]. intros b Hu.
  destruct b; cbn [negb]; [|by apply wp_ret]. specialize (Hu eq_refl).
  apply wp_bind. eapply wp_need; [exact En|].
  apply wp_bind, wp_named_channel; [done|by eapply parv_lookup|]. intros [chptr|] Hr; [|by apply wp_ret].
  destruct Hr as (ch & Ech & _). apply wp_part_from; [done|by eexists|done].
Qed.

Lemma c_kick_good w client_p parv :
  good w → parv_ok parv → wp (c_kick client_p parv) (fun _ => good) w.
Proof.
  intros Hw Hp. unfold c_kick. destruct (_ <? _)%nat eqn:E1; bool_len; [by apply wp_ret|].
  apply wp_bind, wp_argv; [lia|]. destruct (is_empty _) eqn:E2; [by apply wp_ret|].
  apply is_empty_false in E2 as [nick En]. pose proof (parv_lookup _ _ _ Hp En) as Hnick.
  apply wp_bind, wp_arg; [done|lia|]. intros name Ename Hname.
  apply wp_bind. eapply wp_need; [exact En|].
  apply wp_bind, wp_named_channel; [done..|]. intros [chptr|] Hr; [|by apply wp_ret].
  destruct Hr as (ch & Ech & _).
  apply wp_bind, wp_find_service; [apply Hw|done|]. intros [s|] Hs.
  { apply good_still; [done|]. apply quiet_rejoin_service; [|by eexists].
    destruct Hs as (i & (c & Ec & _)%ids_client & _). by exists c. }
  apply wp_bind, wp_find_user; [apply Hw|done|]. intros [t|] Ht; [|by apply wp_ret].
  apply wp_part_from; [done|by eexists|]. by eapply kind_user.
Qed.

(** Settings of a channel, and the hooks that may follow. *)
Definition good_at (chptr : ptr) (w : world) : Prop := good w ∧ is_Some (channels w !! chptr).

Lemma good_calm chptr w w' : good_at chptr w → calm w w' → mode_lists w' = mode_lists w → good_at chptr w'.
Proof.
  intros [[Hn Hi] Hch] Hc Hl. split; [split; [apply Hc|]|by apply (calm_channels _ _ Hc)].
  by eapply idle_lists.
Qed.

Lemma wp_set_good w chptr f :
  good_at chptr w → (∀ ch, same_lists ch (f ch)) → wp (upd_channel chptr f) (fun _ => good_at chptr) w.
Proof.
  intros Hw Hf. apply wp_settings; [apply Hw..|done|]. intros w1 Hc Hr.
  eapply good_calm; [done..|apply Hr].
Qed.

Lemma wp_hook_good w h chptr :
  good_at chptr w → calm_hook h → wp (hook h (HookPtr chptr)) (fun _ => good_at chptr) w.
Proof.
  intros Hw Hh. apply wp_calm_hook; [done|apply Hw..|]. intros w1 Hc Hl. by eapply good_calm.
Qed.

Lemma good_at_good chptr w : good_at chptr w → good w.
Proof. by intros []. Qed.

Lemma calm_topic : calm_hook HOOK_CHANNEL_TOPIC.
Proof. split; [unfold channel_hook; set_solver|done]. Qed.

Lemma c_topic_good w client_p parv :
  good w → parv_ok parv → is_Some (clients w !! client_p) → wp (c_topic client_p parv) (fun _ => good) w.
Proof.
  intros Hw Hp [c Ec]. unfold c_topic. destruct (_ <? _)%nat eqn:E1; bool_len; [by apply wp_ret|].
  apply wp_bind, wp_arg; [done|lia|]. intros name Ename Hname.
  apply wp_bind, wp_named_channel; [done..|]. intros [chptr|] Hr; [|by apply wp_ret].
  destruct Hr as (ch & Ech & _). assert (good_at chptr w) as Hg by (split; [done|by eexists]).
  apply wp_bind, wp_argv; [lia|]. apply wp_bind.
  apply wp_conseq with (Q := fun _ => good_at chptr).
  - destruct (is_empty _) eqn:E2; [by apply wp_set_good|].
    apply is_empty_false in E2 as [topic Et]. apply wp_bind. eapply wp_need; [exact Et|].
    apply wp_bind. eapply wp_rd; [exact Ec|]. cbv zeta. apply wp_bind, wp_gets. by apply wp_set_good.
  - intros [] w1 Hg1. eapply wp_conseq; [by apply wp_hook_good, calm_topic|]. intros a w2 Hg2. exact (good_at_good _ _ Hg2).
Qed.

Lemma set_topic_good w chptr topic who :
  good_at chptr w → wp (set_topic chptr topic who) (fun _ => good) w.
Proof.
  intros Hg. unfold set_topic. apply wp_bind, wp_gets. apply wp_bind.
  eapply wp_conseq; [by apply wp_set_good|]. intros [] w1 Hg1.
  eapply wp_conseq; [by apply wp_hook_good, calm_topic|]. intros a w2 Hg2. exact (good_at_good _ _ Hg2).
Qed.

Lemma c_tb_good w client_p parv :
  good w → parv_ok parv → is_Some (clients w !! client_p) → wp (c_tb client_p parv) (fun _ => good) w.
Proof.
  intros Hw Hp [c Ec]. unfold c_tb. destruct (_ <? _)%nat eqn:E1; bool_len; [by apply wp_ret|].
  apply wp_bind, wp_IsServer; [by eexists|]. intros [|]; cbn [negb]; [|by apply wp_ret].
  apply wp_bind, wp_arg; [done|lia|]. intros name Ename Hname.
  apply wp_bind, wp_named_channel; [done..|]. intros [chptr|] Hr; [|by apply wp_ret].
  destruct Hr as (ch & Ech & _). assert (good_at chptr w) as Hg by (split; [done|by eexists]).
  apply wp_bind, wp_arg; [done|lia|]. intros ts Ets Hts. cbv zeta.
  apply wp_bind. eapply wp_rd; [exact Ech|]. destruct (_ && _); [by apply wp_ret|].
  destruct (_ =? _)%nat eqn:E4; bool_len.
  - apply wp_bind, wp_argv; [lia|]. destruct (is_empty _) eqn:E2; [by apply wp_ret|].
    apply is_empty_false in E2 as [topic Et]. apply wp_bind. eapply wp_need; [exact Et|].
    apply wp_bind, wp_arg; [done|lia|]. intros who _ _. by apply set_topic_good.
  - apply wp_bind, wp_argv; [lia|]. destruct (is_empty _) eqn:E2; [by apply wp_ret|].
    apply is_empty_false in E2 as [topic Et]. apply wp_bind. eapply wp_need; [exact Et|].
    apply wp_bind. eapply wp_rd; [exact Ec|]. by apply set_topic_good.
Qed.
End handlers.
