(* ===== verification/Joins.v ===== *)
(** * Joins keep the network sound

    JOIN and SJOIN: the channel is found or made, a lower timestamp clears its
    modes and the status of its members, and the users of the line become members. *)

From S2P Require Import Prelude CString Match Rblib Tools Fault World Lookup ModeBuild Channel SimpleMode ChanCmd Net Members Index Handlers.

Section clearing.
Context `{SYS : Sys} `{RB : !RbSpec} `{HK : !HooksOk}.

Lemma good_at_calm chptr w w' : good_at chptr w → calm w w' → same_rest w w' → good_at chptr w'.
Proof. intros Hw Hc Hr. eapply good_calm; [done..|apply Hr]. Qed.

(** Memberships are still there as they were, and so are the time and the modes of [p];
    new memberships are of [p], and no other channel changes. *)
Record steady (p : ptr) (w w' : world) : Prop := Steady {
  steady_members m mb : members w !! m = Some mb → members w' !! m = Some mb;
  steady_new m mb : members w' !! m = Some mb → members w !! m = None → mb_chptr mb = p;
  steady_others q : q ≠ p → channels w' !! q = channels w !! q;
  steady_channel ch : channels w !! p = Some ch →
    ∃ ch', channels w' !! p = Some ch' ∧ ch_tsinfo ch' = ch_tsinfo ch ∧ ch_mode ch' = ch_mode ch
}.

Lemma steady_refl p w : steady p w w.
Proof. split; try done; [congruence|eauto]. Qed.

Lemma steady_trans p w w' w'' : steady p w w' → steady p w' w'' → steady p w w''.
Proof.
  intros [M1 N1 O1 C1] [M2 N2 O2 C2]. split; [by auto| |intros q Hq; by rewrite O2, O1|].
  - intros m mb E E0. destruct (members w' !! m) as [mb'|] eqn:E1; [|by eapply N2].
    rewrite (M2 _ _ E1) in E. injection E as <-. by eapply N1.
  - intros ch (ch1 & E1 & ? & ?)%C1. apply C2 in E1 as (ch2 & E2 & ? & ?). exists ch2. split_and!; congruence.
Qed.

Lemma steady_same p w w' : same_net w w' → steady p w w'.
Proof. intros Hs. split; intros *; rewrite ?(sn_members _ _ Hs), ?(sn_channels _ _ Hs); try done; [congruence|eauto]. Qed.

Lemma steady_insert p w m mb : members w !! m = None → mb_chptr mb = p → steady p w (insert_member m mb w).
Proof.
  intros Hm Hp. split.
  - intros x xb E. simpl. rewrite lookup_insert_ne; [done|]. intros ->. congruence.
  - intros x xb. simpl. rewrite lookup_insert_Some. intros [[<- <-]|[_ E]]; [done|congruence].
  - intros q Hq. simpl. rewrite Hp. by rewrite lookup_alter_ne.
  - intros ch E. exists (if decide (mb_chptr mb = p) then enter m (is_opped mb) ch else ch).
    split; [simpl; apply lookup_alter_iff; by exists ch|]. case_decide; [|done]. unfold enter. by destruct (is_opped mb).
Qed.

Lemma steady_alter p f w :
  (∀ ch, ch_tsinfo (f ch) = ch_tsinfo ch ∧ ch_mode (f ch) = ch_mode ch) → steady p w (w <| channels ::= alter f p |>).
Proof.
  intros Hf. split; [done|simpl; congruence|intros q Hq; simpl; by rewrite lookup_alter_ne|].
  intros ch E. exists (f ch). split; [|by apply Hf]. simpl. apply lookup_alter_iff. exists ch. by rewrite decide_True.
Qed.

(** A lower timestamp: the status of the members of [p] is gone, and its time and its
    modes are others; new memberships are of [p], and no other channel has changed. *)
Record lowered (p : ptr) (ts : Z) (mode : chmode) (w w' : world) : Prop := Lowered {
  lowered_members m mb : members w !! m = Some mb →
    members w' !! m = Some (if decide (mb_chptr mb = p) then stripped mb else mb);
  lowered_new m mb : members w' !! m = Some mb → members w !! m = None → mb_chptr mb = p;
  lowered_others q : q ≠ p → channels w' !! q = channels w !! q;
  lowered_channel : ∃ ch', channels w' !! p = Some ch' ∧ ch_tsinfo ch' = ts ∧ ch_mode ch' = mode
}.

Lemma lowered_steady p ts mode w w' w'' : lowered p ts mode w w' → steady p w' w'' → lowered p ts mode w w''.
Proof.
  intros [M1 N1 O1 (ch & E & ? & ?)] [M2 N2 O2 C2]. split; [by auto| |intros q Hq; by rewrite O2, O1|].
  - intros m mb Em E0. destruct (members w' !! m) as [mb'|] eqn:E1; [|by eapply N2].
    rewrite (M2 _ _ E1) in Em. injection Em as <-. by eapply N1.
  - apply C2 in E as (ch' & E' & ? & ?). exists ch'. split_and!; congruence.
Qed.

Lemma lowered_mode p ts mode f w w' :
  lowered p ts mode w w' → lowered p ts (f mode) w (w' <| channels ::= alter (fun ch => ch <| ch_mode ::= f |>) p |>).
Proof.
  intros [M N O (ch & E & Ht & Hm)]. split; [done|done|intros q Hq; simpl; rewrite lookup_alter_ne by done; by apply O|].
  exists (ch <| ch_mode ::= f |>). split; [simpl; by rewrite lookup_alter_eq, E|]. split; [done|]. simpl. by rewrite Hm.
Qed.

(** ** Clearing modes without announcing it *)
Lemma wp_upd_mode w chptr f (Q : unit → world → Prop) :
  net_inv w → is_Some (channels w !! chptr) →
  (let w' := w <| channels ::= alter (fun ch => ch <| ch_mode ::= f |>) chptr |> in
   calm w w' → same_rest w w' → Q tt w') →
  wp (upd_mode chptr f) Q w.
Proof. intros Hn Hch HQ. by apply wp_settings_exact. Qed.

Lemma same_rest_trans w w' w'' : same_rest w w' → same_rest w' w'' → same_rest w w''.
Proof. intros [] []. split; congruence. Qed.

Lemma same_rest_refl w : same_rest w w.
Proof. by split. Qed.

Definition same_setting (f : channel → channel) : Prop :=
  ∀ ch, same_lists ch (f ch) ∧ ch_tsinfo (f ch) = ch_tsinfo ch ∧ ch_mode (f ch) = ch_mode ch.

Lemma wp_drop_bans l mode chptr f w (Q : unit → world → Prop) :
  net_inv w → is_Some (channels w !! chptr) → same_setting f →
  (∀ w', calm w w' → same_rest w w' → steady chptr w w' → Q tt w') →
  wp (drop_bans l mode false (upd_channel chptr f)) Q w.
Proof.
  intros Hn Hch Hf. revert w Hn Hch Q. induction l as [|b l IH]; intros w Hn Hch Q HQ.
  { apply wp_ret, HQ; [by apply calm_refl|by split|apply steady_refl]. }
  cbn [drop_bans when]. apply wp_bind, wp_ret. apply wp_bind. apply wp_settings_exact; [done..|apply Hf|]. intros w1 Hc Hr.
  apply IH; [apply Hc|by apply (calm_channels _ _ Hc)|]. intros w2 Hc2 Hr2 Hs2.
  apply HQ; [by eapply calm_trans|by eapply same_rest_trans|]. eapply steady_trans; [|exact Hs2].
  apply steady_alter. apply Hf.
Qed.

(** One of the three lists. *)
Lemma wp_drop_list (b : bool) l mode chptr f w (Q : unit → world → Prop) :
  net_inv w → is_Some (channels w !! chptr) → same_setting f →
  (∀ w', calm w w' → same_rest w w' → steady chptr w w' → Q tt w') →
  wp (when b (drop_bans l mode false (upd_channel chptr f))) Q w.
Proof.
  intros Hn Hch Hf HQ. apply wp_when; intros _; [by apply wp_drop_bans|].
  apply HQ; [by apply calm_refl|by split|apply steady_refl].
Qed.

Lemma wp_clear_bans w chptr b1 b2 b3 (Q : unit → world → Prop) :
  net_inv w → is_Some (channels w !! chptr) →
  (∀ w', calm w w' → same_rest w w' → steady chptr w w' → Q tt w') →
  wp (remove_our_bans chptr None b1 b2 b3) Q w.
Proof.
  intros Hn Hch HQ. unfold remove_our_bans. change (bool_decide (is_Some None)) with false. cbv zeta.
  apply wp_bind, wp_ret. pose proof Hch as [ch Ech]. apply wp_bind. eapply wp_rd; [exact Ech|].
  apply wp_bind. apply wp_drop_list; [done..|]. intros w1 Hc1 Hr1 S1.
  apply wp_bind. apply wp_drop_list; [apply Hc1|by apply (calm_channels _ _ Hc1)|done|]. intros w2 Hc2 Hr2 S2.
  apply wp_bind. apply wp_drop_list; [apply Hc2|by apply (calm_channels _ _ Hc2), (calm_channels _ _ Hc1)|done|].
  intros w3 Hc3 Hr3 S3. cbn [when]. apply wp_ret, HQ.
  - eapply calm_trans; [done|]. by eapply calm_trans.
  - eapply same_rest_trans; [done|]. by eapply same_rest_trans.
  - eapply steady_trans; [done|]. by eapply steady_trans.
Qed.

Lemma strip_calm w p ch :
  net_inv w → channels w !! p = Some ch →
  calm w (strip_channel p (ch_users ch) w) ∧ same_rest w (strip_channel p (ch_users ch) w).
Proof.
  intros Hn Ech. split; [|by split]. split.
  - apply (net_inv_index w); [by apply chan_inv_strip; [apply Hn|]|by split| |done].
    intros m mb' (mb & E & ->)%lookup_strip. exists mb. split; [done|]. by case_decide.
  - done.
  - intros q. simpl. by rewrite lookup_alter_is_Some.
  - intros m mb E. eexists. split; [simpl; apply lookup_strip; by exists mb|]. by case_decide.
  - intros q i E. by exists i.
Qed.

Lemma wp_clear_status w chptr ch (Q : unit → world → Prop) :
  net_inv w → channels w !! chptr = Some ch →
  (∀ w', calm w w' → same_rest w w' → same_net (strip_channel chptr (ch_users ch) w) w' → Q tt w') →
  wp (remove_our_ov_modes chptr) Q w.
Proof.
  intros Hn Ech HQ. pose proof (memb_users w (inv_membs _ (ni_chan _ Hn)) chptr ch Ech) as [Hnd Hl].
  assert (users_of chptr w = ch_users ch) as Eu by (unfold users_of; by rewrite Ech).
  unfold remove_our_ov_modes. apply wp_bind. eapply wp_rd; [exact Ech|]. apply wp_bind.
  apply (wp_foreach_stable _ _ (fun p q w' => p ++ q = ch_users ch ∧ same_net (w <| members ::= strip p |>) w')).
  - by rewrite Eu.
  - split; [done|]. split; try done. simpl. by rewrite strip_nil.
  - intros p x q w1 E Hnd1 [Eq Hs].
    assert (x ∈ ch_users ch) as (mb & Em & _)%Hl by (rewrite <- Eq; set_solver).
    assert (x ∉ p) as Hx by (apply NoDup_app in Hnd1; set_solver).
    assert (members w1 !! x = Some mb) as Em1.
    { rewrite (sn_members _ _ Hs). simpl. apply lookup_strip. exists mb. by rewrite decide_False. }
    eapply wp_upd_member; [exact Em1|]. split; [exact E|].
    split; [by rewrite <- app_assoc|]. etrans; [|apply same_net_members, Hs].
    split; try done. simpl. by rewrite strip_snoc.
  - intros l w1 _ [Eq Hs]. rewrite app_nil_r in Eq. subst l.
    destruct (strip_calm w chptr ch Hn Ech) as [Hc Hr].
    eapply wp_upd_channel; [by rewrite (sn_channels _ _ Hs)|].
    assert (same_net (strip_channel chptr (ch_users ch) w)
      (w1 <| channels ::= alter all_unopped chptr |>)) as Hs'.
    { destruct Hs. split; simpl in *; congruence. }
    apply HQ; [|by eapply same_net_rest|done]. eapply calm_trans; [exact Hc|]. apply calm_same; [apply Hc|done].
Qed.
End clearing.

(** ** Lower timestamps and new channels *)
Section joining.
Context `{SYS : Sys} `{RB : !RbSpec} `{HK : !HooksOk}.

Lemma services_live w chptr s :
  net_inv w → s ∈ services_of chptr w → is_Some (clients w !! s).
Proof.
  intros Hn. unfold services_of. destruct (channels w !! chptr) as [ch|] eqn:E; [|by intros ?%elem_of_nil].
  intros Hs. apply (serv_services w (inv_servs _ (ni_chan _ Hn)) chptr ch E) in Hs as (c & sv & Ec & _).
  by exists c.
Qed.

Lemma services_nodup w chptr : net_inv w → NoDup (services_of chptr w).
Proof.
  intros Hn. unfold services_of. destruct (channels w !! chptr) as [ch|] eqn:E; [|constructor].
  by apply (serv_services w (inv_servs _ (ni_chan _ Hn)) chptr ch E).
Qed.

Lemma quiet_rejoin_all w chptr :
  net_inv w → is_Some (channels w !! chptr) →
  quiet (foreach (services_of chptr) (fun s => rejoin_service s chptr true)) w.
Proof.
  intros Hn Hch. apply (wp_foreach_stable _ _ (fun p q w' => p ++ q = services_of chptr w ∧ same_net w w')).
  - by apply services_nodup.
  - done.
  - intros p s q w1 E _ [Eq Hs]. assert (is_Some (clients w !! s)) as Hc.
    { apply (services_live w chptr); [done|]. rewrite <- Eq. set_solver. }
    eapply wp_quiet.
    { apply quiet_rejoin_service; [by rewrite (sn_clients _ _ Hs)|by rewrite (sn_channels _ _ Hs)]. }
    intros [] w2 Hs2. split.
    + unfold services_of in *. by rewrite (sn_channels _ _ Hs2).
    + split; [by rewrite <- app_assoc|]. by etrans.
  - by intros l w1 _ [_ Hs].
Qed.

(** The channel under new settings, without the status of its members. *)
Lemma strip_lowered w chptr ch ts f w' :
  net_inv w → channels w !! chptr = Some ch →
  (∀ c, ch_tsinfo (f c) = ts ∧ ch_mode (f c) = zero_chmode ∧ ch_users (f c) = ch_users c) →
  same_net (strip_channel chptr (ch_users (f ch)) (w <| channels ::= alter f chptr |>)) w' →
  lowered chptr ts zero_chmode w w'.
Proof.
  intros Hn Ech Hf Hs. pose proof (memb_users w (inv_membs _ (ni_chan _ Hn)) chptr ch Ech) as [_ Hl].
  destruct (Hf ch) as (Ht & Hm & Hu). split.
  3: { intros q Hq. rewrite (sn_channels _ _ Hs). simpl. by rewrite !lookup_alter_ne. }
  2: { intros m mb. rewrite (sn_members _ _ Hs). simpl. rewrite lookup_strip. intros (xb & Ex & _) E0. congruence. }
  - intros m mb Em. rewrite (sn_members _ _ Hs). simpl. apply lookup_strip. exists mb. split; [done|].
    rewrite Hu. assert (m ∈ ch_users ch ↔ mb_chptr mb = chptr) as Hiff.
    { rewrite Hl. split; [intros (mb' & E & Hc); by simplify_eq|by exists mb]. }
    destruct (decide (mb_chptr mb = chptr)) as [Hc|Hc]; [rewrite decide_True by tauto|rewrite decide_False by tauto]; done.
  - exists (all_unopped (f ch)). rewrite (sn_channels _ _ Hs). split.
    + simpl. apply lookup_alter_iff. exists (f ch). rewrite decide_True by done. split; [|done].
      apply lookup_alter_iff. exists ch. by rewrite decide_True.
    + unfold all_unopped. by destruct (rb_dlinkMoveList _ _).
Qed.

Lemma wp_lower_ts w chptr newts drop (Q : unit → world → Prop) :
  net_inv w → is_Some (channels w !! chptr) →
  (∀ w', calm w w' → same_rest w w' → lowered chptr newts zero_chmode w w' → Q tt w') →
  wp (lower_ts chptr newts drop) Q w.
Proof.
  intros Hn [ch Ech] HQ. unfold lower_ts, remove_our_simple_modes.
  apply wp_bind. apply wp_settings_exact; [done|by eexists|done|]. intros w1 C1 R1.
  assert (is_Some (channels w1 !! chptr)) as H1 by (apply (calm_channels _ _ C1); by eexists).
  apply wp_bind. apply wp_bind, wp_ret. apply wp_upd_mode; [apply C1|done|]. intros w2 C2 R2.
  set (f ch := ch <| ch_tsinfo := newts |> <| ch_mode := zero_chmode |>).
  assert (same_net (w <| channels ::= alter f chptr |>) w2) as E2.
  { split; try done. simpl. by rewrite alter_alter_eq. }
  assert (channels w2 !! chptr = Some (f ch)) as Ech2.
  { rewrite (sn_channels _ _ E2). simpl. apply lookup_alter_iff. exists ch. by rewrite decide_True. }
  apply wp_bind. eapply wp_clear_status; [apply C2|exact Ech2|]. intros w3 C3 R3 S3.
  assert (calm w w3) as C by (eapply calm_trans; [exact C1|]; by eapply calm_trans).
  assert (same_rest w w3) as R by (eapply same_rest_trans; [exact R1|]; by eapply same_rest_trans).
  assert (lowered chptr newts zero_chmode w w3) as L.
  { apply (strip_lowered w chptr ch newts f); [done..|]. etrans; [|exact S3]. destruct E2. split; simpl in *; congruence. }
  assert (is_Some (channels w3 !! chptr)) as H3 by (apply (calm_channels _ _ C); by eexists).
  apply wp_bind. apply wp_conseq with (Q := fun _ w4 => calm w3 w4 ∧ same_rest w3 w4 ∧ steady chptr w3 w4).
  { apply wp_when; intros _; [apply wp_clear_bans; [apply C3|done|done]|].
    split_and!; [apply calm_refl, C3|by split|apply steady_refl]. }
  intros [] w4 (C4 & R4 & S4). pose proof (calm_channels _ _ C4 _ H3) as H4.
  assert (calm w w4) as C' by (by eapply calm_trans). assert (same_rest w w4) as R' by (by eapply same_rest_trans).
  assert (lowered chptr newts zero_chmode w w4) as L' by (by eapply lowered_steady).
  apply wp_bind. apply (wp_gets (fun s => s)).
  apply wp_when; intros _; [|by apply HQ].
  eapply wp_quiet; [apply quiet_rejoin_all; [apply C4|done]|]. intros [] w5 Hs. apply HQ.
  - eapply calm_trans; [exact C'|]. apply calm_same; [apply C4|done].
  - by eapply same_net_rest.
  - eapply lowered_steady; [exact L'|by apply steady_same].
Qed.

Lemma calm_new_channel w p ch :
  net_inv w → channels w !! p = None → fresh_channel ch → no_nul (ch_name ch) = true →
  (∀ q ch', channels w !! q = Some ch' → irccmp (ch_name ch') (ch_name ch) ≠ 0) →
  calm w (insert_channel p ch w) ∧ same_rest w (insert_channel p ch w).
Proof.
  intros Hn Hp Hf Hnul Hnew. split; [|by split]. split.
  - apply (net_inv_index w); [by apply chan_inv_new; [apply Hn|..]|by split|by apply members_from_eq|done].
  - done.
  - intros q. simpl. rewrite lookup_insert_is_Some. destruct (decide (p = q)); [by left|by right].
  - eauto.
  - intros q i E. by exists i.
Qed.

Lemma valid_chname_length name : valid_chname name = true → (strlen name ≤ CHANNELLEN)%nat.
Proof. unfold valid_chname. destruct (_ <? _)%nat eqn:E; [done|]. by apply Nat.ltb_ge in E. Qed.

(** A join finds its channel or makes it. *)
Lemma wp_join_channel w name ts both (Q : ptr * Z * bool * bool → world → Prop) :
  net_inv w → no_nul name = true → valid_chname name = true →
  (∀ r w', calm w w' → same_rest w w' → is_Some (channels w' !! r.1.1.1) → Q r w') →
  wp (join_channel name ts both) Q w.
Proof.
  intros Hn Hname Hv HQ. unfold join_channel. apply wp_bind, wp_find_channel; [apply Hn|done|].
  intros [chptr|] Hr.
  - destruct Hr as (ch & Ech & _). assert (is_Some (channels w !! chptr)) as Hch by (by eexists).
    apply wp_bind. eapply wp_rd; [exact Ech|]. cbv zeta.
    destruct (_ || _).
    { apply wp_bind. apply wp_settings; [done..|]. intros w1 C1 R1. apply wp_ret, HQ; [done..|].
      by apply (calm_channels _ _ C1). }
    destruct (_ <? _); [apply wp_ret, HQ; [by apply calm_refl|done..]|].
    by destruct (_ && _); (apply wp_ret, HQ; [apply calm_refl|..]).
  - cbv zeta. apply valid_chname_length in Hv.
    assert (rb_strlcpy (CHANNELLEN + 1) name = name) as Ecpy.
    { apply rb_strlcpy_fits. change (String.length name) with (strlen name). lia. }
    rewrite Ecpy. apply wp_make_channel. intros p Hp.
    destruct (calm_new_channel w p (zero_channel <| ch_name := name |> <| ch_tsinfo := atol ts |>)) as [C R]; [done..|].
    apply wp_ret, HQ; [done..|]. simpl. rewrite lookup_insert_eq. by eexists.
Qed.

(** *** The nick list of an SJOIN *)
Definition text_size (s : option string) : nat := match s with Some s => strlen s | None => 0 end.

Lemma skip_blanks_size s : (strlen (skip_blanks s) ≤ strlen s)%nat.
Proof. induction s as [|c s IH]; [done|]. simpl. destruct (Ascii.eqb c " "); simpl; lia. Qed.

Lemma skip_blanks_no_nul s : no_nul s = true → no_nul (skip_blanks s) = true.
Proof. induction s as [|c s IH]; [done|]. simpl. intros H. destruct (Ascii.eqb c " "); [|done]. apply IH. by bool_simpl. Qed.

Lemma next_word_inv s word rest :
  next_word s = (word, rest) → no_nul s = true →
  no_nul word = true ∧ (∀ r, rest = Some r → no_nul r = true ∧ (strlen r < strlen s)%nat).
Proof.
  unfold next_word. destruct (strchr s " ") as [[p q]|] eqn:E; intros [= <- <-] Hs; [|done].
  apply strchr_inv in E as [-> _]. rewrite no_nul_app in Hs. simpl in Hs. bool_simpl.
  split; [done|]. intros r [= <-]. split; [done|]. rewrite strlen_app. simpl. lia.
Qed.

Lemma nick_flags_no_nul s : no_nul s = true → no_nul (nick_flags s).2 = true.
Proof.
  assert (∀ s, no_nul s = true → no_nul (tail s) = true) as Ht.
  { intros [|c t]; [done|]. simpl. intros. by bool_simpl. }
  intros Hs. unfold nick_flags. repeat destruct (Ascii.eqb _ _); simpl; auto.
Qed.

Definition all_live (w : world) (l : list ptr) : Prop := Forall (fun m => is_Some (members w !! m)) l.

Lemma all_live_calm w w' l : calm w w' → all_live w l → all_live w' l.
Proof.
  intros Hc Hl. eapply Forall_impl; [exact Hl|]. intros m [mb E]. apply (calm_members _ _ Hc) in E as (mb' & E & _). by exists mb'.
Qed.

Lemma kind_user_calm w w' p : calm w w' → filed_kind (ids w) KUser true p → ∃ c u, clients w' !! p = Some c ∧ cl_user c = Some u.
Proof.
  intros Hc (i & E & Hk & _). apply (calm_kinds _ _ Hc) in E as (i' & E & Hk' & _).
  eapply kind_user. exists i'. split; [exact E|]. split; [congruence|done].
Qed.

Lemma wp_is_member w chptr target_p (Q : bool → world → Prop) :
  net_inv w → is_Some (channels w !! chptr) → (∃ c u, clients w !! target_p = Some c ∧ cl_user c = Some u) →
  (∀ b, (b = false → ∀ m, ¬ member_with w (fun mb => in_channel chptr mb ∧ of_client target_p mb) m) → Q b w) →
  wp (is_member chptr target_p) Q w.
Proof.
  intros Hn Hch Hu HQ. unfold is_member. apply wp_bind, wp_member_lookup; [done..|]. intros r Hr.
  apply wp_ret, HQ. destruct r; [done|]. by intros _.
Qed.

(** The loop ends within the fuel it is given: every round takes at least a space. *)
Lemma wp_sjoin_loop chptr keep fuel : ∀ w s joined (Q : list ptr → world → Prop),
  net_inv w → is_Some (channels w !! chptr) → all_live w joined →
  (∀ x, s = Some x → no_nul x = true) → (text_size s < fuel)%nat →
  (∀ l w', calm w w' → same_rest w w' → all_live w' l → steady chptr w w' → Q l w') →
  wp (sjoin_loop fuel s chptr keep joined) Q w.
Proof.
  induction fuel as [|fuel IH]; intros w s joined Q Hn Hch Hl Hs Hf HQ; [lia|]. cbn [sjoin_loop].
  destruct (is_empty s) eqn:Ee; [apply wp_ret, HQ; [by apply calm_refl|by split|done|apply steady_refl]|].
  destruct s as [[|c x']|]; [done| |done]. set (x := String c x') in *.
  specialize (Hs x eq_refl). assert (0 < strlen x < S fuel)%nat as Hx by (split; [simpl; lia|done]). clear Hf.
  apply wp_bind. eapply wp_need; [done|].
  destruct (next_word (skip_blanks x)) as [word rest] eqn:Ew.
  apply next_word_inv in Ew as [Hw Hrest]; [|by apply skip_blanks_no_nul].
  pose proof (skip_blanks_size x) as Hle. pose proof (nick_flags_no_nul word Hw) as Hnick.
  destruct (nick_flags word) as [flags nick]. simpl in Hnick. cbv zeta.
  assert (∀ r, rest = Some r → no_nul r = true) as Hr1 by (intros; by apply Hrest).
  assert (text_size rest < fuel)%nat as Hr2.
  { destruct rest as [r|]; simpl; [destruct (Hrest r eq_refl)|]; lia. }
  apply wp_bind, wp_find_user; [apply Hn|done|]. intros [t|] Ht; [|by apply IH].
  assert (∃ c u, clients w !! t = Some c ∧ cl_user c = Some u) as Hu by (by eapply kind_user).
  apply wp_bind, wp_is_member; [done..|]. intros [|] Hb; [by apply IH|].
  apply wp_bind, wp_enter; [done..|by apply Hb|]. intros m w1 C1 R1 Hnew Hm Hins.
  apply IH; [apply C1|by apply (calm_channels _ _ C1)| |done..|].
  - rewrite rb_dlinkAdd_spec. constructor; [done|by eapply all_live_calm].
  - intros l w2 C2 R2 Hl2 S2. apply HQ; [by eapply calm_trans|by eapply same_rest_trans|done|].
    eapply steady_trans; [|eapply steady_trans; [apply steady_same, Hins|exact S2]]. by apply steady_insert.
Qed.
End joining.

(** ** SJOIN and JOIN *)
Section join_handlers.
Context `{SYS : Sys} `{RB : !RbSpec} `{HK : !HooksOk}.

Lemma wp_free w p ch :
  good w → channels w !! p = Some ch → channel_empty ch = true → wp (free_channel p) (fun _ => good) w.
Proof.
  intros [Hn Hi] Ech He. eapply wp_conseq; [by apply wp_free_channel|]. cbn beta. intros _ w' Hs.
  assert (net_inv (drop_channel p (ch_name ch) w)) as Hd.
  { apply (net_inv_index w); [by apply chan_inv_drop; [apply Hn|..]|by split|by apply members_from_eq|done]. }
  split; [by eapply net_inv_same|]. eapply idle_lists; [by apply same_net_lists|done].
Qed.

Lemma calm_lowerts : calm_hook HOOK_CHANNEL_SJOIN_LOWERTS.
Proof. split; [unfold channel_hook; set_solver|done]. Qed.

(** The hook of a lower timestamp, where there is one. *)
Lemma wp_lowerts_hook (b : bool) w chptr (Q : unit → world → Prop) :
  net_inv w → is_Some (channels w !! chptr) →
  (∀ w', calm w w' → mode_lists w' = mode_lists w → Q tt w') →
  wp (when b (hook HOOK_CHANNEL_SJOIN_LOWERTS (HookPtr chptr))) Q w.
Proof.
  intros Hn Hch HQ. apply wp_when; intros _.
  - apply wp_calm_hook; [apply calm_lowerts|done..].
  - apply HQ; [by apply calm_refl|done].
Qed.

Lemma wp_sjoin_members w chptr nicks k1 k2 :
  good w → is_Some (channels w !! chptr) → (∀ x, nicks = Some x → no_nul x = true) →
  wp (sjoin_members chptr nicks k1 k2) (fun _ => good) w.
Proof.
  intros [Hn Hi] Hch Hs. unfold sjoin_members. apply wp_bind. apply wp_lowerts_hook; [done..|].
  intros w1 C1 L1. assert (idle w1) as Hi1 by (by eapply idle_lists).
  destruct (is_empty nicks) eqn:Ee; [apply wp_ret; split; [apply C1|done]|].
  apply is_empty_false in Ee as [x ->]. apply wp_bind. eapply wp_need; [done|]. apply wp_bind.
  apply wp_sjoin_loop; [apply C1|by apply (calm_channels _ _ C1)|constructor|done|simpl; lia|].
  intros l w2 C2 R2 Hl _. assert (is_Some (channels w2 !! chptr)) as [ch Ech]
    by (by apply (calm_channels _ _ C2), (calm_channels _ _ C1)).
  assert (good w2) as Hg2 by (split; [apply C2|by eapply idle_rest]).
  apply wp_bind. eapply wp_rd; [exact Ech|]. destruct (channel_empty ch) eqn:He; [by eapply wp_free|].
  apply wp_bind. apply wp_join_hook; [apply Hg2|apply Hg2|by eexists|done|].
  intros r w3 ? ?. by apply wp_ret.
Qed.

Lemma wp_parse_simple parv start allow w (Q : nat * chmode → world → Prop) :
  (start ≤ length parv)%nat → (∀ args m, (args ≤ length parv)%nat → Q (args, m) w) →
  wp (parse_simple_mode zero_chmode parv start allow) Q w.
Proof.
  intros Hs HQ. destruct (parse_simple_mode_post zero_chmode parv start allow w Hs) as ([args m] & E & Hr & _);
    [simpl; unfold KEYLEN; lia|].
  apply (wp_ok _ _ _ _ _ E), HQ. simpl in Hr. lia.
Qed.

Lemma good_mlog w line : good w → wp (mlog line) (fun _ => good) w.
Proof. intros Hw. by apply good_still, quiet_mlog. Qed.

Lemma good_same w w' : same_net w w' → good w → good w'.
Proof. intros Hs [Hn Hi]. split; [by eapply net_inv_same|]. eapply idle_lists; [by apply same_net_lists|done]. Qed.

Lemma c_sjoin_good w client_p parv :
  good w → parv_ok parv → is_Some (clients w !! client_p) → wp (c_sjoin client_p parv) (fun _ => good) w.
Proof.
  intros Hw Hp Hc. unfold c_sjoin. destruct (_ <? _)%nat eqn:E1; bool_len; [by apply wp_ret|].
  apply wp_bind, wp_argv; [lia|]. destruct (is_empty _); [by apply wp_ret|].
  apply wp_bind, wp_arg; [done|lia|]. intros name _ Hname. destruct (valid_chname name) eqn:Ev; cbn [negb]; [|by apply wp_ret].
  apply wp_bind, wp_arg; [done|lia|]. intros ts _ _.
  apply wp_bind, wp_join_channel; [apply Hw|done..|]. intros [[[chptr newts] k1] k2] w1 C1 R1 Hch.
  cbn [fst] in Hch. apply wp_bind, wp_arg; [done|lia|]. intros modes _ _.
  assert (good w1) as Hg1 by (split; [apply C1|eapply idle_rest; [done|apply Hw]]).
  apply wp_bind. apply wp_conseq with (Q := fun r w2 => (r.1 ≤ length parv)%nat ∧ w2 = w1).
  { destruct (negb _); [apply wp_parse_simple; [lia|done]|apply wp_ret; simpl; split; [lia|done]]. }
  intros [args newmode] ? [Ha ->]. simpl in Ha. apply wp_bind. eapply wp_quiet; [apply quiet_s_assert|].
  intros [] w2 Hs. pose proof (good_same _ _ Hs Hg1) as Hg2.
  destruct (args =? 0)%nat; [by apply good_mlog|].
  assert (is_Some (channels w2 !! chptr)) as Hch2 by (by rewrite (sn_channels _ _ Hs)).
  assert (is_Some (clients w2 !! client_p)) as [c Ec].
  { rewrite (sn_clients _ _ Hs). destruct Hc as [c Ec%ids_of]. apply (calm_kinds _ _ C1) in Ec as (i & Ei & _).
    apply ids_client in Ei as (c' & ? & _). by exists c'. }
  apply wp_bind. apply wp_conseq with (Q := fun _ => good_at chptr).
  { apply wp_when; intros _; [|by split]. apply wp_bind. eapply wp_rd; [exact Ec|].
    apply wp_lower_ts; [apply Hg2|done|]. intros w3 C3 R3 _. by eapply good_at_calm. }
  intros [] w3 Hg3. apply wp_bind. apply wp_conseq with (Q := fun _ => good_at chptr).
  { apply wp_when; intros _; [|done]. apply wp_upd_mode; [apply Hg3..|]. intros w4 C4 R4. by eapply good_at_calm. }
  intros [] w4 Hg4. apply wp_bind, wp_argv; [lia|]. apply wp_sjoin_members; [apply Hg4..|].
  intros x Ex. by eapply parv_lookup.
Qed.

(** The members, less those of one client. *)
Definition without (p : ptr) (w w' : world) : Prop := ∀ m mb,
  members w' !! m = Some mb ↔ members w !! m = Some mb ∧ mb_client_p mb ≠ p.

(** A user that leaves every channel is in none, whatever the services do when
    channels lose their last operator; the invariant of channels is enough for it. *)
Lemma wp_part_all_chan w p c u (Q : unit → world → Prop) :
  chan_inv w → clients w !! p = Some c → cl_user c = Some u →
  (∀ w', chan_inv w' → same_index w w' → same_rest w w' → channels_of p w' = [] → without p w w' → Q tt w') →
  wp (part_all p) Q w.
Proof.
  intros Hn Ec Eu HQ. unfold part_all. apply wp_bind. eapply wp_user_of; [done..|].
  set (ok := fun w' => chan_inv w' ∧ same_index w w' ∧ same_rest w w' ∧
    (∃ c u, clients w' !! p = Some c ∧ cl_user c = Some u) ∧
    (∀ m mb, members w' !! m = Some mb → members w !! m = Some mb) ∧
    (∀ m mb, members w !! m = Some mb → mb_client_p mb ≠ p → members w' !! m = Some mb)).
  assert (∀ w', ok w' → lists (channels_of p w') (member_with w' (of_client p))) as Hlists.
  { intros w' (Hc & _ & _ & (c' & u' & Ec' & Eu') & _). unfold channels_of. rewrite Ec'. simpl. rewrite Eu'. simpl.
    by eapply (memb_channels w' (inv_membs _ Hc)). }
  assert (ok w) as Hok by (split_and!; [done|done|by split|by exists c, u|done|done]).
  apply (wp_foreach_safe_drain _ _ (fun _ => ok)); [by apply Hlists|done| |].
  - intros m l w1 E Hnd Hok1. pose proof Hok1 as (Hc1 & I1 & R1 & (c1 & u1 & Ec1 & Eu1) & Mi & Mo).
    destruct (Hlists w1 Hok1) as [_ Hl]. assert (m ∈ channels_of p w1) as (mb & Em & Ho)%Hl by (rewrite E; left).
    eapply wp_conseq; [by apply wp_del_chmember_inv|]. cbn beta. intros [] w2 [Hc2 Hs2].
    assert (clients w2 = alter (upd_user_channels (rb_dlinkDelete m)) p (clients w1)) as Ecl.
    { rewrite (sn_clients _ _ Hs2). unfold of_client in Ho. rewrite <- Ho. unfold after_leave.
      destruct (channels _ !! _); [|done]. by destruct (channel_empty _). }
    assert (members w2 = delete m (members w1)) as Emb.
    { rewrite (sn_members _ _ Hs2). unfold after_leave. destruct (channels _ !! _); [|done]. by destruct (channel_empty _). }
    assert (clients w2 !! p = Some (upd_user_channels (rb_dlinkDelete m) c1)) as Ec2.
    { rewrite Ecl. apply lookup_alter_iff. exists c1. by rewrite decide_True. }
    split.
    + unfold channels_of in *. rewrite Ec2. rewrite Ec1 in E. simpl in *. rewrite Eu1 in *. simpl in *.
      rewrite E, rb_dlinkDelete_spec by (by left). simpl. by rewrite decide_True.
    + split; [done|]. split_and!.
      * etrans; [exact I1|]. etrans; [apply (remove_index w1 m mb)|].
        etrans; [apply (after_leave_index _ (mb_chptr mb))|]. by apply same_net_index.
      * eapply same_rest_trans; [exact R1|]. eapply same_net_rest; [|exact Hs2].
        pose proof (after_leave_rest (remove_member m mb w1) (mb_chptr mb)) as [H1 H2 H3]. split.
        -- rewrite H1. apply (remove_index w1 m mb).
        -- by rewrite H2.
        -- by rewrite H3.
      * exists (upd_user_channels (rb_dlinkDelete m) c1), (u1 <| us_channels ::= rb_dlinkDelete m |>).
        split; [done|]. simpl. by rewrite Eu1.
      * intros x xb. rewrite Emb. intros [_ Ex]%lookup_delete_Some. by apply Mi.
      * intros x xb Ex Hne. rewrite Emb, lookup_delete_ne; [by apply Mo|]. intros <-.
        apply Mi in Em. unfold of_client in Ho. congruence.
  - intros w1 E Hok1. pose proof Hok1 as (Hc1 & I1 & R1 & _ & Mi & Mo). apply HQ; [done..|]. intros m mb. split.
    + intros Em. split; [by apply Mi|]. intros Ho. destruct (Hlists w1 Hok1) as [_ Hl].
      rewrite E in Hl. apply (not_elem_of_nil m), Hl. by exists mb.
    + intros [Em Ho]. by apply Mo.
Qed.
Lemma wp_part_all w client_p c u (Q : unit → world → Prop) :
  net_inv w → clients w !! client_p = Some c → cl_user c = Some u →
  (∀ w', net_inv w' → same_rest w w' → channels_of client_p w' = [] → without client_p w w' → Q tt w') →
  wp (part_all client_p) Q w.
Proof.
  intros Hn Ec Eu HQ. eapply wp_part_all_chan; [apply Hn|exact Ec|exact Eu|]. intros w' Hc Hi Hr Hch Hw.
  apply HQ; [|done..]. eapply net_inv_index; [done..| |done]. intros m mb [E _]%Hw. by exists mb.
Qed.
End join_handlers.

Section c_join.
Context `{SYS : Sys} `{RB : !RbSpec} `{HK : !HooksOk}.

Lemma user_kind w p c u : net_inv w → clients w !! p = Some c → cl_user c = Some u → kind_of c = KUser.
Proof.
  intros Hn Ec Eu. destruct (tab_ident w (ni_tables _ Hn) _ _ (ids_of _ _ _ Ec)) as [Hk _]. simpl in Hk.
  unfold kind_of in *. rewrite Eu in *. by destruct (cl_server c), (cl_service c).
Qed.

(** A user who is on the network. *)
Lemma user_filed w p i c u :
  net_inv w → ids w !! p = Some i → id_net i = true → clients w !! p = Some c → cl_user c = Some u →
  filed_kind (ids w) KUser true p.
Proof.
  intros Hn Ei Hnet Ec Eu. exists i. split; [done|]. split; [|done].
  rewrite (ids_of _ _ _ Ec) in Ei. injection Ei as <-. by apply (user_kind w p c u).
Qed.

(** The member of a JOIN: made unless the user already is in the channel. *)
Lemma wp_join_member {A} w chptr client_p (k : list ptr → M world A) (Q : A → world → Prop) :
  good_at chptr w → filed_kind (ids w) KUser true client_p →
  (∀ l w', good_at chptr w' → all_live w' l → wp (k l) Q w') →
  wp (b ← is_member chptr client_p;
      joined ← (if (b : bool) then mret [] else m ← add_chmember chptr client_p 0; mret (rb_dlinkAdd m []));
      k joined) Q w.
Proof.
  intros Hg Hu HQ. apply wp_bind, wp_is_member; [apply Hg|apply Hg|by eapply kind_user|]. intros b Hb. apply wp_bind.
  destruct b; [apply wp_ret, HQ; [done|constructor]|].
  apply wp_bind, wp_enter; [apply Hg|apply Hg|done|by apply Hb|]. intros m w1 C1 R1 _ Hm _.
  apply wp_ret, HQ; [by eapply good_at_calm|]. rewrite rb_dlinkAdd_spec. by constructor.
Qed.

Lemma c_join_good w client_p parv :
  good w → parv_ok parv → (∃ i, ids w !! client_p = Some i ∧ id_net i = true) →
  wp (c_join client_p parv) (fun _ => good) w.
Proof.
  intros Hw Hp (i & Ei & Hnet). assert (is_Some (clients w !! client_p)) as Hc
    by (apply ids_client in Ei as (c & Ec & _); by exists c). unfold c_join. apply wp_bind, wp_argv; [lia|].
  destruct (is_empty _) eqn:E0; [by apply wp_ret|]. apply is_empty_false in E0 as [ts Ets].
  apply wp_bind, wp_IsUser; [done|]. intros b Hu. destruct b; cbn [negb]; [|by apply wp_ret].
  destruct (Hu eq_refl) as (c & u & Ec & Eu). pose proof (user_filed w _ i c u (proj1 Hw) Ei Hnet Ec Eu) as Hf.
  apply wp_bind. eapply wp_need; [exact Ets|].
  destruct (_ && _).
  { eapply wp_part_all; [apply Hw|done..|]. intros w1 Hn1 R1 _ _.
    split; [done|]. eapply idle_rest; [done|apply Hw]. }
  destruct (_ <? _)%nat eqn:E1; bool_len; [by apply good_mlog|].
  apply wp_bind, wp_arg; [done|lia|]. intros name _ Hname.
  destruct (valid_chname name) eqn:Ev; cbn [negb]; [|by apply wp_ret].
  apply wp_bind, wp_join_channel; [apply Hw|done..|]. intros [[[chptr newts] k1] k2] w1 C1 R1 Hch. cbn [fst] in Hch.
  assert (good w1) as Hg1 by (split; [apply C1|eapply idle_rest; [done|apply Hw]]).
  apply wp_bind, wp_parse_simple; [lia|]. intros args newmode Ha.
  apply wp_bind. eapply wp_quiet; [apply quiet_s_assert|].
  intros [] w2 Hs. pose proof (good_same _ _ Hs Hg1) as Hg2.
  destruct (args =? 0)%nat; [by apply good_mlog|].
  assert (good_at chptr w2) as Hga by (split; [done|by rewrite (sn_channels _ _ Hs)]).
  assert (filed_kind (ids w2) KUser true client_p) as Hu2.
  { rewrite (si_ids _ _ (same_net_index _ _ Hs)). by eapply filed_calm. }
  apply wp_bind. apply wp_conseq with (Q := fun _ w3 => good_at chptr w3 ∧ calm w2 w3).
  { apply wp_when; intros _; [|split; [done|apply calm_refl, Hg2]].
    apply wp_lower_ts; [apply Hga..|]. intros w3 C3 R3 _. split; [by eapply good_at_calm|done]. }
  intros [] w3 [Hg3 C3]. pose proof (filed_calm _ _ _ _ _ C3 Hu2) as Hu3.
  apply wp_bind. apply wp_lowerts_hook; [apply Hg3..|]. intros w4 C4 L4.
  assert (good_at chptr w4) as Hg4 by (by eapply good_calm).
  pose proof (filed_calm _ _ _ _ _ C4 Hu3) as Hu4.
  apply wp_join_member; [done..|]. intros l w5 Hg5 Hl. apply wp_bind.
  apply wp_join_hook; [apply Hg5..|done|]. intros r w6 ? ?. by apply wp_ret.
Qed.
End c_join.
