(* ===== verification/Modes.v ===== *)
(** * Mode lines keep the network sound

    [parse_full_mode()] as it is called for lines received, the hooks that follow
    it, and MODE, TMODE and BMASK. *)

From S2P Require Import Prelude CString Match Rblib Tools Fault World Lookup ModeBuild Channel SimpleMode ChanCmd ChMode Net Members Index Handlers Joins.

Section modes.
Context `{SYS : Sys} `{RB : !RbSpec} `{HK : !HooksOk}.

(** In the middle of a mode line: the lists for the hooks hold members of the
    network, and services.  [tbl]: who is on the network. *)
Record busy (chptr : ptr) (tbl : gmap ptr ident) (w : world) : Prop := Busy {
  busy_inv : net_inv w;
  busy_channel : is_Some (channels w !! chptr);
  busy_opped : all_live w (opped_list w);
  busy_voiced : all_live w (voiced_list w);
  busy_deopped : Forall (fun s => is_Some (clients w !! s)) (deopped_list w);
  busy_ids : ids w = tbl
}.

Lemma busy_start chptr w : good_at chptr w → busy chptr (ids w) w.
Proof. intros [[Hn Hi] Hch]. injection Hi as E1 E2 E3 E4. split; rewrite ?E1, ?E2, ?E3; try done; constructor. Qed.

Lemma ids_dom w p : is_Some (ids w !! p) ↔ is_Some (clients w !! p).
Proof. unfold ids. by rewrite lookup_fmap, fmap_is_Some. Qed.

(** A step that leaves the lists alone. *)
Lemma busy_step chptr tbl w w' : busy chptr tbl w → calm w w' → same_rest w w' → busy chptr tbl w'.
Proof.
  intros [] Hc Hr. pose proof (sr_lists _ _ Hr) as El. injection El as E1 E2 E3 E4.
  pose proof (sr_ids _ _ Hr) as Ei. split.
  - apply Hc.
  - by apply (calm_channels _ _ Hc).
  - rewrite E2. by eapply all_live_calm.
  - rewrite E3. by eapply all_live_calm.
  - rewrite E1. eapply Forall_impl; [done|]. intros s Hs. apply ids_dom. rewrite Ei. by apply ids_dom.
  - congruence.
Qed.

(** The lists are no part of the network. *)
Lemma net_inv_lists w w' :
  clients w' = clients w → channels w' = channels w → members w' = members w →
  channel_table w' = channel_table w → channel_list w' = channel_list w → same_index w w' →
  net_inv w → net_inv w'.
Proof.
  intros E1 E2 E3 E4 E5 Hi Hn. apply (net_inv_index w); [|done|by apply members_from_eq|done]. pose proof (ni_chan _ Hn) as Hc.
  destruct Hc as [[] [] []]. split; split; unfold indexed, member_with in *; intros *;
    rewrite ?E1, ?E2, ?E3, ?E4, ?E5; eauto.
Qed.

Lemma busy_lists chptr tbl w w' :
  busy chptr tbl w → net_inv w' → channels w' = channels w → members w' = members w → clients w' = clients w →
  all_live w (opped_list w') → all_live w (voiced_list w') →
  Forall (fun s => is_Some (clients w !! s)) (deopped_list w') →
  busy chptr tbl w'.
Proof.
  intros [] Hn E1 E2 E3 H1 H2 H3. split; unfold all_live in *; rewrite ?E1, ?E2, ?E3; try done.
  unfold ids in *. congruence.
Qed.

(** The wp form of the two. *)
Definition keeps_busy {A} (chptr : ptr) (tbl : gmap ptr ident) (m : M world A) (w : world) : Prop :=
  wp m (fun _ => busy chptr tbl) w.

Lemma Forall_destroy {A} `{EqDecision A} (P : A → Prop) x l : Forall P l → Forall P (rb_dlinkFindDestroy x l).
Proof.
  rewrite rb_dlinkFindDestroy_spec. induction 1 as [|y l Hy Hl IH]; simpl; [constructor|].
  case_decide; [done|by constructor].
Qed.

Lemma all_live_add w x l : is_Some (members w !! x) → all_live w l → all_live w (rb_dlinkAdd x l).
Proof. intros. rewrite rb_dlinkAdd_spec. by constructor. Qed.

Lemma busy_edit_opped chptr tbl w f :
  busy chptr tbl w → all_live w (f (opped_list w)) → busy chptr tbl (w <| opped_list ::= f |>).
Proof.
  intros Hb Hl. eapply busy_lists; [exact Hb| |done..|apply (busy_voiced _ _ _ Hb)|apply (busy_deopped _ _ _ Hb)].
  by eapply net_inv_lists; [..|apply Hb].
Qed.

Lemma busy_edit_voiced chptr tbl w f :
  busy chptr tbl w → all_live w (f (voiced_list w)) → busy chptr tbl (w <| voiced_list ::= f |>).
Proof.
  intros Hb Hl. eapply busy_lists; [exact Hb| |done..|apply (busy_opped _ _ _ Hb)|done|apply (busy_deopped _ _ _ Hb)].
  by eapply net_inv_lists; [..|apply Hb].
Qed.

Lemma busy_edit_deopped chptr tbl w f :
  busy chptr tbl w → Forall (fun s => is_Some (clients w !! s)) (f (deopped_list w)) →
  busy chptr tbl (w <| deopped_list ::= f |>).
Proof.
  intros Hb Hl. eapply busy_lists; [exact Hb| |done..|apply (busy_opped _ _ _ Hb)|apply (busy_voiced _ _ _ Hb)|done].
  by eapply net_inv_lists; [..|apply Hb].
Qed.

Lemma busy_edit_ban chptr tbl w f : busy chptr tbl w → busy chptr tbl (w <| ban_list ::= f |>).
Proof.
  intros Hb. eapply busy_lists; [exact Hb| |done..|apply (busy_opped _ _ _ Hb)|apply (busy_voiced _ _ _ Hb)|
    apply (busy_deopped _ _ _ Hb)].
  by eapply net_inv_lists; [..|apply Hb].
Qed.
End modes.

Section letters.
Context `{SYS : Sys} `{RB : !RbSpec} `{HK : !HooksOk}.
Implicit Types (tbl : gmap ptr ident).

Lemma busy_bind {A B} chptr tbl (m : M world A) (k : A → M world B) w :
  keeps_busy chptr tbl m w → (∀ a w', busy chptr tbl w' → keeps_busy chptr tbl (k a) w') →
  keeps_busy chptr tbl (mbind k m) w.
Proof. intros Hm Hk. apply wp_bind. eapply wp_conseq; [exact Hm|]. auto. Qed.

Lemma busy_ret {A} chptr tbl (a : A) w : busy chptr tbl w → keeps_busy chptr tbl (mret a) w.
Proof. intros. by apply wp_ret. Qed.

Lemma busy_when chptr tbl (b : bool) m w :
  busy chptr tbl w → (b = true → keeps_busy chptr tbl m w) → keeps_busy chptr tbl (when b m) w.
Proof. intros Hb Hm. by apply wp_when. Qed.

Lemma busy_settings chptr tbl f w :
  busy chptr tbl w → (∀ ch, same_lists ch (f ch)) → keeps_busy chptr tbl (upd_channel chptr f) w.
Proof. intros Hb Hf. apply wp_settings; [apply Hb|apply (busy_channel _ _ _ Hb)|done|]. intros w' C R. exact (busy_step _ _ _ _ Hb C R). Qed.

Lemma busy_mode chptr tbl f w : busy chptr tbl w → keeps_busy chptr tbl (upd_mode chptr f) w.
Proof. intros Hb. by apply busy_settings. Qed.

Lemma busy_announce chptr tbl dir mode a w : busy chptr tbl w → keeps_busy chptr tbl (announce None dir mode a) w.
Proof. apply busy_ret. Qed.

Lemma busy_flags chptr tbl m f w :
  busy chptr tbl w → is_Some (members w !! m) → (∀ fl, has_flag (f fl) MODE_OPPED = has_flag fl MODE_OPPED) →
  wp (set_member_flag m f) (fun _ w' => busy chptr tbl w' ∧ is_Some (members w' !! m)) w.
Proof.
  intros Hb [mb Em] Hf. apply wp_flags; [apply Hb|by eexists|done|]. intros w' C R.
  split; [by eapply busy_step|]. apply (calm_members _ _ C) in Em as (mb' & E & _). by exists mb'.
Qed.

Lemma busy_op chptr tbl mptr dir nick w :
  busy chptr tbl w → is_Some (members w !! mptr) → keeps_busy chptr tbl (full_op mptr None dir nick) w.
Proof.
  intros Hb Hm. unfold full_op. destruct dir.
  - apply wp_bind. eapply wp_conseq.
    { apply busy_flags; [done..|]. intros. by apply has_flag_clear_other. }
    cbn beta. intros [] w1 [Hb1 Hm1]. pose proof Hm1 as [mb Em1]. apply wp_bind. eapply wp_rd; [exact Em1|].
    destruct (is_opped mb); [by apply wp_ret|].
    apply wp_bind. apply wp_op; [apply Hb1|done|]. intros w2 C2 R2. pose proof (busy_step _ _ _ _ Hb1 C2 R2) as Hb2.
    apply busy_bind; [|intros; by apply busy_announce]. apply wp_modify, busy_edit_opped; [done|].
    apply all_live_add; [|by apply (busy_opped _ _ _ Hb2)]. destruct (calm_members _ _ C2 _ _ Em1) as (mb' & E & _). by exists mb'.
  - pose proof Hm as [mb Em]. apply wp_bind. eapply wp_rd; [exact Em|].
    apply busy_bind; [|intros; by apply busy_announce]. apply busy_when; [done|]. intros _.
    apply wp_bind, wp_modify. set (w1 := w <| opped_list ::= _ |>).
    assert (busy chptr tbl w1) as Hb1.
    { apply busy_edit_opped; [done|]. by apply Forall_destroy, (busy_opped _ _ _ Hb). }
    apply wp_deop; [apply Hb1|done|]. intros w2 C2 R2. exact (busy_step _ _ _ _ Hb1 C2 R2).
Qed.

Lemma busy_voice chptr tbl mptr dir nick w :
  busy chptr tbl w → is_Some (members w !! mptr) → keeps_busy chptr tbl (full_voice mptr None dir nick) w.
Proof.
  intros Hb Hm. pose proof Hm as [mb Em]. unfold full_voice. apply wp_bind. eapply wp_rd; [exact Em|]. destruct dir.
  - destruct (is_voiced mb); [by apply wp_ret|]. apply wp_bind. eapply wp_conseq.
    { apply busy_flags; [done..|]. intros. by apply has_flag_set_other. }
    cbn beta. intros [] w1 [Hb1 Hm1]. apply busy_bind; [|intros; by apply busy_announce].
    apply wp_modify, busy_edit_voiced; [done|]. apply all_live_add; [done|by apply (busy_voiced _ _ _ Hb1)].
  - apply busy_bind; [|intros; by apply busy_announce]. apply busy_when; [done|]. intros _.
    apply wp_bind, wp_modify. set (w1 := w <| voiced_list ::= _ |>).
    assert (busy chptr tbl w1) as Hb1.
    { apply busy_edit_voiced; [done|]. by apply Forall_destroy, (busy_voiced _ _ _ Hb). }
    eapply wp_conseq; [apply busy_flags; [done..|]; intros; by apply has_flag_clear_other|].
    by intros [] w2 [? _].
Qed.

Lemma kind_live k net w p : filed_kind (ids w) k net p → is_Some (clients w !! p).
Proof. intros (i & E & _). apply ids_dom. by exists i. Qed.

Lemma busy_service chptr tbl s dir c w :
  busy chptr tbl w → is_Some (clients w !! s) → keeps_busy chptr tbl (full_service s None dir c) w.
Proof.
  intros Hb Hs. unfold full_service. change (bool_decide (is_Some None)) with false. cbn [orb].
  destruct (negb _); [by apply wp_ret|]. pose proof (busy_deopped _ _ _ Hb) as Hd.
  destruct dir; apply wp_modify, busy_edit_deopped; [done|by apply Forall_destroy|done|].
  destruct (rb_dlinkFind _ _); [done|]. rewrite rb_dlinkAdd_spec. by constructor.
Qed.

Lemma busy_status chptr tbl dir c nick w :
  busy chptr tbl w → no_nul nick = true → keeps_busy chptr tbl (full_status chptr None dir c nick) w.
Proof.
  intros Hb Hn. pose proof (busy_inv _ _ _ Hb) as Hi. unfold full_status.
  apply wp_bind, wp_find_service; [apply Hi|done|]. intros [s|] Hs.
  { apply busy_service; [done|]. by eapply kind_live. }
  apply wp_bind, wp_find_user; [apply Hi|done|]. intros [t|] Ht; [|by apply wp_ret].
  apply wp_bind, wp_member_lookup; [done|by apply (busy_channel _ _ _ Hb)|by eapply kind_user|].
  intros [m|] Hm; [|by apply wp_ret]. destruct Hm as (mb & Em & _).
  destruct (Ascii.eqb c "o"); [apply busy_op|apply busy_voice]; try done; by exists mb.
Qed.

Lemma busy_ban chptr tbl dir mask w : busy chptr tbl w → keeps_busy chptr tbl (full_ban chptr None dir mask) w.
Proof.
  intros Hb. unfold full_ban. pose proof (busy_channel _ _ _ Hb) as [ch Ech].
  apply wp_bind. eapply wp_rd; [exact Ech|]. apply busy_bind; [|intros; by apply busy_announce].
  destruct dir; [destruct (add_ban _ _) as [l [b|]]|destruct (del_ban _ _) as [l [b|]]];
    (apply busy_bind; [by apply busy_settings|]); intros [] w1 Hb1;
    solve [by apply wp_modify, busy_edit_ban|by apply wp_ret].
Qed.
End letters.

(** ** A line *)
Section mode_lines.
Context `{SYS : Sys} `{RB : !RbSpec} `{HK : !HooksOk}.

(** The index of the next argument never passes the NULL behind the last one. *)
Lemma busy_loop chptr tbl parv allow : ∀ p start dir w,
  busy chptr tbl w → parv_ok parv → (start ≤ length parv)%nat →
  keeps_busy chptr tbl (full_loop chptr None parv allow p start dir) w.
Proof.
  induction p as [|c p IH]; intros start dir w Hb Hp Hs; [by apply wp_ret|].
  assert (∀ act : string → M world unit, (∀ x w', busy chptr tbl w' → no_nul x = true → keeps_busy chptr tbl (act x) w') →
    keeps_busy chptr tbl (a ← argv parv start; if is_empty a then mret false
       else x ← str a; _ ← act x; full_loop chptr None parv allow p (S start) dir) w) as Harg.
  { intros act Hact. apply wp_bind, wp_argv; [done|]. destruct (is_empty _) eqn:E; [by apply wp_ret|].
    apply is_empty_false in E as [x E]. apply wp_bind. eapply wp_need; [exact E|].
    apply busy_bind; [apply Hact; [done|by eapply parv_lookup]|]. intros [] w1 Hb1.
    apply IH; [done..|]. apply lookup_lt_Some in E. lia. }
  cbn [full_loop]. destruct (Ascii.eqb c NUL); [by apply wp_ret|].
  destruct (Ascii.eqb c "+"); [by apply IH|]. destruct (Ascii.eqb c "-"); [by apply IH|].
  assert (∀ bit, keeps_busy chptr tbl (full_flag chptr None dir bit c) w) as Hflag.
  { intros bit. unfold full_flag. apply busy_bind; [by apply busy_mode|]. intros. by apply busy_announce. }
  destruct (simple_bit c) as [bit|].
  { apply busy_bind; [apply Hflag|]. intros [] w1 Hb1. by apply IH. }
  destruct (Ascii.eqb c "S").
  { destruct allow; [|by apply wp_ret]. apply busy_bind; [apply Hflag|]. intros [] w1 Hb1. by apply IH. }
  destruct (Ascii.eqb c "k").
  { apply Harg. intros x w1 Hb1 _. unfold full_key.
    destruct dir; (apply busy_bind; [by apply busy_mode|]); intros; by apply busy_announce. }
  destruct (Ascii.eqb c "l").
  { destruct dir.
    - apply wp_bind, wp_argv; [done|]. destruct (is_empty _) eqn:E; [by apply wp_ret|].
      apply is_empty_false in E as [x E]. apply wp_bind. eapply wp_need; [exact E|].
      apply busy_bind.
      + unfold full_limit. destruct (strtol x) as [v e]. destruct (_ <=? _); [by apply wp_ret|].
        change (bool_decide (is_Some None)) with false. cbn [andb].
        apply busy_bind; [by apply busy_announce|]. intros [] w1 Hb1.
        apply busy_bind; [by apply busy_mode|]. intros. by apply busy_ret.
      + intros [|] w1 Hb1; [|by apply wp_ret]. apply IH; [done..|]. apply lookup_lt_Some in E. lia.
    - apply busy_bind; [by apply busy_mode|]. intros [] w1 Hb1.
      apply busy_bind; [by apply busy_announce|]. intros [] w2 Hb2. by apply IH. }
  destruct (_ || _); [apply Harg; intros; by apply busy_status|].
  destruct (Ascii.eqb c "b"); [apply Harg; intros; by apply busy_ban|].
  assert (∀ mode edit, (∀ f ch, same_lists ch (edit f ch)) →
    ∀ x w', busy chptr tbl w' → no_nul x = true → keeps_busy chptr tbl (full_list chptr None dir mode edit x) w') as Hlist.
  { intros mode edit He x w1 Hb1 _. apply busy_bind; [by apply busy_settings|]. intros. by apply busy_announce. }
  destruct (Ascii.eqb c "e"); [by apply Harg, Hlist|]. destruct (Ascii.eqb c "I"); [by apply Harg, Hlist|].
  by apply IH.
Qed.

Lemma busy_parse chptr tbl parv start allow w :
  busy chptr tbl w → parv_ok parv → (start ≤ length parv)%nat →
  keeps_busy chptr tbl (parse_full_mode chptr None parv start allow) w.
Proof.
  intros Hb Hp Hs. unfold parse_full_mode. apply wp_bind, wp_argv; [done|].
  destruct (_ <=? _)%nat eqn:E; bool_len; [by apply wp_ret|].
  apply wp_bind, wp_ret. destruct (lookup_lt_is_Some_2 parv start E) as [p Ep].
  apply wp_bind. eapply wp_need; [exact Ep|]. apply busy_bind; [apply busy_loop; [done..|lia]|].
  intros fin w1 Hb1. apply wp_when; [|done]. by rewrite andb_false_r.
Qed.

(** A hook between the steps. *)
Lemma busy_calm chptr tbl w w' :
  busy chptr tbl w → calm w w' → mode_lists w' = mode_lists w → busy chptr (ids w') w'.
Proof.
  intros [] Hc El. injection El as E1 E2 E3 E4. split.
  - apply Hc.
  - by apply (calm_channels _ _ Hc).
  - rewrite E2. by eapply all_live_calm.
  - rewrite E3. by eapply all_live_calm.
  - rewrite E1. eapply Forall_impl; [done|]. intros s [i Ei]%ids_dom.
    apply (calm_kinds _ _ Hc) in Ei as (i' & Ei & _). apply ids_dom. by exists i'.
  - done.
Qed.

(** Still in a mode line, and the client that sent it is still there. *)
Definition busy_for (chptr source_p : ptr) (w : world) : Prop :=
  busy chptr (ids w) w ∧ is_Some (clients w !! source_p).

Lemma busy_for_calm chptr s w w' :
  busy_for chptr s w → calm w w' → mode_lists w' = mode_lists w → busy_for chptr s w'.
Proof.
  intros [Hb [i Ei]%ids_dom] Hc Hl. split; [by eapply busy_calm|].
  apply (calm_kinds _ _ Hc) in Ei as (i' & Ei & _). apply ids_dom. by exists i'.
Qed.

Lemma same_shape_members ms l : same_shape (Members ms) l → ∃ ms', l = Members ms'.
Proof. destruct l as [|l| |]; [done| |done..]. by exists l. Qed.

Lemma calm_channel_hook h :
  h ∈ [HOOK_CHANNEL_SJOIN_LOWERTS; HOOK_CHANNEL_MODE_OP; HOOK_CHANNEL_MODE_VOICE;
       HOOK_CHANNEL_MODE_SIMPLE; HOOK_CHANNEL_MODE_BAN; HOOK_CHANNEL_TOPIC] → calm_hook h.
Proof.
  intros Hh. split; [unfold channel_hook; set_solver|]. intros ->. revert Hh.
  by apply (bool_decide_eq_false_1 _).
Qed.

Lemma quiet_rejoin_deopped chptr s l : ∀ w,
  busy_for chptr s w → deopped_list w = l →
  wp (rejoin_deopped l chptr) (fun _ w' => net_inv w' ∧ deopped_list w' = [] ∧
    opped_list w' = opped_list w ∧ voiced_list w' = voiced_list w ∧ ban_list w' = ban_list w) w.
Proof.
  induction l as [|t l IH]; intros w [Hb Hs] El.
  { apply wp_ret. split; [by eapply busy_inv|done]. }
  pose proof (busy_deopped _ _ _ Hb) as Hd. rewrite El in Hd. apply Forall_cons in Hd as [Ht Hd].
  cbn [rejoin_deopped]. apply wp_bind. eapply wp_quiet.
  { apply quiet_rejoin_service; [done|by apply (busy_channel _ _ _ Hb)]. }
  intros [] w1 Hs1. pose proof (busy_inv _ _ _ Hb) as Hn.
  assert (busy_for chptr s w1) as [Hb1 Hc1].
  { eapply busy_for_calm; [by split|by apply calm_same|by apply same_net_lists]. }
  assert (deopped_list w1 = t :: l) as El1 by (by rewrite (sn_deopped_list _ _ Hs1)).
  apply wp_bind, wp_modify. set (w2 := w1 <| deopped_list ::= _ |>).
  assert (deopped_list w2 = l) as El2.
  { simpl. rewrite El1, rb_dlinkDelete_spec by (by left). simpl. by rewrite decide_True. }
  assert (busy_for chptr s w2) as Hb2.
  { split; [|done]. change (ids w2) with (ids w1). apply busy_edit_deopped; [done|].
    change (deopped_list w2) with (rb_dlinkDelete t (deopped_list w1)) in El2. rewrite El2.
    by rewrite (sn_clients _ _ Hs1). }
  eapply wp_conseq; [by apply IH|]. cbn beta. intros _ w3 (H1 & H2 & H3 & H4 & H5). destruct Hs1.
  split_and!; [done..|rewrite H3|rewrite H4|rewrite H5]; simpl; congruence.
Qed.
End mode_lines.

Section mode_handlers.
Context `{SYS : Sys} `{RB : !RbSpec} `{HK : !HooksOk}.

Lemma busy_for_step chptr s w w' : busy_for chptr s w → busy chptr (ids w) w' → busy_for chptr s w'.
Proof.
  intros [Hb Hs] Hb'. pose proof (busy_ids _ _ _ Hb') as Ei. split; [by rewrite Ei|].
  apply ids_dom. rewrite Ei. by apply ids_dom.
Qed.

(** A hook that gets one of the lists, and may shorten it. *)
Lemma wp_list_hook chptr s h (lst : world → list ptr) (setl : list ptr → world → world) w (b : bool) :
  calm_hook h → busy_for chptr s w → all_live w (lst w) →
  (∀ l w', busy_for chptr s w' → all_live w' l → busy_for chptr s (setl l w')) →
  wp (when b (r ← hook_call h (HookPtr chptr) (Members (lst w));
              match snd r with Members l => modify (setl l) | _ => mret tt end)) (fun _ => busy_for chptr s) w.
Proof.
  intros Hh Hb Hl Hset. apply wp_when; intros _; [|done]. destruct Hb as [Hb Hs].
  apply wp_bind. apply wp_calm_call; [done|by eapply busy_inv|by apply (busy_channel _ _ _ Hb)|done|].
  intros r w1 C1 L1 Hl1 Hsh. apply same_shape_members in Hsh as [l El]. rewrite El in *.
  apply wp_modify, Hset; [|done]. by eapply busy_for_calm.
Qed.

Lemma wp_plain_hook chptr s h a w (b : bool) :
  calm_hook h → busy_for chptr s w →
  live_list w a →
  wp (when b (_ ← hook_call h (HookPtr chptr) a; mret tt)) (fun _ => busy_for chptr s) w.
Proof.
  intros Hh [Hb Hs] Ha. apply wp_when; intros _; [|done].
  apply wp_bind. apply wp_calm_call; [done|by eapply busy_inv|by apply (busy_channel _ _ _ Hb)|done|].
  intros r w1 C1 L1 _ _. apply wp_ret. by eapply busy_for_calm.
Qed.

Lemma busy_for_edit_opped chptr s l w :
  busy_for chptr s w → all_live w l → busy_for chptr s (w <| opped_list := l |>).
Proof. intros Hb Hl. eapply busy_for_step; [exact Hb|]. apply busy_edit_opped; [apply Hb|done]. Qed.

Lemma busy_for_edit_voiced chptr s l w :
  busy_for chptr s w → all_live w l → busy_for chptr s (w <| voiced_list := l |>).
Proof. intros Hb Hl. eapply busy_for_step; [exact Hb|]. apply busy_edit_voiced; [apply Hb|done]. Qed.

Lemma busy_for_edit_ban chptr s l w :
  busy_for chptr s w → busy_for chptr s (w <| ban_list := l |>).
Proof. intros Hb. eapply busy_for_step; [exact Hb|]. apply busy_edit_ban, Hb. Qed.

Ltac calm_hook_tac := apply calm_channel_hook; rewrite !elem_of_cons; tauto.

Lemma handle_chmode_good w chptr source_p parv :
  good_at chptr w → is_Some (clients w !! source_p) → parv_ok parv →
  wp (handle_chmode chptr source_p parv) (fun _ => good) w.
Proof.
  intros Hg Hs Hp. assert (busy_for chptr source_p w) as Hb by (split; [by apply busy_start|done]).
  unfold handle_chmode. pose proof Hg as [_ [ch Ech]]. apply wp_bind. eapply wp_rd; [exact Ech|]. cbv zeta.
  apply wp_bind. eapply wp_conseq; [apply busy_parse; [apply Hb|done|lia]|]. cbn beta. intros [] w1 Hb1.
  apply (busy_for_step _ _ _ _ Hb) in Hb1. apply wp_bind. apply (wp_gets (fun s => s)).
  apply wp_bind. eapply wp_conseq.
  { apply (wp_list_hook chptr source_p HOOK_CHANNEL_MODE_OP opped_list (fun l w => w <| opped_list := l |>));
      [calm_hook_tac|done|by apply (busy_opped _ _ _ (proj1 Hb1))|intros; by apply busy_for_edit_opped]. }
  cbn beta. intros [] w2 Hb2. apply wp_bind. apply (wp_gets (fun s => s)).
  apply wp_bind. eapply wp_conseq.
  { apply (wp_list_hook chptr source_p HOOK_CHANNEL_MODE_VOICE voiced_list (fun l w => w <| voiced_list := l |>));
      [calm_hook_tac|done|by apply (busy_voiced _ _ _ (proj1 Hb2))|intros; by apply busy_for_edit_voiced]. }
  cbn beta. intros [] w3 Hb3. pose proof (busy_channel _ _ _ (proj1 Hb3)) as [ch3 Ech3].
  apply wp_bind. eapply wp_rd; [exact Ech3|]. apply wp_bind. eapply wp_conseq.
  { apply (wp_plain_hook chptr source_p HOOK_CHANNEL_MODE_SIMPLE NoList); [calm_hook_tac|done..]. }
  cbn beta. intros [] w4 Hb4. apply wp_bind, wp_IsUser; [apply Hb4|]. intros u _.
  apply wp_bind. apply (wp_gets (fun s => s)). apply wp_bind. eapply wp_conseq.
  { apply (wp_plain_hook chptr source_p HOOK_CHANNEL_MODE_BAN (Bans (ban_list w4))); [calm_hook_tac|done..]. }
  cbn beta. intros [] w5 Hb5. apply wp_bind, wp_modify. set (w6 := w5 <| opped_list := _ |> <| voiced_list := _ |> <| ban_list := _ |>).
  assert (busy_for chptr source_p w6) as Hb6.
  { apply busy_for_edit_ban, busy_for_edit_voiced; [|constructor]. apply busy_for_edit_opped; [done|constructor]. }
  apply wp_bind, wp_gets. eapply wp_conseq; [by apply (quiet_rejoin_deopped chptr source_p)|].
  cbn beta. intros [] w7 (Hn & E1 & E2 & E3 & E4). split; [done|]. unfold idle, mode_lists. by rewrite E1, E2, E3, E4.
Qed.

Lemma c_tmode_good w client_p parv :
  good w → parv_ok parv → is_Some (clients w !! client_p) → wp (c_tmode client_p parv) (fun _ => good) w.
Proof.
  intros Hw Hp Hc. unfold c_tmode. destruct (_ <? _)%nat eqn:E1; bool_len; [by apply wp_ret|].
  apply wp_bind, wp_argv; [lia|]. destruct (is_empty _); [by apply wp_ret|].
  apply wp_bind, wp_arg; [done|lia|]. intros name _ Hname.
  apply wp_bind, wp_named_channel; [done..|]. intros [chptr|] Hr; [|by apply wp_ret]. destruct Hr as (ch & Ech & _).
  apply wp_bind, wp_arg; [done|lia|]. intros ts _ _. apply wp_bind. eapply wp_rd; [exact Ech|].
  destruct (_ <? _); [by apply wp_ret|]. apply handle_chmode_good; [split; [done|by eexists]|done|by apply parv_drop].
Qed.

Lemma good_user w p f :
  (∀ u, us_channels (f u) = us_channels u ∧ us_oper (f u) = us_oper u ∧ us_user_reg (f u) = us_user_reg u ∧
     us_servername (f u) = us_servername u) →
  good w → good (w <| clients ::= alter (upd_user_field f) p |>).
Proof. intros Hf [Hn Hi]. split; [by apply net_inv_user|done]. Qed.

Lemma c_mode_good w client_p parv :
  good w → parv_ok parv → is_Some (clients w !! client_p) → wp (c_mode client_p parv) (fun _ => good) w.
Proof.
  intros Hw Hp Hc. unfold c_mode. destruct (_ <? _)%nat eqn:E1; bool_len; [by apply wp_ret|].
  apply wp_bind, wp_argv; [lia|]. destruct (is_empty _) eqn:E0; [by apply wp_ret|]. apply is_empty_false in E0 as [name En].
  pose proof (parv_lookup _ _ _ Hp En) as Hname. apply wp_bind. eapply wp_need; [exact En|].
  destruct (negb _).
  - destruct (_ <? _)%nat eqn:E2; bool_len; [by apply wp_ret|].
    apply wp_bind, wp_argv; [lia|]. destruct (is_empty _) eqn:E3; [by apply wp_ret|]. apply is_empty_false in E3 as [modes Em].
    apply wp_bind. eapply wp_need; [exact Em|]. apply wp_bind, wp_find_user; [apply Hw|done|].
    intros [t|] Ht; [|by apply wp_ret]. destruct (negb _); [by apply wp_ret|].
    apply kind_user in Ht as (c & u & Ec & Eu). eapply wp_upd_user; [done..|].
    by apply good_user.
  - destruct (_ <? _)%nat eqn:E2; bool_len; [by apply wp_ret|].
    apply wp_bind, wp_argv; [lia|]. destruct (is_empty _) eqn:E3; [by apply wp_ret|].
    apply wp_bind, wp_named_channel; [done..|]. intros [chptr|] Hr; [|by apply wp_ret]. destruct Hr as (ch & Ech & _).
    apply wp_bind, wp_IsUser; [done|]. intros u Hu. apply wp_bind.
    apply wp_conseq with (Q := fun r w' => w' = w ∧ ∀ m, r = Some m → is_Some (members w !! m)).
    { destruct u; [|by apply wp_ret]. apply wp_member_lookup; [apply Hw|by eexists|by apply Hu|].
      intros r Hm. split; [done|]. intros m ->. destruct Hm as (mb & E & _). by exists mb. }
    intros r ? [-> Hm]. apply wp_bind. apply wp_conseq with (Q := fun _ w' => w' = w).
    { destruct r as [m|]; [|by apply wp_ret]. destruct (Hm m eq_refl) as [mb E].
      apply wp_bind. eapply wp_rd; [exact E|]. by apply wp_ret. }
    intros [|] ? ->; [by apply wp_ret|]. apply handle_chmode_good; [split; [done|by eexists]|done|by apply parv_drop].
Qed.
End mode_handlers.

(** ** Bursts of bans *)
Section bmask.
Context `{SYS : Sys} `{RB : !RbSpec} `{HK : !HooksOk}.

(** What is left of the text, with its terminating NUL. *)
Definition rest_size (t : option string) : nat := match t with Some t => S (strlen t) | None => 0 end.

Lemma skip_rest_size t : (rest_size (skip_rest t) ≤ rest_size t)%nat.
Proof. destruct t as [t|]; [|done]. simpl. pose proof (skip_blanks_size t). lia. Qed.

Lemma next_word_size s word rest : next_word s = (word, rest) → (rest_size rest ≤ strlen s)%nat.
Proof.
  unfold next_word. destruct (strchr s " ") as [[p q]|] eqn:E; intros [= <- <-]; simpl; [|lia].
  apply strchr_inv in E as [-> _]. rewrite strlen_app. simpl. lia.
Qed.

Lemma wp_bmask_loop chptr edit fuel : ∀ s t w,
  (∀ f ch, same_lists ch (edit f ch)) → good_at chptr w → (rest_size t < fuel)%nat →
  wp (bmask_loop fuel s t chptr edit) (fun _ => good) w.
Proof.
  induction fuel as [|fuel IH]; intros s t w He Hg Hf; [lia|]. cbn [bmask_loop].
  destruct (is_empty s) eqn:Es; [apply wp_ret, Hg|]. apply is_empty_false in Es as [x ->].
  apply wp_bind. eapply wp_need; [done|]. apply wp_bind.
  apply wp_conseq with (Q := fun _ => good_at chptr).
  { apply wp_when; intros _; [|done]. by apply wp_set_good. }
  intros [] w1 Hg1. destruct t as [t|]; [|apply wp_ret, Hg1].
  destruct (next_word t) as [word rest] eqn:Ew. apply next_word_size in Ew. simpl in Hf.
  apply IH; [done..|]. pose proof (skip_rest_size rest). lia.
Qed.

Lemma bmask_list_lists c edit : bmask_list c = Some edit → ∀ f ch, same_lists ch (edit f ch).
Proof.
  intros E f ch. destruct c as [[] [] [] [] [] [] [] []]; simpl in E; simplify_eq; by split.
Qed.

Lemma c_bmask_run w client_p parv :
  good w → parv_ok parv → (4 ≤ length parv)%nat → wp (c_bmask client_p parv) (fun _ => good) w.
Proof.
  intros Hw Hp Hlen. unfold c_bmask. apply wp_bind, wp_arg; [done|lia|]. intros name _ Hname.
  apply wp_bind, wp_named_channel; [done..|]. intros [chptr|] Hr; [|by apply wp_ret]. destruct Hr as (ch & Ech & _).
  apply wp_bind, wp_arg; [done|lia|]. intros ts _ _. apply wp_bind. eapply wp_rd; [exact Ech|].
  destruct (_ <? _); [by apply wp_ret|]. apply wp_bind, wp_arg; [done|lia|]. intros kind _ _.
  destruct (bmask_list _) as [edit|] eqn:Ee; [|by apply wp_ret].
  apply wp_bind, wp_arg; [done|lia|]. intros masks _ _.
  destruct (next_word (skip_blanks masks)) as [word rest] eqn:Ew. apply next_word_size in Ew.
  pose proof (skip_blanks_size masks). pose proof (skip_rest_size rest).
  apply wp_bmask_loop; [by apply (bmask_list_lists (deref kind))|split; [done|by eexists]|lia].
Qed.
End bmask.
