(* ===== verification/Clients.v ===== *)
(** * Clients enter and leave the tables

    What the arrival and the exit of a client do to the tables, the lists and the
    tree of servers ([entered], [retired]), and that both keep their invariants. *)

From S2P Require Import Prelude CString Match Rblib Tools Fault World Lookup ModeBuild Channel Net Members Index.

#[export] Instance eta_ident : Eta ident := fun r =>
  Ident (id_name r) (id_uid r) (id_kind r) (id_net r) (id_uplink r) (id_users r) (id_servers r) (id_oper r) (id_reg r) (id_home r).

Section clients.
Context `{SYS : Sys} `{RB : !RbSpec}.

(** The list of a server that a client of a kind is in. *)
Definition upd_behind (k : kind) (f : list ptr → list ptr) (i : ident) : ident :=
  match k with
  | KUser => i <| id_users ::= f |>
  | KServer => i <| id_servers ::= f |>
  | _ => i
  end.

Definition upd_uplink (k : kind) (f : list ptr → list ptr) (up : option ptr) (tbl : gmap ptr ident) : gmap ptr ident :=
  match up with Some q => alter (upd_behind k f) q tbl | None => tbl end.

Lemma upd_behind_rest k f i :
  id_name (upd_behind k f i) = id_name i ∧ id_uid (upd_behind k f i) = id_uid i ∧
  id_kind (upd_behind k f i) = id_kind i ∧ id_net (upd_behind k f i) = id_net i ∧
  id_uplink (upd_behind k f i) = id_uplink i ∧ id_oper (upd_behind k f i) = id_oper i ∧
  id_reg (upd_behind k f i) = id_reg i.
Proof. by destruct k. Qed.

(** The parts of an identity other than the lists. *)
Definition bare (i : ident) : ident := i <| id_users := [] |> <| id_servers := [] |>.

Lemma bare_upd k f i : bare (upd_behind k f i) = bare i.
Proof. by destruct k. Qed.

Lemma bare_uplink k f up tbl : bare <$> upd_uplink k f up tbl = bare <$> tbl.
Proof.
  destruct up as [q|]; [|done]. apply map_eq. intros p. simpl. rewrite !lookup_fmap, lookup_alter.
  case_decide; [|done]. subst. destruct (tbl !! p); [|done]. simpl. by rewrite bare_upd.
Qed.

(** The new client: fresh, on the network, with nothing behind it. *)
Record newcomer (w : world) (p : ptr) (i : ident) : Prop := Newcomer {
  nc_fresh : ids w !! p = None;
  nc_kind : id_kind i = KUser ∨ id_kind i = KServer;
  nc_net : id_net i = true;
  nc_names : no_nul (id_name i) = true ∧ no_nul (id_uid i) = true;
  nc_uplink q : id_uplink i = Some q → filed_kind (ids w) KServer true q;
  nc_user : id_kind i = KUser → is_Some (id_uplink i);
  nc_home : id_kind i = KUser → id_home i = id_uplink i;
  nc_behind : id_users i = [] ∧ id_servers i = [];
  nc_oper : id_oper i = None;
  nc_reg r : id_reg i = Some r → is_Some (user_regs w !! r)
}.

Record entered (p : ptr) (i : ident) (w w' : world) : Prop := Entered {
  en_ids : ids w' = <[p := i]> (upd_uplink (id_kind i) (rb_dlinkAdd p) (id_uplink i) (ids w));
  en_name : name_table w' = upd_bucket (hash_name (id_name i)) (rb_dlinkAdd p) (name_table w);
  en_uid : uid_table w' = if decide (id_uid i = ""%string) then uid_table w
                          else upd_bucket (hash_name (id_uid i)) (rb_dlinkAdd p) (uid_table w);
  en_users : user_list w' = if decide (id_kind i = KUser) then rb_dlinkAdd p (user_list w) else user_list w;
  en_servers : server_list w' = if decide (id_kind i = KServer) then rb_dlinkAdd p (server_list w) else server_list w;
  en_exited : exited_list w' = exited_list w;
  en_services : service_list w' = service_list w;
  en_regs : user_regs w' = user_regs w;
  en_blocks : conf_opers w' = conf_opers w;
  en_opers : oper_list w' = oper_list w;
  en_entries : client_oper_list w' = client_oper_list w
}.

(** What there is afterwards, less the lists of servers. *)
Lemma entered_lookup p i w w' q :
  entered p i w w' → bare <$> ids w' !! q = if decide (q = p) then Some (bare i) else bare <$> ids w !! q.
Proof.
  intros E. rewrite (en_ids _ _ _ _ E). case_decide as Eq.
  - subst. by rewrite lookup_insert_eq.
  - rewrite lookup_insert_ne by done. rewrite <- !lookup_fmap. by rewrite bare_uplink.
Qed.
End clients.

Section filed.
Context `{SYS : Sys} `{RB : !RbSpec}.

(** Predicates on identities that do not look at the lists. *)
Definition barely (P : ident → Prop) : Prop := ∀ i, P (bare i) ↔ P i.

Lemma barely_exists (tbl tbl' : gmap ptr ident) (P : ident → Prop) p q :
  barely P → bare <$> tbl' !! p = bare <$> tbl !! q →
  (∃ i, tbl' !! p = Some i ∧ P i) ↔ (∃ i, tbl !! q = Some i ∧ P i).
Proof.
  intros HP E. destruct (tbl' !! p) as [i|], (tbl !! q) as [j|]; simpl in E; try done.
  apply (inj Some) in E. split; intros (x & [= <-] & Hx).
  - exists j. split; [done|]. apply (HP j). rewrite <- E. by apply HP.
  - exists i. split; [done|]. apply (HP i). rewrite E. by apply HP.
Qed.
End filed.

(** ** Arrival *)
Section entered.
Context `{SYS : Sys} `{RB : !RbSpec}.
Implicit Types (P : ident → Prop).

(** A predicate on addresses through their identity. *)
Definition with_ident (tbl : gmap ptr ident) P (p : ptr) : Prop := ∃ i, tbl !! p = Some i ∧ P i.

Lemma entered_with w w' p i P q :
  newcomer w p i → entered p i w w' → barely P →
  with_ident (ids w') P q ↔ with_ident (ids w) P q ∨ (q = p ∧ P i).
Proof.
  intros Hn He HP. pose proof (entered_lookup p i w w' q He) as E. unfold with_ident. case_decide as Eq.
  - subst q. rewrite (en_ids _ _ _ _ He), lookup_insert_eq, (nc_fresh _ _ _ Hn). naive_solver.
  - rewrite (barely_exists (ids w) (ids w') P q q HP E). naive_solver.
Qed.

Lemma barely_name h : barely (fun i => id_net i = true ∧ hash_name (id_name i) = h).
Proof. done. Qed.
Lemma barely_uid h : barely (fun i => id_net i = true ∧ id_uid i ≠ ""%string ∧ hash_name (id_uid i) = h).
Proof. done. Qed.
Lemma barely_kind k net : barely (fun i => id_kind i = k ∧ id_net i = net).
Proof. done. Qed.
Lemma barely_behind k q : barely (fun i => id_kind i = k ∧ id_net i = true ∧ id_uplink i = Some q).
Proof. done. Qed.

Lemma entered_ident w w' p i q j :
  newcomer w p i → entered p i w w' → ids w' !! q = Some j →
  (q = p ∧ j = i) ∨ (q ≠ p ∧ ∃ j0, ids w !! q = Some j0 ∧ bare j = bare j0).
Proof.
  intros Hn He E. destruct (decide (q = p)) as [->|Hq].
  - left. split; [done|]. rewrite (en_ids _ _ _ _ He), lookup_insert_eq in E. congruence.
  - right. split; [done|]. pose proof (entered_lookup p i w w' q He) as El. rewrite decide_False, E in El by done.
    simpl in El. destruct (ids w !! q) as [j0|]; [|done]. exists j0. split; [done|]. simpl in El. congruence.
Qed.

Lemma tables_entered w w' p i : tables_ok w → newcomer w p i → entered p i w w' → tables_ok w'.
Proof.
  intros Hw Hn He. assert (∀ P, ¬ with_ident (ids w) P p) as Hno.
  { intros P (j & E & _). rewrite (nc_fresh _ _ _ Hn) in E. done. }
  pose proof (entered_with w w' p i) as Hin. pose proof (nc_net _ _ _ Hn) as Hnet. split.
  - rewrite (en_name _ _ _ _ He). eapply indexed_iff; [|apply indexed_add; [apply Hw|apply Hno]].
    intros q h. cbn beta. rewrite (Hin _ q Hn He (barely_name h)). naive_solver.
  - rewrite (en_uid _ _ _ _ He). case_decide as Eu.
    + eapply indexed_iff; [|apply Hw]. intros q h. rewrite (Hin _ q Hn He (barely_uid h)).
      split; [by left|]. intros [?|(_ & _ & ? & _)]; [done|done].
    + eapply indexed_iff; [|apply indexed_add; [apply Hw|apply Hno]].
      intros q h. cbn beta. rewrite (Hin _ q Hn He (barely_uid h)). naive_solver.
  - rewrite (en_users _ _ _ _ He). case_decide as Ek.
    + eapply lists_iff; [|apply lists_add; [apply Hw|apply Hno]]. intros q. cbn beta.
      rewrite (Hin _ q Hn He (barely_kind KUser true)). naive_solver.
    + eapply lists_iff; [|apply Hw]. intros q. rewrite (Hin _ q Hn He (barely_kind KUser true)). naive_solver.
  - rewrite (en_servers _ _ _ _ He). case_decide as Ek.
    + eapply lists_iff; [|apply lists_add; [apply Hw|apply Hno]]. intros q. cbn beta.
      rewrite (Hin _ q Hn He (barely_kind KServer true)). naive_solver.
    + eapply lists_iff; [|apply Hw]. intros q. rewrite (Hin _ q Hn He (barely_kind KServer true)). naive_solver.
  - rewrite (en_exited _ _ _ _ He). eapply lists_iff; [|apply Hw]. intros q. cbn beta. unfold filed_kind.
    fold (with_ident (ids w') (fun i => id_kind i = KUser ∧ id_net i = false) q).
    fold (with_ident (ids w') (fun i => id_kind i = KServer ∧ id_net i = false) q).
    rewrite (Hin _ q Hn He (barely_kind KUser false)), (Hin _ q Hn He (barely_kind KServer false)).
    split; [intros [?|?]; [left; by left|right; by left]|]. intros [[?|(_ & _ & ?)]|[?|(_ & _ & ?)]]; [by left|congruence|by right|congruence].
  - rewrite (en_services _ _ _ _ He). eapply lists_iff; [|apply Hw]. intros q. cbn beta.
    fold (with_ident (ids w') (fun i => id_kind i = KService) q). rewrite (Hin _ q Hn He) by done.
    split; [by left|]. intros [?|[_ Hk]]; [done|]. destruct (nc_kind _ _ _ Hn); congruence.
  - intros q j E. destruct (entered_ident w w' p i q j Hn He E) as [[-> ->]|(_ & j0 & E0 & Eb)].
    + split; [destruct (nc_kind _ _ _ Hn); congruence|apply Hn].
    + destruct (tab_ident w Hw q j0 E0) as (H1 & H2 & H3). unfold bare in Eb. simpl in Eb.
      injection Eb as -> -> -> _ _ _ _ _. done.
Qed.
End entered.

Section entered_tree.
Context `{SYS : Sys} `{RB : !RbSpec}.

Lemma lookup_uplink k f up tbl q :
  upd_uplink k f up tbl !! q = (if decide (up = Some q) then upd_behind k f else fun i => i) <$> tbl !! q.
Proof.
  destruct up as [u|]; simpl; [|by rewrite option_fmap_id]. rewrite lookup_alter.
  destruct (decide (u = q)) as [->|Hq].
  - by rewrite decide_True.
  - rewrite decide_False by congruence. by rewrite option_fmap_id.
Qed.

Lemma behind_barely tbl k q p : behind tbl k q p ↔ with_ident tbl (fun i => id_kind i = k ∧ id_net i = true ∧ id_uplink i = Some q) p.
Proof. done. Qed.

Lemma tree_entered w w' p i : tree_ok w → newcomer w p i → entered p i w w' → tree_ok w'.
Proof.
  intros Hw Hn He. pose proof (nc_fresh _ _ _ Hn) as Hfresh.
  assert (∀ k q x, behind (ids w') k q x ↔ behind (ids w) k q x ∨ (x = p ∧ id_kind i = k ∧ id_uplink i = Some q)) as Hb.
  { intros k q x. rewrite !behind_barely, (entered_with w w' p i _ x Hn He (barely_behind k q)).
    pose proof (nc_net _ _ _ Hn). tauto. }
  assert (∀ x j, ids w !! x = Some j → x ≠ p) as Hne by (intros x j E ->; congruence).
  assert (∀ k x, ¬ behind (ids w') k p x) as Hp.
  { intros k x [(j & E & Hk & Hnet & Hup)|(-> & _ & Hup)]%Hb.
    - destruct (tree_uplink w Hw x j p E Hnet Hup) as (j' & E' & _). congruence.
    - apply (nc_uplink _ _ _ Hn) in Hup as (j' & E' & _). congruence. }
  assert (∀ q, filed_kind (ids w) KServer true q → filed_kind (ids w') KServer true q) as Hserv.
  { intros q Hq. apply (entered_with w w' p i _ q Hn He (barely_kind KServer true)). by left. }
  split.
  - intros x j E Hnet Hk. destruct (entered_ident w w' p i x j Hn He E) as [[-> ->]|(_ & j0 & E0 & Eb)].
    + by apply Hn.
    + injection Eb as _ _ Ek En Eu _ _ _. rewrite Eu. apply (tree_user w Hw x j0 E0); congruence.
  - intros x j E Hnet Hk. destruct (entered_ident w w' p i x j Hn He E) as [[-> ->]|(_ & j0 & E0 & Eb)].
    + by apply (nc_home _ _ _ Hn).
    + injection Eb as _ _ Ek En Eu _ _ Eh. rewrite Eh, Eu. apply (tree_home w Hw x j0 E0); congruence.
  - intros x j E Hk. destruct (entered_ident w w' p i x j Hn He E) as [[-> ->]|(_ & j0 & E0 & Eb)].
    + destruct (nc_kind _ _ _ Hn); congruence.
    + injection Eb as _ _ Ek _ Eu _ _ _. rewrite Eu. apply (tree_service w Hw x j0 E0). congruence.
  - intros x j q E Hnet Hup. apply Hserv. destruct (entered_ident w w' p i x j Hn He E) as [[-> ->]|(_ & j0 & E0 & Eb)].
    + by apply (nc_uplink _ _ _ Hn).
    + injection Eb as _ _ Ek En Eu _ _ _. apply (tree_uplink w Hw x j0 q E0); congruence.
  - intros q j E Hk Hnet. rewrite (en_ids _ _ _ _ He) in E. apply lookup_insert_Some in E as [[<- <-]|[Hq E]].
    + destruct (nc_behind _ _ _ Hn) as [-> _]. apply lists_nil. apply Hp.
    + rewrite lookup_uplink, fmap_Some in E. destruct E as (j0 & E0 & ->).
      assert (id_kind j0 = KServer ∧ id_net j0 = true) as [Hk0 Hn0].
      { case_decide; [|done]. destruct (upd_behind_rest (id_kind i) (rb_dlinkAdd p) j0) as (_ & _ & E1 & E2 & _). split; congruence. }
      pose proof (tree_users w Hw q j0 E0 Hk0 Hn0) as Hl.
      assert (¬ behind (ids w) KUser q p) as Hnp by (intros (? & ? & _); congruence).
      case_decide as Eu; [destruct (id_kind i) eqn:Ek|]; simpl;
        (eapply lists_iff; [|first [apply lists_add; [exact Hl|done]|exact Hl]]); intros x; simpl; rewrite Hb; naive_solver.
  - intros q j E Hk Hnet. rewrite (en_ids _ _ _ _ He) in E. apply lookup_insert_Some in E as [[<- <-]|[Hq E]].
    + destruct (nc_behind _ _ _ Hn) as [_ ->]. apply lists_nil. apply Hp.
    + rewrite lookup_uplink, fmap_Some in E. destruct E as (j0 & E0 & ->).
      assert (id_kind j0 = KServer ∧ id_net j0 = true) as [Hk0 Hn0].
      { case_decide; [|done]. destruct (upd_behind_rest (id_kind i) (rb_dlinkAdd p) j0) as (_ & _ & E1 & E2 & _). split; congruence. }
      pose proof (tree_servers w Hw q j0 E0 Hk0 Hn0) as Hl.
      assert (¬ behind (ids w) KServer q p) as Hnp by (intros (? & ? & _); congruence).
      case_decide as Eu; [destruct (id_kind i) eqn:Ek|]; simpl;
        (eapply lists_iff; [|first [apply lists_add; [exact Hl|done]|exact Hl]]); intros x; simpl; rewrite Hb; naive_solver.
  - destruct (tree_depth w Hw) as [depth Hd].
    exists (fun x => if decide (x = p) then S (default 0%nat (depth <$> id_uplink i)) else depth x).
    intros x j q E Hnet Hup. destruct (entered_ident w w' p i x j Hn He E) as [[-> ->]|(Hx & j0 & E0 & Eb)].
    + rewrite Hup. rewrite (decide_True (P := p = p)) by done. simpl. rewrite decide_False; [lia|].
      apply (nc_uplink _ _ _ Hn) in Hup as (j' & E' & _). by eapply Hne.
    + injection Eb as _ _ Ek En Eu _ _ _. rewrite (decide_False (P := x = p)) by done. rewrite Eu in Hup. rewrite En in Hnet.
      pose proof (tree_uplink w Hw x j0 q E0 Hnet Hup) as (j' & E' & _).
      rewrite decide_False by (by eapply Hne). by eapply Hd.
Qed.

Lemma accounts_entered w w' p i : accounts_ok w → tables_ok w → newcomer w p i → entered p i w w' → accounts_ok w'.
Proof.
  intros Hw Ht Hn He. pose proof (nc_oper _ _ _ Hn) as Eo. split.
  - intros x j r E Hnet Hr. rewrite (en_regs _ _ _ _ He).
    destruct (entered_ident w w' p i x j Hn He E) as [[-> ->]|(_ & j0 & E0 & Eb)]; [by apply (nc_reg _ _ _ Hn)|].
    injection Eb as _ _ Ek En _ _ Erg _. apply (acc_reg w Hw x j0); congruence.
  - rewrite (en_opers _ _ _ _ He). eapply lists_iff; [|apply Hw]. intros x.
    change (with_ident (ids w) (fun i => id_net i = true ∧ id_kind i = KUser ∧ is_Some (id_oper i)) x ↔
      with_ident (ids w') (fun i => id_net i = true ∧ id_kind i = KUser ∧ is_Some (id_oper i)) x).
    rewrite (entered_with w w' p i _ x Hn He) by done. rewrite Eo. split; [by left|]. intros [?|(_ & _ & _ & [? ?])]; done.
  - intros x j o E Hnet Ho. rewrite (en_blocks _ _ _ _ He).
    destruct (entered_ident w w' p i x j Hn He E) as [[-> ->]|(_ & j0 & E0 & Eb)]; [congruence|].
    injection Eb as _ _ Ek En _ Eop _ _. apply (acc_block w Hw x j0); congruence.
  - intros e. rewrite (en_entries _ _ _ _ He), (en_blocks _ _ _ _ He). apply Hw.
  - intros o b. rewrite (en_blocks _ _ _ _ He). intros E. pose proof (acc_count w Hw o b E) as Hc.
    enough (block_uses w' o = block_uses w o) by congruence.
    unfold block_uses. rewrite (en_entries _ _ _ _ He). f_equal.
    assert (∀ x, x ≠ p → uses_block (ids w') o x = uses_block (ids w) o x) as Hu.
    { intros x Hx. unfold uses_block. pose proof (entered_lookup p i w w' x He) as El. rewrite decide_False in El by done.
      destruct (ids w' !! x) as [j|], (ids w !! x) as [j0|]; try done. simpl in El.
      injection El as _ _ _ _ _ -> _ _. done. }
    assert (uses_block (ids w') o p = false) as Hup.
    { unfold uses_block. rewrite (en_ids _ _ _ _ He), lookup_insert_eq, Eo. done. }
    assert (p ∉ user_list w) as Hp.
    { intros (j & E' & _)%(tab_users w Ht). rewrite (nc_fresh _ _ _ Hn) in E'. done. }
    assert (∀ l : list ptr, p ∉ l → filter (fun x => uses_block (ids w') o x = true) l =
      filter (fun x => uses_block (ids w) o x = true) l) as Hf.
    { intros l Hl. induction l as [|x l IH]; [done|]. apply not_elem_of_cons in Hl as [Hx Hl].
      rewrite !filter_cons, Hu, IH by done. done. }
    rewrite (en_users _ _ _ _ He). case_decide; [|by rewrite Hf].
    rewrite rb_dlinkAdd_spec, filter_cons, Hup. simpl. by rewrite Hf.
Qed.
End entered_tree.

(** ** Channels and the changes of clients *)
Section places.
Context `{SYS : Sys} `{RB : !RbSpec}.

(** The channels of a client, as a user and as a service. *)
Definition places (c : client) : option (list ptr) * option (list ptr) :=
  (us_channels <$> cl_user c, sr_channels <$> cl_service c).

Definition vacant (c : client) : Prop :=
  (∀ l, fst (places c) = Some l → l = []) ∧ (∀ l, snd (places c) = Some l → l = []).

(** The clients that were there are in the channels they were in, and those that
    are new are in none. *)
Record same_places (w w' : world) : Prop := SamePlaces {
  sp_channels : channels w' = channels w;
  sp_members : members w' = members w;
  sp_table : channel_table w' = channel_table w;
  sp_list : channel_list w' = channel_list w;
  sp_old q c : clients w !! q = Some c → ∃ c', clients w' !! q = Some c' ∧ places c' = places c;
  sp_new q c' : clients w' !! q = Some c' →
    (∃ c, clients w !! q = Some c ∧ places c' = places c) ∨ (clients w !! q = None ∧ vacant c')
}.

Lemma places_user c c' u : places c' = places c → cl_user c = Some u → ∃ u', cl_user c' = Some u' ∧ us_channels u' = us_channels u.
Proof. intros E Eu. injection E as E _. rewrite Eu in E. apply fmap_Some in E as (u' & Eu' & E). by exists u'. Qed.

Lemma places_service c c' s : places c' = places c → cl_service c = Some s → ∃ s', cl_service c' = Some s' ∧ sr_channels s' = sr_channels s.
Proof. intros E Es. injection E as _ E. rewrite Es in E. apply fmap_Some in E as (s' & Es' & E). by exists s'. Qed.

Lemma chan_inv_places w w' : chan_inv w → same_places w w' → chan_inv w'.
Proof.
  intros [Hc Hm Hs] [E1 E2 E3 E4 Hold Hnew].
  assert (∀ P x, member_with w' P x ↔ member_with w P x) as Hmw by (intros; unfold member_with; by rewrite E2).
  split.
  - destruct Hc. split; unfold indexed in *; rewrite ?E1, ?E3, ?E4; done.
  - split; rewrite ?E1, ?E2.
    + apply Hm.
    + intros m mb E. destruct (memb_user w Hm m mb E) as (c & u & Ec & Eu).
      destruct (Hold _ _ Ec) as (c' & Ec' & Ep). destruct (places_user _ _ _ Ep Eu) as (u' & Eu' & _). by exists c', u'.
    + intros p ch E. eapply lists_iff; [intros; symmetry; apply Hmw|]. by apply (memb_users w Hm).
    + intros p ch E. eapply lists_iff; [intros; symmetry; apply Hmw|]. by apply (memb_opped w Hm).
    + intros p ch E. eapply lists_iff; [intros; symmetry; apply Hmw|]. by apply (memb_unopped w Hm).
    + intros q c' u' E Eu. eapply lists_iff; [intros; symmetry; apply Hmw|].
      destruct (Hnew _ _ E) as [(c & Ec & Ep)|[Ec [Hv _]]].
      * destruct (places_user c' c u' (eq_sym Ep) Eu) as (u & Eu0 & <-). by apply (memb_channels w Hm q c).
      * rewrite (Hv (us_channels u')) by (by simpl; rewrite Eu). apply lists_nil.
        intros m (mb & Em & Ho). destruct (memb_user w Hm m mb Em) as (c & _ & Ec' & _). unfold of_client in Ho. congruence.
    + apply Hm.
  - split; rewrite ?E1.
    + intros p ch E. eapply lists_iff; [|by apply (serv_services w Hs)]. intros s. split.
      * intros (c & sv & Ec & Es & Hin). destruct (Hold _ _ Ec) as (c' & Ec' & Ep).
        destruct (places_service _ _ _ Ep Es) as (sv' & Es' & El). exists c', sv'. by rewrite El.
      * intros (c' & sv' & Ec' & Es' & Hin). destruct (Hnew _ _ Ec') as [(c & Ec & Ep)|[_ [_ Hv]]].
        -- destruct (places_service c' c sv' (eq_sym Ep) Es') as (sv & Es & El). exists c, sv. by rewrite El.
        -- rewrite (Hv (sr_channels sv')) in Hin by (by simpl; rewrite Es'). by apply elem_of_nil in Hin.
    + intros s c' sv' Ec' Es'. destruct (Hnew _ _ Ec') as [(c & Ec & Ep)|[Ec [_ Hv]]].
      * destruct (places_service c' c sv' (eq_sym Ep) Es') as (sv & Es & <-). by apply (serv_channels w Hs s c).
      * rewrite (Hv (sr_channels sv')) by (by simpl; rewrite Es'). apply lists_nil.
        intros p (ch & E & Hin). apply (serv_services w Hs p ch E) in Hin as (c & _ & Ec0 & _). congruence.
Qed.
End places.

(** ** New clients *)
Section new_clients.
Context `{SYS : Sys} `{RB : !RbSpec}.

Lemma net_inv_entered w w' p i :
  net_inv w → newcomer w p i → entered p i w w' → same_places w w' → net_inv w'.
Proof.
  intros [Hc Ht Htr Ha Hal] Hn He Hs. split.
  - by eapply chan_inv_places.
  - by eapply tables_entered.
  - by eapply tree_entered.
  - by eapply accounts_entered.
  - intros m mb. rewrite (sp_members _ _ Hs). intros E.
    apply (entered_with w w' p i _ _ Hn He (barely_kind KUser true)). left. by eapply Hal.
Qed.

Definition upd_server_behind (k : kind) (f : list ptr → list ptr) (c : client) : client :=
  match k with
  | KUser => c <| cl_server ::= fmap (fun s => s <| sv_users ::= f |>) |>
  | _ => c <| cl_server ::= fmap (fun s => s <| sv_servers ::= f |>) |>
  end.

Lemma ident_upd_server k f c :
  k = KUser ∨ k = KServer → is_Some (cl_server c) → ident_of (upd_server_behind k f c) = upd_behind k f (ident_of c).
Proof.
  intros Hk [s Es]. unfold ident_of, kind_of, on_net, users_behind, servers_behind, upd_server_behind.
  destruct Hk as [-> | ->]; simpl; by rewrite Es.
Qed.

(** The server's list grows or shrinks by one client. *)
Lemma ids_upd_server w k f q c :
  k = KUser ∨ k = KServer → clients w !! q = Some c → is_Some (cl_server c) →
  ident_of <$> alter (upd_server_behind k f) q (clients w) = alter (upd_behind k f) q (ids w).
Proof.
  intros Hk Ec Hs. apply map_eq. intros x. unfold ids. rewrite lookup_fmap, !lookup_alter. case_decide; [|by rewrite lookup_fmap].
  subst. rewrite lookup_fmap, Ec. simpl. by rewrite ident_upd_server.
Qed.

Lemma ids_insert w p c : ident_of <$> <[p := c]> (clients w) = <[p := ident_of c]> (ids w).
Proof. apply fmap_insert. Qed.

Lemma places_upd_server k f c : places (upd_server_behind k f c) = places c.
Proof. by destruct k. Qed.

(** The client in fresh memory, filed and put in the list of its uplink. *)
Definition file_client (p : ptr) (c : client) (w : world) : world :=
  let w := w <| name_table ::= upd_bucket (hash_name (cl_name c)) (rb_dlinkAdd p) |> in
  if is_empty (Some (cl_uid c)) then w
  else w <| uid_table ::= upd_bucket (hash_name (cl_uid c)) (rb_dlinkAdd p) |>.

Lemma wp_add_client w p c (Q : unit → world → Prop) :
  clients w !! p = Some c → Q tt (file_client p c w) → wp (add_client p) Q w.
Proof.
  intros Ec HQ. unfold add_client. apply wp_bind. eapply wp_rd; [exact Ec|]. apply wp_bind, wp_modify.
  unfold file_client in HQ. apply wp_when; intros E.
  - apply negb_true_iff in E. rewrite E in HQ. by apply wp_modify.
  - apply negb_false_iff in E. by rewrite E in HQ.
Qed.

End new_clients.

(** ** Departure *)
Section retired.
Context `{SYS : Sys} `{RB : !RbSpec}.
Implicit Types (P : ident → Prop).

(** A user or server on the network, with nothing behind it. *)
Record leaver (w : world) (p : ptr) (i : ident) : Prop := Leaver {
  lv_ident : ids w !! p = Some i;
  lv_kind : id_kind i = KUser ∨ id_kind i = KServer;
  lv_net : id_net i = true;
  lv_behind k x : ¬ behind (ids w) k p x
}.

Definition off_net (i : ident) : ident := i <| id_net := false |>.

Definition list_of_kind (k : kind) (w : world) : list ptr :=
  match k with KUser => user_list w | _ => server_list w end.

Record retired (p : ptr) (i : ident) (w w' : world) : Prop := Retired {
  rt_ids : ids w' = alter off_net p (upd_uplink (id_kind i) (rb_dlinkDelete p) (id_uplink i) (ids w));
  rt_name : name_table w' = upd_bucket (hash_name (id_name i)) (rb_dlinkDelete p) (name_table w);
  rt_uid : uid_table w' = if decide (id_uid i = ""%string) then uid_table w
                          else upd_bucket (hash_name (id_uid i)) (rb_dlinkDelete p) (uid_table w);
  rt_users : user_list w' = if decide (id_kind i = KUser)
    then (rb_dlinkMoveNode p (user_list w) (exited_list w)).1 else user_list w;
  rt_servers : server_list w' = if decide (id_kind i = KUser) then server_list w
    else (rb_dlinkMoveNode p (server_list w) (exited_list w)).1;
  rt_exited : exited_list w' = (rb_dlinkMoveNode p (list_of_kind (id_kind i) w) (exited_list w)).2;
  rt_services : service_list w' = service_list w
}.

Lemma bare_off k f i : bare (off_net (upd_behind k f i)) = bare (off_net i).
Proof. by destruct k. Qed.

(** The leaver's ident comes to be off the network, those of the others lose at most a list entry. *)
Lemma retired_lookup p i w w' x :
  leaver w p i → retired p i w w' →
  bare <$> ids w' !! x = if decide (x = p) then Some (bare (off_net i)) else bare <$> ids w !! x.
Proof.
  intros Hl Hr. rewrite (rt_ids _ _ _ _ Hr), lookup_alter, !lookup_uplink. destruct (decide (x = p)) as [->|Hx].
  - rewrite decide_True, (lv_ident _ _ _ Hl) by done. simpl. case_decide; [|done]. by rewrite bare_off.
  - rewrite (decide_False (P := p = x)) by congruence. destruct (ids w !! x) as [j|]; [|done]. simpl.
    case_decide; [|done]. by rewrite bare_upd.
Qed.

Lemma retired_with w w' p i P x :
  leaver w p i → retired p i w w' → barely P →
  with_ident (ids w') P x ↔ (x ≠ p ∧ with_ident (ids w) P x) ∨ (x = p ∧ P (off_net i)).
Proof.
  intros Hl Hr HP. pose proof (retired_lookup p i w w' x Hl Hr) as E. case_decide as Ex.
  - subst x. unfold with_ident. destruct (ids w' !! p) as [j|]; [|done]. simpl in E. apply (inj Some) in E.
    split.
    + intros (j' & [= <-] & Hj). right. split; [done|]. apply (HP (off_net i)). rewrite <- E. by apply HP.
    + intros [[? _]|[_ Hj]]; [done|]. exists j. split; [done|]. apply (HP j). rewrite E. by apply HP.
  - unfold with_ident. rewrite (barely_exists (ids w) (ids w') P x x HP E). naive_solver.
Qed.

(** A predicate that only holds of clients on the network loses the leaver. *)
Lemma retired_with_net w w' p i P x :
  leaver w p i → retired p i w w' → barely P → (∀ j, P j → id_net j = true) →
  with_ident (ids w') P x ↔ with_ident (ids w) P x ∧ x ≠ p.
Proof.
  intros Hl Hr HP Hnet. rewrite (retired_with w w' p i P x Hl Hr HP). split; [|tauto].
  intros [?|[_ Hp]]; [tauto|]. by apply Hnet in Hp.
Qed.

Lemma retired_ident w w' p i x j :
  leaver w p i → retired p i w w' → ids w' !! x = Some j →
  (x = p ∧ bare j = bare (off_net i)) ∨ (x ≠ p ∧ ∃ j0, ids w !! x = Some j0 ∧ bare j = bare j0).
Proof.
  intros Hl Hr E. pose proof (retired_lookup p i w w' x Hl Hr) as El. rewrite E in El. simpl in El.
  case_decide as Ex; [left; split; [done|congruence]|]. right. split; [done|].
  destruct (ids w !! x) as [j0|]; [|done]. exists j0. split; [done|]. simpl in El. congruence.
Qed.

Lemma tables_retired w w' p i : tables_ok w → leaver w p i → retired p i w w' → tables_ok w'.
Proof.
  intros Hw Hl Hr. pose proof (lv_ident _ _ _ Hl) as Ei. pose proof (lv_net _ _ _ Hl) as Hnet.
  pose proof (fun P x => retired_with_net w w' p i P x Hl Hr) as Hgone.
  assert (∀ k, id_kind i = k → with_ident (ids w) (fun i => id_kind i = k ∧ id_net i = true) p) as Hk by (intros; by exists i).
  assert (∀ k, id_kind i ≠ k → ¬ with_ident (ids w) (fun i => id_kind i = k ∧ id_net i = true) p) as Hnk.
  { intros k Hne (j & E & ? & _). congruence. }
  assert (¬ (filed_kind (ids w) KUser false p ∨ filed_kind (ids w) KServer false p)) as Hnex.
  { intros [(j & E & _ & ?)|(j & E & _ & ?)]; congruence. }
  pose proof (lists_move (user_list w) (exited_list w) _ _ p (tab_users w Hw) (tab_exited w Hw)) as Hmu.
  pose proof (lists_move (server_list w) (exited_list w) _ _ p (tab_servers w Hw) (tab_exited w Hw)) as Hms.
  assert (∀ k x, filed_kind (ids w') k false x ↔ filed_kind (ids w) k false x ∨ (x = p ∧ id_kind i = k)) as Hoff.
  { intros k x. change (with_ident (ids w') (fun i => id_kind i = k ∧ id_net i = false) x ↔
      with_ident (ids w) (fun i => id_kind i = k ∧ id_net i = false) x ∨ (x = p ∧ id_kind i = k)).
    rewrite (retired_with w w' p i _ x Hl Hr (barely_kind k false)). simpl. split.
    - intros [[_ ?]|(? & ? & _)]; [by left|by right].
    - intros [(j & E & Hj)|[? ?]]; [|by right]. left. split; [|by exists j]. intros ->. destruct Hj. congruence. }
  split.
  - rewrite (rt_name _ _ _ _ Hr). eapply indexed_iff; [|apply indexed_delete; [apply Hw|by exists i|]].
    + intros x h. cbn beta. symmetry. apply Hgone; [apply barely_name|by intros j []].
    + intros h (j & E & _ & <-). congruence.
  - rewrite (rt_uid _ _ _ _ Hr). case_decide as Eu.
    + eapply indexed_iff; [|apply Hw]. intros x h. symmetry.
      etrans; [apply Hgone; [apply barely_uid|by intros j []]|]. split; [tauto|]. intros Hx. split; [done|]. intros ->.
      destruct Hx as (j & E & _ & ? & _). congruence.
    + eapply indexed_iff; [|apply indexed_delete; [apply Hw|by exists i|]].
      * intros x h. cbn beta. symmetry. apply Hgone; [apply barely_uid|by intros j []].
      * intros h (j & E & _ & _ & <-). congruence.
  - rewrite (rt_users _ _ _ _ Hr). case_decide as Ek.
    + eapply lists_iff; [|apply Hmu; [by apply Hk|done]]. intros x. symmetry. apply (Hgone _ x (barely_kind KUser true)). by intros j [].
    + eapply lists_iff; [|apply lists_exclude; [apply Hw|by apply Hnk]]. intros x. symmetry.
      apply (Hgone _ x (barely_kind KUser true)). by intros j [].
  - rewrite (rt_servers _ _ _ _ Hr). case_decide as Ek.
    + eapply lists_iff; [|apply lists_exclude; [apply Hw|apply (Hnk KServer); congruence]]. intros x. symmetry.
      apply (Hgone _ x (barely_kind KServer true)). by intros j [].
    + assert (id_kind i = KServer) as Ek' by (by destruct (lv_kind _ _ _ Hl)).
      eapply lists_iff; [|apply Hms; [by apply Hk|done]]. intros x. symmetry. apply (Hgone _ x (barely_kind KServer true)). by intros j [].
  - rewrite (rt_exited _ _ _ _ Hr). destruct (lv_kind _ _ _ Hl) as [Ek|Ek]; rewrite Ek; simpl;
      (eapply lists_iff; [|first [apply Hmu; [by apply Hk|done]|apply Hms; [by apply Hk|done]]]);
      intros x; cbn beta; rewrite !Hoff, Ek; naive_solver.
  - rewrite (rt_services _ _ _ _ Hr). eapply lists_iff; [|apply Hw]. intros x.
    change (with_ident (ids w) (fun i => id_kind i = KService) x ↔ with_ident (ids w') (fun i => id_kind i = KService) x).
    rewrite (retired_with w w' p i _ x Hl Hr) by done. simpl. split.
    + intros (j & E & Ej). left. split; [|by exists j]. intros ->. destruct (lv_kind _ _ _ Hl); congruence.
    + intros [[_ ?]|[_ ?]]; [done|]. destruct (lv_kind _ _ _ Hl); congruence.
  - intros x j E. destruct (retired_ident w w' p i x j Hl Hr E) as [[-> Eb]|(_ & j0 & E0 & Eb)].
    + destruct (tab_ident w Hw p i Ei) as (H1 & H2 & H3). injection Eb as -> -> -> _ _ _ _ _. done.
    + destruct (tab_ident w Hw x j0 E0) as (H1 & H2 & H3). injection Eb as -> -> -> _ _ _ _ _. done.
Qed.
End retired.

Section retired_tree.
Context `{SYS : Sys} `{RB : !RbSpec}.

Lemma retired_behind w w' p i k q x :
  leaver w p i → retired p i w w' → behind (ids w') k q x ↔ behind (ids w) k q x ∧ x ≠ p.
Proof.
  intros Hl Hr. rewrite !behind_barely. apply (retired_with_net w w' p i _ x Hl Hr (barely_behind k q)). by intros j (_ & ? & _).
Qed.

(** A list of a server, before and after. *)
Lemma retired_list w w' p i k q j (f : ident → list ptr) :
  leaver w p i → retired p i w w' → id_net j = true →
  (∀ j, f (off_net j) = f j) →
  (∀ g j, f (upd_behind (id_kind i) g j) = if decide (id_kind i = k) then g (f j) else f j) →
  (∀ j0, ids w !! q = Some j0 → id_kind j0 = KServer → id_net j0 = true → lists (f j0) (behind (ids w) k q)) →
  ids w' !! q = Some j → id_kind j = KServer → lists (f j) (behind (ids w') k q).
Proof.
  intros Hl Hr Hnet Hoff Hupd Hold E Hk. rewrite (rt_ids _ _ _ _ Hr), lookup_alter, !lookup_uplink in E.
  destruct (decide (p = q)) as [->|Hpq].
  { rewrite (lv_ident _ _ _ Hl) in E. injection E as <-. done. }
  destruct (ids w !! q) as [j0|] eqn:E0; [|done]. injection E as <-. specialize (Hold j0 eq_refl).
  assert (∀ x, behind (ids w) k q x ∧ x ≠ p ↔ behind (ids w') k q x) as Hb by (intros; by rewrite (retired_behind w w' p i)).
  destruct (decide (id_uplink i = Some q)) as [Eu|Eu].
  - destruct (upd_behind_rest (id_kind i) (rb_dlinkDelete p) j0) as (_ & _ & E1 & E2 & _).
    rewrite E1 in Hk. rewrite E2 in Hnet. specialize (Hold Hk Hnet). rewrite Hupd. eapply lists_iff; [exact Hb|].
    case_decide as Ek.
    + apply lists_delete; [exact Hold|]. exists i. split_and!; [apply Hl|done|apply Hl|done].
    + apply lists_exclude; [exact Hold|]. intros (i' & Ei & ? & _). rewrite (lv_ident _ _ _ Hl) in Ei. congruence.
  - specialize (Hold Hk Hnet). eapply lists_iff; [exact Hb|]. apply lists_exclude; [exact Hold|].
    intros (i' & Ei & _ & _ & ?). rewrite (lv_ident _ _ _ Hl) in Ei. congruence.
Qed.

Lemma tree_retired w w' p i : tree_ok w → leaver w p i → retired p i w w' → tree_ok w'.
Proof.
  intros Hw Hl Hr.
  assert (∀ x j, ids w' !! x = Some j → id_net j = true → x ≠ p ∧ ∃ j0, ids w !! x = Some j0 ∧ bare j = bare j0) as Hback.
  { intros x j E Hn. destruct (retired_ident w w' p i x j Hl Hr E) as [[-> Eb]|?]; [|done].
    injection Eb as _ _ _ Hnet _ _ _ _. congruence. }
  split.
  - intros x j E Hn Hk. destruct (Hback x j E Hn) as (_ & j0 & E0 & Eb). injection Eb as _ _ Ek En Eu _ _ _.
    rewrite Eu. apply (tree_user w Hw x j0 E0); congruence.
  - intros x j E Hn Hk. destruct (Hback x j E Hn) as (_ & j0 & E0 & Eb). injection Eb as _ _ Ek En Eu _ _ Eh.
    rewrite Eh, Eu. apply (tree_home w Hw x j0 E0); congruence.
  - intros x j E Hk. destruct (retired_ident w w' p i x j Hl Hr E) as [[-> Eb]|(_ & j0 & E0 & Eb)].
    + injection Eb as _ _ Ek _ _ _ _ _. simpl in Ek. destruct (lv_kind _ _ _ Hl); congruence.
    + injection Eb as _ _ Ek _ Eu _ _ _. rewrite Eu. apply (tree_service w Hw x j0 E0). congruence.
  - intros x j q E Hn Hup. destruct (Hback x j E Hn) as (_ & j0 & E0 & Eb). injection Eb as _ _ Ek En Eu _ _ _.
    rewrite Eu in Hup. rewrite En in Hn. pose proof (tree_uplink w Hw x j0 q E0 Hn Hup) as Hq.
    apply (retired_with_net w w' p i _ q Hl Hr (barely_kind KServer true)); [by intros ? []|]. split; [exact Hq|].
    intros ->. apply (lv_behind _ _ _ Hl (id_kind j0) x). by exists j0.
  - intros q j E Hk Hn. apply (retired_list w w' p i KUser q j id_users); try done; [|by intros; apply (tree_users w Hw q)].
    intros g j'. by destruct (lv_kind _ _ _ Hl) as [-> | ->].
  - intros q j E Hk Hn. apply (retired_list w w' p i KServer q j id_servers); try done; [|by intros; apply (tree_servers w Hw q)].
    intros g j'. by destruct (lv_kind _ _ _ Hl) as [-> | ->].
  - destruct (tree_depth w Hw) as [depth Hd]. exists depth. intros x j q E Hn Hup.
    destruct (Hback x j E Hn) as (_ & j0 & E0 & Eb). injection Eb as _ _ Ek En Eu _ _ _. apply (Hd x j0 q E0); congruence.
Qed.

(** What becomes of logins and operator blocks: the leaver gives its reference up,
    after new stored operators [es] have taken some. *)
Definition refs (i : ident) (es : list client_oper) (o : ptr) : Z :=
  Z.of_nat (length (filter (fun e => co_oper e = o) es)) - (if decide (id_oper i = Some o) then 1 else 0).

Record settled (p : ptr) (i : ident) (es : list client_oper) (w w' : world) : Prop := Settled {
  se_regs r : is_Some (user_regs w !! r) → is_Some (user_regs w' !! r);
  se_opers : oper_list w' = if decide (is_Some (id_oper i)) then rb_dlinkFindDestroy p (oper_list w) else oper_list w;
  se_entries : client_oper_list w' = es ++ client_oper_list w;
  se_users e : e ∈ es → id_oper i = Some (co_oper e);
  se_blocks o b' : conf_opers w' !! o = Some b' →
    ∃ b, conf_opers w !! o = Some b ∧ oper_refcount b' = oper_refcount b + refs i es o;
  se_kept o b : conf_opers w !! o = Some b → is_Some (conf_opers w' !! o) ∨ oper_refcount b + refs i es o = 0
}.

Lemma filter_remove_first {A} `{EqDecision A} (f : A → bool) x l :
  x ∈ l → (length (filter (fun y => f y = true) (remove_first x l)) + (if f x then 1 else 0))%nat =
          length (filter (fun y => f y = true) l).
Proof.
  induction l as [|y l IH]; [by intros ?%elem_of_nil|]. intros Hx. cbn [remove_first].
  destruct (decide (x = y)) as [<-|Hy].
  - rewrite filter_cons. destruct (f x) eqn:E; case_decide; simpl; try done; lia.
  - apply elem_of_cons in Hx as [->|Hx]; [done|]. specialize (IH Hx).
    rewrite !filter_cons. case_decide; simpl; lia.
Qed.

Lemma uses_block_retired w w' p i o x :
  leaver w p i → retired p i w w' → uses_block (ids w') o x = uses_block (ids w) o x.
Proof.
  intros Hl Hr. unfold uses_block. pose proof (retired_lookup p i w w' x Hl Hr) as El. case_decide as Ex.
  - subst. rewrite (lv_ident _ _ _ Hl). destruct (ids w' !! p) as [j|]; [|done]. injection El as _ _ _ _ _ -> _ _. done.
  - destruct (ids w' !! x) as [j|], (ids w !! x) as [j0|]; try done. injection El as _ _ _ _ _ -> _ _. done.
Qed.

(** Only users are operators. *)
Lemma oper_user w x j : tables_ok w → ids w !! x = Some j → is_Some (id_oper j) → id_kind j = KUser.
Proof.
  intros Ht E Ho. destruct (tab_ident w Ht x j E) as [Hk _]. apply ids_client in E as (c & _ & <-).
  simpl in *. unfold kind_of in *. destruct (cl_user c); [|by destruct Ho].
  by destruct (cl_server c), (cl_service c).
Qed.

(** The references that count, before and after. *)
Lemma block_uses_retired w w' p i es o :
  tables_ok w → leaver w p i → retired p i w w' → settled p i es w w' →
  Z.of_nat (block_uses w' o) = Z.of_nat (block_uses w o) + refs i es o.
Proof.
  intros Ht Hl Hr Hs. unfold block_uses, refs. rewrite (se_entries _ _ _ _ _ Hs), filter_app, length_app.
  assert (∀ l : list ptr, filter (fun x => uses_block (ids w') o x = true) l = filter (fun x => uses_block (ids w) o x = true) l) as Hf.
  { intros l. induction l as [|x l IH]; [done|]. rewrite !filter_cons, IH. by rewrite (uses_block_retired w w' p i). }
  rewrite Hf, (rt_users _ _ _ _ Hr). pose proof (lv_ident _ _ _ Hl) as Ei.
  destruct (decide (id_kind i = KUser)) as [Ek|Ek].
  - assert (p ∈ user_list w) as Hp. { apply (tab_users w Ht). exists i. split_and!; [done|done|apply Hl]. }
    destruct (rb_dlinkMoveNode_spec p (user_list w) (exited_list w) Hp) as [-> _].
    pose proof (filter_remove_first (uses_block (ids w) o) p (user_list w) Hp) as E.
    assert (uses_block (ids w) o p = bool_decide (id_oper i = Some o)) as Eu by (unfold uses_block; by rewrite Ei).
    rewrite Eu in E. destruct (decide (id_oper i = Some o)) as [Eo|Eo]; [rewrite bool_decide_true in E by done|rewrite bool_decide_false in E by done]; cbn iota in E; lia.
  - rewrite decide_False; [lia|]. intros Eo. apply Ek. apply (oper_user w p i); [done|done|]. by exists o.
Qed.

Lemma accounts_retired w w' p i es :
  accounts_ok w → tables_ok w → leaver w p i → retired p i w w' → settled p i es w w' → accounts_ok w'.
Proof.
  intros Hw Ht Hl Hr Hs. pose proof (fun o => block_uses_retired w w' p i es o Ht Hl Hr Hs) as Huses.
  pose proof (tables_retired w w' p i Ht Hl Hr) as Ht'.
  assert (∀ o b, conf_opers w !! o = Some b → (0 < block_uses w' o)%nat → is_Some (conf_opers w' !! o)) as Hkept.
  { intros o b E Hpos. destruct (se_kept _ _ _ _ _ Hs o b E) as [?|Ez]; [done|].
    pose proof (acc_count w Hw o b E). specialize (Huses o). lia. }
  assert (∀ x j, ids w' !! x = Some j → id_net j = true → x ≠ p ∧ ∃ j0, ids w !! x = Some j0 ∧ bare j = bare j0) as Hback.
  { intros x j E Hn. destruct (retired_ident w w' p i x j Hl Hr E) as [[-> Eb]|?]; [|done].
    injection Eb as _ _ _ Hnet _ _ _ _. congruence. }
  split.
  - intros x j r E Hn Er. apply (se_regs _ _ _ _ _ Hs). destruct (Hback x j E Hn) as (_ & j0 & E0 & Eb).
    injection Eb as _ _ Ek En _ _ Erg _. apply (acc_reg w Hw x j0 r E0); congruence.
  - assert (∀ x, with_ident (ids w') (fun i => id_net i = true ∧ id_kind i = KUser ∧ is_Some (id_oper i)) x ↔
      with_ident (ids w) (fun i => id_net i = true ∧ id_kind i = KUser ∧ is_Some (id_oper i)) x ∧ x ≠ p) as Hx.
    { intros x. apply (retired_with_net w w' p i); [done..|by intros j []]. }
    rewrite (se_opers _ _ _ _ _ Hs). case_decide as Eo.
    + eapply lists_iff; [|apply lists_destroy, Hw]. intros x. symmetry. apply Hx.
    + eapply lists_iff; [|apply lists_exclude; [apply Hw|]]. { intros x. symmetry. apply Hx. }
      intros (j & E & _ & _ & ?). rewrite (lv_ident _ _ _ Hl) in E. congruence.
  - intros x j o E Hn Eo. destruct (Hback x j E Hn) as (Hx & j0 & E0 & Eb).
    injection Eb as _ _ Ek En _ Eop _ _. destruct (acc_block w Hw x j0 o E0) as [b Eb']; [congruence..|].
    apply (Hkept o b Eb'). unfold block_uses.
    assert (x ∈ filter (fun y => uses_block (ids w') o y = true) (user_list w')) as Hin; 
      [|destruct (filter _ (user_list w')); [by apply elem_of_nil in Hin|simpl; lia]].
    apply list_elem_of_filter. split.
    + unfold uses_block. rewrite E. by apply bool_decide_eq_true.
    + apply (tab_users _ Ht'). exists j. split; [done|]. split; [|done].
      apply (oper_user w' x j); [done..|]. by exists o.
  - intros e. rewrite (se_entries _ _ _ _ _ Hs). intros He.
    assert (is_Some (conf_opers w !! co_oper e)) as [b Eb].
    { apply elem_of_app in He as [He|He]; [|by apply (acc_entry w Hw)].
      apply (acc_block w Hw p i); [apply Hl|apply Hl|]. by apply (se_users _ _ _ _ _ Hs). }
    apply (Hkept _ b Eb). unfold block_uses. rewrite (se_entries _ _ _ _ _ Hs).
    assert (e ∈ filter (fun x => co_oper x = co_oper e) (es ++ client_oper_list w)) as Hin by (by apply list_elem_of_filter).
    destruct (filter (fun x => co_oper x = co_oper e) (es ++ client_oper_list w)); [by apply elem_of_nil in Hin|simpl; lia].
  - intros o b' E. destruct (se_blocks _ _ _ _ _ Hs o b' E) as (b & Eb & ->).
    pose proof (acc_count w Hw o b Eb). specialize (Huses o). lia.
Qed.
End retired_tree.
