(* ===== verification/Exits.v ===== *)
(** * Clients exit

    [exit_client()]: a user leaves its channels, its account and the tables; a server
    goes with all users and servers behind it.  While a server is on its way out it
    is marked dead and still in every list; [revive] is the state in which the
    servers of a set [D] were not yet marked, and that state keeps the invariant at
    every step of the recursion. *)

From S2P Require Import Prelude CString Match Rblib Tools Fault World Lookup ModeBuild Channel ChanCmd Service Client Net Members Index Handlers Joins Clients.

Section revive.
Context `{SYS : Sys} `{RB : !RbSpec}.

Definition undead (c : client) : client := c <| cl_flags ::= fun f => clear_flag f FLAGS_DEAD |>.
Definition dead (c : client) : client := c <| cl_flags ::= fun f => set_flag f FLAGS_DEAD |>.

Definition revive (D : gset ptr) (w : world) : world :=
  w <| clients ::= map_imap (fun p c => Some (if decide (p ∈ D) then undead c else c)) |>.

(** The identities after it. *)
Definition on_again (i : ident) : ident := i <| id_net := true |>.
Definition patch (D : gset ptr) (tbl : gmap ptr ident) : gmap ptr ident :=
  map_imap (fun p i => Some (if decide (p ∈ D) then on_again i else i)) tbl.

Lemma lookup_patch D tbl p : patch D tbl !! p = (if decide (p ∈ D) then on_again else fun i => i) <$> tbl !! p.
Proof. unfold patch. rewrite map_lookup_imap. destruct (tbl !! p); [|done]. simpl. by case_decide. Qed.

(** The zombies are servers. *)
Definition zombies (D : gset ptr) (w : world) : Prop :=
  ∀ p, p ∈ D → ∃ c, clients w !! p = Some c ∧ kind_of c = KServer.

Lemma kind_undead c : kind_of (undead c) = kind_of c.
Proof. done. Qed.

Lemma ident_undead c : kind_of c = KServer → ident_of (undead c) = on_again (ident_of c).
Proof.
  intros Hk. unfold ident_of. unfold on_again. simpl. f_equal. unfold on_net. simpl.
  unfold kind_of in Hk. destruct (cl_user c), (cl_server c), (cl_service c); try done.
  by rewrite has_flag_clear_same.
Qed.

Lemma ids_revive D w : zombies D w → ids (revive D w) = patch D (ids w).
Proof.
  intros HD. apply map_eq. intros p. rewrite lookup_patch. unfold ids, revive. simpl.
  rewrite !lookup_fmap, map_lookup_imap. destruct (clients w !! p) as [c|] eqn:E; [|done]. simpl.
  case_decide as Hp; [|done]. destruct (HD p Hp) as (c' & E' & Hk). rewrite E in E'. injection E' as <-.
  by rewrite ident_undead.
Qed.

Lemma places_undead c : places (undead c) = places c.
Proof. done. Qed.

Lemma revive_places D w : same_places w (revive D w).
Proof.
  split; try done; unfold revive; simpl.
  - intros q c E. eexists. rewrite map_lookup_imap, E. simpl. split; [done|]. by case_decide.
  - intros q c'. rewrite map_lookup_imap. destruct (clients w !! q) as [c|]; [|done]. simpl. intros [= <-].
    left. exists c. split; [done|]. by case_decide.
Qed.

Lemma places_revive D w : same_places (revive D w) w.
Proof.
  split; try done; unfold revive; simpl.
  - intros q c. rewrite map_lookup_imap. destruct (clients w !! q) as [c0|]; [|done]. simpl. intros [= <-].
    exists c0. split; [done|]. by case_decide.
  - intros q c E. left. eexists. rewrite map_lookup_imap, E. simpl. split; [done|]. by case_decide.
Qed.

Lemma same_places_trans w w' w'' : same_places w w' → same_places w' w'' → same_places w w''.
Proof.
  intros [E1 E2 E3 E4 O1 N1] [F1 F2 F3 F4 O2 N2]. split; try congruence.
  - intros q c (c' & E' & Ep)%O1. apply O2 in E' as (c'' & E'' & Ep'). exists c''. split; congruence.
  - intros q c'' [(c' & E' & Ep)|[E' Hv]]%N2.
    + apply N1 in E' as [(c & E & Ep')|[E [H1 H2]]]; [left; exists c; split; congruence|].
      right. split; [done|]. split; rewrite Ep; done.
    + right. split; [|done]. destruct (clients w !! q) as [c|] eqn:E; [|done].
      destruct (O1 q c E) as (? & ? & _). congruence.
Qed.

(** A change of one client that keeps its channels. *)
Lemma places_alter w g p : (∀ c, places (g c) = places c) → same_places w (w <| clients ::= alter g p |>).
Proof.
  intros Hg. split; try done; simpl.
  - intros q c E. eexists. split; [apply lookup_alter_iff; by exists c|]. by case_decide.
  - intros q c' (c & E & ->)%lookup_alter_iff. left. exists c. split; [done|]. by case_decide.
Qed.

(** The invariant, up to the zombies. *)
Definition inv_but (D : gset ptr) (w : world) : Prop := net_inv (revive D w) ∧ zombies D w.

Lemma revive_empty w : revive ∅ w = w.
Proof.
  unfold revive. destruct w. unfold field_upd. simpl. f_equal. apply map_eq. intros p.
  rewrite map_lookup_imap. destruct (_ !! p); [|done]. simpl. by rewrite decide_False by set_solver.
Qed.

Lemma inv_but_empty w : inv_but ∅ w ↔ net_inv w.
Proof. unfold inv_but. rewrite revive_empty. split; [by intros []|]. intros Hn. split; [done|]. intros p. set_solver. Qed.

Lemma inv_but_chan D w : inv_but D w → chan_inv w.
Proof. intros [Hn _]. eapply chan_inv_places; [apply Hn|apply places_revive]. Qed.
End revive.

(** ** Operator blocks *)
Section blocks.
Context `{SYS : Sys} `{RB : !RbSpec}.

Definition add_ref (n : Z) (b : conf_oper) : conf_oper := b <| oper_refcount ::= Z.add n |>.

(** One reference less; a block that is out of the configuration goes with the last one. *)
Definition drop_ref (o : ptr) (blocks : gmap ptr conf_oper) : gmap ptr conf_oper :=
  let blocks := alter (add_ref (-1)) o blocks in
  match blocks !! o with
  | Some b => if has_flag (oper_flags b) CONF_DEAD && (oper_refcount b =? 0) then delete o blocks else blocks
  | None => blocks
  end.

Lemma wp_deallocate w o (Q : unit → world → Prop) :
  is_Some (conf_opers w !! o) → Q tt (w <| conf_opers ::= drop_ref o |>) → wp (deallocate_conf_oper o) Q w.
Proof.
  intros [b Eb] HQ. unfold deallocate_conf_oper. apply wp_bind. eapply wp_rd; [exact Eb|].
  apply wp_bind, wp_modify. apply wp_bind. eapply wp_rd; [simpl; apply lookup_alter_iff; by exists b|].
  rewrite decide_True by done.
  set (cond := has_flag (oper_flags (add_ref (-1) b)) CONF_DEAD && (oper_refcount (add_ref (-1) b) =? 0)).
  assert (Q tt (w <| conf_opers := if cond then delete o (alter (add_ref (-1)) o (conf_opers w))
                                   else alter (add_ref (-1)) o (conf_opers w) |>)) as HQ'.
  { replace (if cond then _ else _) with (drop_ref o (conf_opers w)); [exact HQ|].
    unfold drop_ref. by rewrite lookup_alter, decide_True, Eb by done. }
  apply wp_when; intros E; change (cond = true) in E || change (cond = false) in E; rewrite E in HQ'.
  - by apply wp_modify.
  - exact HQ'.
Qed.

Lemma drop_ref_blocks o blocks q b' :
  drop_ref o blocks !! q = Some b' →
  ∃ b, blocks !! q = Some b ∧ oper_refcount b' = oper_refcount b + (if decide (o = q) then -1 else 0).
Proof.
  intros E. assert (alter (add_ref (-1)) o blocks !! q = Some b') as E'.
  { revert E. unfold drop_ref. destruct (alter _ _ _ !! o); [|done]. destruct (_ && _); [|done].
    by intros [_ ?]%lookup_delete_Some. }
  apply lookup_alter_iff in E' as (b & Eb & ->). exists b. split; [done|]. case_decide; simpl; lia.
Qed.

Lemma drop_ref_kept o blocks q b :
  blocks !! q = Some b →
  is_Some (drop_ref o blocks !! q) ∨ (o = q ∧ oper_refcount b - 1 = 0).
Proof.
  intros Eb. assert (is_Some (alter (add_ref (-1)) o blocks !! q)) as Hs by (by apply lookup_alter_is_Some; eexists).
  unfold drop_ref. destruct (alter (add_ref (-1)) o blocks !! o) as [b0|] eqn:E0; [|by left].
  destruct (_ && _) eqn:Ec; [|by left]. destruct (decide (o = q)) as [->|Hq].
  - right. split; [done|]. rewrite lookup_alter, decide_True, Eb in E0 by done. injection E0 as <-.
    apply andb_true_iff in Ec as [_ Ec]. apply Z.eqb_eq in Ec. simpl in Ec. lia.
  - left. by rewrite lookup_delete_ne.
Qed.

(** What becomes of a user's account when it exits. *)
Definition closed (p : ptr) (u : user) (es : list client_oper) (w w' : world) : Prop :=
  user_regs w' = match us_user_reg u with Some r => alter (fun r => r <| ur_users ::= rb_dlinkFindDestroy p |>) r (user_regs w) | None => user_regs w end ∧
  oper_list w' = (match us_oper u with Some _ => rb_dlinkFindDestroy p (oper_list w) | None => oper_list w end) ∧
  client_oper_list w' = es ++ client_oper_list w ∧
  (es = [] ∨ ∃ e, es = [e] ∧ us_oper u = Some (co_oper e)) ∧
  conf_opers w' = match us_oper u with
                  | Some o => drop_ref o (if decide (es = []) then conf_opers w else alter (add_ref 1) o (conf_opers w))
                  | None => conf_opers w
                  end.

Lemma closed_settled p c u es w w' :
  cl_user c = Some u → closed p u es w w' → settled p (ident_of c) es w w'.
Proof.
  intros Eu (E1 & E2 & E3 & Hes & E5).
  assert (id_oper (ident_of c) = us_oper u) as Eo by (unfold ident_of; simpl; by rewrite Eu).
  assert (∀ q, Z.of_nat (length (filter (fun e => co_oper e = q) es)) =
    if decide (es = []) then 0 else if decide (us_oper u = Some q) then 1 else 0) as Hlen.
  { intros q. destruct Hes as [->|(e & -> & Ee)]; [done|]. rewrite decide_False by done.
    rewrite filter_cons, Ee. destruct (decide (co_oper e = q)) as [Hq|Hq].
    - by rewrite decide_True by congruence.
    - by rewrite decide_False by congruence. }
  split.
  - intros r Hr. rewrite E1. destruct (us_user_reg u); [by apply lookup_alter_is_Some|done].
  - rewrite E2, Eo. destruct (us_oper u); [by rewrite decide_True by (by eexists)|].
    rewrite decide_False; [done|]. by intros [? ?].
  - done.
  - intros e He. rewrite Eo. destruct Hes as [->|(e' & -> & Ee)]; [by apply elem_of_nil in He|].
    apply list_elem_of_singleton in He as ->. done.
  - intros q b'. rewrite E5. unfold refs. rewrite Hlen, Eo. destruct (us_oper u) as [o|].
    + intros (b & Eb & ->)%drop_ref_blocks. destruct (decide (es = [])) as [_|_].
      * exists b. split; [done|]. repeat case_decide; simplify_eq; lia.
      * apply lookup_alter_iff in Eb as (b0 & Eb0 & ->). exists b0. split; [done|].
        repeat case_decide; simplify_eq; simpl; lia.
    + intros Eb. exists b'. split; [done|]. repeat case_decide; simplify_eq; lia.
  - intros q b Eb. rewrite E5. unfold refs. rewrite Hlen, Eo. destruct (us_oper u) as [o|]; [|left; by exists b].
    destruct (decide (es = [])) as [_|_].
    + destruct (drop_ref_kept o (conf_opers w) q b Eb) as [?|[-> ?]]; [by left|right].
      rewrite decide_True by done. lia.
    + destruct (drop_ref_kept o (alter (add_ref 1) o (conf_opers w)) q (if decide (o = q) then add_ref 1 b else b))
        as [?|[-> Hz]]; [apply lookup_alter_iff; by exists b|by left|right].
      rewrite (decide_True (P := q = q)) in Hz by done. rewrite decide_True by done. simpl in Hz. lia.
Qed.
End blocks.

(** ** The exit of a user *)
Section exit_user.
Context `{SYS : Sys} `{RB : !RbSpec} `{HK : !HooksOk}.

(** What a computation on accounts leaves alone. *)
Record same_but_accounts (w w' : world) : Prop := SameButAccounts {
  sa_clients : clients w' = clients w;
  sa_channels : channels w' = channels w;
  sa_members : members w' = members w;
  sa_name : name_table w' = name_table w;
  sa_uid : uid_table w' = uid_table w;
  sa_users : user_list w' = user_list w;
  sa_servers : server_list w' = server_list w;
  sa_exited : exited_list w' = exited_list w;
  sa_table : channel_table w' = channel_table w;
  sa_list : channel_list w' = channel_list w;
  sa_lists : mode_lists w' = mode_lists w;
  sa_services : service_list w' = service_list w;
  sa_hooks : hooks w' = hooks w
}.

Lemma wp_close_account w p c u split cf (k : M world unit) (Q : unit → world → Prop) :
  clients w !! p = Some c → cl_user c = Some u → (∃ q cq, cl_uplink c = Some q ∧ clients w !! q = Some cq) →
  (∀ r, us_user_reg u = Some r → is_Some (user_regs w !! r)) →
  (∀ o, us_oper u = Some o → is_Some (conf_opers w !! o)) →
  (∀ w' es, same_but_accounts w w' → closed p u es w w' → wp k Q w') →
  wp (_ ← when (split && (0 <? cf_split_oper_time cf) && bool_decide (is_Some (us_oper u))) (store_client_oper p);
      _ ← match us_user_reg u with Some r => exit_login p r | None => mret tt end;
      _ ← match us_oper u with Some o => exit_oper p o | None => mret tt end; k) Q w.
Proof.
  intros Ec Eu (q & cq & Eup & Eq) Hreg Hop HQ.
  assert (∀ es w1, same_but_accounts w w1 → user_regs w1 = user_regs w → oper_list w1 = oper_list w →
    client_oper_list w1 = es ++ client_oper_list w → (es = [] ∨ ∃ e, es = [e] ∧ us_oper u = Some (co_oper e)) →
    conf_opers w1 = match us_oper u with
                    | Some o => if decide (es = []) then conf_opers w else alter (add_ref 1) o (conf_opers w)
                    | None => conf_opers w end →
    wp (_ ← match us_user_reg u with Some r => exit_login p r | None => mret tt end;
        _ ← match us_oper u with Some o => exit_oper p o | None => mret tt end; k) Q w1) as Hrest.
  { intros es w1 Hs E1 E2 E3 Hes E5. apply wp_bind.
    apply wp_conseq with (Q := fun _ w2 => same_but_accounts w w2 ∧
      user_regs w2 = (match us_user_reg u with Some r => alter (fun r => r <| ur_users ::= rb_dlinkFindDestroy p |>) r (user_regs w) | None => user_regs w end) ∧
      oper_list w2 = oper_list w1 ∧ client_oper_list w2 = client_oper_list w1 ∧ conf_opers w2 = conf_opers w1).
    { destruct (us_user_reg u) as [r|]; [|by apply wp_ret]. unfold exit_login. destruct (Hreg r eq_refl) as [l El].
      apply wp_bind. eapply wp_rd; [by rewrite E1|]. apply wp_modify. split; [|by rewrite <- E1]. destruct Hs. by split. }
    intros [] w2 (Hs2 & F1 & F2 & F3 & F4). apply wp_bind. destruct (us_oper u) as [o|] eqn:Eo.
    - unfold exit_oper. apply wp_bind, wp_modify. apply wp_deallocate.
      + simpl. rewrite F4, E5. destruct (decide (es = [])); [by apply Hop|]. apply lookup_alter_is_Some. by apply Hop.
      + apply (HQ _ es); [destruct Hs2; by split|]. unfold closed. rewrite Eo. simpl.
        rewrite F1, F2, F3, F4, E2, E3, E5. done.
    - apply wp_ret, (HQ _ es); [done|]. unfold closed. rewrite Eo, F1, F2, F3, F4, E2, E3, E5. done. }
  apply wp_bind. apply wp_when; intros Eb.
  - apply andb_true_iff in Eb as [_ Eb]. apply bool_decide_eq_true in Eb as [o Eo]. destruct (Hop o Eo) as [b Ebk].
    unfold store_client_oper. apply wp_bind. eapply wp_rd; [exact Ec|]. apply wp_bind. eapply wp_user_of; [done..|].
    apply wp_bind. eapply wp_need; [exact Eup|]. apply wp_bind. eapply wp_rd; [exact Eq|].
    apply wp_bind. eapply wp_need; [exact Eo|]. apply wp_bind. eapply wp_rd; [exact Ebk|]. apply wp_bind, wp_gets, wp_modify.
    eapply (Hrest [_]); [by split|done|done|simpl; by rewrite rb_dlinkAdd_spec|right; by eexists|].
    rewrite Eo. by rewrite decide_False.
  - apply (Hrest []); [by split|done|done|done|by left|]. by destruct (us_oper u).
Qed.

End exit_user.

Section exit_user_whole.
Context `{SYS : Sys} `{RB : !RbSpec} `{HK : !HooksOk}.

Lemma kind_server_parts c : kind_of c = KServer → is_Some (cl_server c) ∧ cl_user c = None ∧ cl_service c = None.
Proof. unfold kind_of. by destruct (cl_user c), (cl_server c), (cl_service c). Qed.
Lemma kind_user_parts c : kind_of c = KUser → is_Some (cl_user c) ∧ cl_server c = None ∧ cl_service c = None.
Proof. unfold kind_of. by destruct (cl_user c), (cl_server c), (cl_service c). Qed.

Lemma ident_dead c : cl_service c = None → ident_of (dead c) = off_net (ident_of c).
Proof.
  intros Es. unfold ident_of, off_net. simpl. f_equal. unfold on_net. simpl. rewrite Es.
  by rewrite has_flag_set_same.
Qed.

Lemma on_net_flag c : cl_service c = None → on_net c = negb (has_flag (cl_flags c) FLAGS_DEAD).
Proof. intros Es. unfold on_net. by rewrite Es. Qed.

(** Patching a table commutes with a change of the lists of a server. *)
Lemma patch_uplink D k f up tbl : patch D (upd_uplink k f up tbl) = upd_uplink k f up (patch D tbl).
Proof.
  apply map_eq. intros x. rewrite lookup_patch, !lookup_uplink, lookup_patch.
  destruct (tbl !! x) as [i|]; [|done]. simpl. f_equal. repeat case_decide; try done. by destruct k.
Qed.

Lemma alter_uplink_comm p q k f (tbl : gmap ptr ident) :
  alter (upd_behind k f) q (alter off_net p tbl) = alter off_net p (alter (upd_behind k f) q tbl).
Proof.
  apply map_eq. intros x. rewrite !lookup_alter. repeat case_decide; subst; try done; rewrite ?lookup_alter;
    repeat case_decide; try done; destruct (tbl !! _); try done; simpl; f_equal; by destruct k.
Qed.

Lemma ids_alter_ident (h : gmap ptr client) f g p :
  (∀ c, h !! p = Some c → ident_of (f c) = g (ident_of c)) →
  ident_of <$> alter f p h = alter g p (ident_of <$> h).
Proof.
  intros Hf. apply map_eq. intros x. rewrite lookup_fmap, !lookup_alter, !lookup_fmap. case_decide; [|done].
  subst. destruct (h !! x) as [c|] eqn:E; [|done]. simpl. by rewrite Hf.
Qed.

(** The last steps, for users and for servers: the lists, the uplink's, the tables. *)
Definition unfile_client (p : ptr) (c : client) (w : world) : world :=
  let w := w <| name_table ::= upd_bucket (hash_name (cl_name c)) (rb_dlinkDelete p) |> in
  if is_empty (Some (cl_uid c)) then w
  else w <| uid_table ::= upd_bucket (hash_name (cl_uid c)) (rb_dlinkDelete p) |>.

Lemma wp_del_client w p c (Q : unit → world → Prop) :
  clients w !! p = Some c → Q tt (unfile_client p c w) → wp (del_client p) Q w.
Proof.
  intros Ec HQ. unfold del_client. apply wp_bind. eapply wp_rd; [exact Ec|]. apply wp_bind, wp_modify.
  unfold unfile_client in HQ. apply wp_when; intros E.
  - apply negb_true_iff in E. rewrite E in HQ. by apply wp_modify.
  - apply negb_false_iff in E. by rewrite E in HQ.
Qed.
End exit_user_whole.

Section departure.
Context `{SYS : Sys} `{RB : !RbSpec} `{HK : !HooksOk}.

Lemma zombies_ids D w : zombies D w ↔ ∀ p, p ∈ D → ∃ i, ids w !! p = Some i ∧ id_kind i = KServer.
Proof.
  split; intros HD p Hp; destruct (HD p Hp) as (c & E & Hk).
  - exists (ident_of c). split; [by apply ids_of|done].
  - apply ids_client in E as (c' & E & <-). by exists c'.
Qed.

(** The files that hold clients. *)
Record same_files (w w' : world) : Prop := SameFiles {
  sf_name : name_table w' = name_table w;
  sf_uid : uid_table w' = uid_table w;
  sf_users : user_list w' = user_list w;
  sf_servers : server_list w' = server_list w;
  sf_exited : exited_list w' = exited_list w;
  sf_services : service_list w' = service_list w
}.

Definition unlist (k : kind) (p : ptr) (w : world) : world :=
  let '(l, exited) := rb_dlinkMoveNode p (list_of_kind k w) (exited_list w) in
  match k with
  | KUser => w <| user_list := l |> <| exited_list := exited |>
  | _ => w <| server_list := l |> <| exited_list := exited |>
  end.

Definition unplace (k : kind) (p : ptr) (up : option ptr) (w : world) : world :=
  match up with Some q => w <| clients ::= alter (upd_server_behind k (rb_dlinkDelete p)) q |> | None => w end.

(** What is left of the client [c] at [p] after the last steps of its exit. *)
Definition depart (p : ptr) (c : client) (w : world) : world :=
  unfile_client p c (unplace (kind_of c) p (cl_uplink c) (unlist (kind_of c) p w)).

Lemma unlist_clients k p w : clients (unlist k p w) = clients w.
Proof. unfold unlist. destruct (rb_dlinkMoveNode _ _ _). by destruct k. Qed.

Lemma unfile_clients p c w : clients (unfile_client p c w) = clients w.
Proof. unfold unfile_client. by destruct (is_empty _). Qed.

Lemma depart_ids p c w :
  kind_of c = KUser ∨ kind_of c = KServer →
  (∀ q, cl_uplink c = Some q → ∃ i, ids w !! q = Some i ∧ id_kind i = KServer) →
  ids (depart p c w) = upd_uplink (kind_of c) (rb_dlinkDelete p) (cl_uplink c) (ids w).
Proof.
  intros Hk Hup. unfold ids at 1, depart. rewrite unfile_clients. unfold unplace.
  destruct (cl_uplink c) as [q|]; simpl; rewrite unlist_clients; [|done].
  destruct (Hup q eq_refl) as (i & (cq & Ecq & <-)%ids_client & Hq).
  eapply ids_upd_server; [done..|]. by apply kind_server_parts.
Qed.

Lemma depart_places p c w : same_places w (depart p c w).
Proof.
  apply (same_places_trans _ (unlist (kind_of c) p w)).
  { unfold unlist. destruct (rb_dlinkMoveNode _ _ _), (kind_of c); split; try done; eauto. }
  apply (same_places_trans _ (unplace (kind_of c) p (cl_uplink c) (unlist (kind_of c) p w))).
  { unfold unplace. destruct (cl_uplink c) as [q|]; [|split; eauto].
    apply (places_alter _ (upd_server_behind _ _)). intros. apply places_upd_server. }
  unfold depart. set (w1 := unplace _ _ _ _).
  unfold unfile_client. destruct (is_empty _); split; eauto.
Qed.

Lemma depart_members p c w : members (depart p c w) = members w.
Proof. apply (sp_members _ _ (depart_places p c w)). Qed.

(** The other tables and lists. *)
Lemma depart_rest p c w :
  user_regs (depart p c w) = user_regs w ∧ conf_opers (depart p c w) = conf_opers w ∧
  oper_list (depart p c w) = oper_list w ∧ client_oper_list (depart p c w) = client_oper_list w ∧
  mode_lists (depart p c w) = mode_lists w ∧ hooks (depart p c w) = hooks w.
Proof.
  unfold depart, unfile_client, unplace, unlist. destruct (rb_dlinkMoveNode _ _ _), (kind_of c), (cl_uplink c), (is_empty _); done.
Qed.

Lemma depart_retired p c i b w w' :
  i = ident_of c → no_nul (id_uid i) = true → same_files b w →
  w' = depart p c w →
  name_table w' = upd_bucket (hash_name (id_name i)) (rb_dlinkDelete p) (name_table b) ∧
  uid_table w' = (if decide (id_uid i = ""%string) then uid_table b
                  else upd_bucket (hash_name (id_uid i)) (rb_dlinkDelete p) (uid_table b)) ∧
  user_list w' = (if decide (id_kind i = KUser) then (rb_dlinkMoveNode p (user_list b) (exited_list b)).1 else user_list b) ∧
  server_list w' = (if decide (id_kind i = KUser) then server_list b
    else (rb_dlinkMoveNode p (server_list b) (exited_list b)).1) ∧
  exited_list w' = (rb_dlinkMoveNode p (list_of_kind (id_kind i) b) (exited_list b)).2 ∧
  service_list w' = service_list b.
Proof.
  intros -> Hn Hf ->. pose proof (is_empty_Some (cl_uid c)) as He. cbn [ident_of id_name id_uid id_kind] in *.
  assert ((if decide (cl_uid c = ""%string) then true else false) = is_empty (Some (cl_uid c))) as Hd.
  { case_decide as E; [by rewrite E|]. destruct (is_empty _); [|done]. by destruct E; apply He. }
  destruct Hf as [E1 E2 E3 E4 E5 E6]. rewrite <- E1, <- E2, <- E3, <- E4, <- E5, <- E6.
  assert (list_of_kind (kind_of c) b = list_of_kind (kind_of c) w) as -> by (destruct (kind_of c); simpl; congruence).
  unfold depart, unfile_client. rewrite <- Hd.
  unfold unplace, unlist. destruct (rb_dlinkMoveNode p (list_of_kind (kind_of c) w) (exited_list w)) as [l ex] eqn:E.
  destruct (kind_of c) eqn:Ek; simpl in E; rewrite ?E; destruct (cl_uplink c), (decide (cl_uid c = ""%string)); simpl; rewrite ?E; done.
Qed.
End departure.

Section departed.
Context `{SYS : Sys} `{RB : !RbSpec} `{HK : !HooksOk}.

Lemma settled_fields p i es b w b' w' :
  user_regs b' = user_regs b → conf_opers b' = conf_opers b → oper_list b' = oper_list b →
  client_oper_list b' = client_oper_list b →
  user_regs w' = user_regs w → conf_opers w' = conf_opers w → oper_list w' = oper_list w →
  client_oper_list w' = client_oper_list w →
  settled p i es b w → settled p i es b' w'.
Proof. intros E1 E2 E3 E4 F1 F2 F3 F4 []. by split; rewrite ?E1, ?E2, ?E3, ?E4, ?F1, ?F2, ?F3, ?F4. Qed.

Lemma depart_kind c i : ident_of c = off_net i → kind_of c = id_kind i ∧ cl_uplink c = id_uplink i.
Proof. by intros [= _ _ <- _ <- _ _ _ _ _]. Qed.

(** The uplink of a client on its way out is still a server. *)
Lemma departing_uplink D b w p i q :
  net_inv b → leaver b p i → patch D (ids w) = alter off_net p (ids b) → id_uplink i = Some q →
  ∃ j, ids w !! q = Some j ∧ id_kind j = KServer.
Proof.
  intros Hb Hl Hp Hq.
  destruct (tree_uplink _ (ni_tree _ Hb) p i q (lv_ident _ _ _ Hl) (lv_net _ _ _ Hl) Hq) as (j & Ej & Hj & _).
  assert (∃ j', patch D (ids w) !! q = Some j' ∧ id_kind j' = KServer) as (j' & Ej' & Hj').
  { rewrite Hp, lookup_alter. case_decide; subst; rewrite Ej; (eexists; split; [reflexivity|simpl; exact Hj]). }
  rewrite lookup_patch in Ej'. apply fmap_Some in Ej' as (j0 & Ej0 & ->). exists j0. split; [done|]. by case_decide.
Qed.

(** The last steps of an exit take the client out of the invariant. *)
Lemma departed_ids D b w p c i :
  net_inv b → leaver b p i → ident_of c = off_net i → patch D (ids w) = alter off_net p (ids b) →
  ids (depart p c w) = upd_uplink (id_kind i) (rb_dlinkDelete p) (id_uplink i) (ids w).
Proof.
  intros Hb Hl Hc Hp. destruct (depart_kind c i Hc) as [Ek Eu]. rewrite <- Ek, <- Eu. apply depart_ids.
  - rewrite Ek. apply Hl.
  - intros q Hq. rewrite Eu in Hq. by eapply departing_uplink.
Qed.

Lemma departed_inv D b w p c i es :
  net_inv b → leaver b p i → p ∉ D → zombies D w → ident_of c = off_net i →
  patch D (ids w) = alter off_net p (ids b) → same_files b w → settled p i es b w → chan_inv w →
  (∀ m mb, members w !! m = Some mb → mb_client_p mb ≠ p ∧ filed_kind (ids b) KUser true (mb_client_p mb)) →
  inv_but D (depart p c w).
Proof.
  intros Hb Hl Hp HD Hc Hpatch Hf Hs Hch Hmem.
  pose proof (departed_ids D b w p c i Hb Hl Hc Hpatch) as Ei.
  assert (zombies D (depart p c w)) as HD'.
  { apply zombies_ids. intros x Hx. rewrite zombies_ids in HD. destruct (HD x Hx) as (j & Ej & Hj).
    rewrite Ei, lookup_uplink, Ej. eexists. split; [reflexivity|]. case_decide; [|done].
    by rewrite (proj1 (proj2 (proj2 (upd_behind_rest _ _ j)))). }
  assert (no_nul (id_uid i) = true) as Hn by (apply (tab_ident _ (ni_tables _ Hb) p i), Hl).
  assert (retired p i b (revive D (depart p c w))) as Hr.
  { destruct (depart_retired p c (off_net i) b w (depart p c w)) as (R1 & R2 & R3 & R4 & R5 & R6); [done..|].
    split; [|done..]. rewrite ids_revive, Ei by done. rewrite patch_uplink, Hpatch.
    unfold upd_uplink. destruct (id_uplink i); [|done]. apply alter_uplink_comm. }
  assert (settled p i es b (revive D (depart p c w))) as Hs'.
  { destruct (depart_rest p c w) as (? & ? & ? & ? & _). by eapply settled_fields. }
  split; [|done]. split.
  - eapply chan_inv_places; [|apply revive_places]. eapply chan_inv_places; [exact Hch|apply depart_places].
  - eapply tables_retired; [apply Hb|done..].
  - eapply tree_retired; [apply Hb|done..].
  - eapply accounts_retired; [apply Hb|apply Hb|done..].
  - intros m mb Em. destruct (Hmem m mb) as [Hne Hal]; [by rewrite <- (depart_members p c w)|].
    apply (retired_with_net b _ p i _ _ Hl Hr (barely_kind KUser true)); [by intros j []|done].
Qed.
End departed.

(** ** The exit of a user *)
Section user_run.
Context `{SYS : Sys} `{RB : !RbSpec} `{HK : !HooksOk}.

Definition live (w : world) (p : ptr) : Prop := ∃ i, ids w !! p = Some i ∧ id_net i = true.

(** What an exit does to the others: a server on its way out only loses the client
    from its list, and nobody comes to be on the network. *)
Record departed (D : gset ptr) (p : ptr) (i : ident) (w w' : world) : Prop := Departed {
  dp_zombies q : q ∈ D → ids w' !! q =
    (if decide (id_uplink i = Some q) then upd_behind (id_kind i) (rb_dlinkDelete p) else fun i => i) <$> ids w !! q;
  dp_old q j' : ids w' !! q = Some j' →
    ∃ j, ids w !! q = Some j ∧ id_kind j' = id_kind j ∧ id_uplink j' = id_uplink j ∧ (id_net j' = true → id_net j = true);
  dp_gone : ¬ live w' p;
  dp_user : id_kind i = KUser →
    ids w' = upd_uplink KUser (rb_dlinkDelete p) (id_uplink i) (alter off_net p (ids w)) ∧ without p w w';
  dp_lists : mode_lists w' = mode_lists w;
  dp_hooks : hooks w' = hooks w
}.

(** What the invariant says of a user about to exit. *)
Lemma user_ready D w p c :
  inv_but D w → p ∉ D → clients w !! p = Some c → kind_of c = KUser → on_net c = true →
  leaver (revive D w) p (ident_of c) ∧
  ∃ u q cq, cl_user c = Some u ∧ cl_uplink c = Some q ∧ q ≠ p ∧ clients w !! q = Some cq ∧ kind_of cq = KServer ∧
    (∀ r, us_user_reg u = Some r → is_Some (user_regs w !! r)) ∧
    (∀ o, us_oper u = Some o → is_Some (conf_opers w !! o)).
Proof.
  intros [Hn HD] Hp Ec Hk Hnet. assert (ids (revive D w) !! p = Some (ident_of c)) as Ei.
  { rewrite ids_revive, lookup_patch by done. rewrite decide_False by done. by rewrite (ids_of _ _ _ Ec). }
  split.
  - split; [done|by left|done|]. intros k x (j & Ej & _ & Hj & Hup).
    apply (tree_uplink _ (ni_tree _ Hn) x j p Ej Hj) in Hup as (i & Ei' & Hki & _). simplify_eq. simpl in Hki. congruence.
  - destruct (kind_user_parts c Hk) as ([u Eu] & _ & _).
    destruct (tree_user _ (ni_tree _ Hn) p _ Ei Hnet Hk) as [q Eq]. simpl in Eq.
    destruct (tree_uplink _ (ni_tree _ Hn) p _ q Ei Hnet Eq) as (j & Ej & Hkj & _).
    rewrite ids_revive, lookup_patch in Ej by done. apply fmap_Some in Ej as (j0 & Ej0 & ->).
    assert (id_kind j0 = KServer) as Hkj0 by (by case_decide).
    apply ids_client in Ej0 as (cq & Ecq & <-). exists u, q, cq. split_and!; try done.
    + intros ->. rewrite Ec in Ecq. injection Ecq as <-. simpl in Hkj0. congruence.
    + intros r Er. apply (acc_reg _ (ni_accounts _ Hn) p _ r Ei Hnet). simpl. by rewrite Eu.
    + intros o Eo. apply (acc_block _ (ni_accounts _ Hn) p _ o Ei Hnet). simpl. by rewrite Eu.
Qed.

(** A user that is marked, off its account and out of its channels. *)
Record loose (p : ptr) (i : ident) (w w' : world) : Prop := Loose {
  lo_client : ∃ c, clients w' !! p = Some c ∧ ident_of c = off_net i;
  lo_ids : ids w' = alter off_net p (ids w);
  lo_files : same_files w w';
  lo_settled : ∃ es, settled p i es w w';
  lo_chan : chan_inv w';
  lo_members : without p w w';
  lo_lists : mode_lists w' = mode_lists w;
  lo_hooks : hooks w' = hooks w
}.

Lemma departed_alter D p i w w' :
  p ∉ D → ids w' = upd_uplink (id_kind i) (rb_dlinkDelete p) (id_uplink i) (alter off_net p (ids w)) →
  (id_kind i = KUser → without p w w') →
  mode_lists w' = mode_lists w → hooks w' = hooks w → departed D p i w w'.
Proof.
  intros Hp E Hm Hl Hh. split; [..|intros Hk; split; [rewrite <- Hk; exact E|by apply Hm]|done|done].
  - intros q Hq. rewrite E, lookup_uplink, lookup_alter. rewrite (decide_False (P := p = q)) by congruence. done.
  - intros q j'. rewrite E, lookup_uplink, lookup_alter. intros (j1 & Ej1 & ->)%fmap_Some.
    set (g := if decide (id_uplink i = Some q) then _ else _).
    assert (id_kind (g j1) = id_kind j1 ∧ id_uplink (g j1) = id_uplink j1 ∧ id_net (g j1) = id_net j1) as (-> & -> & ->).
    { unfold g. destruct (decide (id_uplink i = Some q)); [|done]. destruct (upd_behind_rest (id_kind i) (rb_dlinkDelete p) j1) as (_ & _ & ? & ? & ? & _). done. }
    clear g. destruct (decide (p = q)) as [<-|]; [|by exists j1].
    apply fmap_Some in Ej1 as (j0 & Ej0 & ->). by exists j0.
  - intros (j & Ej & Hn). rewrite E, lookup_uplink, lookup_alter in Ej. rewrite (decide_True (P := p = p)) in Ej by done.
    apply fmap_Some in Ej as (j1 & Ej1 & ->). apply fmap_Some in Ej1 as (j0 & Ej0 & ->).
    case_decide; [|done]. by rewrite (proj1 (proj2 (proj2 (proj2 (upd_behind_rest _ _ (off_net j0)))))) in Hn.
Qed.

Lemma patch_off D p tbl : p ∉ D → patch D (alter off_net p tbl) = alter off_net p (patch D tbl).
Proof.
  intros Hp. apply map_eq. intros x. rewrite lookup_patch, !lookup_alter, !lookup_patch.
  destruct (decide (p = x)) as [<-|_]; [|done]. rewrite (decide_False (P := p ∈ D)) by done. by destruct (tbl !! p).
Qed.

(** The end of [exit_user], and the removal from the tables. *)
Lemma wp_user_tail D w p i w4 (Q : unit → world → Prop) :
  inv_but D w → p ∉ D → leaver (revive D w) p i → id_kind i = KUser → loose p i w w4 →
  (∀ w', inv_but D w' → departed D p i w w' → Q tt w') →
  wp (_ ← modify (fun w =>
        let '(users, exited) := rb_dlinkMoveNode p (user_list w) (exited_list w) in
        w <| user_list := users |> <| exited_list := exited |>);
      up ← uplink_of p;
      upd_server up (fun s => s <| sv_users ::= rb_dlinkDelete p |>))
     (fun _ w' => wp (del_client p) Q w') w4.
Proof.
  intros Hinv Hp Hl Hk [(c & Ec & Hi) Ei Hf [es Hs] Hch Hm Hml Hh] HQ.
  destruct (depart_kind c i Hi) as [Ek Eu]. rewrite Hk in Ek.
  destruct (tree_user _ (ni_tree _ (proj1 Hinv)) p i (lv_ident _ _ _ Hl) (lv_net _ _ _ Hl) Hk) as [q Eq].
  assert (ids (revive D w) = patch D (ids w)) as Eb by (apply ids_revive, Hinv).
  assert (zombies D w4) as HD4.
  { apply zombies_ids. rewrite Ei. intros x Hx. rewrite lookup_alter, decide_False by congruence.
    by apply (proj1 (zombies_ids D w)); [apply Hinv|]. }
  assert (patch D (ids w4) = alter off_net p (ids (revive D w))) as Hpatch by (by rewrite Ei, Eb, patch_off).
  destruct (departing_uplink D _ w4 p i q (proj1 Hinv) Hl Hpatch Eq) as (j & (cq & Ecq & <-)%ids_client & Hj).
  destruct (kind_server_parts cq Hj) as ([s Es] & _).
  apply wp_bind, wp_modify. set (w5 := (let '(users, exited) := _ in _)).
  assert (w5 = unlist KUser p w4) as E5 by done. rewrite E5. clear w5 E5.
  apply wp_bind. unfold uplink_of. apply wp_bind. eapply wp_rd; [by rewrite unlist_clients|].
  eapply wp_need; [by rewrite Eu|]. eapply wp_upd_server; [by rewrite unlist_clients|exact Es|].
  eapply (wp_del_client _ _ (if decide (q = p) then upd_server_behind KUser (rb_dlinkDelete p) c else c)).
  { simpl. rewrite unlist_clients. apply lookup_alter_iff. exists c. split; [done|]. by case_decide. }
  replace (unfile_client _ _ _) with (depart p c w4).
  2: { unfold depart, unplace. rewrite Ek, Eu, Eq. by case_decide. }
  apply HQ.
  - eapply (departed_inv D (revive D w) _ _ _ _ es); try done; [apply Hinv|by destruct Hf|by apply (settled_fields _ _ _ w w4)|].
    intros m mb [Em Hne]%Hm. split; [done|]. by apply (ni_alive _ (proj1 Hinv) m).
  - destruct (depart_rest p c w4) as (_ & _ & _ & _ & F1 & F2). apply departed_alter; [done| |intros _ m mb; rewrite depart_members; apply Hm|congruence..].
    rewrite <- Ei. by apply (departed_ids D (revive D w)); [apply Hinv|..].
Qed.
End user_run.

Section user_exit.
Context `{SYS : Sys} `{RB : !RbSpec} `{HK : !HooksOk}.

Lemma loose_from w w2 w3 w4 p c u es :
  clients w !! p = Some c → cl_user c = Some u → cl_service c = None →
  same_net (w <| clients ::= alter dead p |>) w2 → same_but_accounts w2 w3 → closed p u es w2 w3 →
  chan_inv w4 → same_index w3 w4 → same_rest w3 w4 → without p w3 w4 → loose p (ident_of c) w w4.
Proof.
  intros Ec Eu Esv Hs2 Hs3 Hcl Hc4 Hi4 Hr4 Hm4.
  assert (ids w4 = alter off_net p (ids w)) as Ei4.
  { rewrite (si_ids _ _ Hi4). unfold ids. rewrite (sa_clients _ _ Hs3), (sn_clients _ _ Hs2). apply ids_alter_ident.
    intros c' Ec'. rewrite Ec in Ec'. injection Ec' as <-. by apply ident_dead. }
  split; [|done| |exists es|done| |..].
  - apply ids_client. rewrite Ei4. apply lookup_alter_iff. exists (ident_of c). split; [by apply ids_of|].
    by rewrite decide_True.
  - destruct Hi4, Hs3, Hs2. split; etrans; try eassumption; etrans; eassumption.
  - assert (settled p (ident_of c) es w2 w3) as Hs by (by eapply closed_settled).
    destruct Hi4, Hs2. by eapply settled_fields.
  - intros m mb. rewrite (Hm4 m mb), (sa_members _ _ Hs3), (sn_members _ _ Hs2). done.
  - rewrite (sr_lists _ _ Hr4), (sa_lists _ _ Hs3), (same_net_lists _ _ Hs2). done.
  - rewrite (sr_hooks _ _ Hr4), (sa_hooks _ _ Hs3), (sn_hooks _ _ Hs2). done.
Qed.

Lemma chan_inv_closed w w2 w3 p :
  chan_inv w → same_net (w <| clients ::= alter dead p |>) w2 → same_but_accounts w2 w3 → chan_inv w3.
Proof.
  intros Hc Hs2 Hs3. apply (chan_inv_places (w <| clients ::= alter dead p |>)).
  - eapply chan_inv_places; [exact Hc|by apply places_alter].
  - destruct Hs2, Hs3. split; try congruence.
    + intros x cx E. exists cx. split; [congruence|done].
    + intros x cx E. left. exists cx. split; [congruence|done].
Qed.

Lemma wp_exit_user D w p c split (Q : unit → world → Prop) :
  inv_but D w → p ∉ D → clients w !! p = Some c → kind_of c = KUser → on_net c = true →
  (∀ w', inv_but D w' → departed D p (ident_of c) w w' → Q tt w') →
  wp (_ ← exit_user p split; del_client p) Q w.
Proof.
  intros Hinv Hp Ec Hk Hnet HQ.
  destruct (user_ready D w p c Hinv Hp Ec Hk Hnet) as (Hl & u & q & cq & Eu & Eup & Hqp & Ecq & Hsq & Hreg & Hop).
  pose proof (proj2 (proj2 (kind_user_parts c Hk))) as Esv.
  pose proof Hnet as Hflag. rewrite on_net_flag in Hflag by done. apply negb_true_iff in Hflag.
  apply wp_bind. unfold exit_user. apply wp_bind. unfold IsDead. apply wp_bind. eapply wp_rd; [exact Ec|]. apply wp_ret.
  rewrite Hflag. apply wp_bind. unfold SetDead. eapply wp_upd_client; [exact Ec|]. fold dead.
  apply wp_bind. eapply wp_quiet; [apply quiet_hook1; right; by left|]. intros [] w2 Hs2.
  assert (clients w2 = alter dead p (clients w)) as Ecl2 by (by rewrite (sn_clients _ _ Hs2)).
  assert (clients w2 !! p = Some (dead c)) as Ec2.
  { rewrite Ecl2. apply lookup_alter_iff. exists c. by rewrite decide_True. }
  apply wp_bind, wp_gets. apply wp_bind. eapply wp_user_of; [exact Ec2|exact Eu|].
  eapply (wp_close_account w2 p (dead c) u split (config_file w2)); [exact Ec2|exact Eu| | | |].
  { exists q, cq. split; [exact Eup|]. rewrite Ecl2. apply lookup_alter_iff. exists cq. by rewrite decide_False. }
  { intros r Er. rewrite (sn_user_regs _ _ Hs2). by apply Hreg. }
  { intros o Eo. rewrite (sn_conf_opers _ _ Hs2). by apply Hop. }
  intros w3 es Hs3 Hclosed.
  assert (clients w3 !! p = Some (dead c)) as Ec3 by (by rewrite (sa_clients _ _ Hs3)).
  apply wp_bind. eapply wp_part_all_chan; [|exact Ec3|exact Eu|].
  { eapply chan_inv_closed; [by eapply inv_but_chan|done..]. }
  intros w4 Hc4 Hi4 Hr4 _ Hm4. eapply wp_user_tail; [exact Hinv|exact Hp|exact Hl|exact Hk| |exact HQ].
  by eapply loose_from.
Qed.
End user_exit.

(** ** The exit of a server *)
Section server_exit.
Context `{SYS : Sys} `{RB : !RbSpec} `{HK : !HooksOk}.

Definition live_set (w : world) : gset ptr := dom (filter (fun pi => id_net pi.2 = true) (ids w)).

Lemma elem_of_live w p : p ∈ live_set w ↔ live w p.
Proof.
  unfold live_set, live. rewrite elem_of_dom. unfold is_Some. setoid_rewrite map_lookup_filter_Some. done.
Qed.

Lemma departed_live D p i w w' q : departed D p i w w' → live w' q → live w q.
Proof. intros Hd (j & Ej & Hn). destruct (dp_old _ _ _ _ _ Hd q j Ej) as (j0 & Ej0 & _ & _ & H). exists j0. split_and!; auto. Qed.

Lemma fewer_live w w' : (∀ q, live w' q → live w q) → (size (live_set w') ≤ size (live_set w))%nat.
Proof. intros H. apply subseteq_size. intros q. rewrite !elem_of_live. apply H. Qed.

Lemma less_live w w' p : live w p → ¬ live w' p → (∀ q, live w' q → live w q) → (size (live_set w') < size (live_set w))%nat.
Proof.
  intros Hp Hp' H. apply subset_size. split; [intros q; rewrite !elem_of_live; apply H|].
  intros Hs. apply Hp', elem_of_live, Hs. by apply elem_of_live.
Qed.

(** Depths, the zombies counted as on the network. *)
Definition deep (D : gset ptr) (depth : ptr → nat) (w : world) : Prop := ∀ a i b,
  patch D (ids w) !! a = Some i → id_net i = true → id_uplink i = Some b → (depth b < depth a)%nat.

Lemma deep_departed D D' depth p i w w' : D' ⊆ D → departed D p i w w' → deep D depth w → deep D' depth w'.
Proof.
  intros HD Hd Hw a j' b. rewrite lookup_patch. intros (j & Ej & ->)%fmap_Some Hn Hup.
  destruct (dp_old _ _ _ _ _ Hd a j Ej) as (j0 & Ej0 & _ & Eu & Hnet).
  apply (Hw a ((if decide (a ∈ D) then on_again else fun i => i) j0)).
  - by rewrite lookup_patch, Ej0.
  - destruct (decide (a ∈ D)); [done|]. rewrite decide_False in Hn by set_solver. auto.
  - revert Hup. case_decide as E1; case_decide as E2; simpl; congruence.
Qed.

(** The server is marked. *)
Lemma mark_server D w p c :
  inv_but D w → p ∉ D → clients w !! p = Some c → kind_of c = KServer → on_net c = true →
  patch ({[p]} ∪ D) (alter off_net p (ids w)) = patch D (ids w).
Proof.
  intros Hinv Hp Ec Hk Hn. apply map_eq. intros x. rewrite !lookup_patch, lookup_alter.
  destruct (decide (p = x)) as [<-|Hx].
  - rewrite decide_True, decide_False by set_solver. rewrite (ids_of _ _ _ Ec). simpl. f_equal.
    unfold ident_of. simpl. unfold on_again, off_net. simpl. by rewrite Hn.
  - destruct (decide (x ∈ D)); [rewrite decide_True by set_solver|rewrite decide_False by set_solver]; done.
Qed.

Lemma inv_but_mark D w p c w2 :
  inv_but D w → p ∉ D → clients w !! p = Some c → kind_of c = KServer → on_net c = true →
  same_net (w <| clients ::= alter dead p |>) w2 →
  inv_but ({[p]} ∪ D) w2 ∧ ids w2 = alter off_net p (ids w).
Proof.
  intros Hinv Hp Ec Hk Hn Hs.
  assert (ids w2 = alter off_net p (ids w)) as Ei.
  { rewrite (si_ids _ _ (same_net_index _ _ Hs)). unfold ids. simpl. apply ids_alter_ident.
    intros c' Ec'. rewrite Ec in Ec'. injection Ec' as <-. apply ident_dead. by apply kind_server_parts. }
  assert (zombies ({[p]} ∪ D) w2) as HD.
  { apply zombies_ids. rewrite Ei. intros x Hx. rewrite lookup_alter. destruct (decide (p = x)) as [<-|Hpx].
    - rewrite (ids_of _ _ _ Ec). eexists. split; [reflexivity|]. exact Hk.
    - apply (proj1 (zombies_ids D w)); [apply Hinv|set_solver]. }
  split; [|done]. split; [|done].
  apply (net_inv_index (revive D w)); [| |apply members_from_eq, (sn_members _ _ Hs)|apply Hinv].
  - eapply chan_inv_places; [|apply revive_places].
    eapply chan_inv_same; [exact Hs|]. eapply chan_inv_places; [by eapply inv_but_chan|by apply places_alter].
  - assert (ids (revive ({[p]} ∪ D) w2) = ids (revive D w)) as Er.
    { rewrite !ids_revive by (done || apply Hinv). rewrite Ei. by eapply mark_server. }
    destruct (same_net_index _ _ Hs). split; [exact Er|..]; done.
Qed.
End server_exit.

Section server_loops.
Context `{SYS : Sys} `{RB : !RbSpec} `{HK : !HooksOk}.

(** The users or servers of an identity. *)
Definition list_behind (k : kind) (i : ident) : list ptr :=
  match k with KUser => id_users i | _ => id_servers i end.

Lemma zombie_kind D w p i : zombies D w → p ∈ D → ids w !! p = Some i → id_kind i = KServer.
Proof. intros HD Hp E. destruct (proj1 (zombies_ids D w) HD p Hp) as (j & Ej & ?). congruence. Qed.

(** Who is in a list of a server on its way out. *)
Lemma child_ready D w p ip depth k x :
  inv_but D w → deep D depth w → p ∈ D → (∀ z, z ∈ D → (depth z ≤ depth p)%nat) →
  ids w !! p = Some ip → k = KUser ∨ k = KServer → x ∈ list_behind k ip →
  x ∉ D ∧ (∀ z, z ∈ D → (depth z < depth x)%nat) ∧
  ∃ j, ids w !! x = Some j ∧ id_net j = true ∧ id_kind j = k ∧ id_uplink j = Some p.
Proof.
  intros [Hn HD] Hd Hp Hz Ep Hk Hx. pose proof (ids_revive D w HD) as Ei.
  assert (ids (revive D w) !! p = Some (on_again ip)) as Ep'.
  { by rewrite Ei, lookup_patch, decide_True, Ep. }
  assert (id_kind ip = KServer) as Hkp.
  { by eapply zombie_kind. }
  assert (behind (ids (revive D w)) k p x) as (j & Ej & Hkj & Hnj & Huj).
  { destruct Hk as [-> | ->]; simpl in Hx.
    - by apply (tree_users _ (ni_tree _ Hn) p (on_again ip) Ep').
    - by apply (tree_servers _ (ni_tree _ Hn) p (on_again ip) Ep'). }
  rewrite Ei in Ej. pose proof (Hd x j p Ej Hnj Huj) as Hlt.
  assert (x ∉ D) as HxD by (intros HxD; specialize (Hz x HxD); lia).
  split; [done|]. split; [intros z Hz'; specialize (Hz z Hz'); lia|].
  rewrite lookup_patch, decide_False in Ej by done. apply fmap_Some in Ej as (j0 & Ej0 & ->). by exists j0.
Qed.

(** A list of a server holds nobody twice. *)
Lemma list_behind_nodup D w p ip k :
  inv_but D w → p ∈ D → ids w !! p = Some ip → k = KUser ∨ k = KServer → NoDup (list_behind k ip).
Proof.
  intros [Hn HD] Hp Ep Hk. pose proof (ids_revive D w HD) as Ei.
  assert (ids (revive D w) !! p = Some (on_again ip)) as Ep'.
  { by rewrite Ei, lookup_patch, decide_True, Ep. }
  assert (id_kind ip = KServer) as Hkp.
  { by eapply zombie_kind. }
  destruct Hk as [-> | ->].
  - by apply (tree_users _ (ni_tree _ Hn) p (on_again ip) Ep').
  - by apply (tree_servers _ (ni_tree _ Hn) p (on_again ip) Ep').
Qed.

(** A server with [us] and [ss] left of its users and servers. *)
Record draining (D : gset ptr) (depth : ptr → nat) (p : ptr) (i : ident) (w : world) (us ss : list ptr)
    (w' : world) : Prop := Draining {
  dr_inv : inv_but ({[p]} ∪ D) w';
  dr_deep : deep ({[p]} ∪ D) depth w';
  dr_old q j' : ids w' !! q = Some j' →
    ∃ j, ids w !! q = Some j ∧ id_kind j' = id_kind j ∧ id_uplink j' = id_uplink j ∧ (id_net j' = true → id_net j = true);
  dr_others q : q ∈ D → ids w' !! q = ids w !! q;
  dr_self : ids w' !! p = Some (off_net i <| id_users := us |> <| id_servers := ss |>);
  dr_lists : mode_lists w' = mode_lists w;
  dr_hooks : hooks w' = hooks w
}.

Lemma draining_same D depth p i w us ss w' w'' :
  draining D depth p i w us ss w' → same_net w' w'' → draining D depth p i w us ss w''.
Proof.
  intros [H1 H2 H3 H4 H5 H6 H7] Hs. pose proof (si_ids _ _ (same_net_index _ _ Hs)) as Ei. split; rewrite ?Ei; try done.
  - destruct H1 as [Hn HD]. assert (zombies ({[p]} ∪ D) w'') as HD' by (apply zombies_ids; rewrite Ei; by apply zombies_ids).
    split; [|done]. apply (net_inv_index (revive ({[p]} ∪ D) w')); [| |apply members_from_eq, (sn_members _ _ Hs)|done].
    + eapply chan_inv_places; [|apply revive_places]. eapply chan_inv_same; [exact Hs|].
      eapply chan_inv_places; [apply Hn|apply places_revive].
    + assert (ids (revive ({[p]} ∪ D) w'') = ids (revive ({[p]} ∪ D) w')) as Er by (by rewrite !ids_revive, Ei).
      destruct (same_net_index _ _ Hs). split; [exact Er|..]; done.
  - unfold deep. by rewrite Ei.
  - by rewrite (same_net_lists _ _ Hs).
  - by rewrite (sn_hooks _ _ Hs).
Qed.

(** One of the list exits. *)
Lemma draining_departed D depth p i w us ss w' x j w'' us' ss' :
  p ∉ D → draining D depth p i w us ss w' → inv_but ({[p]} ∪ D) w'' → departed ({[p]} ∪ D) x j w' w'' →
  id_uplink j = Some p →
  (id_kind j = KUser ∧ us = x :: us' ∧ ss' = ss ∨ id_kind j = KServer ∧ ss = x :: ss' ∧ us' = us) →
  draining D depth p i w us' ss' w''.
Proof.
  intros Hp [H1 H2 H3 H4 H5 H6 H7] Hinv Hd Hup Hk. split.
  - done.
  - by eapply deep_departed.
  - intros q j' E. destruct (dp_old _ _ _ _ _ Hd q j' E) as (j1 & E1 & -> & -> & Hn1).
    destruct (H3 q j1 E1) as (j0 & E0 & -> & -> & Hn0). exists j0. split_and!; auto.
  - intros q Hq. rewrite (dp_zombies _ _ _ _ _ Hd) by set_solver. rewrite decide_False by congruence.
    rewrite option_fmap_id. by apply H4.
  - rewrite (dp_zombies _ _ _ _ _ Hd) by set_solver. rewrite decide_True by done. rewrite H5. simpl. f_equal.
    destruct Hk as [(-> & -> & ->)|(-> & -> & ->)]; simpl; rewrite rb_dlinkDelete_spec by (by left); simpl;
      by rewrite decide_True.
  - by rewrite (dp_lists _ _ _ _ _ Hd).
  - by rewrite (dp_hooks _ _ _ _ _ Hd).
Qed.
End server_loops.

Section exit_run.
Context `{SYS : Sys} `{RB : !RbSpec} `{HK : !HooksOk}.

(** A client exits, with all that is behind it. *)
Definition exits_ok (fuel : nat) : Prop := ∀ D depth w p i split (Q : unit → world → Prop),
  inv_but D w → deep D depth w → p ∉ D → (∀ z, z ∈ D → (depth z < depth p)%nat) →
  ids w !! p = Some i → id_net i = true → id_kind i = KUser ∨ id_kind i = KServer →
  (size (live_set w) ≤ fuel)%nat →
  (∀ w', inv_but D w' → departed D p i w w' → Q tt w') →
  wp (exit_from fuel p split) Q w.

Lemma draining_lists D depth p i w us ss w' :
  draining D depth p i w us ss w' → server_users_of p w' = us ∧ server_servers_of p w' = ss.
Proof.
  intros [_ _ _ _ H _ _]. apply ids_client in H as (c & Ec & Hc). injection Hc as _ _ _ _ _ Eu Es _ _ _.
  unfold server_users_of, server_servers_of. rewrite Ec. simpl. unfold users_behind, servers_behind in *.
  by destruct (cl_server c).
Qed.

Lemma draining_fuel D depth p i w us ss w' :
  draining D depth p i w us ss w' → (size (live_set w') ≤ size (live_set w))%nat.
Proof.
  intros H. apply fewer_live. intros q (j' & E & Hn). destruct (dr_old _ _ _ _ _ _ _ _ H q j' E) as (j & Ej & _ & _ & Hj).
  exists j. auto.
Qed.

(** The exit of the first of a list. *)
Lemma wp_child fuel D depth p i w us ss w' x k split :
  exits_ok fuel → p ∉ D → (∀ z, z ∈ D → (depth z < depth p)%nat) → (size (live_set w) ≤ fuel)%nat →
  draining D depth p i w us ss w' → k = KUser ∨ k = KServer →
  head (match k with KUser => us | _ => ss end) = Some x →
  wp (exit_from fuel x split) (fun _ w'' =>
    match k with KUser => draining D depth p i w (drop 1 us) ss w'' | _ => draining D depth p i w us (drop 1 ss) w'' end) w'.
Proof.
  intros Hex Hp Hz Hf Hdr Hk Hx.
  destruct (child_ready ({[p]} ∪ D) w' p (off_net i <| id_users := us |> <| id_servers := ss |>) depth k x (dr_inv _ _ _ _ _ _ _ _ Hdr) (dr_deep _ _ _ _ _ _ _ _ Hdr))
    as (HxD & Hzx & j & Ej & Hnj & Hkj & Huj); [set_solver| |apply Hdr|done| |].
  { intros z [->%elem_of_singleton|Hin]%elem_of_union; [done|]. specialize (Hz z Hin). lia. }
  { apply head_Some_elem_of in Hx. by destruct Hk as [-> | ->]. }
  eapply (Hex ({[p]} ∪ D) depth w' x j); try done; [apply Hdr|apply Hdr|by rewrite Hkj| |].
  { etrans; [by eapply draining_fuel|done]. }
  intros w'' Hinv Hd. apply head_Some in Hx as [l El].
  destruct Hk as [-> | ->]; rewrite El; eapply draining_departed; eauto.
Qed.

Lemma wp_server_users fuel D depth p i w us ss w' split (Q : unit → world → Prop) :
  exits_ok fuel → p ∉ D → (∀ z, z ∈ D → (depth z < depth p)%nat) → (size (live_set w) ≤ fuel)%nat →
  draining D depth p i w us ss w' → (∀ w'', draining D depth p i w [] ss w'' → Q tt w'') →
  wp (foreach_safe (server_users_of p) (fun x =>
        _ ← hook HOOK_CLIENT_EXIT_SPLIT (HookPtr x); exit_from fuel x split)) Q w'.
Proof.
  intros Hex Hp Hz Hf Hdr HQ. apply (wp_foreach_safe_drain _ _ (fun l w' => draining D depth p i w l ss w')).
  - rewrite (proj1 (draining_lists _ _ _ _ _ _ _ _ Hdr)).
    change (NoDup (list_behind KUser (off_net i <| id_users := us |> <| id_servers := ss |>))).
    apply (list_behind_nodup ({[p]} ∪ D) w' p); [apply Hdr|set_solver|apply Hdr|by left].
  - by rewrite (proj1 (draining_lists _ _ _ _ _ _ _ _ Hdr)).
  - intros x l w1 _ _ H1. apply wp_bind. eapply wp_quiet; [apply quiet_hook1; unfold mid_change; tauto|].
    intros [] w2 Hs. eapply wp_conseq.
    { eapply (wp_child _ _ _ _ _ _ (x :: l) _ _ _ KUser); try done; [by eapply draining_same|by left]. }
    cbn beta iota. intros _ w3 H3. split; [|done]. apply (draining_lists _ _ _ _ _ _ _ _ H3).
  - intros w1 _ H1. by apply HQ.
Qed.

Lemma wp_server_servers fuel D depth p i w ss w' split (Q : unit → world → Prop) :
  exits_ok fuel → p ∉ D → (∀ z, z ∈ D → (depth z < depth p)%nat) → (size (live_set w) ≤ fuel)%nat →
  draining D depth p i w [] ss w' → (∀ w'', draining D depth p i w [] [] w'' → Q tt w'') →
  wp (foreach_safe (server_servers_of p) (fun x => exit_from fuel x split)) Q w'.
Proof.
  intros Hex Hp Hz Hf Hdr HQ. apply (wp_foreach_safe_drain _ _ (fun l w' => draining D depth p i w [] l w')).
  - rewrite (proj2 (draining_lists _ _ _ _ _ _ _ _ Hdr)).
    change (NoDup (list_behind KServer (off_net i <| id_users := [] |> <| id_servers := ss |>))).
    apply (list_behind_nodup ({[p]} ∪ D) w' p); [apply Hdr|set_solver|apply Hdr|by right].
  - by rewrite (proj2 (draining_lists _ _ _ _ _ _ _ _ Hdr)).
  - intros x l w1 _ _ H1. eapply wp_conseq.
    { eapply (wp_child _ _ _ _ _ _ _ (x :: l) _ _ KServer); try done. by right. }
    cbn beta iota. intros _ w3 H3. split; [|done]. apply (draining_lists _ _ _ _ _ _ _ _ H3).
  - intros w1 _ H1. by apply HQ.
Qed.
End exit_run.

Section server_tail.
Context `{SYS : Sys} `{RB : !RbSpec} `{HK : !HooksOk}.

Lemma off_net_id i : id_net i = false → off_net i = i.
Proof. intros E. destruct i. simpl in E. by subst. Qed.
Lemma off_on_net i : id_net i = false → off_net (on_again i) = i.
Proof. intros E. destruct i. simpl in E. by subst. Qed.

(** A server with nobody behind it, as the invariant sees it. *)
Lemma server_leaver D w p i :
  inv_but D w → p ∈ D → ids w !! p = Some i → id_users i = [] → id_servers i = [] →
  leaver (revive D w) p (on_again i).
Proof.
  intros [Hn HD] Hp E Hus Hss. pose proof (ids_revive D w HD) as Ei.
  assert (ids (revive D w) !! p = Some (on_again i)) as Ep by (by rewrite Ei, lookup_patch, decide_True, E).
  pose proof (zombie_kind D w p i HD Hp E) as Hk. split; [done|by right|done|].
  intros k x Hb. pose proof Hb as (j & Ej & Hkj & Hnj & Huj). destruct k.
  - apply (tree_users _ (ni_tree _ Hn) p _ Ep) in Hb; [|done..]. simpl in Hb. rewrite Hus in Hb. by apply elem_of_nil in Hb.
  - apply (tree_servers _ (ni_tree _ Hn) p _ Ep) in Hb; [|done..]. simpl in Hb. rewrite Hss in Hb. by apply elem_of_nil in Hb.
  - apply (tree_service _ (ni_tree _ Hn) x j Ej) in Hkj. congruence.
  - by apply (tab_ident _ (ni_tables _ Hn) x j Ej) in Hkj.
Qed.

Lemma patch_less D p i (tbl : gmap ptr ident) :
  p ∉ D → tbl !! p = Some i → id_net i = false →
  patch D tbl = alter off_net p (patch ({[p]} ∪ D) tbl).
Proof.
  intros Hp E Hn. apply map_eq. intros x. rewrite lookup_alter, !lookup_patch.
  destruct (decide (p = x)) as [<-|Hx].
  - rewrite (decide_False (P := p ∈ D)) by done. rewrite decide_True by set_solver. rewrite E. simpl. f_equal.
    by rewrite off_on_net.
  - destruct (decide (x ∈ D)); [rewrite (decide_True (P := x ∈ _ ∪ _)) by set_solver|
      rewrite (decide_False (P := x ∈ _ ∪ _)) by set_solver]; done.
Qed.

Lemma settled_none p i w b :
  id_oper i = None → user_regs b = user_regs w → conf_opers b = conf_opers w → oper_list b = oper_list w →
  client_oper_list b = client_oper_list w → settled p i [] b w.
Proof.
  intros Eo E1 E2 E3 E4. assert (∀ o, refs i [] o = 0) as Hr by (intros; unfold refs; by rewrite Eo).
  split; rewrite ?E1, ?E2, ?E3, ?E4.
  - done.
  - rewrite decide_False; [done|]. rewrite Eo. by intros [? ?].
  - done.
  - by intros e ?%elem_of_nil.
  - intros o b' E. rewrite Hr. exists b'. split; [done|lia].
  - intros o b0 E. left. by exists b0.
Qed.

(** The end of [exit_server], and the removal from the tables. *)
Lemma wp_server_tail D w p i (Q : unit → world → Prop) :
  inv_but ({[p]} ∪ D) w → p ∉ D → ids w !! p = Some i → id_net i = false →
  id_users i = [] → id_servers i = [] →
  (∀ w', inv_but D w' → departed D p i w w' → Q tt w') →
  wp (_ ← modify (fun w =>
        let '(servers, exited) := rb_dlinkMoveNode p (server_list w) (exited_list w) in
        w <| server_list := servers |> <| exited_list := exited |>);
      c ← rd clients p;
      match cl_uplink c with
      | Some up => upd_server up (fun s => s <| sv_servers ::= rb_dlinkDelete p |>)
      | None => mret tt
      end)
     (fun _ w' => wp (del_client p) Q w') w.
Proof.
  intros Hinv Hp E Hn Hus Hss HQ. set (D' := {[p]} ∪ D). pose proof (proj2 Hinv) as HD.
  assert (p ∈ D') as HpD by set_solver.
  pose proof (zombie_kind D' w p i HD HpD E) as Hk.
  pose proof (server_leaver D' w p i Hinv HpD E Hus Hss) as Hl.
  apply ids_client in E as (c & Ec & Hi). pose proof (ids_of _ _ _ Ec) as E. rewrite Hi in E.
  assert (ident_of c = off_net (on_again i)) as Hi'.
  { by rewrite Hi, off_on_net. }
  destruct (depart_kind c (on_again i) Hi') as [Ek Eu]. simpl in Ek, Eu. rewrite Hk in Ek.
  assert (patch D (ids w) = alter off_net p (ids (revive D' w))) as Hpatch.
  { rewrite ids_revive by done. by eapply patch_less. }
  apply wp_bind, wp_modify. set (w5 := (let '(servers, exited) := _ in _)).
  assert (w5 = unlist KServer p w) as E5 by done. rewrite E5. clear w5 E5.
  apply wp_bind. eapply wp_rd; [by rewrite unlist_clients|].
  assert (∀ w', w' = depart p c w → Q tt w') as HQ'.
  { intros w' ->. apply HQ.
    - eapply (departed_inv D (revive D' w) _ _ _ (on_again i) []); try done.
      + apply Hinv.
      + intros x Hx. apply HD. set_solver.
      + apply settled_none; try done. simpl. apply (f_equal id_oper) in Hi. rewrite <- Hi. simpl.
        by rewrite (proj1 (proj2 (kind_server_parts c Ek))).
      + eapply inv_but_chan; exact Hinv.
      + intros m mb Em. pose proof (ni_alive _ (proj1 Hinv) m mb Em) as Hal. split; [|exact Hal].
        intros Ep. rewrite Ep in Hal. destruct Hal as (j & Ej & Hkj & _).
        pose proof (lv_ident _ _ _ Hl) as El. unfold D' in El. rewrite El in Ej. injection Ej as <-. simpl in Hkj. congruence.
    - destruct (depart_rest p c w) as (_ & _ & _ & _ & F1 & F2). apply departed_alter; [done| |congruence|done..].
      replace (alter off_net p (ids w)) with (ids w).
      + by apply (departed_ids D (revive D' w) w p c (on_again i)); [apply Hinv|..].
      + symmetry. apply alter_id. intros j Ej. rewrite E in Ej. injection Ej as <-. by apply off_net_id. }
  rewrite Eu. unfold depart, unplace in HQ'. rewrite Ek, Eu in HQ'. destruct (id_uplink i) as [q|] eqn:Eq.
  - destruct (departing_uplink D (revive D' w) w p (on_again i) q (proj1 Hinv) Hl Hpatch Eq) as (j & (cq & Ecq & <-)%ids_client & Hj).
    destruct (kind_server_parts cq Hj) as ([s Es] & _).
    eapply wp_upd_server; [by rewrite unlist_clients|exact Es|].
    eapply (wp_del_client _ _ (if decide (q = p) then upd_server_behind KServer (rb_dlinkDelete p) c else c)).
    { simpl. rewrite unlist_clients. apply lookup_alter_iff. exists c. split; [done|]. by case_decide. }
    apply HQ'. by case_decide.
  - apply wp_ret. eapply wp_del_client; [by rewrite unlist_clients|]. by apply HQ'.
Qed.
End server_tail.

Section exit_all.
Context `{SYS : Sys} `{RB : !RbSpec} `{HK : !HooksOk}.

(** The effect of the whole, from those of the mark, the loops and the tail. *)
Lemma departed_after D depth p i w w1 w5 w' us ss i5 :
  p ∉ D → ids w1 = alter off_net p (ids w) → mode_lists w1 = mode_lists w → hooks w1 = hooks w →
  draining D depth p i w1 us ss w5 → id_uplink i5 = id_uplink i → id_kind i5 = id_kind i →
  id_kind i ≠ KUser → departed D p i5 w5 w' → departed D p i w w'.
Proof.
  intros Hp Ei Hml Hh [H1 H2 H3 H4 H5 H6 H7] Eu Ek Hk [G1 G2 G3 _ G4 G5]. split; [..|done|done|congruence|congruence].
  - intros q Hq. rewrite G1, H4, Ei, lookup_alter, Eu, Ek by done.
    rewrite (decide_False (P := p = q)) by congruence. done.
  - intros q j' E. destruct (G2 q j' E) as (j & Ej & -> & -> & Hj). destruct (H3 q j Ej) as (j1 & Ej1 & -> & -> & Hj1).
    rewrite Ei, lookup_alter in Ej1. destruct (decide (p = q)) as [<-|]; [|exists j1; split_and!; auto].
    apply fmap_Some in Ej1 as (j0 & Ej0 & ->). exists j0. split_and!; [done|done|done|]. intros Hn. by apply Hj, Hj1 in Hn.
Qed.

Lemma draining_start D depth w p c w2 :
  inv_but D w → deep D depth w → p ∉ D → clients w !! p = Some c → kind_of c = KServer → on_net c = true →
  same_net (w <| clients ::= alter dead p |>) w2 →
  draining D depth p (ident_of c) w2 (users_behind c) (servers_behind c) w2.
Proof.
  intros Hinv Hd Hp Ec Hk Hn Hs. destruct (inv_but_mark D w p c w2) as [Hinv2 Ei2]; [done..|]. split; [done|..].
  - unfold deep. rewrite Ei2. erewrite mark_server by done. exact Hd.
  - intros q j' E. by exists j'.
  - done.
  - rewrite Ei2. apply lookup_alter_iff. exists (ident_of c). split; [by apply ids_of|]. by rewrite decide_True.
  - done.
  - done.
Qed.

Lemma mark_less_live w w2 p i :
  ids w !! p = Some i → id_net i = true → ids w2 = alter off_net p (ids w) →
  (size (live_set w2) < size (live_set w))%nat.
Proof.
  intros E Hn Ei. apply (less_live w w2 p); [by exists i|..].
  - intros (j & Ej & Hj). rewrite Ei in Ej. apply lookup_alter_iff in Ej as (j0 & _ & ->).
    by rewrite decide_True in Hj.
  - intros q (j & Ej & Hj). rewrite Ei in Ej. apply lookup_alter_iff in Ej as (j0 & Ej0 & ->). exists j0. split; [done|].
    by case_decide.
Qed.

Lemma wp_exit_server fuel D depth w p c split (Q : unit → world → Prop) :
  exits_ok fuel → inv_but D w → deep D depth w → p ∉ D → (∀ z, z ∈ D → (depth z < depth p)%nat) →
  clients w !! p = Some c → kind_of c = KServer → on_net c = true → (size (live_set w) ≤ S fuel)%nat →
  (∀ w', inv_but D w' → departed D p (ident_of c) w w' → Q tt w') →
  wp (_ ← exit_server (exit_from fuel) p split; del_client p) Q w.
Proof.
  intros Hex Hinv Hd Hp Hz Ec Hk Hnet Hf HQ. destruct (kind_server_parts c Hk) as ([s Es] & _ & Esv).
  pose proof Hnet as Hflag. rewrite on_net_flag in Hflag by done. apply negb_true_iff in Hflag.
  apply wp_bind. unfold exit_server. apply wp_bind. unfold IsDead. apply wp_bind. eapply wp_rd; [exact Ec|]. apply wp_ret.
  rewrite Hflag. apply wp_bind. unfold SetDead. eapply wp_upd_client; [exact Ec|]. fold dead.
  apply wp_bind. eapply wp_quiet; [apply quiet_hook1; unfold mid_change; tauto|]. intros [] w2 Hs2.
  destruct (inv_but_mark D w p c w2) as [Hinv2 Ei2]; [done..|].
  pose proof (draining_start D depth w p c w2 Hinv Hd Hp Ec Hk Hnet Hs2) as Hdr.
  pose proof (mark_less_live w w2 p _ (ids_of _ _ _ Ec) Hnet Ei2) as Hlt.
  assert (clients w2 !! p = Some (dead c)) as Ec2.
  { rewrite (sn_clients _ _ Hs2). apply lookup_alter_iff. exists c. by rewrite decide_True. }
  apply wp_bind. eapply wp_server_of; [exact Ec2|exact Es|].
  apply wp_bind. eapply wp_server_users; [exact Hex|exact Hp|exact Hz| |exact Hdr|]; [lia|]. intros w3 Hdr3.
  apply wp_bind. eapply wp_server_servers; [exact Hex|exact Hp|exact Hz| |exact Hdr3|]; [lia|]. intros w4 Hdr4.
  apply wp_bind. eapply wp_quiet; [apply quiet_hook1; unfold mid_change; tauto|]. intros [] w5 Hs5.
  pose proof (draining_same _ _ _ _ _ _ _ _ _ Hdr4 Hs5) as Hdr5.
  eapply wp_server_tail; [apply Hdr5|exact Hp|apply Hdr5|done..|].
  intros w' Hinv' Hdep. apply HQ; [exact Hinv'|].
  eapply departed_after; [exact Hp|exact Ei2| | |exact Hdr5| | | |exact Hdep].
  - apply (same_net_lists _ _ Hs2).
  - apply (sn_hooks _ _ Hs2).
  - done.
  - done.
  - simpl. by rewrite Hk.
Qed.

Lemma exit_from_ok fuel : exits_ok fuel.
Proof.
  induction fuel as [|fuel IH]; intros D depth w p i split Q Hinv Hd Hp Hz Ei Hn Hk Hf HQ.
  { assert (p ∈ live_set w) as Hin by (apply elem_of_live; by exists i).
    assert (live_set w = ∅) as E by (apply leibniz_equiv, size_empty_iff; lia). set_solver. }
  pose proof Ei as (c & Ec & <-)%ids_client. cbn [exit_from]. simpl in Hn, Hk.
  assert (cl_service c = None) as Esv.
  { destruct Hk as [Hk|Hk]; [apply kind_user_parts in Hk|apply kind_server_parts in Hk]; tauto. }
  apply wp_bind. unfold IsService. apply wp_bind. eapply wp_rd; [exact Ec|]. apply wp_ret. rewrite Esv.
  apply wp_bind. unfold s_assert. simpl. apply wp_ret.
  apply wp_bind. unfold IsServer. apply wp_bind. eapply wp_rd; [exact Ec|]. apply wp_ret.
  apply wp_bind. unfold IsUser. apply wp_bind. eapply wp_rd; [exact Ec|]. apply wp_ret.
  destruct Hk as [Hk|Hk].
  - destruct (kind_user_parts c Hk) as ([u Eu] & Es & _). rewrite Es, Eu. simpl. by eapply wp_exit_user.
  - destruct (kind_server_parts c Hk) as ([s Es] & _). rewrite Es. simpl. by eapply wp_exit_server.
Qed.

(** [exit_client()] of a user or server that is on the network: the fuel suffices,
    nothing faults, and the invariant holds again. *)
Lemma wp_exit_client w p i split (Q : unit → world → Prop) :
  net_inv w → ids w !! p = Some i → id_net i = true → id_kind i = KUser ∨ id_kind i = KServer →
  (∀ w', net_inv w' → departed ∅ p i w w' → Q tt w') →
  wp (exit_client p split) Q w.
Proof.
  intros Hw Ei Hn Hk HQ. unfold exit_client. apply wp_bind, wp_gets.
  destruct (tree_depth w (ni_tree _ Hw)) as [depth Hd].
  eapply (exit_from_ok _ ∅ depth w p i); try done.
  - by apply inv_but_empty.
  - intros a j b. rewrite lookup_patch. intros (j0 & Ej & ->)%fmap_Some. rewrite decide_False by set_solver. by apply Hd.
  - trans (size (clients w)); [|lia]. rewrite <- size_dom. apply subseteq_size. intros q Hq%elem_of_live.
    destruct Hq as (j & (c & Ec & _)%ids_client & _). by apply elem_of_dom_2 in Ec.
  - intros w' Hinv Hdep. apply HQ; [by apply inv_but_empty|done].
Qed.
End exit_all.
