(* ===== verification/Commands.v ===== *)
(** * Clients come, change and go

    The handlers of NICK, UID, SERVER, SID, QUIT, KILL and SQUIT end without a
    memory fault in a state that satisfies the invariant of the network.  UID, SID
    and SERVER are for servers to send: their handlers take the sender for one. *)

From S2P Require Import Prelude CString Match Rblib Tools Fault World Lookup Umode Channel ChanCmd Service Client Net Members Index Handlers Joins Clients Exits.

(** ** A new client *)
Section enter.
Context `{SYS : Sys} `{RB : !RbSpec}.

Definition list_client (k : kind) (p : ptr) (w : world) : world :=
  match k with
  | KUser => w <| user_list ::= rb_dlinkAdd p |>
  | _ => w <| server_list ::= rb_dlinkAdd p |>
  end.

Definition place_client (k : kind) (p : ptr) (up : option ptr) (w : world) : world :=
  match up with Some q => w <| clients ::= alter (upd_server_behind k (rb_dlinkAdd p)) q |> | None => w end.

Definition enter_client (p : ptr) (c : client) (w : world) : world :=
  place_client (kind_of c) p (cl_uplink c)
    (list_client (kind_of c) p (file_client p c (w <| clients ::= <[p := c]> |>))).

Lemma enter_client_clients p c w :
  clients (enter_client p c w) =
    match cl_uplink c with
    | Some q => alter (upd_server_behind (kind_of c) (rb_dlinkAdd p)) q (<[p := c]> (clients w))
    | None => <[p := c]> (clients w)
    end.
Proof.
  unfold enter_client, place_client. destruct (cl_uplink c) as [q|]; simpl; unfold list_client, file_client;
    destruct (kind_of c), (is_empty _); done.
Qed.

Lemma enter_client_entered p c w :
  newcomer w p (ident_of c) → entered p (ident_of c) w (enter_client p c w).
Proof.
  intros Hn. pose proof (nc_kind _ _ _ Hn) as Hk.
  assert ((if decide (cl_uid c = ""%string) then true else false) = is_empty (Some (cl_uid c))) as Hd.
  { pose proof (is_empty_Some (cl_uid c)) as He. pose proof (proj2 (nc_names _ _ _ Hn)) as Hnul. simpl in Hnul.
    case_decide as E; [by rewrite E|]. destruct (is_empty _); [|done]. by destruct E; apply He. }
  split; try (unfold enter_client, place_client, list_client, file_client; cbn [id_uid id_kind id_name ident_of];
    rewrite <- ?Hd; destruct (kind_of c), (cl_uplink c), (decide (cl_uid c = ""%string)); reflexivity).
  - unfold ids at 1. rewrite enter_client_clients. cbn [ident_of id_kind id_uplink].
    destruct (cl_uplink c) as [q|] eqn:Eq; simpl; [|apply ids_insert].
    destruct (nc_uplink _ _ _ Hn q Eq) as (j & (cq & Ecq & <-)%ids_client & Hj & _).
    assert (p ≠ q) as Hpq.
    { intros ->. pose proof (nc_fresh _ _ _ Hn) as Hf. rewrite (ids_of _ _ _ Ecq) in Hf. done. }
    rewrite alter_insert_ne by done. rewrite fmap_insert. f_equal.
    eapply ids_upd_server; [by simpl in Hk; tauto|done|]. by apply kind_server_parts.
  - simpl in Hk. unfold enter_client, place_client, list_client, file_client. cbn [id_kind ident_of].
    destruct Hk as [-> | ->], (cl_uplink c), (is_empty _); reflexivity.
Qed.

Lemma enter_client_places p c w :
  clients w !! p = None → vacant c → same_places w (enter_client p c w).
Proof.
  intros Hf Hv. split; try (unfold enter_client, place_client, list_client, file_client;
    destruct (kind_of c), (cl_uplink c), (is_empty _); reflexivity).
  - intros q cq E. assert (p ≠ q) by congruence. rewrite enter_client_clients.
    destruct (cl_uplink c) as [u|]; [|exists cq; by rewrite lookup_insert_ne].
    exists ((if decide (u = q) then upd_server_behind (kind_of c) (rb_dlinkAdd p) else fun c => c) cq). split.
    + apply lookup_alter_iff. exists cq. split; [by rewrite lookup_insert_ne|]. by case_decide.
    + case_decide; [apply places_upd_server|done].
  - intros q c'. rewrite enter_client_clients. intros E.
    assert (∃ c0, <[p:=c]> (clients w) !! q = Some c0 ∧ places c' = places c0) as (c0 & E0 & Ep).
    { destruct (cl_uplink c) as [u|]; [|by exists c']. apply lookup_alter_iff in E as (c0 & E0 & ->).
      exists c0. split; [done|]. case_decide; [apply places_upd_server|done]. }
    apply lookup_insert_Some in E0 as [[<- <-]|[_ E0]]; [|left; by exists c0].
    right. split; [done|]. unfold vacant. by rewrite Ep.
Qed.

Lemma enter_client_inv p c w :
  net_inv w → newcomer w p (ident_of c) → vacant c → net_inv (enter_client p c w).
Proof.
  intros Hw Hn Hv. eapply net_inv_entered; [done|done|by apply enter_client_entered|].
  apply enter_client_places; [|done]. pose proof (nc_fresh _ _ _ Hn) as Hf. unfold ids in Hf.
  rewrite lookup_fmap in Hf. by destruct (clients w !! p).
Qed.

Lemma enter_client_lists p c w :
  mode_lists (enter_client p c w) = mode_lists w ∧ hooks (enter_client p c w) = hooks w.
Proof.
  unfold enter_client, place_client, list_client, file_client.
  by destruct (kind_of c), (cl_uplink c), (is_empty _).
Qed.
End enter.

(** ** Servers *)
Section servers.
Context `{SYS : Sys} `{RB : !RbSpec} `{HK : !HooksOk}.

Lemma wp_new_client w c (Q : ptr → world → Prop) :
  (∀ p, clients w !! p = None → Q p (w <| clients ::= <[p := c]> |>)) → wp (new_client c) Q w.
Proof.
  intros HQ. unfold new_client. apply wp_bind, wp_gets, wp_bind, wp_modify, wp_ret, HQ.
  apply not_elem_of_dom, rb_bh_alloc_spec.
Qed.

Lemma ids_fresh w p : clients w !! p = None → ids w !! p = None.
Proof. intros E. unfold ids. by rewrite lookup_fmap, E. Qed.

(** A client behind a live server, or a server that is our uplink. *)
Lemma new_client_inv w p c :
  good w → clients w !! p = None → kind_of c = KUser ∨ kind_of c = KServer → on_net c = true →
  no_nul (cl_name c) = true → no_nul (cl_uid c) = true →
  (∀ q, cl_uplink c = Some q → filed_kind (ids w) KServer true q) →
  (kind_of c = KUser → is_Some (cl_uplink c) ∧ us_servername <$> cl_user c = cl_uplink c) →
  users_behind c = [] → servers_behind c = [] →
  cl_user c ≫= us_oper = None → (∀ r, cl_user c ≫= us_user_reg = Some r → is_Some (user_regs w !! r)) → vacant c →
  good (enter_client p c w).
Proof.
  intros [Hw Hi] Hf Hk Hn Hname Huid Hup Hu Hus Hss Ho Hr Hv. split.
  - apply enter_client_inv; [done| |done]. split; try done; [by apply ids_fresh|intros Hku; apply (Hu Hku)..].
  - unfold idle. by rewrite (proj1 (enter_client_lists p c w)).
Qed.

Lemma new_server_inv w p name hops info uid up :
  good w → clients w !! p = None → no_nul name = true → no_nul uid = true →
  (∀ q, up = Some q → filed_kind (ids w) KServer true q) →
  good (enter_client p (new_server name hops info uid up) w).
Proof.
  intros Hw Hf Hn Hu Hup. apply new_client_inv; try done; [by right|by apply rb_strlcpy_no_nul; [lia|]].
Qed.


Lemma fresh_ne w p q : clients w !! p = None → filed_kind (ids w) KServer true q → p ≠ q.
Proof. intros Hf (i & (c & E & _)%ids_client & _) ->. congruence. Qed.

(** [PING] to a client that is there. *)
Lemma wp_ping w p (Q : unit → world → Prop) :
  is_Some (clients w !! p) → (∀ w', same_net w w' → Q tt w') → wp (ping_server p) Q w.
Proof.
  intros [c Ec] HQ. unfold ping_server. apply wp_bind. apply (wp_gets (fun s => s)).
  apply wp_bind. eapply wp_rd; [exact Ec|]. eapply wp_quiet; [apply quiet_sendto_server|]. by intros [].
Qed.

(** The server behind [q] in memory, then in its list, the tables and the list. *)
Lemma wp_link_server {A} w p c q (k : M world A) (Q : A → world → Prop) :
  clients w !! p = None → kind_of c = KServer → cl_uplink c = Some q → filed_kind (ids w) KServer true q →
  wp k Q (enter_client p c w) →
  wp (_ ← upd_server q (fun s => s <| sv_servers ::= rb_dlinkAdd p |>);
      _ ← add_client p; _ ← modify (fun w => w <| server_list ::= rb_dlinkAdd p |>); k) Q
    (w <| clients ::= <[p := c]> |>).
Proof.
  intros Hf Hk Hup Hq HQ. pose proof (fresh_ne w p q Hf Hq) as Hne.
  destruct (kind_server w q true Hq) as (cq & s & Ecq & Es).
  apply wp_bind. eapply wp_upd_server; [simpl; by rewrite lookup_insert_ne|exact Es|].
  apply wp_bind. eapply wp_add_client.
  { simpl. rewrite lookup_alter_ne by done. by apply lookup_insert_eq. }
  apply wp_bind, wp_modify. unfold enter_client, place_client, list_client in HQ. rewrite Hk, Hup in HQ.
  unfold file_client in *. by destruct (is_empty _).
Qed.

Lemma enter_client_there p c w : is_Some (clients (enter_client p c w) !! p).
Proof.
  rewrite enter_client_clients. destruct (cl_uplink c); [apply lookup_alter_is_Some|]; rewrite lookup_insert_eq; eauto.
Qed.

Lemma c_sid_good w client_p parv :
  good w → parv_ok parv → filed_kind (ids w) KServer true client_p → wp (c_sid client_p parv) (fun _ => good) w.
Proof.
  intros Hw Hp Hc. unfold c_sid. apply wp_bind. eapply wp_quiet; [apply quiet_s_assert|]. intros [] w1 Hs1.
  pose proof (good_same _ _ Hs1 Hw) as Hw1. rewrite <- (si_ids _ _ (same_net_index _ _ Hs1)) in Hc. clear Hs1 Hw w.
  destruct (_ <? _)%nat eqn:E1; bool_len; [by apply wp_ret|].
  apply wp_bind, wp_arg; [done|lia|]. intros name _ Hname.
  destruct (_ <? strlen name)%nat; [apply wp_die|].
  apply wp_bind, wp_arg; [done|lia|]. intros hops _ _.
  apply wp_bind, wp_arg; [done|lia|]. intros uid _ Huid.
  apply wp_bind, wp_argv; [lia|].
  apply wp_bind, wp_new_client. intros p Hf. eapply wp_link_server; [done|done|done|done|].
  apply wp_ping; [apply enter_client_there|]. intros w2 Hs2. eapply good_same; [exact Hs2|].
  apply new_server_inv; [done..|by apply rb_strlcpy_no_nul; [lia|]|]. by intros q [= <-].
Qed.

Lemma same_net_link w l l' :
  server_p w = Some l → lc_client_p l' = lc_client_p l → same_net w (w <| server_p := Some l' |>).
Proof. intros El E. split; try done. simpl. rewrite El. simpl. by rewrite E. Qed.

(** SERVER about a server behind another one. *)
Lemma c_server_good w client_p parv :
  good w → parv_ok parv → is_Some (server_p w) → filed_kind (ids w) KServer true client_p →
  wp (c_server (Some client_p) parv) (fun _ => good) w.
Proof.
  intros Hw Hp [l El] Hc. unfold c_server. destruct (_ <? _)%nat eqn:E1; bool_len; [by apply wp_ret|].
  apply wp_bind, wp_arg; [done|lia|]. intros name _ Hname.
  destruct (_ <? strlen name)%nat; [apply wp_die|].
  apply wp_bind, wp_ret. cbn [negb].
  apply wp_bind, wp_arg; [done|lia|]. intros hops _ _.
  apply wp_bind, wp_argv; [lia|]. apply wp_bind. apply (wp_gets (fun s => s)). apply wp_bind, wp_ret.
  apply wp_bind, wp_new_client. intros p Hf. eapply wp_link_server; [done|done|done|done|].
  apply wp_bind, wp_ret. set (w1 := enter_client p _ w).
  assert (good w1) as Hw1 by (apply new_server_inv; [done..|by intros q [= <-]]).
  assert (server_p w1 = Some l) as El1.
  { rewrite <- El. unfold w1, enter_client, place_client, list_client, file_client.
    destruct (kind_of _), (cl_uplink _), (is_empty _); reflexivity. }
  apply wp_bind. unfold upd_server_p. apply wp_bind. apply (wp_gets (fun s => s)). apply wp_bind.
  eapply wp_need; [exact El1|]. apply wp_modify.
  apply wp_ping; [apply enter_client_there|]. intros w2 Hs2. eapply good_same; [exact Hs2|].
  eapply good_same; [|exact Hw1]. by eapply same_net_link.
Qed.
End servers.

(** ** Users *)
Section users.
Context `{SYS : Sys} `{RB : !RbSpec} `{HK : !HooksOk}.

Lemma good_exit w p i split (Q : unit → world → Prop) :
  good w → ids w !! p = Some i → id_net i = true → id_kind i = KUser ∨ id_kind i = KServer →
  (∀ w', good w' → departed ∅ p i w w' → Q tt w') → wp (exit_client p split) Q w.
Proof.
  intros [Hw Hi] Ei Hn Hk HQ. eapply wp_exit_client; [done..|]. intros w' Hw' Hd. apply HQ; [|done].
  split; [done|]. unfold idle. by rewrite (dp_lists _ _ _ _ _ Hd).
Qed.

Lemma departed_servers D p i w w' q :
  departed D p i w w' → id_kind i = KUser → ids w !! p = Some i →
  filed_kind (ids w) KServer true q → filed_kind (ids w') KServer true q.
Proof.
  intros Hd Hk Ep (j & Ej & Hj & Hn).
  assert (p ≠ q) by (intros ->; simplify_eq; congruence).
  exists ((if decide (id_uplink i = Some q) then upd_behind KUser (rb_dlinkDelete p) else fun i => i) j).
  rewrite (proj1 (dp_user _ _ _ _ _ Hd Hk)), lookup_uplink, lookup_alter_ne, Ej by done. split; [done|].
  case_decide; done.
Qed.

(** Whether a nick is free to be introduced. *)
Lemma wp_nick_collision w t newts (Q : bool → world → Prop) :
  good w → (∀ p, t = Some p → live w p) →
  (∀ b w', good w' → (∀ q, filed_kind (ids w) KServer true q → filed_kind (ids w') KServer true q) → Q b w') →
  wp (nick_collision t newts) Q w.
Proof.
  intros Hw Ht HQ. unfold nick_collision. destruct t as [p|]; [|by apply wp_ret, HQ].
  destruct (Ht p eq_refl) as (i & Ei & Hn). pose proof Ei as (c & Ec & Hic)%ids_client.
  apply wp_bind. unfold IsServer. apply wp_bind. eapply wp_rd; [exact Ec|]. apply wp_ret.
  apply wp_bind. eapply wp_quiet; [apply quiet_s_assert|]. intros [] w1 Hs1.
  pose proof (good_same _ _ Hs1 Hw) as Hw1. pose proof (si_ids _ _ (same_net_index _ _ Hs1)) as Es1.
  assert (clients w1 !! p = Some c) as Ec1 by (by rewrite (sn_clients _ _ Hs1)).
  case_bool_decide as Hsv; [apply wp_ret, HQ; [done|by rewrite Es1]|].
  apply wp_bind. eapply wp_rd; [exact Ec1|]. destruct (cl_user c) as [u|] eqn:Eu.
  - assert (id_kind i = KUser) as Hk.
    { destruct (tab_ident _ (ni_tables _ (proj1 Hw)) p i Ei) as [Hko _]. rewrite <- Hic in Hko |- *. simpl in *.
      unfold kind_of in *. rewrite Eu in *. destruct (cl_server c), (cl_service c); try done. }
    destruct (_ <? newts).
    + apply wp_bind. eapply wp_quiet; [apply quiet_mlog|]. intros [] w2 Hs2. apply wp_ret, HQ.
      * by eapply good_same.
      * by rewrite (si_ids _ _ (same_net_index _ _ Hs2)), Es1.
    + apply wp_bind. eapply (good_exit w1 p i); [done|by rewrite Es1|done|by left|].
      intros w2 Hw2 Hd. apply wp_ret, HQ; [done|]. intros q. rewrite <- Es1.
      apply (departed_servers _ p i _ _ q Hd Hk). by rewrite Es1.
  - case_bool_decide.
    + destruct (newts <=? 1); [apply wp_die|]. apply wp_ret, HQ; [done|by rewrite Es1].
    + apply wp_ret, HQ; [done|by rewrite Es1].
Qed.

(** [link_user()]: the hooks run on the user in place. *)
Lemma wp_link_user w p c u q :
  clients w !! p = None → kind_of c = KUser → cl_user c = Some u → cl_uplink c = Some q →
  filed_kind (ids w) KServer true q → good (enter_client p c w) →
  wp (link_user p q) (fun _ => good) (w <| clients ::= <[p := c]> |>).
Proof.
  intros Hf Hk Eu Hup Hq Hg. pose proof (fresh_ne w p q Hf Hq) as Hne.
  destruct (kind_server w q true Hq) as (cq & s & Ecq & Es).
  unfold link_user. apply wp_bind. eapply wp_add_client; [simpl; by apply lookup_insert_eq|].
  apply wp_bind, wp_modify. set (w1 := file_client _ _ _). apply wp_bind.
  assert (clients w1 = <[p := c]> (clients w)) as Ecl.
  { unfold w1, file_client. by destruct (is_empty _). }
  eapply wp_upd_server; [simpl; by rewrite Ecl, lookup_insert_ne|exact Es|]. set (w2 := _ <| clients ::= _ |>).
  assert (w2 = enter_client p c w) as E2.
  { unfold w2, w1, enter_client, place_client, list_client. rewrite Hk, Hup. done. }
  clearbody w2. subst w2. clear w1 Ecl. set (w2 := enter_client p c w) in *.
  assert (clients w2 !! p = Some c) as Ep.
  { unfold w2. rewrite enter_client_clients, Hup, lookup_alter_ne by done. by apply lookup_insert_eq. }
  assert (is_Some (clients w2 !! q)) as [cq' Eq'].
  { unfold w2. rewrite enter_client_clients, Hup. apply lookup_alter_is_Some. rewrite lookup_insert_ne by done. eauto. }
  clearbody w2. apply wp_bind. eapply wp_rd; [exact Eq'|].
  assert (∀ h, client_hook h → quiet (hook h (HookPtr p)) w2) as Hh.
  { intros h Hh. apply quiet_hook1. do 5 right. left. split; [done|]. by exists p, c, u. }
  destruct (has_flag _ _); (apply good_still; [done|]; apply Hh; unfold client_hook; auto).
Qed.

Lemma new_user_inv w p c q name username host ip umode newts :
  good w → clients w !! p = None → cl_user c = Some (new_user name username host ip q umode newts) →
  cl_server c = None → cl_service c = None → cl_uplink c = Some q → filed_kind (ids w) KServer true q →
  has_flag (cl_flags c) FLAGS_DEAD = false →
  no_nul (cl_name c) = true → no_nul (cl_uid c) = true → good (enter_client p c w).
Proof.
  intros Hw Hf Eu Es Esv Eq Hq Hfl Hn Hnu. apply new_client_inv; try done.
  - left. unfold kind_of. by rewrite Eu, Es, Esv.
  - unfold on_net. by rewrite Esv, Hfl.
  - by intros q' [= <-]%(eq_trans (eq_sym Eq)).
  - intros _. rewrite Eq, Eu. by split.
  - unfold users_behind. by rewrite Es.
  - unfold servers_behind. by rewrite Es.
  - by rewrite Eu.
  - by rewrite Eu.
  - split; intros l; unfold places; rewrite Eu, Esv; simpl; congruence.
Qed.
End users.

Section introductions.
Context `{SYS : Sys} `{RB : !RbSpec} `{HK : !HooksOk}.

Lemma wp_new_user {A} w q name uid info fl username host ip umode newts (k : ptr → M world A) (Q : A → world → Prop) :
  good w → filed_kind (ids w) KServer true q → no_nul name = true → no_nul uid = true → has_flag fl FLAGS_DEAD = false →
  (∀ p c u, clients w !! p = None → kind_of c = KUser → cl_user c = Some u → cl_uplink c = Some q →
     good (enter_client p c w) → wp (k p) Q (w <| clients ::= <[p := c]> |>)) →
  wp (p ← new_client (Client name info uid fl None
        (Some (new_user name username host ip q umode newts)) None (Some q)); k p) Q w.
Proof.
  intros Hw Hq Hn Hu Hf HQ. apply wp_bind, wp_new_client. intros p Hfresh. eapply HQ; [done..|].
  by eapply new_user_inv.
Qed.

Lemma nick_introduce_good w parv :
  good w → parv_ok parv → length parv = 8%nat → wp (nick_introduce parv) (fun _ => good) w.
Proof.
  intros Hw Hp Hl. unfold nick_introduce. apply wp_bind, wp_arg; [done|lia|]. intros nick _ Hnick.
  destruct (find_named_client_ok w nick (ni_tables _ (proj1 Hw)) Hnick) as (t & Et & Ht).
  apply wp_bind. apply (wp_ok _ _ _ _ _ Et).
  apply wp_bind, wp_arg; [done|lia|]. intros ts _ _. cbv zeta.
  apply wp_bind, wp_arg; [done|lia|]. intros srv _ Hsrv.
  apply wp_bind, wp_find_server; [apply Hw|done|]. intros [q|] Hq; [|by apply good_mlog].
  destruct (_ <? strlen nick)%nat; [apply wp_die|].
  apply wp_bind, wp_nick_collision; [done| |].
  { intros p ->. destruct Ht as (i & Ei & Hn & _). by exists i. }
  intros b w' Hw' Hserv. destruct b; cbn [negb]; [|by apply wp_ret].
  do 4 (apply wp_bind, wp_arg; [done|lia|]; intros ? _ ?).
  apply wp_new_user; [done|by apply Hserv|by apply rb_strlcpy_no_nul; [lia|]|done|done|].
  intros p c u Hf Hk Eu Eq Hg. eapply wp_link_user; [done..|by apply Hserv|done].
Qed.

Lemma c_uid_good w client_p parv :
  good w → parv_ok parv → filed_kind (ids w) KServer true client_p → wp (c_uid client_p parv) (fun _ => good) w.
Proof.
  intros Hw Hp Hc. unfold c_uid. apply wp_bind. eapply wp_quiet; [apply quiet_s_assert|]. intros [] w1 Hs1.
  pose proof (good_same _ _ Hs1 Hw) as Hw1. rewrite <- (si_ids _ _ (same_net_index _ _ Hs1)) in Hc. clear Hs1 Hw w.
  destruct (_ =? _)%nat eqn:E1; cbn [negb]; bool_len; [|by apply wp_ret].
  apply wp_bind, wp_arg; [done|lia|]. intros nick _ Hnick.
  destruct (find_client_ok w1 nick (ni_tables _ (proj1 Hw1)) Hnick) as (t & Et & Ht).
  apply wp_bind. apply (wp_ok _ _ _ _ _ Et).
  apply wp_bind, wp_arg; [done|lia|]. intros ts _ _. cbv zeta.
  destruct (_ <? strlen nick)%nat; [apply wp_die|].
  apply wp_bind, wp_nick_collision; [done| |].
  { intros p ->. by apply found_client_live in Ht. }
  intros b w' Hw' Hserv. destruct b; cbn [negb]; [|by apply wp_ret].
  do 6 (apply wp_bind, wp_arg; [done|lia|]; intros ? _ ?).
  apply wp_new_user; [done|by apply Hserv|by apply rb_strlcpy_no_nul; [lia|]..| |].
  { by case_match. }
  intros p c u Hf Hk Eu Eq Hg. eapply wp_link_user; [done..|by apply Hserv|done].
Qed.
End introductions.

(** ** A client filed under another name *)
Section refile.
Context `{SYS : Sys} `{RB : !RbSpec}.

Lemma indexed_refile t P x h h' :
  indexed t P → P x h → (∀ k, P x k → k = h) →
  indexed (upd_bucket h' (rb_dlinkAdd x) (upd_bucket h (rb_dlinkDelete x) t))
    (fun y k => (P y k ∧ y ≠ x) ∨ (y = x ∧ k = h')).
Proof. intros Ht Hx Hfun. apply indexed_add; [by apply indexed_delete|]. intros [_ ?]. done. Qed.

Definition named (n : string) (i : ident) : ident := i <| id_name := n |>.

Record refiled (p : ptr) (i : ident) (n : string) (w w' : world) : Prop := Refiled {
  rf_ident : ids w !! p = Some i;
  rf_net : id_net i = true;
  rf_nul : no_nul n = true;
  rf_ids : ids w' = alter (named n) p (ids w);
  rf_name : name_table w' = upd_bucket (hash_name n) (rb_dlinkAdd p)
    (upd_bucket (hash_name (id_name i)) (rb_dlinkDelete p) (name_table w));
  rf_uid : uid_table w' = if decide (id_uid i = ""%string) then uid_table w
    else upd_bucket (hash_name (id_uid i)) (rb_dlinkAdd p) (upd_bucket (hash_name (id_uid i)) (rb_dlinkDelete p) (uid_table w));
  rf_users : user_list w' = user_list w;
  rf_servers : server_list w' = server_list w;
  rf_exited : exited_list w' = exited_list w;
  rf_services : service_list w' = service_list w;
  rf_regs : user_regs w' = user_regs w;
  rf_blocks : conf_opers w' = conf_opers w;
  rf_opers : oper_list w' = oper_list w;
  rf_entries : client_oper_list w' = client_oper_list w
}.

Section refiled.
Context (w w' : world) (p : ptr) (i : ident) (n : string) (Hr : refiled p i n w w').

Lemma refiled_lookup x j' :
  ids w' !! x = Some j' ↔ ∃ j, ids w !! x = Some j ∧ j' = if decide (p = x) then named n j else j.
Proof. rewrite (rf_ids _ _ _ _ _ Hr). rewrite lookup_alter_iff. naive_solver. Qed.

(** What does not depend on the name. *)
Lemma refiled_with P x : (∀ j, P (named n j) ↔ P j) → with_ident (ids w') P x ↔ with_ident (ids w) P x.
Proof.
  intros HP. unfold with_ident. setoid_rewrite refiled_lookup. split.
  - intros (j' & (j & E & ->) & Hj). exists j. split; [done|]. case_decide; [by apply HP|done].
  - intros (j & E & Hj). eexists. split; [by exists j|]. case_decide; [by apply HP|done].
Qed.

Lemma refiled_kind k net x : filed_kind (ids w') k net x ↔ filed_kind (ids w) k net x.
Proof. by apply (refiled_with (fun j => id_kind j = k ∧ id_net j = net)). Qed.

Lemma refiled_behind k q x : behind (ids w') k q x ↔ behind (ids w) k q x.
Proof. by apply (refiled_with (fun j => id_kind j = k ∧ id_net j = true ∧ id_uplink j = Some q)). Qed.

(** What an identity keeps. *)
Lemma refiled_back x j' : ids w' !! x = Some j' → ∃ j, ids w !! x = Some j ∧ named ""%string j' = named ""%string j ∧
  (id_name j' = id_name j ∨ id_name j' = n).
Proof. intros (j & E & ->)%refiled_lookup. exists j. split; [done|]. case_decide; auto. Qed.

Lemma tables_refiled : tables_ok w → tables_ok w'.
Proof.
  intros Hw. pose proof (rf_ident _ _ _ _ _ Hr) as Ei. pose proof (rf_net _ _ _ _ _ Hr) as Hn. split.
  - rewrite (rf_name _ _ _ _ _ Hr). eapply indexed_iff; [|apply indexed_refile; [apply Hw|by exists i|]].
    + intros x h. unfold filed_name at 2. setoid_rewrite refiled_lookup. split.
      * intros [[(j & E & Hj & Hh) Hx]|[-> ->]]; [exists j|exists (named n i)]; split_and!; try done.
        -- exists j. by rewrite decide_False by congruence.
        -- exists i. by rewrite decide_True.
      * intros (j' & (j & E & ->) & Hj & Hh). case_decide as Hx; [subst x; by right|left].
        split; [by exists j|congruence].
    + intros h (j & E & _ & <-). congruence.
  - rewrite (rf_uid _ _ _ _ _ Hr). assert (∀ x h, filed_uid (ids w') x h ↔ filed_uid (ids w) x h) as Hu.
    { intros x h. by apply (refiled_with (fun j => id_net j = true ∧ id_uid j ≠ ""%string ∧ hash_name (id_uid j) = h)). }
    case_decide as Eu; [eapply indexed_iff; [|apply Hw]; intros; symmetry; apply Hu|].
    eapply indexed_iff; [|apply indexed_refile; [apply Hw|by exists i|]].
    + intros x h. rewrite Hu. split; [intros [[? _]|[-> ->]]; [done|by exists i]|].
      intros Hx. destruct (decide (x = p)) as [->|]; [right|by left]. split; [done|].
      destruct Hx as (j & E & _ & _ & <-). congruence.
    + intros h (j & E & _ & _ & <-). congruence.
  - rewrite (rf_users _ _ _ _ _ Hr). eapply lists_iff; [|apply Hw]. intros x. symmetry. apply refiled_kind.
  - rewrite (rf_servers _ _ _ _ _ Hr). eapply lists_iff; [|apply Hw]. intros x. symmetry. apply refiled_kind.
  - rewrite (rf_exited _ _ _ _ _ Hr). eapply lists_iff; [|apply Hw]. intros x. simpl. by rewrite !refiled_kind.
  - rewrite (rf_services _ _ _ _ _ Hr). eapply lists_iff; [|apply Hw]. intros x. simpl.
    symmetry. by apply (refiled_with (fun j => id_kind j = KService)).
  - intros x j' (j & E & Eb & Hname)%refiled_back. destruct (tab_ident _ Hw x j E) as (Hk & H1 & H2).
    injection Eb as Eu Ek _ _ _ _ _ _ _. rewrite Eu, Ek. split_and!; [done| |done].
    destruct Hname as [-> | ->]; [done|apply Hr].
Qed.

Lemma tree_refiled : tree_ok w → tree_ok w'.
Proof.
  intros Hw. split.
  - intros x j' (j & E & Eb & _)%refiled_back. injection Eb as _ -> -> -> _ _ _ _ _. by apply (tree_user _ Hw x).
  - intros x j' (j & E & Eb & _)%refiled_back. injection Eb as _ -> -> -> _ _ _ _ ->. by apply (tree_home _ Hw x).
  - intros x j' (j & E & Eb & _)%refiled_back. injection Eb as _ -> _ -> _ _ _ _ _. by apply (tree_service _ Hw x).
  - intros x j' q (j & E & Eb & _)%refiled_back. injection Eb as _ _ -> -> _ _ _ _ _. rewrite refiled_kind. by apply (tree_uplink _ Hw x).
  - intros q j' (j & E & Eb & _)%refiled_back. injection Eb as _ -> -> _ -> _ _ _ _. intros Hk Hn.
    eapply lists_iff; [|by apply (tree_users _ Hw q j)]. intros x. symmetry. apply refiled_behind.
  - intros q j' (j & E & Eb & _)%refiled_back. injection Eb as _ -> -> _ _ -> _ _ _. intros Hk Hn.
    eapply lists_iff; [|by apply (tree_servers _ Hw q j)]. intros x. symmetry. apply refiled_behind.
  - destruct (tree_depth _ Hw) as [depth Hd]. exists depth.
    intros x j' q (j & E & Eb & _)%refiled_back. injection Eb as _ _ -> -> _ _ _ _ _. by apply Hd.
Qed.

Lemma accounts_refiled : accounts_ok w → accounts_ok w'.
Proof.
  intros Hw. assert (∀ o, block_uses w' o = block_uses w o) as Hu.
  { intros o. unfold block_uses. rewrite (rf_users _ _ _ _ _ Hr), (rf_entries _ _ _ _ _ Hr). do 2 f_equal.
    apply list_filter_iff. intros x. unfold uses_block. rewrite (rf_ids _ _ _ _ _ Hr), lookup_alter.
    case_decide; [|done]. subst. by destruct (ids w !! _). }
  split.
  - intros x j' r (j & E & Eb & _)%refiled_back. injection Eb as _ _ -> _ _ _ _ -> _. rewrite (rf_regs _ _ _ _ _ Hr).
    by apply (acc_reg _ Hw x).
  - rewrite (rf_opers _ _ _ _ _ Hr). eapply lists_iff; [|apply Hw]. intros x. simpl. symmetry.
    by apply (refiled_with (fun j => id_net j = true ∧ id_kind j = KUser ∧ is_Some (id_oper j))).
  - intros x j' o (j & E & Eb & _)%refiled_back. injection Eb as _ _ -> _ _ _ -> _ _. rewrite (rf_blocks _ _ _ _ _ Hr).
    by apply (acc_block _ Hw x).
  - intros e. rewrite (rf_entries _ _ _ _ _ Hr), (rf_blocks _ _ _ _ _ Hr). apply Hw.
  - intros o b. rewrite (rf_blocks _ _ _ _ _ Hr), Hu. apply Hw.
Qed.

Lemma net_inv_refiled : chan_inv w' → members w' = members w → net_inv w → net_inv w'.
Proof.
  intros Hc Hm [_ H1 H2 H3 Hal]. split; [done|by apply tables_refiled|by apply tree_refiled|by apply accounts_refiled|].
  intros m mb. rewrite Hm, refiled_kind. apply Hal.
Qed.
End refiled.
End refile.

Section changes.
Context `{SYS : Sys} `{RB : !RbSpec} `{HK : !HooksOk}.

(** A client leaves the tables and comes back to them, [f] having been done to it. *)
Definition refile (p : ptr) (c : client) (f : client → client) (w : world) : world :=
  file_client p (f c) ((unfile_client p c w) <| clients ::= alter f p |>).

Lemma refile_refiled p c f n g w :
  clients w !! p = Some c → on_net c = true → no_nul n = true → no_nul (cl_uid c) = true →
  cl_name (f c) = n → cl_uid (f c) = cl_uid c →
  ident_of (g (f c)) = named n (ident_of c) →
  refiled p (ident_of c) n w ((refile p c f w) <| clients ::= alter g p |>).
Proof.
  intros Ec Hn Hnul Hu En Eu Eg.
  assert ((if decide (cl_uid c = ""%string) then true else false) = is_empty (Some (cl_uid c))) as Hd.
  { pose proof (is_empty_Some (cl_uid c)) as He. case_decide as E; [by rewrite E|].
    destruct (is_empty _); [|done]. by destruct E; apply He. }
  split; [by apply ids_of|done|done| |..];
    try (unfold refile, file_client, unfile_client; rewrite Eu, <- ?Hd, ?En; cbn [id_uid ident_of];
         destruct (decide (cl_uid c = ""%string)); reflexivity).
  unfold ids, refile, file_client, unfile_client. rewrite Eu, <- Hd.
  assert (ident_of <$> alter g p (alter f p (clients w)) = alter (named n) p (ident_of <$> clients w)) as E.
  { rewrite alter_alter_eq. apply ids_alter_ident. intros c' Ec'. by simplify_eq. }
  by destruct (decide _).
Qed.
End changes.

Section changes_run.
Context `{SYS : Sys} `{RB : !RbSpec} `{HK : !HooksOk}.

Lemma refile_places p c f w : (∀ c, places (f c) = places c) → same_places w (refile p c f w).
Proof.
  intros Hf. pose proof (places_alter w f p Hf) as [H1 H2 H3 H4 H5 H6].
  unfold refile, file_client, unfile_client. by split; destruct (is_empty _), (is_empty _).
Qed.

Lemma same_net_refile p c f w w2 : same_net (unfile_client p c w) w2 →
  same_net (refile p c f w) (file_client p (f c) (w2 <| clients ::= alter f p |>)).
Proof.
  intros []. unfold refile, file_client. destruct (is_empty _); split; simpl; congruence.
Qed.

Lemma refile_lists p c f g w :
  mode_lists ((refile p c f w) <| clients ::= alter g p |>) = mode_lists w.
Proof. unfold refile, file_client, unfile_client. by destruct (is_empty _), (is_empty _). Qed.

Lemma good_refile p c f n g w :
  good w → clients w !! p = Some c → on_net c = true → no_nul n = true →
  cl_name (f c) = n → cl_uid (f c) = cl_uid c → ident_of (g (f c)) = named n (ident_of c) →
  (∀ c, places (f c) = places c) → (∀ c, places (g c) = places c) →
  good ((refile p c f w) <| clients ::= alter g p |>).
Proof.
  intros [Hw Hi] Ec Hn Hnul En Eu Eg Hf Hg. split.
  - eapply net_inv_refiled; [apply (refile_refiled p c f n g); try done| | |done].
    + by apply (tab_ident _ (ni_tables _ Hw) p _ (ids_of _ _ _ Ec)).
    + eapply chan_inv_places; [apply Hw|]. eapply same_places_trans; [by apply (refile_places p c f w)|by apply places_alter].
    + apply (sp_members _ _ (refile_places p c f w Hf)).
  - unfold idle. by rewrite refile_lists.
Qed.

Lemma refile_client p c f w : clients w !! p = Some c → clients (refile p c f w) !! p = Some (f c).
Proof.
  intros Ec. unfold refile, file_client, unfile_client.
  destruct (is_empty _), (is_empty _); simpl; apply lookup_alter_iff; exists c; by rewrite decide_True.
Qed.

Lemma nick_change_good w client_p parv :
  good w → parv_ok parv → length parv = 2%nat → live w client_p → wp (nick_change client_p parv) (fun _ => good) w.
Proof.
  intros Hw Hp Hl (i & (c & Ec & <-)%ids_client & Hn). unfold nick_change.
  apply wp_bind, wp_IsUser; [by exists c|]. intros usr Hu.
  apply wp_bind. eapply wp_quiet; [apply quiet_s_assert|]. intros [] w1 Hs1.
  pose proof (good_same _ _ Hs1 Hw) as Hw1. rewrite <- (sn_clients _ _ Hs1) in Ec, Hu. clear Hs1 Hw w.
  destruct usr; cbn [negb]; [|by apply wp_ret].
  destruct (Hu eq_refl) as (c' & u & Ec' & Eu). simplify_eq.
  apply wp_bind, wp_arg; [done|lia|]. intros nick _ Hnick.
  destruct (_ <? strlen nick)%nat; [apply wp_die|]. cbv zeta.
  set (name := rb_strlcpy _ nick). assert (no_nul name = true) as Hname by (apply rb_strlcpy_no_nul; [lia|done]).
  apply wp_bind. eapply wp_del_client; [exact Ec|].
  apply wp_bind. eapply wp_upd_client; [by unfold unfile_client; destruct (is_empty _)|].
  set (f := fun c : client => c <| cl_name := name |>).
  apply wp_bind. eapply (wp_add_client _ _ (f c)).
  { unfold unfile_client. destruct (is_empty _); simpl; apply lookup_alter_iff; exists c; by rewrite decide_True. }
  fold (refile client_p c f w1).
  apply wp_bind, wp_arg; [done|lia|]. intros ts _ _.
  apply wp_bind. eapply wp_upd_user; [by apply refile_client|exact Eu|].
  match goal with |- context [alter ?x] => set (g := x) end.
  assert (ident_of (g (f c)) = named name (ident_of c)) as Eg.
  { unfold ident_of, kind_of, on_net. simpl. by rewrite Eu. }
  pose proof (good_refile client_p c f name g w1 Hw1 Ec Hn Hname eq_refl eq_refl Eg) as Hg.
  assert (good ((refile client_p c f w1) <| clients ::= alter g client_p |>)) as Hgood.
  { apply Hg; [done|]. intros x. unfold places. simpl. by destruct (cl_user x). }
  apply good_still; [done|]. apply quiet_hook1. do 5 right. left. split; [right; by right|].
  eexists client_p, (g (f c)), _. split; [done|]. split; [|simpl; by rewrite Eu].
  simpl. apply lookup_alter_iff. exists (f c). rewrite decide_True by done. split; [|done]. by apply refile_client.
Qed.

Lemma c_nick_good w client_p parv :
  good w → parv_ok parv → live w client_p → wp (c_nick client_p parv) (fun _ => good) w.
Proof.
  intros Hw Hp Hl. unfold c_nick. cbv zeta. apply wp_bind. eapply wp_quiet; [apply quiet_s_assert|]. intros [] w1 Hs1.
  pose proof (good_same _ _ Hs1 Hw) as Hw1. unfold live in Hl. rewrite <- (si_ids _ _ (same_net_index _ _ Hs1)) in Hl.
  destruct (_ =? 8)%nat eqn:E8; bool_len; [by apply nick_introduce_good|].
  destruct (_ =? 2)%nat eqn:E2; bool_len; [by apply nick_change_good|by apply wp_ret].
Qed.
End changes_run.

(** ** Exits *)
Section exits.
Context `{SYS : Sys} `{RB : !RbSpec} `{HK : !HooksOk}.

Lemma good_exit_kind w p k split :
  good w → filed_kind (ids w) k true p → k = KUser ∨ k = KServer → wp (exit_client p split) (fun _ => good) w.
Proof. intros Hw (i & Ei & <- & Hn) Hk. by eapply good_exit. Qed.

Lemma live_kind w p : net_inv w → live w p →
  ∃ c, clients w !! p = Some c ∧ kind_of c ≠ KOther ∧ filed_kind (ids w) (kind_of c) true p.
Proof.
  intros Hw (i & Ei & Hn). destruct (tab_ident _ (ni_tables _ Hw) p i Ei) as [Hk _].
  pose proof Ei as (c & Ec & <-)%ids_client. exists c. split_and!; [done|done|]. by eexists.
Qed.

Lemma c_quit_good w client_p parv : good w → live w client_p → wp (c_quit client_p parv) (fun _ => good) w.
Proof.
  intros Hw Hl. destruct (live_kind w client_p (proj1 Hw) Hl) as (c & Ec & Hko & Hk). unfold c_quit.
  apply wp_bind, wp_IsUser; [by exists c|]. intros usr Hu. destruct usr; cbn [negb].
  - destruct (Hu eq_refl) as (c' & u & Ec' & Eu). simplify_eq. eapply good_exit_kind; [done|exact Hk|].
    unfold kind_of in *. rewrite Eu in *. left. by destruct (cl_server c), (cl_service c).
  - apply wp_bind. eapply wp_rd; [exact Ec|]. by apply good_mlog.
Qed.

(** Our uplink, if there is one, is a server on the network. *)
Definition uplink_live (w : world) : Prop :=
  ∃ l p, server_p w = Some l ∧ lc_client_p l = Some p ∧ filed_kind (ids w) KServer true p.

Lemma c_squit_good w client_p parv :
  good w → parv_ok parv → uplink_live w → wp (c_squit client_p parv) (fun _ => good) w.
Proof.
  intros Hw Hp (l & p & El & Ep & Hk). unfold c_squit.
  apply wp_bind. apply wp_conseq with (Q := fun a0 w' => w' = w ∧ ∀ x, a0 = Some x → no_nul x = true).
  { destruct (_ <? _)%nat eqn:E1; bool_len; [by apply wp_ret|]. apply wp_argv; [lia|]. split; [done|].
    intros x E. by eapply parv_lookup. }
  cbn beta. intros a0 w' [-> Ha]. destruct (is_empty a0) eqn:E0.
  - apply wp_bind. apply (wp_gets (fun s => s)). apply wp_bind. eapply wp_need; [exact El|].
    apply wp_bind. eapply wp_need; [exact Ep|]. eapply good_exit_kind; [done|exact Hk|by right].
  - apply is_empty_false in E0 as [name En]. apply wp_bind. eapply wp_need; [exact En|].
    apply wp_bind, wp_find_server; [apply Hw|by apply Ha|]. intros [t|] Ht.
    + eapply good_exit_kind; [done|exact Ht|by right].
    + apply wp_bind. eapply wp_quiet; [apply quiet_hook_call; do 6 right; left; split; [done|by exists name]|].
      intros r w1 Hs. pose proof (good_same _ _ Hs Hw) as Hw1. apply wp_when; intros _; [by apply good_mlog|done].
Qed.

(** A service that is killed comes back. *)
Lemma wp_introduce_service w p c s (Q : unit → world → Prop) :
  clients w !! p = Some c → cl_service c = Some s →
  (∀ w1, same_net w w1 → Q tt (file_client p
     (c <| cl_service ::= fmap (fun s => s <| sr_status ::= fun x => set_flag x SERVICE_INTRODUCED |>) |>)
     (w1 <| clients ::= alter (fun c => c <| cl_service ::= fmap (fun s => s <| sr_status ::= fun x => set_flag x SERVICE_INTRODUCED |>) |>) p |>))) →
  wp (introduce_service p) Q w.
Proof.
  intros Ec Es HQ. unfold introduce_service. apply wp_bind. eapply wp_rd; [exact Ec|].
  apply wp_bind. eapply wp_service_of; [exact Ec|exact Es|].
  apply wp_bind. eapply wp_quiet; [apply quiet_sendto_server|]. intros [] w1 Hs.
  apply wp_bind. eapply wp_upd_service; [by rewrite (sn_clients _ _ Hs)|exact Es|].
  eapply wp_add_client; [|by apply HQ]. simpl. apply lookup_alter_iff. exists c.
  by rewrite (sn_clients _ _ Hs), decide_True.
Qed.

Lemma quiet_tb_line (b : bool) w ch :
  (b = true → is_Some (server_p w)) →
  quiet (when b (tb ← ConnCapTB w;
     when (tb && negb (is_empty (Some (ch_topic ch)))) (sendto_server (tb_line w ch)))) w.
Proof.
  intros Hb. destruct b; [|by apply quiet_ret]. destruct (Hb eq_refl) as [l El]. cbn [when].
  apply quiet_bind.
  - unfold ConnCapTB, quiet. apply wp_bind. eapply wp_need; [exact El|]. by apply wp_ret.
  - intros tb w1 _. destruct (_ && _); [apply quiet_sendto_server|apply quiet_ret].
Qed.

Lemma quiet_introduce_channels w p c s b :
  net_inv w → clients w !! p = Some c → cl_service c = Some s → (b = true → is_Some (server_p w)) →
  quiet (introduce_service_channels p b) w.
Proof.
  intros Hw Ec Es Hb. unfold introduce_service_channels, quiet. apply wp_bind. eapply wp_service_of; [done..|].
  assert (∀ w', same_net w w' → service_channels_of p w' = sr_channels s) as Hl.
  { intros w' Hs. unfold service_channels_of. by rewrite (sn_clients _ _ Hs), Ec; simpl; rewrite Es. }
  destruct (serv_channels _ (inv_servs _ (ni_chan _ Hw)) p c s Ec Es) as [Hnd Hch].
  apply (wp_foreach_stable _ _ (fun _ _ w' => same_net w w')).
  - by rewrite Hl.
  - done.
  - intros pre x q w' El Hnd' Hs. assert (is_Some (channels w' !! x)) as [ch Ech].
    { rewrite Hl in El by done. rewrite (sn_channels _ _ Hs).
      destruct (proj1 (Hch x)) as (ch & E & _); [rewrite El; set_solver|by exists ch]. }
    apply wp_bind. eapply wp_quiet; [apply quiet_send_sjoin|].
    { exists c. by rewrite (sn_clients _ _ Hs). }
    { by exists ch. }
    intros [] w2 Hs2. apply wp_bind. apply (wp_gets (fun s => s)).
    apply wp_bind. eapply wp_rd; [by rewrite (sn_channels _ _ Hs2)|].
    assert (same_net w w2) as Hs' by (by etrans).
    eapply wp_conseq; [apply (quiet_tb_line b w2 ch)|].
    { intros Ht. destruct (Hb Ht) as [lc Elc]. pose proof (sn_uplink _ _ Hs') as Hu. rewrite Elc in Hu.
      destruct (server_p w2); [by eexists|done]. }
    intros [] w3 Hs3. assert (same_net w w3) as Hs'' by (by etrans). split; [|done].
    by rewrite (Hl w3 Hs''), <- (Hl w' Hs).
  - done.
Qed.

Lemma quiet_kill_line w target_p client_p :
  is_Some (clients w !! target_p) → is_Some (clients w !! client_p) →
  (∀ c u, clients w !! client_p = Some c → cl_user c = Some u → is_Some (clients w !! us_servername u)) →
  quiet (kill_line target_p client_p) w.
Proof.
  intros [t Et] [c Ec] Hs. unfold kill_line, quiet. apply wp_bind. eapply wp_rd; [exact Et|].
  apply wp_bind. eapply wp_rd; [exact Ec|]. destruct (cl_user c) as [u|] eqn:Eu; [|apply quiet_mlog].
  destruct (Hs c u Ec Eu) as [sv Esv]. apply wp_bind. eapply wp_rd; [exact Esv|]. apply quiet_mlog.
Qed.

Lemma quiet_kill_count w : quiet kill_count w.
Proof.
  unfold kill_count. apply quiet_bind; [apply quiet_get|]. intros w0 w1 _. apply quiet_bind.
  - destruct (_ <? _); [by apply quiet_modify|]. destruct (_ <? _); [apply quiet_die|apply quiet_ret].
  - intros [] w2 _. by apply quiet_modify.
Qed.

Lemma alter_same p w : w <| clients ::= alter (fun c => c) p |> = w.
Proof. destruct w. unfold field_upd. simpl. f_equal. by apply alter_id. Qed.

Definition introduced (c : client) : client :=
  c <| cl_service ::= fmap (fun s => s <| sr_status ::= fun x => set_flag x SERVICE_INTRODUCED |>) |>.

(** A service is taken out of the tables and introduced again. *)
Lemma wp_revive_service w p c s (Q : unit → world → Prop) :
  good w → clients w !! p = Some c → cl_service c = Some s → on_net c = true →
  (∀ w', good w' → same_net (refile p c introduced w) w' → Q tt w') →
  wp (_ ← del_client p; _ ← introduce_service p; introduce_service_channels p false) Q w.
Proof.
  intros Hw Ec Es Hn HQ. apply wp_bind. eapply wp_del_client; [exact Ec|]. set (f := introduced).
  assert (clients (unfile_client p c w) !! p = Some c) as Ec'.
  { unfold unfile_client. by destruct (is_empty _). }
  apply wp_bind. eapply wp_introduce_service; [exact Ec'|exact Es|]. intros w1 Hs. fold (introduced c). fold introduced. fold f.
  apply same_net_refile with (f := f) in Hs. set (w2 := file_client _ _ _) in *. clearbody w2.
  assert (good (refile p c f w)) as Hg.
  { assert (no_nul (cl_name c) = true) as Hnul.
    { apply (tab_ident _ (ni_tables _ (proj1 Hw)) p _ (ids_of _ _ _ Ec)). }
    pose proof (good_refile p c f (cl_name c) (fun c => c) w Hw Ec Hn Hnul eq_refl eq_refl) as Hg.
    rewrite alter_same in Hg. apply Hg; [|by intros x; unfold places, f; simpl; destruct (cl_service x)|done].
    unfold ident_of, named, f, kind_of, on_net. simpl. rewrite Es. simpl. unfold on_net in Hn. rewrite Es in Hn.
    by rewrite has_flag_set_same, Hn. }
  apply good_same with (2 := Hg) in Hs as Hg2.
  eapply wp_quiet.
  - eapply (quiet_introduce_channels _ _ (f c)); [apply Hg2| |by simpl; rewrite Es|done].
    rewrite (sn_clients _ _ Hs). by apply refile_client.
  - intros [] w3 Hs3. apply HQ; [by eapply good_same|by etrans].
Qed.
End exits.

Section kill.
Context `{SYS : Sys} `{RB : !RbSpec} `{HK : !HooksOk}.

(** The server that a user on the network names is there. *)
Lemma live_servername w p c u :
  net_inv w → live w p → clients w !! p = Some c → cl_user c = Some u → is_Some (clients w !! us_servername u).
Proof.
  intros Hw (i & (c' & Ec' & <-)%ids_client & Hn) Ec Eu. assert (c' = c) as -> by congruence. clear Ec'. pose proof (ids_of _ _ _ Ec) as Ei.
  destruct (live_kind w p Hw) as (c' & Ec' & Hko & _); [by exists (ident_of c)|]. assert (c' = c) as -> by congruence. clear Ec'.
  assert (kind_of c = KUser) as Hk.
  { unfold kind_of in *. rewrite Eu in *. by destruct (cl_server c), (cl_service c). }
  pose proof (tree_home _ (ni_tree _ Hw) p _ Ei Hn Hk) as Hh. simpl in Hh. rewrite Eu in Hh. simpl in Hh.
  destruct (tree_uplink _ (ni_tree _ Hw) p _ (us_servername u) Ei Hn) as (j & (cs & E & _)%ids_client & _); [done|].
  by exists cs.
Qed.

Lemma c_kill_good w client_p parv :
  good w → parv_ok parv → live w client_p → wp (c_kill client_p parv) (fun _ => good) w.
Proof.
  intros Hw Hp Hl. unfold c_kill. destruct (_ <? _)%nat eqn:E1; bool_len; [by apply wp_ret|].
  apply wp_bind, wp_argv; [lia|]. destruct (is_empty _) eqn:E2; [by apply wp_ret|].
  apply is_empty_false in E2 as [name En]. apply wp_bind. eapply wp_need; [exact En|].
  destruct (find_client_ok w name (ni_tables _ (proj1 Hw))) as (t & Et & Ht); [by eapply parv_lookup|].
  apply wp_bind. apply (wp_ok _ _ _ _ _ Et). destruct t as [target_p|]; [|by apply wp_ret].
  apply found_client_live in Ht. destruct (live_kind w target_p (proj1 Hw) Ht) as (c & Ec & Hko & Hk).
  apply wp_bind. eapply wp_rd; [exact Ec|].
  case_bool_decide as Hsv; [by apply good_mlog|]. case_bool_decide as Hsr.
  - destruct Hsr as [s Es]. assert (kind_of c = KService) as Hks.
    { unfold kind_of in *. rewrite Es in *. destruct (cl_user c), (cl_server c); try done. }
    assert (on_net c = true) as Hn.
    { destruct Hk as (i & Ei & _ & Hn). rewrite (ids_of _ _ _ Ec) in Ei. by injection Ei as <-. }
    destruct (live_kind w client_p (proj1 Hw) Hl) as (cc & Ecc & _ & _).
    apply wp_bind. eapply wp_quiet; [apply quiet_kill_line; [by exists c|by exists cc|]|].
    { intros c' u' Ec' Eu'. exact (live_servername w client_p c' u' (proj1 Hw) Hl Ec' Eu'). }
    intros [] w1 Hs1. apply wp_bind. eapply wp_quiet; [apply quiet_kill_count|]. intros [] w2 Hs2.
    assert (same_net w w2) as Hs by (by etrans).
    eapply wp_revive_service; [by eapply good_same|by rewrite (sn_clients _ _ Hs)|exact Es|done|done].
  - eapply good_exit_kind; [done|exact Hk|]. left. unfold kind_of in *.
    destruct (cl_user c), (cl_server c), (cl_service c); try done; [by destruct Hsv|by destruct Hsr].
Qed.
End kill.
