(* ===== verification/Replies.v ===== *)
(** * Queries and commands of the link keep the network sound

    The handlers of [Queries] end without a memory fault in a state that satisfies
    the invariant of the network.  ADMIN, PING, TRACE, VERSION, TIME and WHOIS only
    send; PONG ends the burst of a server and clears the operators stored for it.
    WHOIS has to name a client that is there: [whois_unknown_faults]. *)

From S2P Require Import Prelude CString Match Rblib Tools Fault World Lookup Channel Service Client Scommand Queries Net Members Index Handlers Joins Clients Exits Commands.

Section replies.
Context `{SYS : Sys} `{RB : !RbSpec} `{HK : !HooksOk}.

(** ** Lines to a user *)
Lemma quiet_numeric w num p rest : is_Some (clients w !! p) → quiet (numeric num p rest) w.
Proof.
  intros [c Ec]. unfold numeric, quiet. apply wp_bind. apply (wp_gets (fun s => s)).
  apply wp_bind. eapply wp_rd; [exact Ec|]. apply quiet_sendto_server.
Qed.

Lemma quiet_admin_line w num p line : is_Some (clients w !! p) → quiet (admin_line num p line) w.
Proof.
  intros Hp. destruct line; [|apply quiet_ret]. apply quiet_when. intros _. by apply quiet_numeric.
Qed.

(** What was there is there after a line was sent. *)
Lemma there_same w w' p : same_net w w' → is_Some (clients w !! p) → is_Some (clients w' !! p).
Proof. intros Hs. by rewrite (sn_clients _ _ Hs). Qed.

Lemma wp_no_argument w parv (Q : bool → world → Prop) : (∀ b, Q b w) → wp (no_argument parv) Q w.
Proof.
  intros HQ. unfold no_argument. destruct (_ <? _)%nat; [apply wp_ret, HQ|].
  apply wp_bind, wp_argv; [lia|]. apply wp_ret, HQ.
Qed.

(** The guard of most handlers: an argument, and a user who asks. *)
Lemma wp_asked w p parv (k : M world unit) :
  good w → is_Some (clients w !! p) → wp k (fun _ => good) w →
  wp (e ← no_argument parv; if (e : bool) then mret tt else
      u ← IsUser p; if negb u then mret tt else k) (fun _ => good) w.
Proof.
  intros Hw Hp Hk. apply wp_bind, wp_no_argument. intros []; [by apply wp_ret|].
  apply wp_bind, wp_IsUser; [done|]. intros [] _; [done|by apply wp_ret].
Qed.

Lemma c_admin_good w p parv : good w → is_Some (clients w !! p) → wp (c_admin p parv) (fun _ => good) w.
Proof.
  intros Hw Hp. apply wp_asked; [done..|]. apply good_still; [done|].
  apply quiet_bind; [apply quiet_gets|]. intros cf w1 Hs1. pose proof (there_same _ _ _ Hs1 Hp) as H1.
  apply quiet_bind; [by apply quiet_numeric|]. intros _ w2 Hs2. pose proof (there_same _ _ _ Hs2 H1) as H2.
  apply quiet_bind; [by apply quiet_admin_line|]. intros _ w3 Hs3. pose proof (there_same _ _ _ Hs3 H2) as H3.
  apply quiet_bind; [by apply quiet_admin_line|]. intros _ w4 Hs4.
  apply quiet_admin_line. by eapply there_same.
Qed.

Lemma c_version_good w p parv : good w → is_Some (clients w !! p) → wp (c_version p parv) (fun _ => good) w.
Proof.
  intros Hw Hp. unfold c_version. apply wp_bind, wp_no_argument. intros []; [by apply wp_ret|].
  apply wp_bind, wp_IsUser; [done|]. intros u _. apply good_still; [done|].
  apply quiet_bind; [apply quiet_gets|]. intros cf w1 Hs. apply quiet_when. intros _.
  apply quiet_numeric. by eapply there_same.
Qed.

Lemma c_time_good w p parv : good w → is_Some (clients w !! p) → wp (c_time p parv) (fun _ => good) w.
Proof.
  intros Hw Hp. unfold c_time. apply wp_bind, wp_no_argument. intros []; [by apply wp_ret|].
  apply wp_bind, wp_IsUser; [done|]. intros u _. apply good_still; [done|].
  apply quiet_bind; [apply quiet_gets|]. intros now w1 Hs. apply quiet_when. intros _.
  apply quiet_numeric. by eapply there_same.
Qed.

Lemma c_ping_good w p parv : good w → is_Some (clients w !! p) → wp (c_ping p parv) (fun _ => good) w.
Proof.
  intros Hw [c Ec]. unfold c_ping. apply wp_bind, wp_no_argument. intros []; [by apply wp_ret|].
  apply wp_bind. apply (wp_gets (fun s => s)). apply wp_bind. eapply wp_rd; [exact Ec|].
  apply good_still; [done|]. apply quiet_sendto_server.
Qed.

(** The uplink stays as long as nothing but lines happen. *)
Lemma server_same w w' : same_net w w' → is_Some (server_p w) → is_Some (server_p w').
Proof.
  intros Hs [l El]. pose proof (sn_uplink _ _ Hs) as E. rewrite El in E. simpl in E. by destruct (server_p w').
Qed.

Lemma quiet_trace_line w s p :
  (∃ c sr, clients w !! s = Some c ∧ cl_service c = Some sr) → is_Some (clients w !! p) → quiet (trace_line s p) w.
Proof.
  intros (c & sr & Ec & Es) Hp. unfold trace_line, quiet. apply wp_bind. eapply wp_service_of; [done..|].
  destruct (has_flag _ _); [apply quiet_ret|]. apply wp_bind. eapply wp_rd; [exact Ec|]. by apply quiet_numeric.
Qed.

Lemma listed_service w s : net_inv w → s ∈ service_list w → ∃ c sr, clients w !! s = Some c ∧ cl_service c = Some sr.
Proof.
  intros Hw Hs. apply (tab_services _ (ni_tables _ Hw)) in Hs as (i & Ei & Hk). apply (kind_service w s (id_net i)).
  by exists i.
Qed.

Lemma quiet_trace_services w p :
  net_inv w → is_Some (clients w !! p) → quiet (foreach service_list (fun s => trace_line s p)) w.
Proof.
  intros Hw Hp. apply (wp_foreach_stable _ _ (fun _ _ w' => same_net w w')).
  - apply (tab_services _ (ni_tables _ Hw)).
  - done.
  - intros pre x q w' El _ Hs. eapply wp_conseq.
    + apply quiet_trace_line; [|by eapply there_same]. apply listed_service; [by eapply net_inv_same|].
      rewrite El. set_solver.
    + cbn beta. intros _ w2 Hs2. split; [by rewrite (sn_service_list _ _ Hs2)|by etrans].
  - done.
Qed.

Lemma c_trace_good w p parv :
  good w → is_Some (clients w !! p) → is_Some (server_p w) → wp (c_trace p parv) (fun _ => good) w.
Proof.
  intros Hw Hp Hl. apply wp_asked; [done..|]. apply good_still; [done|].
  apply quiet_bind; [apply quiet_trace_services; [apply Hw|done]|]. intros _ w1 Hs1.
  unfold quiet. apply wp_bind. apply (wp_gets (fun s => s)).
  destruct (server_same _ _ Hs1 Hl) as [l El]. apply wp_bind. eapply wp_need; [exact El|].
  pose proof (there_same _ _ _ Hs1 Hp) as H1.
  apply quiet_bind; [by apply quiet_numeric|]. intros _ w2 Hs2. apply quiet_numeric. by eapply there_same.
Qed.

(** ** WHOIS *)
Lemma whois_user_good w p t c u :
  net_inv w → live w t → is_Some (clients w !! p) → clients w !! t = Some c → cl_user c = Some u →
  cl_server c = None → quiet (whois_user p t c u) w.
Proof.
  intros Hw Ht Hp Ec Eu Es. destruct (live_servername w t c u Hw Ht Ec Eu) as [home Eh].
  destruct Ht as (i & Ei & Hn). rewrite (ids_of _ _ _ Ec) in Ei. injection Ei as <-. pose proof (ids_of _ _ _ Ec) as Ei.
  assert (id_kind (ident_of c) = KUser) as Hk.
  { destruct (tab_ident _ (ni_tables _ Hw) t _ Ei) as [Hko _]. simpl in *. unfold kind_of in *.
    rewrite Eu, Es in *. by destruct (cl_service c). }
  destruct (tree_user _ (ni_tree _ Hw) t _ Ei Hn Hk) as [up Eup]. simpl in Eup.
  destruct (tree_uplink _ (ni_tree _ Hw) t _ up Ei Hn Eup) as (j & (cu & Ecu & _)%ids_client & _).
  unfold whois_user. apply quiet_bind; [by apply quiet_numeric|]. intros _ w1 Hs1.
  pose proof (there_same _ _ _ Hs1 Hp) as H1. unfold quiet.
  apply wp_bind. eapply wp_rd; [by rewrite (sn_clients _ _ Hs1)|]. apply wp_bind. eapply wp_need; [exact Eup|].
  apply wp_bind. eapply wp_rd; [by rewrite (sn_clients _ _ Hs1)|].
  apply quiet_bind; [by apply quiet_numeric|]. intros _ w2 Hs2. pose proof (there_same _ _ _ Hs2 H1) as H2.
  apply quiet_bind; [apply quiet_when; intros _; by apply quiet_numeric|]. intros _ w3 Hs3.
  destruct (us_user_reg u) as [r|] eqn:Er; [|apply quiet_ret]. destruct ENABLE_USERSERV; [|apply quiet_ret].
  destruct (acc_reg _ (ni_accounts _ Hw) t _ r Ei Hn) as [reg Ereg]; [simpl; by rewrite Eu|].
  unfold quiet. apply wp_bind. eapply wp_rd.
  { by rewrite (sn_user_regs _ _ Hs3), (sn_user_regs _ _ Hs2), (sn_user_regs _ _ Hs1). }
  apply quiet_numeric. by eapply there_same.
Qed.

Lemma whois_service_good w p c s :
  is_Some (clients w !! p) → cl_service c = Some s → quiet (whois_service p c) w.
Proof.
  intros Hp Es. unfold whois_service, quiet. apply wp_bind. eapply wp_need; [exact Es|].
  apply wp_bind, wp_gets. apply quiet_bind; [by apply quiet_numeric|]. intros _ w1 Hs1.
  pose proof (there_same _ _ _ Hs1 Hp) as H1.
  apply quiet_bind; [by apply quiet_numeric|]. intros _ w2 Hs2. apply quiet_when. intros _.
  apply quiet_numeric. by eapply there_same.
Qed.

(** What a WHOIS names is there. *)
Definition whois_target (w : world) (parv : list string) : Prop :=
  ∀ name, parv !! 1%nat = Some name → name ≠ ""%string → ¬ found_client w name None.

Lemma c_whois_good w p parv :
  good w → parv_ok parv → is_Some (clients w !! p) → whois_target w parv → wp (c_whois p parv) (fun _ => good) w.
Proof.
  intros Hw Hp Hc Ht. unfold c_whois. destruct (_ <? _)%nat eqn:E1; bool_len; [by apply wp_ret|].
  apply wp_bind, wp_argv; [lia|]. destruct (is_empty _) eqn:E2; [by apply wp_ret|].
  pose proof E2 as E3. apply is_empty_false in E2 as [name En]. rewrite En in E3.
  apply wp_bind, wp_IsUser; [done|]. intros [] _; cbn [negb]; [|by apply wp_ret].
  apply wp_bind. eapply wp_need; [exact En|].
  destruct (find_client_ok w name (ni_tables _ (proj1 Hw))) as (r & Er & Hr); [by eapply parv_lookup|].
  apply wp_bind. apply (wp_ok _ _ _ _ _ Er).
  destruct r as [t|]; [|destruct (Ht name En); [by intros ->|done]].
  apply found_client_live in Hr. destruct (live_kind w t (proj1 Hw) Hr) as (c & Ec & Hko & _).
  apply wp_bind, wp_bind. eapply wp_rd; [exact Ec|].
  assert (quiet (match cl_server c, cl_user c with
    | Some _, _ => numeric "401" p (name ++ " :No such nick/channel")
    | None, Some u => whois_user p t c u
    | None, None => whois_service p c end) w) as Hq.
  { destruct (cl_server c) eqn:Es; [by apply quiet_numeric|]. destruct (cl_user c) as [u|] eqn:Eu.
    - eapply whois_user_good; [apply Hw|done..].
    - unfold kind_of in Hko. rewrite Es, Eu in Hko. destruct (cl_service c) eqn:Esv; [|done].
      by eapply whois_service_good. }
  eapply wp_quiet; [exact Hq|]. intros _ w1 Hs1. apply wp_bind. eapply wp_need; [done|].
  apply wp_bind. eapply wp_rd; [by rewrite (sn_clients _ _ Hs1)|].
  apply good_still; [by eapply good_same|]. apply quiet_numeric. by eapply there_same.
Qed.

Lemma find_nobody w name :
  net_inv w → no_nul name = true →
  (∀ q c, clients w !! q = Some c → on_net c = true → irccmp (cl_name c) name ≠ 0 ∧ irccmp (cl_uid c) name ≠ 0) →
  find_client name w = Ok None w.
Proof.
  intros Hw Hn Hnone. destruct (find_client_ok w name (ni_tables _ Hw) Hn) as (r & E & Hr). rewrite E.
  destruct r as [t|]; [|done]. exfalso. unfold found_client, found in Hr.
  assert (∀ f, (∃ i, ids w !! t = Some i ∧ id_net i = true ∧ irccmp (f i) name = 0) → f = id_name ∨ f = id_uid → False) as Hno.
  { intros f (i & (c & Ec & <-)%ids_client & Hi & Hf) Hor. destruct (Hnone t c Ec Hi). by destruct Hor as [-> | ->]. }
  destruct (IsDigit _); [destruct Hr as [Hr|[_ Hr]]|]; (eapply Hno; [exact Hr|]); auto.
Qed.

Lemma sends w line : ∃ w', sendto_server line w = Ok tt w'.
Proof.
  unfold sendto_server. erewrite bind_ok by done. destruct (server_p w); [|by eexists].
  destruct (ConnDead _); [by eexists|]. do 2 erewrite bind_ok by done. destruct (negb _); by eexists.
Qed.

Lemma whois_nobody w p c u parv name :
  clients w !! p = Some c → cl_user c = Some u → parv !! 1%nat = Some name → name ≠ ""%string →
  no_nul name = true → find_client name w = Ok None w → c_whois p parv w = Fault NullDeref.
Proof.
  intros Ec Eu En Hne Hnul Hf. unfold c_whois. pose proof (lookup_lt_Some _ _ _ En) as Hlen.
  rewrite (proj2 (Nat.ltb_ge _ _)) by lia.
  unfold argv. rewrite (proj2 (Nat.ltb_lt _ _)) by lia. erewrite bind_ok by done. rewrite En.
  destruct (is_empty (Some name)) eqn:E; [by apply is_empty_Some in E|].
  assert (rd clients p w = Ok c w) as Hrd by (unfold rd; erewrite bind_ok by done; by rewrite Ec).
  erewrite bind_ok; [|unfold IsUser; erewrite bind_ok by exact Hrd; done].
  rewrite bool_decide_true by (by eexists). cbn [negb]. erewrite bind_ok by done. erewrite bind_ok by exact Hf.
  destruct (sends w (":" ++ MYUID w ++ " " ++ "401" ++ " " ++ UID c ++ " " ++ name ++ " :No such nick/channel")) as [w' Hw'].
  erewrite bind_ok; [done|]. unfold numeric. erewrite bind_ok by done. erewrite bind_ok by exact Hrd. exact Hw'.
Qed.
End replies.

(** ** PONG *)
Section pong.
Context `{SYS : Sys} `{RB : !RbSpec} `{HK : !HooksOk}.

(** The entries that are left, and the block of the one that goes. *)
Definition with_entries (es : list client_oper) (w : world) : world := w <| client_oper_list := es |>.

Lemma block_uses_entry w pre e rest o :
  block_uses (with_entries (pre ++ e :: rest) w) o =
  (block_uses (with_entries (pre ++ rest) w) o + if decide (co_oper e = o) then 1 else 0)%nat.
Proof.
  unfold block_uses. set (users := length (filter _ (user_list _))).
  change (length (filter _ (user_list (with_entries (pre ++ rest) w)))) with users.
  simpl. rewrite !filter_app, !length_app, filter_cons. destruct (decide (co_oper e = o)); simpl; lia.
Qed.

Lemma used_block_kept w pre e rest o :
  accounts_ok (with_entries (pre ++ e :: rest) w) → is_Some (conf_opers w !! o) →
  (0 < block_uses (with_entries (pre ++ rest) w) o)%nat → is_Some (drop_ref (co_oper e) (conf_opers w) !! o).
Proof.
  intros Ha [b Eb] Hu. destruct (drop_ref_kept (co_oper e) (conf_opers w) o b Eb) as [?|[Ho Hz]]; [done|].
  pose proof (acc_count _ Ha o b Eb) as Hc. rewrite block_uses_entry, decide_True in Hc by done. lia.
Qed.

(** A user with a block, and an entry, count as a use. *)
Lemma user_uses w p i o :
  tables_ok w → ids w !! p = Some i → id_net i = true → id_oper i = Some o → (0 < block_uses w o)%nat.
Proof.
  intros Ht Ei Hn Ho. assert (p ∈ user_list w) as Hp.
  { apply (tab_users _ Ht). exists i. split_and!; [done| |done]. by eapply oper_user; [..|eexists]. }
  unfold block_uses. assert (p ∈ filter (fun p => uses_block (ids w) o p = true) (user_list w)) as Hin.
  { apply list_elem_of_filter. split; [|done]. unfold uses_block. rewrite Ei. by apply bool_decide_eq_true. }
  destruct (filter _ (user_list w)); [by apply elem_of_nil in Hin|]. simpl. lia.
Qed.

Lemma entry_uses w e : e ∈ client_oper_list w → (0 < block_uses w (co_oper e))%nat.
Proof.
  intros He. unfold block_uses. assert (e ∈ filter (fun e' => co_oper e' = co_oper e) (client_oper_list w)) as Hin
    by (by apply list_elem_of_filter).
  destruct (filter _ (client_oper_list w)); [by apply elem_of_nil in Hin|]. simpl. lia.
Qed.

Lemma accounts_drop_entry w pre e rest :
  tables_ok w → accounts_ok (with_entries (pre ++ e :: rest) w) →
  accounts_ok (with_entries (pre ++ rest) (w <| conf_opers ::= drop_ref (co_oper e) |>)).
Proof.
  intros Ht Ha. assert (tables_ok (with_entries (pre ++ rest) w)) as Ht' by (destruct Ht; by split). split.
  - apply (acc_reg _ Ha).
  - apply (acc_opers _ Ha).
  - intros p i o Ei Hn Ho. apply (used_block_kept w pre e rest); [done|by apply (acc_block _ Ha p i)|].
    by apply (user_uses _ p i).
  - intros e' He'. apply (used_block_kept w pre e rest); [done| |by apply entry_uses].
    apply (acc_entry _ Ha). simpl in *. set_solver.
  - intros o b' (b & Eb & ->)%drop_ref_blocks. pose proof (acc_count _ Ha o b Eb) as Hc.
    rewrite block_uses_entry in Hc. change (block_uses _ o) with (block_uses (with_entries (pre ++ rest) w) o).
    destruct (decide _); lia.
Qed.

(** Whoever the entries belong to, the rest of the network does not look at them. *)
Lemma net_inv_drop_entry w pre e rest :
  net_inv (with_entries (pre ++ e :: rest) w) →
  net_inv (with_entries (pre ++ rest) (w <| conf_opers ::= drop_ref (co_oper e) |>)).
Proof.
  intros [Hc Ht Htr Ha Hal]. assert (tables_ok w) as Ht0 by (destruct Ht; by split).
  split; [|by destruct Ht; split|by destruct Htr; split|by apply accounts_drop_entry|exact Hal].
  eapply chan_inv_places; [exact Hc|]. split; eauto.
Qed.

Lemma wp_clear_entries sid l : ∀ pre w (Q : list client_oper → world → Prop),
  net_inv (with_entries (pre ++ l) w) →
  (∀ es w', net_inv (with_entries (pre ++ es) w') → mode_lists w' = mode_lists w → Q es w') →
  wp (clear_entries sid l) Q w.
Proof.
  induction l as [|e l IH]; intros pre w Q Hw HQ; simpl.
  { by apply wp_ret, HQ. }
  destruct (_ =? 0).
  - apply wp_bind. apply wp_deallocate.
    { apply (acc_entry _ (ni_accounts _ Hw)). simpl. set_solver. }
    apply (IH pre); [by apply net_inv_drop_entry|]. intros es w' Hw' Hl. by apply HQ.
  - apply wp_bind. apply (IH (pre ++ [e])); [by rewrite <- app_assoc|]. intros es w' Hw' Hl.
    apply wp_ret, HQ; [|done]. by rewrite <- app_assoc in Hw'.
Qed.

Lemma clear_client_oper_sid_good w p :
  good w → is_Some (clients w !! p) → wp (clear_client_oper_sid p) (fun _ => good) w.
Proof.
  intros [Hw Hi] [c Ec]. unfold clear_client_oper_sid. apply wp_bind. eapply wp_rd; [exact Ec|].
  apply wp_bind, wp_gets, wp_bind. apply (wp_clear_entries _ _ []).
  { destruct w. exact Hw. }
  intros es w' Hw' Hl. apply wp_modify. split; [exact Hw'|]. by apply (idle_lists w).
Qed.

(** The hooks at the end of a burst. *)
Lemma wp_eob_run h a fs : ∀ w l,
  good w → eob_call w h a → (∀ f, f ∈ fs → f ∈ bucket (hooks w) h) →
  wp (hook_run fs a l) (fun _ w' => good w' ∧ kinds_kept w w') w.
Proof.
  induction fs as [|f fs IH]; intros w l [Hw Hi] Ha Hfs.
  { apply wp_ret. split; [done|]. intros p i Ei. by exists i. }
  cbn [hook_run]. apply wp_bind. eapply wp_conseq.
  { apply (hooks_eob w h); [done..|]. apply Hfs. by left. }
  cbn beta. intros [r l1] w1 (Hn & Hi1 & Hh & Hk). cbn [fst snd]. destruct (r <? 0); [by apply wp_ret|].
  eapply wp_conseq; [apply IH|].
  - done.
  - destruct Ha as [Ha|[(-> & p & c & sv & -> & Ec & Esv)|(-> & p & i & -> & Ei & Hki)]]; [by left| |].
    2: { right; right. split; [done|]. destruct (Hk p i Ei) as (i' & Ei' & Hi'). exists p, i'. split_and!; [done..|congruence]. }
    right; left. split; [done|].
    destruct (Hk p _ (ids_of _ _ _ Ec)) as (i' & (c' & Ec' & <-)%ids_client & Hki). simpl in Hki.
    destruct (tab_ident _ (ni_tables _ Hn) p _ (ids_of _ _ _ Ec')) as [Hko _]. simpl in Hko.
    assert (kind_of c' = KServer) as Hks.
    { rewrite Hki in *. unfold kind_of in *. rewrite Esv in *. by destruct (cl_user c), (cl_service c). }
    apply kind_server_parts in Hks as ([sv' Esv'] & _). by exists p, c', sv'.
  - intros g Hg. rewrite Hh. apply Hfs. by right.
  - cbn beta. intros _ w2 [Hw2 Hk2]. split; [done|]. intros p i (i1 & E1 & H1)%Hk. apply Hk2 in E1 as (i2 & E2 & H2).
    exists i2. split; congruence.
Qed.

Lemma wp_eob_hook_call w h a l (Q : unit → world → Prop) :
  good w → eob_call w h a → (∀ w', good w' → kinds_kept w w' → Q tt w') → wp (_ ← hook_call h a l; mret tt) Q w.
Proof.
  intros Hw Ha HQ. unfold hook_call. apply wp_bind. destruct (HOOK_LAST_HOOK <=? h).
  { apply wp_ret, wp_ret, HQ; [done|]. intros p i Ei. by exists i. }
  apply wp_bind. apply (wp_gets (fun s => s)). eapply wp_conseq; [by apply (wp_eob_run h)|].
  cbn beta. intros _ w' [Hw' Hk]. by apply wp_ret, HQ.
Qed.

Lemma wp_eob_hook w h a (Q : unit → world → Prop) :
  good w → eob_call w h a → (∀ w', good w' → kinds_kept w w' → Q tt w') → wp (hook h a) Q w.
Proof. apply wp_eob_hook_call. Qed.

Lemma kept_server w w' p c sv :
  net_inv w' → kinds_kept w w' → kind_of c = KServer → clients w !! p = Some c → cl_server c = Some sv →
  ∃ c' sv', clients w' !! p = Some c' ∧ kind_of c' = KServer ∧ cl_server c' = Some sv'.
Proof.
  intros Hw Hk Hkc Ec Es. destruct (Hk p _ (ids_of _ _ _ Ec)) as (i' & (c' & Ec' & <-)%ids_client & Hki).
  simpl in Hki. rewrite Hkc in Hki. pose proof (kind_server_parts c' Hki) as ([sv' E'] & _). by exists c', sv'.
Qed.

(** The flag that says that a server has sent its burst. *)
Definition set_eob (c : client) : client := c <| cl_flags ::= fun f => set_flag f FLAGS_EOB |>.

(** Flags that do not say whether a client is on the network. *)
Lemma good_client_flag w p flag : Z.land flag FLAGS_DEAD = 0 → good w →
  good (w <| clients ::= alter (fun c => c <| cl_flags ::= fun f => set_flag f flag |>) p |>).
Proof.
  intros Hf [Hw Hi]. split; [|exact Hi]. apply (net_inv_index w); [| |by apply members_from_eq|done].
  - eapply chan_inv_places; [apply Hw|]. by apply places_alter.
  - split; try done. unfold ids. simpl. apply ids_alter. intros c. unfold ident_of. f_equal.
    unfold on_net. simpl. by rewrite has_flag_set_other by (by rewrite Z.land_comm).
Qed.

Lemma good_set_eob w p : good w → good (w <| clients ::= alter set_eob p |>).
Proof. by apply good_client_flag. Qed.

Lemma c_pong_good w p parv :
  good w → live w p → is_Some (server_p w) → wp (c_pong p parv) (fun _ => good) w.
Proof.
  intros Hw Hp [l El]. destruct (live_kind w p (proj1 Hw) Hp) as (c & Ec & Hko & _).
  unfold c_pong. apply wp_bind, wp_no_argument. intros []; [by apply wp_ret|].
  apply wp_bind. unfold IsServer. apply wp_bind. eapply wp_rd; [exact Ec|]. apply wp_ret.
  case_bool_decide as Hsv; cbn [negb]; [|by apply wp_ret]. destruct Hsv as [sv Esv].
  assert (kind_of c = KServer) as Hk by (unfold kind_of in *; rewrite Esv in *; by destruct (cl_user c), (cl_service c)).
  apply wp_bind. apply (wp_gets (fun s => s)). apply wp_bind.
  apply wp_conseq with (Q := fun _ w' => good w' ∧ kinds_kept w w').
  { apply wp_when; intros _; [|split; [done|]; intros q i Ei; by exists i].
    apply wp_bind. eapply wp_need; [exact El|]. apply wp_bind. eapply wp_quiet; [apply quiet_mlog|]. intros [] w1 Hs1.
    apply wp_bind. unfold upd_server_p. apply wp_bind. apply (wp_gets (fun s => s)).
    destruct (server_same _ _ Hs1 (ex_intro _ l El)) as [l1 El1]. apply wp_bind. eapply wp_need; [exact El1|].
    apply wp_modify. set (w2 := w1 <| server_p := _ |>).
    assert (same_net w w2) as Hs2 by (etrans; [exact Hs1|]; by eapply same_net_link).
    apply wp_eob_hook; [by eapply good_same|by left|]. intros w3 Hw3 Hk3. split; [done|].
    intros q i Ei. apply Hk3. by rewrite (si_ids _ _ (same_net_index _ _ Hs2)). }
  cbn beta. intros _ w1 [Hw1 Hk1]. destruct (kept_server w w1 p c sv) as (c1 & sv1 & Ec1 & Hkc1 & Es1); [apply Hw1|done..|].
  apply wp_bind. eapply wp_rd; [exact Ec1|]. apply wp_when; intros _; [|done].
  apply wp_bind. eapply wp_upd_client; [exact Ec1|]. fold set_eob.
  assert (clients (w1 <| clients ::= alter set_eob p |>) !! p = Some (set_eob c1)) as Ec2.
  { simpl. apply lookup_alter_iff. exists c1. by rewrite decide_True. }
  apply wp_bind. apply wp_eob_hook; [by apply good_set_eob|right; left; split; [done|]; by exists p, (set_eob c1), sv1|].
  intros w3 Hw3 Hk3. destruct (kept_server _ w3 p (set_eob c1) sv1 (proj1 Hw3) Hk3) as (c3 & sv3 & Ec3 & _ & _); [done..|].
  apply clear_client_oper_sid_good; [done|by exists c3].
Qed.
End pong.
