(* ===== verification/Release.v ===== *)
(** * The release of exited clients keeps the network sound

    [cleanup_exited_clients()] of [src/io.c] frees whoever is on the list of exited
    clients.  Nothing on the network refers to them: whatever the tables, the
    channels and the servers' lists hold is on the network, or a service. *)

From S2P Require Import Prelude CString Match Rblib Tools Fault World Lookup Channel Client Link Net Members Index Handlers.

Section release.
Context `{SYS : Sys}.

Definition drop_clients (l : list ptr) (h : gmap ptr client) : gmap ptr client := foldl (fun h p => delete p h) h l.

Lemma lookup_drop_clients l h p : drop_clients l h !! p = if decide (p ∈ l) then None else h !! p.
Proof.
  unfold drop_clients. revert h. induction l as [|q l IH]; intros h; simpl; [done|].
  rewrite IH. destruct (decide (p = q)) as [->|Hne].
  - rewrite lookup_delete_eq. repeat case_decide; set_solver.
  - rewrite lookup_delete_ne by done. repeat case_decide; set_solver.
Qed.

Lemma free_clients_run l w :
  NoDup l → (∀ p, p ∈ l → is_Some (clients w !! p)) →
  free_clients l w = Ok tt (w <| clients ::= drop_clients l |>).
Proof.
  revert w. induction l as [|p l IH]; intros w Hnd Hin; [by destruct w|].
  apply NoDup_cons in Hnd as [Hp Hnd]. destruct (Hin p) as [c Ec]; [by left|]. cbn [free_clients].
  erewrite bind_ok; [|unfold free_client, rd; erewrite bind_ok; [done|]; erewrite bind_ok by done; by rewrite Ec].
  rewrite IH; [by destruct w|done|]. intros q Hq. cbn.
  rewrite lookup_delete_ne by (by intros ->). apply Hin. by right.
Qed.

(** The world that is left. *)
Definition released (w : world) : world := w <| clients ::= drop_clients (exited_list w) |> <| exited_list := [] |>.

Lemma exited_off w p i : tables_ok w → p ∈ exited_list w → ids w !! p = Some i → id_net i = false ∧ id_kind i ≠ KService.
Proof.
  intros Ht Hp Ei. apply (tab_exited w Ht) in Hp as [(j & Ej & Hk & Hn)|(j & Ej & Hk & Hn)]; simplify_eq; by rewrite Hk.
Qed.

Lemma ids_released w p i :
  tables_ok w → ids (released w) !! p = Some i ↔ ids w !! p = Some i ∧ p ∉ exited_list w.
Proof.
  intros Ht. unfold ids, released. cbn. rewrite !lookup_fmap, lookup_drop_clients. case_decide; naive_solver.
Qed.

(** Who is on the network, or a service, stays. *)
Lemma ids_kept w p i :
  tables_ok w → id_net i = true ∨ id_kind i = KService → ids (released w) !! p = Some i ↔ ids w !! p = Some i.
Proof.
  intros Ht Hi. rewrite ids_released by done. split; [tauto|]. intros Ei. split; [done|].
  intros Hp. destruct (exited_off w p i Ht Hp Ei). destruct Hi; congruence.
Qed.

Lemma clients_kept w p c :
  tables_ok w → on_net c = true ∨ kind_of c = KService →
  clients (released w) !! p = Some c ↔ clients w !! p = Some c.
Proof.
  intros Ht Hc. unfold released. cbn. rewrite lookup_drop_clients. case_decide as Hp; [|done]. split; [done|].
  intros Ec. destruct (exited_off w p _ Ht Hp (ids_of _ _ _ Ec)). destruct Hc; simpl in *; congruence.
Qed.

Lemma filed_kept w k p : tables_ok w → filed_kind (ids (released w)) k true p ↔ filed_kind (ids w) k true p.
Proof.
  intros Ht. split; intros (i & Ei & Hk & Hn); exists i; (split; [|done]); apply (ids_kept w p i Ht (or_introl Hn)); done.
Qed.

Lemma service_kind w p c s : tables_ok w → clients w !! p = Some c → cl_service c = Some s → kind_of c = KService.
Proof.
  intros Ht Ec Es. destruct (tab_ident w Ht p _ (ids_of _ _ _ Ec)) as [Hk _]. simpl in Hk. unfold kind_of in *.
  rewrite Es in *. by destruct (cl_user c), (cl_server c).
Qed.

Lemma clients_before w p c : clients (released w) !! p = Some c → clients w !! p = Some c.
Proof. unfold released. cbn. rewrite lookup_drop_clients. by case_decide. Qed.

Lemma released_chan w : net_inv w → chan_inv (released w).
Proof.
  intros Hw. pose proof (ni_tables _ Hw) as Ht. destruct (ni_chan _ Hw) as [Hc Hm Hs]. split.
  - by destruct Hc.
  - destruct Hm as [M1 M2 M3 M4 M5 M6 M7]. split; try done.
    + intros m mb Em. destruct (ni_alive _ Hw m mb Em) as (i & (c & Ec & <-)%ids_client & Hk & Hn).
      destruct (M2 m mb Em) as (c' & u & Ec' & Eu). simplify_eq. exists c, u. split; [|done].
      apply clients_kept; [done|by left|done].
    + intros c cl u Ec%clients_before. by apply M6.
  - destruct Hs as [S1 S2]. split.
    + intros p ch Ech. eapply lists_iff; [|by apply (S1 p ch)]. intros s. cbn beta. split; intros (c & sv & Ec & Es & Hp).
      * exists c, sv. split; [|done]. pose proof (service_kind w s c sv Ht Ec Es). apply clients_kept; [done|by right|done].
      * exists c, sv. split; [by apply clients_before|done].
    + intros s c sv Ec%clients_before. by apply S2.
Qed.

Lemma released_tables w : tables_ok w → tables_ok (released w).
Proof.
  intros Ht. pose proof (ids_kept w) as K. pose proof Ht as [T1 T2 T3 T4 T5 T6 T7]. split.
  - eapply indexed_iff; [|exact T1]. intros p h. unfold filed_name.
    split; intros (i & Ei & Hn & ?); exists i; (split; [by apply (K p i Ht (or_introl Hn))|done]).
  - eapply indexed_iff; [|exact T2]. intros p h. unfold filed_uid.
    split; intros (i & Ei & Hn & ?); exists i; (split; [by apply (K p i Ht (or_introl Hn))|done]).
  - eapply lists_iff; [|exact T3]. intros p. symmetry. by apply filed_kept.
  - eapply lists_iff; [|exact T4]. intros p. symmetry. by apply filed_kept.
  - apply lists_nil. intros p [H|H]; destruct H as (i & Ei & Hk & Hn);
      apply ids_released in Ei as [Ei Hp]; try done; apply Hp, T5; [left|right]; by exists i.
  - eapply lists_iff; [|exact T6]. intros p.
    split; intros (i & Ei & Hk); exists i; (split; [by apply (K p i Ht (or_intror Hk))|done]).
  - intros p i [Ei _]%ids_released; [by eapply T7|done].
Qed.

Lemma released_tree w : tables_ok w → tree_ok w → tree_ok (released w).
Proof.
  intros Ht [R1 R2 R3 R4 R5 R6 (depth & R7)].
  assert (∀ p i, ids (released w) !! p = Some i → ids w !! p = Some i) as Hold by (by intros p i [? _]%ids_released).
  assert (∀ k q p, behind (ids w) k q p ↔ behind (ids (released w)) k q p) as Hb.
  { intros k q p. split; intros (i & Ei & Hk & Hn & Hu); exists i; (split; [by apply (ids_kept w p i Ht (or_introl Hn))|done]). }
  split; eauto.
  - intros p i q Ei Hn Hu. apply filed_kept; eauto.
  - intros q j Ej Hk Hn. eapply lists_iff; [|by eapply R5; eauto]. intros p. apply Hb.
  - intros q j Ej Hk Hn. eapply lists_iff; [|by eapply R6; eauto]. intros p. apply Hb.
Qed.

Lemma released_uses w o : tables_ok w → block_uses (released w) o = block_uses w o.
Proof.
  intros Ht. unfold block_uses. f_equal. f_equal. apply filter_ext_in. intros p Hp.
  change (user_list (released w)) with (user_list w) in Hp. apply (tab_users w Ht) in Hp as (i & Ei & _ & Hn).
  unfold uses_block. by rewrite Ei, (proj2 (ids_kept w p i Ht (or_introl Hn)) Ei).
Qed.

Lemma released_accounts w : tables_ok w → accounts_ok w → accounts_ok (released w).
Proof.
  intros Ht [A1 A2 A3 A4 A5].
  assert (∀ p i, ids (released w) !! p = Some i → ids w !! p = Some i) as Hold by (by intros p i [? _]%ids_released).
  split; eauto.
  - eapply lists_iff; [|exact A2]. intros p.
    split; intros (i & Ei & Hn & ?); exists i; (split; [by apply (ids_kept w p i Ht (or_introl Hn))|done]).
  - intros o b Eb. rewrite released_uses by done. by apply A5.
Qed.

Lemma released_inv w : net_inv w → net_inv (released w).
Proof.
  intros Hw. pose proof (ni_tables _ Hw) as Ht. split.
  - by apply released_chan.
  - by apply released_tables.
  - by apply released_tree; [|apply Hw].
  - by apply released_accounts; [|apply Hw].
  - intros m mb Em. apply filed_kept; [done|]. by apply (ni_alive _ Hw m).
Qed.

Lemma cleanup_run w : net_inv w → cleanup_exited_clients w = Ok tt (released w).
Proof.
  intros Hw. pose proof (tab_exited w (ni_tables _ Hw)) as [Hnd Hl]. unfold cleanup_exited_clients.
  erewrite bind_ok by done. erewrite bind_ok; [done|]. apply free_clients_run; [done|].
  intros p Hp%Hl. destruct Hp as [(i & (c & Ec & _)%ids_client & _)|(i & (c & Ec & _)%ids_client & _)]; by exists c.
Qed.

Lemma cleanup_good w : good w → wp cleanup_exited_clients (fun _ => good) w.
Proof.
  intros [Hw Hi]. apply (wp_ok _ _ _ _ _ (cleanup_run w Hw)). split; [by apply released_inv|exact Hi].
Qed.
End release.
