(* ===== verification/Linkup.v ===== *)
(** * The link comes up and goes down

    What happens to the services when the uplink introduces itself ([c_server()]
    of [src/client.c], from no client) and when the connection is signed off
    ([signoff_server()] of [src/io.c]): they are entered into the tables of
    clients, and taken out of them, one after the other, and the network stays
    sound. *)

From S2P Require Import Prelude CString Match Rblib Tools Fault World Lookup Channel Service Client Net Members Index Handlers Joins Modes Clients Exits Commands.

(** ** A service on and off the network *)
Definition with_net (b : bool) (i : ident) : ident := i <| id_net := b |>.

Section toggled.
Context `{SYS : Sys} `{RB : !RbSpec}.

Record toggled (p : ptr) (i : ident) (b : bool) (w w' : world) : Prop := Toggled {
  tg_ident : ids w !! p = Some i;
  tg_kind : id_kind i = KService;
  tg_account : id_reg i = None ∧ id_oper i = None;
  tg_ids : ids w' = alter (with_net b) p (ids w);
  tg_name : indexed (name_table w') (filed_name (ids w'));
  tg_uid : indexed (uid_table w') (filed_uid (ids w'));
  tg_users : user_list w' = user_list w;
  tg_servers : server_list w' = server_list w;
  tg_exited : exited_list w' = exited_list w;
  tg_services : service_list w' = service_list w;
  tg_regs : user_regs w' = user_regs w;
  tg_blocks : conf_opers w' = conf_opers w;
  tg_opers : oper_list w' = oper_list w;
  tg_entries : client_oper_list w' = client_oper_list w
}.

Section facts.
Context (w w' : world) (p : ptr) (i : ident) (b : bool) (Hr : toggled p i b w w').

Lemma toggled_lookup x j' :
  ids w' !! x = Some j' ↔ ∃ j, ids w !! x = Some j ∧ j' = if decide (p = x) then with_net b j else j.
Proof. rewrite (tg_ids _ _ _ _ _ Hr). rewrite lookup_alter_iff. naive_solver. Qed.

(** Whoever is not a service is as before, and services keep all but their presence. *)
Lemma toggled_other x j : id_kind j ≠ KService → ids w' !! x = Some j ↔ ids w !! x = Some j.
Proof.
  intros Hk. rewrite toggled_lookup. pose proof (tg_ident _ _ _ _ _ Hr) as Ei. pose proof (tg_kind _ _ _ _ _ Hr).
  split; [intros (j0 & E & ->)|intros E; exists j; split; [done|]]; case_decide; subst; simplify_eq; done.
Qed.

Lemma toggled_with (P : ident → Prop) x :
  (∀ j, P j → id_kind j ≠ KService) → with_ident (ids w') P x ↔ with_ident (ids w) P x.
Proof.
  intros HP. unfold with_ident. split; intros (j & E & Hj); exists j; (split; [by apply (toggled_other x j (HP j Hj))|done]).
Qed.

Lemma toggled_kind k net x : k ≠ KService → filed_kind (ids w') k net x ↔ filed_kind (ids w) k net x.
Proof. intros Hk. apply (toggled_with (fun j => id_kind j = k ∧ id_net j = net)). by intros j [-> _]. Qed.

Lemma toggled_behind k q x : k ≠ KService → behind (ids w') k q x ↔ behind (ids w) k q x.
Proof.
  intros Hk. apply (toggled_with (fun j => id_kind j = k ∧ id_net j = true ∧ id_uplink j = Some q)). by intros j [-> _].
Qed.

Lemma toggled_back x j' : ids w' !! x = Some j' → ∃ j, ids w !! x = Some j ∧ with_net true j' = with_net true j ∧
  (j' = j ∨ j' = with_net b i).
Proof.
  intros (j & E & ->)%toggled_lookup. exists j. split; [done|]. case_decide; [|auto]. subst.
  rewrite (tg_ident _ _ _ _ _ Hr) in E. injection E as ->. auto.
Qed.

Lemma tables_toggled : tables_ok w → tables_ok w'.
Proof.
  intros Hw. split.
  - apply Hr.
  - apply Hr.
  - rewrite (tg_users _ _ _ _ _ Hr). eapply lists_iff; [|apply Hw]. intros x. symmetry. by apply toggled_kind.
  - rewrite (tg_servers _ _ _ _ _ Hr). eapply lists_iff; [|apply Hw]. intros x. symmetry. by apply toggled_kind.
  - rewrite (tg_exited _ _ _ _ _ Hr). eapply lists_iff; [|apply Hw]. intros x. simpl. by rewrite !toggled_kind.
  - rewrite (tg_services _ _ _ _ _ Hr). eapply lists_iff; [|apply Hw]. intros x. simpl. setoid_rewrite toggled_lookup.
    split; [intros (j & E & Hk)|intros (j' & (j & E & ->) & Hk); exists j; split; [done|by case_decide]].
    eexists. split; [by exists j|]. by case_decide.
  - intros x j' (j & E & Eb & _)%toggled_back. injection Eb as -> -> -> _ _ _ _ _ _. by apply (tab_ident _ Hw x j).
Qed.

(** Services have no place in the tree and no account. *)
Lemma toggled_not x j' (P : Prop) : ids w' !! x = Some j' → (ids w !! x = Some j' → P) → (j' = with_net b i → P) → P.
Proof. intros (j & E & _ & [->| ->])%toggled_back HP Hi; auto. Qed.

Lemma tree_toggled : tree_ok w → tree_ok w'.
Proof.
  intros Hw. pose proof (tg_kind _ _ _ _ _ Hr) as Hk.
  assert (id_uplink i = None) as Hup by (apply (tree_service _ Hw p); [apply Hr|done]).
  split.
  - intros x j' E. apply (toggled_not x j' _ E); [apply (tree_user _ Hw x)|]. intros ->. simpl. congruence.
  - intros x j' E. apply (toggled_not x j' _ E); [apply (tree_home _ Hw x)|]. intros ->. simpl. congruence.
  - intros x j' E. apply (toggled_not x j' _ E); [apply (tree_service _ Hw x)|]. by intros ->.
  - intros x j' q E. rewrite toggled_kind by done.
    apply (toggled_not x j' _ E); [apply (tree_uplink _ Hw x)|]. intros ->. simpl. congruence.
  - intros q j' E Hkq Hn. eapply lists_iff; [intros x; symmetry; by apply toggled_behind|].
    apply (toggled_not q j' _ E); [intros E0; by apply (tree_users _ Hw q)|]. intros ->. simpl in Hkq. congruence.
  - intros q j' E Hkq Hn. eapply lists_iff; [intros x; symmetry; by apply toggled_behind|].
    apply (toggled_not q j' _ E); [intros E0; by apply (tree_servers _ Hw q)|]. intros ->. simpl in Hkq. congruence.
  - destruct (tree_depth _ Hw) as [depth Hd]. exists depth. intros x j' q E.
    apply (toggled_not x j' _ E); [apply Hd|]. intros ->. simpl. congruence.
Qed.

Lemma accounts_toggled : accounts_ok w → accounts_ok w'.
Proof.
  intros Hw. pose proof (tg_kind _ _ _ _ _ Hr) as Hk. destruct (tg_account _ _ _ _ _ Hr) as [Hrg Ho].
  assert (∀ o, block_uses w' o = block_uses w o) as Hu.
  { intros o. unfold block_uses. rewrite (tg_users _ _ _ _ _ Hr), (tg_entries _ _ _ _ _ Hr). do 2 f_equal.
    apply list_filter_iff. intros x. unfold uses_block. rewrite (tg_ids _ _ _ _ _ Hr), lookup_alter.
    case_decide; [|done]. subst. by destruct (ids w !! _). }
  split.
  - intros x j' r E. rewrite (tg_regs _ _ _ _ _ Hr). apply (toggled_not x j' _ E); [apply (acc_reg _ Hw x)|].
    intros ->. simpl. congruence.
  - rewrite (tg_opers _ _ _ _ _ Hr). eapply lists_iff; [|apply Hw]. intros x. simpl. symmetry.
    apply (toggled_with (fun j => id_net j = true ∧ id_kind j = KUser ∧ is_Some (id_oper j))). intros j (_ & -> & _). done.
  - intros x j' o E. rewrite (tg_blocks _ _ _ _ _ Hr). apply (toggled_not x j' _ E); [apply (acc_block _ Hw x)|].
    intros ->. simpl. congruence.
  - intros e. rewrite (tg_entries _ _ _ _ _ Hr), (tg_blocks _ _ _ _ _ Hr). apply Hw.
  - intros o bl. rewrite (tg_blocks _ _ _ _ _ Hr), Hu. apply Hw.
Qed.

Lemma net_inv_toggled : same_places w w' → net_inv w → net_inv w'.
Proof.
  intros Hs Hw. split.
  - eapply chan_inv_places; [apply Hw|done].
  - apply tables_toggled, Hw.
  - apply tree_toggled, Hw.
  - apply accounts_toggled, Hw.
  - intros m mb. rewrite (sp_members _ _ Hs), toggled_kind by done. apply Hw.
Qed.
End facts.
End toggled.

(** ** One service *)
Section service.
Context `{SYS : Sys} `{RB : !RbSpec} `{HK : !HooksOk}.

(** The status of a service set, [b] telling whether it is introduced now. *)
Definition mark (b : bool) (c : client) : client :=
  c <| cl_service ::= fmap (fun s => s <| sr_status ::= fun x =>
    if b then set_flag x SERVICE_INTRODUCED else clear_flag x SERVICE_INTRODUCED |>) |>.

Lemma ident_mark b c s :
  cl_service c = Some s → ident_of (mark b c) = with_net b (ident_of c).
Proof.
  intros Es. unfold ident_of, mark, with_net, kind_of, on_net, users_behind, servers_behind. simpl. rewrite Es. simpl.
  destruct b; [by rewrite has_flag_set_same|by rewrite has_flag_clear_same].
Qed.

Lemma places_mark b c : places (mark b c) = places c.
Proof. unfold places, mark. simpl. by destruct (cl_service c). Qed.

(** The world with the service at [p] marked and filed, or marked and taken out. *)
Definition service_on (p : ptr) (c : client) (w : world) : world :=
  file_client p (mark true c) (w <| clients ::= alter (mark true) p |>).
Definition service_off (p : ptr) (c : client) (w : world) : world :=
  unfile_client p (mark false c) (w <| clients ::= alter (mark false) p |>).

Lemma ids_service_on p c w s :
  clients w !! p = Some c → cl_service c = Some s → ids (service_on p c w) = alter (with_net true) p (ids w).
Proof.
  intros Ec Es. unfold ids at 1, service_on, file_client.
  transitivity (ident_of <$> alter (mark true) p (clients w)); [by destruct (is_empty _)|].
  apply ids_alter_ident. intros c' E. simplify_eq. by eapply ident_mark.
Qed.

Lemma ids_service_off p c w s :
  clients w !! p = Some c → cl_service c = Some s → ids (service_off p c w) = alter (with_net false) p (ids w).
Proof.
  intros Ec Es. unfold ids at 1, service_off. rewrite unfile_clients. apply ids_alter_ident.
  intros c' E. simplify_eq. by eapply ident_mark.
Qed.

(** The table after one entry of [p], under [h], is added or taken out. *)
Lemma filed_on (tbl : gmap ptr ident) (key : ident → Prop) (hash : ident → Z) p i t :
  tbl !! p = Some i → id_net i = false → (∀ b j, key (with_net b j) ↔ key j) → (∀ b j, hash (with_net b j) = hash j) → key i →
  indexed t (fun x h => ∃ j, tbl !! x = Some j ∧ id_net j = true ∧ key j ∧ hash j = h) →
  indexed (upd_bucket (hash i) (rb_dlinkAdd p) t)
    (fun x h => ∃ j, alter (with_net true) p tbl !! x = Some j ∧ id_net j = true ∧ key j ∧ hash j = h).
Proof.
  intros Ei Hn Hkey Hhash Hk Ht. eapply indexed_iff; [|apply indexed_add; [exact Ht|]].
  - intros x h. cbn beta. setoid_rewrite lookup_alter_iff. split.
    + intros [(j & E & Hj & Hkj & <-)|[-> ->]].
      * exists j. split_and!; [|done..]. exists j. split; [done|]. case_decide; [|done]. congruence.
      * exists (with_net true i). split_and!; [|done|by apply Hkey|apply Hhash]. exists i. by rewrite decide_True.
    + intros (j' & (j & E & ->) & Hj & Hkj & <-). case_decide as Hx; [subst x; right|left; by exists j].
      split; [done|]. rewrite Hhash. congruence.
  - intros (j & E & Hj & _). congruence.
Qed.

Lemma filed_off (tbl : gmap ptr ident) (key : ident → Prop) (hash : ident → Z) p i t :
  tbl !! p = Some i → id_net i = true → key i →
  indexed t (fun x h => ∃ j, tbl !! x = Some j ∧ id_net j = true ∧ key j ∧ hash j = h) →
  indexed (upd_bucket (hash i) (rb_dlinkDelete p) t)
    (fun x h => ∃ j, alter (with_net false) p tbl !! x = Some j ∧ id_net j = true ∧ key j ∧ hash j = h).
Proof.
  intros Ei Hn Hk Ht. eapply indexed_iff; [|apply indexed_delete; [exact Ht|by exists i|]].
  - intros x h. cbn beta. setoid_rewrite lookup_alter_iff. split.
    + intros [(j & E & Hj & Hkj & <-) Hx]. exists j. split_and!; [|done..]. exists j. by rewrite decide_False.
    + intros (j' & (j & E & ->) & Hj & Hkj & <-). case_decide as Hx; [done|]. split; [by exists j|done].
  - intros h (j & E & _ & _ & <-). congruence.
Qed.

(** A table in which no client of this key is at [p] does not see the change. *)
Lemma filed_unseen (tbl : gmap ptr ident) (key : ident → Prop) (hash : ident → Z) b p i t :
  tbl !! p = Some i → (∀ b j, key (with_net b j) ↔ key j) → ¬ key i →
  indexed t (fun x h => ∃ j, tbl !! x = Some j ∧ id_net j = true ∧ key j ∧ hash j = h) →
  indexed t (fun x h => ∃ j, alter (with_net b) p tbl !! x = Some j ∧ id_net j = true ∧ key j ∧ hash j = h).
Proof.
  intros Ei Hkey Hk. apply indexed_iff. intros x h. setoid_rewrite lookup_alter_iff. split.
  - intros (j & E & Hj & Hkj & <-). exists j. split_and!; [|done..]. exists j. split; [done|].
    case_decide; [|done]. congruence.
  - intros (j' & (j & E & ->) & Hj & Hkj & <-). case_decide; [|by exists j]. subst.
    apply Hkey in Hkj. congruence.
Qed.

Lemma filed_name_iff tbl x h :
  filed_name tbl x h ↔ ∃ j, tbl !! x = Some j ∧ id_net j = true ∧ True ∧ hash_name (id_name j) = h.
Proof. unfold filed_name. naive_solver. Qed.

Lemma is_empty_decide s : no_nul s = true → (if decide (s = ""%string) then true else false) = is_empty (Some s).
Proof.
  intros Hn. pose proof (is_empty_Some s) as He. case_decide as E; [by rewrite E|].
  destruct (is_empty _); [|done]. by destruct E; apply He.
Qed.

Lemma service_kind_of w p c s :
  tables_ok w → clients w !! p = Some c → cl_service c = Some s →
  id_kind (ident_of c) = KService ∧ id_reg (ident_of c) = None ∧ id_oper (ident_of c) = None.
Proof.
  intros Ht Ec Es. destruct (tab_ident w Ht p _ (ids_of _ _ _ Ec)) as [Hk _]. simpl in *. unfold kind_of in *.
  rewrite Es in *. by destruct (cl_user c), (cl_server c).
Qed.

Lemma service_on_toggled w p c s :
  tables_ok w → clients w !! p = Some c → cl_service c = Some s → on_net c = false →
  toggled p (ident_of c) true w (service_on p c w).
Proof.
  intros Ht Ec Es Hn. pose proof (ids_of _ _ _ Ec) as Ei. destruct (service_kind_of w p c s Ht Ec Es) as (Hk & Hr & Ho).
  destruct (tab_ident w Ht p _ Ei) as (_ & _ & Hu). pose proof (ids_service_on p c w s Ec Es) as Eids.
  pose proof (is_empty_decide _ Hu) as Hd. split; try done; try (unfold service_on, file_client; by destruct (is_empty _)).
  - rewrite Eids. eapply indexed_iff; [intros x h; symmetry; apply filed_name_iff|].
    assert (name_table (service_on p c w) = upd_bucket (hash_name (id_name (ident_of c))) (rb_dlinkAdd p) (name_table w)) as ->
      by (unfold service_on, file_client; by destruct (is_empty _)).
    apply (filed_on (ids w) (fun _ => True) (fun j => hash_name (id_name j)) p (ident_of c)); try done.
    eapply indexed_iff; [intros x h; apply filed_name_iff|apply Ht].
  - rewrite Eids. unfold filed_uid. unfold service_on, file_client. change (cl_uid (mark true c)) with (id_uid (ident_of c)).
    rewrite <- Hd. case_decide as Eu.
    + by apply (filed_unseen (ids w) (fun j => id_uid j ≠ ""%string) (fun j => hash_name (id_uid j)) true p (ident_of c));
        [done|done|by intros ?|apply Ht].
    + by apply (filed_on (ids w) (fun j => id_uid j ≠ ""%string) (fun j => hash_name (id_uid j)) p (ident_of c)); try apply Ht.
Qed.

Lemma service_off_toggled w p c s :
  tables_ok w → clients w !! p = Some c → cl_service c = Some s → on_net c = true →
  toggled p (ident_of c) false w (service_off p c w).
Proof.
  intros Ht Ec Es Hn. pose proof (ids_of _ _ _ Ec) as Ei. destruct (service_kind_of w p c s Ht Ec Es) as (Hk & Hr & Ho).
  destruct (tab_ident w Ht p _ Ei) as (_ & _ & Hu). pose proof (ids_service_off p c w s Ec Es) as Eids.
  pose proof (is_empty_decide _ Hu) as Hd. split; try done; try (unfold service_off, unfile_client; by destruct (is_empty _)).
  - rewrite Eids. eapply indexed_iff; [intros x h; symmetry; apply filed_name_iff|].
    assert (name_table (service_off p c w) = upd_bucket (hash_name (id_name (ident_of c))) (rb_dlinkDelete p) (name_table w)) as ->
      by (unfold service_off, unfile_client; by destruct (is_empty _)).
    apply (filed_off (ids w) (fun _ => True) (fun j => hash_name (id_name j)) p (ident_of c)); try done.
    eapply indexed_iff; [intros x h; apply filed_name_iff|apply Ht].
  - rewrite Eids. unfold filed_uid. unfold service_off, unfile_client. change (cl_uid (mark false c)) with (id_uid (ident_of c)).
    rewrite <- Hd. case_decide as Eu.
    + by apply (filed_unseen (ids w) (fun j => id_uid j ≠ ""%string) (fun j => hash_name (id_uid j)) false p (ident_of c));
        [done|done|by intros ?|apply Ht].
    + by apply (filed_off (ids w) (fun j => id_uid j ≠ ""%string) (fun j => hash_name (id_uid j)) p (ident_of c)); try apply Ht.
Qed.
End service.

(** ** All the services, one after the other *)
Section services.
Context `{SYS : Sys} `{RB : !RbSpec} `{HK : !HooksOk}.

Lemma service_on_places p c w : same_places w (service_on p c w).
Proof.
  apply (same_places_trans _ (w <| clients ::= alter (mark true) p |>)); [apply places_alter, places_mark|].
  unfold service_on, file_client. destruct (is_empty _); split; eauto.
Qed.

Lemma service_off_places p c w : same_places w (service_off p c w).
Proof.
  apply (same_places_trans _ (w <| clients ::= alter (mark false) p |>)); [apply places_alter, places_mark|].
  unfold service_off, unfile_client. destruct (is_empty _); split; eauto.
Qed.

(** What the comings and goings of services leave alone: everybody else, the
    channels, the connection, and what every service is. *)
Record only_services (w w' : world) : Prop := OnlyServices {
  os_other q j : id_kind j ≠ KService → ids w' !! q = Some j ↔ ids w !! q = Some j;
  os_places : same_places w w';
  os_service q c s : clients w !! q = Some c → cl_service c = Some s →
    ∃ c' s', clients w' !! q = Some c' ∧ cl_service c' = Some s' ∧ sr_flags s' = sr_flags s;
  os_list : service_list w' = service_list w;
  os_uplink : lc_client_p <$> server_p w' = lc_client_p <$> server_p w;
  os_lists : mode_lists w' = mode_lists w;
  os_hooks : hooks w' = hooks w
}.

Lemma only_services_trans w w' w'' : only_services w w' → only_services w' w'' → only_services w w''.
Proof.
  intros [A1 A2 A3 A4 A5 A6 A7] [B1 B2 B3 B4 B5 B6 B7]. split; try congruence.
  - intros q j Hk. by rewrite B1, A1.
  - by eapply same_places_trans.
  - intros q c s Ec Es. destruct (A3 q c s Ec Es) as (c' & s' & Ec' & Es' & <-). by apply B3 with c'.
Qed.

Lemma only_services_same w w' : same_net w w' → only_services w w'.
Proof.
  intros Hs. pose proof (si_ids _ _ (same_net_index _ _ Hs)) as Ei. split; try apply Hs.
  - intros q j _. by rewrite Ei.
  - split; try apply Hs; [|left]; rewrite ?(sn_clients _ _ Hs) in *; eauto.
  - intros q c s Ec Es. exists c, s. by rewrite (sn_clients _ _ Hs).
  - by apply same_net_lists.
Qed.

Lemma only_services_toggled p i b c w w' :
  toggled p i b w w' → same_places w w' → clients w' = alter (mark b) p (clients w) →
  server_p w' = server_p w → mode_lists w' = mode_lists w → hooks w' = hooks w →
  clients w !! p = Some c → only_services w w'.
Proof.
  intros Ht Hp Hc Hs Hm Hh Ec. split; try done; [by apply (toggled_other _ _ _ _ _ Ht)| |apply Ht|by rewrite Hs].
  intros q cq s Eq Es. rewrite Hc. setoid_rewrite lookup_alter_iff. eexists _, (if decide (p = q) then _ else s).
  split; [by exists cq|]. case_decide; [|done]. unfold mark. simpl. rewrite Es. by simpl.
Qed.

(** Whether the services of a list are on the network. *)
Definition services_are (b : bool) (l : list ptr) (w : world) : Prop :=
  ∀ p, p ∈ l → ∃ c s, clients w !! p = Some c ∧ cl_service c = Some s ∧ on_net c = b.

Lemma services_there b w : (∀ p i, ids w !! p = Some i → id_kind i = KService → id_net i = b) →
  tables_ok w → services_are b (service_list w) w.
Proof.
  intros Hb Ht p Hp. apply (tab_services w Ht) in Hp as (i & Ei & Hk). pose proof (Hb p i Ei Hk) as Hn.
  pose proof (kind_service w p (id_net i)) as Hs. destruct Hs as (c & s & Ec & Es); [by exists i|].
  exists c, s. split_and!; [done..|]. rewrite (ids_of _ _ _ Ec) in Ei. injection Ei as <-. exact Hn.
Qed.

Lemma services_are_alter b p f l w w' :
  p ∉ l → clients w' = alter f p (clients w) → services_are b l w → services_are b l w'.
Proof.
  intros Hp Hc Hl x Hx. destruct (Hl x Hx) as (c & s & Ec & Es & Hn). exists c, s. split; [|done].
  rewrite Hc, lookup_alter_ne by (by intros ->). done.
Qed.

Lemma clients_on p c w : clients (service_on p c w) = alter (mark true) p (clients w).
Proof. unfold service_on, file_client. by destruct (is_empty _). Qed.
Lemma clients_off p c w : clients (service_off p c w) = alter (mark false) p (clients w).
Proof. unfold service_off. by rewrite unfile_clients. Qed.

Lemma service_on_good p c s w :
  good w → clients w !! p = Some c → cl_service c = Some s → on_net c = false →
  good (service_on p c w) ∧ only_services w (service_on p c w).
Proof.
  intros [Hw Hi] Ec Es Hn. pose proof (service_on_toggled w p c s (ni_tables _ Hw) Ec Es Hn) as Ht.
  assert (mode_lists (service_on p c w) = mode_lists w) as Hm by (unfold service_on, file_client; by destruct (is_empty _)).
  split; [split; [eapply net_inv_toggled; [done|apply service_on_places|done]|unfold idle; by rewrite Hm]|].
  eapply only_services_toggled; try done; [apply service_on_places|apply clients_on|..];
    unfold service_on, file_client; by destruct (is_empty _).
Qed.

Lemma service_off_good p c s w :
  good w → clients w !! p = Some c → cl_service c = Some s → on_net c = true →
  good (service_off p c w) ∧ only_services w (service_off p c w).
Proof.
  intros [Hw Hi] Ec Es Hn. pose proof (service_off_toggled w p c s (ni_tables _ Hw) Ec Es Hn) as Ht.
  assert (mode_lists (service_off p c w) = mode_lists w) as Hm by (unfold service_off, unfile_client; by destruct (is_empty _)).
  split; [split; [eapply net_inv_toggled; [done|apply service_off_places|done]|unfold idle; by rewrite Hm]|].
  eapply only_services_toggled; try done; [apply service_off_places|apply clients_off|..];
    unfold service_off, unfile_client; by destruct (is_empty _).
Qed.

(** Whether a service is meant to be there: not switched off. *)
Definition enabled (w : world) (p : ptr) : Prop :=
  ∃ c s, clients w !! p = Some c ∧ cl_service c = Some s ∧ has_flag (sr_flags s) SERVICE_DISABLED = false.

Lemma wp_introduce_one w p (Q : unit → world → Prop) :
  good w → services_are false [p] w →
  (∀ w', good w' → only_services w w' →
     (∀ x, x ≠ p → clients w' !! x = clients w !! x) →
     (∀ c, clients w' !! p = Some c → on_net c = true ↔ enabled w p) → Q tt w') →
  wp (b ← ServiceDisabled p; when (negb b) (introduce_service p)) Q w.
Proof.
  intros Hw Hp HQ. destruct (Hp p) as (c & s & Ec & Es & Hn); [by left|].
  apply wp_bind. unfold ServiceDisabled. apply wp_bind. eapply wp_service_of; [done..|]. apply wp_ret.
  apply wp_when; intros Hd.
  - eapply wp_introduce_service; [done..|]. intros w1 Hs1.
    assert (good w1) as Hw1 by (by eapply good_same).
    assert (clients w1 !! p = Some c) as Ec1 by (by rewrite (sn_clients _ _ Hs1)).
    destruct (service_on_good p c s w1 Hw1 Ec1 Es Hn) as [Hg Ho].
    change (Q tt (service_on p c w1)). apply HQ.
    + done.
    + eapply only_services_trans; [by apply only_services_same|done].
    + intros x Hx. rewrite clients_on, lookup_alter_ne by done. by rewrite (sn_clients _ _ Hs1).
    + intros c'. rewrite clients_on, lookup_alter_eq, Ec1. intros [= <-]. split.
      * intros _. exists c, s. split_and!; [done..|]. by apply negb_true_iff.
      * intros _. exact (f_equal id_net (ident_mark true c s Es)).
  - apply HQ; [done|by apply only_services_same|done|]. intros c' Ec'. simplify_eq. rewrite Hn. split; [done|].
    intros (c' & s' & Ec' & Es' & Hd'). simplify_eq. rewrite Hd' in Hd. done.
Qed.
End services.

Section link.
Context `{SYS : Sys} `{RB : !RbSpec} `{HK : !HooksOk}.

(** Exactly the enabled services are on the network. *)
Definition services_up (w0 w : world) (l : list ptr) : Prop :=
  ∀ p, p ∈ l → ∀ c, clients w !! p = Some c → on_net c = true ↔ enabled w0 p.

Lemma enabled_kept w w' p b l :
  only_services w w' → services_are b l w → p ∈ l → enabled w' p ↔ enabled w p.
Proof.
  intros Ho Hl Hp. destruct (Hl p Hp) as (c & s & Ec & Es & _). destruct (os_service _ _ Ho p c s Ec Es) as (c' & s' & Ec' & Es' & E).
  split; intros (x & y & ? & ? & ?); simplify_eq; [exists c, s|exists c', s']; split_and!; congruence.
Qed.

Lemma wp_introduce_services w (Q : unit → world → Prop) :
  good w → services_are false (service_list w) w →
  (∀ w', good w' → only_services w w' → services_up w w' (service_list w) → Q tt w') →
  wp introduce_services Q w.
Proof.
  intros Hw Hoff HQ. unfold introduce_services.
  apply (wp_foreach_stable _ _ (fun pre todo w' => good w' ∧ only_services w w' ∧ NoDup (pre ++ todo) ∧
    services_are false todo w' ∧ services_up w w' pre)).
  - apply (tab_services w (ni_tables _ (proj1 Hw))).
  - split_and!; [done|by apply only_services_same| |done|by intros p Hp%elem_of_nil].
    apply (tab_services w (ni_tables _ (proj1 Hw))).
  - intros pre x q w' El Hnd (Hw' & Ho & _ & Hq & Hp). apply wp_introduce_one; [done|intros y ->%list_elem_of_singleton; apply Hq; by left|].
    intros w2 Hw2 Ho2 Hc Hx. split; [by rewrite (os_list _ _ Ho2)|].
    apply NoDup_app in Hnd as Hnd'. destruct Hnd' as (_ & Hpre & Hxq). apply NoDup_cons in Hxq as [Hxq _].
    split_and!; [done|by eapply only_services_trans|by rewrite <- app_assoc| |].
    + intros y Hy. destruct (Hq y) as (c & s & Ec & ?); [by right|]. exists c, s. rewrite Hc; [done|by intros ->].
    + intros y [Hy| ->%list_elem_of_singleton]%elem_of_app c.
      * rewrite Hc; [by apply Hp|]. intros ->. apply (Hpre x Hy). by left.
      * intros Ec. rewrite (Hx c Ec).
        eapply (enabled_kept w w'); [done|exact Hoff|]. rewrite <- (os_list _ _ Ho), El. set_solver.
  - intros l w' El (Hw' & Ho & _ & _ & Hp). apply HQ; [done|done|]. rewrite <- (os_list _ _ Ho). by rewrite El.
Qed.

Lemma quiet_introduce_services_channels w :
  net_inv w → is_Some (server_p w) → quiet introduce_services_channels w.
Proof.
  intros Hw [l El]. unfold introduce_services_channels, quiet.
  apply (wp_foreach_stable _ _ (fun _ _ w' => same_net w w')); [apply (tab_services w (ni_tables _ Hw))|done| |done].
  intros pre x q w' E Hnd Hs. pose proof (net_inv_same _ _ Hs Hw) as Hw'.
  assert (x ∈ service_list w') as (i & Ei & Hk)%(tab_services w' (ni_tables _ Hw')) by (rewrite E; set_solver).
  destruct (kind_service w' x (id_net i)) as (c & s & Ec & Es); [by exists i|].
  apply wp_bind. unfold ServiceDisabled. apply wp_bind. eapply wp_service_of; [done..|]. apply wp_ret.
  assert (∀ w2, same_net w' w2 → service_list w2 = pre ++ x :: q ∧ same_net w w2) as Hdone.
  { intros w2 Hs2. split; [by rewrite (sn_service_list _ _ Hs2)|by etrans]. }
  apply wp_when; intros _; [|by apply Hdone].
  eapply wp_conseq; [eapply (quiet_introduce_channels w' x c s true); [done..|]|intros [] w2; apply Hdone].
  intros _. pose proof (sn_uplink _ _ Hs) as Hu. rewrite El in Hu. destruct (server_p w'); [by eexists|done].
Qed.

(** The uplink in fresh memory, flagged as its connection says. *)
Definition uplink_client (name hops : string) (info : option string) (sid : string) (rsfnc : bool) : client :=
  let c := new_server name hops info (rb_strlcpy (UIDLEN + 1) sid) None in
  if rsfnc then c <| cl_flags ::= fun f => set_flag f FLAGS_RSFNC |> else c.

Lemma uplink_client_inv w p name hops info sid b :
  good w → clients w !! p = None → no_nul name = true → no_nul sid = true →
  good (enter_client p (uplink_client name hops info sid b) w).
Proof.
  intros Hw Hf Hn Hs. destruct b; apply new_client_inv; try done; first [by right|by apply rb_strlcpy_no_nul; [lia|]].
Qed.

(** No client that is or was a service is introduced. *)
Definition off_line (w : world) : Prop := ∀ p i, ids w !! p = Some i → id_kind i = KService → id_net i = false.
Definition services_on (w : world) : Prop := ∀ p i, ids w !! p = Some i → id_kind i = KService → id_net i = true.
End link.

(** ** The uplink introduces itself *)
Section handshake.
Context `{SYS : Sys} `{RB : !RbSpec} `{HK : !HooksOk}.

(** The connection has passed the checks of [c_server()] on an uplink of that name. *)
Record accepted (w : world) (l : lconn) (name sid : string) : Prop := Accepted {
  ac_link : server_p w = Some l;
  ac_ts : has_flag (lc_flags l) CONN_TS = true;
  ac_name : irccmp (lc_name l) name = 0;
  ac_sid : lc_sid l = Some sid;
  ac_nul : no_nul sid = true
}.

Lemma uplink_ok_run w l name sid :
  accepted w l name sid → ∃ l', uplink_ok name w = Ok true (w <| server_p := Some l' |>) ∧
    lc_sid l' = Some sid ∧ lc_client_p l' = lc_client_p l.
Proof.
  intros [El Ht Hn Hs _].
  exists (l <| lc_flags ::= fun f => clear_flag f CONN_HANDSHAKE |> <| lc_first_time := rb_time w |>).
  split; [|by split].
  unfold uplink_ok. erewrite bind_ok by done. rewrite El. erewrite bind_ok by done. rewrite Ht, Hn. cbn [negb Z.eqb].
  erewrite bind_ok; [done|]. unfold upd_server_p. erewrite bind_ok by done. rewrite El. by erewrite bind_ok.
Qed.

Lemma good_server_p w x : good w → good (w <| server_p := x |>).
Proof.
  intros [Hw Hi]. split; [|exact Hi]. apply (net_inv_index w); [|by split|by apply members_from_eq|exact Hw].
  eapply chan_inv_places; [apply Hw|]. split; eauto.
Qed.

(** The uplink alone, before the services follow. *)
Lemma wp_enter_uplink w l name hops info sid p (k : M world unit) (Q : unit → world → Prop) :
  server_p w = Some l → clients w !! p = None →
  (∀ l', lc_client_p l' = Some p →
     wp k Q (enter_client p (uplink_client name hops info sid (has_flag (lc_flags l) CONN_CAP_RSFNC)) (w <| server_p := Some l' |>))) →
  wp (_ ← (_ ← upd_server_p (fun l => l <| lc_client_p := Some p |>);
           l ← need NullDeref (server_p w);
           when (has_flag (lc_flags l) CONN_CAP_RSFNC)
             (upd_client p (fun c => c <| cl_flags ::= fun f => set_flag f FLAGS_RSFNC |>)));
      _ ← add_client p; _ ← modify (fun w => w <| server_list ::= rb_dlinkAdd p |>); k) Q
    (w <| clients ::= <[p := new_server name hops info (rb_strlcpy (UIDLEN + 1) sid) None]> |>).
Proof.
  intros El Hf HQ. apply wp_bind, wp_bind. unfold upd_server_p. apply wp_bind. apply (wp_gets (fun s => s)).
  apply wp_bind. eapply wp_need; [exact El|]. apply wp_modify. apply wp_bind. eapply wp_need; [exact El|].
  specialize (HQ (l <| lc_client_p := Some p |>) eq_refl).
  assert (∀ w', clients w' = <[p := uplink_client name hops info sid (has_flag (lc_flags l) CONN_CAP_RSFNC)]> (clients w) →
    (w <| server_p := Some (l <| lc_client_p := Some p |>) |> <| clients := clients w' |>) = w' →
    wp (_ ← add_client p; _ ← modify (fun w => w <| server_list ::= rb_dlinkAdd p |>); k) Q w') as Hgo.
  { intros w' Hc Hw'. apply wp_bind. eapply wp_add_client; [rewrite Hc; apply lookup_insert_eq|].
    apply wp_bind, wp_modify. rewrite <- Hw', Hc. unfold enter_client, place_client, list_client, file_client in *.
    by destruct (has_flag _ _), (is_empty _). }
  apply wp_when; intros Hb.
  - eapply wp_upd_client; [simpl; apply lookup_insert_eq|]. apply Hgo; [|done].
    unfold uplink_client. rewrite Hb. apply alter_insert_eq.
  - apply Hgo; [|done]. unfold uplink_client. by rewrite Hb.
Qed.

Lemma server_ident name hops info sid b :
  let i := ident_of (uplink_client name hops info sid b) in
  id_kind i = KServer ∧ id_net i = true ∧ id_uplink i = None.
Proof. by destruct b. Qed.

Lemma uplink_placed p name hops info sid b w :
  clients (enter_client p (uplink_client name hops info sid b) w) =
  <[p := uplink_client name hops info sid b]> (clients w).
Proof. rewrite enter_client_clients. by destruct b. Qed.

Lemma enter_client_server p c w : server_p (enter_client p c w) = server_p w ∧ service_list (enter_client p c w) = service_list w.
Proof.
  unfold enter_client, place_client, list_client, file_client. by destruct (kind_of c), (cl_uplink c), (is_empty _).
Qed.

Lemma off_line_entered w p name hops info sid b :
  clients w !! p = None → off_line w → off_line (enter_client p (uplink_client name hops info sid b) w).
Proof.
  intros Hf Hoff q i Ei Hk. unfold ids in Ei. rewrite uplink_placed, fmap_insert in Ei.
  apply lookup_insert_Some in Ei as [[<- <-]|[_ Ei]]; [|by apply (Hoff q)].
  destruct (server_ident name hops info sid b) as (E & _). congruence.
Qed.

Lemma linked_same w w' p :
  same_net w w' → (∃ l, server_p w = Some l ∧ lc_client_p l = Some p) → ∃ l, server_p w' = Some l ∧ lc_client_p l = Some p.
Proof.
  intros Hs (l & El & Hl). pose proof (sn_uplink _ _ Hs) as Hu. rewrite El in Hu. simpl in Hu. rewrite Hl in Hu.
  apply fmap_Some in Hu as (l' & El' & Hl'). by exists l'.
Qed.

Lemma services_up_all w w' p c s :
  good w → good w' → only_services w w' → services_are false (service_list w) w → services_up w w' (service_list w) →
  clients w' !! p = Some c → cl_service c = Some s → on_net c = negb (has_flag (sr_flags s) SERVICE_DISABLED).
Proof.
  intros Hw Hw' Ho Hare Hup Ec Es. destruct (service_kind_of w' p c s (ni_tables _ (proj1 Hw')) Ec Es) as (Hk & _).
  assert (p ∈ service_list w) as Hp.
  { rewrite <- (os_list _ _ Ho). apply (tab_services w' (ni_tables _ (proj1 Hw'))). exists (ident_of c). split; [by apply ids_of|done]. }
  apply eq_true_iff_eq. rewrite (Hup p Hp c Ec), <- (enabled_kept w w' p false _ Ho Hare Hp), negb_true_iff. split.
  - intros (c' & s' & Ec' & Es' & E). by simplify_eq.
  - intros E. by exists c, s.
Qed.

(** SERVER from the uplink: the network stays sound, the uplink is on it, and the
    services that are not switched off are, and no others. *)
Lemma c_server_links w l name sid hops rest :
  good w → off_line w → accepted w l name sid → parv_ok (name :: hops :: rest) → rest ≠ [] →
  wp (c_server None (name :: hops :: rest)) (fun _ w' => good w' ∧ uplink_live w' ∧
    ∀ p c s, clients w' !! p = Some c → cl_service c = Some s →
      on_net c = negb (has_flag (sr_flags s) SERVICE_DISABLED)) w.
Proof.
  intros Hw Hoff Hacc Hp Hr. pose proof (parv_lookup _ 0 name Hp eq_refl) as Hname. unfold c_server.
  destruct rest as [|x rest]; [done|]. rewrite (proj2 (Nat.ltb_ge _ 3)) by (simpl; lia).
  apply wp_bind, wp_arg; [done|simpl; lia|]. intros ? [= <-] _. destruct (_ <? _)%nat; [apply wp_die|].
  destruct (uplink_ok_run w l name sid Hacc) as (l1 & E1 & Hsid & _).
  apply wp_bind, (wp_ok _ _ _ _ _ E1). cbn [negb]. set (w1 := w <| server_p := Some l1 |>).
  pose proof (good_server_p w (Some l1) Hw) as Hw1. fold w1 in Hw1.
  apply wp_bind, wp_arg; [done|simpl; lia|]. intros ? [= <-] _.
  apply wp_bind, wp_argv; [simpl; lia|]. apply wp_bind. apply (wp_gets (fun s => s)).
  apply wp_bind, wp_bind. eapply wp_need; [done|]. apply wp_bind. unfold str. eapply wp_need; [exact Hsid|]. apply wp_ret.
  apply wp_bind, wp_new_client. intros p Hf. eapply wp_enter_uplink; [done|done|]. intros l2 Hl2.
  set (b := has_flag _ _). set (W := enter_client p _ _).
  assert (good W) as HW.
  { apply uplink_client_inv; [by apply good_server_p|done|done|apply Hacc]. }
  assert (off_line W) as HoffW by (by apply off_line_entered).
  assert (server_p W = Some l2) as ElW by apply enter_client_server.
  pose proof (services_there false W HoffW (ni_tables _ (proj1 HW))) as Hare.
  apply wp_bind, wp_bind, wp_introduce_services; [done|done|]. intros w2 Hw2 Ho2 Hup2.
  pose proof (os_uplink _ _ Ho2) as Hu2. rewrite ElW in Hu2. simpl in Hu2. rewrite Hl2 in Hu2.
  apply fmap_Some in Hu2 as (l3 & El3 & Hl3). symmetry in Hl3.
  eapply wp_quiet; [apply quiet_introduce_services_channels; [apply Hw2|by exists l3]|]. intros [] w3 Hs3.
  destruct (linked_same w2 w3 p Hs3) as (l4 & El4 & Hl4); [by exists l3|].
  unfold upd_server_p. apply wp_bind, wp_bind. apply (wp_gets (fun s => s)). apply wp_bind. eapply wp_need; [exact El4|].
  apply wp_modify. set (w4 := w3 <| server_p := _ |>). assert (same_net w2 w4) as Hs4.
  { etrans; [exact Hs3|]. by eapply same_net_link. }
  assert (ids w2 !! p = Some (ident_of (uplink_client name hops (Some x) sid b))) as Ep2.
  { apply (os_other _ _ Ho2); [by rewrite (proj1 (server_ident _ _ _ _ _))|]. apply ids_of. unfold W. rewrite uplink_placed. apply lookup_insert_eq. }
  apply wp_ping.
  { rewrite (sn_clients _ _ Hs4). apply ids_client in Ep2 as (c & Ec & _). by exists c. }
  intros w5 Hs5. assert (same_net w2 w5) as Hs by (by etrans). split; [by eapply good_same|]. split.
  - destruct (linked_same w2 w5 p Hs) as (l5 & El5 & Hl5); [by exists l3|]. exists l5, p. split_and!; [done..|].
    exists (ident_of (uplink_client name hops (Some x) sid b)). rewrite (si_ids _ _ (same_net_index _ _ Hs)).
    destruct (server_ident name hops (Some x) sid b) as (? & ? & _). done.
  - intros q c s Ec Es. rewrite (sn_clients _ _ Hs) in Ec. by eapply (services_up_all W w2).
Qed.
End handshake.

(** ** The connection is signed off *)
Section signoff.
Context `{SYS : Sys} `{RB : !RbSpec} `{HK : !HooksOk}.

(** Every service leaves the tables. *)
Lemma wp_withdraw_services w (Q : unit → world → Prop) :
  good w → services_are true (service_list w) w →
  (∀ w', good w' → only_services w w' → services_are false (service_list w) w' → Q tt w') →
  wp (foreach service_list (fun service_p =>
        _ ← upd_service service_p (fun s => s <| sr_status ::= fun x => clear_flag x SERVICE_INTRODUCED |>);
        del_client service_p)) Q w.
Proof.
  intros Hw Hon HQ.
  apply (wp_foreach_stable _ _ (fun pre todo w' => good w' ∧ only_services w w' ∧
    services_are true todo w' ∧ services_are false pre w')).
  - apply (tab_services w (ni_tables _ (proj1 Hw))).
  - split_and!; [done|by apply only_services_same|done|by intros p Hp%elem_of_nil].
  - intros pre x q w' El Hnd (Hw' & Ho & Hq & Hp). destruct (Hq x) as (c & s & Ec & Es & Hn); [by left|].
    apply NoDup_app in Hnd as (_ & Hpre & Hxq). apply NoDup_cons in Hxq as [Hxq _].
    destruct (service_off_good x c s w' Hw' Ec Es Hn) as [Hg Hog].
    apply wp_bind. eapply wp_upd_service; [done..|]. eapply (wp_del_client _ _ (mark false c)).
    { simpl. apply lookup_alter_iff. exists c. by rewrite decide_True. }
    change (service_list (service_off x c w') = pre ++ x :: q ∧ good (service_off x c w') ∧ only_services w (service_off x c w') ∧
      services_are true q (service_off x c w') ∧ services_are false (pre ++ [x]) (service_off x c w')).
    split; [by rewrite (os_list _ _ Hog)|]. split_and!; [done|by eapply only_services_trans| |].
    + eapply services_are_alter; [exact Hxq|apply clients_off|]. intros y Hy. apply Hq. by right.
    + intros y [Hy| ->%list_elem_of_singleton]%elem_of_app.
      * eapply (services_are_alter false x); [|apply clients_off|exact Hp|exact Hy].
        intros Hx. apply (Hpre x Hx). by left.
      * exists (mark false c), (s <| sr_status ::= fun x => clear_flag x SERVICE_INTRODUCED |>).
        rewrite clients_off, lookup_alter_eq, Ec. split_and!; [done|by unfold mark; simpl; rewrite Es|].
        exact (f_equal id_net (ident_mark false c s Es)).
  - intros l w' El (Hw' & Ho & _ & Hp). apply HQ; [done|done|]. rewrite <- (os_list _ _ Ho). by rewrite El.
Qed.

Lemma off_line_all w : good w → services_are false (service_list w) w → off_line w.
Proof.
  intros Hw Hoff p i Ei Hk. destruct (Hoff p) as (c & s & Ec & _ & Hn).
  { apply (tab_services w (ni_tables _ (proj1 Hw))). by exists i. }
  rewrite (ids_of _ _ _ Ec) in Ei. by injection Ei as <-.
Qed.

Lemma off_line_departed w w' D p i : off_line w → departed D p i w w' → off_line w'.
Proof.
  intros Hoff Hd q j Ej Hk. destruct (dp_old _ _ _ _ _ Hd q j Ej) as (j0 & Ej0 & Ek & _ & Hn).
  destruct (id_net j) eqn:E; [|done]. rewrite <- (Hn eq_refl). apply (Hoff q); [done|congruence].
Qed.

(** With all services introduced, they and all that is behind the uplink leave. *)
Lemma signoff_good w l p :
  good w → services_on w → server_p w = Some l → ConnDead l = false → lc_client_p l = Some p →
  filed_kind (ids w) KServer true p →
  wp signoff_server (fun _ w' => good w' ∧ off_line w' ∧ ¬ live w' p) w.
Proof.
  intros Hw Hon El Hd Hl Hp. unfold signoff_server. apply wp_bind. apply (wp_gets (fun s => s)).
  apply wp_bind. eapply wp_need; [exact El|]. rewrite Hd. apply wp_bind, wp_modify. set (w1 := w <| server_p := _ |>).
  assert (good w1) as Hw1 by (by apply good_server_p).
  apply wp_bind, wp_withdraw_services; [done|by apply services_there; [|apply Hw1]|]. intros w2 Hw2 Ho2 Hoff2.
  rewrite Hl. destruct Hp as (i & Ei & Hk & Hn).
  assert (ids w2 !! p = Some i) as Ei2 by (by apply (os_other _ _ Ho2); [rewrite Hk|]).
  eapply (good_exit w2 p i); [done..|by right|]. intros w3 Hw3 Hd3. split_and!; [done| |apply Hd3].
  eapply off_line_departed; [|done]. apply off_line_all; [done|]. by rewrite (os_list _ _ Ho2).
Qed.
End signoff.
