(* ===== verification/Requests.v ===== *)
(** * What users ask of services keeps the network sound

    Every message that [handle_service()] deals with leaves the network as it is,
    apart from counters, or changes one login: that of a user as an operator, which
    the operator list and the reference count of the block follow.  The functions
    of the commands are in the [s_*.c] files; [CommandsOk] is what is asked of them. *)

From S2P Require Import Prelude CString Match Rblib Tools Fault World Lookup Channel Service Conf Client Dispatch Message Net Members Index Handlers Joins Modes Clients Exits Commands Replies Linkup.

Section tally.
Context `{SYS : Sys} `{RB : !RbSpec}.

(** A command without the count of its uses, and the table of a service of such. *)
Definition uncounted (e : service_command) : service_command := e <| scm_cmd_use := 0 |>.
Definition offered (s : service) : option (list service_command) := (fun l : list service_command => uncounted <$> l) <$> sr_command s.

(** What the handling of a message looks at in a client, besides its identity. *)
Definition parts (c : client) : option (option string * Z) * option (option (list service_command) * option cachefiles * option cachefiles) :=
  ((fun u => (us_mask u, us_umode u)) <$> cl_user c, (fun s => (offered s, sr_help s, sr_helpadmin s)) <$> cl_service c).

Lemma offered_some s : is_Some (offered s) ↔ is_Some (sr_command s).
Proof. unfold offered. apply fmap_is_Some. Qed.

(** A step that counts, answers or notes, and changes nothing else. *)
Record tally (w w' : world) : Prop := Tally {
  ta_good : good w → good w';
  ta_ids : ids w' = ids w;
  ta_parts : parts <$> clients w' = parts <$> clients w;
  ta_conf : conf_opers w' = conf_opers w;
  ta_conf_list : conf_oper_list w' = conf_oper_list w;
  ta_watch : watchserv_p w' = watchserv_p w
}.

#[global] Instance tally_preorder : PreOrder tally.
Proof.
  split.
  - intros w. by split.
  - intros w w' w'' [] []. split; [auto|congruence..].
Qed.

Lemma tally_same w w' : same_net w w' → tally w w'.
Proof.
  intros Hs. split; [by apply good_same|apply (si_ids _ _ (same_net_index _ _ Hs))|by rewrite (sn_clients _ _ Hs)|apply Hs..].
Qed.

Lemma parts_alter w f p : (∀ c, parts (f c) = parts c) → parts <$> alter f p (clients w) = parts <$> clients w.
Proof.
  intros Hf. apply map_eq. intros x. rewrite !lookup_fmap, lookup_alter. case_decide; [|done].
  subst. destruct (clients w !! x) as [c|]; [|done]. simpl. by rewrite Hf.
Qed.

(** A field of a user that only counts. *)
Definition counts_user (f : user → user) : Prop := ∀ u,
  us_channels (f u) = us_channels u ∧ us_oper (f u) = us_oper u ∧ us_user_reg (f u) = us_user_reg u ∧
  us_servername (f u) = us_servername u ∧ us_mask (f u) = us_mask u ∧ us_umode (f u) = us_umode u.

Lemma tally_user w p f : counts_user f → tally w (w <| clients ::= alter (upd_user_field f) p |>).
Proof.
  intros Hf. split; try done.
  - apply good_user. intros u. destruct (Hf u) as (? & ? & ? & ? & ? & ?). by split_and!.
  - unfold ids. simpl. apply ids_alter. intros c.
    unfold ident_of, kind_of, on_net, users_behind, servers_behind. simpl. destruct (cl_user c) as [u|]; [|done].
    simpl. by destruct (Hf u) as (_ & -> & -> & -> & _).
  - apply parts_alter. intros c. unfold parts. simpl. destruct (cl_user c) as [u|]; [|done]. simpl.
    by destruct (Hf u) as (_ & _ & _ & _ & -> & ->).
Qed.

Definition counts_service (f : service → service) : Prop := ∀ s,
  sr_channels (f s) = sr_channels s ∧ sr_status (f s) = sr_status s ∧ sr_help (f s) = sr_help s ∧
  sr_helpadmin (f s) = sr_helpadmin s ∧ offered (f s) = offered s.

Definition upd_service_field (f : service → service) (c : client) : client := c <| cl_service ::= fmap f |>.

Lemma tally_service w p f : counts_service f → tally w (w <| clients ::= alter (upd_service_field f) p |>).
Proof.
  intros Hf. assert (∀ c, ident_of (upd_service_field f c) = ident_of c) as Hi.
  { intros c. unfold ident_of, kind_of, on_net, users_behind, servers_behind. simpl.
    destruct (cl_service c) as [s|]; [|done]. simpl. by destruct (Hf s) as (_ & -> & _). }
  split; try done.
  - intros [Hn Hidle]. split; [|done]. apply (net_inv_index w); [| |by apply members_from_eq|done].
    + eapply chan_inv_places; [apply Hn|]. apply places_alter. intros c. unfold places. simpl.
      destruct (cl_service c) as [s|]; [|done]. simpl. by destruct (Hf s) as (-> & _).
    + split; try done. unfold ids. simpl. by apply ids_alter.
  - unfold ids. simpl. by apply ids_alter.
  - apply parts_alter. intros c. unfold parts. simpl. destruct (cl_service c) as [s|]; [|done]. simpl.
    by destruct (Hf s) as (_ & _ & -> & -> & ->).
Qed.

(** A registration that is noted to have been used. *)
Lemma tally_reg w r f : tally w (w <| user_regs ::= alter f r |>).
Proof.
  split; try done. intros [[Hc Ht Htr Ha Hal] Hi]. split; [|done].
  split; [|by destruct Ht; split|by destruct Htr; split| |done].
  - eapply chan_inv_places; [exact Hc|]. split; eauto.
  - destruct Ha as [A1 A2 A3 A4 A5]. split; [|done..]. intros p i x Ei Hn Hr. simpl.
    apply lookup_alter_is_Some. by eapply A1.
Qed.

(** A use counted. *)
Lemma offered_used s i n :
  offered (s <| sr_command ::= fmap (alter (fun e => e <| scm_cmd_use ::= n |>) i) |>) = offered s.
Proof.
  unfold offered. simpl. destruct (sr_command s) as [l|]; [|done]. simpl. f_equal. apply list_eq. intros j.
  rewrite !list_lookup_fmap, list_lookup_alter. case_decide; [|done]. subst. by destruct (l !! j).
Qed.

(** *** What the handling of a message relies on *)
Record requests_ok (w : world) : Prop := RequestsOk {
  rq_conf o : o ∈ conf_oper_list w → is_Some (conf_opers w !! o);
  rq_watch : ∃ p i, watchserv_p w = Some p ∧ ids w !! p = Some i ∧ id_kind i = KService;
  rq_mask p c u : clients w !! p = Some c → cl_user c = Some u → is_Some (us_mask u);
  rq_help p c s : clients w !! p = Some c → cl_service c = Some s → is_Some (sr_command s) →
    is_Some (sr_help s) ∧ is_Some (sr_helpadmin s);
  rq_crypt o b key : conf_opers w !! o = Some b → ConfOperEncrypted b = true → is_Some (rb_crypt key (oper_pass b))
}.

Lemma parts_back w w' p c' :
  parts <$> clients w' = parts <$> clients w → clients w' !! p = Some c' → ∃ c, clients w !! p = Some c ∧ parts c' = parts c.
Proof.
  intros E Ec. assert ((parts <$> clients w) !! p = Some (parts c')) as Ep by (by rewrite <- E, lookup_fmap, Ec).
  rewrite lookup_fmap in Ep. apply fmap_Some in Ep as (c & ? & ?). by exists c.
Qed.

Lemma requests_tally w w' : tally w w' → requests_ok w → requests_ok w'.
Proof.
  intros [_ T1 T2 T3 T4 T5] [R1 R2 R3 R4 R5]. split; rewrite ?T1, ?T3, ?T4, ?T5; try done.
  - intros p c' u' (c & Ec & Ep)%(parts_back _ _ _ _ T2) Eu. injection Ep as Ep _. rewrite Eu in Ep. simpl in Ep.
    symmetry in Ep. apply fmap_Some in Ep as (u & Eu0 & [= -> _]). by eapply R3.
  - intros p c' s' (c & Ec & Ep)%(parts_back _ _ _ _ T2) Es Hc. injection Ep as _ Ep. rewrite Es in Ep. simpl in Ep.
    symmetry in Ep. apply fmap_Some in Ep as (s & Es0 & Ep). injection Ep as Eb -> ->.
    eapply R4; [done..|]. by rewrite <- offered_some, <- Eb, offered_some.
Qed.

(** A user and a service that a message is about. *)
Record ready (w : world) (service_p client_p : ptr) : Prop := Ready {
  re_good : good w;
  re_requests : requests_ok w;
  re_user : filed_kind (ids w) KUser true client_p;
  re_service : ∃ i, ids w !! service_p = Some i ∧ id_kind i = KService
}.

Lemma ready_tally w w' s p : tally w w' → ready w s p → ready w' s p.
Proof.
  intros Ht [R1 R2 R3 R4]. split; rewrite ?(ta_ids _ _ Ht); [by apply Ht|by eapply requests_tally|done..].
Qed.

Lemma ready_user w s p : ready w s p → ∃ c u, clients w !! p = Some c ∧ cl_user c = Some u.
Proof. intros R. exact (kind_user _ _ _ (re_user _ _ _ R)). Qed.

Lemma ready_service w s p : ready w s p → ∃ c sv, clients w !! s = Some c ∧ cl_service c = Some sv.
Proof. intros R. destruct (re_service _ _ _ R) as (i & Ei & Hk). apply (kind_service w s (id_net i)). by exists i. Qed.
End tally.

(** ** Replies and counters *)
Section replies.
Context `{SYS : Sys} `{RB : !RbSpec}.

(** A computation that ends in a state with nothing changed but tallies. *)
Definition tallies {A} (m : M world A) (w : world) : Prop := wp m (fun _ w' => tally w w') w.

Lemma tallies_quiet {A} (m : M world A) w : quiet m w → tallies m w.
Proof. intros Hm. eapply wp_conseq; [exact Hm|]. intros a w'. apply tally_same. Qed.

Lemma wp_tallies {A} (m : M world A) (Q : A → world → Prop) w :
  tallies m w → (∀ a w', tally w w' → Q a w') → wp m Q w.
Proof. intros Hm HQ. eapply wp_conseq; [exact Hm|]. exact HQ. Qed.

Lemma tallies_bind {A B} (m : M world A) (k : A → M world B) w :
  tallies m w → (∀ a w', tally w w' → tallies (k a) w') → tallies (mbind k m) w.
Proof.
  intros Hm Hk. apply wp_bind. eapply wp_tallies; [done|]. intros a w' Ht. eapply wp_tallies; [by apply Hk|].
  intros b w''. by etrans.
Qed.

Lemma tallies_ret {A} (a : A) w : tallies (mret a) w.
Proof. by apply wp_ret. Qed.

Lemma tallies_when b (m : M world unit) w : tallies m w → tallies (when b m) w.
Proof. intros Hm. destruct b; [done|apply tallies_ret]. Qed.

Lemma quiet_service_error w s p text :
  (∃ c sv, clients w !! s = Some c ∧ cl_service c = Some sv) → is_Some (clients w !! p) → quiet (service_error s p text) w.
Proof.
  intros (c & sv & Ec & Es) [cp Ecp]. unfold service_error, quiet. apply wp_bind. apply (wp_gets (fun s => s)).
  apply wp_bind. eapply wp_service_of; [done..|]. apply wp_bind. eapply wp_rd; [exact Ec|].
  apply wp_bind. eapply wp_rd; [exact Ecp|]. apply quiet_sendto_server.
Qed.

Lemma user_language_run w s p : ready w s p → ∃ l, user_language p w = Ok l w.
Proof.
  intros R. destruct (ready_user _ _ _ R) as (c & u & Ec & Eu). unfold user_language.
  destruct (negb _); [by eexists|]. unfold rd. erewrite bind_ok; [|erewrite bind_ok by done; by rewrite Ec].
  rewrite Eu. simpl. destruct (us_user_reg u) as [r|] eqn:Er; [|by eexists].
  destruct (re_user _ _ _ R) as (i & Ei & _ & Hn). rewrite (ids_of _ _ _ Ec) in Ei. injection Ei as <-.
  destruct (acc_reg _ (ni_accounts _ (proj1 (re_good _ _ _ R))) p _ r (ids_of _ _ _ Ec) Hn) as [reg Ereg].
  { simpl. by rewrite Eu. }
  eexists. erewrite bind_ok; [done|]. erewrite bind_ok by done. by rewrite Ereg.
Qed.

Lemma tallies_service_error w s p text : ready w s p → tallies (service_error s p text) w.
Proof.
  intros R. apply tallies_quiet, quiet_service_error; [by eapply ready_service|].
  destruct (ready_user _ _ _ R) as (c & u & Ec & _). by exists c.
Qed.

Lemma tallies_service_err w s p id args : ready w s p → tallies (service_err s p id args) w.
Proof.
  intros R. destruct (user_language_run w s p R) as [l El]. unfold service_err, tallies.
  apply wp_bind. apply (wp_ok _ _ _ _ _ El). by apply tallies_service_error.
Qed.

Lemma lang_get_cachefile_run w s p t : ready w s p → ∃ f, lang_get_cachefile t p w = Ok f w.
Proof.
  intros R. destruct (user_language_run w s p R) as [l El]. unfold lang_get_cachefile.
  rewrite (bind_ok _ _ _ _ _ El). erewrite bind_ok by done. by eexists.
Qed.

Lemma has_cachefile_run w s p t :
  ready w s p → ∃ b, has_cachefile t p w = Ok b w ∧
    (b = true → ∃ t' f, t = Some t' ∧ lang_get_cachefile t' p w = Ok (Some f) w).
Proof.
  intros R. destruct t as [t|]; [|by exists false]. destruct (lang_get_cachefile_run w s p t R) as [f Ef].
  unfold has_cachefile. rewrite (bind_ok _ _ _ _ _ Ef). exists (bool_decide (is_Some f)). split; [done|].
  intros [x ->]%bool_decide_eq_true. by exists t, x.
Qed.

Lemma tallies_send_file s p lines : ∀ w, ready w s p → tallies (send_file s p lines) w.
Proof.
  induction lines as [|line lines IH]; intros w R; simpl; [apply tallies_ret|].
  apply tallies_bind; [by apply tallies_service_error|]. intros [] w' Ht. apply IH. by eapply ready_tally.
Qed.

Lemma tallies_upd_user w s p f : ready w s p → counts_user f → tallies (upd_user p f) w.
Proof.
  intros R Hf. destruct (ready_user _ _ _ R) as (c & u & Ec & Eu). unfold tallies. eapply wp_upd_user; [done..|].
  by apply (tally_user w p f).
Qed.

Lemma tallies_upd_service w s p f : ready w s p → counts_service f → tallies (upd_service s f) w.
Proof.
  intros R Hf. destruct (ready_service _ _ _ R) as (c & sv & Ec & Es). unfold tallies. eapply wp_upd_service; [done..|].
  by apply (tally_service w s f).
Qed.

Lemma tallies_add_flood_count w s p n : ready w s p → tallies (add_flood_count p n) w.
Proof. intros R. by eapply tallies_upd_user. Qed.

Lemma tallies_add_flood w s p n : ready w s p → tallies (add_flood s n) w.
Proof. intros R. by eapply tallies_upd_service. Qed.

Lemma tallies_refuse w s p id args : ready w s p → tallies (refuse s p id args) w.
Proof.
  intros R. unfold refuse. apply tallies_bind; [by apply tallies_service_err|]. intros [] w1 T1.
  apply tallies_bind; [by eapply tallies_add_flood_count, ready_tally|]. intros [] w2 T2.
  eapply tallies_add_flood, ready_tally; [exact T2|]. by eapply ready_tally.
Qed.
End replies.

#[export] Hint Resolve tallies_ret tallies_when tallies_service_error tallies_service_err tallies_send_file
  tallies_add_flood_count tallies_add_flood tallies_refuse ready_tally : tally.

(** ** The parts of [handle_service()] *)
Section steps.
Context `{SYS : Sys} `{RB : !RbSpec} `{HK : !HooksOk}.

(** The first block that passes the test, among live ones. *)
Lemma find_conf_oper_run w username host server login :
  requests_ok w → ∃ r, find_conf_oper username host server login w = Ok r w ∧
    match r with
    | Some o => o ∈ conf_oper_list w ∧ ∃ b, conf_opers w !! o = Some b ∧ oper_matches username host server login b = true
    | None => ∀ o b, o ∈ conf_oper_list w → conf_opers w !! o = Some b → oper_matches username host server login b = false
    end.
Proof.
  intros Hw. unfold find_conf_oper. erewrite bind_ok by done.
  apply (find_first_heap conf_opers (oper_matches username host server login)).
  - intros p b E. unfold rd. erewrite bind_ok; [|erewrite bind_ok by done; by rewrite E]. done.
  - apply Hw.
Qed.

Lemma servername_run w s p c u :
  ready w s p → clients w !! p = Some c → cl_user c = Some u → ∃ n, servername_of u w = Ok n w.
Proof.
  intros R Ec Eu. destruct (re_user _ _ _ R) as (i & Ei & _ & Hn).
  destruct (live_servername w p c u (proj1 (re_good _ _ _ R))) as [sv Esv]; [by exists i|done..|].
  exists (cl_name sv). unfold servername_of, rd. erewrite bind_ok; [done|]. erewrite bind_ok by done. by rewrite Esv.
Qed.

Lemma find_user_oper_run w s p login :
  ready w s p → ∃ r, find_user_oper p login w = Ok r w ∧ (∀ o, r = Some o → o ∈ conf_oper_list w ∧ is_Some (conf_opers w !! o)).
Proof.
  intros R. destruct (ready_user _ _ _ R) as (c & u & Ec & Eu). destruct (servername_run w s p c u R Ec Eu) as [n En].
  unfold find_user_oper. assert (user_of p w = Ok u w) as Hu.
  { unfold user_of, rd. erewrite bind_ok; [|erewrite bind_ok by done; by rewrite Ec]. by rewrite Eu. }
  rewrite (bind_ok _ _ _ _ _ Hu), (bind_ok _ _ _ _ _ En).
  destruct (find_conf_oper_run w (us_username u) (us_host u) n login (re_requests _ _ _ R)) as (r & Er & Hr).
  exists r. split; [done|]. intros o ->. destruct Hr as (Ho & b & Eb & _). split; [done|by exists b].
Qed.

Lemma wp_user_read w s p (Q : user → world → Prop) :
  ready w s p → (∀ c u, clients w !! p = Some c → cl_user c = Some u → Q u w) → wp (user_of p) Q w.
Proof. intros R HQ. destruct (ready_user _ _ _ R) as (c & u & Ec & Eu). eapply wp_user_of; [done..|]. by eapply HQ. Qed.

Lemma wp_service_read w s p (Q : service → world → Prop) :
  ready w s p → (∀ c sv, clients w !! s = Some c → cl_service c = Some sv → Q sv w) → wp (service_of s) Q w.
Proof. intros R HQ. destruct (ready_service _ _ _ R) as (c & sv & Ec & Es). eapply wp_service_of; [done..|]. by eapply HQ. Qed.

Lemma wp_rd_service w s p (Q : client → world → Prop) :
  ready w s p → (∀ c, clients w !! s = Some c → Q c w) → wp (rd clients s) Q w.
Proof. intros R HQ. destruct (ready_service _ _ _ R) as (c & sv & Ec & Es). eapply wp_rd; [done..|]. by eapply HQ. Qed.

(** The block of a user who is logged in. *)
Lemma user_block w s p c u o :
  ready w s p → clients w !! p = Some c → cl_user c = Some u → us_oper u = Some o → is_Some (conf_opers w !! o).
Proof.
  intros R Ec Eu Eo. destruct (re_user _ _ _ R) as (i & Ei & _ & Hn). rewrite (ids_of _ _ _ Ec) in Ei. injection Ei as <-.
  apply (acc_block _ (ni_accounts _ (proj1 (re_good _ _ _ R))) p _ o (ids_of _ _ _ Ec) Hn). simpl. by rewrite Eu.
Qed.

Lemma wp_oper_field w s p c u field (Q : option Z → world → Prop) :
  ready w s p → clients w !! p = Some c → cl_user c = Some u → (∀ f, Q f w) → wp (oper_field field u) Q w.
Proof.
  intros R Ec Eu HQ. unfold oper_field. destruct (us_oper u) as [o|] eqn:Eo; [|by apply wp_ret].
  destruct (user_block w s p c u o R Ec Eu Eo) as [b Eb]. apply wp_bind. eapply wp_rd; [exact Eb|]. by apply wp_ret.
Qed.

Lemma wp_stealthy w s p (Q : bool → world → Prop) :
  ready w s p → (∀ b, Q b w) → wp (stealthy s p) Q w.
Proof.
  intros R HQ. unfold stealthy. apply wp_bind. eapply wp_service_read; [done|]. intros cs sv Ecs Esv.
  apply wp_bind. eapply wp_user_read; [done|]. intros c u Ec Eu. by apply wp_ret.
Qed.

(** Whether the message is ignored: nothing changes. *)
Lemma wp_ignored w s p command (Q : bool → world → Prop) :
  ready w s p → (∀ b, Q b w) →
  wp (ignored ← find_ignore p;
      if negb (ignored : bool) then mret false
      else if negb (strcasecmp command "OLOGIN" =? 0) then mret true
      else o ← find_user_oper p None; mret (bool_decide (o = None))) Q w.
Proof.
  intros R HQ. apply wp_bind. unfold find_ignore. apply wp_bind. eapply wp_user_read; [done|]. intros c u Ec Eu.
  apply wp_bind, wp_gets, wp_ret. destruct (negb _); [by apply wp_ret|]. destruct (negb _); [by apply wp_ret|].
  destruct (find_user_oper_run w s p None R) as (r & Er & _). apply wp_bind. apply (wp_ok _ _ _ _ _ Er). by apply wp_ret.
Qed.

Lemma tallies_flood_limit w s p command : ready w s p → tallies (flood_limit s p command) w.
Proof.
  intros R. unfold flood_limit, tallies. apply wp_bind. eapply wp_user_read; [done|]. intros c u Ec Eu.
  destruct (us_oper u); [by apply wp_ret|].
  apply wp_assoc, wp_bind. eapply wp_ignored; [done|]. intros skip. destruct skip; [by apply wp_ret|].
  apply wp_bind. apply (wp_gets (fun s => s)). apply wp_bind. eapply wp_tallies.
  { apply tallies_when. by eapply tallies_upd_user. }
  intros [] w1 T1. pose proof (ready_tally _ _ _ _ T1 R) as R1.
  apply wp_bind. eapply wp_user_read; [done|]. intros c1 u1 Ec1 Eu1. destruct (_ <? us_flood_count u1).
  - eapply wp_tallies.
    { apply tallies_bind; [by eapply tallies_add_flood_count|]. intros [] w2 T2.
      apply tallies_bind; [eapply tallies_upd_service; [by eapply ready_tally|done]|]. intros [] w3 T3. apply tallies_ret. }
    intros b w2 T2. by etrans.
  - apply wp_bind. eapply wp_service_read; [done|]. intros c2 sv2 Ec2 Es2. destruct (_ || _); [|by apply wp_ret].
    eapply wp_tallies.
    { apply tallies_bind; [by apply tallies_service_err|]. intros [] w2 T2. pose proof (ready_tally _ _ _ _ T2 R1) as R2.
      apply tallies_bind; [by eapply tallies_add_flood_count|]. intros [] w3 T3.
      apply tallies_bind; [eapply tallies_upd_service; [by eapply ready_tally|done]|]. intros [] w4 T4. apply tallies_ret. }
    intros b w2 T2. by etrans.
Qed.
End steps.

Section help.
Context `{SYS : Sys} `{RB : !RbSpec} `{HK : !HooksOk}.

Lemma wp_lang_file w s p t (Q : option (list string) → world → Prop) :
  ready w s p → (∀ f, Q f w) → wp (lang_get_cachefile t p) Q w.
Proof. intros R HQ. destruct (lang_get_cachefile_run w s p t R) as [f Ef]. apply (wp_ok _ _ _ _ _ Ef), HQ. Qed.

Lemma wp_has_file w s p t (Q : bool → world → Prop) :
  ready w s p → (∀ b, Q b w) → wp (has_cachefile t p) Q w.
Proof. intros R HQ. destruct (has_cachefile_run w s p t R) as (b & Eb & _). apply (wp_ok _ _ _ _ _ Eb), HQ. Qed.

(** The short list, or the index files. *)
Lemma tallies_help_index w s p :
  ready w s p → (∀ c sv, clients w !! s = Some c → cl_service c = Some sv → is_Some (sr_command sv)) →
  tallies (handle_service_help_index s p) w.
Proof.
  intros R Hcmd. unfold handle_service_help_index, tallies.
  apply wp_bind. eapply wp_service_read; [done|]. intros cs sv Ecs Esv.
  apply wp_bind. eapply wp_user_read; [done|]. intros c u Ec Eu.
  apply wp_bind. eapply wp_rd_service; [done|]. intros cs' Ecs'.
  apply wp_bind, wp_conseq with (Q := fun _ w' => w' = w).
  { destruct (has_flag _ _); [by apply wp_ret|]. apply wp_bind. eapply wp_has_file; [done|]. intros h.
    destruct h; [by apply wp_ret|]. case_bool_decide; [by apply wp_ret|].
    apply wp_bind. eapply wp_has_file; [done|]. intros a. by apply wp_ret. }
  intros short ? ->. destruct short.
  - apply wp_bind. eapply wp_oper_field; [done..|]. intros flags.
    apply tallies_bind.
    + destruct (negb _); [|by apply tallies_service_err]. apply tallies_bind; [by apply tallies_service_err|].
      intros [] w1 T1. eapply tallies_service_err, ready_tally; [exact T1|done].
    + intros [] w1 T1. eapply tallies_upd_service; [by eapply ready_tally|done].
  - destruct (rq_help _ (re_requests _ _ _ R) s cs sv Ecs Esv (Hcmd cs sv Ecs Esv)) as [[h1 E1] [h2 E2]].
    apply tallies_bind; [by eapply tallies_add_flood|]. intros [] w1 T1. pose proof (ready_tally _ _ _ _ T1 R) as R1.
    rewrite E1, E2. apply wp_bind, wp_ret. apply wp_bind. eapply wp_lang_file; [done|]. intros f1.
    apply tallies_bind; [by apply tallies_send_file|]. intros [] w2 T2. pose proof (ready_tally _ _ _ _ T2 R1) as R2.
    apply wp_bind, wp_ret. apply wp_bind. eapply wp_lang_file; [done|]. intros f2.
    destruct (us_oper u); [|by apply wp_ret]. destruct f2; [|by apply wp_ret].
    apply tallies_bind; [by apply tallies_service_err|]. intros [] w3 T3. by eapply tallies_send_file, ready_tally.
Qed.

Lemma tallies_help w s p topic : ready w s p → tallies (handle_service_help s p topic) w.
Proof.
  intros R. unfold handle_service_help, tallies. apply wp_bind. eapply wp_service_read; [done|]. intros cs sv Ecs Esv.
  destruct (bsearch _ _) as [[i e]|]; [|by apply tallies_service_err].
  apply wp_bind. eapply wp_user_read; [done|]. intros c u Ec Eu.
  destruct (has_cachefile_run w s p (scm_helpfile e) R) as (b & Eb & Hb). apply wp_bind. apply (wp_ok _ _ _ _ _ Eb).
  destruct b; cbn [negb orb]; [|by apply tallies_service_err]. destruct (_ && _); [by apply tallies_service_err|].
  destruct (Hb eq_refl) as (t & f & Et & Ef). apply wp_bind. eapply wp_need; [exact Et|].
  apply wp_bind. apply (wp_ok _ _ _ _ _ Ef). apply wp_bind, wp_ret.
  apply tallies_bind; [by apply tallies_send_file|]. intros [] w1 T1. pose proof (ready_tally _ _ _ _ T1 R) as R1.
  apply tallies_bind; [by eapply tallies_add_flood|]. intros [] w2 T2.
  eapply tallies_upd_service; [eapply ready_tally; [exact T2|done]|done].
Qed.

Lemma tallies_handle_help w s p parv :
  ready w s p → (∀ c sv, clients w !! s = Some c → cl_service c = Some sv → is_Some (sr_command sv)) →
  tallies (handle_help s p parv) w.
Proof.
  intros R Hcmd. unfold handle_help, tallies. apply wp_bind. eapply wp_stealthy; [done|]. intros [|]; [by apply wp_ret|].
  apply wp_bind. eapply wp_rd_service; [done|]. intros cs Ecs. apply wp_bind. eapply wp_service_read; [done|].
  intros cs' sv Ecs' Esv. apply wp_bind. eapply wp_user_read; [done|]. intros c u Ec Eu.
  destruct (_ && negb _); [by apply tallies_service_err|].
  apply tallies_bind; [by eapply tallies_add_flood_count|]. intros [] w1 T1. pose proof (ready_tally _ _ _ _ T1 R) as R1.
  apply tallies_bind; [by eapply tallies_add_flood|]. intros [] w2 T2. pose proof (ready_tally _ _ _ _ T2 R1) as R2.
  assert (∀ c sv, clients w2 !! s = Some c → cl_service c = Some sv → is_Some (sr_command sv)) as Hcmd2.
  { assert (tally w w2) as T by (by etrans). intros c2 sv2 Ec2 Es2.
    destruct (parts_back _ _ _ _ (ta_parts _ _ T) Ec2) as (c0 & Ec0 & Ep). injection Ep as _ Ep. rewrite Es2 in Ep.
    simpl in Ep. symmetry in Ep. apply fmap_Some in Ep as (sv0 & Es0 & Ep). injection Ep as Eb _ _.
    rewrite <- offered_some, Eb, offered_some. by eapply Hcmd. }
  destruct parv as [|topic parv]; [by apply tallies_help_index|].
  destruct (is_empty _); [by apply tallies_help_index|by apply tallies_help].
Qed.
End help.

(** ** One login changes *)
Definition with_oper (x : option ptr) (i : ident) : ident := i <| id_oper := x |>.

Lemma filter_change {A} `{EqDecision A} (f g : A → bool) p l :
  NoDup l → p ∈ l → (∀ y, y ≠ p → f y = g y) →
  (length (filter (fun y => g y = true) l) + (if f p then 1 else 0) =
   length (filter (fun y => f y = true) l) + (if g p then 1 else 0))%nat.
Proof.
  intros Hnd Hp Hfg. induction l as [|y l IH]; [by apply elem_of_nil in Hp|].
  apply NoDup_cons in Hnd as [Hy Hnd]. rewrite !filter_cons. destruct (decide (y = p)) as [->|Hne].
  - rewrite (filter_ext_in (fun y => f y = true) (fun y => g y = true) l).
    + destruct (f p) eqn:Ef, (g p) eqn:Eg; repeat case_decide; try done; simpl; lia.
    + intros z Hz. rewrite Hfg; [done|]. by intros ->.
  - apply elem_of_cons in Hp as [->|Hp]; [done|]. specialize (IH Hnd Hp). rewrite (Hfg y Hne).
    destruct (g y) eqn:Eg; repeat case_decide; try done; simpl; lia.
Qed.

Section relogged.
Context `{SYS : Sys} `{RB : !RbSpec}.

(** The world [w'] after the login of the user [p] has become [x]. *)
Record relogged (p : ptr) (x : option ptr) (w w' : world) : Prop := Relogged {
  rl_user : filed_kind (ids w) KUser true p;
  rl_ids : ids w' = alter (with_oper x) p (ids w);
  rl_name : name_table w' = name_table w;
  rl_uid : uid_table w' = uid_table w;
  rl_users : user_list w' = user_list w;
  rl_servers : server_list w' = server_list w;
  rl_exited : exited_list w' = exited_list w;
  rl_services : service_list w' = service_list w;
  rl_regs : user_regs w' = user_regs w;
  rl_entries : client_oper_list w' = client_oper_list w;
  rl_opers : oper_list w' = match x with Some _ => rb_dlinkAdd p (oper_list w) | None => rb_dlinkFindDestroy p (oper_list w) end
}.

Section facts.
Context (w w' : world) (p : ptr) (x : option ptr) (Hr : relogged p x w w').

Lemma relogged_lookup y j' :
  ids w' !! y = Some j' ↔ ∃ j, ids w !! y = Some j ∧ j' = if decide (p = y) then with_oper x j else j.
Proof. rewrite (rl_ids _ _ _ _ Hr), lookup_alter_iff. naive_solver. Qed.

Lemma relogged_with (P : ident → Prop) y : (∀ j, P (with_oper x j) ↔ P j) → with_ident (ids w') P y ↔ with_ident (ids w) P y.
Proof.
  intros HP. unfold with_ident. setoid_rewrite relogged_lookup. split.
  - intros (j' & (j & E & ->) & Hj). exists j. split; [done|]. case_decide; [by apply HP|done].
  - intros (j & E & Hj). eexists. split; [by exists j|]. case_decide; [by apply HP|done].
Qed.

Lemma relogged_kind k net y : filed_kind (ids w') k net y ↔ filed_kind (ids w) k net y.
Proof. by apply (relogged_with (fun j => id_kind j = k ∧ id_net j = net)). Qed.

Lemma relogged_behind k q y : behind (ids w') k q y ↔ behind (ids w) k q y.
Proof. by apply (relogged_with (fun j => id_kind j = k ∧ id_net j = true ∧ id_uplink j = Some q)). Qed.

Lemma relogged_back y j' : ids w' !! y = Some j' → ∃ j, ids w !! y = Some j ∧ with_oper None j' = with_oper None j.
Proof. intros (j & E & ->)%relogged_lookup. exists j. split; [done|]. by case_decide. Qed.

Lemma tables_relogged : tables_ok w → tables_ok w'.
Proof.
  intros Hw. split.
  - rewrite (rl_name _ _ _ _ Hr). eapply indexed_iff; [|apply Hw]. intros y h. symmetry.
    by apply (relogged_with (fun j => id_net j = true ∧ hash_name (id_name j) = h)).
  - rewrite (rl_uid _ _ _ _ Hr). eapply indexed_iff; [|apply Hw]. intros y h. symmetry.
    by apply (relogged_with (fun j => id_net j = true ∧ id_uid j ≠ ""%string ∧ hash_name (id_uid j) = h)).
  - rewrite (rl_users _ _ _ _ Hr). eapply lists_iff; [|apply Hw]. intros y. symmetry. apply relogged_kind.
  - rewrite (rl_servers _ _ _ _ Hr). eapply lists_iff; [|apply Hw]. intros y. symmetry. apply relogged_kind.
  - rewrite (rl_exited _ _ _ _ Hr). eapply lists_iff; [|apply Hw]. intros y. simpl. by rewrite !relogged_kind.
  - rewrite (rl_services _ _ _ _ Hr). eapply lists_iff; [|apply Hw]. intros y. symmetry.
    by apply (relogged_with (fun j => id_kind j = KService)).
  - intros y j' (j & E & Eb)%relogged_back. injection Eb as -> -> -> _ _ _ _ _ _. by apply (tab_ident _ Hw y j).
Qed.

Lemma tree_relogged : tree_ok w → tree_ok w'.
Proof.
  intros Hw. split.
  - intros y j' (j & E & Eb)%relogged_back. injection Eb as _ _ -> -> -> _ _ _ _. by apply (tree_user _ Hw y).
  - intros y j' (j & E & Eb)%relogged_back. injection Eb as _ _ -> -> -> _ _ _ ->. by apply (tree_home _ Hw y).
  - intros y j' (j & E & Eb)%relogged_back. injection Eb as _ _ -> _ -> _ _ _ _. by apply (tree_service _ Hw y).
  - intros y j' q (j & E & Eb)%relogged_back. injection Eb as _ _ _ -> -> _ _ _ _. rewrite relogged_kind. by apply (tree_uplink _ Hw y).
  - intros q j' (j & E & Eb)%relogged_back. injection Eb as _ _ -> -> _ -> _ _ _. intros Hk Hn.
    eapply lists_iff; [|by apply (tree_users _ Hw q j)]. intros y. symmetry. apply relogged_behind.
  - intros q j' (j & E & Eb)%relogged_back. injection Eb as _ _ -> -> _ _ -> _ _. intros Hk Hn.
    eapply lists_iff; [|by apply (tree_servers _ Hw q j)]. intros y. symmetry. apply relogged_behind.
  - destruct (tree_depth _ Hw) as [depth Hd]. exists depth.
    intros y j' q (j & E & Eb)%relogged_back. injection Eb as _ _ _ -> -> _ _ _ _. by apply Hd.
Qed.

(** The uses of a block follow. *)
Lemma uses_relogged i o : tables_ok w → ids w !! p = Some i →
  (block_uses w' o + (if decide (id_oper i = Some o) then 1 else 0) =
   block_uses w o + (if decide (x = Some o) then 1 else 0))%nat.
Proof.
  intros Ht Ei. destruct (tab_users w Ht) as [Hnd Hl].
  pose proof (filter_change (uses_block (ids w) o) (uses_block (ids w') o) p (user_list w) Hnd) as Hf.
  unfold block_uses. rewrite (rl_users _ _ _ _ Hr), (rl_entries _ _ _ _ Hr).
  assert (uses_block (ids w) o p = bool_decide (id_oper i = Some o)) as E1 by (unfold uses_block; by rewrite Ei).
  assert (uses_block (ids w') o p = bool_decide (x = Some o)) as E2.
  { unfold uses_block. by rewrite (rl_ids _ _ _ _ Hr), lookup_alter, decide_True, Ei by done. }
  rewrite E1, E2 in Hf. assert (p ∈ user_list w) as Hp by (apply Hl, Hr).
  assert (∀ y, y ≠ p → uses_block (ids w) o y = uses_block (ids w') o y) as Ho.
  { intros y Hy. unfold uses_block. by rewrite (rl_ids _ _ _ _ Hr), lookup_alter_ne. }
  specialize (Hf Hp Ho). rewrite !bool_decide_decide in Hf.
  destruct (decide (id_oper i = Some o)), (decide (x = Some o)); lia.
Qed.
End facts.
End relogged.

Section logins.
Context `{SYS : Sys} `{RB : !RbSpec} `{HK : !HooksOk}.

Definition set_login (x : option ptr) (u : user) : user := u <| us_oper := x |>.

(** After OLOGIN with the block [o], and after OLOGOUT from it. *)
Definition login_world (p o : ptr) (w : world) : world :=
  w <| clients ::= alter (upd_user_field (set_login (Some o))) p |> <| conf_opers ::= alter (add_ref 1) o |>
    <| oper_list ::= rb_dlinkAdd p |>.
Definition logout_world (p o : ptr) (w : world) : world :=
  w <| conf_opers ::= drop_ref o |> <| clients ::= alter (upd_user_field (set_login None)) p |>
    <| oper_list ::= rb_dlinkFindDestroy p |>.

Lemma ident_login x c u : cl_user c = Some u → ident_of (upd_user_field (set_login x) c) = with_oper x (ident_of c).
Proof.
  intros Eu. unfold ident_of, kind_of, on_net, users_behind, servers_behind, with_oper. simpl. by rewrite Eu.
Qed.

Lemma ids_login x p c u w :
  clients w !! p = Some c → cl_user c = Some u →
  ident_of <$> alter (upd_user_field (set_login x)) p (clients w) = alter (with_oper x) p (ids w).
Proof. intros Ec Eu. apply ids_alter_ident. intros c' E. simplify_eq. by eapply ident_login. Qed.

Lemma places_login x c : places (upd_user_field (set_login x) c) = places c.
Proof. unfold places. simpl. by destruct (cl_user c). Qed.

Lemma login_relogged p o c u w :
  filed_kind (ids w) KUser true p → clients w !! p = Some c → cl_user c = Some u →
  relogged p (Some o) w (login_world p o w).
Proof. intros Hp Ec Eu. split; try done. unfold ids at 1. simpl. by eapply ids_login. Qed.

Lemma logout_relogged p o c u w :
  filed_kind (ids w) KUser true p → clients w !! p = Some c → cl_user c = Some u →
  relogged p None w (logout_world p o w).
Proof. intros Hp Ec Eu. split; try done. unfold ids at 1. simpl. by eapply ids_login. Qed.

Lemma relogged_net_inv p x w w' :
  relogged p x w w' → same_places w w' → accounts_ok w' → net_inv w → net_inv w'.
Proof.
  intros Hr Hs Ha Hw. split.
  - eapply chan_inv_places; [apply Hw|done].
  - eapply tables_relogged; [done|apply Hw].
  - eapply tree_relogged; [done|apply Hw].
  - done.
  - intros m mb. rewrite (sp_members _ _ Hs), (relogged_kind _ _ _ _ Hr). apply Hw.
Qed.

(** Who is on the list of operators after the change. *)
Lemma relogged_opers p x w w' i :
  relogged p x w w' → ids w !! p = Some i → (is_Some x → id_oper i = None) → accounts_ok w →
  lists (oper_list w') (fun q => ∃ j, ids w' !! q = Some j ∧ id_net j = true ∧ id_kind j = KUser ∧ is_Some (id_oper j)).
Proof.
  intros Hr Ei Hx Ha. destruct (rl_user _ _ _ _ Hr) as (i' & Ei' & Hk & Hn). simplify_eq.
  rewrite (rl_opers _ _ _ _ Hr). destruct x as [o|].
  - eapply lists_iff; [|apply lists_add; [apply Ha|]].
    + intros q. cbn beta. setoid_rewrite (relogged_lookup _ _ _ _ Hr). split.
      * intros [(j & Ej & Hj)| ->].
        -- eexists. split; [by exists j|]. case_decide; [subst; destruct Hj as (? & ? & ?); by split_and!|done].
        -- eexists. split; [by exists i|]. rewrite decide_True by done. by split_and!.
      * intros (j' & (j & Ej & ->) & Hj). case_decide as E; [by right|left; by exists j].
    + intros (j & Ej & _ & _ & Ho). simplify_eq. rewrite Hx in Ho by (by eexists). by destruct Ho.
  - eapply lists_iff; [|apply lists_destroy; apply Ha].
    intros q. cbn beta. setoid_rewrite (relogged_lookup _ _ _ _ Hr). split.
    + intros [(j & Ej & Hj) Hq]. exists j. split; [|done]. exists j. by rewrite decide_False by congruence.
    + intros (j' & (j & Ej & ->) & Hn' & Hk' & Ho). case_decide as E; [by destruct Ho|].
      split; [by exists j|congruence].
Qed.

Lemma good_login p o c u w :
  good w → filed_kind (ids w) KUser true p → clients w !! p = Some c → cl_user c = Some u → us_oper u = None →
  is_Some (conf_opers w !! o) → good (login_world p o w).
Proof.
  intros [Hw Hi] Hp Ec Eu Eo Hb. pose proof (login_relogged p o c u w Hp Ec Eu) as Hr. pose proof (ids_of _ _ _ Ec) as Ei.
  assert (id_oper (ident_of c) = None) as Eio by (simpl; by rewrite Eu).
  assert (∀ q, is_Some (conf_opers w !! q) → is_Some (conf_opers (login_world p o w) !! q)) as Hkeep.
  { intros q Hq. simpl. by apply lookup_alter_is_Some. }
  destruct (ni_accounts _ Hw) as [A1 A2 A3 A4 A5]. split; [|exact Hi].
  eapply relogged_net_inv; [exact Hr| | |done].
  { apply (same_places_trans _ (w <| clients ::= alter (upd_user_field (set_login (Some o))) p |>));
      [apply places_alter, places_login|]. split; eauto. }
  split.
  - intros q j r (j0 & E0 & Eb)%(relogged_back _ _ _ _ Hr). injection Eb as _ _ _ En _ _ _ Er _. rewrite En, Er.
    rewrite (rl_regs _ _ _ _ Hr). by apply A1 with q.
  - by eapply relogged_opers; [|exact Ei| |apply Hw].
  - intros q j r (j0 & E0 & ->)%(relogged_lookup _ _ _ _ Hr). case_decide as Eq.
    + intros _ [= <-]. by apply Hkeep.
    + intros Hn Ho. apply Hkeep. by eapply A3.
  - intros e He. by apply Hkeep, A4.
  - intros q b' Eb'. apply lookup_alter_iff in Eb' as (b & Eb & ->). pose proof (A5 q b Eb) as Hc.
    pose proof (uses_relogged _ _ _ _ Hr (ident_of c) q (ni_tables _ Hw) Ei) as Hu. rewrite Eio in Hu.
    rewrite (decide_False (P := None = Some q)) in Hu by done.
    destruct (decide (o = q)) as [->|Hq]; [rewrite decide_True in Hu by done|rewrite decide_False in Hu by congruence]; simpl; lia.
Qed.

Lemma good_logout p o c u w :
  good w → filed_kind (ids w) KUser true p → clients w !! p = Some c → cl_user c = Some u → us_oper u = Some o →
  good (logout_world p o w).
Proof.
  intros [Hw Hi] Hp Ec Eu Eo. pose proof (logout_relogged p o c u w Hp Ec Eu) as Hr. pose proof (ids_of _ _ _ Ec) as Ei.
  assert (id_oper (ident_of c) = Some o) as Eio by (simpl; by rewrite Eu).
  pose proof (ni_tables _ Hw) as Ht. pose proof (ni_accounts _ Hw) as [A1 A2 A3 A4 A5].
  assert (∀ q, (block_uses (logout_world p o w) q + (if decide (o = q) then 1 else 0) = block_uses w q)%nat) as Huses.
  { intros q. pose proof (uses_relogged _ _ _ _ Hr (ident_of c) q Ht Ei) as Hu. rewrite Eio in Hu.
    rewrite (decide_False (P := None = Some q)) in Hu by done.
    destruct (decide (o = q)) as [->|Hq]; [rewrite decide_True in Hu by done|rewrite decide_False in Hu by congruence]; lia. }
  assert (∀ q, is_Some (conf_opers w !! q) → (0 < block_uses (logout_world p o w) q)%nat →
    is_Some (conf_opers (logout_world p o w) !! q)) as Hkeep.
  { intros q [b Eb] Hq. destruct (drop_ref_kept o (conf_opers w) q b Eb) as [?|[-> Hz]]; [done|].
    pose proof (A5 q b Eb). specialize (Huses q). rewrite decide_True in Huses by done. lia. }
  assert (tables_ok (logout_world p o w)) as Ht' by (eapply tables_relogged; [exact Hr|done]).
  split; [|exact Hi]. eapply relogged_net_inv; [exact Hr| | |done].
  { apply (same_places_trans _ (w <| clients ::= alter (upd_user_field (set_login None)) p |>));
      [apply places_alter, places_login|]. split; eauto. }
  split.
  - intros q j r (j0 & E0 & Eb)%(relogged_back _ _ _ _ Hr). injection Eb as _ _ _ En _ _ _ Er _. rewrite En, Er.
    rewrite (rl_regs _ _ _ _ Hr). by apply A1 with q.
  - eapply relogged_opers; [exact Hr|exact Ei|by intros [? ?]|apply Hw].
  - intros q j r Ej Hn Ho. apply Hkeep; [|by eapply user_uses].
    apply (relogged_lookup _ _ _ _ Hr) in Ej as (j0 & E0 & ->). case_decide; [done|]. by eapply A3.
  - intros e He. apply Hkeep; [by apply A4|by apply entry_uses].
  - intros q b' (b & Eb & Hc)%drop_ref_blocks. pose proof (A5 q b Eb). specialize (Huses q). case_decide; lia.
Qed.
End logins.

(** ** OLOGIN and OLOGOUT *)
Section oper.
Context `{SYS : Sys} `{RB : !RbSpec} `{HK : !HooksOk}.

Lemma quiet_server_notice w s p text : ready w s p → quiet (server_notice p text) w.
Proof.
  intros R. destruct (ready_user _ _ _ R) as (c & u & Ec & _). unfold server_notice, quiet.
  apply wp_bind. apply (wp_gets (fun s => s)). apply wp_bind. eapply wp_rd; [exact Ec|]. apply quiet_sendto_server.
Qed.

Lemma tallies_server_notice w s p text : ready w s p → tallies (server_notice p text) w.
Proof. intros R. by eapply tallies_quiet, quiet_server_notice. Qed.

Lemma wp_oper_name w s p c u :
  ready w s p → clients w !! p = Some c → cl_user c = Some u → wp (OPER_NAME u) (fun _ w' => w' = w) w.
Proof.
  intros R Ec Eu. unfold OPER_NAME. destruct (us_oper u) as [o|] eqn:Eo; [|by apply wp_ret].
  destruct (user_block w s p c u o R Ec Eu Eo) as [b Eb]. apply wp_bind. eapply wp_rd; [exact Eb|]. by apply wp_ret.
Qed.

(** The registration that a user is logged in to is there. *)
Lemma user_registration w s p c u r :
  ready w s p → clients w !! p = Some c → cl_user c = Some u → us_user_reg u = Some r → is_Some (user_regs w !! r).
Proof.
  intros R Ec Eu Er. destruct (re_user _ _ _ R) as (i & Ei & _ & Hn). rewrite (ids_of _ _ _ Ec) in Ei. injection Ei as <-.
  apply (acc_reg _ (ni_accounts _ (proj1 (re_good _ _ _ R))) p _ r (ids_of _ _ _ Ec) Hn). simpl. by rewrite Eu.
Qed.

Lemma wp_reg_name w s p c u :
  ready w s p → clients w !! p = Some c → cl_user c = Some u → wp (reg_name u) (fun _ w' => w' = w) w.
Proof.
  intros R Ec Eu. unfold reg_name. destruct (us_user_reg u) as [r|] eqn:Er; [|by apply wp_ret].
  destruct (user_registration w s p c u r R Ec Eu Er) as [g Eg]. apply wp_bind. eapply wp_rd; [exact Eg|]. by apply wp_ret.
Qed.

(** Every operator on the list can be told. *)
Lemma quiet_watch_send w s p flag oper text : ready w s p → quiet (watch_send flag p oper text) w.
Proof.
  intros R. destruct (ready_user _ _ _ R) as (c & u & Ec & Eu). unfold watch_send, quiet.
  apply wp_bind. eapply wp_user_of; [done..|].
  apply wp_bind, wp_conseq with (Q := fun _ w' => w' = w).
  { destruct oper; [by eapply wp_oper_name|by eapply wp_reg_name]. }
  intros on ? ->. destruct (rq_mask _ (re_requests _ _ _ R) p c u Ec Eu) as [mask Em].
  apply wp_bind. eapply wp_need; [exact Em|].
  pose proof (acc_opers _ (ni_accounts _ (proj1 (re_good _ _ _ R)))) as [Hnd Hl].
  apply (wp_foreach_stable _ _ (fun _ _ w' => same_net w w')); [done|done| |done].
  intros pre q todo w' E _ Hs. assert (q ∈ oper_list w) as Hq by (rewrite <- (sn_oper_list _ _ Hs), E; set_solver).
  cut (quiet (u ← user_of q; when (has_flag (us_watchflags u) flag)
      (wp ← gets watchserv_p; watchserv ← need NullDeref wp;
       service_error watchserv q ("[watch:" ++ watch_find_name flag ++ "] [" ++ (if oper then "*" else "") ++ on ++ ":" ++ mask ++ "] " ++ str_take (BUFSIZE - 1) text))) w').
  { intros Hm. eapply wp_conseq; [exact Hm|]. cbn beta. intros _ w'' Hs'. split; [by rewrite (sn_oper_list _ _ Hs')|by etrans]. }
  apply Hl in Hq as (j & Ej & _ & Hk & _). destruct (kind_user w q (id_net j)) as (cq & uq & Ecq & Euq); [by exists j|].
  rewrite <- (sn_clients _ _ Hs) in Ecq. apply wp_bind. eapply wp_user_of; [done..|].
  apply quiet_when. intros _.
  destruct (rq_watch _ (re_requests _ _ _ R)) as (sv & i & Esv & Ei & Hki). rewrite <- (sn_watchserv _ _ Hs) in Esv.
  apply wp_bind. apply wp_gets. apply wp_bind. eapply wp_need; [exact Esv|].
  apply quiet_service_error; [|by exists cq]. rewrite (sn_clients _ _ Hs).
  apply (kind_service w sv (id_net i)). by exists i.
Qed.

Lemma requests_login w s p o c u :
  ready w s p → clients w !! p = Some c → cl_user c = Some u → requests_ok (login_world p o w).
Proof.
  intros R Ec Eu. pose proof (login_relogged p o c u w (re_user _ _ _ R) Ec Eu) as Hr.
  destruct (re_requests _ _ _ R) as [R1 R2 R3 R4 R5]. split.
  - intros q Hq. simpl. by apply lookup_alter_is_Some, R1.
  - destruct R2 as (sv & i & Esv & Ei & Hk). exists sv. eexists. split; [done|]. split.
    + apply (relogged_lookup _ _ _ _ Hr). by exists i.
    + by case_decide.
  - intros q c' u' E'. apply lookup_alter_iff in E' as (c0 & E0 & ->). intros Eu'. case_decide; [|by eapply R3].
    simpl in Eu'. apply fmap_Some in Eu' as (u0 & Eu0 & ->). by eapply (R3 q c0 u0).
  - intros q c' sv E'. apply lookup_alter_iff in E' as (c0 & E0 & ->). intros Es.
    eapply (R4 q c0 sv); [done|].
    revert Es. by case_decide.
  - intros q b' key E'. apply lookup_alter_iff in E' as (b & Eb & ->). intros He.
    assert (oper_pass (if decide (o = q) then add_ref 1 b else b) = oper_pass b) as -> by (by case_decide).
    apply (R5 q b key Eb). revert He. by case_decide.
Qed.

Lemma ready_login w s p o c u :
  ready w s p → clients w !! p = Some c → cl_user c = Some u → us_oper u = None →
  is_Some (conf_opers w !! o) → ready (login_world p o w) s p.
Proof.
  intros R Ec Eu Eo Hb. pose proof (login_relogged p o c u w (re_user _ _ _ R) Ec Eu) as Hr. split.
  - eapply good_login; [exact (re_good _ _ _ R)|exact (re_user _ _ _ R)|done..].
  - by eapply requests_login.
  - apply (relogged_kind _ _ _ _ Hr KUser true), (re_user _ _ _ R).
  - destruct (re_service _ _ _ R) as (i & Ei & Hk). eexists. split; [apply (relogged_lookup _ _ _ _ Hr); by exists i|].
    by case_decide.
Qed.

(** A computation after which the state is still sound. *)
Lemma tallies_good {A} (m : M world A) w : good w → tallies m w → wp m (fun _ => good) w.
Proof. intros Hw Hm. eapply wp_tallies; [done|]. intros a w' Ht. by apply Ht. Qed.

Lemma oper_login_good w s p parv : ready w s p → parv_ok parv → wp (oper_login s p parv) (fun _ => good) w.
Proof.
  intros R Hp. unfold oper_login. apply wp_bind. eapply wp_user_read; [done|]. intros c u Ec Eu.
  apply wp_bind. eapply wp_rd_service; [done|]. intros cs Ecs. destruct (us_oper u) eqn:Eo.
  { eapply tallies_good; [apply R|by eapply tallies_server_notice]. }
  assert (∀ text, wp (_ ← server_notice p text; add_flood_count p 1) (fun _ => good) w) as Hno.
  { intros text. eapply tallies_good; [apply R|]. apply tallies_bind; [by eapply tallies_server_notice|].
    intros [] w1 T1. by eapply tallies_add_flood_count, ready_tally. }
  destruct (_ <? _)%nat eqn:El; [apply Hno|]. apply Nat.ltb_ge in El.
  apply wp_bind, wp_arg; [done|lia|]. intros login _ _.
  destruct (find_user_oper_run w s p (Some login) R) as (r & Er & Hr). apply wp_bind. apply (wp_ok _ _ _ _ _ Er).
  destruct r as [o|]; [|apply Hno]. destruct (Hr o eq_refl) as [Ho [b Eb]]. apply wp_bind. eapply wp_rd; [exact Eb|].
  apply wp_bind, wp_arg; [done|lia|]. intros pass _ _.
  apply wp_bind, wp_conseq with (Q := fun _ w' => w' = w).
  { destruct (ConfOperEncrypted b) eqn:Ee; [|by apply wp_ret].
    destruct (rq_crypt _ (re_requests _ _ _ R) o b pass Eb Ee) as [x Ex]. by eapply wp_need. }
  intros crpass ? ->. destruct (negb _).
  { eapply tallies_good; [apply R|by eapply tallies_server_notice]. }
  apply wp_bind. eapply wp_conseq; [by eapply quiet_server_notice|]. cbn beta. intros [] w1 Hs.
  pose proof (ready_tally _ _ _ _ (tally_same _ _ Hs) R) as R1.
  rewrite <- (sn_clients _ _ Hs) in Ec. rewrite <- (sn_conf_opers _ _ Hs) in Eb.
  apply wp_bind. eapply wp_upd_user; [done..|]. apply wp_bind. unfold upd_oper. apply wp_bind. eapply wp_rd; [exact Eb|].
  apply wp_modify, wp_bind, wp_modify. change (_ <| oper_list ::= _ |>) with (login_world p o w1).
  assert (ready (login_world p o w1) s p) as R2 by (eapply ready_login; [done..|by exists b]).
  apply good_still; [exact (re_good _ _ _ R2)|by eapply quiet_watch_send].
Qed.

Lemma oper_logout_good w s p : ready w s p → wp (oper_logout p) (fun _ => good) w.
Proof.
  intros R. unfold oper_logout. apply wp_bind. eapply wp_user_read; [done|]. intros c u Ec Eu.
  destruct (us_oper u) as [o|] eqn:Eo.
  - apply wp_bind. eapply wp_conseq; [by eapply quiet_watch_send|]. cbn beta. intros [] w1 Hs.
    pose proof (ready_tally _ _ _ _ (tally_same _ _ Hs) R) as R1. rewrite <- (sn_clients _ _ Hs) in Ec.
    assert (good (logout_world p o w1)) as G by (eapply good_logout; [exact (re_good _ _ _ R1)|exact (re_user _ _ _ R1)|done..]).
    pose proof (user_block _ _ _ _ _ _ R1 Ec Eu Eo) as Hb.
    apply wp_bind, wp_deallocate; [done|]. apply wp_bind. eapply wp_upd_user; [done..|].
    apply wp_bind, wp_modify. change (_ <| oper_list ::= _ |>) with (logout_world p o w1).
    apply good_still; [done|]. unfold server_notice. apply quiet_bind; [apply (quiet_gets (fun s => s))|]. intros w2 w2' Hs2.
    assert (is_Some (clients w2' !! p)) as [c2 Ec2].
    { rewrite (sn_clients _ _ Hs2). simpl. rewrite lookup_alter, decide_True, Ec by done. by eexists. }
    apply quiet_bind; [|intros; apply quiet_sendto_server]. unfold quiet. by eapply wp_rd.
  - eapply tallies_good; [apply R|]. apply tallies_bind; [by eapply tallies_server_notice|].
    intros [] w1 T1. by eapply tallies_add_flood_count, ready_tally.
Qed.
End oper.

(** ** Commands *)
Section run.
Context `{SYS : Sys} `{RB : !RbSpec} `{HK : !HooksOk}.

(** A user and a service that are still there, although the user may have been
    killed. *)
Record attended (w : world) (service_p client_p : ptr) : Prop := Attended {
  at_good : good w;
  at_user : ∃ c u, clients w !! client_p = Some c ∧ cl_user c = Some u;
  at_service : ∃ c s, clients w !! service_p = Some c ∧ cl_service c = Some s
}.

Lemma ready_attended w s p : ready w s p → attended w s p.
Proof. intros R. split; [exact (re_good _ _ _ R)|by eapply ready_user|by eapply ready_service]. Qed.

(** What the functions of the commands and the partyline keep. *)
Class CommandsOk : Prop := {
  commands_good w s p f parv :
    ready w s p → parv_ok parv → wp (command_func f p parv) (fun _ w' => attended w' s p) w;
  dcc_good w s p o d : ready w s p → is_Some (conf_opers w !! o) → wp (dcc_chat p o d) (fun _ => good) w
}.

Lemma attended_add_flood_count w s p n (Q : unit → world → Prop) :
  attended w s p → (∀ w', attended w' s p → Q tt w') → wp (add_flood_count p n) Q w.
Proof.
  intros [A1 (c & u & Ec & Eu) (cs & sv & Ecs & Es)] HQ. unfold add_flood_count. eapply wp_upd_user; [done..|]. apply HQ.
  set (f := fun u : user => u <| us_flood_count ::= uint_add n |>). split.
  - by apply (ta_good _ _ (tally_user w p f ltac:(done))).
  - exists (upd_user_field f c), (f u). split; [|by simpl; rewrite Eu]. simpl. by rewrite lookup_alter, decide_True, Ec.
  - destruct (decide (p = s)) as [->|Hne].
    + simplify_eq. exists (upd_user_field f c), sv. split; [|done]. simpl. by rewrite lookup_alter, decide_True, Ec.
    + exists cs, sv. split; [|done]. simpl. by rewrite lookup_alter_ne.
Qed.

Lemma attended_add_flood w s p n : attended w s p → wp (add_flood s n) (fun _ => good) w.
Proof.
  intros [A1 _ (cs & sv & Ecs & Es)]. unfold add_flood. eapply wp_upd_service; [done..|].
  by apply (ta_good _ _ (tally_service w s (fun x => x <| sr_flood ::= fun x => int32 (x + n) |>) ltac:(done))).
Qed.

Context `{CO : !CommandsOk}.

Lemma wp_not_logged_in w s p e (Q : bool → world → Prop) :
  ready w s p → (∀ b w', ready w' s p → Q b w') → wp (not_logged_in p e) Q w.
Proof.
  intros R HQ. unfold not_logged_in. destruct (negb _); [by apply wp_ret, HQ|].
  apply wp_bind. eapply wp_user_read; [done|]. intros c u Ec Eu. destruct (us_user_reg u) as [r|] eqn:Er; [|by apply wp_ret, HQ].
  destruct (re_user _ _ _ R) as (i & Ei & _ & Hn). rewrite (ids_of _ _ _ Ec) in Ei. injection Ei as <-.
  destruct (acc_reg _ (ni_accounts _ (proj1 (re_good _ _ _ R))) p _ r (ids_of _ _ _ Ec) Hn) as [reg Ereg].
  { simpl. by rewrite Eu. }
  apply wp_bind. eapply wp_rd; [exact Ereg|]. apply wp_bind, wp_gets. apply wp_bind, wp_modify, wp_ret.
  apply HQ. eapply ready_tally; [apply tally_reg|exact R].
Qed.

Lemma run_command_good w s p i e parv : ready w s p → parv_ok parv → wp (run_command command_func s p i e parv) (fun _ => good) w.
Proof.
  intros R Hp. unfold run_command. apply wp_bind. eapply wp_rd_service; [done|]. intros cs Ecs.
  apply wp_bind. eapply wp_user_read; [done|]. intros c u Ec Eu. apply wp_bind. eapply wp_oper_field; [done..|]. intros flags.
  assert (∀ w' id args, ready w' s p → wp (refuse s p id args) (fun _ => good) w') as Hno.
  { intros w' id args R'. apply tallies_good; [exact (re_good _ _ _ R')|by apply tallies_refuse]. }
  destruct (Dispatch.closed _ _ _); [by apply Hno|]. apply wp_bind. apply (wp_not_logged_in w s); [done|]. intros out w1 R1.
  destruct out; [by apply Hno|]. destruct (_ <? _); [by apply Hno|].
  apply wp_bind. eapply wp_tallies; [eapply tallies_upd_service; [done|]|].
  { intros sv. simpl. split_and!; try done. by apply (offered_used sv i (fun x => uint64 (x + 1))). }
  intros [] w2 T2. pose proof (ready_tally _ _ _ _ T2 R1) as R2.
  apply wp_bind, wp_conseq with (Q := fun _ w' => attended w' s p).
  { destruct (scm_func e); [by apply commands_good|apply wp_ret, ready_attended, R2]. }
  intros n w3 A3. apply wp_bind. eapply attended_add_flood_count; [done|]. intros w4 A4. by eapply attended_add_flood.
Qed.

Lemma handle_service_good w s p command parv msg :
  ready w s p → parv_ok parv → wp (handle_service command_func s p command parv msg) (fun _ => good) w.
Proof.
  intros R Hp. unfold handle_service. apply wp_bind. eapply wp_service_read; [done|]. intros cs sv Ecs Esv.
  destruct (sr_command sv) as [tbl|] eqn:Et; [|apply wp_ret, (re_good _ _ _ R)].
  apply wp_bind. eapply wp_tallies; [by apply tallies_flood_limit|]. intros go w1 T1.
  pose proof (ready_tally _ _ _ _ T1 R) as R1. pose proof (re_good _ _ _ R1) as G1. destruct (negb go); [by apply wp_ret|].
  apply wp_bind. eapply wp_rd_service; [done|]. intros cs1 Ecs1.
  assert (∀ c sv, clients w1 !! s = Some c → cl_service c = Some sv → is_Some (sr_command sv)) as Hcmd.
  { intros c1 sv1 Ec1 Es1. destruct (parts_back _ _ _ _ (ta_parts _ _ T1) Ec1) as (c0 & Ec0 & Ep).
    injection Ep as _ Ep. simplify_eq. rewrite Es1, Esv in Ep. simpl in Ep. injection Ep as Eb _ _.
    rewrite <- offered_some, Eb, offered_some, Et. by eexists. }
  destruct (_ && _).
  { apply wp_bind. eapply wp_stealthy; [done|]. intros [|]; [by apply wp_ret|]. apply tallies_good; [done|].
    apply tallies_bind; [by eapply tallies_add_flood_count|]. intros [] w2 T2. pose proof (ready_tally _ _ _ _ T2 R1) as R2.
    apply tallies_bind; [by eapply tallies_add_flood|]. intros [] w3 T3. eapply tallies_service_err, ready_tally; [exact T3|done]. }
  destruct (same_command _ _); [apply tallies_good; [done|by apply tallies_handle_help]|].
  destruct (_ || _); [by apply oper_login_good|]. destruct (_ || _); [by eapply oper_logout_good|].
  apply wp_bind. eapply wp_stealthy; [done|]. intros [|]; [by apply wp_ret|].
  apply wp_bind. eapply wp_service_read; [done|]. intros c2 sv2 Ec2 Es2.
  destruct (bsearch _ _) as [[i e]|]; [by apply run_command_good|]. apply tallies_good; [done|by apply tallies_refuse].
Qed.
End run.

(** ** Lines *)
Section messages.
Context `{SYS : Sys} `{RB : !RbSpec} `{HK : !HooksOk} `{CO : !CommandsOk}.

Lemma service_of_username_run name w l :
  (∀ p, p ∈ l → ∃ c s, clients w !! p = Some c ∧ cl_service c = Some s) →
  ∃ r, service_of_username name l w = Ok r w ∧ ∀ p, r = Some p → p ∈ l.
Proof.
  induction l as [|p l IH]; intros Hl; [by exists None|]. cbn [service_of_username].
  destruct (Hl p) as (c & s & Ec & Es); [by left|].
  assert (service_of p w = Ok s w) as Hs.
  { unfold service_of, rd. erewrite bind_ok; [|erewrite bind_ok by done; by rewrite Ec]. by rewrite Es. }
  rewrite (bind_ok _ _ _ _ _ Hs). destruct IH as (r & Er & Hr); [intros q Hq; apply Hl; by right|].
  assert (∃ r, service_of_username name l w = Ok r w ∧ ∀ q, r = Some q → q ∈ p :: l) as Hgo
    by (exists r; split; [done|]; intros q Hq; right; by apply Hr).
  destruct (has_flag _ _); [exact Hgo|]. destruct (_ =? _); [|exact Hgo].
  exists (Some p). split; [done|]. intros q [= ->]. by left.
Qed.

(** A service, introduced or not. *)
Definition is_service (w : world) (s : ptr) : Prop := ∃ i, ids w !! s = Some i ∧ id_kind i = KService.

Lemma opt_is_service w s : opt_kind w KService (Some s) → is_service w s.
Proof. intros (i & Ei & Hk & _). by exists i. Qed.

Lemma wp_message_target w target (Q : option ptr → world → Prop) :
  net_inv w → no_nul target = true → (∀ r, (∀ s, r = Some s → is_service w s) → Q r w) → wp (message_target target) Q w.
Proof.
  intros Hw Hn HQ. unfold message_target. destruct (strchr target "@") as [[username rest]|].
  - apply wp_bind, wp_gets. pose proof (tab_services w (ni_tables _ Hw)) as [_ Hl].
    destruct (service_of_username_run username w (service_list w)) as (r & Er & Hr).
    + intros p (i & Ei & Hk)%Hl. apply (kind_service w p (id_net i)). by exists i.
    + apply (wp_ok _ _ _ _ _ Er), HQ. intros s Es. by apply Hl, Hr.
  - apply wp_find_service; [apply Hw|done|]. intros r Hr. apply HQ. intros s ->. by apply opt_is_service.
Qed.

(** What a message takes for granted of its source: a request for the partyline comes from a user. *)
Definition ctcp_source (w : world) (parv : list string) (p : ptr) : Prop :=
  ∀ text, parv !! 1%nat = Some text → deref text = CTCP → filed_kind (ids w) KUser true p.

Lemma ready_now w s p :
  good w → requests_ok w → filed_kind (ids w) KUser true p → is_service w s → ready w s p.
Proof. intros Hw Hr Hu Hs. by split. Qed.

Lemma ctcp_message_good w s p text : ready w s p → wp (ctcp_message s p text) (fun _ => good) w.
Proof.
  intros R. pose proof (re_good _ _ _ R) as Hw. unfold ctcp_message. cbv zeta. destruct (_ && _); [by apply wp_ret|].
  assert (∀ text, wp (server_notice p text) (fun _ => good) w) as Hno.
  { intros x. eapply tallies_good; [done|by eapply tallies_server_notice]. }
  destruct (find_user_oper_run w s p None R) as (r & Er & Hr). apply wp_bind. apply (wp_ok _ _ _ _ _ Er).
  apply wp_bind, wp_conseq with (Q := fun d w' => w' = w ∧ ∀ o, d = Some o → is_Some (conf_opers w !! o)).
  { destruct r as [o|]; [|by apply wp_ret]. destruct (Hr o eq_refl) as [_ [b Eb]]. apply wp_bind. eapply wp_rd; [exact Eb|].
    apply wp_ret. split; [done|]. destruct (ConfOperDcc b); [|done]. intros ? [= <-]. by exists b. }
  intros d ? [-> Hd]. destruct d as [o|]; [|apply Hno]. specialize (Hd o eq_refl).
  destruct (strncasecmp _ _ _ =? 0).
  - apply wp_bind. eapply wp_rd_service; [done|]. intros cs Ecs. by eapply dcc_good.
  - destruct (dcc_offer _) as [[host cport]|]; [|apply Hno]. destruct (_ <=? 1024); [apply Hno|by eapply dcc_good].
Qed.

(** A live user. *)
Lemma live_user w p c u : live w p → clients w !! p = Some c → cl_user c = Some u → net_inv w → filed_kind (ids w) KUser true p.
Proof.
  intros Hl Ec Eu Hw. destruct (live_kind w p Hw Hl) as (c' & Ec' & Hk & Hf). simplify_eq.
  assert (kind_of c = KUser) as <-; [|done]. unfold kind_of in *. rewrite Eu in *. by destruct (cl_server c), (cl_service c).
Qed.

Lemma wp_live_IsUser w p (Q : bool → world → Prop) :
  good w → live w p → (∀ b, (b = true → filed_kind (ids w) KUser true p) → Q b w) → wp (IsUser p) Q w.
Proof.
  intros [Hw _] Hl HQ. destruct (live_kind w p Hw Hl) as (c & Ec & _). apply wp_IsUser; [by exists c|].
  intros b Hb. apply HQ. intros Et. destruct (Hb Et) as (c' & u & Ec' & Eu). by eapply live_user.
Qed.

Lemma handle_service_msg_good w s p text :
  good w → live w p → requests_ok w → is_service w s → no_nul text = true →
  wp (handle_service_msg command_func s p text) (fun _ => good) w.
Proof.
  intros Hw Hl Hr Hs Hn. unfold handle_service_msg. apply wp_bind, wp_live_IsUser; [done..|]. intros u Hu.
  destruct u; [|by apply wp_ret]. pose proof (ready_now w s p Hw Hr (Hu eq_refl) Hs) as R. cbn [negb].
  destruct (strchr text " ") as [[command rest]|] eqn:E; [|apply handle_service_good; [done|constructor]].
  apply handle_service_good; [done|]. apply strchr_inv in E as [-> _]. rewrite no_nul_app in Hn. simpl in Hn.
  apply Forall_forall. intros x (t & a & b & [= <-] & ->)%rb_string_to_array_spec.
  rewrite !no_nul_app in Hn. by bool_simpl.
Qed.

Lemma c_message_good w p parv :
  good w → live w p → parv_ok parv → requests_ok w → ctcp_source w parv p → wp (c_message p parv) (fun _ => good) w.
Proof.
  intros Hw Hl Hp Hr Hc. unfold c_message. destruct (_ <? _)%nat eqn:E; [by apply wp_ret|]. apply Nat.ltb_ge in E.
  apply wp_bind, wp_argv; [lia|]. destruct (is_empty _) eqn:Ee; [by apply wp_ret|].
  apply is_empty_false in Ee as [text Et]. apply wp_bind, wp_arg; [done|lia|]. intros target _ Hn.
  apply wp_bind, wp_message_target; [apply Hw|done|]. intros [s|] Hs; [|by apply wp_ret].
  rewrite Et. apply wp_bind. unfold str. eapply wp_need; [done|].
  destruct (Ascii.eqb _ _) eqn:Ea.
  - apply ctcp_message_good, ready_now; [done..| |by apply Hs]. apply (Hc text); [done|]. by apply Ascii.eqb_eq.
  - apply handle_service_msg_good; [done..|by apply Hs|]. by apply (parv_lookup parv 1).
Qed.

Lemma c_encap_good w p parv :
  good w → live w p → parv_ok parv → requests_ok w → wp (c_encap p parv) (fun _ => good) w.
Proof.
  intros Hw Hl Hp Hr. unfold c_encap. destruct (_ <? _)%nat eqn:E; [by apply wp_ret|]. apply Nat.ltb_ge in E.
  apply wp_bind, wp_arg; [done|lia|]. intros mask _ _. apply wp_bind. apply (wp_gets (fun s => s)).
  destruct (negb _); [by apply wp_ret|]. apply wp_bind, wp_arg; [done|lia|]. intros sub _ _.
  destruct (live_kind w p (proj1 Hw) Hl) as (c & Ec & _). destruct (irccmp sub "LOGIN" =? 0).
  { apply wp_bind, wp_argv; [lia|]. destruct (is_empty _) eqn:Ee; [by apply wp_bind, wp_ret, wp_ret|].
    apply is_empty_false in Ee as [name En]. apply wp_bind, wp_live_IsUser; [done..|]. intros [|] Hu; [cbn [negb]|by apply wp_ret].
    rewrite En. apply wp_bind. unfold str. eapply wp_need; [done|]. destruct (Hu eq_refl) as (i & Ei & Hk & _).
    apply wp_eob_hook_call; [done| |done]. right; right. split; [done|]. by exists p, i. }
  destruct (irccmp sub "GCAP" =? 0).
  { apply wp_bind, wp_argv; [lia|]. destruct (is_empty _) eqn:Ee; [by apply wp_bind, wp_ret, wp_ret|].
    apply is_empty_false in Ee as [caps Ecaps].
    apply wp_bind, wp_IsServer; [by exists c|]. intros [|]; [|by apply wp_ret].
    rewrite Ecaps. apply wp_bind. unfold str. eapply wp_need; [done|]. destruct (after_cap _ _); [|by apply wp_ret].
    apply wp_when; [intros _|by intros]. eapply wp_upd_client; [exact Ec|]. by apply good_client_flag. }
  destruct (irccmp sub "RSMSG" =? 0); [|by apply wp_ret].
  destruct (_ <? _)%nat eqn:E4; [by apply wp_bind, wp_ret, wp_ret|]. apply Nat.ltb_ge in E4.
  apply wp_bind, wp_live_IsUser; [done..|]. intros [|] Hu; [cbn [negb]|by apply wp_ret].
  apply wp_bind, wp_arg; [done|lia|]. intros name _ Hn. apply wp_bind, wp_find_service; [apply Hw|done|].
  intros [s|] Hs; [|by apply wp_ret]. apply wp_bind, wp_arg; [done|lia|]. intros command _ _.
  apply handle_service_good; [apply ready_now; [done|done|by apply Hu|by apply opt_is_service]|]. by apply Forall_drop.
Qed.

(** The end of the link. *)
Lemma c_error_good w p parv :
  good w → uplink_live w → services_on w → parv_ok parv → wp (c_error p parv) (fun _ => good) w.
Proof.
  intros Hw (l & up & El & Hl & Hup) Hon Hp. unfold c_error. destruct (_ <? _)%nat eqn:E; [by apply wp_ret|].
  apply Nat.ltb_ge in E. apply wp_bind, wp_argv; [lia|]. destruct (is_empty _) eqn:Ee; [by apply wp_ret|].
  apply is_empty_false in Ee as [text ->]. apply wp_bind. unfold str. eapply wp_need; [done|].
  apply wp_bind. apply (wp_gets (fun s => s)). apply wp_bind. eapply wp_need; [exact El|].
  apply wp_bind. unfold mlog. apply wp_modify. set (w1 := w <| logged ::= _ |>).
  assert (good w1) as Hw1 by (by apply (good_same w); [by split|]). destruct (ConnDead l) eqn:Hd.
  - unfold signoff_server. apply wp_bind. apply (wp_gets (fun s => s)). apply wp_bind. eapply wp_need; [exact El|].
    rewrite Hd. by apply wp_ret.
  - eapply wp_conseq; [by apply (signoff_good w1 l up)|]. by intros _ w' [? _].
Qed.
End messages.
