(* ===== verification/Rehash.v ===== *)
(** * A rehash replaces the operator blocks

    What [conf_parse()] of [src/conf.c] does to the operator blocks while users are
    logged in to them, and that stored operators expire; the network stays sound.  One
    thing goes wrong: a block that a rehash drops is freed with its last login, and
    stays in the list. *)

From S2P Require Import Prelude CString Match Rblib Tools Fault World Lookup Channel Service Conf Client Dispatch Net Members Index Handlers Joins Modes Clients Exits Commands Replies Linkup Requests.

(** ** A loop over a list that the body may shorten *)
Section loop.
Context {S A : Type} `{EqDecision A}.

Lemma wp_foreach_safe (lst : S → list A) body (I : list A → list A → S → Prop) (Q : unit → S → Prop) s :
  NoDup (lst s) → I [] (lst s) s →
  (∀ p x q s', lst s' = p ++ x :: q → NoDup (p ++ x :: q) → I p (x :: q) s' →
     wp (body x) (fun _ s'' => ∃ p', lst s'' = p' ++ q ∧ NoDup (p' ++ q) ∧ I p' q s'') s') →
  (∀ s', NoDup (lst s') → I (lst s') [] s' → Q tt s') →
  wp (foreach_safe lst body) Q s.
Proof.
  intros Hnd HI Hbody HQ. unfold foreach_safe. apply wp_bind, wp_gets.
  destruct (lst s) as [|x l] eqn:E; cbn [head]; [apply wp_ret, HQ; by rewrite E|].
  assert (∀ n p x q s', (length q < n)%nat → lst s' = p ++ x :: q → NoDup (p ++ x :: q) → I p (x :: q) s' →
    wp (safe_from n lst body x) Q s') as Hloop.
  { clear - HQ Hbody. induction n as [|n IH]; simpl; intros p x q s' Hn E Hnd HI; [lia|].
    apply wp_bind, wp_gets. rewrite E, next_of_app by (apply NoDup_app in Hnd; set_solver).
    apply wp_bind. eapply wp_need; [done|]. apply wp_bind. eapply wp_conseq; [by apply (Hbody p x q)|].
    cbn beta. intros [] s'' (p' & E' & Hnd' & HI'). destruct q as [|y q]; simpl.
    - apply wp_ret, HQ; rewrite E', app_nil_r in *; [done|exact HI'].
    - apply (IH p' y q); [simpl in *; lia|done..]. }
  by apply (Hloop _ [] x l); [simpl; lia|..].
Qed.
End loop.

(** ** Other blocks, the same network *)
Section blocks.
Context `{SYS : Sys} `{RB : !RbSpec} `{HK : !HooksOk}.

(** A set of blocks that serves the users and entries of [w]. *)
Definition serves (w : world) (m : gmap ptr conf_oper) : Prop :=
  (∀ o, (0 < block_uses w o)%nat → is_Some (m !! o)) ∧
  (∀ o b, m !! o = Some b → Z.of_nat (block_uses w o) ≤ oper_refcount b).

Lemma good_serves w : good w → serves w (conf_opers w).
Proof.
  intros [Hw _]. pose proof (ni_accounts _ Hw) as [A1 A2 A3 A4 A5]. split; [|done].
  intros o Ho. unfold block_uses in Ho.
  destruct (filter (fun p => uses_block (ids w) o p = true) (user_list w)) as [|p l] eqn:E.
  - destruct (filter (fun e => co_oper e = o) (client_oper_list w)) as [|e l'] eqn:E'; [simpl in Ho; lia|].
    assert (e ∈ filter (fun e => co_oper e = o) (client_oper_list w)) as [<- He]%list_elem_of_filter by (rewrite E'; by left).
    by apply A4.
  - assert (p ∈ filter (fun p => uses_block (ids w) o p = true) (user_list w)) as [Hu Hp]%list_elem_of_filter by (rewrite E; by left).
    apply (tab_users w (ni_tables _ Hw)) in Hp as (i & Ei & _ & Hn). unfold uses_block in Hu. rewrite Ei in Hu.
    apply bool_decide_eq_true in Hu. by eapply A3.
Qed.

Lemma good_blocks w m l : good w → serves w m → good (w <| conf_opers := m |> <| conf_oper_list := l |>).
Proof.
  intros [[Hc Ht Htr Ha Hal] Hi] [Hs1 Hs2]. split; [|exact Hi].
  split; [|by destruct Ht; split|by destruct Htr; split| |exact Hal].
  - eapply chan_inv_places; [exact Hc|]. split; eauto.
  - destruct Ha as [A1 A2 A3 A4 A5]. split; [done|done| | |].
    + intros p i o Ei Hn Ho. apply Hs1. by eapply user_uses.
    + intros e He. by apply Hs1, entry_uses.
    + intros o b Eb. by apply Hs2.
Qed.

(** A change of one block that keeps its references. *)
Lemma serves_alter w m p f : (∀ b, oper_refcount (f b) = oper_refcount b) → serves w m → serves w (alter f p m).
Proof.
  intros Hf [H1 H2]. split.
  - intros o Ho. by apply lookup_alter_is_Some, H1.
  - intros o b' (b & Eb & ->)%lookup_alter_iff. case_decide; rewrite ?Hf; by apply H2.
Qed.

Lemma serves_insert w m p b : m !! p = None → oper_refcount b = 0 → serves w m → serves w (<[p := b]> m).
Proof.
  intros Hp Hb [H1 H2]. split.
  - intros o Ho. destruct (decide (p = o)) as [->|Hne]; [rewrite lookup_insert_eq; by eexists|].
    rewrite lookup_insert_ne by done. by apply H1.
  - intros o b' [(-> & ->)|(Hne & Eb)]%lookup_insert_Some; [|by apply H2].
    rewrite Hb. destruct (block_uses w o) as [|n] eqn:Eu; [done|].
    destruct (H1 o) as [x Ex]; [lia|]. congruence.
Qed.

Lemma serves_delete w m p b : m !! p = Some b → oper_refcount b = 0 → serves w m → serves w (delete p m).
Proof.
  intros Eb Hb [H1 H2]. split.
  - intros o Ho. destruct (decide (p = o)) as [->|Hne].
    + specialize (H2 o b Eb). lia.
    + rewrite lookup_delete_ne by done. by apply H1.
  - intros o b' [_ Eb']%lookup_delete_Some. by apply H2.
Qed.
End blocks.

(** ** The blocks that a configuration gives *)
Definition read_blocks (blocks : list (conf_oper * list conf_oper)) : list conf_oper :=
  blocks ≫= fun yl =>
    let yy_oper := fst yl in
    if is_empty (Some (oper_name yy_oper)) || is_empty (Some (oper_pass yy_oper)) then [] else
    if (OPERNAMELEN <? strlen (oper_name yy_oper))%nat then [] else
    (fun tmp => tmp <| oper_name := oper_name yy_oper |> <| oper_pass := oper_pass yy_oper |>
                    <| oper_flags := oper_flags yy_oper |> <| oper_sflags := oper_sflags yy_oper |>) <$> snd yl.

(** The block [b'] of the program stands for [b] of the configuration. *)
Record stands_for (b b' : conf_oper) : Prop := StandsFor {
  sf_name : irccmp (oper_name b') (oper_name b) = 0;
  sf_username : irccmp (oper_username b') (oper_username b) = 0;
  sf_host : irccmp (oper_host b') (oper_host b) = 0;
  sf_server : is_empty (oper_server b') = is_empty (oper_server b) ∧
    (is_empty (oper_server b') = false →
     irccmp (default ""%string (oper_server b')) (default ""%string (oper_server b)) = 0);
  sf_pass : oper_pass b' = oper_pass b;
  sf_flags : oper_flags b' = oper_flags b;
  sf_sflags : oper_sflags b' = oper_sflags b
}.

Lemma clear_flag_unset x f : has_flag x f = false → clear_flag x f = x.
Proof.
  intros Hf. apply negb_false_iff, Z.eqb_eq in Hf. rewrite clear_flag_ldiff. apply Z.bits_inj'. intros n Hn.
  apply (f_equal (fun z => Z.testbit z n)) in Hf. rewrite Z.land_spec, Z.bits_0 in Hf. rewrite Z.ldiff_spec.
  by destruct (Z.testbit x n), (Z.testbit f n).
Qed.

Lemma stands_for_refl b : stands_for b b.
Proof. split; try apply irccmp_refl; [|done..]. split; [done|]. intros _. apply irccmp_refl. Qed.

(** What the parser hands over: flags without that of a dead block, no references. *)
Definition parsed (blocks : list (conf_oper * list conf_oper)) : Prop :=
  Forall (fun yl => has_flag (oper_flags (fst yl)) CONF_DEAD = false ∧ Forall (fun b => oper_refcount b = 0) (snd yl)) blocks.

Section read.
Context `{SYS : Sys} `{RB : !RbSpec} `{HK : !HooksOk}.

(** The blocks of the program are a list of live addresses. *)
Definition blocks_ok (m : gmap ptr conf_oper) (l : list ptr) : Prop := NoDup l ∧ ∀ o, o ∈ l → is_Some (m !! o).

(** The world [w] with other blocks. *)
Definition with_blocks (m : gmap ptr conf_oper) (l : list ptr) (w : world) : world :=
  w <| conf_opers := m |> <| conf_oper_list := l |>.

(** After [done] was read, with the blocks [m0] before it. *)
Record have_read (w : world) (m0 : gmap ptr conf_oper) (l0 : list ptr) (done : list conf_oper)
    (m : gmap ptr conf_oper) (l : list ptr) : Prop := HaveRead {
  hr_ok : blocks_ok m l;
  hr_serves : serves w m;
  hr_new b : b ∈ done → ∃ o b', o ∈ l ∧ m !! o = Some b' ∧ ConfDead b' = false ∧ stands_for b b';
  hr_live o b' : o ∈ l → m !! o = Some b' → ConfDead b' = false → ∃ b, b ∈ done ∧ stands_for b b';
  hr_old o : o ∈ l0 → o ∈ l;
  hr_refs o b : m0 !! o = Some b → ∃ b', m !! o = Some b' ∧ oper_refcount b' = oper_refcount b
}.

Lemma same_block_stands name tmp p :
  same_block name tmp p = true →
  ConfDead p = true ∧ irccmp (oper_username p) (oper_username tmp) = 0 ∧ irccmp (oper_host p) (oper_host tmp) = 0 ∧
  irccmp (oper_name p) name = 0 ∧ is_empty (oper_server p) = is_empty (oper_server tmp) ∧
  (is_empty (oper_server p) = false → irccmp (default ""%string (oper_server p)) (default ""%string (oper_server tmp)) = 0).
Proof.
  unfold same_block. intros E. repeat (apply andb_true_iff in E as [E ?]). rewrite !Z.eqb_eq in *.
  destruct (is_empty (oper_server p)); [by split_and!|]. bool_simpl. by split_and!.
Qed.

(** One user of a block. *)
Lemma wp_add_block w m0 l0 done m l yy tmp (Q : unit → world → Prop) :
  have_read w m0 l0 done m l → has_flag (oper_flags yy) CONF_DEAD = false → oper_refcount tmp = 0 →
  (∀ m' l', have_read w m0 l0
     (done ++ [tmp <| oper_name := oper_name yy |> <| oper_pass := oper_pass yy |>
                   <| oper_flags := oper_flags yy |> <| oper_sflags := oper_sflags yy |>]) m' l' →
     Q tt (with_blocks m' l' w)) →
  wp (add_block yy tmp) Q (with_blocks m l w).
Proof.
  intros [[Hnd Hok] Hs Hnew Hlive Hold Hrefs] Hf Hz HQ. set (new := _ <| oper_sflags := _ |>) in HQ. unfold add_block.
  apply wp_bind, wp_gets. change (conf_oper_list (with_blocks m l w)) with l.
  destruct (find_first_heap conf_opers (same_block (oper_name yy) tmp)
    (fun p => o ← rd conf_opers p; mret (same_block (oper_name yy) tmp o)) l (with_blocks m l w)) as (r & Er & Hr).
  { intros p b E. unfold rd. erewrite bind_ok; [|erewrite bind_ok by done; by rewrite E]. done. }
  { exact Hok. }
  apply wp_bind. apply (wp_ok _ _ _ _ _ Er). destruct r as [p|].
  - destruct Hr as (Hp & b & Eb & Hb). simpl in Eb.
    apply same_block_stands in Hb as (Hd & H1 & H2 & H3 & H4 & H5).
    set (f := fun o : conf_oper => _ <| oper_sflags := oper_sflags yy |>).
    assert (stands_for new (f b)) as Hst.
    { split; try done; simpl. by rewrite clear_flag_unset. }
    assert (ConfDead (f b) = false) as Hfb by (unfold ConfDead, f; simpl; by rewrite has_flag_clear_same).
    unfold upd_oper. apply wp_bind. eapply wp_rd; [exact Eb|]. apply wp_modify.
    change (Q tt (with_blocks (alter f p m) l w)). apply HQ. split.
    + split; [done|]. intros o Ho. by apply lookup_alter_is_Some, Hok.
    + by apply serves_alter.
    + intros x [Hx| ->%list_elem_of_singleton]%elem_of_app.
      * destruct (Hnew x Hx) as (o & b' & Ho & Eo & Hdo & Hso). exists o, b'.
        rewrite lookup_alter_ne; [done|]. intros <-. congruence.
      * exists p, (f b). rewrite lookup_alter_eq, Eb. done.
    + intros o b' Ho (b0 & E0 & ->)%lookup_alter_iff. case_decide as Hpo.
      * subst. intros _. exists new. simplify_eq. split; [set_solver|done].
      * intros Hd'. destruct (Hlive o b0 Ho E0 Hd') as (x & Hx & ?). exists x. split; [set_solver|done].
    + done.
    + intros o b0 E0. destruct (Hrefs o b0 E0) as (b' & E' & Hrf).
      exists (if decide (p = o) then f b' else b'). split; [|by case_decide]. apply lookup_alter_iff. by exists b'.
  - apply wp_bind, wp_gets. set (p := rb_bh_alloc _). apply wp_modify.
    assert (m !! p = None) as Hp by (apply not_elem_of_dom, rb_bh_alloc_spec).
    assert (p ∉ l) as Hpl by (intros Hin; destruct (Hok p Hin); congruence).
    change (Q tt (with_blocks (<[p := new]> m) (rb_dlinkAddTail p l) w)). rewrite rb_dlinkAddTail_spec. apply HQ.
    assert (∀ o, o ∈ l → <[p:=new]> m !! o = m !! o) as Hne by (intros o Ho; apply lookup_insert_ne; by intros ->).
    split.
    + split; [by apply NoDup_app; split_and!; [done|set_solver|apply NoDup_singleton]|].
      intros o [Ho| ->%list_elem_of_singleton]%elem_of_app; [rewrite Hne by done; by apply Hok|].
      rewrite lookup_insert_eq. by eexists.
    + by apply serves_insert.
    + intros x [Hx| ->%list_elem_of_singleton]%elem_of_app.
      * destruct (Hnew x Hx) as (o & b' & Ho & ?). exists o, b'. rewrite Hne by done. split; [set_solver|done].
      * exists p, new. rewrite lookup_insert_eq. split_and!; [set_solver|done|exact Hf|apply stands_for_refl].
    + intros o b' [Ho| ->%list_elem_of_singleton]%elem_of_app.
      * rewrite Hne by done. intros Eo Hd. destruct (Hlive o b' Ho Eo Hd) as (x & ? & ?). exists x. split; [set_solver|done].
      * rewrite lookup_insert_eq. intros [= <-] _. exists new. split; [set_solver|apply stands_for_refl].
    + intros o Ho. apply elem_of_app. left. by apply Hold.
    + intros o b0 E0. destruct (Hrefs o b0 E0) as (b' & E' & ?). exists b'. rewrite lookup_insert_ne; [done|]. intros <-. congruence.
Qed.
End read.

Section rehash.
Context `{SYS : Sys} `{RB : !RbSpec} `{HK : !HooksOk}.

Definition as_read (yy tmp : conf_oper) : conf_oper :=
  tmp <| oper_name := oper_name yy |> <| oper_pass := oper_pass yy |>
      <| oper_flags := oper_flags yy |> <| oper_sflags := oper_sflags yy |>.

Lemma wp_add_blocks w m0 l0 yy bs : ∀ done m l (Q : unit → world → Prop),
  have_read w m0 l0 done m l → has_flag (oper_flags yy) CONF_DEAD = false → Forall (fun b => oper_refcount b = 0) bs →
  (∀ m' l', have_read w m0 l0 (done ++ (as_read yy <$> bs)) m' l' → Q tt (with_blocks m' l' w)) →
  wp (add_blocks yy bs) Q (with_blocks m l w).
Proof.
  induction bs as [|tmp bs IH]; intros done m l Q Hr Hf Hz HQ; cbn [add_blocks].
  { apply wp_ret, HQ. by rewrite app_nil_r. }
  apply Forall_cons in Hz as [Hz Hzs]. apply wp_bind. eapply wp_add_block; [done..|]. intros m1 l1 Hr1.
  eapply IH; [done..|]. intros m2 l2 Hr2. apply HQ. by rewrite <- app_assoc in Hr2.
Qed.

Lemma wp_read_operators w m0 l0 blocks : ∀ done m l (Q : unit → world → Prop),
  have_read w m0 l0 done m l → parsed blocks →
  (∀ m' l', have_read w m0 l0 (done ++ read_blocks blocks) m' l' → Q tt (with_blocks m' l' w)) →
  wp (read_operators blocks) Q (with_blocks m l w).
Proof.
  induction blocks as [|[yy bs] blocks IH]; intros done m l Q Hr Hp HQ; cbn [read_operators].
  { apply wp_ret, HQ. unfold read_blocks. simpl. by rewrite app_nil_r. }
  apply Forall_cons in Hp as [[Hf Hz] Hp]. unfold read_blocks in HQ. cbn [mbind list_bind fst snd] in HQ.
  apply wp_bind. unfold conf_end_operator.
  destruct (_ || _); [by apply wp_ret, (IH done)|]. destruct (_ <? _)%nat; [by apply wp_ret, (IH done)|].
  eapply wp_add_blocks; [done..|]. intros m1 l1 Hr1. eapply IH; [done..|]. intros m2 l2 Hr2. apply HQ.
  by rewrite app_assoc.
Qed.

(** *** Dead blocks *)
Definition kill_block (b : conf_oper) : conf_oper := b <| oper_flags ::= fun f => set_flag f CONF_DEAD |>.

Lemma kill_block_dead b : ConfDead (kill_block b) = true.
Proof. unfold ConfDead, kill_block. simpl. by rewrite has_flag_set_same. Qed.

Lemma wp_clear_old_conf w (Q : unit → world → Prop) :
  good w → blocks_ok (conf_opers w) (conf_oper_list w) →
  (∀ m, have_read w (conf_opers w) (conf_oper_list w) [] m (conf_oper_list w) → Q tt (with_blocks m (conf_oper_list w) w)) →
  wp clear_old_conf Q w.
Proof.
  intros Hw [Hnd Hok] HQ. unfold clear_old_conf.
  apply (wp_foreach_safe _ _ (fun pre todo w' => ∃ m, w' = with_blocks m (conf_oper_list w) w ∧ serves w m ∧
    (∀ o b, conf_opers w !! o = Some b → ∃ b', m !! o = Some b' ∧ oper_refcount b' = oper_refcount b) ∧
    (∀ o b', o ∈ pre → m !! o = Some b' → ConfDead b' = true))).
  - done.
  - exists (conf_opers w). split_and!; [by destruct w|by apply good_serves|intros o b E; by exists b|by intros o b' ?%elem_of_nil].
  - intros pre x q w' El Hnd' (m & -> & Hs & Hr & Hd). assert (x ∈ conf_oper_list w) as Hx by (simpl in El; rewrite El; set_solver).
    destruct (Hok x Hx) as [b0 E0]. destruct (Hr x b0 E0) as (b & Eb & Hrb). unfold upd_oper.
    apply wp_bind. eapply wp_rd; [exact Eb|]. apply wp_modify. exists (pre ++ [x]). simpl. rewrite <- app_assoc.
    split_and!; [done|done|]. exists (alter kill_block x m). split_and!; [done|by apply serves_alter| |].
    + intros o b1 E1. destruct (Hr o b1 E1) as (b2 & E2 & H2). exists (if decide (x = o) then kill_block b2 else b2).
      split; [|by case_decide]. apply lookup_alter_iff. by exists b2.
    + intros o b' Ho (b1 & E1 & ->)%lookup_alter_iff. case_decide as Hxo; [apply kill_block_dead|].
      apply (Hd o); [|done]. set_solver.
  - intros w' _ (m & -> & Hs & Hr & Hd). apply HQ. simpl in Hd. split.
    + split; [done|]. intros o Ho. destruct (Hok o Ho) as [b Eb]. destruct (Hr o b Eb) as (b' & E' & _). by exists b'.
    + done.
    + by intros b Hb%elem_of_nil.
    + intros o b' Ho Eo Hdo. by rewrite (Hd o b' Ho Eo) in Hdo.
    + done.
    + done.
Qed.

(** What is left: the dead blocks that are in use. *)
Record swept (m : gmap ptr conf_oper) (l : list ptr) (m' : gmap ptr conf_oper) (l' : list ptr) : Prop := Swept {
  sw_ok : blocks_ok m' l';
  sw_kept o b : m !! o = Some b → ConfDead b = false ∨ oper_refcount b ≠ 0 → m' !! o = Some b ∧ (o ∈ l → o ∈ l');
  sw_back o b : m' !! o = Some b → m !! o = Some b;
  sw_list o : o ∈ l' → o ∈ l;
  sw_used o b : o ∈ l' → m' !! o = Some b → ConfDead b = false ∨ oper_refcount b ≠ 0
}.

Lemma wp_clear_old_conf_final w (Q : unit → world → Prop) :
  good w → blocks_ok (conf_opers w) (conf_oper_list w) →
  (∀ m l, serves w m → swept (conf_opers w) (conf_oper_list w) m l → Q tt (with_blocks m l w)) →
  wp clear_old_conf_final Q w.
Proof.
  intros Hw [Hnd Hok] HQ. unfold clear_old_conf_final.
  apply (wp_foreach_safe _ _ (fun pre todo w' => ∃ m l, w' = with_blocks m l w ∧ l = pre ++ todo ∧ serves w m ∧
    (∀ o, o ∈ l → is_Some (m !! o)) ∧ (∀ o b, m !! o = Some b → conf_opers w !! o = Some b) ∧ (∀ o, o ∈ l → o ∈ conf_oper_list w) ∧
    (∀ o b, conf_opers w !! o = Some b → ConfDead b = false ∨ oper_refcount b ≠ 0 → m !! o = Some b ∧ (o ∈ conf_oper_list w → o ∈ l)) ∧
    (∀ o b, o ∈ pre → m !! o = Some b → ConfDead b = false ∨ oper_refcount b ≠ 0))).
  - done.
  - exists (conf_opers w), (conf_oper_list w). split_and!; try done; [by destruct w|by apply good_serves|by intros o b ?%elem_of_nil].
  - intros pre x q w' El Hnd' (m & l & -> & -> & Hs & Hlive & Hback & Hl & Hkept & Hpre).
    destruct (Hlive x) as [b Eb]; [set_solver|]. apply wp_bind. eapply wp_rd; [exact Eb|].
    assert (x ∉ pre ∧ x ∉ q) as [Hxp Hxq] by (apply NoDup_app in Hnd' as (_ & Hp & Hq); apply NoDup_cons in Hq; set_solver).
    apply wp_when; intros Hc.
    + bool_simpl. apply wp_modify. exists pre. simpl.
      assert (rb_dlinkDelete x (pre ++ x :: q) = pre ++ q) as ->.
      { rewrite rb_dlinkDelete_spec by set_solver. clear - Hxp. induction pre as [|y pre IH]; simpl; [by rewrite decide_True|].
        rewrite decide_False by set_solver. rewrite IH by set_solver. done. }
      assert (NoDup (pre ++ q)) as Hnd2.
      { apply NoDup_app in Hnd' as (? & ? & ?%NoDup_cons). apply NoDup_app. set_solver. }
      split_and!; [done|done|]. exists (delete x m), (pre ++ q). split_and!.
      * done.
      * done.
      * by eapply serves_delete.
      * intros o Ho. rewrite lookup_delete_ne by (intros ->; set_solver). apply Hlive. set_solver.
      * intros o b' [_ E']%lookup_delete_Some. by apply Hback.
      * intros o Ho. apply Hl. set_solver.
      * intros o b' E' Hor. destruct (Hkept o b' E' Hor) as [Em Hin]. assert (x ≠ o) as Hxo.
        { intros ->. simplify_eq. by destruct Hor as [Hor|Hor]; [rewrite Hor in *|]. }
        rewrite lookup_delete_ne by done. split; [done|]. intros Ho%Hin. set_solver.
      * intros o b' Ho [_ E']%lookup_delete_Some. by apply (Hpre o).
    + exists (pre ++ [x]). simpl. rewrite <- app_assoc. split_and!; [done|done|].
      exists m, (pre ++ x :: q). split_and!; try done.
      intros o b' [Ho| ->%list_elem_of_singleton]%elem_of_app E'; [by apply (Hpre o)|]. simplify_eq.
      apply andb_false_iff in Hc as [Hc|Hc]; [by left|right; by apply Z.eqb_neq].
  - intros w' Hnd' (m & l & -> & El & Hs & Hlive & Hback & Hl & Hkept & Hpre). simpl in *. apply HQ; [done|].
    split; [by split|done|done|done|]. intros o b Ho. by apply Hpre.
Qed.
End rehash.

(** *** Services whose settings have changed *)
Section services.
Context `{SYS : Sys} `{RB : !RbSpec} `{HK : !HooksOk}.

(** Nothing but services changes. *)
Record services_only (w w' : world) : Prop := ServicesOnly {
  so_good : good w';
  so_list : service_list w' = service_list w;
  so_blocks : conf_opers w' = conf_opers w;
  so_blocks_list : conf_oper_list w' = conf_oper_list w
}.

Lemma services_only_trans w w' w'' : services_only w w' → services_only w' w'' → services_only w w''.
Proof. intros [? ? ? ?] [? ? ? ?]. split; [done|congruence..]. Qed.

Lemma services_only_same w w' : good w → same_net w w' → services_only w w'.
Proof. intros Hw Hs. split; [by eapply good_same|apply Hs..]. Qed.

Lemma good_status w p f :
  (∀ x, has_flag (f x) SERVICE_INTRODUCED = has_flag x SERVICE_INTRODUCED) → good w →
  good (w <| clients ::= alter (fun c => c <| cl_service ::= fmap (fun s => s <| sr_status ::= f |>) |>) p |>).
Proof.
  intros Hf [Hw Hi]. split; [|exact Hi]. apply (net_inv_index w); [| |by apply members_from_eq|done].
  - eapply chan_inv_places; [apply Hw|]. apply places_alter. intros c. unfold places. simpl. by destruct (cl_service c).
  - split; try done. unfold ids. simpl. apply ids_alter. intros c. unfold ident_of, kind_of, on_net, users_behind, servers_behind. simpl.
    destruct (cl_service c) as [s|]; [|done]. simpl. by rewrite Hf.
Qed.

Lemma wp_clear_reintroduce w p c s :
  good w → clients w !! p = Some c → cl_service c = Some s →
  wp (upd_service p (fun s => s <| sr_status ::= fun x => clear_flag x SERVICE_REINTRODUCE |>)) (fun _ => services_only w) w.
Proof.
  intros Hw Ec Es. eapply wp_upd_service; [done..|]. split; [|done..]. apply good_status; [|done].
  intros x. by apply has_flag_clear_other.
Qed.

Lemma wp_reintroduce w p c s :
  good w → clients w !! p = Some c → cl_service c = Some s → on_net c = true →
  wp (reintroduce_service p) (fun _ => services_only w) w.
Proof.
  intros Hw Ec Es Hn. unfold reintroduce_service. apply wp_bind. apply (wp_gets (fun s => s)).
  apply wp_bind. eapply wp_rd; [exact Ec|]. apply wp_bind. eapply wp_quiet; [apply quiet_sendto_server|]. intros [] w1 Hs1.
  do 2 apply wp_assoc. apply wp_bind, wp_unassoc. eapply wp_revive_service; [by eapply good_same|by rewrite (sn_clients _ _ Hs1)|exact Es|done|].
  intros w2 Hw2 Hs2. assert (clients w2 !! p = Some (introduced c)) as Ec2 by (rewrite (sn_clients _ _ Hs2); apply refile_client; by rewrite (sn_clients _ _ Hs1)).
  eapply wp_conseq; [eapply wp_clear_reintroduce; [done|exact Ec2|by simpl; rewrite Es]|].
  cbn beta. intros _ w3. apply services_only_trans, (services_only_trans _ w1); [by apply services_only_same|].
  split; [done|rewrite (sn_service_list _ _ Hs2)|rewrite (sn_conf_opers _ _ Hs2)|rewrite (sn_conf_list _ _ Hs2)];
    unfold refile, file_client, unfile_client; by repeat destruct (is_empty _).
Qed.

Lemma update_services_ok w : good w → wp update_services (fun _ => services_only w) w.
Proof.
  intros Hw. unfold update_services.
  apply (wp_foreach_stable _ _ (fun _ _ w' => services_only w w')); [apply (tab_services w (ni_tables _ (proj1 Hw)))|by split| |done].
  intros pre x q w' El Hnd Ho. pose proof (so_good _ _ Ho) as Hw'.
  cut (wp (s ← service_of x;
    let disabled := has_flag (sr_flags s) SERVICE_DISABLED in
    let done := upd_service x (fun s => s <| sr_status ::= fun x => clear_flag x SERVICE_REINTRODUCE |>) in
    if has_flag (sr_status s) SERVICE_INTRODUCED then
      if disabled then deintroduce_service x
      else if has_flag (sr_status s) SERVICE_REINTRODUCE then reintroduce_service x
      else done
    else _ ← when (negb disabled) (introduce_service x); done) (fun _ => services_only w') w').
  { intros Hm. eapply wp_conseq; [exact Hm|]. cbn beta. intros _ w'' Ho'. split; [by rewrite (so_list _ _ Ho')|by eapply services_only_trans]. }
  assert (x ∈ service_list w') as (i & Ei & Hk)%(tab_services w' (ni_tables _ (proj1 Hw'))) by (rewrite El; set_solver).
  destruct (kind_service w' x (id_net i)) as (c & s & Ec & Es); [by exists i|].
  apply wp_bind. eapply wp_service_of; [done..|]. cbv zeta.
  assert (on_net c = has_flag (sr_status s) SERVICE_INTRODUCED) as Hn by (unfold on_net; by rewrite Es).
  destruct (has_flag (sr_status s) SERVICE_INTRODUCED) eqn:Eint.
  - destruct (has_flag (sr_flags s) SERVICE_DISABLED).
    + unfold deintroduce_service. apply wp_bind. apply (wp_gets (fun s => s)). apply wp_bind. eapply wp_rd; [exact Ec|].
      apply wp_bind. eapply wp_quiet; [apply quiet_sendto_server|]. intros [] w1 Hs1.
      assert (clients w1 !! x = Some c) as Ec1 by (by rewrite (sn_clients _ _ Hs1)).
      assert (good w1) as Hw1 by (by eapply good_same).
      destruct (service_off_good x c s w1 Hw1 Ec1 Es Hn) as [Hg Hog].
      apply wp_bind. eapply wp_upd_service; [done..|]. eapply (wp_del_client _ _ (mark false c)).
      { simpl. apply lookup_alter_iff. exists c. by rewrite decide_True. }
      change (services_only w' (service_off x c w1)). eapply services_only_trans; [by apply services_only_same|].
      split; [done|..]; unfold service_off, unfile_client; by destruct (is_empty _).
    + destruct (has_flag _ SERVICE_REINTRODUCE); [by eapply wp_reintroduce|by eapply wp_clear_reintroduce].
  - apply wp_bind, wp_conseq with (Q := fun _ w2 => services_only w' w2).
    + apply wp_when; intros _; [|by split]. eapply wp_introduce_service; [done..|]. intros w1 Hs1.
      assert (clients w1 !! x = Some c) as Ec1 by (by rewrite (sn_clients _ _ Hs1)).
      destruct (service_on_good x c s w1 (good_same _ _ Hs1 Hw') Ec1 Es Hn) as [Hg Hog].
      change (services_only w' (service_on x c w1)). eapply services_only_trans; [by apply services_only_same|].
      split; [done|..]; unfold service_on, file_client; by destruct (is_empty _).
    + intros [] w2 Ho2. assert (x ∈ service_list w2) as (i2 & Ei2 & Hk2)%(tab_services w2 (ni_tables _ (proj1 (so_good _ _ Ho2)))).
      { rewrite (so_list _ _ Ho2), El. set_solver. }
      destruct (kind_service w2 x (id_net i2)) as (c2 & s2 & Ec2 & Es2); [by exists i2|].
      eapply wp_conseq; [eapply wp_clear_reintroduce; [exact (so_good _ _ Ho2)|done..]|].
      cbn beta. intros _ w3. by apply services_only_trans.
Qed.
End services.

(** ** The whole rehash, and stored operators *)
Section parse.
Context `{SYS : Sys} `{RB : !RbSpec} `{HK : !HooksOk}.

(** The rest of the file: whatever it sets, operator blocks are not among it. *)
Definition settings_ok (settings : M world unit) : Prop :=
  ∀ w, good w → wp settings (fun _ w' => good w' ∧ conf_opers w' = conf_opers w ∧ conf_oper_list w' = conf_oper_list w) w.

(** The blocks after a rehash with [blocks]. *)
Record rehashed (blocks : list (conf_oper * list conf_oper)) (w w' : world) : Prop := Rehashed {
  rh_good : good w';
  rh_ok : blocks_ok (conf_opers w') (conf_oper_list w');
  rh_new b : b ∈ read_blocks blocks →
    ∃ o b', o ∈ conf_oper_list w' ∧ conf_opers w' !! o = Some b' ∧ ConfDead b' = false ∧ stands_for b b';
  rh_live o b' : o ∈ conf_oper_list w' → conf_opers w' !! o = Some b' → ConfDead b' = false →
    ∃ b, b ∈ read_blocks blocks ∧ stands_for b b';
  rh_used o b : o ∈ conf_oper_list w → conf_opers w !! o = Some b → oper_refcount b ≠ 0 →
    o ∈ conf_oper_list w' ∧ ∃ b', conf_opers w' !! o = Some b' ∧ oper_refcount b' = oper_refcount b;
  rh_dead o b' : o ∈ conf_oper_list w' → conf_opers w' !! o = Some b' → ConfDead b' = true → oper_refcount b' ≠ 0
}.

Lemma wp_conf_parse blocks settings w :
  good w → blocks_ok (conf_opers w) (conf_oper_list w) → parsed blocks → settings_ok settings →
  wp (conf_parse blocks settings) (fun _ w' => rehashed blocks w w') w.
Proof.
  intros Hw Hok Hp Hset. unfold conf_parse. apply wp_bind, wp_clear_old_conf; [done..|]. intros m1 Hr1.
  apply wp_bind. eapply wp_read_operators; [exact Hr1|exact Hp|]. intros m2 l2 [Hok2 Hs2 Hnew Hlive Hold Hrefs].
  pose proof (good_blocks w m2 l2 Hw Hs2) as Hw2. fold (with_blocks m2 l2 w) in Hw2.
  apply wp_bind. eapply wp_conseq; [by apply Hset|]. cbn beta. intros [] w3 (Hw3 & Em3 & El3). simpl in Em3, El3.
  apply wp_bind. apply (wp_gets (fun s => s)).
  apply wp_bind, wp_conseq with (Q := fun _ w4 => services_only w3 w4).
  { apply wp_when; intros _; [by apply update_services_ok|by split]. }
  intros [] w4 [Hw4 _ Em4 El4]. rewrite Em3 in Em4. rewrite El3 in El4.
  apply wp_clear_old_conf_final; [done|by rewrite Em4, El4|]. rewrite Em4, El4. intros m5 l5 Hs5 [Hok5 Hkept Hback Hlist Hused].
  split; [by apply good_blocks|done| | | |].
  - intros b (o & b' & Ho & Eo & Hd & Hst)%Hnew. destruct (Hkept o b' Eo) as [Eo5 Hin]; [by left|].
    exists o, b'. split_and!; [by apply Hin|done..].
  - intros o b' Ho Eo Hd. by apply (Hlive o); [apply Hlist|apply Hback|].
  - intros o b Ho Eo Hrf. destruct (Hrefs o b Eo) as (b' & Eb' & Hrb). destruct (Hkept o b' Eb') as [E5 Hin]; [right; congruence|].
    split; [by apply Hin, Hold|]. by exists b'.
  - intros o b' Ho Eo Hd. destruct (Hused o b' Ho Eo) as [Hu|Hu]; [congruence|done].
Qed.

(** Entries that have expired are dropped one by one. *)
Lemma wp_expire_entries now l : ∀ pre w (Q : list client_oper → world → Prop),
  net_inv (with_entries (pre ++ l) w) →
  (∀ es w', net_inv (with_entries (pre ++ es) w') → mode_lists w' = mode_lists w → Q es w') →
  wp (expire_entries now l) Q w.
Proof.
  induction l as [|e l IH]; intros pre w Q Hw HQ; simpl.
  { by apply wp_ret, HQ. }
  apply wp_bind. apply (wp_gets (fun s => s)). destruct (_ <? _).
  - apply wp_bind. apply wp_deallocate.
    { apply (acc_entry _ (ni_accounts _ Hw)). simpl. set_solver. }
    apply (IH pre); [by apply net_inv_drop_entry|]. intros es w' Hw' Hl. by apply HQ.
  - apply wp_bind. apply (IH (pre ++ [e])); [by rewrite <- app_assoc|]. intros es w' Hw' Hl.
    apply wp_ret, HQ; [|done]. by rewrite <- app_assoc in Hw'.
Qed.

Lemma expire_client_oper_good w : good w → wp expire_client_oper (fun _ => good) w.
Proof.
  intros [Hw Hi]. unfold expire_client_oper. apply wp_bind. apply (wp_gets (fun s => s)).
  apply wp_bind. apply (wp_expire_entries _ _ []).
  { destruct w. exact Hw. }
  intros es w' Hw' Hl. apply wp_modify. split; [exact Hw'|]. by apply (idle_lists w).
Qed.

(** A block that is out of the configuration goes with its last login, and the list keeps it. *)
Lemma wp_logout_dead w s p c u o b :
  ready w s p → clients w !! p = Some c → cl_user c = Some u → us_oper u = Some o →
  conf_opers w !! o = Some b → ConfDead b = true → oper_refcount b = 1 →
  wp (oper_logout p) (fun _ w' => good w' ∧ conf_opers w' !! o = None ∧ conf_oper_list w' = conf_oper_list w) w.
Proof.
  intros R Ec Eu Eo Eb Hd Hrf. unfold oper_logout. apply wp_bind. eapply wp_user_of; [done..|]. rewrite Eo.
  apply wp_bind. eapply wp_conseq; [by eapply quiet_watch_send|]. cbn beta. intros [] w1 Hs.
  pose proof (ready_tally _ _ _ _ (tally_same _ _ Hs) R) as R1. rewrite <- (sn_clients _ _ Hs) in Ec.
  rewrite <- (sn_conf_opers _ _ Hs) in Eb.
  assert (good (logout_world p o w1)) as G by (eapply good_logout; [exact (re_good _ _ _ R1)|exact (re_user _ _ _ R1)|done..]).
  apply wp_bind, wp_deallocate; [by exists b|]. apply wp_bind. eapply wp_upd_user; [done..|].
  apply wp_bind, wp_modify. change (_ <| oper_list ::= _ |>) with (logout_world p o w1).
  assert (conf_opers (logout_world p o w1) !! o = None) as Hno.
  { simpl. unfold drop_ref. rewrite lookup_alter_eq, Eb. cbn [fmap option_fmap option_map].
    assert (has_flag (oper_flags (add_ref (-1) b)) CONF_DEAD && (oper_refcount (add_ref (-1) b) =? 0) = true) as ->.
    { simpl. unfold ConfDead in Hd. rewrite Hd, Hrf. done. }
    apply lookup_delete_eq. }
  assert (is_Some (clients (logout_world p o w1) !! p)) as [c2 Ec2].
  { simpl. rewrite lookup_alter_eq, Ec. by eexists. }
  eapply (wp_quiet _ _ (logout_world p o w1)).
  - unfold server_notice. apply quiet_bind; [apply (quiet_gets (fun s => s))|]. intros w2 w2' Hs2.
    apply quiet_bind; [|intros; apply quiet_sendto_server]. unfold quiet. eapply wp_rd; [|done].
    by rewrite (sn_clients _ _ Hs2).
  - intros [] w3 Hs3. split; [by eapply good_same|]. rewrite (sn_conf_opers _ _ Hs3), (sn_conf_list _ _ Hs3).
    split; [done|]. simpl. apply (sn_conf_list _ _ Hs).
Qed.
End parse.
