(* ===== verification/Sample.v ===== *)
(** * A small network

    A hub, a leaf behind it, a user on each and a channel that both are in: the
    state at which the theorems about the network are evaluated.  The hooks are
    those of a program without services, which keep everything, and the commands of
    services do nothing. *)

From S2P Require Import Prelude CString Match Rblib Tools Fault World Lookup ModeBuild Channel Client Net Members Index Handlers Joins Clients Exits Commands Requests.

(** ** An empty network, and hooks that do nothing *)
Section empty.
Context `{SYS : Sys}.

Record bare (w : world) : Prop := Bare {
  ba_clients : clients w = ∅;
  ba_channels : channels w = ∅;
  ba_members : members w = ∅;
  ba_blocks : conf_opers w = ∅;
  ba_tables : name_table w = ∅ ∧ uid_table w = ∅ ∧ channel_table w = ∅;
  ba_lists : user_list w = [] ∧ oper_list w = [] ∧ server_list w = [] ∧ exited_list w = [] ∧ service_list w = [] ∧
    channel_list w = [] ∧ client_oper_list w = [];
  ba_idle : idle w
}.

Lemma bare_good w : bare w → good w.
Proof.
  intros [Ec Ech Em Eb (E1 & E2 & E3) (L1 & L2 & L3 & L4 & L5 & L6 & L7) Hi]. split; [|done].
  assert (ids w = ∅) as Ei by (unfold ids; rewrite Ec; apply fmap_empty).
  split.
  - split; split; rewrite ?E3, ?L6, ?Ech, ?Ec; try (intros *; rewrite ?Ech, ?Em, ?Ec, lookup_empty; done).
    + split; [constructor|]. intros x. rewrite lookup_empty. split; [by intros ?%elem_of_nil|by intros [? ?]].
    + intros h. split; [constructor|]. intros x. simpl. split; [by intros ?%elem_of_nil|]. intros (ch & E & _). by rewrite lookup_empty in E.
  - split; rewrite ?E1, ?E2, ?L1, ?L3, ?L4, ?L5; try (intros *; rewrite Ei, lookup_empty; done);
      try (intros h); (split; [constructor|]); intros x; (split; [by intros ?%elem_of_nil|]).
    all: unfold filed_name, filed_uid, filed_kind; rewrite Ei, lookup_empty; naive_solver.
  - split; try (intros *; rewrite Ei, lookup_empty; done).
    exists (fun _ => 0%nat). intros *. by rewrite Ei, lookup_empty.
  - split; rewrite ?L2, ?L7; try (intros *; rewrite ?Ei, ?Eb, lookup_empty; done).
    + split; [constructor|]. intros x. rewrite Ei, lookup_empty. split; [by intros ?%elem_of_nil|naive_solver].
    + intros e. by intros ?%elem_of_nil.
  - intros m mb. by rewrite Em, lookup_empty.
Qed.

Context (still : ∀ f a l w, hook_func f a l w = Ok (0, l) w).

Lemma still_quiet : QuietHooks.
Proof. intros w h a f l _ _. unfold quiet. apply (wp_ok _ _ _ _ _ (still f a l w)). done. Qed.

Lemma still_hooks : HooksOk.
Proof.
  split.
  - apply still_quiet.
  - intros w h a f l _ Hw _ Hl _. apply (wp_ok _ _ _ _ _ (still f a l w)). split_and!; [by apply calm_refl|done|done|by destruct l].
  - intros w a f ms Hw Hi Ha Hl _. apply (wp_ok _ _ _ _ _ (still f a _ w)). split_and!; [done|done|done|done|]. by exists ms.
  - intros w h a f l _ Hw Hi _. apply (wp_ok _ _ _ _ _ (still f a l w)). split_and!; [done..|]. intros p i Ei. by exists i.
Qed.
End empty.

#[local] Existing Instance quiet_sys.
#[local] Existing Instance rb_reference_spec.

#[export] Instance quiet_sys_quiet : @QuietHooks quiet_sys.
Proof. by apply still_quiet. Qed.
#[export] Instance quiet_sys_hooks : @HooksOk quiet_sys.
Proof. by apply still_hooks. Qed.

#[export] Instance quiet_sys_commands : @CommandsOk quiet_sys.
Proof.
  split.
  - intros w s p f parv R _. refine (wp_ret 1 _ _ _). by apply ready_attended.
  - intros w s p o d R _. refine (wp_ret tt _ _ _). apply R.
Qed.

Definition hub : client := zero_client <| cl_name := "hub.example" |> <| cl_uid := "1AA" |>
  <| cl_server := Some zero_server |>.
Definition leaf : client := zero_client <| cl_name := "leaf.example" |> <| cl_uid := "2BB" |>
  <| cl_server := Some zero_server |> <| cl_uplink := Some 1%positive |>.
Definition alice : client := zero_client <| cl_name := "alice" |> <| cl_uid := "1AAAAAAAA" |>
  <| cl_user := Some (zero_user <| us_servername := 1%positive |>) |> <| cl_uplink := Some 1%positive |>.
Definition bob : client := zero_client <| cl_name := "bob" |> <| cl_uid := "2BBAAAAAA" |>
  <| cl_user := Some (zero_user <| us_servername := 2%positive |>) |> <| cl_uplink := Some 2%positive |>.

Definition lounge : channel := zero_channel <| ch_name := "#lounge" |> <| ch_tsinfo := 500 |>.

Definition linked_world : world :=
  quiet_world <| server_p := Some (Lconn (Some 1%positive) "hub.example" (Some "1AA"%string) CONN_FLAGS_SENTBURST 0 0 "") |>.

Definition sample : world :=
  insert_member 2 (Chmember 1 4 0) (insert_member 1 (Chmember 1 3 MODE_OPPED) (insert_channel 1 lounge
    (enter_client 4 bob (enter_client 3 alice (enter_client 2 leaf (enter_client 1 hub linked_world)))))).

Lemma linked_world_good : good linked_world.
Proof. apply bare_good. by split. Qed.

Definition servers_world : world := enter_client 2 leaf (enter_client 1 hub linked_world).
Definition users_world : world := enter_client 4 bob (enter_client 3 alice servers_world).

(** A client of the sample that is on the network. *)
Ltac there := eexists; split; [vm_compute; reflexivity|split; reflexivity].

Lemma servers_good : good servers_world.
Proof.
  unfold servers_world. apply new_client_inv; try (done || by right).
  - apply new_client_inv; try (done || by right). apply linked_world_good.
  - intros q [= <-]. there.
Qed.

Lemma users_good : good users_world.
Proof.
  unfold users_world. apply new_client_inv; try (done || by left).
  - apply new_client_inv; try (done || by left); [apply servers_good|..].
    + intros q [= <-]. there.
    + split; by intros l [= <-].
  - intros q [= <-]. there.
  - split; by intros l [= <-].
Qed.

Definition channel_world : world := insert_channel 1 lounge users_world.

Lemma channel_good : good channel_world.
Proof.
  assert (channels users_world = ∅) as E by (vm_compute; reflexivity).
  destruct (calm_new_channel users_world 1 lounge) as [Hc Hr].
  - apply users_good.
  - by rewrite E.
  - by split_and!.
  - done.
  - intros q ch. rewrite E. by rewrite lookup_empty.
  - split; [apply Hc|]. eapply idle_rest; [exact Hr|apply users_good].
Qed.

(** A user of the sample joins the channel. *)
Lemma join_good w m c fl :
  good w → members w !! m = None → is_Some (channels w !! 1%positive) →
  filed_kind (ids w) KUser true c →
  (∀ x mb, members w !! x = Some mb → mb_client_p mb ≠ c) →
  good (insert_member m (Chmember 1 c fl) w).
Proof.
  intros [Hw Hi] Hm Hch Hu Hnew. split.
  - apply net_inv_insert; [done| |done]. split; [done..|by eapply kind_user|]. intros x (mb & E & _ & Ew). by eapply Hnew.
  - eapply idle_rest; [|exact Hi]. by split; [apply insert_index|..].
Qed.

Lemma sample_good : good sample.
Proof.
  change sample with (insert_member 2 (Chmember 1 4 0) (insert_member 1 (Chmember 1 3 MODE_OPPED) channel_world)).
  assert (members channel_world = ∅) as E by (vm_compute; reflexivity).
  assert (members (insert_member 1 (Chmember 1 3 MODE_OPPED) channel_world) = {[1%positive := Chmember 1 3 MODE_OPPED]}) as E1
    by (vm_compute; reflexivity).
  apply join_good; [apply join_good; [apply channel_good|..]|..].
  - by rewrite E.
  - by eexists.
  - there.
  - intros x mb. by rewrite E.
  - by rewrite E1.
  - by eexists.
  - there.
  - intros x mb. rewrite E1. by intros [<- <-]%lookup_singleton_Some.
Qed.
