(* ===== verification/Network.v ===== *)
(** * Lines of the server protocol keep the network sound

    The dispatch of a line to the handlers of [channel.c], [c_mode.c] and
    [client.c], the states that a sequence of lines leads to, and what single
    operations and commands do, given the invariant. *)

From S2P Require Import Prelude CString Match Rblib Tools Fault World Lookup ModeBuild Channel SimpleMode ChanCmd ChMode Conf Client Dispatch Scommand Message Queries Link Net Members Index Handlers Joins Modes Clients Exits Commands Replies Release Linkup Requests Rehash Sample.

(** ** Lines *)
Lemma cut_at_no_nul c s : no_nul s = true → no_nul (cut_at c s) = true.
Proof.
  unfold cut_at. destruct (strchr s c) as [[p q]|] eqn:E; [|done]. apply strchr_inv in E as [-> _].
  rewrite no_nul_app. intros. by bool_simpl.
Qed.

Lemma strchr_no_nul s c p q : strchr s c = Some (p, q) → no_nul s = true → no_nul p = true ∧ no_nul q = true.
Proof. intros [-> _]%strchr_inv. rewrite no_nul_app. simpl. intros. by bool_simpl. Qed.

Lemma tail_no_nul s : no_nul s = true → no_nul (tail s) = true.
Proof. destruct s; [done|]. simpl. intros. by bool_simpl. Qed.

Lemma line_source_no_nul s : no_nul s = true →
  (∀ x, (line_source s).1 = Some x → no_nul x = true) ∧ no_nul (line_source s).2 = true.
Proof.
  intros Hs. unfold line_source. destruct (Ascii.eqb _ _); [|done]. pose proof (tail_no_nul s Hs) as Ht.
  destruct (strchr (tail s) " ") as [[p q]|] eqn:E; simpl.
  - apply strchr_no_nul in E as [? ?]; [|done]. split; [by intros x [= <-]|by apply skip_blanks_no_nul].
  - split; [by intros x [= <-]|done].
Qed.

Lemma line_command_no_nul s : no_nul s = true →
  no_nul (line_command s).1 = true ∧ ∀ x, (line_command s).2 = Some x → no_nul x = true.
Proof.
  intros Hs. unfold line_command. destruct (strchr s " ") as [[p q]|] eqn:E; simpl; [|done].
  apply strchr_no_nul in E as [? ?]; [|done]. split; [done|]. intros x [= <-]. by apply skip_blanks_no_nul.
Qed.

Section lines.
Context `{SYS : Sys} `{RB : !RbSpec}.

Lemma args_no_nul s n : (∀ x, s = Some x → no_nul x = true) → parv_ok (rb_string_to_array s n).
Proof.
  intros Hs. apply Forall_forall. intros x (t & p & q & -> & ->)%rb_string_to_array_spec.
  specialize (Hs _ eq_refl). rewrite !no_nul_app in Hs. by bool_simpl.
Qed.

Lemma split_line_no_nul name buf len source command parv :
  no_nul name = true → no_nul buf = true → split_line name buf len = Some (source, command, parv) →
  no_nul source = true ∧ no_nul command = true ∧ parv_ok parv.
Proof.
  intros Hn Hb. unfold split_line.
  set (buf' := if _ <? len then _ else _). assert (no_nul buf' = true) as Hb'.
  { unfold buf'. destruct (_ <? _); [by apply no_nul_str_take|done]. }
  clearbody buf'.
  set (s := skip_blanks _). assert (no_nul s = true) as Hs by (by apply skip_blanks_no_nul, cut_at_no_nul, cut_at_no_nul).
  destruct (line_source_no_nul s Hs) as [H1 H2]. clearbody s. destruct (line_source s) as [src ch]. cbn [fst snd] in *.
  destruct (is_empty (Some ch)); [done|]. destruct (line_command_no_nul ch H2) as [H3 H4].
  destruct (line_command ch) as [c args]. intros [= <- <- <-]. split_and!; [|done|by apply args_no_nul].
  destruct src as [x|]; [by apply H1|done].
Qed.
End lines.

(** ** The dispatch *)
Section dispatch.
Context `{SYS : Sys} `{RB : !RbSpec} `{HK : !HooksOk} `{CO : !CommandsOk}.

Definition network_commands : list scommand_handler :=
  channel_commands ++ client_commands ++ link_commands ++ message_commands.
Definition command_table : gmap Z (list scommand_handler) := add_all network_commands ∅.

(** What the handlers take for granted of a line: BMASK has its arguments; the source
    of UID, SID and SERVER is a server; WHOIS names a client that is there; a message
    finds the blocks and services it needs, and asks for the partyline only for a user;
    ERROR comes when all services are on the network. *)
Record call_ok (w : world) (command : string) (parv : list string) (p : ptr) : Prop := CallOk {
  ca_bmask : strcasecmp command "BMASK" = 0 → (4 ≤ length parv)%nat;
  ca_server : Exists (fun name => strcasecmp command name = 0) ["UID"; "SID"; "SERVER"]%string →
    filed_kind (ids w) KServer true p;
  ca_whois : strcasecmp command "WHOIS" = 0 → whois_target w parv;
  ca_message : Exists (fun name => strcasecmp command name = 0) ["PRIVMSG"; "ENCAP"]%string → requests_ok w;
  ca_ctcp : strcasecmp command "PRIVMSG" = 0 → ctcp_source w parv p;
  ca_error : strcasecmp command "ERROR" = 0 → services_on w
}.

Lemma network_handler_good h w client_p parv :
  h ∈ network_commands → good w → parv_ok parv → live w client_p → uplink_live w → call_ok w (cmd h) parv client_p →
  wp (func h (Some client_p) parv) (fun _ => good) w.
Proof.
  intros Hh Hw Hp Hl Hup [Hb Hs Ht Hm Hctcp He].
  unfold network_commands, channel_commands, client_commands, link_commands, message_commands in Hh.
  cbn [app] in Hh.
  assert (is_Some (clients w !! client_p)) as Hc by (destruct (live_kind w client_p (proj1 Hw) Hl) as (c & Ec & _); by exists c).
  assert (is_Some (server_p w)) as Hsp by (destruct Hup as (l & _ & El & _); by exists l).
  repeat (apply elem_of_cons in Hh as [->|Hh]); [..|by apply elem_of_nil in Hh]; cbn [func known].
  - by apply c_join_good.
  - by apply c_kick_good.
  - by apply c_part_good.
  - by apply c_sjoin_good.
  - by apply c_tb_good.
  - by apply c_topic_good.
  - by apply c_mode_good.
  - by apply c_tmode_good.
  - by apply c_bmask_run; [..|by apply Hb].
  - by apply c_kill_good.
  - by apply c_nick_good.
  - apply c_uid_good; [done|done|]. apply Hs. by left.
  - by apply c_quit_good.
  - apply c_server_good; [done..|]. apply Hs. right; right; by left.
  - apply c_sid_good; [done|done|]. apply Hs. right; by left.
  - by apply c_squit_good.
  - by apply c_admin_good.
  - simpl. unfold c_capab. destruct (_ <? _)%nat; by apply wp_ret.
  - simpl. unfold c_pass. destruct (_ <? _)%nat; by apply wp_ret.
  - by apply c_ping_good.
  - by apply c_pong_good.
  - by apply c_trace_good.
  - by apply c_version_good.
  - by apply c_time_good.
  - apply c_whois_good; [done..|by apply Ht].
  - apply c_message_good; [done..| |by apply Hctcp]. apply Hm. by left.
  - apply c_encap_good; [done..|]. apply Hm. right; by left.
  - apply c_error_good; [done|done|by apply He|done].
Qed.

Lemma network_names : names_ok network_commands.
Proof. repeat constructor; done. Qed.

Lemma network_first command h :
  no_nul command = true → first_handler command (sbucket command_table (hash_command command)) = Some h →
  h ∈ network_commands ∧ strcasecmp command (cmd h) = 0.
Proof.
  intros Hc. unfold command_table. rewrite first_handler_all by (done || apply network_names).
  replace (sbucket ∅ (hash_command command)) with (@nil scommand_handler)
    by (unfold sbucket; by rewrite lookup_empty). cbn [first_handler].
  destruct (first_handler command (rev network_commands)) as [x|] eqn:E; [|done]. intros [= <-].
  apply first_handler_Some in E as [Hx Ex]. by rewrite list_elem_of_In, <- in_rev, <- list_elem_of_In in Hx.
Qed.

Lemma no_hooks h : h ∈ network_commands → sc_hooks h = [] ∧ no_nul (cmd h) = true.
Proof.
  unfold network_commands, channel_commands, client_commands, link_commands, message_commands. cbn [app]. intros Hh.
  repeat (apply elem_of_cons in Hh as [->|Hh]); [..|by apply elem_of_nil in Hh]; done.
Qed.

(** Commands that differ in case only. *)
Lemma same_exists command name l : no_nul command = true → no_nul name = true → Forall (fun x => no_nul x = true) l →
  strcasecmp command name = 0 → Exists (fun x => strcasecmp name x = 0) l → Exists (fun x => strcasecmp command x = 0) l.
Proof.
  intros Hc Hn Hl E (x & Hx & Ex)%Exists_exists. apply Exists_exists. exists x. split; [done|].
  rewrite Forall_forall in Hl. apply (strcasecmp_trans _ name); [done..|]. by apply Hl.
Qed.

Lemma call_ok_same w command name parv p :
  no_nul command = true → no_nul name = true → strcasecmp command name = 0 → call_ok w command parv p → call_ok w name parv p.
Proof.
  intros Hc Hn E [H1 H2 H3 H4 H5 H6]. split; intros He.
  - apply H1. by eapply (strcasecmp_trans _ name).
  - apply H2. apply (same_exists command name); [done..|by repeat constructor|done|done].
  - apply H3. by eapply (strcasecmp_trans _ name).
  - apply H4. apply (same_exists command name); [done..|by repeat constructor|done|done].
  - apply H5. by eapply (strcasecmp_trans _ name).
  - apply H6. by eapply (strcasecmp_trans _ name).
Qed.

Definition source_ok (w : world) (source command : string) (parv : list string) : Prop :=
  ∀ p, found_client w source (Some p) → call_ok w command parv p.

Lemma handle_scommand_good w source command parv :
  good w → uplink_live w → no_nul source = true → no_nul command = true → parv_ok parv →
  source_ok w source command parv → wp (handle_scommand command_table source command parv) (fun _ => good) w.
Proof.
  intros Hw Hup Hs Hc Hp Hsrc. pose proof Hup as (l & up & El & Elc & _). unfold handle_scommand.
  destruct (find_client_ok w source (ni_tables _ (proj1 Hw)) Hs) as (r & E & Hr).
  apply wp_bind. apply (wp_ok _ _ _ _ _ E). destruct r as [p|].
  - unfold handle_scommand_client. destruct (first_handler _ _) as [h|] eqn:Eh; [|by apply wp_ret].
    apply network_first in Eh as [Hh Ecmd]; [|done]. destruct (no_hooks h Hh) as (Ehk & Hn).
    apply wp_bind. eapply wp_conseq.
    { apply network_handler_good; [done..|by eapply found_client_live|done|]. by apply (call_ok_same _ command), Hsrc. }
    cbn beta. intros [] w1 Hw1. rewrite Ehk. by apply wp_ret.
  - apply wp_bind. apply (wp_gets (fun s => s)). apply wp_bind. eapply wp_need; [exact El|].
    rewrite Elc. by apply good_mlog.
Qed.

(** What a line may be: a C string that the handlers' assumptions hold of. *)
Definition line_ok (w : world) (name buf : string) (len : Z) : Prop :=
  no_nul name = true ∧ no_nul buf = true ∧
  ∀ source command parv, split_line name buf len = Some (source, command, parv) → source_ok w source command parv.

Lemma parse_server_good w l buf len :
  good w → uplink_live w → server_p w = Some l → line_ok w (lc_name l) buf len →
  wp (parse_server command_table buf len) (fun _ => good) w.
Proof.
  intros Hw Hup El (Hn & Hb & Hargs). unfold parse_server. apply wp_bind. apply (wp_gets (fun s => s)).
  apply wp_bind. eapply wp_need; [exact El|].
  destruct (split_line _ _ _) as [[[source command] parv]|] eqn:E; [|by apply wp_ret].
  destruct (split_line_no_nul _ _ _ _ _ _ Hn Hb E) as (? & ? & ?). pose proof (Hargs _ _ _ eq_refl).
  by apply handle_scommand_good.
Qed.
End dispatch.

(** ** Sequences of lines *)
Section reachable.
Context `{SYS : Sys} `{RB : !RbSpec} `{HK : !HooksOk} `{CO : !CommandsOk}.

(** What happens to the picture of the network: a line from the uplink is handled;
    the clients that exited are freed; the connection is made anew, or its state
    changes; the uplink introduces itself on it; the connection is signed off, all
    services being on the network; the configuration is read again; the operators that
    are kept for users behind a split expire; time passes. *)
Inductive net_step : world → world → Prop :=
| step_line w w' l buf len :
    server_p w = Some l → uplink_live w → line_ok w (lc_name l) buf len →
    parse_server command_table buf len w = Ok tt w' → net_step w w'
| step_cleanup w w' : cleanup_exited_clients w = Ok tt w' → net_step w w'
| step_connection w x : net_step w (w <| server_p := x |>)
| step_handshake w w' l name sid hops rest :
    off_line w → accepted w l name sid → parv_ok (name :: hops :: rest) → rest ≠ [] →
    c_server None (name :: hops :: rest) w = Ok tt w' → net_step w w'
| step_signoff w w' l p :
    services_on w → server_p w = Some l → ConnDead l = false → lc_client_p l = Some p →
    filed_kind (ids w) KServer true p → signoff_server w = Ok tt w' → net_step w w'
| step_rehash w w' blocks settings :
    blocks_ok (conf_opers w) (conf_oper_list w) → parsed blocks → settings_ok settings →
    conf_parse blocks settings w = Ok tt w' → net_step w w'
| step_expire w w' : expire_client_oper w = Ok tt w' → net_step w w'
| step_tick w now : net_step w (w <| rb_time := now |>).

Lemma step_good w w' : good w → net_step w w' → good w'.
Proof.
  intros Hw Hs. destruct Hs as [w w' l buf len El Hup Hl E|w w' E|w x|w w' l name sid hops rest Hoff Ha Hp Hr E
    |w w' l p Hon El Hd Hl Hp E|w w' blocks settings Hb Hp Hset E|w w' E|w now].
  - apply (wp_elim _ _ _ tt _ (parse_server_good w l buf len Hw Hup El Hl) E).
  - apply (wp_elim _ _ _ tt _ (cleanup_good w Hw) E).
  - by apply good_server_p.
  - apply (wp_elim _ _ _ tt _ (c_server_links w l name sid hops rest Hw Hoff Ha Hp Hr) E).
  - apply (wp_elim _ _ _ tt _ (signoff_good w l p Hw Hon El Hd Hl Hp) E).
  - apply (rh_good _ _ _ (wp_elim _ _ _ tt _ (wp_conf_parse blocks settings w Hw Hb Hp Hset) E)).
  - apply (wp_elim _ _ _ tt _ (expire_client_oper_good w Hw) E).
  - destruct Hw as [Hw Hi]. split; [|exact Hi]. apply (net_inv_index w); [|by split|by apply members_from_eq|exact Hw].
    eapply chan_inv_places; [apply Hw|]. split; eauto.
Qed.

Lemma reach_good w w' : good w → rtc net_step w w' → good w'.
Proof. intros Hw Hs. induction Hs; [done|]. eauto using step_good. Qed.

(** C1.  The invariant of the network, by rule induction over what happens to it: the
    lines that the uplink sends, the release of exited clients, handshakes and
    sign-offs of the link, rehashes, the expiry of stored operators, the ticks of the
    clock.  From a sound state only sound states are reached - channels, members, users,
    servers, services, their tables and lists and the accounts agree, and none of them
    refers to a freed client - and in each of them the next line, whichever of the
    twenty-eight commands it is, is handled without a null or dangling pointer, an
    access outside an array or a loop that does not end.

    Not every line is covered, and not every line is handled without a fault: each must
    satisfy [line_ok] where it is handled.  It has no NUL inside; a BMASK has its four
    arguments; UID, SID and SERVER come from a server; a WHOIS names a client that is
    there; a PRIVMSG or ENCAP finds the blocks, masks and help that start-up leaves
    ([requests_ok]); a CTCP comes from a user; an ERROR comes when all services are on
    the network.  The link is established ([uplink_live]), and the functions of the
    services keep to [HooksOk] and [CommandsOk]. *)
Theorem network_invariant (w w' : world) :
  good w → rtc net_step w w' →
  net_inv w' ∧ idle w' ∧
  ∀ l buf len, server_p w' = Some l → uplink_live w' → line_ok w' (lc_name l) buf len →
    ∀ f, parse_server command_table buf len w' ≠ Fault f.
Proof.
  intros Hw Hs. pose proof (reach_good w w' Hw Hs) as Hw'. split; [apply Hw'|]. split; [apply Hw'|].
  intros l buf len El Hup Hl f E. pose proof (parse_server_good w' l buf len Hw' Hup El Hl) as H.
  by eapply wp_no_fault in H.
Qed.

(** C18.  In every state that lines of the protocol lead to, the users of a channel
    are those with operator status and those without, each once, and all of them
    are memberships of that channel that tie it to a user. *)
Theorem channel_users_split (w w' : world) (p : ptr) (ch : channel) :
  good w → rtc net_step w w' → channels w' !! p = Some ch →
  NoDup (ch_users ch) ∧ ch_users ch ≡ₚ ch_users_opped ch ++ ch_users_unopped ch ∧
  ∀ m, m ∈ ch_users ch → ∃ mb c u, members w' !! m = Some mb ∧ mb_chptr mb = p ∧
    clients w' !! mb_client_p mb = Some c ∧ cl_user c = Some u ∧ m ∈ us_channels u.
Proof.
  intros Hw Hs Ech. pose proof (reach_good w w' Hw Hs) as [Hw' _]. pose proof (inv_membs _ (ni_chan _ Hw')) as Hm.
  destruct (memb_users _ Hm p ch Ech) as [Hnd Hl]. split; [done|]. split; [by eapply users_split|].
  intros m (mb & Em & Hc)%Hl. destruct (memb_user _ Hm m mb Em) as (c & u & Ec & Eu).
  exists mb, c, u. split_and!; [done..|]. destruct (memb_channels _ Hm _ c u Ec Eu) as [_ Hch].
  apply Hch. by exists mb.
Qed.
End reachable.

#[local] Existing Instance quiet_sys.
#[local] Existing Instance rb_reference_spec.

Definition sample_line (buf : string) (w : world) : outcome world unit :=
  parse_server command_table buf (Z.of_nat (strlen buf)) w.

Lemma sample_link : server_p sample = Some (Lconn (Some 1%positive) "hub.example" (Some "1AA"%string) CONN_FLAGS_SENTBURST 0 0 "").
Proof. vm_compute. reflexivity. Qed.

Lemma sample_uplink : uplink_live sample.
Proof. eexists _, 1%positive. split; [vm_compute; reflexivity|]. split; [reflexivity|]. there. Qed.

(** Alice leaves the channel. *)
Definition part_line : string := ":1AAAAAAAA PART #lounge".

Lemma part_line_ok : line_ok sample "hub.example" part_line 23.
Proof.
  split; [reflexivity|]. split; [reflexivity|]. intros source command parv.
  assert (split_line "hub.example" part_line 23 = Some ("1AAAAAAAA", "PART", ["#lounge"])%string) as -> by (vm_compute; reflexivity).
  intros [= <- <- <-] p _. split; intros Hex; exfalso;
    repeat (apply Exists_cons in Hex as [Hex|Hex]; [vm_compute in Hex; done|]);
    first [by apply Exists_nil in Hex|vm_compute in Hex; done].
Qed.

Lemma network_invariant_witness :
  good sample ∧ ∃ w', rtc net_step sample w' ∧ size (members w') = 1%nat ∧ net_inv w'.
Proof.
  split; [exact sample_good|].
  destruct (sample_line part_line sample) as [[] w'|?|?] eqn:E; [|vm_compute in E; discriminate..].
  assert (rtc net_step sample w') as Hs.
  { eapply rtc_once, (step_line _ _ _ part_line 23); [exact sample_link|exact sample_uplink|exact part_line_ok|exact E]. }
  exists w'. split; [exact Hs|]. split.
  - assert (match sample_line part_line sample with Ok _ w => size (members w) | _ => 0%nat end = 1%nat) as Hn
      by (vm_compute; reflexivity). by rewrite E in Hn.
  - apply (network_invariant sample w' sample_good Hs).
Defined.

Lemma channel_users_split_witness :
  good sample ∧ ∃ ch, channels sample !! 1%positive = Some ch ∧ length (ch_users ch) = 2%nat ∧
    ch_users ch ≡ₚ ch_users_opped ch ++ ch_users_unopped ch.
Proof.
  split; [exact sample_good|]. destruct (channels sample !! 1%positive) as [ch|] eqn:E; [|vm_compute in E; discriminate].
  exists ch. split; [done|]. split.
  - assert (length (default [] (ch_users <$> channels sample !! 1%positive)) = 2%nat) as Hn by (vm_compute; reflexivity).
    by rewrite E in Hn.
  - apply (channel_users_split sample sample 1 ch sample_good (rtc_refl _ _) E).
Defined.

(** ** What single operations do *)
Section operations.
Context `{SYS : Sys} `{RB : !RbSpec} `{HK : !HooksOk}.

(** C19.  [find_channel()] is a correct index of the channels: it finds the one
    channel whose name is the one asked for up to the case rules of IRC, and finds
    none exactly if there is none. *)
Theorem find_channel_correct (w : world) (name : string) :
  net_inv w → no_nul name = true →
  ∃ r, find_channel name w = Ok r w ∧
    match r with
    | Some p => ∃ ch, channels w !! p = Some ch ∧ irccmp (ch_name ch) name = 0 ∧
        ∀ q ch', channels w !! q = Some ch' → irccmp (ch_name ch') name = 0 → q = p
    | None => ∀ p ch, channels w !! p = Some ch → irccmp (ch_name ch) name ≠ 0
    end.
Proof.
  intros Hw Hn. pose proof (inv_chans _ (ni_chan _ Hw)) as Hc.
  destruct (find_channel_ok w name Hc Hn) as (r & E & Hr). exists r. split; [done|]. destruct r as [p|]; [|done].
  destruct Hr as (ch & Ech & Hch). exists ch. split_and!; [done..|]. intros q ch' Eq Hq.
  apply (chan_unique w Hc q p ch' ch Eq Ech).
  pose proof (chan_name w Hc q ch' Eq). pose proof (chan_name w Hc p ch Ech).
  apply irccmp_lower in Hq, Hch; [|done..]. apply irccmp_lower; [done..|]. congruence.
Qed.

(** C20.  [find_client()] is a correct index of the clients on the network.  What it
    finds has the name asked for, or the unique id if the name starts with a digit;
    then a client with that id is preferred; it finds nothing exactly if no client
    on the network has the name or, for a digit, the id. *)
Theorem find_client_correct (w : world) (name : string) :
  net_inv w → no_nul name = true →
  ∃ r, find_client name w = Ok r w ∧
    match r with
    | Some p => ∃ c, clients w !! p = Some c ∧ on_net c = true ∧
        (irccmp (cl_name c) name = 0 ∧
           (IsDigit (deref name) = true → ∀ q c', clients w !! q = Some c' → on_net c' = true →
              cl_uid c' ≠ ""%string → irccmp (cl_uid c') name ≠ 0)
         ∨ IsDigit (deref name) = true ∧ irccmp (cl_uid c) name = 0)
    | None => ∀ p c, clients w !! p = Some c → on_net c = true →
        (cl_name c ≠ ""%string → irccmp (cl_name c) name ≠ 0) ∧
        (IsDigit (deref name) = true → cl_uid c ≠ ""%string → irccmp (cl_uid c) name ≠ 0)
    end.
Proof.
  intros Hw Hn. destruct (find_client_ok w name (ni_tables _ Hw) Hn) as (r & E & Hr). exists r. split; [done|].
  assert (∀ f p, found w f name (Some p) → ∃ c, clients w !! p = Some c ∧ on_net c = true ∧ irccmp (f (ident_of c)) name = 0) as Hsome.
  { intros f p (j & (c & Ec & <-)%ids_client & Hnet & Hj). by exists c. }
  assert (∀ f, found w f name None → ∀ p c, clients w !! p = Some c → on_net c = true →
    f (ident_of c) ≠ ""%string → irccmp (f (ident_of c)) name ≠ 0) as Hnone.
  { intros f Hf p c Ec Hnet. apply (Hf p _ (ids_of _ _ _ Ec) Hnet). }
  unfold found_client in Hr. destruct (IsDigit _), r as [p|].
  - destruct Hr as [Hr|[Hu Hr]]; apply Hsome in Hr as (c & Ec & Hnet & Hc); exists c; split_and!; [done..|by right|done|done|].
    left. split; [done|]. intros _ q c' Eq Hq. by apply (Hnone id_uid Hu q).
  - destruct Hr as [Hu Hr]. intros p c Ec Hnet. split; [by apply (Hnone id_name Hr p)|intros _; by apply (Hnone id_uid Hu p)].
  - apply Hsome in Hr as (c & Ec & Hnet & Hc). exists c. split_and!; [done..|]. by left.
  - intros p c Ec Hnet. split; [by apply (Hnone id_name Hr p)|done].
Qed.
End operations.

(** ** Who is in what: the abstract view *)
Section roster.
Context `{SYS : Sys} `{RB : !RbSpec} `{HK : !HooksOk}.

(** The pairs of a channel and a user in it, and what the commands mean for them. *)
Definition roster (w : world) : gset (ptr * ptr) :=
  map_to_set (fun _ mb => (mb_chptr mb, mb_client_p mb)) (members w).

Definition spec_join (p u : ptr) (r : gset (ptr * ptr)) : gset (ptr * ptr) := {[(p, u)]} ∪ r.
Definition spec_part (p u : ptr) (r : gset (ptr * ptr)) : gset (ptr * ptr) := r ∖ {[(p, u)]}.
Definition spec_part_all (u : ptr) (r : gset (ptr * ptr)) : gset (ptr * ptr) := filter (fun pu => pu.2 ≠ u) r.

Lemma elem_of_roster w p u :
  (p, u) ∈ roster w ↔ ∃ m mb, members w !! m = Some mb ∧ mb_chptr mb = p ∧ mb_client_p mb = u.
Proof.
  unfold roster. rewrite elem_of_map_to_set. split.
  - intros (m & mb & E & [= <- <-]). by exists m, mb.
  - intros (m & mb & E & <- & <-). by exists m, mb.
Qed.

Lemma roster_same w w' : members w' = members w → roster w' = roster w.
Proof. unfold roster. by intros ->. Qed.

Lemma roster_delete w w' m mb :
  membs_ok w → members w !! m = Some mb → members w' = delete m (members w) →
  roster w' = spec_part (mb_chptr mb) (mb_client_p mb) (roster w).
Proof.
  intros Hw Em E. apply set_eq. intros [p u]. unfold spec_part. rewrite elem_of_difference, elem_of_singleton, !elem_of_roster, E.
  split.
  - intros (x & xb & [Hx Ex]%lookup_delete_Some & Hp & Hu). split; [by exists x, xb|].
    intros [= -> ->]. by apply Hx, (memb_unique _ Hw m x mb xb).
  - intros [(x & xb & Ex & Hp & Hu) Hne]. exists x, xb. split; [|done]. apply lookup_delete_Some. split; [|done].
    intros <-. simplify_eq.
Qed.

Lemma roster_without w w' u : without u w w' → roster w' = spec_part_all u (roster w).
Proof.
  intros Hw. apply set_eq. intros [p v]. unfold spec_part_all. rewrite elem_of_filter, !elem_of_roster. simpl. split.
  - intros (m & mb & [E Hne]%Hw & <- & <-). split; [done|]. by exists m, mb.
  - intros (Hne & m & mb & E & <- & <-). exists m, mb. split; [by apply Hw|done].
Qed.

Lemma leave_members w m mb w' :
  same_net (after_leave (mb_chptr mb) (remove_member m mb w)) w' → members w' = delete m (members w).
Proof.
  intros Hs. rewrite (sn_members _ _ Hs). unfold after_leave. destruct (channels _ !! _); [|done]. by destruct (channel_empty _).
Qed.

(** C16.  [del_chmember()] does what the abstract view says: exactly one membership
    goes, the pair leaves the roster, no other channel changes, and the channel
    itself is freed exactly if no other member and no service is left in it. *)
Theorem del_chmember_exact (w : world) (m : ptr) (mb : chmember) (ch : channel) :
  net_inv w → members w !! m = Some mb → channels w !! mb_chptr mb = Some ch →
  wp (del_chmember m) (fun _ w' =>
    net_inv w' ∧ members w' = delete m (members w) ∧
    roster w' = spec_part (mb_chptr mb) (mb_client_p mb) (roster w) ∧
    (∀ q, q ≠ mb_chptr mb → channels w' !! q = channels w !! q) ∧
    (channels w' !! mb_chptr mb = None ↔ ch_users ch = [m] ∧ ch_services ch = [])) w.
Proof.
  intros Hw Em Ech. pose proof (inv_membs _ (ni_chan _ Hw)) as Hm.
  eapply wp_leave; [done..|]. intros w' Hw' _ Hs. pose proof (leave_members _ _ _ _ Hs) as Emem.
  split; [done|]. split; [done|]. split; [by eapply roster_delete|].
  destruct (memb_users _ Hm _ ch Ech) as [Hnd Hl].
  assert (m ∈ ch_users ch) as Hin by (apply Hl; by exists mb).
  assert (channels (remove_member m mb w) !! mb_chptr mb = Some (leave m (is_opped mb) ch)) as El.
  { simpl. apply lookup_alter_iff. exists ch. by rewrite decide_True. }
  assert (channel_empty (leave m (is_opped mb) ch) = true ↔ ch_users ch = [m] ∧ ch_services ch = []) as Hempty.
  { unfold channel_empty. rewrite andb_true_iff.
    assert (ch_users (leave m (is_opped mb) ch) = rb_dlinkDelete m (ch_users ch) ∧
            ch_services (leave m (is_opped mb) ch) = ch_services ch) as [-> ->] by (by destruct (is_opped mb)).
    rewrite rb_dlinkDelete_spec by done.
    assert (is_nil (remove_first m (ch_users ch)) = true ↔ ch_users ch = [m]) as ->.
    { destruct (ch_users ch) as [|x l]; [by apply elem_of_nil in Hin|]. cbn [remove_first]. case_decide as Ex.
      - subst x. destruct l; simpl; split; by intros E.
      - split; [done|]. intros [= -> ->]. done. }
    assert (is_nil (ch_services ch) = true ↔ ch_services ch = []) as Hnil by (by destruct (ch_services ch)).
    tauto. }
  split.
  - intros q Hq. rewrite (sn_channels _ _ Hs). unfold after_leave. rewrite El.
    destruct (channel_empty _); simpl; [rewrite lookup_delete_ne by done|]; by rewrite lookup_alter_ne.
  - rewrite <- Hempty, (sn_channels _ _ Hs). unfold after_leave. rewrite El.
    destruct (channel_empty _); simpl.
    + rewrite lookup_delete_eq. done.
    + rewrite lookup_alter_eq, Ech. done.
Qed.
End roster.

Section commands.
Context `{SYS : Sys} `{RB : !RbSpec} `{HK : !HooksOk}.

Lemma found_is w name p ch r :
  net_inv w → no_nul name = true → channels w !! p = Some ch → irccmp (ch_name ch) name = 0 →
  find_channel_spec name w r → r = Some p.
Proof.
  intros Hw Hn Ech Hc Hr. pose proof (inv_chans _ (ni_chan _ Hw)) as Hch. destruct r as [q|].
  - destruct Hr as (ch' & Eq & Hq). f_equal. apply (chan_unique w Hch q p ch' ch Eq Ech).
    pose proof (chan_name w Hch q ch' Eq). pose proof (chan_name w Hch p ch Ech).
    apply irccmp_lower in Hq, Hc; [|done..]. apply irccmp_lower; [done..|]. congruence.
  - by destruct (Hr p ch Ech).
Qed.

Lemma part_from_roster w p ch u c us :
  good w → channels w !! p = Some ch → clients w !! u = Some c → cl_user c = Some us →
  wp (m ← find_chmember p u; match m with None => mret tt | Some mptr => del_chmember mptr end)
    (fun _ w' => good w' ∧ roster w' = spec_part p u (roster w)) w.
Proof.
  intros Hw Ech Ec Eu. apply wp_bind. apply wp_member_lookup; [apply Hw|by exists ch|by exists c, us|].
  intros [m|] Hm.
  - destruct Hm as (mb & Em & Hp & Hu). destruct Hw as [Hw Hi]. eapply wp_leave; [done..|]. intros w' Hw' Hr Hs.
    split; [split; [done|by eapply idle_rest]|]. rewrite <- Hp, <- Hu.
    eapply roster_delete; [apply Hw|done|]. by eapply leave_members.
  - apply wp_ret. split; [done|]. symmetry. apply set_eq. intros [x v]. unfold spec_part.
    rewrite elem_of_difference, elem_of_singleton. split; [tauto|]. intros Hx. split; [done|]. intros [= -> ->].
    apply elem_of_roster in Hx as (m & mb & Em & <- & <-). by apply (Hm m); exists mb.
Qed.

(** C10.  The commands by which a user leaves refine the abstract view.  PART of a
    channel takes exactly that pair out of the roster (and nothing if the user was
    not there); JOIN 0 takes out the user's pairs, and no others; and QUIT does too,
    after which the user is not on the network either. *)
Theorem leaving_refines (w : world) (u : ptr) (c : client) (us : user) :
  good w → clients w !! u = Some c → cl_user c = Some us → on_net c = true →
  (∀ name p ch, name ≠ ""%string → no_nul name = true →
     channels w !! p = Some ch → irccmp (ch_name ch) name = 0 →
     wp (c_part u [name]) (fun _ w' => good w' ∧ roster w' = spec_part p u (roster w)) w) ∧
  wp (c_join u ["0"%string]) (fun _ w' => good w' ∧ roster w' = spec_part_all u (roster w)) w ∧
  wp (c_quit u []) (fun _ w' => good w' ∧ roster w' = spec_part_all u (roster w) ∧ ¬ live w' u) w.
Proof.
  intros Hw Ec Eu Hn. pose proof (user_kind w u c us (proj1 Hw) Ec Eu) as Hk. split; [|split].
  - intros name p ch Hne Hnul Ech Hc. unfold c_part. cbn [length Nat.ltb Nat.leb].
    apply wp_bind, wp_argv; [simpl; lia|]. change ([name] !! 0%nat) with (Some name).
    assert (is_empty (Some name) = false) as ->.
    { destruct (is_empty (Some name)) eqn:E; [|done]. by apply is_empty_Some in E. }
    apply wp_bind. unfold IsUser. apply wp_bind. eapply wp_rd; [exact Ec|]. apply wp_ret. rewrite Eu. simpl.
    apply wp_bind, wp_ret. apply wp_bind, wp_named_channel; [done..|]. intros r Hr.
    rewrite (found_is w name p ch r (proj1 Hw) Hnul Ech Hc Hr). by eapply part_from_roster.
  - unfold c_join. apply wp_bind, wp_argv; [simpl; lia|]. simpl.
    apply wp_bind. unfold IsUser. apply wp_bind. eapply wp_rd; [exact Ec|]. apply wp_ret. rewrite Eu. simpl.
    apply wp_bind, wp_ret. eapply wp_part_all; [apply Hw|done..|]. intros w' Hw' Hr _ Hwo.
    split; [split; [done|by eapply idle_rest; [|apply Hw]]|]. by apply roster_without.
  - unfold c_quit. apply wp_bind. unfold IsUser. apply wp_bind. eapply wp_rd; [exact Ec|]. apply wp_ret. rewrite Eu. simpl.
    eapply (good_exit w u (ident_of c)); [done|by apply ids_of|done|by left|]. intros w' Hw' Hd.
    destruct (dp_user _ _ _ _ _ Hd Hk) as [_ Hwo]. split; [done|]. split; [by apply roster_without|].
    by eapply dp_gone.
Qed.

(** C17.  [add_chmember()] for a user that is not in the channel yet: one new
    membership, with the flags asked for, and the pair joins the roster. *)
Theorem add_chmember_exact (w : world) (p u : ptr) (ch : channel) (c : client) (us : user) (flags : Z) :
  good w → channels w !! p = Some ch → clients w !! u = Some c → cl_user c = Some us → on_net c = true →
  (p, u) ∉ roster w →
  wp (add_chmember p u flags) (fun m w' =>
    good w' ∧ members w !! m = None ∧ members w' = <[m := Chmember p u (uint32 flags)]> (members w) ∧
    roster w' = spec_join p u (roster w)) w.
Proof.
  intros [Hw Hi] Ech Ec Eu Hn Hnew.
  apply wp_enter; [done|by exists ch|by eapply (user_filed w u (ident_of c) c us); [done|apply ids_of|..]| |].
  { intros m (mb & Em & Hp & Hu). apply Hnew, elem_of_roster. by exists m, mb. }
  intros m w' Hc Hr Hm _ Hs. assert (members w' = <[m := Chmember p u (uint32 flags)]> (members w)) as E.
  { by rewrite (sn_members _ _ Hs). }
  split; [split; [apply Hc|by eapply idle_rest]|]. split; [done|]. split; [done|].
  apply set_eq. intros [x v]. unfold spec_join. rewrite elem_of_union, elem_of_singleton, !elem_of_roster, E. split.
  - intros (y & yb & [[<- <-]|[Hy Ey]]%lookup_insert_Some & <- & <-); [by left|right; by exists y, yb].
  - intros [[= -> ->]|(y & yb & Ey & <- & <-)].
    + eexists m, _. by rewrite lookup_insert_eq.
    + exists y, yb. rewrite lookup_insert_ne by congruence. done.
Qed.
End commands.

(** One step of a run, and the reduction of what follows it. *)
Ltac run_step tac := erewrite bind_ok by tac; cbn beta iota match.

Section more.
Context `{SYS : Sys} `{RB : !RbSpec} `{HK : !HooksOk}.

(** [q] is behind [p], at any distance. *)
Definition uplinked (w : world) (q p : ptr) : Prop :=
  ∃ i, ids w !! q = Some i ∧ id_net i = true ∧ id_uplink i = Some p.
Definition subtree (w : world) (q p : ptr) : Prop := tc (uplinked w) q p.

(** C2.  [exit_client()] ends: the depth of the tree of servers bounds the recursion,
    and every loop over the users and servers behind a server drains its list
    without touching the node it goes on to.  Afterwards the network is sound
    again, and the client and everything that was behind it, at any distance, are
    off it. *)
Theorem exit_client_ends (w : world) (p : ptr) (c : client) (split : bool) :
  good w → clients w !! p = Some c → on_net c = true → kind_of c = KUser ∨ kind_of c = KServer →
  wp (exit_client p split) (fun _ w' =>
    good w' ∧ ¬ live w' p ∧ ∀ q, subtree w q p → ¬ live w' q) w.
Proof.
  intros Hw Ec Hn Hk. eapply (good_exit w p (ident_of c)); [done|by apply ids_of|done..|].
  intros w' Hw' Hd. assert (¬ live w' p) as Hp by (by eapply dp_gone). split; [done|]. split; [done|].
  assert (∀ a b, uplinked w a b → ¬ live w' b → ¬ live w' a) as Hstep.
  { intros a b (i & Ei & Hi & Hup) Hb (j & Ej & Hj). destruct (dp_old _ _ _ _ _ Hd a j Ej) as (i' & Ei' & _ & Eu & _).
    simplify_eq. destruct (tree_uplink _ (ni_tree _ (proj1 Hw')) a j b Ej Hj) as (jb & Eb & _ & Hnb); [congruence|].
    apply Hb. by exists jb. }
  intros q Hq. induction Hq as [a b Hab|a b d Hab Hbd IH]; [by eapply Hstep|].
  eapply Hstep; [exact Hab|]. by apply IH.
Qed.

Lemma named_run w p ch name :
  net_inv w → no_nul name = true → channels w !! p = Some ch → irccmp (ch_name ch) name = 0 →
  find_channel name w = Ok (Some p) w.
Proof.
  intros Hw Hn Ech Hc. destruct (find_channel_ok w name (inv_chans _ (ni_chan _ Hw)) Hn) as (r & E & Hr).
  by rewrite (found_is w name p ch r Hw Hn Ech Hc Hr) in E.
Qed.

(** TMODE and BMASK from the losing side of a desynchronised channel are
    ignored: with a timestamp above the channel's the whole state stays as it was. *)
Theorem newer_ts_ignored (w : world) (client_p p : ptr) (ch : channel) (ts name x : string) (rest : list string) :
  net_inv w → no_nul name = true → channels w !! p = Some ch → irccmp (ch_name ch) name = 0 →
  ch_tsinfo ch < atol ts →
  (x ≠ ""%string → no_nul x = true → c_tmode client_p (ts :: name :: x :: rest) w = Ok tt w) ∧
  c_bmask client_p (ts :: name :: rest) w = Ok tt w.
Proof.
  intros Hw Hn Ech Hc Hts. pose proof (named_run w p ch name Hw Hn Ech Hc) as Hf.
  assert (rd channels p w = Ok ch w) as Hrd by (unfold rd; erewrite bind_ok by done; by rewrite Ech).
  assert ((ch_tsinfo ch <? atol ts) = true) as Hlt by (by apply Z.ltb_lt). split.
  - intros Hx Hxn. unfold c_tmode. cbn [length Nat.ltb Nat.leb].
    run_step ltac:(done). change ((ts :: name :: x :: rest) !! 2%nat) with (Some x).
    assert (is_empty (Some x) = false) as ->.
    { destruct (is_empty (Some x)) eqn:E; [|done]. by apply is_empty_Some in E. }
    run_step ltac:(done). run_step ltac:(exact Hf). run_step ltac:(done).
    run_step ltac:(exact Hrd). by rewrite Hlt.
  - unfold c_bmask. run_step ltac:(done). run_step ltac:(exact Hf). run_step ltac:(done).
    run_step ltac:(exact Hrd). by rewrite Hlt.
Qed.

(** C37.  A defect: the handler of BMASK does not look at the number of its arguments.
    A BMASK for an existing channel, with a timestamp that is not too new and one of
    the lists, but without masks, makes it read the null pointer that ends the
    arguments. *)
Theorem bmask_short_faults (w : world) (client_p p : ptr) (ch : channel) (ts name kind : string) edit :
  net_inv w → no_nul name = true → channels w !! p = Some ch → irccmp (ch_name ch) name = 0 →
  atol ts <= ch_tsinfo ch → bmask_list (deref kind) = Some edit →
  c_bmask client_p [ts; name; kind] w = Fault NullDeref.
Proof.
  intros Hw Hn Ech Hc Hts Hk. pose proof (named_run w p ch name Hw Hn Ech Hc) as Hf.
  assert (rd channels p w = Ok ch w) as Hrd by (unfold rd; erewrite bind_ok by done; by rewrite Ech).
  unfold c_bmask. run_step ltac:(done). run_step ltac:(exact Hf). run_step ltac:(done).
  run_step ltac:(exact Hrd). rewrite (proj2 (Z.ltb_ge _ _)) by done.
  run_step ltac:(done). rewrite Hk. done.
Qed.

(** TB, the burst of a topic: a channel that has a topic keeps it unless the
    burst's is as old or older; otherwise the burst's topic and author are taken, cut to their
    buffers, and the time of the topic becomes the present - not the time in the
    line. *)
Theorem topic_burst_rule (w : world) (s p : ptr) (ch : channel) (c : client) (sv : server) (name ts who topic : string) :
  good w → no_nul name = true → channels w !! p = Some ch → irccmp (ch_name ch) name = 0 →
  clients w !! s = Some c → cl_server c = Some sv → topic ≠ ""%string → no_nul topic = true →
  (ch_topic ch ≠ ""%string → no_nul (ch_topic ch) = true → ch_topic_tsinfo ch < atol ts →
     c_tb s [name; ts; who; topic] w = Ok tt w) ∧
  (ch_topic ch = ""%string ∨ atol ts <= ch_topic_tsinfo ch →
     bucket (hooks w) HOOK_CHANNEL_TOPIC = [] →
     c_tb s [name; ts; who; topic] w = Ok tt (w <| channels ::= alter (fun ch =>
       ch <| ch_topic := rb_strlcpy (TOPICLEN + 1) topic |>
          <| ch_topicwho := rb_strlcpy (NICKUSERHOSTLEN + 1) who |> <| ch_topic_tsinfo := rb_time w |>) p |>)).
Proof.
  intros [Hw _] Hn Ech Hc Ec Es Ht Htn. pose proof (named_run w p ch name Hw Hn Ech Hc) as Hf.
  assert (rd channels p w = Ok ch w) as Hrd by (unfold rd; erewrite bind_ok by done; by rewrite Ech).
  assert (IsServer s w = Ok true w) as Hs.
  { unfold IsServer, rd. erewrite bind_ok; [|erewrite bind_ok by done; by rewrite Ec]. by rewrite Es. }
  assert (is_empty (Some topic) = false) as Hte.
  { destruct (is_empty (Some topic)) eqn:E; [|done]. by apply is_empty_Some in E. }
  unfold c_tb. cbn [length Nat.ltb Nat.leb]. split.
  - intros Htop Htopn Hts. run_step ltac:(exact Hs). cbn [negb]. run_step ltac:(done). run_step ltac:(exact Hf).
    run_step ltac:(done). cbv zeta. run_step ltac:(exact Hrd).
    assert (is_empty (Some (ch_topic ch)) = false) as ->.
    { destruct (is_empty (Some (ch_topic ch))) eqn:E; [|done]. by apply is_empty_Some in E. }
    by rewrite (proj2 (Z.ltb_lt _ _)).
  - intros Hor Hh. run_step ltac:(exact Hs). cbn [negb]. run_step ltac:(done). run_step ltac:(exact Hf).
    run_step ltac:(done). cbv zeta. run_step ltac:(exact Hrd).
    assert (negb (is_empty (Some (ch_topic ch))) && (ch_topic_tsinfo ch <? atol ts) = false) as ->.
    { destruct Hor as [->|Hor]; [done|]. rewrite (proj2 (Z.ltb_ge _ _)) by done. by rewrite andb_false_r. }
    cbn [Nat.eqb]. run_step ltac:(done). change ([name; ts; who; topic] !! 3%nat) with (Some topic). rewrite Hte.
    run_step ltac:(done). run_step ltac:(done). unfold set_topic. run_step ltac:(done).
    erewrite bind_ok; [|unfold upd_channel; erewrite bind_ok by exact Hrd; done].
    unfold hook. erewrite bind_ok; [done|]. unfold hook_call.
    change (HOOK_LAST_HOOK <=? HOOK_CHANNEL_TOPIC) with false. cbn iota. run_step ltac:(done). simpl. rewrite Hh. done.
Qed.

Lemma join_lower_run w p ch name ts both :
  net_inv w → no_nul name = true → channels w !! p = Some ch → irccmp (ch_name ch) name = 0 →
  0 < atol ts < ch_tsinfo ch → join_channel name ts both w = Ok (p, atol ts, false, true) w.
Proof.
  intros Hw Hn Ech Hc Hts. unfold join_channel. rewrite (bind_ok _ _ _ _ _ (named_run w p ch name Hw Hn Ech Hc)).
  assert (rd channels p w = Ok ch w) as Hrd by (unfold rd; erewrite bind_ok by done; by rewrite Ech).
  run_step ltac:(exact Hrd). cbv zeta. rewrite !(proj2 (Z.eqb_neq _ _)) by lia. cbn [orb].
  by rewrite (proj2 (Z.ltb_lt _ _)) by lia.
Qed.

Lemma no_hook h a l w : bucket (hooks w) h = [] → hook_call h a l w = Ok (0, l) w.
Proof. intros Hb. unfold hook_call. destruct (_ <=? h); [done|]. run_step ltac:(done). by rewrite Hb. Qed.

(** The nick list, when no service listens. *)
Lemma sjoin_members_steady w p nicks keep :
  good w → is_Some (channels w !! p) → (∀ x, nicks = Some x → no_nul x = true) →
  (∃ m, member_with w (in_channel p) m) →
  bucket (hooks w) HOOK_CHANNEL_SJOIN_LOWERTS = [] → bucket (hooks w) HOOK_CHANNEL_JOIN = [] →
  wp (sjoin_members p nicks false keep) (fun _ w' => good w' ∧ steady p w w') w.
Proof.
  intros [Hn Hi] Hch Hs (m & mb & Em & Hmb) Hb1 Hb2. unfold sjoin_members. cbn [negb when]. unfold hook.
  apply wp_bind, wp_bind. apply (wp_ok _ _ _ _ _ (no_hook _ _ _ _ Hb1)), wp_ret.
  destruct (is_empty nicks) eqn:Ee; [apply wp_ret; split; [done|apply steady_refl]|].
  apply is_empty_false in Ee as [x ->]. apply wp_bind. eapply wp_need; [done|]. apply wp_bind.
  apply wp_sjoin_loop; [done..|constructor|done|simpl; lia|]. intros l w1 C1 R1 _ S1.
  destruct (calm_channels _ _ C1 p Hch) as [ch Ech]. apply wp_bind. eapply wp_rd; [exact Ech|].
  assert (m ∈ ch_users ch) as Hin.
  { apply (memb_users w1 (inv_membs _ (ni_chan _ (calm_inv _ _ C1))) p ch Ech). exists mb. split; [by apply S1|done]. }
  assert (channel_empty ch = false) as -> by (unfold channel_empty; by destruct (ch_users ch); [apply elem_of_nil in Hin|]).
  apply wp_bind. rewrite <- (calm_hooks _ _ C1) in Hb2. apply (wp_ok _ _ _ _ _ (no_hook _ _ _ _ Hb2)), wp_ret.
  split; [|done]. split; [apply C1|by eapply idle_rest].
Qed.

Lemma lasting_rd {T} (heap : world → gmap ptr T) p : lasting (rd heap p).
Proof. unfold rd. lasting_tac. Qed.
#[local] Hint Resolve lasting_rd : lasting.
Lemma lasting_upd_channel p f : lasting (upd_channel p f).
Proof. unfold upd_channel. lasting_tac. Qed.
Lemma lasting_sendto_server line : lasting (sendto_server line).
Proof. unfold sendto_server. lasting_tac. Qed.
#[local] Hint Resolve lasting_upd_channel lasting_sendto_server : lasting.
Lemma lasting_drop_bans l mode p f : lasting (drop_bans l mode false (upd_channel p f)).
Proof. induction l as [|b l IH]; cbn [drop_bans when]; lasting_tac. Qed.
#[local] Hint Resolve lasting_drop_bans : lasting.

(** The process goes on when a channel is taken over. *)
Lemma lasting_lower_ts p ts drop : lasting (lower_ts p ts drop).
Proof.
  unfold lower_ts, remove_our_simple_modes, remove_our_ov_modes, remove_our_bans, rejoin_service, send_sjoin, upd_mode, upd_member.
  change (bool_decide (is_Some None)) with false. lasting_tac.
Qed.

(** What an SJOIN with a lower timestamp does before the nick list. *)
Lemma takeover w s p ts drop newmode :
  good w → is_Some (channels w !! p) → is_Some (clients w !! s) →
  ∃ w1, good w1 ∧ hooks w1 = hooks w ∧ is_Some (channels w1 !! p) ∧ lowered p ts (merge_mode newmode zero_chmode) w w1 ∧
    (_ ← (c ← rd clients s; lower_ts p ts (drop c)); upd_mode p (merge_mode newmode)) w = Ok tt w1.
Proof.
  intros Hw Hp [c Ec]. set (m := _ ← (c ← rd clients s; lower_ts p ts (drop c)); upd_mode p (merge_mode newmode)).
  assert (lasting m) as Hm.
  { subst m. pose proof (lasting_lower_ts p ts). unfold upd_mode. lasting_tac. }
  destruct (wp_returns m (fun _ w1 => good w1 ∧ hooks w1 = hooks w ∧ is_Some (channels w1 !! p) ∧
    lowered p ts (merge_mode newmode zero_chmode) w w1) w Hm) as ([] & w1 & E & Hg & Hh & Hp1 & HL); [|by exists w1].
  subst m. apply wp_bind, wp_bind. eapply wp_rd; [exact Ec|]. apply wp_lower_ts; [apply Hw|done|]. intros w1 C1 R1 L1.
  apply wp_upd_mode; [apply C1|by apply (calm_channels _ _ C1)|]. intros w2 C2 R2.
  pose proof (calm_trans _ _ _ C1 C2) as C. split; [split; [apply C|eapply idle_rest; [|apply Hw]; by eapply same_rest_trans]|].
  split; [apply C|]. split; [by apply (calm_channels _ _ C)|]. subst w2. by apply lowered_mode.
Qed.

(** C15.  The timestamp rule of SJOIN: a lower timestamp takes the channel over.  When
    the services that listen are told (at the start of [sjoin_members()]), and whatever
    they do then, every member that the channel had is still one, but without any
    status; the channel has the time of the line and the modes of the line alone; no
    other channel and no membership of another channel has changed; and what is left to
    do is to tell the services and to add the users of the line.  Where no service
    listens and somebody is in the channel, all this holds at the end too, and only
    memberships of this channel are new. *)
Theorem sjoin_lower_ts (w : world) (s p : ptr) (ch : channel) (ts name modes x : string) (rest : list string)
    (args : nat) (newmode : chmode) :
  let parv := ts :: name :: modes :: x :: rest in
  let mode := merge_mode newmode zero_chmode in
  good w → parv_ok parv → is_Some (clients w !! s) → valid_chname name = true →
  channels w !! p = Some ch → irccmp (ch_name ch) name = 0 → 0 < atol ts < ch_tsinfo ch →
  x ≠ ""%string → strcmp modes "0" ≠ 0 →
  parse_simple_mode zero_chmode parv 2 true w = Ok (args, newmode) w → args ≠ 0%nat →
  (∃ w1, good w1 ∧ lowered p (atol ts) mode w w1 ∧ c_sjoin s parv w = sjoin_members p (parv !! args) false true w1) ∧
  ((∃ m, member_with w (in_channel p) m) →
   bucket (hooks w) HOOK_CHANNEL_SJOIN_LOWERTS = [] → bucket (hooks w) HOOK_CHANNEL_JOIN = [] →
   wp (c_sjoin s parv) (fun _ w' => good w' ∧ lowered p (atol ts) mode w w') w).
Proof.
  intros parv mode Hw Hp Hs Hv Ech Hc Hts Hx Hm0 Hparse Ha. pose proof (proj1 Hw) as Hn.
  assert (no_nul name = true) as Hname by (by apply (parv_lookup parv 1)).
  assert (no_nul x = true) as Hxn by (by apply (parv_lookup parv 3)).
  assert (args ≤ length parv)%nat as Hle.
  { destruct (parse_simple_mode_post zero_chmode parv 2 true w) as ([a md] & E & Hr & _); [simpl; lia|simpl; unfold KEYLEN; lia|].
    rewrite Hparse in E. injection E as <- <-. simpl in Hr. simpl. lia. }
  assert (is_empty (Some x) = false) as Hxe.
  { destruct (is_empty (Some x)) eqn:E; [|done]. by apply is_empty_Some in E. }
  destruct (takeover w s p (atol ts) (fun c => negb (is_empty (Some (cl_uid c)))) newmode) as (w1 & Hg & Hh & Hp1 & HL & E); [done|by eexists|done|].
  assert (c_sjoin s parv w = sjoin_members p (parv !! args) false true w1) as Erun.
  { unfold c_sjoin. cbn [length Nat.ltb Nat.leb parv]. run_step ltac:(done). change (parv !! 3%nat) with (Some x). rewrite Hxe.
    run_step ltac:(done). rewrite Hv. cbn [negb]. run_step ltac:(done).
    run_step ltac:(by apply (join_lower_run w p ch name ts true)). run_step ltac:(done).
    rewrite (proj2 (Z.eqb_neq _ _)) by done. cbn [negb]. run_step ltac:(exact Hparse).
    rewrite (proj2 (Nat.eqb_neq _ _)) by done. cbn [negb when s_assert]. run_step ltac:(done).
    unfold mbind, M_bind in E |- *. destruct (rd clients s w) as [c w2|?|?]; [|done..].
    destruct (lower_ts _ _ _ w2) as [? w3|?|?]; [|done..]. rewrite E. by rewrite argv_ok. }
  split; [by exists w1|]. intros (m & mb & Em & Hmb) Hb1 Hb2. apply (wp_run _ _ _ _ _ Erun).
  eapply wp_conseq.
  - apply sjoin_members_steady; [done|done| | |by rewrite Hh..].
    + intros y Ey. by eapply parv_lookup.
    + exists m. eexists. split; [by apply (lowered_members _ _ _ _ _ HL m mb)|]. by case_decide.
  - cbn beta. intros _ w2 [G2 S2]. split; [done|]. by eapply lowered_steady.
Qed.
End more.

(** ** At the sample *)
Lemma sample_net : net_inv sample.
Proof. apply sample_good. Qed.


Lemma find_channel_correct_witness :
  no_nul "#LOUNGE" = true ∧ ∃ r, find_channel "#LOUNGE" sample = Ok r sample ∧ r = Some 1%positive.
Proof.
  split; [reflexivity|]. destruct (find_channel_correct sample "#LOUNGE" sample_net eq_refl) as (r & E & _).
  exists r. split; [exact E|].
  assert (match find_channel "#LOUNGE" sample with Ok r _ => r | _ => None end = Some 1%positive) as Hr by (vm_compute; reflexivity).
  by rewrite E in Hr.
Defined.

Lemma find_client_correct_witness :
  no_nul "ALICE" = true ∧ ∃ r, find_client "ALICE" sample = Ok r sample ∧ r = Some 3%positive.
Proof.
  split; [reflexivity|]. destruct (find_client_correct sample "ALICE" sample_net eq_refl) as (r & E & _).
  exists r. split; [exact E|].
  assert (match find_client "ALICE" sample with Ok r _ => r | _ => None end = Some 3%positive) as Hr by (vm_compute; reflexivity).
  by rewrite E in Hr.
Defined.

Lemma del_chmember_exact_witness :
  ∃ mb ch, members sample !! 2%positive = Some mb ∧ channels sample !! mb_chptr mb = Some ch ∧
    wp (del_chmember 2) (fun _ w' => roster w' = spec_part 1 4 (roster sample) ∧ is_Some (channels w' !! 1%positive)) sample.
Proof.
  destruct (channels sample !! 1%positive) as [ch|] eqn:Ech; [|vm_compute in Ech; discriminate].
  exists (Chmember 1 4 0), ch. split; [vm_compute; reflexivity|]. split; [exact Ech|].
  eapply wp_conseq; [eapply (del_chmember_exact sample 2 (Chmember 1 4 0) ch sample_net); [vm_compute; reflexivity|exact Ech]|].
  intros _ w' (_ & _ & Hr & _ & Hfree). split; [exact Hr|]. simpl in Hfree.
  destruct (channels w' !! 1%positive) eqn:E'; [by eexists|]. destruct Hfree as [Hfree _]. destruct (Hfree E') as [Hu _].
  assert (length (default [] (ch_users <$> channels sample !! 1%positive)) = 2%nat) as Hn by (vm_compute; reflexivity).
  rewrite Ech in Hn. simpl in Hn. by rewrite Hu in Hn.
Defined.

Lemma leaving_refines_witness :
  good sample ∧ ∃ w', c_quit 3 [] sample = Ok tt w' ∧ roster w' = spec_part_all 3 (roster sample) ∧ ¬ live w' 3.
Proof.
  split; [exact sample_good|]. destruct (clients sample !! 3%positive) as [c|] eqn:Ec; [|vm_compute in Ec; discriminate].
  destruct (cl_user c) as [us|] eqn:Eu; [|injection Ec as <-; vm_compute in Eu; discriminate].
  assert (on_net c = true) as Hn by (injection Ec as <-; reflexivity).
  destruct (leaving_refines sample 3 c us sample_good Ec Eu Hn) as (_ & _ & Hq).
  destruct (c_quit 3 [] sample) as [[] w'|?|?] eqn:E; [|vm_compute in E; discriminate..].
  exists w'. split; [reflexivity|]. apply (wp_elim _ _ _ tt _ Hq E).
Defined.

Lemma add_chmember_exact_witness :
  let w := users_world in ∃ ch, channels (insert_channel 1 lounge w) !! 1%positive = Some ch ∧
  ∃ m w', add_chmember 1 3 0 (insert_channel 1 lounge w) = Ok m w' ∧ roster w' = spec_join 1 3 (roster (insert_channel 1 lounge w)).
Proof.
  intros w. set (w1 := insert_channel 1 lounge w).
  destruct (channels w1 !! 1%positive) as [ch|] eqn:Ech; [|vm_compute in Ech; discriminate].
  destruct (clients w1 !! 3%positive) as [c|] eqn:Ec; [|vm_compute in Ec; discriminate].
  destruct (cl_user c) as [us|] eqn:Eu; [|injection Ec as <-; vm_compute in Eu; discriminate].
  exists ch. split; [reflexivity|].
  assert ((1%positive, 3%positive) ∉ roster w1) as Hnew by (vm_compute; intros H; inversion H).
  assert (on_net c = true) as Hn by (injection Ec as <-; reflexivity).
  pose proof (add_chmember_exact w1 1 3 ch c us 0 channel_good Ech Ec Eu Hn Hnew) as H.
  destruct (add_chmember 1 3 0 w1) as [m w'|?|?] eqn:E; [|vm_compute in E; discriminate..].
  exists m, w'. split; [reflexivity|]. apply (wp_elim _ _ _ m _ H E).
Defined.

Lemma exit_client_ends_witness :
  ∃ w', exit_client 2 true sample = Ok tt w' ∧ ¬ live w' 2 ∧ ¬ live w' 4.
Proof.
  destruct (clients sample !! 2%positive) as [c|] eqn:Ec; [|vm_compute in Ec; discriminate].
  assert (on_net c = true ∧ kind_of c = KServer) as [Hn Hk] by (injection Ec as <-; by split).
  pose proof (exit_client_ends sample 2 c true sample_good Ec Hn (or_intror Hk)) as H.
  destruct (exit_client 2 true sample) as [[] w'|?|?] eqn:E; [|vm_compute in E; discriminate..].
  exists w'. split; [reflexivity|]. destruct (wp_elim _ _ _ tt _ H E) as (_ & H2 & H4). split; [exact H2|].
  apply H4, tc_once. eexists. split; [vm_compute; reflexivity|]. by split.
Defined.

Lemma newer_ts_ignored_witness :
  atol "1000" = 1000 ∧ c_tmode 1 ["1000"; "#lounge"; "+m"]%string sample = Ok tt sample.
Proof.
  split; [reflexivity|]. destruct (channels sample !! 1%positive) as [ch|] eqn:Ech; [|vm_compute in Ech; discriminate].
  assert (irccmp (ch_name ch) "#lounge" = 0 ∧ ch_tsinfo ch < atol "1000") as [Hn Ht]
    by (injection Ech as <-; split; vm_compute; reflexivity).
  apply (newer_ts_ignored sample 1 1 ch "1000" "#lounge" "+m" [] sample_net eq_refl Ech Hn Ht); done.
Defined.

Lemma bmask_short_faults_witness : c_bmask 1 ["500"; "#lounge"; "b"]%string sample = Fault NullDeref.
Proof.
  destruct (channels sample !! 1%positive) as [ch|] eqn:Ech; [|vm_compute in Ech; discriminate].
  assert (irccmp (ch_name ch) "#lounge" = 0 ∧ atol "500" <= ch_tsinfo ch) as [Hn Ht]
    by (injection Ech as <-; split; vm_compute; [reflexivity|discriminate]).
  by eapply (bmask_short_faults sample 1 1 ch "500" "#lounge" "b" _ sample_net eq_refl Ech Hn Ht).
Defined.

Lemma topic_burst_rule_witness :
  ∃ w', c_tb 1 ["#lounge"; "900"; "alice"; "hello"]%string sample = Ok tt w' ∧
    (ch_topic <$> channels w' !! 1%positive) = Some "hello"%string.
Proof.
  destruct (channels sample !! 1%positive) as [ch|] eqn:Ech; [|vm_compute in Ech; discriminate].
  assert (irccmp (ch_name ch) "#lounge" = 0 ∧ ch_topic ch = ""%string) as [Hn Ht]
    by (injection Ech as <-; split; vm_compute; reflexivity).
  destruct (clients sample !! 1%positive) as [c|] eqn:Ec; [|vm_compute in Ec; discriminate].
  destruct (cl_server c) as [sv|] eqn:Es; [|injection Ec as <-; vm_compute in Es; discriminate].
  destruct (topic_burst_rule sample 1 1 ch c sv "#lounge" "900" "alice" "hello" sample_good eq_refl Ech Hn Ec Es) as [_ H];
    [discriminate|reflexivity|].
  eexists. split; [apply H; [by left|vm_compute; reflexivity]|]. vm_compute. reflexivity.
Defined.

Lemma sjoin_lower_ts_witness :
  (∃ w1, good w1 ∧ (mb_flags <$> members w1 !! 1%positive) = Some 0 ∧ (ch_tsinfo <$> channels w1 !! 1%positive) = Some 400 ∧
     c_sjoin 1 ["400"; "#lounge"; "+nt"; "@bob"]%string sample = sjoin_members 1 (Some "@bob"%string) false true w1) ∧
  wp (c_sjoin 1 ["400"; "#lounge"; "+nt"; "@bob"]%string) (fun _ w' =>
    (mb_flags <$> members w' !! 1%positive) = Some 0 ∧ (ch_tsinfo <$> channels w' !! 1%positive) = Some 400) sample.
Proof.
  destruct (channels sample !! 1%positive) as [ch|] eqn:Ech; [|vm_compute in Ech; discriminate].
  assert (irccmp (ch_name ch) "#lounge" = 0 ∧ ch_tsinfo ch = 500) as [Hn Ht]
    by (injection Ech as <-; split; vm_compute; reflexivity).
  destruct (parse_simple_mode_post zero_chmode ["400"; "#lounge"; "+nt"; "@bob"]%string 2 true sample)
    as ([args newmode] & Ep & _); [simpl; lia|simpl; unfold KEYLEN; lia|].
  assert (match parse_simple_mode zero_chmode ["400"; "#lounge"; "+nt"; "@bob"]%string 2 true sample with
          | Ok (a, _) _ => (a =? 3)%nat | _ => false end = true) as Ea by (vm_compute; reflexivity).
  rewrite Ep in Ea. apply Nat.eqb_eq in Ea as ->.
  assert (members sample !! 1%positive = Some (Chmember 1 3 MODE_OPPED)) as Em by (vm_compute; reflexivity).
  assert (∀ mode w', lowered 1 400 mode sample w' →
    (mb_flags <$> members w' !! 1%positive) = Some 0 ∧ (ch_tsinfo <$> channels w' !! 1%positive) = Some 400) as Hread.
  { intros mode w' [Hm _ _ (ch' & -> & Hts & _)]. split; [|simpl; by rewrite Hts]. by rewrite (Hm _ _ Em). }
  destruct (sjoin_lower_ts sample 1 1 ch "400" "#lounge" "+nt" "@bob" [] 3 newmode) as [(w1 & Hg & HL & E) Hq].
  - exact sample_good.
  - repeat constructor.
  - vm_compute. by eexists.
  - vm_compute. reflexivity.
  - exact Ech.
  - exact Hn.
  - rewrite Ht. split; vm_compute; reflexivity.
  - discriminate.
  - vm_compute. discriminate.
  - exact Ep.
  - discriminate.
  - split.
    + exists w1. split; [exact Hg|]. destruct (Hread _ _ HL). by split_and!.
    + eapply wp_conseq; [apply Hq|]; [|reflexivity..|].
      * exists 1%positive, (Chmember 1 3 MODE_OPPED). split; vm_compute; reflexivity.
      * intros _ w' [_ HL']. exact (Hread _ _ HL').
Defined.
