(* ===== verification/Access.v ===== *)
(** * Who gets at the commands of a service

    The tables of commands are searched correctly once they are sorted; a command
    runs only for a user whom its table admits; a flooder is not heard; OLOGIN takes
    the right password of a block that is meant for the user, and OLOGOUT undoes it;
    a rehash leaves the blocks of the new configuration, and those in use. *)

From S2P Require Import Prelude CString Match Rblib Tools Fault World Lookup Channel Service Conf Client Dispatch Scommand Message Net Members Index Handlers Joins Modes Clients Exits Commands Replies Linkup Requests Rehash Sample.

(** ** The order of the names *)
Lemma strcasecmp_opp s : ∀ t, strcasecmp t s = - strcasecmp s t.
Proof.
  induction s as [|a s IH]; intros [|b t]; simpl; [done|lia..|].
  destruct (code (tolower a) - code (tolower b) =? 0) eqn:E, (code (tolower b) - code (tolower a) =? 0) eqn:E'; bool_simpl; [apply IH|lia..].
Qed.

Lemma strcasecmp_le_trans s : ∀ t u, no_nul s = true → no_nul t = true → no_nul u = true →
  strcasecmp s t <= 0 → strcasecmp t u <= 0 → strcasecmp s u <= 0.
Proof.
  induction s as [|a s IH]; intros t u Hs Ht Hu H1 H2.
  { destruct u as [|c u]; simpl; [lia|]. pose proof (code_range (tolower c)). lia. }
  simpl in Hs. bool_simpl. assert (0 < code (tolower a)) as Ha.
  { apply code_pos, Ascii.eqb_neq. by rewrite tolower_nul. }
  destruct t as [|b t]; [simpl in H1; lia|]. simpl in Ht. bool_simpl.
  assert (0 < code (tolower b)) as Hb by (apply code_pos, Ascii.eqb_neq; by rewrite tolower_nul).
  destruct u as [|c u]; [simpl in H2; lia|]. simpl in Hu. bool_simpl. cbn [strcasecmp] in *. cbv zeta in *.
  destruct (code (tolower a) - code (tolower b) =? 0) eqn:E1, (code (tolower b) - code (tolower c) =? 0) eqn:E2,
    (code (tolower a) - code (tolower c) =? 0) eqn:E3; bool_simpl; try lia. by apply (IH t).
Qed.

(** ** The search *)
Section search.

Definition named_ok (tbl : list service_command) : Prop := Forall (fun e => no_nul (scm_cmd e) = true) tbl.

Lemma sorted_strongly tbl : named_ok tbl → Sorted scmd_le tbl → StronglySorted scmd_le tbl.
Proof.
  intros Hn. induction 1 as [|e l Hs IH Hd]; [constructor|]. apply Forall_cons in Hn as [He Hl].
  specialize (IH Hl). constructor; [done|]. destruct Hd as [|e' l He']; [constructor|].
  constructor; [done|]. apply StronglySorted_inv in IH as [_ Hf]. rewrite Forall_forall in Hf. apply Forall_forall.
  intros x Hx. apply Forall_cons in Hl as [Hn' Hl]. rewrite Forall_forall in Hl.
  eapply (strcasecmp_le_trans _ (scm_cmd e')); [done..|by apply Hl|done|by apply Hf].
Qed.

#[local] Instance scmd_le_total : Total scmd_le.
Proof. intros a b. unfold scmd_le. rewrite (strcasecmp_opp (scm_cmd a) (scm_cmd b)). lia. Qed.

Lemma qsort_sorted tbl : named_ok tbl → StronglySorted scmd_le (qsort tbl).
Proof.
  intros Hn. apply sorted_strongly; [|apply (Sorted_merge_sort _ _)]. unfold named_ok, qsort.
  by rewrite (merge_sort_Permutation scmd_le tbl).
Qed.

Lemma qsort_perm tbl : qsort tbl ≡ₚ tbl.
Proof. apply merge_sort_Permutation. Qed.

(** What the search gives: an entry with the name, or none has it. *)
Definition search_spec (name : string) (tbl : list service_command) (r : option (nat * service_command)) : Prop :=
  match r with
  | Some (i, e) => tbl !! i = Some e ∧ strcasecmp name (scm_cmd e) = 0
  | None => ∀ e, e ∈ tbl → strcasecmp name (scm_cmd e) ≠ 0
  end.

Lemma bsearch_loop_ok name tbl fuel : no_nul name = true → named_ok tbl → StronglySorted scmd_le tbl → ∀ l u,
  (u - l < fuel)%nat → (u ≤ length tbl)%nat →
  (∀ j e, tbl !! j = Some e → (j < l)%nat → 0 < strcasecmp name (scm_cmd e)) →
  (∀ j e, tbl !! j = Some e → (u ≤ j)%nat → strcasecmp name (scm_cmd e) < 0) →
  search_spec name tbl (bsearch_loop fuel name tbl l u).
Proof.
  intros Hn Hnames Hs. assert (∀ j k e e', tbl !! j = Some e → tbl !! k = Some e' → (j ≤ k)%nat → scmd_le e e') as Hle.
  { intros j k e e' Ej Ek Hjk. destruct (decide (j = k)) as [->|Hne].
    - simplify_eq. unfold scmd_le. pose proof (strcasecmp_opp (scm_cmd e) (scm_cmd e)). lia.
    - clear - Hs Ej Ek Hjk Hne. revert j k Ej Ek Hjk Hne. induction Hs as [|x l Hs IH Hx]; intros [|j] [|k] Ej Ek Hjk Hne; try done; try lia.
      + injection Ej as ->. rewrite Forall_forall in Hx. by eapply Hx, list_elem_of_lookup_2.
      + apply (IH j k); [done..|lia|lia]. }
  unfold named_ok in Hnames. rewrite Forall_lookup in Hnames.
  induction fuel as [|fuel IH]; intros l u Hf Hu Hlow Hhigh; [lia|]. cbn [bsearch_loop].
  destruct (l <? u)%nat eqn:El.
  - apply Nat.ltb_lt in El. set (idx := ((l + u) / 2)%nat).
    assert (l ≤ idx < u)%nat as Hidx.
    { unfold idx. split; [apply Nat.div_le_lower_bound; lia|apply Nat.div_lt_upper_bound; lia]. }
    destruct (lookup_lt_is_Some_2 tbl idx) as [e Ee]; [lia|]. rewrite Ee. cbv zeta.
    destruct (strcasecmp name (scm_cmd e) <? 0) eqn:E1; [|destruct (0 <? strcasecmp name (scm_cmd e)) eqn:E2]; bool_simpl.
    + apply IH; [lia|lia|done|]. intros j e' Ej Hj.
      pose proof (Hle idx j e e' Ee Ej Hj) as Hee. unfold scmd_le in Hee.
      destruct (Z_lt_le_dec (strcasecmp name (scm_cmd e')) 0) as [?|Hge]; [done|]. exfalso.
      assert (strcasecmp (scm_cmd e) name <= 0); [|rewrite (strcasecmp_opp name (scm_cmd e)) in *; lia].
      apply (strcasecmp_le_trans _ (scm_cmd e')); [by apply (Hnames idx)|by apply (Hnames j)|done|done|].
      rewrite (strcasecmp_opp name). lia.
    + apply IH; [lia|lia| |done]. intros j e' Ej Hj.
      pose proof (Hle j idx e' e Ej Ee) as Hee. unfold scmd_le in Hee.
      destruct (Z_lt_le_dec 0 (strcasecmp name (scm_cmd e'))) as [?|Hge]; [done|]. exfalso.
      assert (strcasecmp name (scm_cmd e) <= 0); [|lia].
      apply (strcasecmp_le_trans _ (scm_cmd e')); [done|by apply (Hnames j)|by apply (Hnames idx)|done|apply Hee; lia].
    + split; [done|lia].
  - apply Nat.ltb_ge in El. intros e [j Ej]%list_elem_of_lookup_1.
    destruct (le_lt_dec u j) as [Hj|Hj]; [specialize (Hhigh j e Ej Hj); lia|].
    specialize (Hlow j e Ej). lia.
Qed.

Lemma bsearch_ok name tbl : no_nul name = true → named_ok tbl → StronglySorted scmd_le tbl → search_spec name tbl (bsearch name tbl).
Proof.
  intros Hn Ht Hs. apply bsearch_loop_ok; [done..|lia|lia|lia|]. intros j e Ej Hj. apply lookup_lt_Some in Ej. lia.
Qed.
End search.

(** *** A service is created *)
Definition insert_service `{Sys} (p : ptr) (c : client) (w : world) : world :=
  w <| clients ::= <[p := c]> |> <| service_list ::= fun l => l ++ [p] |>.

Section insert_service.
Context `{SYS : Sys} `{RB : !RbSpec}.
Context (w : world) (p : ptr) (c : client) (s : service).
Hypothesis (Hp : clients w !! p = None) (Es : cl_service c = Some s) (Hk : kind_of c = KService).
Hypothesis (Hn : on_net c = false) (Hch : sr_channels s = []) (Hup : cl_uplink c = None).
Hypothesis (Hname : no_nul (cl_name c) = true) (Huid : no_nul (cl_uid c) = true).

Let w' := insert_service p c w.

Lemma service_ids : ids w' = <[p := ident_of c]> (ids w).
Proof. unfold ids, w'. simpl. by rewrite fmap_insert. Qed.

Lemma service_fresh : ids w !! p = None.
Proof. unfold ids. by rewrite lookup_fmap, Hp. Qed.

Lemma service_with (P : ident → Prop) x : (∀ j, P j → id_net j = true ∨ id_kind j ≠ KService) →
  with_ident (ids w') P x ↔ with_ident (ids w) P x.
Proof.
  intros HP. unfold with_ident. rewrite service_ids. split.
  - intros (j & [(-> & <-)|[_ E]]%lookup_insert_Some & Hj); [|by exists j].
    destruct (HP _ Hj) as [H|H]; [simpl in H; congruence|simpl in H; congruence].
  - intros (j & E & Hj). exists j. split; [|done]. rewrite lookup_insert_ne; [done|]. intros <-. by rewrite service_fresh in E.
Qed.

Lemma added_service_kind k net x : k ≠ KService → filed_kind (ids w') k net x ↔ filed_kind (ids w) k net x.
Proof. intros Hne. apply (service_with (fun j => id_kind j = k ∧ id_net j = net)). intros j [-> _]. by right. Qed.

Lemma service_old x j : ids w' !! x = Some j → (x = p ∧ j = ident_of c) ∨ ids w !! x = Some j.
Proof. rewrite service_ids. intros [[-> <-]|[_ E]]%lookup_insert_Some; [by left|by right]. Qed.

Lemma insert_service_good : good w → good w'.
Proof.
  intros [[Hc Ht Htr Ha Hal] Hi]. split; [|exact Hi].
  assert (id_reg (ident_of c) = None ∧ id_oper (ident_of c) = None ∧ id_uplink (ident_of c) = None) as (Hrg & Hop & Hul).
  { simpl. unfold kind_of in Hk. destruct (cl_user c); [by destruct (cl_server c), (cl_service c)|]. done. }
  split.
  - eapply chan_inv_places; [exact Hc|]. split; try done; simpl.
    + intros q c0 E. exists c0. rewrite lookup_insert_ne; [done|]. intros <-. congruence.
    + intros q c' [(-> & ->)|[_ E]]%lookup_insert_Some; [right|left; by exists c'].
      split; [done|]. unfold vacant, places. simpl. rewrite Es. simpl. split; [|by intros l [= <-]].
      unfold kind_of in Hk. destruct (cl_user c'); [by destruct (cl_server c'), (cl_service c')|done].
  - split.
    + eapply indexed_iff; [|apply Ht]. intros x h. symmetry.
      apply (service_with (fun j => id_net j = true ∧ hash_name (id_name j) = h)). intros j [? _]. by left.
    + eapply indexed_iff; [|apply Ht]. intros x h. symmetry.
      apply (service_with (fun j => id_net j = true ∧ id_uid j ≠ ""%string ∧ hash_name (id_uid j) = h)). intros j [? _]. by left.
    + eapply lists_iff; [|apply Ht]. intros x. symmetry. by apply added_service_kind.
    + eapply lists_iff; [|apply Ht]. intros x. symmetry. by apply added_service_kind.
    + eapply lists_iff; [|apply Ht]. intros x. simpl. by rewrite !added_service_kind.
    + destruct (tab_services w Ht) as [Hnd Hl]. assert (p ∉ service_list w) as Hpl.
      { intros (i & Ei & _)%Hl. by rewrite service_fresh in Ei. }
      split; [simpl; apply NoDup_app; split_and!; [done|set_solver|apply NoDup_singleton]|].
      intros x. simpl. rewrite elem_of_app, list_elem_of_singleton, Hl, service_ids. split.
      * intros [(i & Ei & Hki)| ->]; [|exists (ident_of c); by rewrite lookup_insert_eq].
        exists i. rewrite lookup_insert_ne; [done|]. intros <-. by rewrite service_fresh in Ei.
      * intros (i & [(-> & _)|[_ Ei]]%lookup_insert_Some & Hki); [by right|left; by exists i].
    + intros x j [[-> ->]|E]%service_old; [by simpl; rewrite Hk|by apply (tab_ident w Ht x)].
  - split.
    + intros x j [[-> ->]|E]%service_old; [simpl; congruence|by apply (tree_user w Htr x)].
    + intros x j [[-> ->]|E]%service_old; [simpl; congruence|by apply (tree_home w Htr x)].
    + intros x j [[-> ->]|E]%service_old; [done|by apply (tree_service w Htr x)].
    + intros x j q E. rewrite added_service_kind by done. apply service_old in E as [[-> ->]|E]; [congruence|by apply (tree_uplink w Htr x)].
    + intros q j [[-> ->]|E]%service_old Hkq Hnq; [simpl in Hkq; congruence|].
      eapply lists_iff; [|by apply (tree_users w Htr q)]. intros x. symmetry.
      apply (service_with (fun j => id_kind j = KUser ∧ id_net j = true ∧ id_uplink j = Some q)). intros j' (-> & _). by right.
    + intros q j [[-> ->]|E]%service_old Hkq Hnq; [simpl in Hkq; congruence|].
      eapply lists_iff; [|by apply (tree_servers w Htr q)]. intros x. symmetry.
      apply (service_with (fun j => id_kind j = KServer ∧ id_net j = true ∧ id_uplink j = Some q)). intros j' (-> & _). by right.
    + destruct (tree_depth w Htr) as [depth Hd]. exists depth.
      intros x j q [[-> ->]|E]%service_old; [congruence|by apply Hd].
  - assert (∀ o, block_uses w' o = block_uses w o) as Hu.
    { intros o. unfold block_uses. simpl. f_equal. f_equal. apply list_filter_iff. intros x. unfold uses_block.
      rewrite service_ids, lookup_insert. case_decide as Hxp; [|done]. rewrite <- Hxp, service_fresh, Hop. simpl. naive_solver. }
    split.
    + intros x j r [[-> ->]|E]%service_old; [congruence|by apply (acc_reg w Ha x)].
    + eapply lists_iff; [|apply Ha]. intros x. simpl. symmetry.
      apply (service_with (fun j => id_net j = true ∧ id_kind j = KUser ∧ is_Some (id_oper j))). intros j [? _]. by left.
    + intros x j o [[-> ->]|E]%service_old; [congruence|by apply (acc_block w Ha x)].
    + apply Ha.
    + intros o b. rewrite Hu. apply Ha.
  - intros m mb E. apply added_service_kind; [done|]. by apply Hal with m.
Qed.
End insert_service.

(** ** What the handling of a message depends on *)
Section guards.
Context `{SYS : Sys} `{RB : !RbSpec} `{HK : !HooksOk}.

Lemma bind_cong {A B} (m : M world A) (k k' : A → M world B) w :
  wp m (fun a w' => k a w' = k' a w') w → mbind k m w = mbind k' m w.
Proof.
  intros Hm. unfold mbind, M_bind. destruct (m w) as [a w'|?|?] eqn:E; [|done..]. apply (wp_elim _ _ _ _ _ Hm E).
Qed.

Lemma bsearch_loop_uncounted fuel name tbl : ∀ l u,
  bsearch_loop fuel name (uncounted <$> tbl) l u = (fun ie => (fst ie, uncounted (snd ie))) <$> bsearch_loop fuel name tbl l u.
Proof.
  induction fuel as [|fuel IH]; intros l u; [done|]. cbn [bsearch_loop]. destruct (_ <? _)%nat; [|done].
  rewrite list_lookup_fmap. destruct (tbl !! _) as [e|]; [|done]. simpl. destruct (_ <? 0); [apply IH|]. by destruct (0 <? _); [apply IH|].
Qed.

Lemma bsearch_uncounted name tbl :
  bsearch name (uncounted <$> tbl) = (fun ie => (fst ie, uncounted (snd ie))) <$> bsearch name tbl.
Proof. unfold bsearch. rewrite length_fmap. apply bsearch_loop_uncounted. Qed.

(** The entry of a command, its count apart. *)
Definition offer (name : string) (s : service) : option service_command :=
  snd <$> bsearch name (table (offered s)).

Lemma offer_bsearch name s i e : bsearch name (table (sr_command s)) = Some (i, e) → offer name s = Some (uncounted e).
Proof.
  intros E. unfold offer, offered, table in *. destruct (sr_command s) as [tbl|]; [|done]. simpl in *.
  by rewrite bsearch_uncounted, E.
Qed.

Lemma tally_user_kept w w' p c u : tally w w' → clients w !! p = Some c → cl_user c = Some u →
  ∃ c' u', clients w' !! p = Some c' ∧ cl_user c' = Some u' ∧ us_umode u' = us_umode u ∧ us_oper u' = us_oper u ∧
    us_user_reg u' = us_user_reg u.
Proof.
  intros Ht Ec Eu. destruct (parts_back _ _ p c (eq_sym (ta_parts _ _ Ht)) Ec) as (c' & Ec' & Ep).
  injection Ep as Ep _. symmetry in Ep. rewrite Eu in Ep. apply fmap_Some in Ep as (u' & Eu' & [= _ Em]).
  exists c', u'. pose proof (ids_of _ _ _ Ec') as Ei. rewrite (ta_ids _ _ Ht), (ids_of _ _ _ Ec) in Ei.
  injection Ei as _ _ _ _ _ _ _ Eo Er _. rewrite Eu, Eu' in Eo, Er. by split_and!.
Qed.

Lemma tally_offer w w' s c sv : tally w w' → clients w' !! s = Some c → cl_service c = Some sv →
  ∃ c0 sv0, clients w !! s = Some c0 ∧ cl_service c0 = Some sv0 ∧ offered sv = offered sv0.
Proof.
  intros Ht Ec Es. destruct (parts_back _ _ s c (ta_parts _ _ Ht) Ec) as (c0 & Ec0 & Ep).
  injection Ep as _ Ep. rewrite Es in Ep. simpl in Ep. symmetry in Ep. apply fmap_Some in Ep as (sv0 & Es0 & [= -> _ _]).
  by exists c0, sv0.
Qed.

(** Whether the user may run the command with these arguments. *)
Definition login_flags (w : world) (u : user) : option Z := us_oper u ≫= fun o => oper_sflags <$> conf_opers w !! o.

Definition may_run (w : world) (u : user) (e : service_command) (parv : list string) : Prop :=
  Dispatch.closed u (login_flags w u) e = false ∧
  (ENABLE_USERSERV && scm_userreg e = true → is_Some (us_user_reg u)) ∧
  scm_minparc e <= Z.of_nat (length parv).

Lemma closed_umode u u' flags e : us_umode u' = us_umode u → Dispatch.closed u' flags e = Dispatch.closed u flags e.
Proof. intros E. unfold Dispatch.closed, is_oper. by rewrite E. Qed.

(** A command that the user may not run makes no use of its function. *)
Lemma run_command_refused run run' w s p c u i e parv :
  ready w s p → clients w !! p = Some c → cl_user c = Some u → ¬ may_run w u e parv →
  run_command run s p i e parv w = run_command run' s p i e parv w.
Proof.
  intros R Ec Eu Hno. unfold run_command.
  apply bind_cong. eapply wp_rd_service; [done|]. intros cs Ecs.
  apply bind_cong. eapply wp_user_of; [done..|]. apply bind_cong.
  assert (oper_field oper_sflags u w = Ok (login_flags w u) w) as Hf.
  { unfold oper_field, login_flags. destruct (us_oper u) as [o|] eqn:Eo; [|done].
    destruct (user_block w s p c u o R Ec Eu Eo) as [b Eb]. unfold rd. erewrite bind_ok; [|erewrite bind_ok by done; by rewrite Eb].
    simpl. by rewrite Eb. }
  apply (wp_ok _ _ _ _ _ Hf). destruct (Dispatch.closed _ _ _) eqn:Ecl; [done|]. apply bind_cong. unfold not_logged_in.
  destruct (negb (ENABLE_USERSERV && scm_userreg e)) eqn:Er.
  - apply wp_ret. destruct (_ <? _) eqn:Em; [done|]. bool_simpl. destruct Hno. split_and!; [done|by rewrite Er|lia].
  - apply wp_bind. eapply wp_user_of; [done..|]. destruct (us_user_reg u) as [r|] eqn:Eg; [|by apply wp_ret].
    destruct (re_user _ _ _ R) as (j & Ej & _ & Hn). rewrite (ids_of _ _ _ Ec) in Ej. injection Ej as <-.
    destruct (acc_reg _ (ni_accounts _ (proj1 (re_good _ _ _ R))) p _ r (ids_of _ _ _ Ec) Hn) as [reg Ereg]; [simpl; by rewrite Eu|].
    apply wp_bind. eapply wp_rd; [exact Ereg|]. apply wp_bind, wp_gets. apply wp_bind, wp_modify, wp_ret.
    destruct (_ <? _) eqn:Em; [done|]. bool_simpl. destruct Hno. split_and!; [done|by eexists|lia].
Qed.
End guards.

Section access.
Context `{SYS : Sys} `{RB : !RbSpec} `{HK : !HooksOk}.

Lemma may_run_tally w w' u u' e parv :
  tally w w' → us_umode u' = us_umode u → us_oper u' = us_oper u → us_user_reg u' = us_user_reg u →
  may_run w' u' e parv → may_run w u (uncounted e) parv.
Proof.
  intros Ht Em Eo Er (H1 & H2 & H3). unfold may_run, login_flags in *. rewrite Eo, (ta_conf _ _ Ht) in H1. rewrite Er in H2.
  split_and!; [|exact H2|exact H3]. by rewrite <- (closed_umode u u').
Qed.

(** C7.  Access to commands is enforced before anything else can happen: if the table of the
    service has no entry under the name that the user sends, or one that is closed to
    the user - for operators only, for operators with flags that the user's login
    does not have, for registered users, or with too few arguments - then the handling
    of the message does not depend on the functions of the commands at all. *)
Theorem commands_guarded (run run' : ptr → ptr → list string → M world Z) (w : world) (s p : ptr) (cs c : client)
    (sv : service) (u : user) (command : string) (parv : list string) (msg : bool) :
  ready w s p → clients w !! s = Some cs → cl_service cs = Some sv → clients w !! p = Some c → cl_user c = Some u →
  (∀ e, offer command sv = Some e → ¬ may_run w u e parv) →
  handle_service run s p command parv msg w = handle_service run' s p command parv msg w.
Proof.
  intros R Ecs Esv Ec Eu Hno. unfold handle_service. apply bind_cong. eapply wp_service_of; [done..|].
  destruct (sr_command sv); [|done]. apply bind_cong. eapply wp_tallies; [by apply tallies_flood_limit|]. intros go w1 T1.
  pose proof (ready_tally _ _ _ _ T1 R) as R1. destruct (negb go); [done|].
  apply bind_cong. eapply wp_rd_service; [done|]. intros cs1 Ecs1. destruct (_ && _); [done|].
  destruct (same_command _ _); [done|]. destruct (_ || _); [done|]. destruct (_ || _); [done|].
  apply bind_cong. eapply wp_stealthy; [done|]. intros st. destruct st; [done|].
  apply bind_cong. eapply wp_service_read; [done|]. intros c2 sv2 Ec2 Es2.
  destruct (bsearch _ _) as [[i e]|] eqn:Eb; [|done].
  destruct (tally_user_kept _ _ _ _ _ T1 Ec Eu) as (c1 & u1 & Ec1 & Eu1 & Em & Eo & Er).
  destruct (tally_offer _ _ _ _ _ T1 Ec2 Es2) as (c0 & sv0 & Ec0 & Es0 & Eoff). simplify_eq.
  eapply run_command_refused; [exact R1|done..|]. intros Hm.
  apply (Hno (uncounted e)); [|by eapply may_run_tally].
  apply offer_bsearch in Eb. unfold offer in *. by rewrite <- Eoff.
Qed.

(** C21.  A user who is not logged in as an operator and has used up more than
    [client_flood_max_ignore] in the present interval is not heard: whatever the
    message is, nothing is sent or logged and nothing happens but that the user and
    the service count it, and the command has no influence on it. *)
Theorem flooder_ignored (run : ptr → ptr → list string → M world Z) (w : world) (s p : ptr) (c : client) (u : user)
    (command : string) (parv : list string) (msg : bool) :
  ready w s p → clients w !! p = Some c → cl_user c = Some u → us_oper u = None →
  rb_time w <= us_flood_time u + cf_client_flood_time (config_file w) →
  cf_client_flood_max_ignore (config_file w) < us_flood_count u →
  wp (handle_service run s p command parv msg) (fun _ w' => tally w w' ∧ sent w' = sent w ∧ logged w' = logged w) w.
Proof.
  intros R Ec Eu Eo Ht Hmax. unfold handle_service. apply wp_bind. eapply wp_service_read; [done|]. intros cs sv Ecs Esv.
  destruct (sr_command sv); [|by apply wp_ret]. apply wp_bind. unfold flood_limit.
  apply wp_bind. eapply wp_user_of; [done..|]. rewrite Eo.
  apply wp_assoc, wp_bind. eapply wp_ignored; [done|]. intros skip. destruct skip; [by apply wp_ret, wp_ret|].
  apply wp_bind. apply (wp_gets (fun s => s)). rewrite (proj2 (Z.ltb_ge _ _)) by done. apply wp_bind, wp_ret.
  apply wp_bind. eapply wp_user_of; [done..|]. rewrite (proj2 (Z.ltb_lt _ _)) by done.
  unfold add_flood_count. apply wp_bind. eapply wp_upd_user; [done..|].
  set (f := fun u : user => u <| us_flood_count ::= uint_add 1 |>).
  assert (tally w (w <| clients ::= alter (upd_user_field f) p |>)) as T1 by (by apply tally_user).
  pose proof (ready_tally _ _ _ _ T1 R) as R1. destruct (ready_service _ _ _ R1) as (cs1 & sv1 & Ecs1 & Esv1).
  apply wp_bind. eapply wp_upd_service; [exact Ecs1|exact Esv1|]. apply wp_ret. cbn [negb]. apply wp_ret.
  split; [|done]. etrans; [exact T1|].
  by apply (tally_service (w <| clients ::= alter (upd_user_field f) p |>) s (fun s => s <| sr_ignored_count ::= fun x => uint64 (x + 1) |>)).
Qed.
End access.

(** ** Logins of operators *)
Section logins.
Context `{SYS : Sys} `{RB : !RbSpec} `{HK : !HooksOk}.

(** The first block of the list that passes a test. *)
Definition first_block (w : world) (test : conf_oper → bool) : option ptr :=
  snd <$> list_find (fun o => (test <$> conf_opers w !! o) = Some true) (conf_oper_list w).

Lemma find_conf_oper_first w username host server login :
  requests_ok w →
  find_conf_oper username host server login w = Ok (first_block w (oper_matches username host server login)) w.
Proof.
  intros Hw. unfold find_conf_oper, first_block. erewrite bind_ok by done.
  pose proof (rq_conf w Hw) as Hl. induction (conf_oper_list w) as [|o l IH]; [done|]. cbn [find_first list_find].
  destruct (Hl o) as [b Eb]; [by left|]. assert (rd conf_opers o w = Ok b w) as Er by (unfold rd; erewrite bind_ok by done; by rewrite Eb).
  erewrite bind_ok; [|erewrite bind_ok by exact Er; done]. rewrite Eb. simpl. destruct (oper_matches _ _ _ _ b); [by rewrite decide_True|]. rewrite decide_False by done.
  rewrite IH by (intros q Hq; apply Hl; by right). by destruct (list_find _ l) as [[? ?]|].
Qed.

(** The block that OLOGIN gives the user for a name and a password. *)
Definition right_password (pass : string) (b : conf_oper) : bool :=
  match (if ConfOperEncrypted b then rb_crypt pass (oper_pass b) else Some pass) with
  | Some crpass => strcmp crpass (oper_pass b) =? 0
  | None => false
  end.

Definition granted (w : world) (u : user) (name pass : string) : option ptr :=
  sv ← clients w !! us_servername u;
  o ← first_block w (oper_matches (us_username u) (us_host u) (cl_name sv) (Some name));
  b ← conf_opers w !! o;
  if right_password pass b then Some o else None.

(** The state after OLOGIN is that after the login, up to what was sent. *)
Lemma same_net_login p o w w' : same_net w w' → same_net (login_world p o w) (login_world p o w').
Proof. intros []. split; simpl; congruence. Qed.
Lemma same_net_logout p o w w' : same_net w w' → same_net (logout_world p o w) (logout_world p o w').
Proof. intros []. split; simpl; congruence. Qed.

Lemma granted_block w s p c u name pass o :
  ready w s p → clients w !! p = Some c → cl_user c = Some u → granted w u name pass = Some o →
  find_user_oper p (Some name) w = Ok (Some o) w ∧
  ∃ b, conf_opers w !! o = Some b ∧ ConfDead b = false ∧ right_password pass b = true.
Proof.
  intros R Ec Eu Hg. unfold granted in Hg. destruct (clients w !! us_servername u) as [sv|] eqn:Esv; [|done]. simpl in Hg.
  destruct (first_block _ _) as [o'|] eqn:Ef; [|done]. simpl in Hg.
  destruct (conf_opers w !! o') as [b|] eqn:Eb; [|done]. simpl in Hg. destruct (right_password pass b) eqn:Ep; [|done].
  injection Hg as ->. split.
  - unfold find_user_oper, user_of, servername_of, rd.
    erewrite bind_ok; [|erewrite bind_ok; [|erewrite bind_ok by done; by rewrite Ec]; by rewrite Eu].
    erewrite bind_ok; [|erewrite bind_ok; [|erewrite bind_ok by done; by rewrite Esv]; done].
    by rewrite find_conf_oper_first, Ef by exact (re_requests _ _ _ R).
  - exists b. split_and!; [done| |done]. unfold first_block in Ef. apply fmap_Some in Ef as ([i x] & El & [= ->]).
    apply list_find_Some in El as (_ & Ht & _). rewrite Eb in Ht. injection Ht as Ht. unfold oper_matches in Ht.
    by destruct (ConfDead b).
Qed.

Lemma wp_login w s p c u name pass rest o :
  ready w s p → clients w !! p = Some c → cl_user c = Some u → us_oper u = None →
  granted w u name pass = Some o →
  wp (oper_login s p (name :: pass :: rest)) (fun _ w' => same_net (login_world p o w) w') w.
Proof.
  intros R Ec Eu Eo Hg. destruct (granted_block _ _ _ _ _ _ _ _ R Ec Eu Hg) as (Ef & b & Eb & _ & Hpw).
  unfold oper_login. apply wp_bind. eapply wp_user_of; [done..|]. apply wp_bind. eapply wp_rd_service; [done|]. intros cs Ecs.
  rewrite Eo. cbn [length Nat.ltb Nat.leb]. apply wp_bind. unfold arg. apply wp_bind, wp_argv; [simpl; lia|].
  eapply wp_need; [done|]. apply wp_bind. apply (wp_ok _ _ _ _ _ Ef). apply wp_bind. eapply wp_rd; [exact Eb|].
  apply wp_bind, wp_bind, wp_argv; [simpl; lia|]. eapply wp_need; [done|].
  apply wp_bind, wp_conseq with (Q := fun x w' => w' = w ∧ strcmp x (oper_pass b) = 0).
  { unfold right_password in Hpw. destruct (ConfOperEncrypted b).
    - destruct (rb_crypt pass (oper_pass b)) as [x|] eqn:Ex; [|done]. eapply wp_need; [done|]. split; [done|]. by apply Z.eqb_eq.
    - apply wp_ret. split; [done|]. by apply Z.eqb_eq. }
  intros crpass ? [-> Hx]. rewrite Hx. cbn [Z.eqb negb].
  apply wp_bind. eapply wp_conseq; [by eapply quiet_server_notice|]. cbn beta. intros [] w1 Hs.
  pose proof (ready_tally _ _ _ _ (tally_same _ _ Hs) R) as R1.
  assert (clients w1 !! p = Some c) as Ec1 by (by rewrite (sn_clients _ _ Hs)).
  assert (conf_opers w1 !! o = Some b) as Eb1 by (by rewrite (sn_conf_opers _ _ Hs)).
  apply wp_bind. eapply wp_upd_user; [done..|]. apply wp_bind. unfold upd_oper. apply wp_bind. eapply wp_rd; [exact Eb1|].
  apply wp_modify, wp_bind, wp_modify. change (_ <| oper_list ::= _ |>) with (login_world p o w1).
  assert (ready (login_world p o w1) s p) as R2 by (eapply ready_login; [done..|by exists b]).
  eapply wp_conseq; [by eapply quiet_watch_send|]. cbn beta. intros _ w3 Hs3. etrans; [by apply same_net_login|done].
Qed.

Lemma wp_logout w s p c u o :
  ready w s p → clients w !! p = Some c → cl_user c = Some u → us_oper u = Some o →
  wp (oper_logout p) (fun _ w' => same_net (logout_world p o w) w') w.
Proof.
  intros R Ec Eu Eo. unfold oper_logout. apply wp_bind. eapply wp_user_of; [done..|]. rewrite Eo.
  apply wp_bind. eapply wp_conseq; [by eapply quiet_watch_send|]. cbn beta. intros [] w1 Hs.
  pose proof (ready_tally _ _ _ _ (tally_same _ _ Hs) R) as R1.
  assert (clients w1 !! p = Some c) as Ec1 by (by rewrite (sn_clients _ _ Hs)).
  pose proof (user_block _ _ _ _ _ _ R1 Ec1 Eu Eo) as Hb.
  apply wp_bind, wp_deallocate; [done|]. apply wp_bind. eapply wp_upd_user; [done..|].
  apply wp_bind, wp_modify. change (_ <| oper_list ::= _ |>) with (logout_world p o w1).
  eapply wp_conseq with (Q := fun _ w' => same_net (logout_world p o w1) w').
  - unfold server_notice. apply quiet_bind; [apply (quiet_gets (fun s => s))|]. intros w2 w2' Hs2.
    apply quiet_bind; [|intros; apply quiet_sendto_server]. unfold quiet.
    assert (clients w2' !! p = Some (upd_user_field (set_login None) c)) as Ec2.
    { rewrite (sn_clients _ _ Hs2). simpl. by rewrite lookup_alter_eq, Ec1. }
    by eapply wp_rd.
  - cbn beta. intros _ w3 Hs3. etrans; [by apply same_net_logout|done].
Qed.

(** OLOGOUT after OLOGIN. *)
Lemma login_logout p o c u b w :
  clients w !! p = Some c → cl_user c = Some u → us_oper u = None → conf_opers w !! o = Some b → ConfDead b = false →
  same_net w (logout_world p o (login_world p o w)).
Proof.
  intros Ec Eu Eo Eb Hd. split; try done; simpl.
  - apply map_eq. intros q. rewrite !lookup_alter. case_decide as E; [|done]. rewrite <- E, decide_True, Ec by done. simpl. f_equal.
    destruct c, u. simpl in Eu, Eo. unfold upd_user_field, field_upd. simpl. by rewrite Eu, Eo.
  - apply map_eq. intros q. unfold drop_ref. rewrite lookup_alter_eq, lookup_alter_eq, Eb. cbn [fmap option_fmap option_map].
    assert (has_flag (oper_flags (add_ref (-1) (add_ref 1 b))) CONF_DEAD = false) as -> by exact Hd. cbn [andb].
    rewrite !lookup_alter. case_decide as E; [|done]. rewrite <- E, decide_True, Eb by done. simpl. f_equal. destruct b. unfold add_ref, field_upd. simpl. f_equal. lia.
  - rewrite rb_dlinkAdd_spec, rb_dlinkFindDestroy_spec. simpl. by rewrite decide_True.
Qed.
End logins.

Section ologin.
Context `{SYS : Sys} `{RB : !RbSpec} `{HK : !HooksOk}.

Lemma find_user_oper_first w s p c u name :
  ready w s p → clients w !! p = Some c → cl_user c = Some u →
  ∃ sv, clients w !! us_servername u = Some sv ∧
    find_user_oper p (Some name) w = Ok (first_block w (oper_matches (us_username u) (us_host u) (cl_name sv) (Some name))) w.
Proof.
  intros R Ec Eu. destruct (re_user _ _ _ R) as (i & Ei & _ & Hn).
  destruct (live_servername w p c u (proj1 (re_good _ _ _ R))) as [sv Esv]; [by exists i|done..|]. exists sv. split; [done|].
  unfold find_user_oper, user_of, servername_of, rd.
  erewrite bind_ok; [|erewrite bind_ok; [|erewrite bind_ok by done; by rewrite Ec]; by rewrite Eu].
  erewrite bind_ok; [|erewrite bind_ok; [|erewrite bind_ok by done; by rewrite Esv]; done].
  by rewrite find_conf_oper_first by exact (re_requests _ _ _ R).
Qed.

(** C9.  OLOGIN logs a user in under exactly one condition: the first block of the
    configuration that is alive and meant for the user's name, host and server and has
    the name given, also has the password given.  Then the user holds that block, its
    references and the list of operators follow, and nothing else changes; otherwise
    nobody's login changes.  A wrong password for a block that is there changes nothing
    at all, not even the count of what the user has used up. *)
Theorem ologin_exact (w : world) (s p : ptr) (c : client) (u : user) (name pass : string) (rest : list string) :
  ready w s p → clients w !! p = Some c → cl_user c = Some u → us_oper u = None →
  wp (oper_login s p (name :: pass :: rest)) (fun _ w' => good w' ∧
    match granted w u name pass with
    | Some o => same_net (login_world p o w) w'
    | None => tally w w' ∧
        (∀ sv, clients w !! us_servername u = Some sv →
           is_Some (first_block w (oper_matches (us_username u) (us_host u) (cl_name sv) (Some name))) → same_net w w')
    end) w.
Proof.
  intros R Ec Eu Eo. destruct (granted w u name pass) as [o|] eqn:Hg.
  { eapply wp_conseq; [by eapply wp_login|]. cbn beta. intros _ w' Hs. split; [|done]. eapply good_same; [exact Hs|].
    destruct (granted_block _ _ _ _ _ _ _ _ R Ec Eu Hg) as (_ & b & Eb & _).
    eapply good_login; [exact (re_good _ _ _ R)|exact (re_user _ _ _ R)|done..|by exists b]. }
  destruct (find_user_oper_first w s p c u name R Ec Eu) as (sv & Esv & Ef).
  unfold oper_login. apply wp_bind. eapply wp_user_of; [done..|]. apply wp_bind. eapply wp_rd_service; [done|]. intros cs Ecs.
  rewrite Eo. cbn [length Nat.ltb Nat.leb]. apply wp_bind. unfold arg. apply wp_bind, wp_argv; [simpl; lia|].
  eapply wp_need; [done|]. apply wp_bind. apply (wp_ok _ _ _ _ _ Ef).
  unfold granted in Hg. rewrite Esv in Hg. simpl in Hg.
  destruct (first_block _ _) as [o|] eqn:Efb; simpl in Hg.
  - destruct (find_user_oper_run w s p (Some name) R) as (r & Er & Hr). rewrite Ef in Er. injection Er as <-.
    destruct (Hr o eq_refl) as [_ [b Eb]]. rewrite Eb in Hg. simpl in Hg. destruct (right_password pass b) eqn:Ep; [done|].
    apply wp_bind. eapply wp_rd; [exact Eb|]. apply wp_bind, wp_bind, wp_argv; [simpl; lia|]. eapply wp_need; [done|].
    apply wp_bind, wp_conseq with (Q := fun x w' => w' = w ∧ (strcmp x (oper_pass b) =? 0) = false).
    { unfold right_password in Ep. destruct (ConfOperEncrypted b) eqn:Ee; [|by apply wp_ret].
      destruct (rq_crypt _ (re_requests _ _ _ R) o b pass Eb Ee) as [x Ex]. rewrite Ex in Ep. by eapply wp_need. }
    intros x ? [-> ->]. cbn [negb]. eapply wp_conseq; [by eapply quiet_server_notice|]. cbn beta. intros _ w' Hs.
    split; [eapply good_same; [exact Hs|exact (re_good _ _ _ R)]|]. split; [by apply tally_same|done].
  - eapply wp_tallies.
    { apply tallies_bind; [by eapply tallies_server_notice|]. intros [] w1 T1. by eapply tallies_add_flood_count, ready_tally. }
    intros [] w' T. split; [apply T, (re_good _ _ _ R)|]. split; [done|].
    intros sv' Esv' [o Ho]. congruence.
Qed.

(** C22.  OLOGOUT undoes OLOGIN: after both the whole picture of the network, with the
    references to blocks and the list of operators, is as it was before. *)
Theorem ologin_undone (w : world) (s p : ptr) (c : client) (u : user) (name pass : string) (rest : list string) (o : ptr) :
  ready w s p → clients w !! p = Some c → cl_user c = Some u → us_oper u = None →
  granted w u name pass = Some o →
  wp (_ ← oper_login s p (name :: pass :: rest); oper_logout p) (fun _ w' => same_net w w') w.
Proof.
  intros R Ec Eu Eo Hg. destruct (granted_block _ _ _ _ _ _ _ _ R Ec Eu Hg) as (_ & b & Eb & Hd & _).
  apply wp_bind. eapply wp_conseq; [by eapply wp_login|]. cbn beta. intros [] w1 Hs.
  assert (ready w1 s p) as R1.
  { eapply ready_tally; [by apply tally_same|]. eapply ready_login; [done..|by exists b]. }
  assert (clients w1 !! p = Some (upd_user_field (set_login (Some o)) c)) as Ec1.
  { rewrite (sn_clients _ _ Hs). simpl. by rewrite lookup_alter_eq, Ec. }
  eapply wp_conseq; [eapply (wp_logout w1 s p _ (set_login (Some o) u) o); [exact R1|exact Ec1|by simpl; rewrite Eu|done]|].
  cbn beta. intros _ w2 Hs2. etrans; [|exact Hs2]. etrans; [by eapply login_logout|]. by apply same_net_logout.
Qed.
End ologin.

(** ** Rehash and logout *)
Section rehash.
Context `{SYS : Sys} `{RB : !RbSpec} `{HK : !HooksOk}.

(** C8.  A rehash refines the replacement of the operator blocks by those of the file:
    every user of every block of the new configuration has a live block that stands for
    it, with its password and flags; every live block stands for one of them; blocks that
    users hold are kept, with their references, and of the others only live ones are
    left; the network is sound all the while, services that were switched on or off or
    changed included. *)
Theorem rehash_replaces_blocks (w : world) (blocks : list (conf_oper * list conf_oper)) (settings : M world unit) :
  good w → blocks_ok (conf_opers w) (conf_oper_list w) → parsed blocks → settings_ok settings →
  wp (conf_parse blocks settings) (fun _ w' =>
    good w' ∧ blocks_ok (conf_opers w') (conf_oper_list w') ∧
    (∀ b, b ∈ read_blocks blocks →
       ∃ o b', o ∈ conf_oper_list w' ∧ conf_opers w' !! o = Some b' ∧ ConfDead b' = false ∧ stands_for b b') ∧
    (∀ o b', o ∈ conf_oper_list w' → conf_opers w' !! o = Some b' →
       (ConfDead b' = false ∧ ∃ b, b ∈ read_blocks blocks ∧ stands_for b b') ∨ (ConfDead b' = true ∧ oper_refcount b' ≠ 0)) ∧
    (∀ o b, o ∈ conf_oper_list w → conf_opers w !! o = Some b → oper_refcount b ≠ 0 →
       o ∈ conf_oper_list w' ∧ ∃ b', conf_opers w' !! o = Some b' ∧ oper_refcount b' = oper_refcount b)) w.
Proof.
  intros Hw Hok Hp Hs. eapply wp_conseq; [by apply wp_conf_parse|]. cbn beta. intros _ w' [R1 R2 R3 R4 R5 R6].
  split_and!; [done..| |done]. intros o b' Ho Eo. destruct (ConfDead b') eqn:Hd; [right|left]; split; eauto.
Qed.

(** C39.  A block that a rehash has dropped is freed with its last login but never taken out of
    the list: if it is the first of the list, then after the OLOGOUT of the user who
    holds it every search for an operator block - the next OLOGIN or CTCP of anybody -
    reads freed memory. *)
Theorem logout_leaves_dangling (w : world) (s p : ptr) (c : client) (u : user) (o : ptr) (b : conf_oper) (l : list ptr) :
  ready w s p → clients w !! p = Some c → cl_user c = Some u → us_oper u = Some o →
  conf_opers w !! o = Some b → ConfDead b = true → oper_refcount b = 1 → conf_oper_list w = o :: l →
  wp (oper_logout p) (fun _ w' => good w' ∧
    ∀ username host server login, find_conf_oper username host server login w' = Fault Dangling) w.
Proof.
  intros R Ec Eu Eo Eb Hd Hr El. eapply wp_conseq; [by eapply wp_logout_dead|]. cbn beta. intros _ w' (Hg & En & El').
  split; [done|]. intros username host server login. unfold find_conf_oper. erewrite bind_ok by done.
  rewrite El', El. cbn [find_first]. apply bind_fault, bind_fault. unfold rd.
  erewrite bind_ok by done. by rewrite En.
Qed.
End rehash.

(** ** Merged tables *)

(** C12.  The commands of services that are merged are found.  After [merge_service()] the
    binary search for a name gives a command of that name, in any case, out of the two
    tables, and gives none exactly if neither has the name, in whatever order the
    tables were written. *)
Theorem merged_commands_found (h : service_handler) (s : service) (name : string) :
  no_nul name = true → named_ok (table (sr_command s)) → named_ok (table (sh_command h)) →
  match bsearch name (table (sr_command (merge_service h s))) with
  | Some (i, e) => table (sr_command (merge_service h s)) !! i = Some e ∧ strcasecmp name (scm_cmd e) = 0 ∧
      (e ∈ table (sr_command s) ∨ e ∈ table (sh_command h))
  | None => ∀ e, e ∈ table (sr_command s) ∨ e ∈ table (sh_command h) → strcasecmp name (scm_cmd e) ≠ 0
  end.
Proof.
  intros Hn Hs Hh. set (tbl := qsort (table (sr_command s) ++ table (sh_command h))).
  assert (table (sr_command (merge_service h s)) = tbl) as -> by (unfold merge_service; by destruct (sh_ucommand h)).
  assert (∀ e, e ∈ tbl ↔ e ∈ table (sr_command s) ∨ e ∈ table (sh_command h)) as Hin.
  { intros e. unfold tbl. rewrite (qsort_perm _). apply elem_of_app. }
  assert (named_ok (table (sr_command s) ++ table (sh_command h))) as Hall by (by apply Forall_app).
  assert (named_ok tbl) as Ht by (unfold named_ok, tbl; by rewrite (qsort_perm _)).
  pose proof (bsearch_ok name tbl Hn Ht (qsort_sorted _ Hall)) as Hb. unfold search_spec in Hb.
  destruct (bsearch name tbl) as [[i e]|].
  - destruct Hb as [Ei E]. split_and!; [done..|]. by apply Hin, (list_elem_of_lookup_2 _ i).
  - intros e He. by apply Hb, Hin.
Qed.

(** What merges make of [s], whose own table is [tbl]: [started] after the first. *)
Record merged_from (tbl : list service_command) (s x : service) (started : bool) : Prop := MergedFrom {
  mf_rest : x <| sr_command := Some tbl |> <| sr_ucommand := sr_ucommand s |>
              <| sr_orig_command := None |> <| sr_orig_ucommand := None |> = s;
  mf_command : if started then sr_orig_command x = Some tbl else sr_orig_command x = None ∧ sr_command x = Some tbl;
  mf_ucommand : (sr_orig_ucommand x = None ∧ sr_ucommand x = sr_ucommand s) ∨
                (sr_orig_ucommand x = sr_ucommand s ∧ is_Some (sr_ucommand s))
}.

Lemma merged_from_start tbl s :
  sr_command s = Some tbl → sr_orig_command s = None → sr_orig_ucommand s = None → merged_from tbl s s false.
Proof. intros Ec Eo Eu. split; [|by split|by left]. destruct s. cbn in *. by rewrite Ec, Eo, Eu. Qed.

Lemma merged_from_step tbl s x b h :
  sr_ucommand s ≠ None ∨ sh_ucommand h = None → merged_from tbl s x b → merged_from tbl s (merge_service h x) true.
Proof.
  intros Hh [Hr Hc Hu].
  assert (match sr_orig_command x with None => sr_command x | o => o end = Some tbl) as Eo by (destruct b; [by rewrite Hc|by destruct Hc as [-> ->]]).
  unfold merge_service. destruct (sh_ucommand h) as [new|].
  - destruct Hh as [Hh|Hh]; [|done]. split; [exact Hr|exact Eo|right].
    cbn [sr_orig_ucommand]. destruct Hu as [[E E']|[E [us Eus]]].
    + split; [|by destruct (sr_ucommand s); [eexists|]]. cbn. by rewrite E, E'.
    + split; [|by exists us]. cbn. by rewrite E, Eus.
  - split; [exact Hr|exact Eo|exact Hu].
Qed.

Lemma merged_from_unmerge tbl s x : merged_from tbl s x true → unmerge_service x = s.
Proof.
  intros [Hr Hc Hu]. unfold unmerge_service. rewrite Hc. rewrite <- Hr. cbn [sr_orig_ucommand].
  destruct x. cbn in *. destruct Hu as [[-> ->]|[-> [us ->]]]; reflexivity.
Qed.

(** C23.  [unmerge_service()] undoes any number of merges, if the service has DCC
    commands of its own or the services that were merged into it have none. *)
Theorem unmerge_merged (h : service_handler) (hs : list service_handler) (s : service) :
  sr_command s ≠ None → sr_orig_command s = None → sr_orig_ucommand s = None →
  sr_ucommand s ≠ None ∨ Forall (fun h => sh_ucommand h = None) (h :: hs) →
  unmerge_service (fold_left (fun s h => merge_service h s) (h :: hs) s) = s.
Proof.
  intros Hc Eo Eu Hor. destruct (sr_command s) as [tbl|] eqn:Ec; [|done]. apply (merged_from_unmerge tbl).
  assert (Forall (fun h => sr_ucommand s ≠ None ∨ sh_ucommand h = None) (h :: hs)) as Hall.
  { destruct Hor as [?|Hf]; [apply Forall_forall; auto|eapply Forall_impl; [exact Hf|auto]]. }
  apply Forall_cons in Hall as [Hh Hall]. cbn [fold_left].
  pose proof (merged_from_step tbl s s false h Hh (merged_from_start tbl s Ec Eo Eu)) as H1. clear Hor.
  revert H1. generalize (merge_service h s). induction Hall as [|h' hs' Hh' _ IH]; intros x H1; [exact H1|].
  cbn [fold_left]. by eapply IH, merged_from_step.
Qed.

Lemma good_watchserv `{SYS : Sys} `{RB : !RbSpec} w x : good w → good (w <| watchserv_p := x |>).
Proof.
  intros [Hw Hi]. split; [|exact Hi]. apply (net_inv_index w); [|by split|by apply members_from_eq|exact Hw].
  eapply chan_inv_places; [apply Hw|]. split; eauto.
Qed.

(** Other blocks, none of which has an encrypted password. *)
Lemma ready_blocks `{SYS : Sys} `{RB : !RbSpec} `{HK : !HooksOk} w s p m l :
  ready w s p → serves w m → (∀ o, o ∈ l → is_Some (m !! o)) → (∀ o b, m !! o = Some b → ConfOperEncrypted b = false) →
  ready (with_blocks m l w) s p.
Proof.
  intros [Hw [R1 R2 R3 R4 R5] Hu Hs] Hm Hl He. split; [by apply good_blocks| |done|done].
  split; [done|done|done|done|]. intros o b key Eb Hb. by rewrite (He o b Eb) in Hb.
Qed.

(** ** At a small desk

    The servers of the sample, an operator service with two commands, a user and a
    block that is meant for the user. *)
#[local] Existing Instance quiet_sys.
#[local] Existing Instance rb_reference_spec.

Definition index_files : cachefiles := {[0 := ["The commands."%string]]}.

Definition desk_commands : list service_command :=
  [ServiceCommand "DIE" (Some 1%positive) 1 None 0 0 false true 0;
   ServiceCommand "UPTIME" (Some 2%positive) 0 None 0 0 false false 0].

Definition desk_service : service :=
  Service "operserv" "services.example" "OPERSERV" 0 0 [] 0 0 0 (Some desk_commands) None None None 0 0 0 0
    (Some index_files) (Some index_files).

Definition operserv : client := zero_client <| cl_name := "operserv" |> <| cl_uid := "0SVAAAAAA" |>
  <| cl_service := Some desk_service |>.

Definition carol_user : user := zero_user <| us_username := "carol" |> <| us_host := "home.example" |> <| us_servername := 1%positive |>
  <| us_mask := Some "carol!carol@home.example"%string |> <| us_flood_time := 1000000000 |> <| us_flood_count := 40 |>.
Definition carol : client := zero_client <| cl_name := "carol" |> <| cl_uid := "1AAAAAAAB" |>
  <| cl_user := Some carol_user |> <| cl_uplink := Some 1%positive |>.

Definition staff : conf_oper := ConfOper "staff" "carol" "*.example" "secret" None 0 0 0.

Definition served_world : world := service_on 5 operserv (insert_service 5 operserv servers_world).
Definition desk : world :=
  (enter_client 3 carol served_world) <| conf_opers := {[1%positive := staff]} |> <| conf_oper_list := [1%positive] |>
    <| watchserv_p := Some 5%positive |>.

Lemma served_good : good served_world.
Proof.
  unfold served_world. apply (service_on_good 5 operserv desk_service).
  - by apply (insert_service_good servers_world 5 operserv desk_service), servers_good.
  - simpl. apply lookup_insert_eq.
  - done.
  - done.
Qed.

Lemma desk_good : good desk.
Proof.
  assert (good (enter_client 3 carol served_world)) as Hc.
  { apply new_client_inv; try (done || by left).
    - apply served_good.
    - intros q [= <-]. there.
    - split; by intros l [= <-]. }
  assert (good ((enter_client 3 carol served_world) <| conf_opers := {[1%positive := staff]} |> <| conf_oper_list := [1%positive] |>)) as Hb.
  { apply good_blocks; [done|]. assert (∀ o, block_uses (enter_client 3 carol served_world) o = 0%nat) as Hu.
    { intros o. unfold block_uses. assert (client_oper_list (enter_client 3 carol served_world) = []) as -> by (vm_compute; reflexivity).
      assert (user_list (enter_client 3 carol served_world) = [3%positive]) as -> by (vm_compute; reflexivity).
      rewrite filter_nil, filter_cons, filter_nil. unfold uses_block.
      assert (ids (enter_client 3 carol served_world) !! 3%positive = Some (ident_of carol)) as -> by (vm_compute; reflexivity).
      done. }
    split; [intros o; rewrite Hu; lia|]. intros o b [<- <-]%lookup_singleton_Some. by rewrite Hu. }
  apply good_watchserv, Hb.
Qed.

Lemma desk_clients : dom (clients desk) = {[1; 2; 3; 5]}%positive.
Proof. vm_compute. reflexivity. Qed.

Lemma desk_requests : requests_ok desk.
Proof.
  split.
  - intros o Ho%list_elem_of_singleton. subst. by eexists.
  - exists 5%positive. eexists. split; [reflexivity|]. split; vm_compute; reflexivity.
  - intros p c u Ec Eu. assert (p ∈ dom (clients desk)) as Hp by (by apply elem_of_dom_2 in Ec).
    rewrite desk_clients in Hp. repeat (apply elem_of_union in Hp as [Hp|Hp]); apply elem_of_singleton in Hp as ->;
      vm_compute in Ec; injection Ec as <-; vm_compute in Eu; try discriminate; injection Eu as <-; by eexists.
  - intros p c s Ec Es _. assert (p ∈ dom (clients desk)) as Hp by (by apply elem_of_dom_2 in Ec).
    rewrite desk_clients in Hp. repeat (apply elem_of_union in Hp as [Hp|Hp]); apply elem_of_singleton in Hp as ->;
      vm_compute in Ec; injection Ec as <-; vm_compute in Es; try discriminate; injection Es as <-; split; by eexists.
  - intros o b key Eb. change (conf_opers desk) with ({[1%positive := staff]} : gmap ptr conf_oper) in Eb.
    apply lookup_singleton_Some in Eb as [_ <-]. intros He. vm_compute in He. discriminate.
Qed.

Lemma desk_ready : ready desk 5 3.
Proof.
  split; [exact desk_good|exact desk_requests|there|]. eexists. split; vm_compute; reflexivity.
Qed.

(** What the desk has at the service and at the user. *)
Lemma desk_at : ∃ cs sv c, clients desk !! 5%positive = Some cs ∧ cl_service cs = Some sv ∧
  offered sv = Some desk_commands ∧ clients desk !! 3%positive = Some c ∧ cl_user c = Some carol_user.
Proof. eexists _, _, _. repeat split. Qed.

Lemma commands_guarded_witness :
  handle_service (fun _ _ _ => die "the command ran") 5 3 "die" ["now"%string] true desk =
  handle_service (fun _ _ _ => mret 0) 5 3 "die" ["now"%string] true desk.
Proof.
  destruct desk_at as (cs & sv & c & Ecs & Esv & Eoff & Ec & Eu).
  apply (commands_guarded _ _ desk 5 3 cs c sv carol_user "die" ["now"%string] true desk_ready Ecs Esv Ec Eu).
  intros e Ee. unfold offer in Ee. rewrite Eoff in Ee. vm_compute in Ee. injection Ee as <-.
  intros [H _]. vm_compute in H. discriminate.
Defined.

Lemma flooder_ignored_witness :
  ∃ w', handle_service command_func 5 3 "uptime" [] true desk = Ok tt w' ∧ sent w' = [].
Proof.
  destruct desk_at as (cs & sv & c & _ & _ & _ & Ec & Eu).
  assert (wp (handle_service command_func 5 3 "uptime" [] true) (fun _ w' => tally desk w' ∧ sent w' = sent desk ∧ logged w' = logged desk) desk) as H
    by (apply (flooder_ignored command_func desk 5 3 c carol_user "uptime" [] true desk_ready Ec Eu eq_refl); vm_compute; [discriminate|reflexivity]).
  destruct (handle_service command_func 5 3 "uptime" [] true desk) as [[] w'|?|?] eqn:E; [|vm_compute in E; discriminate..].
  exists w'. split; [reflexivity|]. destruct (wp_elim _ _ _ tt _ H E) as (_ & Hs & _). rewrite Hs. vm_compute. reflexivity.
Defined.

Lemma ologin_exact_witness :
  ∃ w', oper_login 5 3 ["staff"; "secret"]%string desk = Ok tt w' ∧ oper_list w' = [3%positive].
Proof.
  destruct desk_at as (cs & sv & c & _ & _ & _ & Ec & Eu).
  pose proof (ologin_exact desk 5 3 c carol_user "staff" "secret" [] desk_ready Ec Eu eq_refl) as H.
  assert (granted desk carol_user "staff" "secret" = Some 1%positive) as Hg by (vm_compute; reflexivity). rewrite Hg in H.
  destruct (oper_login 5 3 ["staff"; "secret"]%string desk) as [[] w'|?|?] eqn:E; [|vm_compute in E; discriminate..].
  exists w'. split; [reflexivity|]. destruct (wp_elim _ _ _ tt _ H E) as (_ & Hs). by rewrite (sn_oper_list _ _ Hs).
Defined.

Lemma ologin_undone_witness :
  ∃ w', (_ ← oper_login 5 3 ["staff"; "secret"]%string; oper_logout 3) desk = Ok tt w' ∧ conf_opers w' = conf_opers desk.
Proof.
  destruct desk_at as (cs & sv & c & _ & _ & _ & Ec & Eu).
  assert (granted desk carol_user "staff" "secret" = Some 1%positive) as Hg by (vm_compute; reflexivity).
  pose proof (ologin_undone desk 5 3 c carol_user "staff" "secret" [] 1 desk_ready Ec Eu eq_refl Hg) as H.
  destruct ((_ ← oper_login 5 3 ["staff"; "secret"]%string; oper_logout 3) desk) as [[] w'|?|?] eqn:E; [|vm_compute in E; discriminate..].
  exists w'. split; [reflexivity|]. by rewrite (sn_conf_opers _ _ (wp_elim _ _ _ tt _ H E)).
Defined.

(** A file that gives the same user a new password, and one that has nobody. *)
Definition new_password : list (conf_oper * list conf_oper) :=
  [(ConfOper "staff" "" "" "sesame" None 0 0 0, [ConfOper "" "Carol" "*.example" "" None 0 0 0])].

Lemma desk_blocks : blocks_ok (conf_opers desk) (conf_oper_list desk).
Proof. split; [apply NoDup_singleton|]. intros o ->%list_elem_of_singleton. by eexists. Qed.

Lemma rehash_replaces_blocks_witness :
  wp (conf_parse new_password (mret tt)) (fun _ w' => ∃ o b', o ∈ conf_oper_list w' ∧ conf_opers w' !! o = Some b' ∧ oper_pass b' = "sesame"%string) desk.
Proof.
  eapply wp_conseq; [apply (rehash_replaces_blocks desk new_password (mret tt) desk_good desk_blocks)|].
  - repeat constructor.
  - intros w Hw. by apply wp_ret.
  - intros _ w' (_ & _ & Hnew & _). destruct (Hnew (ConfOper "staff" "Carol" "*.example" "sesame" None 0 0 0)) as (o & b' & Ho & Eo & _ & Hst);
      [by left|]. exists o, b'. split; [exact Ho|]. split; [exact Eo|]. exact (sf_pass _ _ Hst).
Defined.

(** The desk after the login, with a block that a rehash has dropped. *)
Definition held : world := login_world 3 1 desk.
Definition dropped : world := with_blocks (alter kill_block 1%positive (conf_opers held)) [1%positive] held.

Lemma dropped_ready : ready dropped 5 3.
Proof.
  destruct desk_at as (cs & sv & c & _ & _ & _ & Ec & Eu).
  assert (ready held 5 3) as Hh by (eapply ready_login; [exact desk_ready|exact Ec|exact Eu|reflexivity|by eexists]).
  apply ready_blocks; [exact Hh| | |].
  - apply serves_alter; [done|]. apply good_serves, (re_good _ _ _ Hh).
  - intros o ->%list_elem_of_singleton. vm_compute. by eexists.
  - intros o b Eb. assert (o = 1%positive ∧ b = kill_block (add_ref 1 staff)) as [-> ->]; [|vm_compute; reflexivity].
    assert (alter kill_block 1%positive (conf_opers held) = {[1%positive := kill_block (add_ref 1 staff)]}) as E by (vm_compute; reflexivity).
    rewrite E in Eb. by apply lookup_singleton_Some in Eb as [<- <-].
Qed.

Lemma logout_leaves_dangling_witness :
  ∃ w', oper_logout 3 dropped = Ok tt w' ∧ find_conf_oper "dave" "away.example" "hub.example" None w' = Fault Dangling.
Proof.
  destruct (clients dropped !! 3%positive) as [c|] eqn:Ec; [|vm_compute in Ec; discriminate].
  destruct (cl_user c) as [u|] eqn:Eu; [|vm_compute in Ec; injection Ec as <-; discriminate].
  assert (us_oper u = Some 1%positive) as Eo by (vm_compute in Ec; injection Ec as <-; by injection Eu as <-).
  destruct (conf_opers dropped !! 1%positive) as [b|] eqn:Eb; [|vm_compute in Eb; discriminate].
  assert (ConfDead b = true ∧ oper_refcount b = 1) as [Hd Hr] by (vm_compute in Eb; by injection Eb as <-).
  pose proof (logout_leaves_dangling dropped 5 3 c u 1 b [] dropped_ready Ec Eu Eo Eb Hd Hr eq_refl) as H.
  destruct (oper_logout 3 dropped) as [[] w'|?|?] eqn:E; [|vm_compute in E; discriminate..].
  exists w'. split; [reflexivity|]. apply (wp_elim _ _ _ tt _ H E).
Defined.

Lemma merged_commands_found_witness :
  ∃ i e, bsearch "Die" (table (sr_command (merge_service (ServiceHandler (Some desk_commands) None)
      (desk_service <| sr_command := Some [ServiceCommand "OSPART" None 1 None 0 0 false true 0] |>)))) = Some (i, e) ∧
    e ∈ desk_commands.
Proof.
  pose proof (merged_commands_found (ServiceHandler (Some desk_commands) None)
    (desk_service <| sr_command := Some [ServiceCommand "OSPART" None 1 None 0 0 false true 0] |>) "Die") as H.
  destruct (bsearch "Die" _) as [[i e]|] eqn:E; [|vm_compute in E; discriminate].
  exists i, e. split; [reflexivity|]. destruct H as (_ & Hn & [Hin|Hin]); [reflexivity|repeat constructor..| |exact Hin].
  apply list_elem_of_singleton in Hin as ->. vm_compute in Hn. discriminate.
Defined.

Lemma unmerge_merged_witness :
  let h := ServiceHandler (Some desk_commands) None in
  unmerge_service (merge_service h (merge_service h desk_service)) = desk_service.
Proof.
  intros h. apply (unmerge_merged h [h] desk_service); [discriminate|reflexivity|reflexivity|]. right. repeat constructor.
Defined.
