(* ===== verification/Uplink.v ===== *)
(** * What the uplink can do to the program

    Lines that make a handler read through a null pointer, a connection that is
    refused and yet read on, one that goes on without its client: the assumptions of
    the theorem on all lines are needed.  And the handshake, after which the services
    are on the network. *)

From S2P Require Import Prelude CString Match Rblib Tools Fault World Lookup Service Client Scommand Queries Link Net Members Index Handlers Exits Commands Replies Sample Release Linkup Network Access.

Section faults.
Context `{SYS : Sys} `{RB : !RbSpec}.

(** A WHOIS by a user for a nick that nobody has ends in a fault: [c_whois()]
    answers 401 and then prints the name of the client that it did not find. *)
Theorem whois_unknown_faults (w : world) (p : ptr) (c : client) (u : user) (server nick : string) :
  net_inv w → clients w !! p = Some c → cl_user c = Some u → nick ≠ ""%string → no_nul nick = true →
  (∀ q c', clients w !! q = Some c' → on_net c' = true →
     irccmp (cl_name c') nick ≠ 0 ∧ irccmp (cl_uid c') nick ≠ 0) →
  c_whois p [server; nick] w = Fault NullDeref.
Proof.
  intros Hw Ec Eu Hne Hnul Hnone. eapply whois_nobody; [exact Ec|exact Eu|done|done|done|].
  by apply find_nobody.
Qed.

Lemma keeps_upd_service p f : keeps server_p (upd_service p f).
Proof. unfold upd_service, service_of. keeps_tac. by apply keeps_modify. Qed.
Lemma keeps_del_client p : keeps server_p (del_client p).
Proof. unfold del_client. keeps_tac; by apply keeps_modify. Qed.

(** The sign-off of a connection without a server behind it only marks it. *)
Lemma signoff_marks w l w' :
  server_p w = Some l → ConnDead l = false → lc_client_p l = None → signoff_server w = Ok tt w' →
  server_p w' = Some (l <| lc_flags ::= fun f => set_flag f CONN_DEAD |>).
Proof.
  intros El Hd Hc. unfold signoff_server. erewrite bind_ok by done. rewrite El. erewrite bind_ok by done. rewrite Hd, Hc.
  erewrite bind_ok by done. set (w1 := w <| server_p := _ |>). intros E.
  assert (keeps server_p (_ ← foreach service_list (fun service_p =>
        _ ← upd_service service_p (fun s => s <| sr_status ::= fun x => clear_flag x SERVICE_INTRODUCED |>);
        del_client service_p); mret tt)) as Hk.
  { apply keeps_bind; [|intros; apply keeps_ret]. apply keeps_foreach. intros x.
    apply keeps_bind; [apply keeps_upd_service|]. intros _. apply keeps_del_client. }
  by rewrite (Hk _ _ _ E).
Qed.

(** A PASS with the right password that does not name a server id is refused:
    the connection is marked dead.  But [read_server()] asks for the flag of a dead
    client, so it reads on; the SERVER that follows passes all checks, and
    [c_server()] copies the server id that there is none of. *)
Theorem refused_link_faults (w w1 : world) (l : lconn) (hops info : string) (rest : list string) :
  server_p w = Some l → ConnDead l = false → IsDead l = false → lc_client_p l = None → lc_sid l = None →
  no_nul (lc_name l) = true → (strlen (lc_name l) ≤ HOSTLEN)%nat → no_nul (lc_pass l) = true →
  c_pass None [lc_pass l; "TS"%string] w = Ok tt w1 →
  (∃ l1, server_p w1 = Some l1 ∧ ConnDead l1 = true ∧ IsDead l1 = false) ∧
  c_server None (lc_name l :: hops :: info :: rest) w1 = Fault NullDeref.
Proof.
  intros El Hd Hid Hc Hsid Hn Hlen Hp E. set (fl := set_flag (set_flag (lc_flags l) CONN_TS) CONN_DEAD).
  assert (server_p w1 = Some (l <| lc_flags := fl |>)) as E1.
  { revert E. unfold c_pass. cbn [length Nat.ltb Nat.leb]. erewrite bind_ok by done. rewrite El. erewrite bind_ok by done.
    erewrite bind_ok by done. rewrite (proj2 (strcmp_eq _ _ Hp Hp)) by done. cbn [Z.eqb negb]. erewrite bind_ok by done.
    change (strcasecmp "TS" "TS" =? 0) with true. cbn [negb].
    erewrite bind_ok; [|unfold upd_server_p; erewrite bind_ok by done; rewrite El; by erewrite bind_ok].
    erewrite bind_ok by done. unfold refuse_server. erewrite bind_ok by done. cbn [server_p]. erewrite bind_ok by done.
    erewrite bind_ok by done. intros E.
    apply (signoff_marks _ (l <| lc_flags ::= fun f => set_flag f CONN_TS |>)) in E; [exact E|done| |exact Hc].
    unfold ConnDead. simpl. by rewrite has_flag_set_other. }
  split.
  { eexists. split; [exact E1|]. unfold ConnDead, IsDead, fl in *. simpl. rewrite has_flag_set_same by done.
    by rewrite !has_flag_set_other. }
  unfold c_server. rewrite (proj2 (Nat.ltb_ge (length _) 3)) by (simpl; lia). erewrite bind_ok by done.
  rewrite (proj2 (Nat.ltb_ge HOSTLEN _)) by done. erewrite bind_ok.
  2:{ unfold uplink_ok. erewrite bind_ok by done. rewrite E1. erewrite bind_ok by done.
      unfold fl. simpl. rewrite has_flag_set_other, has_flag_set_same by done. cbn [negb].
      rewrite (proj2 (irccmp_lower _ _ Hn Hn)) by done. cbn [Z.eqb negb]. erewrite bind_ok; [done|].
      unfold upd_server_p. erewrite bind_ok by done. rewrite E1. by erewrite bind_ok. }
  cbn [negb]. do 3 (erewrite bind_ok by done). apply bind_fault. erewrite bind_ok by done. simpl. by rewrite Hsid.
Qed.

(** A connection that a failed write marked dead: the sign-off leaves the services
    as they are, and the next check forgets the connection. *)
Theorem dead_link_stays (w : world) (l : lconn) :
  server_p w = Some l → ConnDead l = true → lc_client_p l = None →
  signoff_server w = Ok tt w ∧ check_server_status w = Ok tt (w <| server_p := None |>).
Proof.
  intros El Hd Hc. unfold signoff_server, check_server_status. split.
  - erewrite bind_ok by done. rewrite El. erewrite bind_ok by done. by rewrite Hd.
  - erewrite bind_ok by done. rewrite El, Hd, Hc. cbn [negb]. by erewrite bind_ok.
Qed.

(** C40.  The uplink's own SQUIT takes it off the network, but the connection goes on
    pointing to it.  Once the exited clients are freed the next check of the link
    reads the freed client, and so does a sign-off. *)
Theorem stale_uplink_faults (w : world) (l : lconn) (p : ptr) :
  good w → server_p w = Some l → ConnDead l = false → lc_client_p l = Some p → filed_kind (ids w) KServer false p →
  ∃ w', cleanup_exited_clients w = Ok tt w' ∧ good w' ∧ check_server_status w' = Fault Dangling.
Proof.
  intros Hw El Hd Hl Hp. pose proof (cleanup_run w (proj1 Hw)) as E. exists (released w). split; [exact E|].
  split; [by apply (wp_elim _ _ _ tt _ (cleanup_good w Hw) E)|].
  unfold check_server_status. erewrite bind_ok by done. change (server_p (released w)) with (server_p w). rewrite El, Hd. cbn [negb].
  apply bind_fault. unfold uplink_dead. rewrite Hl. apply bind_fault. unfold rd. erewrite bind_ok by done.
  unfold released. cbn. rewrite lookup_drop_clients, decide_True; [done|].
  apply (tab_exited w (ni_tables _ (proj1 Hw))). by right.
Qed.
End faults.

Section handshake.
Context `{SYS : Sys} `{RB : !RbSpec} `{HK : !HooksOk}.

(** C11.  The services get onto the network.  When the uplink that the connection was made to
    introduces itself, and no service is introduced yet, then the network is sound,
    the uplink is on it, and of the services exactly those that are not switched off
    are on it, each found under its name. *)
Theorem services_come_up (w : world) (l : lconn) (name sid hops : string) (rest : list string) :
  good w → off_line w → accepted w l name sid → parv_ok (name :: hops :: rest) → rest ≠ [] →
  wp (c_server None (name :: hops :: rest)) (fun _ w' => good w' ∧ uplink_live w' ∧
    ∀ p c s, clients w' !! p = Some c → cl_service c = Some s →
      on_net c = negb (has_flag (sr_flags s) SERVICE_DISABLED) ∧
      (on_net c = true → p ∈ bucket (name_table w') (hash_name (cl_name c)))) w.
Proof.
  intros Hw Hoff Ha Hp Hr. eapply wp_conseq; [by eapply c_server_links|]. cbn beta. intros _ w' (Hw' & Hup & Hsv).
  split; [done|]. split; [done|]. intros p c s Ec Es. split; [by eapply Hsv|]. intros Hn.
  apply (tab_name w' (ni_tables _ (proj1 Hw'))). exists (ident_of c). split; [by apply ids_of|]. by split.
Qed.
End handshake.

#[local] Existing Instance quiet_sys.
#[local] Existing Instance rb_reference_spec.

Lemma whois_unknown_faults_witness :
  c_whois 3 ["hub.example"; "nobody"]%string sample = Fault NullDeref.
Proof.
  destruct (clients sample !! 3%positive) as [c|] eqn:Ec; [|vm_compute in Ec; discriminate].
  destruct (cl_user c) as [us|] eqn:Eu; [|injection Ec as <-; vm_compute in Eu; discriminate].
  apply (whois_unknown_faults sample 3 c us); [exact sample_net|exact Ec|exact Eu|discriminate|reflexivity|].
  intros q c' Eq _.
  assert (forallb (fun pc : ptr * client => negb (irccmp (cl_name pc.2) "nobody" =? 0) && negb (irccmp (cl_uid pc.2) "nobody" =? 0))
            (map_to_list (clients sample)) = true) as Hall by (vm_compute; reflexivity).
  rewrite forallb_forall in Hall. specialize (Hall (q, c')). rewrite <- list_elem_of_In, elem_of_map_to_list in Hall.
  specialize (Hall Eq). apply andb_true_iff in Hall as [H1 H2].
  split; apply Z.eqb_neq; by apply negb_true_iff.
Defined.

(** A link that is being made. *)
Definition shaking_world : world :=
  quiet_world <| server_p := Some (Lconn None "hub.example" None CONN_HANDSHAKE 0 0 "pw") |>.

Lemma refused_link_faults_witness :
  (∃ w1, c_pass None ["pw"; "TS"]%string shaking_world = Ok tt w1 ∧
     c_server None ["hub.example"; "1"; "hub"]%string w1 = Fault NullDeref) ∧
  read_server command_table [("PASS pw TS", 10); ("SERVER hub.example 1 :hub", 25)]%string shaking_world = Fault NullDeref.
Proof.
  split; [|vm_compute; reflexivity].
  destruct (c_pass None ["pw"; "TS"]%string shaking_world) as [[] w1|?|?] eqn:E; [|vm_compute in E; discriminate..].
  exists w1. split; [reflexivity|].
  apply (refused_link_faults shaking_world w1 (Lconn None "hub.example" None CONN_HANDSHAKE 0 0 "pw") "1" "hub" []);
    try reflexivity; [vm_compute; lia|exact E].
Defined.

Lemma stale_uplink_faults_witness :
  ∃ w1 w2, exit_client 1 true sample = Ok tt w1 ∧ cleanup_exited_clients w1 = Ok tt w2 ∧ check_server_status w2 = Fault Dangling.
Proof.
  destruct (exit_client 1 true sample) as [[] w1|?|?] eqn:E; [|vm_compute in E; discriminate..].
  pose proof (good_exit_kind sample 1 KServer true sample_good ltac:(there) (or_intror eq_refl)) as Hw.
  apply (wp_elim _ _ _ tt _) with (2 := E) in Hw.
  assert (match exit_client 1 true sample with Ok _ w => server_p w | _ => None end = server_p sample) as El by (vm_compute; reflexivity).
  assert (match exit_client 1 true sample with
          | Ok _ w => (fun c => (kind_of c, on_net c)) <$> clients w !! 1%positive | _ => None end = Some (KServer, false)) as Hc
    by (vm_compute; reflexivity).
  rewrite E in El, Hc. destruct (clients w1 !! 1%positive) as [c|] eqn:Ec; [|done]. injection Hc as Hk Hn.
  assert (filed_kind (ids w1) KServer false 1) as Hp by (exists (ident_of c); split; [by apply ids_of|by split]).
  exists w1. destruct (stale_uplink_faults w1 _ 1 Hw El eq_refl eq_refl Hp) as (w2 & E2 & _ & E3).
  exists w2. by split.
Defined.

(** A program with one service that is about to be linked. *)
Definition linking_world : world :=
  (insert_service 5 operserv linked_world)
    <| server_p := Some (Lconn None "hub.example" (Some "1AA"%string) (Z.lor CONN_HANDSHAKE CONN_TS) 0 0 "") |>.

Lemma services_come_up_witness :
  ∃ w', c_server None ["hub.example"; "1"; "hub"]%string linking_world = Ok tt w' ∧
    ∃ c, clients w' !! 5%positive = Some c ∧ on_net c = true.
Proof.
  set (l := Lconn None "hub.example" (Some "1AA"%string) (Z.lor CONN_HANDSHAKE CONN_TS) 0 0 "").
  assert (good linking_world) as Hw.
  { apply good_server_p. by apply (insert_service_good linked_world 5 operserv desk_service), linked_world_good. }
  assert (off_line linking_world) as Hoff.
  { intros p i Ei _. unfold ids in Ei. apply lookup_fmap_Some in Ei as (c & <- & Ec).
    change (clients linking_world) with ({[5%positive := operserv]} : gmap ptr client) in Ec.
    by apply lookup_singleton_Some in Ec as [_ <-]. }
  assert (accepted linking_world l "hub.example" "1AA") as Ha by (by split).
  pose proof (services_come_up linking_world l "hub.example" "1AA" "1" ["hub"%string] Hw Hoff Ha) as H.
  destruct (c_server None ["hub.example"; "1"; "hub"]%string linking_world) as [[] w'|?|?] eqn:E; [|vm_compute in E; discriminate..].
  exists w'. split; [reflexivity|].
  destruct (wp_elim _ _ _ tt _ (H ltac:(repeat constructor) ltac:(discriminate)) E) as (_ & _ & Hsv).
  assert (match c_server None ["hub.example"; "1"; "hub"]%string linking_world with
          | Ok _ w => match clients w !! 5%positive with Some c => sr_flags <$> cl_service c | None => None end
          | _ => None end = Some 0) as Hs by (vm_compute; reflexivity).
  rewrite E in Hs. destruct (clients w' !! 5%positive) as [c|] eqn:Ec; [|done]. destruct (cl_service c) as [s|] eqn:Es; [|done].
  injection Hs as Hs. exists c. split; [done|]. destruct (Hsv _ c s Ec Es) as [-> _]. by rewrite Hs.
Defined.
