(* ===== verification/ChanServ.v ===== *)
(** * Channel registrations and access lists ([src/s_chanserv.c], first part)

    The registrations of channels, the access of registered users to them with its
    level, flags and suspension, and the commands that change them: registering and
    dropping a channel, adding, changing, suspending and deleting users, giving up
    ownership, and what operators do with registrations.  The parts of
    [src/s_userserv.c] that look registrations of users up are here as well, and
    [src/email.c].

    The data of the service is [chanserv], a part of the services' own data of the
    state that the class [ChanServ] finds there, so that the commands are functions of
    the state like all others.  [ureg_p->channels] and [ureg_p->email] are kept by the
    address of the registration.  Statements run on the database of [Rsdb.v].  The
    commands are those of a user ([conn_p] is NULL): the partyline is not modelled.
    The log file of the service is not modelled either, nor are the bans, topics and
    modes that the service sets. *)

From S2P Require Import Prelude CString Match Rblib Tools Rserv Fault Snprintf Rsdb Notices World Crypt Lookup Channel Service Dispatch.

Definition S_C_OWNER : Z := 200.
Definition S_C_USERLIST : Z := 150.
Definition S_C_CLEAR : Z := 140.
Definition S_C_SUSPEND : Z := 100.
Definition S_C_OP : Z := 50.

Definition CS_FLAGS_SUSPENDED : Z := 0x0001.
Definition CS_FLAGS_NEEDUPDATE : Z := 0x00010000.
Definition CS_MEMBER_AUTOOP : Z := 0x001.
Definition CS_MEMBER_AUTOVOICE : Z := 0x002.
Definition CS_MEMBER_ALL : Z := 0x003.
Definition US_FLAGS_NOACCESS : Z := 0x0008.
Definition SERVICE_WALLOPADM : Z := 0x040.
Definition SUSPENDREASONLEN : nat := 200.

(** A line feed. *)
Definition nl : string := String "010" "".

(** The number of a notice. *)
Definition SVC (name : string) : Z := Z.of_nat (default O (svc_id name)).

(** ** Data *)
Record chan_reg := ChanReg {
  cr_name : string;
  cr_topic : option string;
  cr_url : option string;
  cr_suspender : option string;
  cr_suspend_reason : option string;
  cr_suspend_time : Z;
  cr_cmode : chmode;
  cr_emode : chmode;
  cr_flags : Z;
  cr_tsinfo : Z;
  cr_reg_time : Z;
  cr_last_time : Z;
  cr_bants : Z;
  cr_users : list ptr;
  cr_bans : list ptr
}.
#[export] Instance eta_chan_reg : Eta chan_reg := fun r =>
  ChanReg (cr_name r) (cr_topic r) (cr_url r) (cr_suspender r) (cr_suspend_reason r) (cr_suspend_time r)
    (cr_cmode r) (cr_emode r) (cr_flags r) (cr_tsinfo r) (cr_reg_time r) (cr_last_time r) (cr_bants r)
    (cr_users r) (cr_bans r).

Record member_reg := MemberReg {
  mr_user_reg : ptr;
  mr_channel_reg : ptr;
  mr_level : Z;
  mr_flags : Z;
  mr_suspend : Z;
  mr_bants : Z;
  mr_lastmod : string
}.
#[export] Instance eta_member_reg : Eta member_reg := fun r =>
  MemberReg (mr_user_reg r) (mr_channel_reg r) (mr_level r) (mr_flags r) (mr_suspend r) (mr_bants r) (mr_lastmod r).

Record ban_reg := BanReg {
  br_mask : string;
  br_reason : string;
  br_username : string;
  br_level : Z;
  br_hold : Z;
  br_marked : Z
}.

(** The settings that these commands read. *)
Record chan_config := ChanConfig {
  cf_disable_cregister : bool;
  cf_cregister_time : Z;
  cf_cregister_amount : Z;
  cf_chregister_time : Z;
  cf_chregister_amount : Z;
  cf_ctime_lock : Z;
  cf_cdelowner_duration : Z;
  cf_cemail_delowner : bool;
  cf_disable_email : bool;
  cf_email_program : option string;
  cf_email_number : Z;
  cf_email_duration : Z
}.

Definition zero_chan_reg : chan_reg := ChanReg "" None None None None 0 zero_chmode zero_chmode 0 0 0 0 0 [] [].

(** The heaps, the tables and lists, [static] variables of [s_chan_register()] and of
    [email.c], and the settings. *)
Record chanserv := Chanserv {
  chanserv_p : ptr;
  userserv_p : ptr;
  chan_regs : gmap ptr chan_reg;
  member_regs : gmap ptr member_reg;
  ban_regs : gmap ptr ban_reg;
  chan_reg_table : gmap Z (list ptr);
  user_reg_table : gmap Z (list ptr);
  ureg_channels : gmap ptr (list ptr);
  ureg_email : gmap ptr string;
  cs_last_time : Z;
  cs_last_count : Z;
  email_last : Z;
  email_count : Z;
  cs_config : chan_config
}.
#[export] Instance eta_chanserv : Eta chanserv := fun r =>
  Chanserv (chanserv_p r) (userserv_p r) (chan_regs r) (member_regs r) (ban_regs r) (chan_reg_table r) (user_reg_table r)
    (ureg_channels r) (ureg_email r) (cs_last_time r) (cs_last_count r) (email_last r) (email_count r)
    (cs_config r).

(** Where the service's data and the database are among the services' own data, the
    numbers that [rand()] returns next and the program that sends mail, which may
    fail with a line for the log. *)
Class ChanServ `{SYS : Sys} := {
  cs_sqlite :: Sqlite;
  cs_get : mod_state → chanserv;
  cs_set : chanserv → mod_state → mod_state;
  db_get : mod_state → database;
  db_set : database → mod_state → mod_state;
  cs_get_set c m : cs_get (cs_set c m) = c;
  db_get_set d m : db_get (db_set d m) = d;
  cs_get_db_set d m : cs_get (db_set d m) = cs_get m;
  db_get_cs_set c m : db_get (cs_set c m) = db_get m;
  rand : world → nat → Z;
  rand_spec w i : 0 ≤ rand w i;
  mailer : world → string → string → string → option string
}.

Section chanserv.
Context `{SYS : Sys} `{CS : !ChanServ}.

Definition cs (w : world) : chanserv := cs_get (mods w).
Definition upd_cs (f : chanserv → chanserv) : M world unit :=
  modify (fun w => w <| mods ::= fun m => cs_set (f (cs_get m)) m |>).

(** A computation on the database. *)
Definition on_db {A} (m : M database A) : M world A := fun w =>
  match m (db_get (mods w)) with
  | Ok a d => Ok a (w <| mods ::= db_set d |>)
  | Die why => Die why
  | Fault f => Fault f
  end.
Definition db_exec (format : string) (args : list fmt_arg) : M world unit := on_db (rsdb_exec format args).

Definition chan_reg_at (p : ptr) : M world chan_reg := rd (fun w => chan_regs (cs w)) p.
Definition member_reg_at (p : ptr) : M world member_reg := rd (fun w => member_regs (cs w)) p.
Definition ureg_name (p : ptr) : M world string := r ← rd user_regs p; mret (ur_name r).
Definition upd_chan_reg (p : ptr) (f : chan_reg → chan_reg) : M world unit :=
  _ ← chan_reg_at p; upd_cs (fun c => c <| chan_regs ::= alter f p |>).
Definition upd_member_reg (p : ptr) (f : member_reg → member_reg) : M world unit :=
  _ ← member_reg_at p; upd_cs (fun c => c <| member_regs ::= alter f p |>).

(** [ureg_p->channels], [chreg_p->users] and [chreg_p->bans]. *)
Definition channels_of_ureg (u : ptr) (w : world) : list ptr := default [] (ureg_channels (cs w) !! u).
Definition upd_ureg_channels (u : ptr) (f : list ptr → list ptr) : M world unit :=
  _ ← rd user_regs u;
  upd_cs (fun c => c <| ureg_channels ::= fun t => <[u := f (default [] (t !! u))]> t |>).
Definition users_of_creg (p : ptr) (w : world) : list ptr :=
  match chan_regs (cs w) !! p with Some r => cr_users r | None => [] end.
Definition bans_of_creg (p : ptr) (w : world) : list ptr :=
  match chan_regs (cs w) !! p with Some r => cr_bans r | None => [] end.

Definition chan_err (client_p : ptr) (name : string) (args : list string) : M world unit :=
  c ← gets cs; service_err (chanserv_p c) client_p (SVC name) args.

(** [zlog()], apart from the log file of the service. *)
Definition zlog (service_p : ptr) (loglevel watchlevel : Z) (oper : bool) (client_p : ptr) (text : string) : M world unit :=
  s ← service_of service_p;
  svc ← rd clients service_p;
  _ ← when ((loglevel =? 1) && has_flag (sr_flags s) SERVICE_WALLOPADM)
        (u ← user_of client_p;
         name ← OPER_NAME u;
         mask ← need NullDeref (us_mask u);
         w ← get;
         sendto_server (":" ++ MYUID w ++ " WALLOPS :" ++ cl_name svc ++ ": " ++ name ++ " " ++ mask ++ " " ++
           str_take (BUFSIZE - 1) text));
  when (negb (watchlevel =? 0)) (watch_send watchlevel client_p oper (str_take (BUFSIZE - 1) text)).
Definition chan_log (loglevel watchlevel : Z) (oper : bool) (client_p : ptr) (text : string) : M world unit :=
  c ← gets cs; zlog (chanserv_p c) loglevel watchlevel oper client_p text.

(** ** Registrations of users ([s_userserv.c]) *)
Definition user_reg_is (name : string) (p : ptr) : M world bool :=
  r ← rd user_regs p; mret (strcasecmp (ur_name r) name =? 0).

Definition find_user_reg (client_p : option ptr) (username : string) : M world (option ptr) :=
  c ← gets cs;
  r ← find_first (user_reg_is username) (bucket (user_reg_table c) (hash_name username));
  match r, client_p with
  | None, Some client_p => _ ← service_err (userserv_p c) client_p (SVC "SVC_USER_NOTREG") [username]; mret None
  | _, _ => mret r
  end.

(** A registration by its name, or by [=] and the nick of a user logged in to it. *)
Definition find_user_reg_nick (client_p : option ptr) (name : string) : M world (option ptr) :=
  if Ascii.eqb (deref name) "=" then
    target_p ← find_user (tail name) false;
    reg ← match target_p with None => mret None | Some t => u ← user_of t; mret (us_user_reg u) end;
    match reg, client_p with
    | None, Some client_p =>
      c ← gets cs;
      _ ← service_err (userserv_p c) client_p (SVC "SVC_USER_NICKNOTLOGGEDIN") [tail name]; mret None
    | _, _ => mret reg
    end
  else find_user_reg client_p name.

(** ** Mail ([email.c]) *)
Definition can_send_email : M world bool :=
  w ← get;
  if email_last (cs w) + cf_email_duration (cs_config (cs w)) <? rb_time w then
    _ ← upd_cs (fun c => c <| email_last := rb_time w |> <| email_count := 0 |>); mret true
  else mret (email_count (cs w) <? cf_email_number (cs_config (cs w))).

Definition send_email (address subject text : string) : M world bool :=
  c ← gets cs;
  if cf_disable_email (cs_config c) then mret false else
  can ← can_send_email;
  if negb can then mret false else
  _ ← upd_cs (fun c => c <| email_count ::= fun n => int32 (n + 1) |>);
  if is_empty (cf_email_program (cs_config c)) then
    _ ← mlog "warning: unable to send email, email program is not set"; mret false
  else
    w ← get;
    match mailer w address subject text with
    | None => mret true
    | Some why => _ ← mlog why; mret false
    end.

(** ** Registrations of channels *)
Definition free_ban_reg (chreg_p banreg_p : ptr) : M world unit :=
  _ ← upd_chan_reg chreg_p (fun r => r <| cr_bans ::= rb_dlinkDelete banreg_p |>);
  upd_cs (fun c => c <| ban_regs ::= delete banreg_p |>).

Definition free_channel_reg (reg_p : ptr) : M world unit :=
  r ← chan_reg_at reg_p;
  let name := cr_name r in
  c ← gets cs;
  _ ← part_service (chanserv_p c) name;
  _ ← db_exec "DELETE FROM channels_dropowner WHERE chname='%Q'" [ArgStr (Some name)];
  _ ← db_exec "DELETE FROM bans WHERE chname = '%Q'" [ArgStr (Some name)];
  _ ← foreach_safe (bans_of_creg reg_p) (free_ban_reg reg_p);
  _ ← upd_cs (fun c => c <| chan_reg_table ::= upd_bucket (hash_channel name) (rb_dlinkDelete reg_p) |>);
  _ ← db_exec "DELETE FROM channels WHERE chname = '%Q'" [ArgStr (Some name)];
  upd_cs (fun c => c <| chan_regs ::= delete reg_p |>).

(** The highest of the members who are not suspended, and of those who are. *)
Fixpoint find_top (l : list ptr) (top topsus : option ptr) : M world (option ptr * option ptr) :=
  match l with
  | [] => mret (top, topsus)
  | p :: l =>
    m ← member_reg_at p;
    let above q := match q with
                   | None => mret true
                   | Some q => mq ← member_reg_at q; mret (mr_level mq <? mr_level m)
                   end in
    if negb (mr_suspend m =? 0) then b ← above topsus; find_top l top (if (b : bool) then Some p else topsus)
    else b ← above top; find_top l (if (b : bool) then Some p else top) topsus
  end.

(** Ownership of a channel passes to the highest of its users. *)
Definition promote (r : chan_reg) : M world unit :=
  t ← find_top (cr_users r) None None;
  top ← match t with
        | (None, Some topsus) => _ ← upd_member_reg topsus (fun m => m <| mr_suspend := 0 |>); mret (Some topsus)
        | (top, _) => mret top
        end;
  mreg_top ← need NullDeref top;
  w ← get;
  let myname := cf_name (config_file w) in
  _ ← upd_member_reg mreg_top (fun m => m <| mr_level := S_C_OWNER |> <| mr_lastmod := myname |>);
  mt ← member_reg_at mreg_top;
  name ← ureg_name (mr_user_reg mt);
  db_exec "UPDATE members SET level = '%d', suspend = '0', lastmod = '%Q' WHERE chname = '%Q' AND username = '%Q'"
    [ArgInt (mr_level mt); ArgStr (Some myname); ArgStr (Some (cr_name r)); ArgStr (Some name)].

Definition free_member_reg (mreg_p : ptr) (upgrade : bool) : M world unit :=
  m ← member_reg_at mreg_p;
  let chreg_p := mr_channel_reg m in
  _ ← upd_ureg_channels (mr_user_reg m) (rb_dlinkDelete mreg_p);
  _ ← upd_chan_reg chreg_p (fun r => r <| cr_users ::= rb_dlinkDelete mreg_p |>);
  _ ← upd_cs (fun c => c <| member_regs ::= delete mreg_p |>);
  r ← chan_reg_at chreg_p;
  if is_nil (cr_users r) then free_channel_reg chreg_p
  else if (mr_level m =? S_C_OWNER) && upgrade then promote r
  else mret tt.

Definition destroy_channel_reg (reg_p : ptr) : M world unit :=
  r ← chan_reg_at reg_p;
  _ ← db_exec "DELETE FROM members WHERE chname = '%Q'" [ArgStr (Some (cr_name r))];
  foreach_safe (users_of_creg reg_p) (fun mreg_p => free_member_reg mreg_p false).

Definition add_channel_reg (reg_p : ptr) : M world unit :=
  r ← chan_reg_at reg_p;
  _ ← upd_chan_reg reg_p (fun r => r <| cr_bants := 1 |>);
  upd_cs (fun c => c <| chan_reg_table ::= upd_bucket (hash_channel (cr_name r)) (rb_dlinkAdd reg_p) |>).

(** [rb_bh_alloc()] and [init_channel_reg()]. *)
Definition init_channel_reg (name : string) : M world ptr :=
  p ← gets (fun w => rb_bh_alloc (dom (chan_regs (cs w))));
  chptr ← find_channel name;
  now ← gets rb_time;
  tsinfo ← match chptr with None => mret now | Some chptr => ch ← rd channels chptr; mret (ch_tsinfo ch) end;
  _ ← upd_cs (fun c => c <| chan_regs ::= <[p := zero_chan_reg <| cr_name := name |> <| cr_tsinfo := tsinfo |>
        <| cr_reg_time := now |> <| cr_last_time := now |>
        <| cr_cmode ::= fun m => m <| cm_mode := Z.lor MODE_TOPIC MODE_NOEXTERNAL |> |>]> |>);
  _ ← add_channel_reg p;
  _ ← db_exec "INSERT INTO channels (chname, tsinfo, reg_time, last_time, flags, createmodes) VALUES('%Q', '%lu', '%lu', '%lu', '0', '%Q')"
        [ArgStr (Some name); ArgULong tsinfo; ArgULong now; ArgULong now; ArgStr (Some "+nt"%string)];
  mret p.

Definition chan_reg_is (name : string) (p : ptr) : M world bool :=
  r ← chan_reg_at p; mret (irccmp (cr_name r) name =? 0).

Definition find_channel_reg (client_p : option ptr) (name : string) : M world (option ptr) :=
  c ← gets cs;
  r ← find_first (chan_reg_is name) (bucket (chan_reg_table c) (hash_channel name));
  match r, client_p with
  | None, Some client_p => _ ← chan_err client_p "SVC_CHAN_NOTREG" [name]; mret None
  | _, _ => mret r
  end.

(** ** Access to channels *)
Definition make_member_reg (ureg_p chreg_p : ptr) (lastmod : string) (level flags : Z) : M world ptr :=
  p ← gets (fun w => rb_bh_alloc (dom (member_regs (cs w))));
  _ ← upd_cs (fun c => c <| member_regs ::= <[p := MemberReg ureg_p chreg_p level flags 0 0 lastmod]> |>);
  _ ← upd_ureg_channels ureg_p (rb_dlinkAdd p);
  _ ← upd_chan_reg chreg_p (fun r => r <| cr_users ::= rb_dlinkAdd p |>);
  mret p.

Definition access_to (chreg_p p : ptr) : M world bool :=
  m ← member_reg_at p; mret (bool_decide (mr_channel_reg m = chreg_p)).

Definition find_member_reg (ureg_p : option ptr) (chreg_p : ptr) : M world (option ptr) :=
  match ureg_p with
  | None => mret None
  | Some u => _ ← rd user_regs u; l ← gets (channels_of_ureg u); find_first (access_to chreg_p) l
  end.

Definition CHAN_SUSPEND_EXPIRED (now : Z) (r : chan_reg) : bool :=
  has_flag (cr_flags r) CS_FLAGS_SUSPENDED && negb (cr_suspend_time r =? 0) && (cr_suspend_time r <=? now).

Definition expire_chan_suspend (chreg_p : ptr) : M world unit :=
  now ← gets rb_time;
  _ ← upd_chan_reg chreg_p (fun r => r <| cr_flags ::= fun f => clear_flag f CS_FLAGS_SUSPENDED |>
        <| cr_suspender := None |> <| cr_suspend_reason := None |> <| cr_suspend_time := 0 |> <| cr_last_time := now |>);
  r ← chan_reg_at chreg_p;
  db_exec "UPDATE channels SET flags='%d', suspender=NULL, suspend_reason=NULL,suspend_time='0', last_time='%lu' WHERE chname='%Q'"
    [ArgInt (cr_flags r); ArgULong (cr_last_time r); ArgStr (Some (cr_name r))].

(** Whether a registration is closed to its users by a suspension, which ends here
    when its time is over. *)
Definition chan_suspended (chreg_p : ptr) : M world bool :=
  r ← chan_reg_at chreg_p;
  now ← gets rb_time;
  if has_flag (cr_flags r) CS_FLAGS_SUSPENDED then
    if negb (CHAN_SUSPEND_EXPIRED now r) then mret true
    else _ ← expire_chan_suspend chreg_p; mret false
  else mret false.

(** The member, and the channel where it was asked for. *)
Definition verify_member_reg (client_p : ptr) (chptr : bool) (chreg_p : ptr) (level : Z) (warn : bool) :
    M world (option (ptr * option ptr)) :=
  r ← chan_reg_at chreg_p;
  let fail name := _ ← when warn (chan_err client_p name [cr_name r]); mret None in
  ch ← (if chptr then find_channel (cr_name r) else mret None);
  if chptr && bool_decide (ch = None) then fail "SVC_IRC_NOSUCHCHANNEL"%string else
  sus ← chan_suspended chreg_p;
  if (sus : bool) then fail "SVC_CHAN_ISSUSPENDED"%string else
  u ← user_of client_p;
  mreg_p ← find_member_reg (us_user_reg u) chreg_p;
  match mreg_p with
  | None => fail "SVC_CHAN_NOACCESS"%string
  | Some mreg_p =>
    m ← member_reg_at mreg_p;
    if (mr_level m <? level) || negb (mr_suspend m =? 0) then fail "SVC_CHAN_NOACCESS"%string
    else
      now ← gets rb_time;
      _ ← upd_chan_reg (mr_channel_reg m) (fun r => r <| cr_last_time := now |>
            <| cr_flags ::= fun f => set_flag f CS_FLAGS_NEEDUPDATE |>);
      mret (Some (mreg_p, ch))
  end.

Definition verify_member_reg_name (client_p : ptr) (chptr : bool) (name : string) (level : Z) :
    M world (option (ptr * option ptr)) :=
  r ← find_channel_reg (Some client_p) name;
  match r with
  | None => mret None
  | Some chreg_p => verify_member_reg client_p chptr chreg_p level true
  end.

Definition check_member_reg (client_p : ptr) (chptr : bool) (name : string) (level : Z) :
    M world (option (ptr * option ptr)) :=
  r ← find_channel_reg None name;
  match r with
  | None => mret None
  | Some chreg_p => verify_member_reg client_p chptr chreg_p level false
  end.

Definition write_member_db_entry (p : ptr) : M world unit :=
  m ← member_reg_at p;
  r ← chan_reg_at (mr_channel_reg m);
  name ← ureg_name (mr_user_reg m);
  db_exec "INSERT INTO members (chname, username, lastmod, level, flags, suspend)  VALUES('%Q', '%Q', '%Q', '%u', '%d', '0')"
    [ArgStr (Some (cr_name r)); ArgStr (Some name); ArgStr (Some (mr_lastmod m)); ArgUInt (uint32 (mr_level m)); ArgInt (mr_flags m)].

Definition delete_member_db_entry (p : ptr) : M world unit :=
  m ← member_reg_at p;
  r ← chan_reg_at (mr_channel_reg m);
  name ← ureg_name (mr_user_reg m);
  db_exec "DELETE FROM members WHERE chname = '%Q' AND username = '%Q'" [ArgStr (Some (cr_name r)); ArgStr (Some name)].

(** ** Commands of operators *)
Definition new_owner (ureg_p chreg_p : ptr) (lastmod : string) : M world unit :=
  mreg_p ← make_member_reg ureg_p chreg_p lastmod 200 0;
  write_member_db_entry mreg_p.

Definition o_chan_chanregister (client_p : ptr) (parv : list string) : M world Z :=
  chan ← arg parv 0;
  r ← find_channel_reg None chan;
  match r with
  | Some _ => _ ← chan_err client_p "SVC_CHAN_ALREADYREG" [chan]; mret 0
  | None =>
    name ← arg parv 1;
    ureg_p ← find_user_reg_nick None name;
    match ureg_p with
    | None =>
      _ ← chan_err client_p (if Ascii.eqb (deref name) "=" then "SVC_USER_NICKNOTLOGGEDIN" else "SVC_USER_NOTREG") [name];
      mret 0
    | Some ureg_p =>
      rname ← ureg_name ureg_p;
      _ ← chan_log 1 WATCH_CSADMIN true client_p ("CHANREGISTER " ++ chan ++ " " ++ rname);
      chreg_p ← init_channel_reg chan;
      u ← user_of client_p;
      oname ← OPER_NAME u;
      _ ← new_owner ureg_p chreg_p oname;
      creg ← chan_reg_at chreg_p;
      _ ← chan_err client_p "SVC_CHAN_NOWREG" [cr_name creg]; mret 0
    end
  end.

Definition o_chan_chandrop (client_p : ptr) (parv : list string) : M world Z :=
  chan ← arg parv 0;
  r ← find_channel_reg None chan;
  match r with
  | None => _ ← chan_err client_p "SVC_CHAN_NOTREG" [chan]; mret 0
  | Some reg_p =>
    _ ← chan_log 1 WATCH_CSADMIN true client_p ("CHANDROP " ++ chan);
    _ ← destroy_channel_reg reg_p;
    c ← gets cs;
    svc ← rd clients (chanserv_p c);
    _ ← chan_err client_p "SVC_SUCCESSFULON" [cl_name svc; "CHANDROP"; chan]%string; mret 0
  end.

Definition o_chan_chansuspend (client_p : ptr) (parv : list string) : M world Z :=
  duration ← arg parv 0;
  let suspend_time := get_temp_time duration in
  let para := if suspend_time =? 0 then 0%nat else 1%nat in
  chan ← arg parv para;
  r ← find_channel_reg None chan;
  match r with
  | None => _ ← chan_err client_p "SVC_CHAN_NOTREG" [chan]; mret 0
  | Some reg_p =>
    sus ← chan_suspended reg_p;
    reg ← chan_reg_at reg_p;
    if (sus : bool) then
      _ ← chan_err client_p "SVC_CHAN_QUERYOPTIONALREADY" [cr_name reg; "SUSPEND"; "ON"]%string; mret 0
    else
      let reason := rebuild_params parv (para + 1) in
      if is_empty (Some reason) then
        _ ← chan_err client_p "SVC_NEEDMOREPARAMS" [cr_name reg; "CHANREGISTER"]%string; mret 0
      else
        _ ← chan_log 1 WATCH_CSADMIN true client_p ("CHANSUSPEND " ++ cr_name reg ++ " " ++ reason);
        u ← user_of client_p;
        oname ← OPER_NAME u;
        now ← gets rb_time;
        _ ← upd_chan_reg reg_p (fun r => r <| cr_flags ::= fun f => set_flag f CS_FLAGS_SUSPENDED |>
              <| cr_suspender := Some oname |> <| cr_suspend_reason := Some (rb_strndup SUSPENDREASONLEN reason) |>
              <| cr_last_time := now |>
              <| cr_suspend_time := if suspend_time =? 0 then 0 else now + suspend_time |>);
        reg ← chan_reg_at reg_p;
        _ ← db_exec "UPDATE channels SET flags='%d', suspender='%Q', suspend_reason='%Q', last_time='%lu', suspend_time='%lu' WHERE chname = '%Q'"
              [ArgInt (cr_flags reg); ArgStr (cr_suspender reg); ArgStr (cr_suspend_reason reg);
               ArgULong (cr_last_time reg); ArgULong (cr_suspend_time reg); ArgStr (Some (cr_name reg))];
        _ ← chan_err client_p "SVC_CHAN_CHANGEDOPTION" [cr_name reg; "SUSPEND"; "ON"]%string; mret 0
  end.

Definition o_chan_chanunsuspend (client_p : ptr) (parv : list string) : M world Z :=
  chan ← arg parv 0;
  r ← find_channel_reg None chan;
  match r with
  | None => _ ← chan_err client_p "SVC_CHAN_NOTREG" [chan]; mret 0
  | Some reg_p =>
    reg ← chan_reg_at reg_p;
    if negb (has_flag (cr_flags reg) CS_FLAGS_SUSPENDED) then
      _ ← chan_err client_p "SVC_CHAN_QUERYOPTIONALREADY" [cr_name reg; "SUSPEND"; "OFF"]%string; mret 0
    else
      _ ← chan_log 1 WATCH_CSADMIN true client_p ("CHANUNSUSPEND " ++ cr_name reg);
      now ← gets rb_time;
      _ ← upd_chan_reg reg_p (fun r => r <| cr_flags ::= fun f => clear_flag f CS_FLAGS_SUSPENDED |>
            <| cr_suspender := None |> <| cr_suspend_reason := None |> <| cr_last_time := now |>);
      reg ← chan_reg_at reg_p;
      _ ← db_exec "UPDATE channels SET flags='%d',suspender=NULL,suspend_reason=NULL,last_time='%lu' WHERE chname = '%Q'"
            [ArgInt (cr_flags reg); ArgULong (cr_last_time reg); ArgStr (Some (cr_name reg))];
      _ ← chan_err client_p "SVC_CHAN_CHANGEDOPTION" [cr_name reg; "SUSPEND"; "OFF"]%string; mret 0
  end.

(** ** REGISTER *)

(** A channel that is there, with the user opped in it. *)
Definition opped_on (client_p : ptr) (chan : string) : M world (option ptr) :=
  r ← find_channel chan;
  match r with
  | None => mret None
  | Some chptr =>
    mptr ← find_chmember chptr client_p;
    match mptr with
    | None => mret None
    | Some mptr => m ← rd members mptr; mret (if is_opped m then Some chptr else None)
    end
  end.

(** The limit of registrations in all: whether this one is beyond it. *)
Definition register_limited : M world bool :=
  w ← get;
  let cf := cs_config (cs w) in
  if negb (cf_cregister_time cf =? 0) && negb (cf_cregister_amount cf =? 0) then
    if cs_last_time (cs w) + cf_cregister_time cf <? rb_time w then
      _ ← upd_cs (fun c => c <| cs_last_time := rb_time w |> <| cs_last_count := 1 |>); mret false
    else if cf_cregister_amount cf <=? cs_last_count (cs w) then mret true
    else _ ← upd_cs (fun c => c <| cs_last_count ::= fun n => int32 (n + 1) |>); mret false
  else mret false.

Definition upd_host (p : ptr) (f : host_entry → host_entry) : M world unit :=
  _ ← rd hosts p; modify (fun w => w <| hosts ::= alter f p |>).
Definition set_cregister (n expire : Z) (h : host_entry) : host_entry :=
  HostEntry (he_name h) (he_flood h) (he_flood_expire h) n expire (he_uregister h) (he_uregister_expire h).

(** The same for the user's host. *)
Definition host_limited (client_p : ptr) : M world bool :=
  c ← gets cs;
  let cf := cs_config c in
  if negb (cf_chregister_time cf =? 0) && negb (cf_chregister_amount cf =? 0) then
    u ← user_of client_p;
    hent ← find_host (us_host u);
    h ← rd hosts hent;
    now ← gets rb_time;
    if (cf_chregister_amount cf <=? he_cregister h) && (now <? he_cregister_expire h) then mret true
    else
      _ ← when (he_cregister_expire h <=? now)
            (upd_host hent (set_cregister 0 (now + cf_chregister_time cf)));
      h ← rd hosts hent;
      _ ← upd_host hent (set_cregister (int32 (he_cregister h + 1)) (he_cregister_expire h)); mret false
  else mret false.

(** [service_err_channot(NULL, ...)]. *)
Definition service_err_channot (chptr : ptr) (msgid : Z) (args : list string) : M world unit :=
  w ← get;
  ch ← rd channels chptr;
  sendto_server (":" ++ MYUID w ++ " NOTICE " ++ ch_name ch ++ " :" ++ str_take (BUFSIZE - 1) (svc_notice None msgid args)).

Definition s_chan_register (client_p : ptr) (parv : list string) : M world Z :=
  chan ← arg parv 0;
  c ← gets cs;
  svc ← rd clients (chanserv_p c);
  let refuse name args := _ ← chan_err client_p name args; mret 1 in
  let cf := cs_config c in
  if cf_disable_cregister cf then refuse "SVC_ISDISABLED" [cl_name svc; "REGISTER"]%string else
  r ← find_channel_reg None chan;
  match r with
  | Some _ => refuse "SVC_CHAN_ALREADYREG" [chan]
  | None =>
    opped ← opped_on client_p chan;
    match opped with
    | None => refuse "SVC_IRC_NOTOPPEDONCHANNEL" [chan]
    | Some chptr =>
      ch ← rd channels chptr;
      now ← gets rb_time;
      if (0 <? cf_ctime_lock cf) && (ch_tsinfo ch <? now - cf_ctime_lock cf) then refuse "SVC_CHAN_TIMELOCKED" [chan] else
      limited ← register_limited;
      if (limited : bool) then refuse "SVC_RATELIMITED" [cl_name svc; "REGISTER"]%string else
      limited ← host_limited client_p;
      if (limited : bool) then refuse "SVC_RATELIMITEDHOST" [cl_name svc; "REGISTER"]%string else
      _ ← chan_log 2 WATCH_CSREGISTER false client_p ("REGISTER " ++ chan);
      chreg_p ← init_channel_reg chan;
      u ← user_of client_p;
      ureg_p ← need NullDeref (us_user_reg u);
      rname ← ureg_name ureg_p;
      _ ← new_owner ureg_p chreg_p rname;
      ch ← rd channels chptr;
      _ ← chan_err client_p "SVC_CHAN_NOWREG" [ch_name ch];
      _ ← service_err_channot chptr (SVC "SVC_CHAN_NOWREGWITH") [ch_name ch; cl_name svc; rname];
      mret 5
    end
  end.

(** ** Commands on access lists *)

(** A reply at the cost of 1. *)
Definition reply (client_p : ptr) (name : string) (args : list string) : M world Z :=
  _ ← chan_err client_p name args; mret 1.

(** How these commands start: the access of the user, the registration that is meant,
    and with [with_target] its access to the channel. *)
Definition with_user (client_p : ptr) (parv : list string) (level : Z) (k : ptr → ptr → M world Z) : M world Z :=
  chan ← arg parv 0;
  v ← verify_member_reg_name client_p false chan level;
  match v with
  | None => mret 1
  | Some (mreg_p, _) =>
    name ← arg parv 1;
    u ← find_user_reg_nick (Some client_p) name;
    match u with
    | None => mret 1
    | Some ureg_p => k mreg_p ureg_p
    end
  end.

(** The names of a registration and of the channel of an access. *)
Definition names_of (ureg_p mreg_p : ptr) : M world (list string) :=
  m ← member_reg_at mreg_p;
  name ← ureg_name ureg_p;
  r ← chan_reg_at (mr_channel_reg m);
  mret [name; cr_name r].

Definition with_target (client_p : ptr) (parv : list string) (level : Z) (k : ptr → ptr → list string → M world Z) : M world Z :=
  with_user client_p parv level (fun mreg_p ureg_p =>
    m ← member_reg_at mreg_p;
    names ← names_of ureg_p mreg_p;
    t ← find_member_reg (Some ureg_p) (mr_channel_reg m);
    match t with
    | None => reply client_p "SVC_CHAN_USERNOACCESS" names
    | Some mreg_tp => k mreg_p mreg_tp names
    end).

Definition auto_flags (name : string) : option Z :=
  if strcasecmp name "OP" =? 0 then Some CS_MEMBER_AUTOOP
  else if strcasecmp name "VOICE" =? 0 then Some CS_MEMBER_AUTOVOICE
  else if strcasecmp name "NONE" =? 0 then Some 0
  else None.

Definition s_chan_adduser (client_p : ptr) (parv : list string) : M world Z :=
  with_user client_p parv S_C_USERLIST (fun mreg_p ureg_p =>
    m ← member_reg_at mreg_p;
    names ← names_of ureg_p mreg_p;
    t ← find_member_reg (Some ureg_p) (mr_channel_reg m);
    match t with
    | Some _ => reply client_p "SVC_CHAN_USERALREADYACCESS" names
    | None =>
      u ← rd user_regs ureg_p;
      if has_flag (ur_flags u) US_FLAGS_NOACCESS then reply client_p "SVC_USER_NOACCESSON" [ur_name u] else
      parv2 ← arg parv 2;
      let level := atoi parv2 in
      if (level <? 1) || (mr_level m <=? level) then reply client_p "SVC_CHAN_INVALIDACCESS" [parv2] else
      flags ← (if (3 <? length parv)%nat then parv3 ← arg parv 3; mret (auto_flags parv3) else mret (Some 0));
      match flags with
      | None => parv3 ← arg parv 3; reply client_p "SVC_CHAN_INVALIDAUTOLEVEL" [parv3]
      | Some flags =>
        by_name ← ureg_name (mr_user_reg m);
        mreg_tp ← make_member_reg ureg_p (mr_channel_reg m) by_name level flags;
        _ ← write_member_db_entry mreg_tp;
        reply client_p "SVC_CHAN_USERSETACCESS" [ur_name u; print_z level; nth 1 names ""]%string
      end
    end).

Definition s_chan_deluser (client_p : ptr) (parv : list string) : M world Z :=
  with_target client_p parv S_C_USERLIST (fun mreg_p mreg_tp names =>
    m ← member_reg_at mreg_p;
    t ← member_reg_at mreg_tp;
    if (mr_level m <=? mr_level t) && negb (bool_decide (mreg_p = mreg_tp)) then
      reply client_p "SVC_CHAN_USERHIGHERACCESS" names
    else if mr_level t =? S_C_OWNER then
      c ← gets cs; svc ← rd clients (chanserv_p c);
      reply client_p "SVC_CHAN_USEDELOWNER" (names ++ [cl_name svc])
    else
      tname ← ureg_name (mr_user_reg t);
      _ ← chan_err client_p "SVC_CHAN_USERREMOVED" [tname; nth 1 names ""]%string;
      _ ← delete_member_db_entry mreg_tp;
      _ ← free_member_reg mreg_tp true;
      mret 1).

(** The end of the commands that change an access: who changed it is noted, the user
    is told and the row of the table follows. *)
Definition set_access (client_p mreg_p mreg_tp : ptr) (f : member_reg → member_reg) (msg : string) (args : list string)
    (format : string) (values : member_reg → list fmt_arg) : M world Z :=
  m ← member_reg_at mreg_p;
  t ← member_reg_at mreg_tp;
  by_name ← ureg_name (mr_user_reg m);
  _ ← upd_member_reg mreg_tp (fun t => (f t) <| mr_lastmod := by_name |>);
  names ← names_of (mr_user_reg t) mreg_tp;
  let tname := nth 0 names ""%string in let cname := nth 1 names ""%string in
  _ ← chan_err client_p msg (tname :: args ++ [cname]);
  t ← member_reg_at mreg_tp;
  _ ← db_exec format (values t ++ [ArgStr (Some by_name); ArgStr (Some cname); ArgStr (Some tname)]);
  mret 1.

Definition s_chan_moduser (client_p : ptr) (parv : list string) : M world Z :=
  with_target client_p parv S_C_USERLIST (fun mreg_p mreg_tp names =>
    m ← member_reg_at mreg_p;
    t ← member_reg_at mreg_tp;
    if mr_level m <=? mr_level t then reply client_p "SVC_CHAN_USERHIGHERACCESS" names else
    parv2 ← arg parv 2;
    let '(value, endptr) := strtol parv2 in
    let level := int32 value in
    if negb (is_empty (Some endptr)) || (level <? 1) || (mr_level m <=? level) then
      reply client_p "SVC_CHAN_INVALIDACCESS" [parv2]
    else
      set_access client_p mreg_p mreg_tp (fun t => t <| mr_level := level |>)
        "SVC_CHAN_USERSETACCESS" [print_z level]
        "UPDATE members SET level = '%d', lastmod = '%Q' WHERE chname = '%Q' AND username = '%Q'"
        (fun _ => [ArgInt level])).

Definition s_chan_modauto (client_p : ptr) (parv : list string) : M world Z :=
  with_target client_p parv S_C_USERLIST (fun mreg_p mreg_tp names =>
    m ← member_reg_at mreg_p;
    t ← member_reg_at mreg_tp;
    if (mr_level m <=? mr_level t) && negb (bool_decide (mreg_p = mreg_tp)) then
      reply client_p "SVC_CHAN_USERHIGHERACCESS" names
    else
      parv2 ← arg parv 2;
      match auto_flags parv2 with
      | None => reply client_p "SVC_CHAN_INVALIDAUTOLEVEL" [parv2]
      | Some flags =>
        set_access client_p mreg_p mreg_tp
          (fun t => t <| mr_flags ::= fun f => set_flag (clear_flag f CS_MEMBER_ALL) flags |>)
          "SVC_CHAN_USERSETAUTOLEVEL" [parv2]
          "UPDATE members SET flags = '%d', lastmod = '%Q' WHERE chname = '%Q' AND username = '%Q'"
          (fun t => [ArgInt (mr_flags t)])
      end).

Definition s_chan_suspend (client_p : ptr) (parv : list string) : M world Z :=
  with_target client_p parv S_C_SUSPEND (fun mreg_p mreg_tp names =>
    m ← member_reg_at mreg_p;
    t ← member_reg_at mreg_tp;
    if mr_level m <=? mr_level t then reply client_p "SVC_CHAN_USERHIGHERACCESS" names
    else if mr_level m <? mr_suspend t then reply client_p "SVC_CHAN_USERHIGHERSUSPEND" names
    else
      parv2 ← arg parv 2;
      let level := atoi parv2 in
      if (level <? 1) || (mr_level m <? level) then reply client_p "SVC_CHAN_INVALIDSUSPENDLEVEL" [parv2]
      else
        set_access client_p mreg_p mreg_tp (fun t => t <| mr_suspend := level |>)
          "SVC_CHAN_USERSETSUSPEND" [print_z level]
          "UPDATE members SET suspend = '%d', lastmod = '%Q' WHERE chname = '%Q' AND username = '%Q'"
          (fun _ => [ArgInt level])).

Definition s_chan_unsuspend (client_p : ptr) (parv : list string) : M world Z :=
  with_target client_p parv S_C_SUSPEND (fun mreg_p mreg_tp names =>
    m ← member_reg_at mreg_p;
    t ← member_reg_at mreg_tp;
    if mr_level m <? mr_suspend t then reply client_p "SVC_CHAN_USERHIGHERSUSPEND" names
    else
      set_access client_p mreg_p mreg_tp (fun t => t <| mr_suspend := 0 |>)
        "SVC_CHAN_USERSUSPENDREMOVED" []
        "UPDATE members SET suspend = '0', lastmod = '%Q' WHERE chname = '%Q' AND username = '%Q'"
        (fun _ => [])).
End chanserv.

Section owners.
Context `{SYS : Sys} `{CS : !ChanServ}.

(** ** DELOWNER *)

(** [data.row[0][0]]. *)
Definition first_cell (t : rsdb_table) : M world string :=
  r ← need OutOfBounds (head (row t)); c ← need OutOfBounds (head r); str c.

(** The owner goes, and the highest of the others follows. *)
Definition remove_owner (client_p mreg_p : ptr) (names : list string) : M world Z :=
  _ ← chan_err client_p "SVC_CHAN_USERREMOVED" names;
  _ ← delete_member_db_entry mreg_p;
  _ ← free_member_reg mreg_p true;
  mret 1.

(** A token sent by mail, unless one was sent not long ago. *)
Definition issue_token (client_p ureg_p : ptr) (chname rname : string) : M world Z :=
  w ← get;
  let c := cs w in
  match ureg_email c !! ureg_p with
  | None => reply client_p "SVC_USER_NOEMAIL" [rname]
  | Some email =>
    if is_empty (Some email) then reply client_p "SVC_USER_NOEMAIL" [rname] else
    data ← on_db (rsdb_exec_fetch "SELECT COUNT(chname) FROM channels_dropowner WHERE chname='%Q' AND time > '%lu'"
             [ArgStr (Some chname); ArgULong (uint64 (rb_time w - cf_cdelowner_duration (cs_config c)))]);
    _ ← when (row_count data =? 0)%nat
          (_ ← mlog "fatal error: SELECT COUNT() returned 0 rows in s_user_delowner()"; die "problem with db file");
    count ← first_cell data;
    if negb (atoi count =? 0) then reply client_p "SVC_CHAN_REQUESTPENDING" [chname; "DELOWNER"]%string else
    can ← can_send_email;
    if negb can then reply client_p "SVC_EMAIL_TEMPUNAVAILABLE" [] else
    _ ← db_exec "DELETE FROM channels_dropowner WHERE chname='%Q'" [ArgStr (Some chname)];
    w ← get;
    let token := get_password (rand w) in
    _ ← db_exec "INSERT INTO channels_dropowner (chname, token, time) VALUES('%Q', '%Q', '%lu')"
          [ArgStr (Some chname); ArgStr (Some token); ArgULong (rb_time w)];
    cl ← rd clients client_p;
    u ← user_of client_p;
    svc ← rd clients (chanserv_p c);
    sent ← send_email email "Channel Owner Delete"
      (cl_name cl ++ "!" ++ us_username u ++ "@" ++ us_host u ++ " has requested an owner delete for channel " ++ chname ++
       " which is registered to this email address." ++ nl ++ nl ++
       "To authenticate this request, send " ++ cl_name svc ++ " DELOWNER " ++ chname ++ " " ++ token ++ nl ++ nl ++
       "This action was requested from your account, so if it was not requested by yourself you should take " ++
       "appropriate action to deal with your account." ++ nl ++ nl ++
       "No action will be taken on the given channel if this email is ignored.");
    _ ← (if negb sent then chan_err client_p "SVC_EMAIL_SENDFAILED" [cl_name svc; "DELOWNER"]%string
         else chan_err client_p "SVC_USER_REQUESTISSUED" [rname; "DELOWNER"]%string);
    mret 2
  end.

Definition s_chan_delowner (client_p : ptr) (parv : list string) : M world Z :=
  chan ← arg parv 0;
  v ← verify_member_reg_name client_p false chan S_C_OWNER;
  match v with
  | None => mret 1
  | Some (mreg_p, _) =>
    u ← user_of client_p;
    ureg_p ← need NullDeref (us_user_reg u);
    names ← names_of ureg_p mreg_p;
    let rname := nth 0 names ""%string in let chname := nth 1 names ""%string in
    c ← gets cs;
    if negb (cf_cemail_delowner (cs_config c)) then remove_owner client_p mreg_p names else
    given ← argv parv 1;
    match given with
    | Some token =>
      if is_empty (Some token) then issue_token client_p ureg_p chname rname else
      now ← gets rb_time;
      data ← on_db (rsdb_exec_fetch "SELECT token FROM channels_dropowner WHERE chname='%Q' AND time > '%lu'"
               [ArgStr (Some chname); ArgULong (uint64 (now - cf_cdelowner_duration (cs_config c)))]);
      if (row_count data =? 0)%nat then reply client_p "SVC_CHAN_REQUESTNONE" [chname; "DELOWNER"]%string else
      cell ← first_cell data;
      if strcmp cell token =? 0 then
        _ ← db_exec "DELETE FROM channels_dropowner WHERE chname='%Q'" [ArgStr (Some chname)];
        remove_owner client_p mreg_p names
      else reply client_p "SVC_CHAN_TOKENMISMATCH" [chname; "DELOWNER"]%string
    | None => issue_token client_p ureg_p chname rname
    end
  end.

(** ** The tables of commands *)

(** The names of [chanserv_command[]] that are modelled, with the least number of
    their parameters and whether the user must be logged in. *)
Inductive chan_command :=
| CHANREGISTER | CHANDROP | CHANSUSPEND | CHANUNSUSPEND
| REGISTER | ADDUSER | DELUSER | DELOWNER | MODUSER | MODAUTO | SUSPEND | UNSUSPEND.

Definition minparc (c : chan_command) : nat :=
  match c with
  | CHANREGISTER | CHANSUSPEND => 2
  | CHANDROP | CHANUNSUSPEND | REGISTER | DELOWNER => 1
  | ADDUSER | MODUSER | MODAUTO | SUSPEND => 3
  | DELUSER | UNSUSPEND => 2
  end.
Definition userreg (c : chan_command) : bool :=
  match c with CHANREGISTER | CHANDROP | CHANSUSPEND | CHANUNSUSPEND => false | _ => true end.

Definition chan_func (c : chan_command) : ptr → list string → M world Z :=
  match c with
  | CHANREGISTER => o_chan_chanregister
  | CHANDROP => o_chan_chandrop
  | CHANSUSPEND => o_chan_chansuspend
  | CHANUNSUSPEND => o_chan_chanunsuspend
  | REGISTER => s_chan_register
  | ADDUSER => s_chan_adduser
  | DELUSER => s_chan_deluser
  | DELOWNER => s_chan_delowner
  | MODUSER => s_chan_moduser
  | MODAUTO => s_chan_modauto
  | SUSPEND => s_chan_suspend
  | UNSUSPEND => s_chan_unsuspend
  end.
End owners.
