(* ===== verification/ChanAcl.v ===== *)
(** * Access lists: what commands may do to them

    The registry of the service in the abstract: the registered channels with their
    names, and for a channel and a user the access, if there is one.  [acts] says what
    a command may do to it, and which statements on the table of accesses go with it;
    [replay] is what these statements do to that table.  What is kept - one owner of
    each channel, and a table that says what memory says - is proved here of [acts];
    that the commands do nothing else is proved in [ChanCmds.v]. *)

From S2P Require Import Prelude CString Match Rblib Fault Snprintf Rsdb World ChanServ.

(** An access: a row of the table [members]. *)
Record row := Row { rw_level : Z; rw_flags : Z; rw_suspend : Z; rw_lastmod : string }.
#[export] Instance eta_row : Eta row := fun r => Row (rw_level r) (rw_flags r) (rw_suspend r) (rw_lastmod r).

Notation key := (ptr * ptr)%type.
Notation accesses := (gmap key row).

Record registry := Registry { names : gmap ptr string; list_of : accesses }.

(** ** The registry of a state *)
Definition pair_of (mr : member_reg) : key := (mr_channel_reg mr, mr_user_reg mr).
Definition row_of (mr : member_reg) : row := Row (mr_level mr) (mr_flags mr) (mr_suspend mr) (mr_lastmod mr).

Definition acl (mem : gmap ptr member_reg) : accesses :=
  list_to_map ((fun kv => (pair_of (snd kv), row_of (snd kv))) <$> map_to_list mem).

Definition distinct (mem : gmap ptr member_reg) : Prop := ∀ m m' mr mr',
  mem !! m = Some mr → mem !! m' = Some mr' → pair_of mr = pair_of mr' → m = m'.

Definition registry_of (c : chanserv) : registry := Registry (cr_name <$> chan_regs c) (acl (member_regs c)).

Lemma acl_lookup mem k e :
  distinct mem → acl mem !! k = Some e ↔ ∃ m mr, mem !! m = Some mr ∧ pair_of mr = k ∧ row_of mr = e.
Proof.
  intros Hd. unfold acl. rewrite <- elem_of_list_to_map.
  - rewrite list_elem_of_fmap. split.
    + intros ([m mr] & [= -> ->] & Hm%elem_of_map_to_list). by exists m, mr.
    + intros (m & mr & Hm & <- & <-). exists (m, mr). split; [done|]. by apply elem_of_map_to_list.
  - rewrite <- list_fmap_compose. apply NoDup_fmap_2_strong; [|apply NoDup_map_to_list].
    intros [m mr] [m' mr'] Hm%elem_of_map_to_list Hm'%elem_of_map_to_list E. simpl in E.
    assert (m = m') as -> by (by eapply Hd). congruence.
Qed.

Lemma acl_none mem k : distinct mem → acl mem !! k = None ↔ ∀ m mr, mem !! m = Some mr → pair_of mr ≠ k.
Proof.
  intros Hd. split.
  - intros E m mr Hm Hk. assert (acl mem !! k = Some (row_of mr)) as E' by (apply acl_lookup; eauto). congruence.
  - intros Hn. destruct (acl mem !! k) as [e|] eqn:E; [|done]. apply acl_lookup in E as (m & mr & Hm & Hk & _); [|done].
    by destruct (Hn m mr Hm).
Qed.

Lemma acl_at mem m mr : distinct mem → mem !! m = Some mr → acl mem !! pair_of mr = Some (row_of mr).
Proof. intros Hd Hm. apply acl_lookup; eauto. Qed.

Lemma distinct_insert mem m mr :
  distinct mem → acl mem !! pair_of mr = None → distinct (<[m := mr]> mem).
Proof.
  intros Hd Hk x y mx my. assert (∀ z mz, mem !! z = Some mz → pair_of mz ≠ pair_of mr) as Hn by (by apply acl_none).
  rewrite !lookup_insert_Some. intros [[<- <-]|[? Ex]] [[<- <-]|[? Ey]] E; [done| | |by eapply Hd].
  - by destruct (Hn _ _ Ey).
  - by destruct (Hn _ _ Ex).
Qed.

Lemma distinct_delete mem m : distinct mem → distinct (delete m mem).
Proof. intros Hd x y mx my [_ Ex]%lookup_delete_Some [_ Ey]%lookup_delete_Some. by apply Hd. Qed.

Lemma distinct_alter mem m f : distinct mem → (∀ mr, pair_of (f mr) = pair_of mr) → distinct (alter f m mem).
Proof.
  intros Hd Hf x y mx my Ex Ey E.
  assert (∀ z mz, alter f m mem !! z = Some mz → ∃ mz', mem !! z = Some mz' ∧ pair_of mz = pair_of mz') as Hb.
  { intros z mz. rewrite lookup_alter. case_decide; [|intros Ez; by exists mz]. subst.
    destruct (mem !! z) as [m'|]; [|done]. intros [= <-]. exists m'. by rewrite Hf. }
  apply Hb in Ex as (mx' & Ex & E1), Ey as (my' & Ey & E2). eapply Hd; [done..|congruence].
Qed.

Lemma acl_insert mem m mr :
  distinct mem → mem !! m = None → acl mem !! pair_of mr = None →
  acl (<[m := mr]> mem) = <[pair_of mr := row_of mr]> (acl mem).
Proof.
  intros Hd Hm Hk. pose proof (distinct_insert mem m mr Hd Hk) as Hd'. apply map_eq. intros k.
  apply option_eq. intros e. rewrite acl_lookup by done. rewrite lookup_insert_Some. split.
  - intros (x & mx & [[<- <-]|[? Ex]]%lookup_insert_Some & <- & <-); [by left|]. right. split; [|by eapply acl_at].
    intros E. apply (proj1 (acl_none mem (pair_of mr) Hd) Hk x mx Ex). done.
  - intros [[<- <-]|[? (x & mx & Ex & <- & <-)%acl_lookup]]; [|exists x, mx|done].
    + exists m, mr. by rewrite lookup_insert_eq.
    + rewrite lookup_insert_ne; [done|]. intros <-. congruence.
Qed.

Lemma acl_delete mem m mr : distinct mem → mem !! m = Some mr → acl (delete m mem) = delete (pair_of mr) (acl mem).
Proof.
  intros Hd Hm. pose proof (distinct_delete mem m Hd) as Hd'. apply map_eq. intros k. apply option_eq. intros e.
  rewrite acl_lookup by done. rewrite lookup_delete_Some. split.
  - intros (x & mx & [Hx Ex]%lookup_delete_Some & <- & <-). split; [|by eapply acl_at].
    intros E. apply Hx. by apply (Hd m x mr mx).
  - intros [Hk (x & mx & Ex & <- & <-)%acl_lookup]; [|done]. exists x, mx. split; [|done].
    apply lookup_delete_Some. split; [|done]. intros <-. congruence.
Qed.

Lemma acl_alter mem m mr f :
  distinct mem → mem !! m = Some mr → (∀ x, pair_of (f x) = pair_of x) →
  acl (alter f m mem) = <[pair_of mr := row_of (f mr)]> (acl mem).
Proof.
  intros Hd Hm Hf. pose proof (distinct_alter mem m f Hd Hf) as Hd'. apply map_eq. intros k. apply option_eq. intros e.
  rewrite acl_lookup by done. rewrite lookup_insert_Some. split.
  - intros (x & mx & Ex & <- & <-). rewrite lookup_alter in Ex. case_decide as E.
    + subst x. rewrite Hm in Ex. injection Ex as <-. left. by rewrite Hf.
    + right. split; [|by eapply acl_at]. intros E'. apply E. by apply (Hd m x mr mx).
  - intros [[<- <-]|[Hk (x & mx & Ex & <- & <-)%acl_lookup]]; [| |done].
    + exists m, (f mr). rewrite lookup_alter, decide_True, Hm by done. by rewrite Hf.
    + exists x, mx. split; [|done]. rewrite lookup_alter_ne; [done|]. intros <-. congruence.
Qed.

(** ** Statements on the table of accesses *)
Definition statement : Type := string * list fmt_arg.

Definition s_insert (cn un by_name : string) (level flags : Z) : statement :=
  ("INSERT INTO members (chname, username, lastmod, level, flags, suspend)  VALUES('%Q', '%Q', '%Q', '%u', '%d', '0')"%string,
   [ArgStr (Some cn); ArgStr (Some un); ArgStr (Some by_name); ArgUInt level; ArgInt flags]).
Definition s_delete (cn un : string) : statement :=
  ("DELETE FROM members WHERE chname = '%Q' AND username = '%Q'"%string, [ArgStr (Some cn); ArgStr (Some un)]).
Definition s_drop (cn : string) : statement :=
  ("DELETE FROM members WHERE chname = '%Q'"%string, [ArgStr (Some cn)]).
Definition s_owner (level : Z) (by_name cn un : string) : statement :=
  ("UPDATE members SET level = '%d', suspend = '0', lastmod = '%Q' WHERE chname = '%Q' AND username = '%Q'"%string,
   [ArgInt level; ArgStr (Some by_name); ArgStr (Some cn); ArgStr (Some un)]).
Definition s_level (level : Z) (by_name cn un : string) : statement :=
  ("UPDATE members SET level = '%d', lastmod = '%Q' WHERE chname = '%Q' AND username = '%Q'"%string,
   [ArgInt level; ArgStr (Some by_name); ArgStr (Some cn); ArgStr (Some un)]).
Definition s_flags (flags : Z) (by_name cn un : string) : statement :=
  ("UPDATE members SET flags = '%d', lastmod = '%Q' WHERE chname = '%Q' AND username = '%Q'"%string,
   [ArgInt flags; ArgStr (Some by_name); ArgStr (Some cn); ArgStr (Some un)]).
Definition s_suspend (level : Z) (by_name cn un : string) : statement :=
  ("UPDATE members SET suspend = '%d', lastmod = '%Q' WHERE chname = '%Q' AND username = '%Q'"%string,
   [ArgInt level; ArgStr (Some by_name); ArgStr (Some cn); ArgStr (Some un)]).
Definition s_unsuspend (by_name cn un : string) : statement :=
  ("UPDATE members SET suspend = '0', lastmod = '%Q' WHERE chname = '%Q' AND username = '%Q'"%string,
   [ArgStr (Some by_name); ArgStr (Some cn); ArgStr (Some un)]).

(** The rows by the names of channel and user. *)
Notation rows := (gmap (string * string) row).

(** What a statement does to the table, after its text and the values in it. *)
Definition replay1 (s : statement) (t : rows) : rows :=
  let '(f, args) := s in
  match args with
  | [ArgStr (Some cn); ArgStr (Some un); ArgStr (Some by_name); ArgUInt level; ArgInt flags] =>
    if String.eqb f (fst (s_insert "" "" "" 0 0)) then <[(cn, un) := Row level flags 0 by_name]> t else t
  | [ArgStr (Some cn); ArgStr (Some un)] => if String.eqb f (fst (s_delete "" "")) then delete (cn, un) t else t
  | [ArgStr (Some cn)] =>
    if String.eqb f (fst (s_drop "")) then filter (fun kv : (string * string) * row => fst (fst kv) ≠ cn) t else t
  | [ArgInt n; ArgStr (Some by_name); ArgStr (Some cn); ArgStr (Some un)] =>
    let set g := alter (fun r => (g r) <| rw_lastmod := by_name |>) (cn, un) t in
    if String.eqb f (fst (s_owner 0 "" "" "")) then set (fun r => r <| rw_level := n |> <| rw_suspend := 0 |>)
    else if String.eqb f (fst (s_level 0 "" "" "")) then set (fun r => r <| rw_level := n |>)
    else if String.eqb f (fst (s_flags 0 "" "" "")) then set (fun r => r <| rw_flags := n |>)
    else if String.eqb f (fst (s_suspend 0 "" "" "")) then set (fun r => r <| rw_suspend := n |>)
    else t
  | [ArgStr (Some by_name); ArgStr (Some cn); ArgStr (Some un)] =>
    if String.eqb f (fst (s_unsuspend "" "" ""))
    then alter (fun r => r <| rw_suspend := 0 |> <| rw_lastmod := by_name |>) (cn, un) t else t
  | _ => t
  end.

Definition replay (l : list statement) (t : rows) : rows := fold_left (fun t s => replay1 s t) l t.

(** Statements on other tables. *)
Definition silent (s : statement) : Prop := ∀ t, replay1 s t = t.

Lemma replay_app l1 l2 t : replay (l1 ++ l2) t = replay l2 (replay l1 t).
Proof. apply fold_left_app. Qed.

Lemma replay_silent l t : Forall silent l → replay l t = t.
Proof. intros Hl. revert t. induction Hl as [|s l Hs _ IH]; intros t; [done|]. cbn. rewrite Hs. apply IH. Qed.

(** ** What a command may do *)
Definition allowed (a : accesses) (ch actor : ptr) (level : Z) (e : row) : Prop :=
  a !! (ch, actor) = Some e ∧ rw_suspend e = 0 ∧ level ≤ rw_level e.

(** Whom ownership of a channel goes to: the highest of the users who are not
    suspended, or of the others if all are. *)
Definition successor (a : accesses) (ch u : ptr) (e : row) : Prop :=
  a !! (ch, u) = Some e ∧
  (rw_suspend e = 0 → ∀ v e', a !! (ch, v) = Some e' → rw_suspend e' = 0 → rw_level e' ≤ rw_level e) ∧
  (rw_suspend e ≠ 0 → ∀ v e', a !! (ch, v) = Some e' → rw_suspend e' ≠ 0 ∧ rw_level e' ≤ rw_level e).

Section acts.
(** The names of the registrations of users, and of the server. *)
Context (users : gmap ptr string) (myname : string).

(** What a command may do for a user with the registration [login].  CHANREGISTER and
    CHANDROP are for operators and REGISTER is for those opped in the channel: who gets
    to CHANREGISTER and CHANDROP is decided in [handle_service()], who is opped is not
    part of the registry. *)
Inductive acts (chan : string) (login : option ptr) (R : registry) : chan_command → list statement → registry → Prop :=
| acts_nothing cmd : acts chan login R cmd [] R
| acts_add ch cn actor by_name e u un level flags :
    names R !! ch = Some cn → irccmp cn chan = 0 → login = Some actor → users !! actor = Some by_name →
    allowed (list_of R) ch actor S_C_USERLIST e →
    users !! u = Some un → list_of R !! (ch, u) = None →
    1 ≤ level < rw_level e → flags ∈ [0; CS_MEMBER_AUTOOP; CS_MEMBER_AUTOVOICE] →
    acts chan login R ADDUSER [s_insert cn un by_name level flags] (Registry (names R) (<[(ch, u) := Row level flags 0 by_name]> (list_of R)))
| acts_remove ch cn actor e u un t :
    names R !! ch = Some cn → irccmp cn chan = 0 → login = Some actor →
    allowed (list_of R) ch actor S_C_USERLIST e →
    users !! u = Some un → list_of R !! (ch, u) = Some t →
    rw_level t < rw_level e ∨ u = actor → rw_level t ≠ S_C_OWNER →
    acts chan login R DELUSER [s_delete cn un] (Registry (names R) (delete (ch, u) (list_of R)))
| acts_level ch cn actor by_name e u un t level :
    names R !! ch = Some cn → irccmp cn chan = 0 → login = Some actor → users !! actor = Some by_name →
    allowed (list_of R) ch actor S_C_USERLIST e →
    users !! u = Some un → list_of R !! (ch, u) = Some t → rw_level t < rw_level e →
    1 ≤ level < rw_level e →
    acts chan login R MODUSER [s_level level by_name cn un]
      (Registry (names R) (<[(ch, u) := Row level (rw_flags t) (rw_suspend t) by_name]> (list_of R)))
| acts_flags ch cn actor by_name e u un t flags :
    names R !! ch = Some cn → irccmp cn chan = 0 → login = Some actor → users !! actor = Some by_name →
    allowed (list_of R) ch actor S_C_USERLIST e →
    users !! u = Some un → list_of R !! (ch, u) = Some t → rw_level t < rw_level e ∨ u = actor →
    clear_flag flags CS_MEMBER_ALL = clear_flag (rw_flags t) CS_MEMBER_ALL →
    Z.land flags CS_MEMBER_ALL ∈ [0; CS_MEMBER_AUTOOP; CS_MEMBER_AUTOVOICE] →
    acts chan login R MODAUTO [s_flags flags by_name cn un]
      (Registry (names R) (<[(ch, u) := Row (rw_level t) flags (rw_suspend t) by_name]> (list_of R)))
| acts_suspend ch cn actor by_name e u un t level :
    names R !! ch = Some cn → irccmp cn chan = 0 → login = Some actor → users !! actor = Some by_name →
    allowed (list_of R) ch actor S_C_SUSPEND e →
    users !! u = Some un → list_of R !! (ch, u) = Some t → rw_level t < rw_level e → rw_suspend t ≤ rw_level e →
    1 ≤ level ≤ rw_level e →
    acts chan login R SUSPEND [s_suspend level by_name cn un]
      (Registry (names R) (<[(ch, u) := Row (rw_level t) (rw_flags t) level by_name]> (list_of R)))
| acts_unsuspend ch cn actor by_name e u un t :
    names R !! ch = Some cn → irccmp cn chan = 0 → login = Some actor → users !! actor = Some by_name →
    allowed (list_of R) ch actor S_C_SUSPEND e →
    users !! u = Some un → list_of R !! (ch, u) = Some t → rw_suspend t ≤ rw_level e →
    acts chan login R UNSUSPEND [s_unsuspend by_name cn un]
      (Registry (names R) (<[(ch, u) := Row (rw_level t) (rw_flags t) 0 by_name]> (list_of R)))
| acts_register ch u un by_name :
    names R !! ch = None → (∀ ch' cn, names R !! ch' = Some cn → irccmp cn chan ≠ 0) →
    (∀ v, list_of R !! (ch, v) = None) → users !! u = Some un →
    ∀ cmd, cmd = CHANREGISTER ∨ cmd = REGISTER ∧ login = Some u →
    acts chan login R cmd [s_insert chan un by_name S_C_OWNER 0]
      (Registry (<[ch := chan]> (names R)) (<[(ch, u) := Row S_C_OWNER 0 0 by_name]> (list_of R)))
| acts_resign ch cn actor un e u vn t :
    names R !! ch = Some cn → irccmp cn chan = 0 → login = Some actor → users !! actor = Some un →
    allowed (list_of R) ch actor S_C_OWNER e →
    successor (delete (ch, actor) (list_of R)) ch u t → users !! u = Some vn →
    acts chan login R DELOWNER [s_delete cn un; s_owner S_C_OWNER myname cn vn]
      (Registry (names R) (<[(ch, u) := Row S_C_OWNER (rw_flags t) 0 myname]> (delete (ch, actor) (list_of R))))
| acts_last ch cn actor un e :
    names R !! ch = Some cn → irccmp cn chan = 0 → login = Some actor → users !! actor = Some un →
    allowed (list_of R) ch actor S_C_OWNER e →
    (∀ v, v ≠ actor → list_of R !! (ch, v) = None) →
    acts chan login R DELOWNER [s_delete cn un] (Registry (delete ch (names R)) (delete (ch, actor) (list_of R)))
| acts_drop ch cn :
    names R !! ch = Some cn → irccmp cn chan = 0 →
    acts chan login R CHANDROP [s_drop cn]
      (Registry (delete ch (names R)) (filter (fun kv : key * row => fst (fst kv) ≠ ch) (list_of R))).

(** ** What is kept *)

(** Accesses are to registered channels, of registered users, with levels up to the
    owner's; no two channels have a name in common. *)
Record sound (R : registry) : Prop := Sound {
  so_channel ch u e : list_of R !! (ch, u) = Some e →
    is_Some (names R !! ch) ∧ is_Some (users !! u) ∧ 1 ≤ rw_level e ≤ S_C_OWNER;
  so_names ch ch' cn cn' : names R !! ch = Some cn → names R !! ch' = Some cn' → irccmp cn cn' = 0 → ch = ch'
}.

(** Every channel has exactly one owner, who is not suspended. *)
Definition owner (a : accesses) (ch u : ptr) : Prop :=
  (∃ e, a !! (ch, u) = Some e ∧ rw_level e = S_C_OWNER ∧ rw_suspend e = 0) ∧
  ∀ v e, a !! (ch, v) = Some e → rw_level e = S_C_OWNER → v = u.
Definition owned (R : registry) : Prop := ∀ ch, is_Some (names R !! ch) → ∃ u, owner (list_of R) ch u.

(** The table holds the rows of the accesses and no others. *)
Definition mirrored (R : registry) (t : rows) : Prop := ∀ cn un e,
  t !! (cn, un) = Some e ↔ ∃ ch u, names R !! ch = Some cn ∧ users !! u = Some un ∧ list_of R !! (ch, u) = Some e.

Lemma acts_keep_sound chan login R cmd l R' :
  acts chan login R cmd l R' → sound R → sound R'.
Proof.
  intros Ha [Sc Sn].
  assert (∀ ch cn u un e' e, names R !! ch = Some cn → users !! u = Some un → 1 ≤ rw_level e' ≤ S_C_OWNER →
    list_of R !! (ch, u) = e → sound (Registry (names R) (<[(ch, u) := e']> (list_of R)))) as Hset.
  { intros ch cn u un e' e Ec Eu Hl _. split; [|exact Sn]; simpl. intros ch' v e0 [[[= <- <-] <-]|[_ E]]%lookup_insert_Some; [|by eapply Sc].
    split; [by eexists|]. split; [by eexists|]. unfold S_C_OWNER in *; simpl in *; lia. }
  assert (∀ k, sound (Registry (names R) (delete k (list_of R)))) as Hdel.
  { intros k. split; [|exact Sn]; simpl. intros ch v e0 [_ E]%lookup_delete_Some. by eapply Sc. }
  pose proof (fun k e E => proj2 (proj2 (Sc (fst k) (snd k) e E))) as Hlv.
  destruct Ha as [ | ch cn actor by_name e u un level flags Ec _ _ _ [Ee _] Eu _ Hl _
    | | ch cn actor by_name e u un t level Ec _ _ _ [Ee _] Eu Et _ Hl
    | ch cn actor by_name e u un t flags Ec _ _ _ _ Eu Et
    | ch cn actor by_name e u un t level Ec _ _ _ _ Eu Et _ _ _
    | ch cn actor by_name e u un t Ec _ _ _ _ Eu Et _
    | ch u un by_name Ec Hfree Hno Eu
    | ch cn actor un e u vn t Ec _ _ _ _ _ Eu
    | ch cn actor un e Ec _ _ _ _ Hno | ch cn Ec _ ].
  - by split.
  - eapply Hset; [done..| |done]. pose proof (Hlv (ch, actor) e Ee). simpl. lia.
  - apply Hdel.
  - eapply Hset; [done..| |done]. pose proof (Hlv (ch, actor) e Ee). simpl. lia.
  - eapply Hset; [done..| |done]. by apply (Hlv (ch, u) t).
  - eapply Hset; [done..| |done]. by apply (Hlv (ch, u) t).
  - eapply Hset; [done..| |done]. by apply (Hlv (ch, u) t).
  - split; simpl.
    + intros ch' v e0 [[[= <- <-] <-]|[_ E]]%lookup_insert_Some.
      * rewrite lookup_insert_eq. split; [by eexists|]. split; [by eexists|]. unfold S_C_OWNER in *; simpl in *; lia.
      * destruct (Sc ch' v e0 E) as (Hc & ?). split; [|done]. rewrite lookup_insert. case_decide; [by eexists|done].
    + intros ch1 ch2 cn1 cn2 [[<- <-]|[_ E1]]%lookup_insert_Some [[<- <-]|[_ E2]]%lookup_insert_Some Hi; [done| | |by eapply Sn].
      * destruct (Hfree ch2 cn2 E2). by apply irccmp_sym.
      * by destruct (Hfree ch1 cn1 E1).
  - split; [|exact Sn]; simpl.
    intros ch' v e0 [[[= <- <-] <-]|[_ [_ E]%lookup_delete_Some]]%lookup_insert_Some; [|by eapply Sc].
    split; [by eexists|]. split; [by eexists|]. unfold S_C_OWNER in *; simpl in *; lia.
  - split; simpl.
    + intros ch' v e0 [Hne E]%lookup_delete_Some. destruct (Sc ch' v e0 E) as ([cn' Hc] & ?). split; [|done].
      rewrite lookup_delete_ne; [by eexists|]. intros <-. rewrite Hno in E; [done|]. congruence.
    + intros ch1 ch2 cn1 cn2 [_ E1]%lookup_delete_Some [_ E2]%lookup_delete_Some. by eapply Sn.
  - split; simpl.
    + intros ch' v e0 [E Hne]%map_lookup_filter_Some. simpl in Hne. destruct (Sc ch' v e0 E) as ([cn' Hc] & ?). split; [|done].
      rewrite lookup_delete_ne; [by eexists|congruence].
    + intros ch1 ch2 cn1 cn2 [_ E1]%lookup_delete_Some [_ E2]%lookup_delete_Some. by eapply Sn.
Qed.
End acts.

Section kept.
Context (users : gmap ptr string) (myname : string).

(** Owners after one access was changed, and where none of the channel's was. *)
Lemma owner_other a b ch w : (∀ v, b !! (ch, v) = a !! (ch, v)) → owner a ch w → owner b ch w.
Proof.
  intros Hb [(e & Ee & He) Hu]. split; [exists e; by rewrite Hb|]. intros v e'. rewrite Hb. apply Hu.
Qed.

Lemma owner_set a ch u e' w ch' :
  (ch' = ch → u = w → rw_level e' = S_C_OWNER ∧ rw_suspend e' = 0) →
  (ch' = ch → u ≠ w → rw_level e' ≠ S_C_OWNER) →
  owner a ch' w → owner (<[(ch, u) := e']> a) ch' w.
Proof.
  intros H1 H2 [(e & Ee & He) Hu]. split.
  - destruct (decide ((ch, u) = (ch', w))) as [[= -> ->]|Hne].
    + exists e'. rewrite lookup_insert_eq. auto.
    + exists e. by rewrite lookup_insert_ne.
  - intros v e0 [[[= -> ->] ->]|[_ E]]%lookup_insert_Some Hl; [|by eapply Hu].
    destruct (decide (v = w)) as [|Hne]; [done|]. by destruct (H2 eq_refl Hne).
Qed.

Lemma owner_delete a ch u w ch' : (ch' = ch → u ≠ w) → owner a ch' w → owner (delete (ch, u) a) ch' w.
Proof.
  intros Hne [(e & Ee & He) Hu]. split.
  - exists e. rewrite lookup_delete_ne; [done|]. intros [= -> ->]. by apply Hne.
  - intros v e0 [_ E]%lookup_delete_Some. by apply Hu.
Qed.

Lemma acts_keep_owned chan login R cmd l R' : acts users myname chan login R cmd l R' → sound users R → owned R → owned R'.
Proof.
  intros Ha [Sc Sn] Ho.
  pose proof (fun ch u e E => proj2 (proj2 (Sc ch u e E))) as Hlv.
  destruct Ha as [ | ch cn actor by_name e u un level flags Ec _ _ _ [Ee _] Eu Eno Hl _
    | ch cn actor e u un t Ec _ _ _ Eu Et _ Hno
    | ch cn actor by_name e u un t level Ec _ _ _ [Ee _] Eu Et Hlt Hl
    | ch cn actor by_name e u un t flags Ec _ _ _ _ Eu Et
    | ch cn actor by_name e u un t level Ec _ _ _ [Ee _] Eu Et Hlt _ _
    | ch cn actor by_name e u un t Ec _ _ _ _ Eu Et _
    | ch u un by_name Ec _ Hno Eu
    | ch cn actor un e u vn t Ec _ _ _ (Ee & _ & He) (Et & _) Eu
    | ch cn actor un e Ec _ _ _ _ Hno | ch cn Ec _ ]; [done|..]; intros ch' Hch'; simpl in *.
  1-6: destruct (Ho ch' Hch') as [w Hw]; exists w.
  - apply owner_set; [| |done].
    + intros -> ->. destruct Hw as [(e' & E' & _) _]. congruence.
    + intros _ _. pose proof (Hlv _ _ _ Ee). simpl. unfold S_C_OWNER in *. lia.
  - apply owner_delete; [|done]. intros -> ->. destruct Hw as [(e' & E' & Hl' & _) _]. congruence.
  - pose proof (Hlv _ _ _ Ee). apply owner_set; [| |done]; simpl; unfold S_C_OWNER in *.
    + intros -> ->. destruct Hw as [(e' & E' & Hl' & _) _]. rewrite Et in E'. injection E' as <-. unfold S_C_OWNER in *. lia.
    + lia.
  - apply owner_set; [| |done]; simpl.
    + intros -> ->. destruct Hw as [(e' & E' & Hl' & Hs') _]. rewrite Et in E'. by injection E' as <-.
    + intros -> Hne Hl. apply Hne. by apply (proj2 Hw u t).
  - pose proof (Hlv _ _ _ Ee). apply owner_set; [| |done]; simpl; unfold S_C_OWNER in *.
    + intros -> ->. destruct Hw as [(e' & E' & Hl' & _) _]. rewrite Et in E'. injection E' as <-. unfold S_C_OWNER in *. lia.
    + intros -> Hne Hl. apply Hne. by apply (proj2 Hw u t).
  - apply owner_set; [| |done]; simpl.
    + intros -> ->. destruct Hw as [(e' & E' & Hl' & Hs') _]. rewrite Et in E'. by injection E' as <-.
    + intros -> Hne Hl. apply Hne. by apply (proj2 Hw u t).
  - destruct (decide (ch = ch')) as [<-|Hne].
    + exists u. split; [by exists (Row S_C_OWNER 0 0 by_name); rewrite lookup_insert_eq|].
      intros v e0 [[[= <-] _]|[_ E]]%lookup_insert_Some _; [done|]. by rewrite Hno in E.
    + rewrite lookup_insert_ne in Hch' by done. destruct (Ho ch' Hch') as [w Hw]. exists w.
      eapply owner_other; [|done]. intros v. rewrite lookup_insert_ne; [done|congruence].
  - destruct (decide (ch = ch')) as [<-|Hne].
    + destruct (Ho ch Hch') as [w Hw].
      assert (actor = w) as ->.
      { apply (proj2 Hw actor e Ee). pose proof (Hlv _ _ _ Ee). unfold S_C_OWNER in *. lia. }
      exists u. split; [by eexists; rewrite lookup_insert_eq|].
      intros v e0 [[[= <-] _]|[_ [Hn E]%lookup_delete_Some]]%lookup_insert_Some Hl; [done|].
      destruct Hn. f_equal. symmetry. by apply (proj2 Hw v e0).
    + destruct (Ho ch' Hch') as [w Hw]. exists w. eapply owner_other; [|done].
      intros v. rewrite lookup_insert_ne, lookup_delete_ne; congruence.
  - destruct (decide (ch = ch')) as [<-|Hne]; [rewrite lookup_delete_eq in Hch'; by destruct Hch'|].
    rewrite lookup_delete_ne in Hch' by done. destruct (Ho ch' Hch') as [w Hw]. exists w.
    eapply owner_other; [|done]. intros v. rewrite lookup_delete_ne; congruence.
  - destruct (decide (ch = ch')) as [<-|Hne]; [rewrite lookup_delete_eq in Hch'; by destruct Hch'|].
    rewrite lookup_delete_ne in Hch' by done. destruct (Ho ch' Hch') as [w Hw]. exists w.
    eapply owner_other; [|done]. intros v. apply option_eq. intros e. rewrite map_lookup_filter_Some. simpl. naive_solver.
Qed.
End kept.

(** What a level in the new registry comes from. *)
Section bounded.
Context (users : gmap ptr string) (myname : string).

Lemma acts_bounded chan login R cmd l R' ch u e' :
  acts users myname chan login R cmd l R' → sound users R → list_of R' !! (ch, u) = Some e' →
  (∃ e, list_of R !! (ch, u) = Some e ∧ rw_level e' ≤ rw_level e) ∨
  (∃ actor a, login = Some actor ∧ list_of R !! (ch, actor) = Some a ∧ rw_suspend a = 0 ∧ rw_level e' < rw_level a) ∨
  names R !! ch = None ∨
  (∃ actor a, login = Some actor ∧ list_of R !! (ch, actor) = Some a ∧ rw_suspend a = 0 ∧
     rw_level a = S_C_OWNER ∧ list_of R' !! (ch, actor) = None).
Proof.
  intros Ha [Sc _] Ee'.
  destruct Ha as [ | ch0 cn actor by_name e u0 un level flags Ec _ El _ (Ea & Es & _) Eu Eno Hl _
    | ch0 cn actor e u0 un t Ec _ _ _ Eu Et _ _
    | ch0 cn actor by_name e u0 un t level Ec _ El _ (Ea & Es & _) Eu Et _ Hl
    | ch0 cn actor by_name e u0 un t flags Ec _ _ _ _ Eu Et _
    | ch0 cn actor by_name e u0 un t level Ec _ _ _ _ Eu Et _ _ _
    | ch0 cn actor by_name e u0 un t Ec _ _ _ _ Eu Et _
    | ch0 u0 un by_name Ec Hfree Hno Eu
    | ch0 cn actor un e u0 vn t Ec _ El _ (Ea & Es & He) (Et & _) Eu
    | ch0 cn actor un e Ec _ _ _ _ _ | ch0 cn Ec _ ]; simpl in Ee'.
  - left. by exists e'.
  - apply lookup_insert_Some in Ee' as [[[= <- <-] <-]|[_ Ee']]; [|left; by exists e'].
    right; left. exists actor, e. simpl. split_and!; try done; lia.
  - apply lookup_delete_Some in Ee' as [_ Ee']. left. by exists e'.
  - apply lookup_insert_Some in Ee' as [[[= <- <-] <-]|[_ Ee']]; [|left; by exists e'].
    right; left. exists actor, e. simpl. split_and!; try done; lia.
  - apply lookup_insert_Some in Ee' as [[[= <- <-] <-]|[_ Ee']]; [left; by exists t|left; by exists e'].
  - apply lookup_insert_Some in Ee' as [[[= <- <-] <-]|[_ Ee']]; [left; by exists t|left; by exists e'].
  - apply lookup_insert_Some in Ee' as [[[= <- <-] <-]|[_ Ee']]; [left; by exists t|left; by exists e'].
  - apply lookup_insert_Some in Ee' as [[[= <- <-] <-]|[_ Ee']]; [|left; by exists e']. by right; right; left.
  - apply lookup_insert_Some in Ee' as [[[= <- <-] <-]|[Hne [_ Ee']%lookup_delete_Some]]; [|left; by exists e'].
    do 3 right. exists actor, e. destruct (Sc _ _ _ Ea) as (_ & _ & ?). split_and!; [done|done|done|lia|].
    simpl. apply lookup_delete_Some in Et as [Hne _]. rewrite lookup_insert_ne by congruence. apply lookup_delete_eq.
  - apply lookup_delete_Some in Ee' as [_ Ee']. left. by exists e'.
  - apply map_lookup_filter_Some in Ee' as [Ee' _]. left. by exists e'.
Qed.
End bounded.

(** ** The table in the database *)
Section mirror.
Context (users : gmap ptr string) (myname : string).
Context (users_distinct : ∀ u v n, users !! u = Some n → users !! v = Some n → u = v).

Lemma same_channel R ch ch' cn : sound users R → names R !! ch = Some cn → names R !! ch' = Some cn → ch = ch'.
Proof. intros Hs E E'. eapply (so_names users R Hs); [exact E|exact E'|apply irccmp_refl]. Qed.

Lemma mirrored_set R t ch cn u un e :
  sound users R → mirrored users R t → names R !! ch = Some cn → users !! u = Some un →
  mirrored users (Registry (names R) (<[(ch, u) := e]> (list_of R))) (<[(cn, un) := e]> t).
Proof.
  intros Hs Hm Ec Eu cn' un' e'. rewrite lookup_insert_Some. simpl. split.
  - intros [[[= <- <-] <-]|[Hne (ch' & u' & Ec' & Eu' & El)%Hm]].
    + exists ch, u. by rewrite lookup_insert_eq.
    + exists ch', u'. split; [done|]. split; [done|]. rewrite lookup_insert_ne; [done|]. intros [= <- <-]. congruence.
  - intros (ch' & u' & Ec' & Eu' & [[[= <- <-] <-]|[Hne El]]%lookup_insert_Some).
    + left. split; congruence.
    + right. split; [|apply Hm; eauto]. intros [= <- <-]. apply Hne. f_equal; [by eapply same_channel|by eapply users_distinct].
Qed.

Lemma mirrored_delete R t ch cn u un :
  sound users R → mirrored users R t → names R !! ch = Some cn → users !! u = Some un →
  mirrored users (Registry (names R) (delete (ch, u) (list_of R))) (delete (cn, un) t).
Proof.
  intros Hs Hm Ec Eu cn' un' e'. rewrite lookup_delete_Some. simpl. split.
  - intros [Hne (ch' & u' & Ec' & Eu' & El)%Hm]. exists ch', u'. split; [done|]. split; [done|].
    rewrite lookup_delete_ne; [done|]. intros [= <- <-]. congruence.
  - intros (ch' & u' & Ec' & Eu' & [Hne El]%lookup_delete_Some). split; [|apply Hm; eauto].
    intros [= <- <-]. apply Hne. f_equal; [by eapply same_channel|by eapply users_distinct].
Qed.

(** A channel without accesses comes and goes unnoticed. *)
Lemma mirrored_names R t ns :
  mirrored users R t →
  (∀ ch u e, list_of R !! (ch, u) = Some e → ns !! ch = names R !! ch) → mirrored users (Registry ns (list_of R)) t.
Proof.
  intros Hm Hns cn un e. rewrite (Hm cn un e). simpl. split; intros (ch & u & Ec & Eu & El); exists ch, u; split_and!; try done.
  - by rewrite (Hns _ _ _ El).
  - by rewrite <- (Hns _ _ _ El).
Qed.

Lemma alter_row (f : row → row) (k : string * string) (t : rows) r : t !! k = Some r → alter f k t = <[k := f r]> t.
Proof.
  intros E. apply map_eq. intros k'. rewrite lookup_alter, lookup_insert. case_decide; [|done]. subst. by rewrite E.
Qed.

Lemma mirrored_row R t ch cn u un e :
  mirrored users R t → names R !! ch = Some cn → users !! u = Some un → list_of R !! (ch, u) = Some e → t !! (cn, un) = Some e.
Proof. intros Hm Ec Eu El. apply Hm. eauto. Qed.

Lemma acts_keep_mirrored chan login R cmd l R' t :
  acts users myname chan login R cmd l R' → sound users R → mirrored users R t → mirrored users R' (replay l t).
Proof.
  intros Ha Hs Hm.
  assert (∀ ch cn u un e (f : row → row) e', names R !! ch = Some cn → users !! u = Some un → list_of R !! (ch, u) = Some e →
    f e = e' → mirrored users (Registry (names R) (<[(ch, u) := e']> (list_of R))) (alter f (cn, un) t)) as Hset.
  { intros ch cn u un e f e' Ec Eu El <-. rewrite (alter_row f _ t e) by (by eapply mirrored_row). by apply mirrored_set. }
  destruct Ha as [ | ch cn actor by_name e u un level flags Ec _ _ _ _ Eu _ _ _
    | ch cn actor e u un t0 Ec _ _ _ Eu Et _ _
    | ch cn actor by_name e u un t0 level Ec _ _ _ _ Eu Et _ _
    | ch cn actor by_name e u un t0 flags Ec _ _ _ _ Eu Et _
    | ch cn actor by_name e u un t0 level Ec _ _ _ _ Eu Et _ _ _
    | ch cn actor by_name e u un t0 Ec _ _ _ _ Eu Et _
    | ch u un by_name Ec Hfree Hno Eu
    | ch cn actor un e u vn t0 Ec _ _ Ea (Ee & _ & He) (Et & _) Eu
    | ch cn actor un e Ec _ _ Ea (Ee & _) Hno | ch cn Ec _ ].
  - done.
  - by apply mirrored_set.
  - by apply mirrored_delete.
  - by apply (Hset ch cn u un t0).
  - by apply (Hset ch cn u un t0).
  - by apply (Hset ch cn u un t0).
  - by apply (Hset ch cn u un t0).
  - assert (mirrored users (Registry (<[ch := chan]> (names R)) (list_of R)) t) as Hm'.
    { apply mirrored_names; [done|]. intros ch' v e E. rewrite lookup_insert_ne; [done|]. intros <-. by rewrite Hno in E. }
    eapply (mirrored_set _ t ch chan u un) in Hm'; [exact Hm'| |apply lookup_insert_eq|done].
    destruct Hs as [Sc Sn]. split; simpl.
    + intros ch' v e E. destruct (Sc ch' v e E) as (Hc & ?). split; [|done]. rewrite lookup_insert. case_decide; [by eexists|done].
    + intros ch1 ch2 cn1 cn2 [[<- <-]|[_ E1]]%lookup_insert_Some [[<- <-]|[_ E2]]%lookup_insert_Some Hi; [done| | |by eapply Sn].
      * destruct (Hfree ch2 cn2 E2). by apply irccmp_sym.
      * by destruct (Hfree ch1 cn1 E1).
  - assert (sound users (Registry (names R) (delete (ch, actor) (list_of R)))) as Hs'.
    { destruct Hs as [Sc Sn]. split; [|exact Sn]; simpl. intros ch' v e0 [_ E]%lookup_delete_Some. by eapply Sc. }
    pose proof (mirrored_delete R t ch cn actor un Hs Hm Ec Ea) as Hm'.
    pose proof (mirrored_row _ _ ch cn u vn t0 Hm' Ec Eu Et) as Er.
    change (replay _ t) with (alter (fun r => (r <| rw_level := S_C_OWNER |> <| rw_suspend := 0 |>) <| rw_lastmod := myname |>) (cn, vn) (delete (cn, un) t)).
    rewrite (alter_row _ _ _ _ Er). by apply (mirrored_set _ _ ch cn u vn _ Hs' Hm').
  - change (replay _ t) with (delete (cn, un) t).
    refine (mirrored_names (Registry (names R) (delete (ch, actor) (list_of R))) (delete (cn, un) t) (delete ch (names R)) (mirrored_delete R t ch cn actor un Hs Hm Ec Ea) _). simpl.
    intros ch' v e0 [Hne E]%lookup_delete_Some. rewrite lookup_delete_ne; [done|]. intros <-. rewrite Hno in E; congruence.
  - change (replay _ t) with (filter (fun kv : (string * string) * row => fst (fst kv) ≠ cn) t).
    refine (mirrored_names (Registry (names R) (filter (fun kv : key * row => fst (fst kv) ≠ ch) (list_of R)))
      (filter (fun kv : (string * string) * row => fst (fst kv) ≠ cn) t) (delete ch (names R)) _ _).
    + intros cn' un' e. cbn -[filter]. rewrite map_lookup_filter_Some. cbn. split.
      * intros [(ch' & u & Ec' & Eu & El)%Hm Hne]. exists ch', u. split_and!; [done..|].
        apply map_lookup_filter_Some. split; [done|]. simpl. congruence.
      * intros (ch' & u & Ec' & Eu & [El Hne]%map_lookup_filter_Some). simpl in Hne. split; [apply Hm; eauto|].
        intros ->. apply Hne. by eapply same_channel.
    + simpl. intros ch' v e [E Hne]%map_lookup_filter_Some. simpl in Hne. rewrite lookup_delete_ne; [done|congruence].
Qed.
End mirror.

(** ** Statements among silent ones *)
Inductive among : list statement → list statement → Prop :=
| among_nil : among [] []
| among_keep s l2 l : among l2 l → among (s :: l2) (s :: l)
| among_skip s l2 l : silent s → among l2 l → among l2 (s :: l).

Lemma among_app a l b m : among a l → among b m → among (a ++ b) (l ++ m).
Proof. induction 1; intros Hm; [done|by constructor; auto|by constructor; auto]. Qed.

Lemma among_silent l : Forall silent l → among [] l.
Proof. induction 1; [constructor|by apply among_skip]. Qed.

Lemma among_refl l : among l l.
Proof. induction l; by constructor. Qed.

Lemma replay_among l2 l t : among l2 l → replay l t = replay l2 t.
Proof. intros Ha. revert t. induction Ha as [|s l2 l _ IH|s l2 l Hs _ IH]; intros t; [done|apply IH|]. cbn. rewrite Hs. apply IH. Qed.
