(* ===== verification/ChanRegs.v ===== *)
(** * The registrations of channels: invariant and rules

    [regs_ok]: the table, the lists of the registrations of channels and users and
    the accesses between them agree.  [served]: a state in which a command of the
    service can run.  [did l c w w']: from [w] to [w'] the statements [l] were run,
    the service's data became [c], and of the network nothing changed; most steps of
    the commands are of this kind, and the rules here give their [l] and [c]. *)

From S2P Require Import Prelude CString Match Rblib Tools Fault Snprintf Rsdb World Lookup Channel Service Conf Client Dispatch Net Members Index Handlers Joins Modes Clients Exits Commands Replies Requests ChanServ ChanAcl.

Section aside.
Context `{SYS : Sys}.

(** What lines, logs and lookups do not touch. *)
Definition aside (w : world) : mod_state * gmap ptr host_entry * gmap Z (list ptr) := (mods w, hosts w, host_table w).

Lemma keeps_sendto_server line : keeps aside (sendto_server line).
Proof. unfold sendto_server. keeps_tac; by apply keeps_modify. Qed.

Lemma keeps_mlog line : keeps aside (mlog line).
Proof. by apply keeps_modify. Qed.
End aside.
#[export] Hint Resolve keeps_sendto_server keeps_mlog : keeps.

Section replies.
Context `{SYS : Sys}.

Lemma keeps_user_of p : keeps aside (user_of p).
Proof. unfold user_of. keeps_tac. Qed.
Lemma keeps_service_of p : keeps aside (service_of p).
Proof. unfold service_of. keeps_tac. Qed.
#[local] Hint Resolve keeps_user_of keeps_service_of : keeps.

Lemma keeps_service_error s p text : keeps aside (service_error s p text).
Proof. unfold service_error. keeps_tac. Qed.
#[local] Hint Resolve keeps_service_error : keeps.

Lemma keeps_service_err s p id args : keeps aside (service_err s p id args).
Proof. unfold service_err, user_language. keeps_tac. Qed.

Lemma keeps_watch_send flag p oper text : keeps aside (watch_send flag p oper text).
Proof. unfold watch_send, OPER_NAME, reg_name. keeps_tac. Qed.
#[local] Hint Resolve keeps_watch_send : keeps.

Lemma keeps_zlog s n f oper p text : keeps aside (zlog s n f oper p text).
Proof. unfold zlog, OPER_NAME. keeps_tac. Qed.
End replies.
#[export] Hint Resolve keeps_user_of keeps_service_of keeps_service_err keeps_zlog : keeps.

(** ** Invariant *)

(** An access with a property. *)
Definition access (c : chanserv) (P : member_reg → Prop) (m : ptr) : Prop :=
  ∃ mr, member_regs c !! m = Some mr ∧ P mr.
Definition to_chan (p : ptr) (mr : member_reg) : Prop := mr_channel_reg mr = p.
Definition of_user (u : ptr) (mr : member_reg) : Prop := mr_user_reg mr = u.

(** What is printed into statements, and the list of bans. *)
Definition tidy (r : chan_reg) : Prop :=
  no_nul (cr_name r) = true ∧ (strlen (cr_name r) < 1024)%nat ∧ 0 ≤ cr_flags r < 2 ^ 31 ∧ NoDup (cr_bans r).

Record regs_ok (regs : gmap ptr user_reg) (c : chanserv) : Prop := RegsOk {
  ro_table : indexed (chan_reg_table c) (fun p h => ∃ r, chan_regs c !! p = Some r ∧ hash_channel (cr_name r) = h);
  ro_tidy p r : chan_regs c !! p = Some r → tidy r;
  ro_unique p q r r' : chan_regs c !! p = Some r → chan_regs c !! q = Some r' → irccmp (cr_name r) (cr_name r') = 0 → p = q;
  ro_users p r : chan_regs c !! p = Some r → lists (cr_users r) (access c (to_chan p));
  ro_channels u : is_Some (regs !! u) → lists (default [] (ureg_channels c !! u)) (access c (of_user u));
  ro_member m mr : member_regs c !! m = Some mr →
    is_Some (chan_regs c !! mr_channel_reg mr) ∧ is_Some (regs !! mr_user_reg mr) ∧ (strlen (mr_lastmod mr) < 1024)%nat;
  ro_level m mr : member_regs c !! m = Some mr → 1 ≤ mr_level mr ≤ 200 ∧ 0 ≤ mr_flags mr < 2 ^ 31 ∧ 0 ≤ mr_suspend mr;
  ro_one m m' mr mr' : member_regs c !! m = Some mr → member_regs c !! m' = Some mr' →
    mr_channel_reg mr = mr_channel_reg mr' → mr_user_reg mr = mr_user_reg mr' → m = m';
  ro_uregs h u : u ∈ bucket (user_reg_table c) h → is_Some (regs !! u);
  ro_names u r : regs !! u = Some r → (strlen (ur_name r) < 1024)%nat;
  ro_distinct u v r r' : regs !! u = Some r → regs !! v = Some r' → ur_name r = ur_name r' → u = v
}.

(** The same registrations and accesses: times, flags, suspensions of channels and
    counters may differ. *)
Definition face (r : chan_reg) : string * list ptr * list ptr := (cr_name r, cr_users r, cr_bans r).

Record same_access (c c' : chanserv) : Prop := SameAccess {
  sa_members : member_regs c' = member_regs c;
  sa_channels : ureg_channels c' = ureg_channels c;
  sa_table : chan_reg_table c' = chan_reg_table c;
  sa_uregs : user_reg_table c' = user_reg_table c;
  sa_chanserv : chanserv_p c' = chanserv_p c;
  sa_userserv : userserv_p c' = userserv_p c;
  sa_config : cs_config c' = cs_config c;
  sa_faces : face <$> chan_regs c' = face <$> chan_regs c;
  sa_tidy : map_Forall (fun _ => tidy) (chan_regs c) → map_Forall (fun _ => tidy) (chan_regs c')
}.

#[export] Instance same_access_preorder : PreOrder same_access.
Proof.
  split.
  - intros c. by split.
  - intros c c' c'' [] []. split; [congruence..|auto].
Qed.

Lemma same_access_back c c' p r' :
  same_access c c' → chan_regs c' !! p = Some r' → ∃ r, chan_regs c !! p = Some r ∧ face r' = face r.
Proof.
  intros Hs E. assert ((face <$> chan_regs c) !! p = Some (face r')) as Ef by (by rewrite <- (sa_faces _ _ Hs), lookup_fmap, E).
  rewrite lookup_fmap in Ef. apply fmap_Some in Ef as (r & ? & ?). by exists r.
Qed.

Lemma same_access_fwd c c' p r :
  same_access c c' → chan_regs c !! p = Some r → ∃ r', chan_regs c' !! p = Some r' ∧ face r' = face r.
Proof.
  intros Hs E. assert ((face <$> chan_regs c') !! p = Some (face r)) as Ef by (by rewrite (sa_faces _ _ Hs), lookup_fmap, E).
  rewrite lookup_fmap in Ef. apply fmap_Some in Ef as (r' & ? & ?). by exists r'.
Qed.

Lemma regs_same regs c c' : same_access c c' → regs_ok regs c → regs_ok regs c'.
Proof.
  intros Hs [T Y U L K M V O R N D]. pose proof (same_access_back c c') as Hb. pose proof (same_access_fwd c c') as Hf.
  assert (∀ P m, access c' P m ↔ access c P m) as Ha by (intros P m; unfold access; by rewrite (sa_members _ _ Hs)).
  split.
  - rewrite (sa_table _ _ Hs). eapply indexed_iff; [|exact T]. intros p h. split.
    + intros (r & E & <-). destruct (Hf p r Hs E) as (r' & E' & [= ? _ _]). exists r'. split; [done|]. congruence.
    + intros (r' & E & <-). destruct (Hb p r' Hs E) as (r & E' & [= ? _ _]). exists r. split; [done|]. congruence.
  - apply (sa_tidy _ _ Hs). exact Y.
  - intros p q r r' (s & E & [= -> _ _])%(Hb _ _ Hs) (s' & E' & [= -> _ _])%(Hb _ _ Hs). by eapply U.
  - intros p r' (r & E & [= _ -> _])%(Hb _ _ Hs). eapply lists_iff; [|by apply (L p r)]. intros x. by rewrite Ha.
  - intros u Hu. rewrite (sa_channels _ _ Hs). eapply lists_iff; [|by apply (K u)]. intros x. by rewrite Ha.
  - intros m mr. rewrite (sa_members _ _ Hs). intros ([r E] & ? & ?)%M. split; [|done].
    destruct (Hf _ r Hs E) as (r' & E' & _). by exists r'.
  - intros m mr. rewrite (sa_members _ _ Hs). apply V.
  - intros m m' mr mr'. rewrite (sa_members _ _ Hs). apply O.
  - intros h u. rewrite (sa_uregs _ _ Hs). apply R.
  - exact N.
  - exact D.
Qed.

(** A registration changed in what its face does not show. *)
Lemma same_access_alter c p f :
  (∀ r, face (f r) = face r) → (∀ r, tidy r → tidy (f r)) → same_access c (c <| chan_regs ::= alter f p |>).
Proof.
  intros Hf Ht. split; try done.
  - simpl. apply map_eq. intros q. rewrite !lookup_fmap, lookup_alter. case_decide; [|done]. subst.
    destruct (chan_regs c !! q) as [r|]; [|done]. simpl. by rewrite Hf.
  - intros Hc q r'. simpl. rewrite lookup_alter. case_decide; [|by apply Hc]. subst.
    destruct (chan_regs c !! q) as [r|] eqn:E; [|done]. intros [= <-]. by apply Ht, (Hc q).
Qed.

(** ** Steps *)
Section steps.
Context `{SYS : Sys} `{CS : !ChanServ}.

(** A list of statements, run one after the other; some may be queries. *)
Definition ran (s : statement) (d d' : database) : Prop :=
  rsdb_exec (fst s) (snd s) d = Ok tt d' ∨ ∃ t, rsdb_exec_fetch (fst s) (snd s) d = Ok t d'.
Fixpoint executed (l : list statement) (d d' : database) : Prop :=
  match l with
  | [] => d' = d
  | s :: l => ∃ d1, ran s d d1 ∧ executed l d1 d'
  end.

Lemma executed_app l1 l2 d d1 d2 : executed l1 d d1 → executed l2 d1 d2 → executed (l1 ++ l2) d d2.
Proof.
  revert d. induction l1 as [|s l1 IH]; simpl; intros d; [by intros ->|].
  intros (d3 & E & H1) H2. exists d3. split; [done|]. by apply IH.
Qed.

(** The table of hosts holds hosts that are there. *)
Definition hosts_ok (w : world) : Prop := ∀ h p, p ∈ bucket (host_table w) h → is_Some (hosts w !! p).

Record did (l : list statement) (c : chanserv) (w w' : world) : Prop := Did {
  did_net : same_net w w';
  did_hosts : hosts_ok w → hosts_ok w';
  did_cs : cs w' = c;
  did_db : executed l (db_get (mods w)) (db_get (mods w'))
}.

Lemma did_nothing w : did [] (cs w) w w.
Proof. by split. Qed.

Lemma did_trans l1 l2 c1 c2 w w1 w2 : did l1 c1 w w1 → did l2 c2 w1 w2 → did (l1 ++ l2) c2 w w2.
Proof.
  intros [N1 H1 C1 D1] [N2 H2 C2 D2]. split; [by etrans|auto|done|by eapply executed_app].
Qed.

(** A quiet computation that keeps aside. *)
Lemma wp_told {A} (m : M world A) (Q : A → world → Prop) w :
  quiet m w → keeps aside m → (∀ a w', did [] (cs w) w w' → Q a w') → wp m Q w.
Proof.
  intros Hm Hk HQ. eapply wp_conseq; [by apply (wp_keeps aside)|]. cbn beta. intros a w' [Hs [= Em Eh Et]].
  apply HQ. split; [done|unfold hosts_ok; by rewrite Eh, Et|unfold cs; by rewrite Em..].
Qed.

Lemma wp_upd_cs f (Q : unit → world → Prop) w :
  (∀ w', did [] (f (cs w)) w w' → Q tt w') → wp (upd_cs f) Q w.
Proof.
  intros HQ. apply wp_modify, HQ. split; [by split|done|..].
  - unfold cs. simpl. by rewrite cs_get_set.
  - simpl. by rewrite db_get_cs_set.
Qed.

Lemma wp_on_db {A} (m : M database A) (Q : A → world → Prop) w :
  wp m (fun a d => Q a (w <| mods ::= db_set d |>)) (db_get (mods w)) → wp (on_db m) Q w.
Proof.
  intros Hm. apply wp_intro; unfold on_db.
  - intros f. destruct (m (db_get (mods w))) as [| |f'] eqn:E; [done..|]. by destruct (wp_no_fault _ _ _ f' Hm).
  - intros a w'. destruct (m (db_get (mods w))) as [b d| |] eqn:E; [|done..]. intros [= <- <-]. by apply (wp_elim _ _ _ _ _ Hm).
Qed.

Lemma wp_db_exec format args (Q : unit → world → Prop) w :
  printable format args → (∀ w', did [(format, args)] (cs w) w w' → Q tt w') → wp (db_exec format args) Q w.
Proof.
  intros [t Ht]%printable_formats HQ. apply wp_on_db. apply wp_intro; [intros f; by eapply rsdb_exec_safe|].
  intros [] d E. apply HQ. split; [by split|done|..].
  - unfold cs. simpl. by rewrite cs_get_db_set.
  - simpl. rewrite db_get_set. exists d. split; [by left|done].
Qed.

Lemma wp_chan_reg_at p r (Q : chan_reg → world → Prop) w :
  chan_regs (cs w) !! p = Some r → Q r w → wp (chan_reg_at p) Q w.
Proof. intros E HQ. by eapply (wp_rd (fun w => chan_regs (cs w))). Qed.

Lemma wp_member_reg_at p m (Q : member_reg → world → Prop) w :
  member_regs (cs w) !! p = Some m → Q m w → wp (member_reg_at p) Q w.
Proof. intros E HQ. by eapply (wp_rd (fun w => member_regs (cs w))). Qed.

Lemma wp_ureg_name u r (Q : string → world → Prop) w :
  user_regs w !! u = Some r → Q (ur_name r) w → wp (ureg_name u) Q w.
Proof. intros E HQ. unfold ureg_name. apply wp_bind. eapply wp_rd; [done|]. by apply wp_ret. Qed.

Lemma wp_upd_chan_reg p r f (Q : unit → world → Prop) w :
  chan_regs (cs w) !! p = Some r →
  (∀ w', did [] ((cs w) <| chan_regs ::= alter f p |>) w w' → Q tt w') → wp (upd_chan_reg p f) Q w.
Proof. intros E HQ. unfold upd_chan_reg. apply wp_bind. eapply wp_chan_reg_at; [done|]. by apply wp_upd_cs. Qed.

Lemma wp_upd_member_reg p m f (Q : unit → world → Prop) w :
  member_regs (cs w) !! p = Some m →
  (∀ w', did [] ((cs w) <| member_regs ::= alter f p |>) w w' → Q tt w') → wp (upd_member_reg p f) Q w.
Proof. intros E HQ. unfold upd_member_reg. apply wp_bind. eapply wp_member_reg_at; [done|]. by apply wp_upd_cs. Qed.

Lemma wp_upd_ureg_channels u f (Q : unit → world → Prop) w :
  is_Some (user_regs w !! u) →
  (∀ w', did [] ((cs w) <| ureg_channels ::= fun t => <[u := f (default [] (t !! u))]> t |>) w w' → Q tt w') →
  wp (upd_ureg_channels u f) Q w.
Proof. intros [r E] HQ. unfold upd_ureg_channels. apply wp_bind. eapply wp_rd; [done|]. by apply wp_upd_cs. Qed.
End steps.

(** ** Where commands run *)
Section served.
Context `{SYS : Sys} `{RB : !RbSpec} `{HK : !HooksOk} `{CS : !ChanServ}.

Record served (w : world) (client_p : ptr) : Prop := Served {
  se_ready : ready w (chanserv_p (cs w)) client_p;
  se_userserv : ready w (userserv_p (cs w)) client_p;
  se_regs : regs_ok (user_regs w) (cs w);
  se_now : 0 ≤ rb_time w < 10 ^ 17;
  se_myname : (strlen (cf_name (config_file w)) < 1024)%nat;
  se_opers o b : conf_opers w !! o = Some b → (strlen (oper_name b) < 1024)%nat;
  se_ts p ch : channels w !! p = Some ch → 0 ≤ ch_tsinfo ch < 10 ^ 18;
  se_hosts : hosts_ok w
}.

(** From [w0] to [w] in steps of this kind, still in a state for commands. *)
Record path (p : ptr) (w0 : world) (l : list statement) (w : world) : Prop := Path {
  pa_did : did l (cs w) w0 w;
  pa_served : served w p
}.

Lemma path_start w p : served w p → path p w [] w.
Proof. intros Hw. split; [apply did_nothing|done]. Qed.

Lemma path_step p w0 l w l' c w' :
  path p w0 l w → did l' c w w' → regs_ok (user_regs w) c →
  chanserv_p c = chanserv_p (cs w) → userserv_p c = userserv_p (cs w) → path p w0 (l ++ l') w'.
Proof.
  intros [D S] D' Hr Ec Eu. pose proof (did_cs _ _ _ _ D') as E. split.
  - rewrite E. by eapply did_trans.
  - destruct S as [S1 S2 S3 S4 S5 S6 S7 S8]. pose proof (did_net _ _ _ _ D') as Hn. destruct Hn as [].
    assert (∀ s, ready w s p → ready w' s p) as Hready.
    { intros s. apply ready_tally, tally_same, (did_net _ _ _ _ D'). }
    split; rewrite ?E, ?Ec, ?Eu; try congruence; auto.
    + intros o b. rewrite sn_conf_opers. apply S6.
    + intros q ch. rewrite sn_channels. apply S7.
    + by apply (did_hosts _ _ _ _ D').
Qed.

Lemma path_same p w0 l w l' c w' :
  path p w0 l w → did l' c w w' → same_access (cs w) c → path p w0 (l ++ l') w'.
Proof.
  intros P D Hs. eapply path_step; [done|done|eapply regs_same; [done|apply (pa_served _ _ _ _ P)]|apply Hs..].
Qed.

(** The start of a path may be moved forward. *)
Lemma path_served p w0 l w : path p w0 l w → served w p.
Proof. apply pa_served. Qed.

(** *** Replies and logs *)
Lemma quiet_service_err w s p id args : ready w s p → quiet (service_err s p id args) w.
Proof.
  intros R. destruct (user_language_run w s p R) as [l El]. unfold service_err, quiet.
  apply wp_bind. apply (wp_ok _ _ _ _ _ El).
  apply quiet_service_error; [by eapply ready_service|]. destruct (ready_user _ _ _ R) as (c & u & Ec & _). by exists c.
Qed.

Lemma quiet_zlog w s p n f oper text : ready w s p → quiet (zlog s n f oper p text) w.
Proof.
  intros R. unfold zlog. destruct (ready_user _ _ _ R) as (c & u & Ec & Eu).
  destruct (ready_service _ _ _ R) as (c' & sv & Ec' & Es). unfold quiet.
  apply wp_bind. eapply wp_service_of; [done..|]. apply wp_bind. eapply wp_rd; [exact Ec'|].
  cut (∀ w', same_net w w' → quiet (when (negb (f =? 0)) (watch_send f p oper (str_take (BUFSIZE - 1) text))) w').
  { intros Hl. apply wp_bind. apply wp_when; [|by intros; apply Hl]. intros _.
    apply wp_bind. eapply wp_user_of; [done..|]. apply wp_bind. eapply wp_conseq; [by eapply wp_oper_name|]. cbn beta. intros n' ? ->.
    destruct (rq_mask _ (re_requests _ _ _ R) p c u Ec Eu) as [mask Em].
    apply wp_bind. eapply wp_need; [exact Em|]. apply wp_bind. apply (wp_gets (fun s => s)).
    eapply wp_conseq; [apply quiet_sendto_server|]. cbn beta. intros _ w' Hs.
    eapply wp_conseq; [by apply Hl|]. cbn beta. intros _ w''. by etrans. }
  intros w' Hs. apply quiet_when. intros _. eapply quiet_watch_send. eapply ready_tally; [by apply tally_same|exact R].
Qed.

Lemma path_err p w0 l w (Q : unit → world → Prop) name args :
  path p w0 l w → (∀ w', path p w0 l w' → did [] (cs w) w w' → Q tt w') → wp (chan_err p name args) Q w.
Proof.
  intros P HQ. apply wp_bind, wp_gets. apply wp_told.
  - apply quiet_service_err, (pa_served _ _ _ _ P).
  - apply keeps_service_err.
  - intros [] w' D. apply HQ; [|done]. rewrite <- (app_nil_r l). by eapply path_same.
Qed.

Lemma path_user_err p w0 l w (Q : unit → world → Prop) id args :
  path p w0 l w → (∀ w', path p w0 l w' → did [] (cs w) w w' → Q tt w') →
  wp (service_err (userserv_p (cs w)) p id args) Q w.
Proof.
  intros P HQ. apply wp_told.
  - apply quiet_service_err, (pa_served _ _ _ _ P).
  - apply keeps_service_err.
  - intros [] w' D. apply HQ; [|done]. rewrite <- (app_nil_r l). by eapply path_same.
Qed.

Lemma path_log p w0 l w (Q : unit → world → Prop) n f oper text :
  path p w0 l w → (∀ w', path p w0 l w' → did [] (cs w) w w' → Q tt w') → wp (chan_log n f oper p text) Q w.
Proof.
  intros P HQ. apply wp_bind, wp_gets. apply wp_told.
  - apply quiet_zlog, (pa_served _ _ _ _ P).
  - apply keeps_zlog.
  - intros [] w' D. apply HQ; [|done]. rewrite <- (app_nil_r l). by eapply path_same.
Qed.

(** *** Lookups *)
Definition creg_spec (name : string) (w : world) (r : option ptr) : Prop :=
  match r with
  | Some p => ∃ g, chan_regs (cs w) !! p = Some g ∧ irccmp (cr_name g) name = 0
  | None => ∀ p g, chan_regs (cs w) !! p = Some g → irccmp (cr_name g) name ≠ 0
  end.

Lemma find_channel_reg_run w name :
  regs_ok (user_regs w) (cs w) → no_nul name = true →
  ∃ r, find_first (chan_reg_is name) (bucket (chan_reg_table (cs w)) (hash_channel name)) w = Ok r w ∧ creg_spec name w r.
Proof.
  intros Hr Hn. destruct (find_first_heap (fun w => chan_regs (cs w)) (fun g => irccmp (cr_name g) name =? 0) (chan_reg_is name)
    (bucket (chan_reg_table (cs w)) (hash_channel name)) w) as (r & Er & Hf).
  - intros p g E. unfold chan_reg_is, chan_reg_at, rd. erewrite bind_ok; [|erewrite bind_ok by done; by rewrite E]. done.
  - intros p Hp. apply (ro_table _ _ Hr) in Hp as (g & E & _). by exists g.
  - exists r. split; [done|]. destruct r as [p|]; simpl.
    + destruct Hf as (_ & g & E & Hc). exists g. split; [done|]. by apply Z.eqb_eq.
    + intros p g E Hc. destruct (ro_tidy _ _ Hr p g E) as [Hg _].
      specialize (Hf p g). rewrite (proj2 (Z.eqb_eq _ _) Hc) in Hf. enough (true = false) by done.
      apply Hf; [|done]. apply (ro_table _ _ Hr). exists g. split; [done|]. by apply hash_channel_irccmp.
Qed.

Lemma wp_find_channel_reg w name (Q : option ptr → world → Prop) :
  regs_ok (user_regs w) (cs w) → no_nul name = true → (∀ r, creg_spec name w r → Q r w) → wp (find_channel_reg None name) Q w.
Proof.
  intros Hr Hn HQ. destruct (find_channel_reg_run w name Hr Hn) as (r & Er & Hs). unfold find_channel_reg.
  apply wp_bind, wp_gets. apply wp_bind. apply (wp_ok _ _ _ _ _ Er). destruct r; apply wp_ret; by apply HQ.
Qed.

Lemma path_find_channel_reg p w0 l w name (Q : option ptr → world → Prop) :
  path p w0 l w → no_nul name = true →
  (∀ r w', path p w0 l w' → did [] (cs w) w w' → creg_spec name w' r → Q r w') → wp (find_channel_reg (Some p) name) Q w.
Proof.
  intros P Hn HQ. destruct (find_channel_reg_run w name (se_regs _ _ (pa_served _ _ _ _ P)) Hn) as (r & Er & Hs).
  unfold find_channel_reg. apply wp_bind, wp_gets. apply wp_bind. apply (wp_ok _ _ _ _ _ Er). destruct r as [q|].
  - apply wp_ret, HQ; [done|apply did_nothing|done].
  - apply wp_bind. eapply path_err; [done|]. intros w' P' D. apply wp_ret, HQ; [done..|].
    unfold creg_spec. by rewrite (did_cs _ _ _ _ D).
Qed.
End served.

(** ** Looking registrations and accesses up *)
Section lookups.
Context `{SYS : Sys} `{RB : !RbSpec} `{HK : !HooksOk} `{CS : !ChanServ}.

Lemma served_user w p : served w p → ∃ c u, clients w !! p = Some c ∧ cl_user c = Some u.
Proof. intros S. by eapply ready_user, (se_ready _ _ S). Qed.

(** [client_p->user->user_reg]. *)
Definition login_of (w : world) (p : ptr) : option ptr :=
  match clients w !! p with Some c => match cl_user c with Some u => us_user_reg u | None => None end | None => None end.

Lemma login_of_user w p c u : clients w !! p = Some c → cl_user c = Some u → login_of w p = us_user_reg u.
Proof. unfold login_of. by intros -> ->. Qed.

Lemma login_live w p u : served w p → login_of w p = Some u → is_Some (user_regs w !! u).
Proof.
  intros S E. destruct (served_user w p S) as (c & us & Ec & Eu). rewrite (login_of_user w p c us Ec Eu) in E.
  by eapply (user_registration w (chanserv_p (cs w)) p c us u (se_ready _ _ S)).
Qed.

Lemma find_first_ureg w name :
  regs_ok (user_regs w) (cs w) →
  ∃ r, find_first (user_reg_is name) (bucket (user_reg_table (cs w)) (hash_name name)) w = Ok r w ∧
    (∀ u, r = Some u → is_Some (user_regs w !! u)).
Proof.
  intros Hr. destruct (find_first_heap user_regs (fun g => strcasecmp (ur_name g) name =? 0) (user_reg_is name)
    (bucket (user_reg_table (cs w)) (hash_name name)) w) as (r & Er & Hf).
  - intros p g E. unfold user_reg_is, rd. erewrite bind_ok; [|erewrite bind_ok by done; by rewrite E]. done.
  - apply (ro_uregs _ _ Hr).
  - exists r. split; [done|]. intros u ->. destruct Hf as (_ & g & E & _). by exists g.
Qed.

Lemma find_login w p name :
  served w p → no_nul name = true →
  ∃ r, (t ← find_user name false; match t with None => mret None | Some t => u ← user_of t; mret (us_user_reg u) end) w = Ok r w ∧
    (∀ u, r = Some u → is_Some (user_regs w !! u)).
Proof.
  intros S Hn. pose proof (proj1 (re_good _ _ _ (se_ready _ _ S))) as Hi.
  destruct (find_named_client_ok w name (ni_tables _ Hi) Hn) as (r & E & Hr).
  assert (find_user name false w = Ok (restrict w KUser r) w) as Ef.
  { unfold find_user. rewrite (bind_ok _ _ _ _ _ E). apply (of_kind_run w KUser); [done|apply Hi|].
    intros q ->. by eapply found_live. }
  rewrite (bind_ok _ _ _ _ _ Ef). destruct (restrict w KUser r) as [t|] eqn:Et; [|by eexists].
  unfold restrict in Et. destruct r as [q|]; [|done]. simpl in Et. destruct Hr as (i & Ei & Hnet & _).
  rewrite Ei in Et. simpl in Et. case_decide as Hk; [|done]. injection Et as <-.
  destruct (kind_user w q true) as (c & u & Ec & Eu); [by exists i|]. exists (us_user_reg u).
  assert (user_of q w = Ok u w) as Hu.
  { unfold user_of, rd. erewrite bind_ok; [|erewrite bind_ok by done; by rewrite Ec]. by rewrite Eu. }
  rewrite (bind_ok _ _ _ _ _ Hu). split; [done|]. intros v Ev. rewrite (ids_of _ _ _ Ec) in Ei. injection Ei as <-.
  apply (acc_reg _ (ni_accounts _ Hi) q _ v (ids_of _ _ _ Ec) Hnet). simpl. by rewrite Eu.
Qed.

Lemma no_nul_tail s : no_nul s = true → no_nul (tail s) = true.
Proof. destruct s as [|c s]; [done|]. simpl. intros H. by apply andb_true_iff in H as [_ H]. Qed.

Lemma wp_find_user_reg_nick w p name (Q : option ptr → world → Prop) :
  served w p → no_nul name = true → (∀ r, (∀ u, r = Some u → is_Some (user_regs w !! u)) → Q r w) →
  wp (find_user_reg_nick None name) Q w.
Proof.
  intros S Hn HQ. unfold find_user_reg_nick. destruct (Ascii.eqb _ _).
  - apply wp_assoc. destruct (find_login w p (tail name) S (no_nul_tail _ Hn)) as (r & Er & Hr).
    apply wp_bind. apply (wp_ok _ _ _ _ _ Er). destruct r; by apply wp_ret, HQ.
  - apply wp_bind, wp_gets. destruct (find_first_ureg w name (se_regs _ _ S)) as (r & Er & Hr).
    apply wp_bind. apply (wp_ok _ _ _ _ _ Er). destruct r; by apply wp_ret, HQ.
Qed.

Lemma path_find_user_reg_nick p w0 l w name (Q : option ptr → world → Prop) :
  path p w0 l w → no_nul name = true →
  (∀ r w', path p w0 l w' → did [] (cs w) w w' → (∀ u, r = Some u → is_Some (user_regs w' !! u)) → Q r w') →
  wp (find_user_reg_nick (Some p) name) Q w.
Proof.
  intros P Hn HQ. pose proof (pa_served _ _ _ _ P) as S. unfold find_user_reg_nick. destruct (Ascii.eqb _ _).
  - destruct (find_login w p (tail name) S (no_nul_tail _ Hn)) as (r & Er & Hr).
    apply wp_assoc. apply wp_bind. apply (wp_ok _ _ _ _ _ Er). destruct r as [u|].
    + apply wp_ret, HQ; [done|apply did_nothing|done].
    + apply wp_bind, wp_gets. apply wp_bind. eapply path_user_err; [done|]. intros w' P' D. by apply wp_ret, HQ.
  - apply wp_bind, wp_gets. destruct (find_first_ureg w name (se_regs _ _ S)) as (r & Er & Hr).
    apply wp_bind. apply (wp_ok _ _ _ _ _ Er). destruct r as [u|].
    + apply wp_ret, HQ; [done|apply did_nothing|done].
    + apply wp_bind. eapply path_user_err; [done|]. intros w' P' D. by apply wp_ret, HQ.
Qed.

(** The access of a registration to a channel. *)
Definition access_spec (c : chanserv) (u chreg_p : ptr) (r : option ptr) : Prop :=
  match r with
  | Some m => access c (fun mr => to_chan chreg_p mr ∧ of_user u mr) m
  | None => ∀ m, ¬ access c (fun mr => to_chan chreg_p mr ∧ of_user u mr) m
  end.

Lemma wp_find_member_reg w u chreg_p (Q : option ptr → world → Prop) :
  regs_ok (user_regs w) (cs w) → is_Some (user_regs w !! u) →
  (∀ r, access_spec (cs w) u chreg_p r → Q r w) → wp (find_member_reg (Some u) chreg_p) Q w.
Proof.
  intros Hr Hu HQ. unfold find_member_reg. pose proof Hu as [g Eg]. apply wp_bind. eapply wp_rd; [exact Eg|].
  apply wp_bind, wp_gets. unfold channels_of_ureg. destruct (ro_channels _ _ Hr u Hu) as [_ Hl].
  destruct (find_first_heap (fun w => member_regs (cs w)) (fun m => bool_decide (mr_channel_reg m = chreg_p)) (access_to chreg_p)
    (default [] (ureg_channels (cs w) !! u)) w) as (r & Er & Hf).
  - intros m mr E. unfold access_to, member_reg_at, rd. erewrite bind_ok; [|erewrite bind_ok by done; by rewrite E]. done.
  - intros m Hm. apply Hl in Hm as (mr & E & _). by exists mr.
  - apply (wp_ok _ _ _ _ _ Er). apply HQ. destruct r as [m|]; simpl.
    + destruct Hf as (Hm & mr & E & Hc). apply bool_decide_eq_true in Hc. apply Hl in Hm as (mr' & E' & Ho).
      exists mr. split; [done|]. split; [done|]. by simplify_eq.
    + intros m (mr & E & Hc & Ho). specialize (Hf m mr). rewrite bool_decide_true in Hf by done.
      discriminate Hf; [|done]. apply Hl. by exists mr.
Qed.
End lookups.

(** ** Edits of the registrations *)

(** An access changed in its values. *)
Lemma regs_alter_member regs c m mr f :
  regs_ok regs c → member_regs c !! m = Some mr → (∀ x, pair_of (f x) = pair_of x) →
  1 ≤ mr_level (f mr) ≤ 200 → 0 ≤ mr_flags (f mr) < 2 ^ 31 → 0 ≤ mr_suspend (f mr) → (strlen (mr_lastmod (f mr)) < 1024)%nat →
  regs_ok regs (c <| member_regs ::= alter f m |>).
Proof.
  intros [T Y U L K M V O R N D] E Hf H1 H2 H3 H4.
  assert (∀ x mx, alter f m (member_regs c) !! x = Some mx → ∃ mx', member_regs c !! x = Some mx' ∧ pair_of mx = pair_of mx' ∧ (x ≠ m → mx = mx') ∧ (x = m → mx = f mr)) as Hb.
  { intros x mx. rewrite lookup_alter. case_decide as Ex.
    - subst x. rewrite E. intros [= <-]. exists mr. by rewrite Hf.
    - intros Emx. exists mx. split_and!; [done|done|done|]. by intros ->. }
  assert (∀ P, (∀ x y, pair_of x = pair_of y → P x ↔ P y) → ∀ x,
    access (c <| member_regs ::= alter f m |>) P x ↔ access c P x) as Ha.
  { intros P HP x. unfold access. simpl. split.
    - intros (mx & (mx' & Ex & Ep & _)%Hb & Hx). exists mx'. split; [done|]. by apply (HP mx mx').
    - intros (mx & Ex & Hx). rewrite lookup_alter. case_decide; [|by exists mx]. subst x. rewrite Ex. exists (f mx).
      split; [done|]. by apply (HP (f mx) mx). }
  split; try done.
  - intros p r Er. eapply lists_iff; [|by apply (L p r)]. intros x. rewrite Ha; [done|]. intros y z [= E1 _]. unfold to_chan. by rewrite E1.
  - intros u Hu. eapply lists_iff; [|by apply (K u)]. intros x. rewrite Ha; [done|]. intros y z [= _ E1]. unfold of_user. by rewrite E1.
  - intros x mx (mx' & Ex & [= Ec Eu] & Hne & Heq)%Hb. rewrite Ec, Eu. destruct (M x mx' Ex) as (? & ? & ?).
    split_and!; [done|done|]. destruct (decide (x = m)) as [->|Hn]; [by rewrite Heq|]. by rewrite Hne.
  - intros x mx (mx' & Ex & _ & Hne & Heq)%Hb. destruct (decide (x = m)) as [->|Hn]; [by rewrite Heq|]. rewrite Hne by done. by eapply V.
  - intros x y mx my (mx' & Ex & [= Ec Eu] & _)%Hb (my' & Ey & [= Ec' Eu'] & _)%Hb. rewrite Ec, Eu, Ec', Eu'. by apply O.
Qed.

Definition enter_access (p : ptr) (mr : member_reg) (c : chanserv) `{RbLib} : chanserv :=
  c <| member_regs ::= <[p := mr]> |>
    <| ureg_channels ::= fun t => <[mr_user_reg mr := rb_dlinkAdd p (default [] (t !! mr_user_reg mr))]> t |>
    <| chan_regs ::= alter (fun r => r <| cr_users ::= rb_dlinkAdd p |>) (mr_channel_reg mr) |>.

Definition leave_access (p : ptr) (mr : member_reg) (c : chanserv) `{RbLib} : chanserv :=
  c <| ureg_channels ::= fun t => <[mr_user_reg mr := rb_dlinkDelete p (default [] (t !! mr_user_reg mr))]> t |>
    <| chan_regs ::= alter (fun r => r <| cr_users ::= rb_dlinkDelete p |>) (mr_channel_reg mr) |>
    <| member_regs ::= delete p |>.

Lemma chan_regs_alter c p f q r :
  (∀ r, cr_name (f r) = cr_name r) → alter f p (chan_regs c) !! q = Some r →
  ∃ r', chan_regs c !! q = Some r' ∧ cr_name r = cr_name r' ∧ r = (if decide (p = q) then f r' else r').
Proof.
  intros Hf. rewrite lookup_alter. case_decide; [|by eauto]. subst. destruct (chan_regs c !! q) as [r'|]; [|done].
  intros [= <-]. exists r'. by rewrite Hf.
Qed.

Lemma regs_enter `{RbSpec} regs c p mr :
  regs_ok regs c → member_regs c !! p = None → acl (member_regs c) !! pair_of mr = None →
  is_Some (chan_regs c !! mr_channel_reg mr) → is_Some (regs !! mr_user_reg mr) →
  1 ≤ mr_level mr ≤ 200 → 0 ≤ mr_flags mr < 2 ^ 31 → 0 ≤ mr_suspend mr → (strlen (mr_lastmod mr) < 1024)%nat →
  regs_ok regs (enter_access p mr c).
Proof.
  intros Hr Hp Hk Hc Hu H1 H2 H3 H4. pose proof Hr as [T Y U L K M V O R N D].
  assert (distinct (member_regs c)) as Hd by (intros ????? E [= ? ?]; by eapply O).
  assert (∀ P x, access (enter_access p mr c) P x ↔ access c P x ∨ (x = p ∧ P mr)) as Ha.
  { intros P x. unfold access. simpl. setoid_rewrite lookup_insert_Some. naive_solver. }
  assert (∀ P, ¬ access c P p) as Hnp by (intros P (? & E & _); congruence).
  set (f := fun r : chan_reg => r <| cr_users ::= rb_dlinkAdd p |>).
  split; try done.
  - eapply indexed_iff; [|exact T]. intros q h. simpl. split.
    + intros (r & E & <-). rewrite lookup_alter. case_decide; [|by exists r]. subst. rewrite E. by exists (f r).
    + intros (r & (r' & E & -> & _)%(chan_regs_alter c _ f) & <-); [|done]. by exists r'.
  - intros q r (r' & E & _ & ->)%(chan_regs_alter c _ f); [|done]. specialize (Y q r' E). by case_decide.
  - intros q q' r r' (s & E & -> & _)%(chan_regs_alter c _ f) (s' & E' & -> & _)%(chan_regs_alter c _ f); [|done..]. by apply U.
  - intros q r (r' & E & _ & ->)%(chan_regs_alter c _ f); [|done]. specialize (L q r' E). case_decide as Eq.
    + simpl. eapply lists_iff; [|apply lists_add; [exact L|apply Hnp]]. intros x. rewrite Ha. unfold to_chan at 3. naive_solver.
    + eapply lists_iff; [|exact L]. intros x. rewrite Ha. unfold to_chan at 3. naive_solver.
  - intros u Hu'. simpl. rewrite lookup_insert. case_decide as Eu; simpl.
    + subst. eapply lists_iff; [|apply lists_add; [by apply K|apply Hnp]]. intros x. rewrite Ha. unfold of_user at 3. naive_solver.
    + eapply lists_iff; [|by apply K]. intros x. rewrite Ha. unfold of_user at 3. naive_solver.
  - intros m mm. simpl. rewrite !lookup_insert_Some.
    intros [[<- <-]|[_ (? & ? & ?)%M]]; (split; [|done]); by apply lookup_alter_is_Some.
  - intros m mm. simpl. rewrite lookup_insert_Some. intros [[<- <-]|[_ E]]; [done|by eapply V].
  - intros m m' mm mm' E E' Ec Eu. eapply (distinct_insert (member_regs c) p mr); [done..|exact E|exact E'|]. unfold pair_of. congruence.
Qed.

Lemma regs_leave `{RbSpec} regs c p mr :
  regs_ok regs c → member_regs c !! p = Some mr → regs_ok regs (leave_access p mr c).
Proof.
  intros Hr Hp. pose proof Hr as [T Y U L K M V O R N D]. destruct (M p mr Hp) as ([rc Ec] & Hu & _).
  assert (∀ P x, access (leave_access p mr c) P x ↔ access c P x ∧ x ≠ p) as Ha.
  { intros P x. unfold access. simpl. setoid_rewrite lookup_delete_Some. naive_solver. }
  set (f := fun r : chan_reg => r <| cr_users ::= rb_dlinkDelete p |>).
  split; try done.
  - eapply indexed_iff; [|exact T]. intros q h. simpl. split.
    + intros (r & E & <-). rewrite lookup_alter. case_decide; [|by exists r]. subst. rewrite E. by exists (f r).
    + intros (r & (r' & E & -> & _)%(chan_regs_alter c _ f) & <-); [|done]. by exists r'.
  - intros q r (r' & E & _ & ->)%(chan_regs_alter c _ f); [|done]. specialize (Y q r' E). by case_decide.
  - intros q q' r r' (s & E & -> & _)%(chan_regs_alter c _ f) (s' & E' & -> & _)%(chan_regs_alter c _ f); [|done..]. by apply U.
  - intros q r (r' & E & _ & ->)%(chan_regs_alter c _ f); [|done]. specialize (L q r' E). case_decide as Eq.
    + simpl. eapply lists_iff; [|apply lists_delete; [exact L|by exists mr]]. intros x. by rewrite Ha.
    + eapply lists_iff; [|exact L]. intros x. rewrite Ha. split; [|tauto]. intros Hx. split; [done|]. intros ->.
      destruct Hx as (? & E' & Ht). unfold to_chan in Ht. congruence.
  - intros u Hu'. simpl. rewrite lookup_insert. case_decide as Eu; simpl.
    + subst. eapply lists_iff; [|apply lists_delete; [by apply K|by exists mr]]. intros x. by rewrite Ha.
    + eapply lists_iff; [|by apply K]. intros x. rewrite Ha. split; [|tauto]. intros Hx. split; [done|]. intros ->.
      destruct Hx as (? & E' & Ht). unfold of_user in Ht. congruence.
  - intros m mm. simpl. rewrite lookup_delete_Some. intros [_ (? & ? & ?)%M]. split; [|done]. by apply lookup_alter_is_Some.
  - intros m mm. simpl. rewrite lookup_delete_Some. intros [_ E]. by eapply V.
  - intros m m' mm mm'. simpl. rewrite !lookup_delete_Some. intros [_ E] [_ E']. by apply O.
Qed.
