(* ===== verification/ChanCmds.v ===== *)
(** * The commands of the channel service keep to the rules

    Every command of [ChanServ.v] runs to its end without a fault from any state
    that [served] describes, leaves such a state behind, and does to the registry
    what [ChanAcl.acts] allows and nothing else. *)

From S2P Require Import Prelude CString Match Rblib Tools Rserv Fault Snprintf Rsdb World Lookup Channel Service Conf Client Dispatch Net Members Index Handlers Joins Modes Clients Exits Commands Replies Requests ChanServ ChanAcl ChanRegs.

(** ** Ranges of flags *)
Lemma set_flag_range n x f : 0 ≤ n → 0 ≤ x < 2 ^ n → 0 ≤ f < 2 ^ n → 0 ≤ set_flag x f < 2 ^ n.
Proof.
  intros Hn Hx Hf. unfold set_flag. split; [apply Z.lor_nonneg; lia|].
  destruct (Z.eq_dec (Z.lor x f) 0) as [->|Hne]; [lia|]. apply Z.log2_lt_pow2.
  - assert (0 ≤ Z.lor x f) by (apply Z.lor_nonneg; lia). lia.
  - rewrite Z.log2_lor by lia. assert (∀ y, 0 ≤ y < 2 ^ n → y = 0 ∨ Z.log2 y < n) as Hl.
    { intros y Hy. destruct (Z.eq_dec y 0); [by left|]. right. apply Z.log2_lt_pow2; lia. }
    assert (n ≠ 0). { intros ->. destruct Hne. assert (x = 0) as -> by lia. assert (f = 0) as -> by lia. done. }
    destruct (Hl x Hx) as [->|?], (Hl f Hf) as [->|?]; simpl; lia.
Qed.

Lemma clear_flag_range n x f : 0 ≤ n → 0 ≤ x < 2 ^ n → 0 ≤ clear_flag x f < 2 ^ n.
Proof.
  intros Hn Hx. rewrite clear_flag_ldiff. assert (0 ≤ Z.ldiff x f) as H0 by (apply Z.ldiff_nonneg; lia). split; [done|].
  destruct (Z.eq_dec (Z.ldiff x f) 0) as [->|Hne]; [lia|]. apply Z.log2_lt_pow2; [lia|].
  destruct (Z.eq_dec x 0) as [->|?]; [done|].
  assert (Z.log2 x < n) by (apply Z.log2_lt_pow2; lia).
  assert (0 ≤ Z.land x f) by (apply Z.land_nonneg; lia).
  pose proof (Z.log2_lor (Z.ldiff x f) (Z.land x f) ltac:(lia) ltac:(lia)) as Hl. rewrite Z.lor_ldiff_and in Hl. lia.
Qed.

(** ** The registry of a state *)
Section registry.
Context `{SYS : Sys} `{CS : !ChanServ}.

Definition users_of (w : world) : gmap ptr string := ur_name <$> user_regs w.
Definition registry_at (w : world) : registry := registry_of (cs w).

Lemma regs_distinct regs c : regs_ok regs c → distinct (member_regs c).
Proof. intros Hr m m' mr mr' E E' [= ? ?]. by eapply (ro_one _ _ Hr). Qed.

Lemma same_registry c c' : same_access c c' → registry_of c' = registry_of c.
Proof.
  intros Hs. unfold registry_of. rewrite (sa_members _ _ Hs). f_equal. apply map_eq. intros p.
  pose proof (f_equal (fun m => m !! p) (sa_faces _ _ Hs)) as E. rewrite !lookup_fmap in E. rewrite !lookup_fmap.
  destruct (chan_regs c' !! p), (chan_regs c !! p); simpl in *; [|done..]. unfold face in E. congruence.
Qed.

Lemma regs_sound regs c : regs_ok regs c → sound (ur_name <$> regs) (registry_of c).
Proof.
  intros Hr. split; simpl.
  - intros ch u e (m & mr & E & [= <- <-] & <-)%acl_lookup; [|by eapply regs_distinct].
    destruct (ro_member _ _ Hr m mr E) as (Hc & Hu & _). rewrite !lookup_fmap, !fmap_is_Some.
    split; [done|]. split; [done|]. exact (proj1 (ro_level _ _ Hr m mr E)).
  - intros ch ch' cn cn'. rewrite !lookup_fmap. intros (r & E & ->)%fmap_Some (r' & E' & ->)%fmap_Some.
    by eapply (ro_unique _ _ Hr).
Qed.

Lemma regs_users_distinct regs c u v n :
  regs_ok regs c → (ur_name <$> regs) !! u = Some n → (ur_name <$> regs) !! v = Some n → u = v.
Proof.
  intros Hr. rewrite !lookup_fmap. intros (r & E & ->)%fmap_Some (r' & E' & En)%fmap_Some. by eapply (ro_distinct _ _ Hr).
Qed.
End registry.

(** ** The start of a command *)
Section start.
Context `{SYS : Sys} `{RB : !RbSpec} `{HK : !HooksOk} `{CS : !ChanServ}.

(** Further along a path, with the same registrations and accesses and nothing but
    silent statements. *)
Record along (p : ptr) (w0 : world) (l : list statement) (w w' : world) (l' : list statement) : Prop := Along {
  al_path : path p w0 (l ++ l') w';
  al_net : same_net w w';
  al_silent : Forall silent l';
  al_same : same_access (cs w) (cs w')
}.

Lemma along_refl p w0 l w : path p w0 l w → along p w0 l w w [].
Proof. intros P. split; [by rewrite app_nil_r|done|constructor|done]. Qed.

Lemma along_trans p w0 l w w1 w2 l1 l2 :
  along p w0 l w w1 l1 → along p w0 (l ++ l1) w1 w2 l2 → along p w0 l w w2 (l1 ++ l2).
Proof.
  intros [P1 N1 S1 A1] [P2 N2 S2 A2]. split; [by rewrite app_assoc|by etrans|by apply Forall_app|by etrans].
Qed.

(** A step that is a reply. *)
Lemma along_reply p w0 l w w1 w2 l1 :
  along p w0 l w w1 l1 → path p w0 (l ++ l1) w2 → did [] (cs w1) w1 w2 → along p w0 l w w2 l1.
Proof.
  intros [P1 N1 S1 A1] P2 D. split; [done|etrans; [done|apply D]|done|]. by rewrite (did_cs _ _ _ _ D).
Qed.

(** A registration with other flags and times. *)
Lemma along_alter p w0 l w w1 q f :
  path p w0 l w → did [] ((cs w) <| chan_regs ::= alter f q |>) w w1 →
  (∀ r, face (f r) = face r) → (∀ r, tidy r → tidy (f r)) → along p w0 l w w1 [].
Proof.
  intros P D Hf Ht. assert (same_access (cs w) ((cs w) <| chan_regs ::= alter f q |>)) as Hs by (by apply same_access_alter).
  split; [by eapply path_same|apply D|constructor|by rewrite (did_cs _ _ _ _ D)].
Qed.

Lemma along_exec p w0 l w w1 s :
  path p w0 l w → did [s] (cs w) w w1 → silent s → along p w0 l w w1 [s].
Proof. intros P D Hs. split; [by eapply path_same|apply D|by repeat constructor|by rewrite (did_cs _ _ _ _ D)]. Qed.

Lemma alter_at (c : chanserv) p f r :
  chan_regs c !! p = Some r → chan_regs (c <| chan_regs ::= alter f p |>) !! p = Some (f r).
Proof. intros E. simpl. by rewrite lookup_alter, decide_True, E. Qed.

Lemma path_suspended p w0 l w ch r (Q : bool → world → Prop) :
  path p w0 l w → chan_regs (cs w) !! ch = Some r →
  (∀ b w' l', along p w0 l w w' l' → Q b w') → wp (chan_suspended ch) Q w.
Proof.
  intros P E HQ. pose proof (pa_served _ _ _ _ P) as S. unfold chan_suspended. apply wp_bind. eapply wp_chan_reg_at; [done|].
  apply wp_bind, wp_gets. destruct (has_flag _ _); [|by eapply wp_ret, HQ, along_refl].
  destruct (negb _); [by eapply wp_ret, HQ, along_refl|].
  apply wp_bind. unfold expire_chan_suspend. apply wp_bind, wp_gets. apply wp_bind. eapply wp_upd_chan_reg; [exact E|].
  intros w1 D1. eapply along_alter in D1 as A1; [|done|done|].
  2: { intros g (? & ? & ? & ?). split_and!; try done. all: by apply (clear_flag_range 31). }
  pose proof (alter_at _ _ (fun r => r <| cr_flags ::= fun f => clear_flag f CS_FLAGS_SUSPENDED |>
        <| cr_suspender := None |> <| cr_suspend_reason := None |> <| cr_suspend_time := 0 |> <| cr_last_time := rb_time w |>) _ E) as E1.
  rewrite <- (did_cs _ _ _ _ D1) in E1.
  apply wp_bind. eapply wp_chan_reg_at; [exact E1|].
  pose proof (al_path _ _ _ _ _ _ A1) as P1. pose proof (pa_served _ _ _ _ P1) as S1.
  destruct (ro_tidy _ _ (se_regs _ _ S1) ch _ E1) as (_ & Hl & Hf & _). pose proof (se_now _ _ S).
  apply wp_db_exec.
  { cbn in *. split_and!; try done; lia. }
  intros w2 D2. eapply along_exec in D2; [|done|done].
  eapply wp_ret, HQ, along_trans; done.
Qed.
End start.

(** ** Who may go on *)
Section verify.
Context `{SYS : Sys} `{RB : !RbSpec} `{HK : !HooksOk} `{CS : !ChanServ}.

(** The access [m] of the user at [p] to the channel called [name], if it is good
    for [level]. *)
Definition holds (p : ptr) (name : string) (level : Z) (w : world) (m : ptr) : Prop :=
  ∃ actor mr r, login_of w p = Some actor ∧ member_regs (cs w) !! m = Some mr ∧ mr_user_reg mr = actor ∧
    chan_regs (cs w) !! mr_channel_reg mr = Some r ∧ irccmp (cr_name r) name = 0 ∧ level ≤ mr_level mr ∧ mr_suspend mr = 0.

Lemma login_same w w' p : same_net w w' → login_of w' p = login_of w p.
Proof. intros Hs. unfold login_of. by rewrite (sn_clients _ _ Hs). Qed.

Lemma path_fail p w0 l w w1 l1 name args (Q : option (ptr * option ptr) → world → Prop) :
  along p w0 l w w1 l1 → (∀ w', along p w0 l w w' l1 → Q None w') →
  wp (_ ← when true (chan_err p name args); mret None) Q w1.
Proof.
  intros A HQ. apply wp_bind. eapply path_err; [apply A|]. intros w' P D. eapply wp_ret, HQ, along_reply; done.
Qed.

Lemma path_verify p w0 l w name level (Q : option (ptr * option ptr) → world → Prop) :
  path p w0 l w → no_nul name = true →
  (∀ v w' l', along p w0 l w w' l' → match v with Some (m, _) => holds p name level w' m | None => True end → Q v w') →
  wp (verify_member_reg_name p false name level) Q w.
Proof.
  intros P Hn HQ. unfold verify_member_reg_name. apply wp_bind. eapply path_find_channel_reg; [done..|].
  intros r w1 P1 D1 Hr. assert (along p w0 l w w1 []) as A1.
  { eapply along_reply; [by apply along_refl|by rewrite app_nil_r|done]. }
  destruct r as [ch|]; [|by eapply wp_ret, HQ]. destruct Hr as (g & Eg & Hi).
  unfold verify_member_reg. apply wp_bind. eapply wp_chan_reg_at; [done|]. cbn [andb].
  apply wp_bind, wp_ret. apply wp_bind. eapply path_suspended; [done..|]. intros sus w2 l2 A2.
  assert (along p w0 l w w2 l2) as A by (by eapply (along_trans _ _ _ _ _ _ []); [|rewrite app_nil_r]).
  destruct sus; [by eapply path_fail; [|intros; by eapply HQ]|].
  pose proof (al_path _ _ _ _ _ _ A) as P2. pose proof (pa_served _ _ _ _ P2) as S2.
  destruct (served_user w2 p S2) as (c & u & Ec & Eu). apply wp_bind. eapply wp_user_of; [done..|].
  destruct (us_user_reg u) as [actor|] eqn:Ea.
  2: { apply wp_bind, wp_ret. by eapply path_fail; [|intros; by eapply HQ]. }
  assert (login_of w2 p = Some actor) as El by (by rewrite (login_of_user _ _ _ _ Ec Eu)).
  apply wp_bind. eapply wp_find_member_reg; [apply S2|by eapply login_live|]. intros m Hm.
  destruct m as [m|]; [|by eapply path_fail; [|intros; by eapply HQ]].
  destruct Hm as (mr & Em & Hc & Ho). apply wp_bind. eapply wp_member_reg_at; [done|].
  destruct (_ || _) eqn:Eb; [by eapply path_fail; [|intros; by eapply HQ]|].
  apply orb_false_iff in Eb as [Elv Esu]. apply Z.ltb_ge in Elv. apply negb_false_iff, Z.eqb_eq in Esu.
  destruct (same_access_fwd _ _ ch g (al_same _ _ _ _ _ _ A2) Eg) as (g2 & Eg2 & [= En _ _]).
  unfold to_chan in Hc. rewrite Hc.
  apply wp_bind, wp_gets. apply wp_bind. eapply wp_upd_chan_reg; [done|]. intros w3 D3.
  eapply along_alter in D3 as A3; [|done|done|].
  2: { intros x (? & ? & ? & ?). split_and!; try done. all: by apply (set_flag_range 31). }
  apply wp_ret. eapply HQ; [by eapply along_trans|]. exists actor, mr. eexists.
  rewrite (login_same _ _ _ (al_net _ _ _ _ _ _ A3)), (did_cs _ _ _ _ D3), Hc.
  split_and!; [done|done|done|by apply alter_at|simpl; by rewrite En|done|done].
Qed.

Lemma wp_arg_at parv i x (Q : string → world → Prop) w : parv !! i = Some x → Q x w → wp (arg parv i) Q w.
Proof.
  intros E HQ. unfold arg, argv. assert (i < length parv)%nat by (by eapply lookup_lt_Some).
  rewrite (proj2 (Nat.ltb_lt _ _)) by done. apply wp_bind, wp_ret. rewrite E. by apply wp_ret.
Qed.

Lemma wp_names_of u g m mr r (Q : list string → world → Prop) w :
  user_regs w !! u = Some g → member_regs (cs w) !! m = Some mr → chan_regs (cs w) !! mr_channel_reg mr = Some r →
  Q [ur_name g; cr_name r] w → wp (names_of u m) Q w.
Proof.
  intros Eu Em Er HQ. unfold names_of. apply wp_bind. eapply wp_member_reg_at; [done|].
  apply wp_bind. eapply wp_ureg_name; [done|]. apply wp_bind. eapply wp_chan_reg_at; [done|]. by apply wp_ret.
Qed.

(** The result of a command: where it leads to, and what it did to the registry, with
    which statements. *)
Record acted (cmd : chan_command) (p : ptr) (chan : string) (w w' : world) : Prop := Acted {
  ad_served : served w' p;
  ad_users : user_regs w' = user_regs w;
  ad_did : ∃ l l2, executed l (db_get (mods w)) (db_get (mods w')) ∧ among l2 l ∧
    acts (users_of w) (cf_name (config_file w)) chan (login_of w p) (registry_at w) cmd l2 (registry_at w')
}.

Lemma acted_along p chan w w' l cmd : along p w [] w w' l → acted cmd p chan w w'.
Proof.
  intros [P N S A]. split; [apply P|apply N|]. exists l, []. split; [apply (did_db _ _ _ _ (pa_did _ _ _ _ P))|].
  split; [by apply among_silent|]. unfold registry_at. rewrite (same_registry _ _ A). constructor.
Qed.

(** The last steps of a command: one that changes the registry, after which only
    silent ones follow. *)
Lemma acted_edit p chan w w1 l1 w' l cmd :
  along p w [] w w1 l1 → path p w l w' → user_regs w' = user_regs w →
  (∃ l2, among l2 l ∧ acts (users_of w1) (cf_name (config_file w1)) chan (login_of w1 p) (registry_at w1) cmd l2 (registry_at w')) →
  acted cmd p chan w w'.
Proof.
  intros [P N S A] [D S'] Hu (l2 & Hl & Ha). split; [done..|]. exists l, l2. split; [apply (did_db _ _ _ _ D)|]. split; [done|].
  unfold users_of, registry_at in *. rewrite (login_same _ _ _ N), (same_registry _ _ A), (sn_user_regs _ _ N), (sn_config _ _ N) in Ha.
  exact Ha.
Qed.

Lemma path_reply p w l w1 l1 chan name args (Q : Z → world → Prop) cmd :
  along p w l w w1 l1 → l = [] → (∀ w', acted cmd p chan w w' → Q 1 w') → wp (reply p name args) Q w1.
Proof.
  intros A -> HQ. unfold reply. apply wp_bind. eapply path_err; [apply A|]. intros w' P D.
  eapply wp_ret, HQ, acted_along, along_reply; done.
Qed.
End verify.

(** ** Commands on access lists *)
Section access_commands.
Context `{SYS : Sys} `{RB : !RbSpec} `{HK : !HooksOk} `{CS : !ChanServ}.

(** The access of the user who asks, [mr] at [m], to the channel [r] called [name]. *)
Record asks (p : ptr) (name : string) (level : Z) (w : world) (m : ptr) (mr : member_reg) (r : chan_reg) (ga : user_reg) : Prop := Asks {
  as_login : login_of w p = Some (mr_user_reg mr);
  as_member : member_regs (cs w) !! m = Some mr;
  as_chan : chan_regs (cs w) !! mr_channel_reg mr = Some r;
  as_name : irccmp (cr_name r) name = 0;
  as_level : level ≤ mr_level mr;
  as_active : mr_suspend mr = 0;
  as_reg : user_regs w !! mr_user_reg mr = Some ga
}.

Lemma holds_asks w p name level m : served w p → holds p name level w m → ∃ mr r ga, asks p name level w m mr r ga.
Proof.
  intros S (actor & mr & r & El & Em & <- & Ec & Hi & Hl & Hs). destruct (login_live w p _ S El) as [ga Ega].
  by exists mr, r, ga.
Qed.

Lemma asks_same p name level w w' m mr r ga :
  asks p name level w m mr r ga → same_net w w' → cs w' = cs w → asks p name level w' m mr r ga.
Proof.
  intros [] N E. split; rewrite ?E, ?(login_same _ _ _ N), ?(sn_user_regs _ _ N); done.
Qed.

Lemma path_with_user p w level k parv chan name (Q : Z → world → Prop) cmd :
  served w p → parv !! 0%nat = Some chan → parv !! 1%nat = Some name → no_nul chan = true → no_nul name = true →
  (∀ w', acted cmd p chan w w' → Q 1 w') →
  (∀ w1 l1 m mr r ga u g, along p w [] w w1 l1 → asks p chan level w1 m mr r ga → user_regs w1 !! u = Some g → wp (k m u) Q w1) →
  wp (with_user p parv level k) Q w.
Proof.
  intros S E0 E1 H0 H1 HQ Hk. pose proof (path_start w p S) as P. unfold with_user.
  apply wp_bind. eapply wp_arg_at; [done|]. apply wp_bind. eapply path_verify; [done..|].
  intros v w1 l1 A Hv. destruct v as [[m ch]|]; [|eapply wp_ret, HQ, acted_along, A].
  apply wp_bind. eapply wp_arg_at; [done|]. apply wp_bind. eapply path_find_user_reg_nick; [apply A|done|].
  intros u w2 P2 D2 Hu. pose proof (along_reply _ _ _ _ _ _ _ A P2 D2) as A2.
  destruct u as [u|]; [|eapply wp_ret, HQ, acted_along, A2]. destruct (Hu u eq_refl) as [g Eg].
  destruct (holds_asks w1 p chan level m (pa_served _ _ _ _ (al_path _ _ _ _ _ _ A)) Hv) as (mr & r & ga & Ha).
  eapply Hk; [exact A2| |exact Eg]. eapply asks_same; [exact Ha|apply D2|exact (did_cs _ _ _ _ D2)].
Qed.

Lemma path_with_target p w level k parv chan name (Q : Z → world → Prop) cmd :
  served w p → parv !! 0%nat = Some chan → parv !! 1%nat = Some name → no_nul chan = true → no_nul name = true →
  (∀ w', acted cmd p chan w w' → Q 1 w') →
  (∀ w1 l1 m mr r ga t tr g, along p w [] w w1 l1 → asks p chan level w1 m mr r ga →
     member_regs (cs w1) !! t = Some tr → mr_channel_reg tr = mr_channel_reg mr → user_regs w1 !! mr_user_reg tr = Some g →
     wp (k m t [ur_name g; cr_name r]) Q w1) →
  wp (with_target p parv level k) Q w.
Proof.
  intros S E0 E1 H0 H1 HQ Hk. eapply path_with_user; [done..|]. intros w1 l1 m mr r ga u g A Ha Eg.
  apply wp_bind. eapply wp_member_reg_at; [apply Ha|]. apply wp_bind. eapply wp_names_of; [exact Eg|apply Ha..|].
  apply wp_bind. eapply wp_find_member_reg; [apply (pa_served _ _ _ _ (al_path _ _ _ _ _ _ A))|by exists g|].
  intros t Ht. destruct t as [t|]; [|by eapply path_reply].
  destruct Ht as (tr & Et & Hc & Hu). unfold to_chan, of_user in *. subst u. by eapply Hk.
Qed.

(** The registry after one access was changed. *)
Lemma registry_alter w w1 m mr f :
  regs_ok (user_regs w) (cs w) → member_regs (cs w) !! m = Some mr → (∀ x, pair_of (f x) = pair_of x) →
  cs w1 = (cs w) <| member_regs ::= alter f m |> →
  registry_at w1 = Registry (names (registry_at w)) (<[pair_of mr := row_of (f mr)]> (list_of (registry_at w))).
Proof.
  intros Hr Em Hf E. unfold registry_at. rewrite E. unfold registry_of. simpl. f_equal.
  apply acl_alter; [by eapply regs_distinct|done..].
Qed.

Lemma registry_list w m mr :
  regs_ok (user_regs w) (cs w) → member_regs (cs w) !! m = Some mr → list_of (registry_at w) !! pair_of mr = Some (row_of mr).
Proof. intros Hr Em. apply acl_at with (m := m); [by eapply regs_distinct|done]. Qed.

Lemma registry_name w p r : chan_regs (cs w) !! p = Some r → names (registry_at w) !! p = Some (cr_name r).
Proof. intros E. unfold registry_at. simpl. by rewrite lookup_fmap, E. Qed.

Lemma user_name w u g : user_regs w !! u = Some g → users_of w !! u = Some (ur_name g).
Proof. intros E. unfold users_of. by rewrite lookup_fmap, E. Qed.

(** An access [t] set to new values. *)
Lemma path_set_access p w w1 l1 chan level m mr r ga t tr g f msg args format values (Q : Z → world → Prop) cmd :
  let row := Row (mr_level (f tr)) (mr_flags (f tr)) (mr_suspend (f tr)) (ur_name ga) in
  let s := (format, values (f tr) ++ [ArgStr (Some (ur_name ga)); ArgStr (Some (cr_name r)); ArgStr (Some (ur_name g))]) in
  along p w [] w w1 l1 → asks p chan level w1 m mr r ga → member_regs (cs w1) !! t = Some tr →
  mr_channel_reg tr = mr_channel_reg mr → user_regs w1 !! mr_user_reg tr = Some g →
  (∀ x, pair_of (f x) = pair_of x) → (∀ x n, values (x <| mr_lastmod := n |>) = values x) →
  1 ≤ rw_level row ≤ 200 → 0 ≤ rw_flags row < 2 ^ 31 → 0 ≤ rw_suspend row →
  ((strlen (ur_name ga) < 1024)%nat → (strlen (cr_name r) < 1024)%nat → (strlen (ur_name g) < 1024)%nat → printable format (snd s)) →
  acts (users_of w1) (cf_name (config_file w1)) chan (login_of w1 p) (registry_at w1) cmd [s]
    (Registry (ChanAcl.names (registry_at w1)) (<[pair_of tr := row]> (list_of (registry_at w1)))) →
  (∀ w', acted cmd p chan w w' → Q 1 w') →
  wp (set_access p m t f msg args format values) Q w1.
Proof.
  intros row s A Ha Et Hc Eg Hf Hv Hl Hfl Hsu Hp Hacts HQ. pose proof (al_path _ _ _ _ _ _ A) as P.
  pose proof (pa_served _ _ _ _ P) as S. pose proof (se_regs _ _ S) as Hr.
  set (f' := fun x => (f x) <| mr_lastmod := ur_name ga |>).
  assert (∀ x, pair_of (f' x) = pair_of x) as Hf' by (intros x; rewrite <- (Hf x); done).
  pose proof (ro_names _ _ Hr _ _ (as_reg _ _ _ _ _ _ _ _ Ha)) as Hga. pose proof (ro_names _ _ Hr _ _ Eg) as Hg.
  destruct (ro_tidy _ _ Hr _ _ (as_chan _ _ _ _ _ _ _ _ Ha)) as (_ & Hcn & _).
  unfold set_access. apply wp_bind. eapply wp_member_reg_at; [apply Ha|]. apply wp_bind. eapply wp_member_reg_at; [done|].
  apply wp_bind. eapply wp_ureg_name; [apply Ha|]. apply wp_bind. eapply wp_upd_member_reg; [done|]. intros w2 D2.
  assert (path p w l1 w2) as P2.
  { rewrite <- (app_nil_r l1). eapply path_step; [exact P|exact D2| |done..]. by eapply (regs_alter_member _ _ t tr f'). }
  pose proof (registry_alter w1 w2 t tr f' Hr Et Hf' (did_cs _ _ _ _ D2)) as ER.
  pose proof (did_net _ _ _ _ D2) as N2.
  assert (member_regs (cs w2) !! t = Some (f' tr)) as Et2.
  { rewrite (did_cs _ _ _ _ D2). simpl. by rewrite lookup_alter, decide_True, Et. }
  assert (chan_regs (cs w2) !! mr_channel_reg (f' tr) = Some r) as Er2.
  { rewrite (f_equal fst (Hf' tr) : mr_channel_reg (f' tr) = mr_channel_reg tr), Hc, (did_cs _ _ _ _ D2). apply Ha. }
  apply wp_bind. eapply wp_names_of; [rewrite (sn_user_regs _ _ N2); exact Eg|exact Et2|exact Er2|]. cbn [nth].
  apply wp_bind. eapply path_err; [exact P2|]. intros w3 P3 D3.
  apply wp_bind. eapply wp_member_reg_at; [rewrite (did_cs _ _ _ _ D3); exact Et2|]. unfold f' at 1. rewrite Hv.
  apply wp_bind. apply wp_db_exec; [by apply Hp|]. intros w4 D4. apply wp_ret, HQ.
  eapply (acted_edit _ _ _ _ _ _ (l1 ++ [s])); [exact A|eapply path_same; [exact P3|exact D4|done]| |].
  - rewrite (sn_user_regs _ _ (did_net _ _ _ _ D4)), (sn_user_regs _ _ (did_net _ _ _ _ D3)), (sn_user_regs _ _ N2).
    apply (sn_user_regs _ _ (al_net _ _ _ _ _ _ A)).
  - exists [s]. split; [change [s] with ([] ++ [s]); apply among_app; [apply among_silent, A|apply among_refl]|].
    unfold registry_at in *. rewrite (did_cs _ _ _ _ D4), (did_cs _ _ _ _ D3), ER. exact Hacts.
Qed.
End access_commands.

(** ** Each of them *)
Section members_commands.
Context `{SYS : Sys} `{RB : !RbSpec} `{HK : !HooksOk} `{CS : !ChanServ}.

(** Parameters as they come: no zero bytes, and no longer than a line. *)
Definition line_ok (parv : list string) : Prop := Forall (fun x => no_nul x = true ∧ (strlen x < BUFSIZE)%nat) parv.

Lemma line_arg parv i x : line_ok parv → parv !! i = Some x → no_nul x = true ∧ (strlen x < BUFSIZE)%nat.
Proof. intros Hp E. exact (Forall_lookup_1 _ _ _ _ Hp E). Qed.

Lemma arg_there (parv : list string) i : (i < length parv)%nat → ∃ x, parv !! i = Some x.
Proof. by apply lookup_lt_is_Some_2. Qed.

(** What the rules of [acts] ask of who asks and whom it is about. *)
Lemma asks_allowed p chan level w m mr r ga :
  regs_ok (user_regs w) (cs w) → asks p chan level w m mr r ga →
  allowed (list_of (registry_at w)) (mr_channel_reg mr) (mr_user_reg mr) level (row_of mr).
Proof. intros Hr [? Em ? ? ? Hs ?]. split; [by apply (registry_list w m mr)|done]. Qed.

Lemma target_row w t tr ch : regs_ok (user_regs w) (cs w) → member_regs (cs w) !! t = Some tr → mr_channel_reg tr = ch →
  list_of (registry_at w) !! (ch, mr_user_reg tr) = Some (row_of tr).
Proof. intros Hr Et <-. by apply (registry_list w t tr). Qed.

Ltac known Hr Ha Et Hc Eg :=
  first
  [ exact (registry_name _ _ _ (as_chan _ _ _ _ _ _ _ _ Ha)) | exact (as_name _ _ _ _ _ _ _ _ Ha) | exact (as_login _ _ _ _ _ _ _ _ Ha)
  | exact (user_name _ _ _ (as_reg _ _ _ _ _ _ _ _ Ha)) | exact (asks_allowed _ _ _ _ _ _ _ _ Hr Ha)
  | exact (user_name _ _ _ Eg) | exact (target_row _ _ _ _ Hr Et Hc) | done | simpl; lia ].

Lemma moduser_acts p w parv chan name x :
  served w p → line_ok parv → parv !! 0%nat = Some chan → parv !! 1%nat = Some name → parv !! 2%nat = Some x →
  wp (s_chan_moduser p parv) (fun c w' => c = 1 ∧ acted MODUSER p chan w w') w.
Proof.
  intros S Hp E0 E1 E2. destruct (line_arg _ _ _ Hp E0) as [H0 _]. destruct (line_arg _ _ _ Hp E1) as [H1 _].
  eapply path_with_target; [done..|]. intros w1 l1 m mr r ga t tr g A Ha Et Hc Eg.
  pose proof (se_regs _ _ (pa_served _ _ _ _ (al_path _ _ _ _ _ _ A))) as Hr.
  pose proof (ro_level _ _ Hr _ _ (as_member _ _ _ _ _ _ _ _ Ha)) as Hlm. pose proof (ro_level _ _ Hr _ _ Et) as Hlt.
  apply wp_bind. eapply wp_member_reg_at; [apply Ha|]. apply wp_bind. eapply wp_member_reg_at; [done|].
  destruct (_ <=? _) eqn:Eb; [by eapply path_reply|]. apply Z.leb_gt in Eb.
  apply wp_bind. eapply wp_arg_at; [done|]. destruct (strtol x) as [v endptr]. cbn zeta.
  destruct (_ || _) eqn:Eo; [by eapply path_reply|].
  apply orb_false_iff in Eo as [[_ Eo1]%orb_false_iff Eo2]. apply Z.ltb_ge in Eo1. apply Z.leb_gt in Eo2.
  eapply path_set_access; [exact A|exact Ha|exact Et|exact Hc|exact Eg|done|done|simpl; lia|simpl; lia|simpl; lia| | |done].
  - intros ???. cbn. split_and!; try done; lia.
  - eapply acts_level with (ch := mr_channel_reg tr) (e := row_of mr) (u := mr_user_reg tr) (t := row_of tr); rewrite ?Hc; known Hr Ha Et Hc Eg.
Qed.

Lemma auto_flags_spec name f : auto_flags name = Some f → f ∈ [0; CS_MEMBER_AUTOOP; CS_MEMBER_AUTOVOICE].
Proof. unfold auto_flags. repeat case_match; intros [= <-]; set_solver. Qed.

Lemma auto_flags_set f x :
  f ∈ [0; CS_MEMBER_AUTOOP; CS_MEMBER_AUTOVOICE] →
  clear_flag (set_flag (clear_flag x CS_MEMBER_ALL) f) CS_MEMBER_ALL = clear_flag x CS_MEMBER_ALL ∧
  Z.land (set_flag (clear_flag x CS_MEMBER_ALL) f) CS_MEMBER_ALL = f.
Proof.
  intros Hf. rewrite !clear_flag_ldiff. unfold set_flag.
  assert (Z.ldiff f CS_MEMBER_ALL = 0 ∧ Z.land f CS_MEMBER_ALL = f) as [H1 H2].
  { rewrite !elem_of_cons, elem_of_nil in Hf. by destruct Hf as [->|[->|[->|[]]]]. }
  split; apply Z.bits_inj'; intros n Hn.
  - apply (f_equal (fun z => Z.testbit z n)) in H1. rewrite Z.bits_0, Z.ldiff_spec in H1.
    rewrite !Z.ldiff_spec, Z.lor_spec, Z.ldiff_spec. by destruct (Z.testbit x n), (Z.testbit f n), (Z.testbit CS_MEMBER_ALL n).
  - apply (f_equal (fun z => Z.testbit z n)) in H2. rewrite Z.land_spec in H2.
    rewrite Z.land_spec, Z.lor_spec, Z.ldiff_spec. by destruct (Z.testbit x n), (Z.testbit f n), (Z.testbit CS_MEMBER_ALL n).
Qed.

Lemma auto_flags_range f : f ∈ [0; CS_MEMBER_AUTOOP; CS_MEMBER_AUTOVOICE] → 0 ≤ f < 2 ^ 31.
Proof. rewrite !elem_of_cons, elem_of_nil. by intros [->|[->|[->|[]]]]. Qed.

(** A user may change the own access where the command allows it. *)
Lemma lower_or_self p chan level w m mr r ga t tr :
  regs_ok (user_regs w) (cs w) → asks p chan level w m mr r ga → member_regs (cs w) !! t = Some tr →
  (mr_level mr <=? mr_level tr) && negb (bool_decide (m = t)) = false →
  rw_level (row_of tr) < rw_level (row_of mr) ∨ mr_user_reg tr = mr_user_reg mr.
Proof.
  intros Hr Ha Et [Hl%Z.leb_gt|Hm%negb_false_iff%bool_decide_eq_true]%andb_false_iff; [by left|]. subst t. right.
  pose proof (as_member _ _ _ _ _ _ _ _ Ha). congruence.
Qed.

Lemma modauto_acts p w parv chan name x :
  served w p → line_ok parv → parv !! 0%nat = Some chan → parv !! 1%nat = Some name → parv !! 2%nat = Some x →
  wp (s_chan_modauto p parv) (fun c w' => c = 1 ∧ acted MODAUTO p chan w w') w.
Proof.
  intros S Hp E0 E1 E2. destruct (line_arg _ _ _ Hp E0) as [H0 _]. destruct (line_arg _ _ _ Hp E1) as [H1 _].
  eapply path_with_target; [done..|]. intros w1 l1 m mr r ga t tr g A Ha Et Hc Eg.
  pose proof (se_regs _ _ (pa_served _ _ _ _ (al_path _ _ _ _ _ _ A))) as Hr.
  pose proof (ro_level _ _ Hr _ _ Et) as Hlt.
  apply wp_bind. eapply wp_member_reg_at; [apply Ha|]. apply wp_bind. eapply wp_member_reg_at; [done|].
  destruct (_ && _) eqn:Eb; [by eapply path_reply|]. apply (lower_or_self p chan S_C_USERLIST w1 m mr r ga t tr Hr Ha Et) in Eb.
  apply wp_bind. eapply wp_arg_at; [done|]. destruct (auto_flags x) as [f|] eqn:Ef; [|by eapply path_reply].
  apply auto_flags_spec in Ef. pose proof (auto_flags_range f Ef) as Hf. destruct (auto_flags_set f (mr_flags tr) Ef) as [F1 F2].
  assert (0 ≤ set_flag (clear_flag (mr_flags tr) CS_MEMBER_ALL) f < 2 ^ 31) as Hfl.
  { apply (set_flag_range 31); [done| |done]. apply (clear_flag_range 31); [done|lia]. }
  eapply path_set_access; [exact A|exact Ha|exact Et|exact Hc|exact Eg|done|done|simpl; lia|exact Hfl|simpl; lia| | |done].
  - intros ???. cbn -[set_flag clear_flag]. split_and!; try done; lia.
  - eapply acts_flags with (ch := mr_channel_reg tr) (e := row_of mr) (u := mr_user_reg tr) (t := row_of tr); rewrite ?Hc;
      known Hr Ha Et Hc Eg || (cbn -[set_flag clear_flag Z.land]; by rewrite ?F1, ?F2).
Qed.

Lemma suspend_acts p w parv chan name x :
  served w p → line_ok parv → parv !! 0%nat = Some chan → parv !! 1%nat = Some name → parv !! 2%nat = Some x →
  wp (s_chan_suspend p parv) (fun c w' => c = 1 ∧ acted SUSPEND p chan w w') w.
Proof.
  intros S Hp E0 E1 E2. destruct (line_arg _ _ _ Hp E0) as [H0 _]. destruct (line_arg _ _ _ Hp E1) as [H1 _].
  eapply path_with_target; [done..|]. intros w1 l1 m mr r ga t tr g A Ha Et Hc Eg.
  pose proof (se_regs _ _ (pa_served _ _ _ _ (al_path _ _ _ _ _ _ A))) as Hr.
  pose proof (ro_level _ _ Hr _ _ (as_member _ _ _ _ _ _ _ _ Ha)) as Hlm. pose proof (ro_level _ _ Hr _ _ Et) as Hlt.
  apply wp_bind. eapply wp_member_reg_at; [apply Ha|]. apply wp_bind. eapply wp_member_reg_at; [done|].
  destruct (_ <=? _) eqn:Eb; [by eapply path_reply|]. apply Z.leb_gt in Eb.
  destruct (_ <? _) eqn:Es; [by eapply path_reply|]. apply Z.ltb_ge in Es.
  apply wp_bind. eapply wp_arg_at; [done|]. cbn zeta.
  destruct (_ || _) eqn:Eo; [by eapply path_reply|].
  apply orb_false_iff in Eo as [Eo1 Eo2]. apply Z.ltb_ge in Eo1, Eo2.
  eapply path_set_access; [exact A|exact Ha|exact Et|exact Hc|exact Eg|done|done|simpl; lia|simpl; lia|simpl; lia| | |done].
  - intros ???. cbn -[atoi]. split_and!; try done; lia.
  - eapply acts_suspend with (ch := mr_channel_reg tr) (e := row_of mr) (u := mr_user_reg tr) (t := row_of tr); rewrite ?Hc;
      known Hr Ha Et Hc Eg.
Qed.

Lemma unsuspend_acts p w parv chan name :
  served w p → line_ok parv → parv !! 0%nat = Some chan → parv !! 1%nat = Some name →
  wp (s_chan_unsuspend p parv) (fun c w' => c = 1 ∧ acted UNSUSPEND p chan w w') w.
Proof.
  intros S Hp E0 E1. destruct (line_arg _ _ _ Hp E0) as [H0 _]. destruct (line_arg _ _ _ Hp E1) as [H1 _].
  eapply path_with_target; [done..|]. intros w1 l1 m mr r ga t tr g A Ha Et Hc Eg.
  pose proof (se_regs _ _ (pa_served _ _ _ _ (al_path _ _ _ _ _ _ A))) as Hr. pose proof (ro_level _ _ Hr _ _ Et) as Hlt.
  apply wp_bind. eapply wp_member_reg_at; [apply Ha|]. apply wp_bind. eapply wp_member_reg_at; [done|].
  destruct (_ <? _) eqn:Es; [by eapply path_reply|]. apply Z.ltb_ge in Es.
  eapply path_set_access; [exact A|exact Ha|exact Et|exact Hc|exact Eg|done|done|simpl; lia|simpl; lia|simpl; lia| | |done].
  - intros ???. cbn. by split_and!.
  - eapply acts_unsuspend with (ch := mr_channel_reg tr) (e := row_of mr) (u := mr_user_reg tr) (t := row_of tr); rewrite ?Hc;
      known Hr Ha Et Hc Eg.
Qed.
End members_commands.

(** ** New accesses *)
Section new_access.
Context `{SYS : Sys} `{RB : !RbSpec} `{HK : !HooksOk} `{CS : !ChanServ}.

Lemma did_then l c1 c2 w w1 w2 : did l c1 w w1 → did [] c2 w1 w2 → did l c2 w w2.
Proof. intros D1 D2. rewrite <- (app_nil_r l). by eapply did_trans. Qed.

Lemma path_make_member_reg p w0 l w u ch g r by_name level flags (Q : ptr → world → Prop) :
  path p w0 l w → user_regs w !! u = Some g → chan_regs (cs w) !! ch = Some r →
  list_of (registry_at w) !! (ch, u) = None → 1 ≤ level ≤ 200 → 0 ≤ flags < 2 ^ 31 → (strlen by_name < 1024)%nat →
  (∀ q w', path p w0 l w' → did [] (cs w') w w' → member_regs (cs w) !! q = None →
     cs w' = enter_access q (MemberReg u ch level flags 0 0 by_name) (cs w) → Q q w') →
  wp (make_member_reg u ch by_name level flags) Q w.
Proof.
  intros P Eg Er Hno Hl Hf Hb HQ. pose proof (pa_served _ _ _ _ P) as S. unfold make_member_reg.
  set (mr := MemberReg u ch level flags 0 0 by_name). apply wp_bind, wp_gets.
  set (q := rb_bh_alloc (dom (member_regs (cs w)))).
  assert (member_regs (cs w) !! q = None) as Hq by (apply not_elem_of_dom, rb_bh_alloc_spec).
  apply wp_bind, wp_upd_cs. intros w1 D1. apply wp_bind, wp_upd_ureg_channels.
  { rewrite (sn_user_regs _ _ (did_net _ _ _ _ D1)). by eexists. }
  intros w2 D2. apply wp_bind. eapply wp_upd_chan_reg.
  { rewrite (did_cs _ _ _ _ D2), (did_cs _ _ _ _ D1). exact Er. }
  intros w3 D3. apply wp_ret.
  assert (did [] (enter_access q mr (cs w)) w w3) as D.
  { rewrite (did_cs _ _ _ _ D1) in D2. rewrite (did_cs _ _ _ _ D2) in D3. eapply did_then; [eapply did_then; [exact D1|exact D2]|exact D3]. }
  apply HQ; [|by rewrite (did_cs _ _ _ _ D)|done|apply D].
  rewrite <- (app_nil_r l). eapply path_step; [exact P|exact D| |done..].
  apply regs_enter; [apply S|exact Hq|exact Hno|by eexists..|done|done|done|done].
Qed.

Lemma path_write_member p w0 l w m mr g r (Q : unit → world → Prop) :
  path p w0 l w → member_regs (cs w) !! m = Some mr → user_regs w !! mr_user_reg mr = Some g →
  chan_regs (cs w) !! mr_channel_reg mr = Some r →
  (∀ w', let s := s_insert (cr_name r) (ur_name g) (mr_lastmod mr) (mr_level mr) (mr_flags mr) in
     path p w0 (l ++ [s]) w' → did [s] (cs w) w w' → Q tt w') →
  wp (write_member_db_entry m) Q w.
Proof.
  intros P Em Eg Er HQ. pose proof (se_regs _ _ (pa_served _ _ _ _ P)) as Hr.
  destruct (ro_tidy _ _ Hr _ _ Er) as (_ & Hc & _). pose proof (ro_names _ _ Hr _ _ Eg).
  destruct (ro_member _ _ Hr _ _ Em) as (_ & _ & Hlm). pose proof (ro_level _ _ Hr _ _ Em).
  unfold write_member_db_entry. apply wp_bind. eapply wp_member_reg_at; [done|]. apply wp_bind. eapply wp_chan_reg_at; [done|].
  apply wp_bind. eapply wp_ureg_name; [done|]. assert (uint32 (mr_level mr) = mr_level mr) as -> by (apply uint32_small; lia).
  apply wp_db_exec; [cbn; split_and!; try done; lia|]. intros w' D. apply HQ; [by eapply path_same|done].
Qed.

(** A new access in the table and in the lists. *)
Lemma path_add p w0 l w u ch g r by_name level flags (k : ptr → M world Z) (Q : Z → world → Prop) :
  path p w0 l w → user_regs w !! u = Some g → chan_regs (cs w) !! ch = Some r →
  list_of (registry_at w) !! (ch, u) = None → 1 ≤ level ≤ 200 → 0 ≤ flags < 2 ^ 31 → (strlen by_name < 1024)%nat →
  (∀ q w', let s := s_insert (cr_name r) (ur_name g) by_name level flags in
     path p w0 (l ++ [s]) w' → did [s] (cs w') w w' →
     (∃ r', chan_regs (cs w') !! ch = Some r' ∧ cr_name r' = cr_name r) →
     registry_at w' = Registry (names (registry_at w)) (<[(ch, u) := Row level flags 0 by_name]> (list_of (registry_at w))) →
     wp (k q) Q w') →
  wp (q ← make_member_reg u ch by_name level flags; _ ← write_member_db_entry q; k q) Q w.
Proof.
  intros P Eg Er Hno Hl Hf Hb HQ. pose proof (se_regs _ _ (pa_served _ _ _ _ P)) as Hr. apply wp_bind. eapply path_make_member_reg; [done..|].
  intros q w1 P1 D1 Hq E1. set (mr := MemberReg u ch level flags 0 0 by_name).
  assert (member_regs (cs w1) !! q = Some mr) as Em by (rewrite E1; simpl; by rewrite lookup_insert_eq).
  assert (chan_regs (cs w1) !! ch = Some (r <| cr_users ::= rb_dlinkAdd q |>)) as Er1.
  { rewrite E1. simpl. by rewrite lookup_alter, decide_True, Er. }
  assert (user_regs w1 !! u = Some g) as Eg1 by (by rewrite (sn_user_regs _ _ (did_net _ _ _ _ D1))).
  apply wp_bind. eapply (path_write_member _ _ _ _ q mr); [exact P1|exact Em|exact Eg1|exact Er1|].
  intros w2 s P2 D2. apply (HQ q); [exact P2| | |].
  - rewrite (did_cs _ _ _ _ D2). change [s_insert _ _ _ _ _] with ([] ++ [s]). by eapply did_trans.
  - rewrite (did_cs _ _ _ _ D2). by eexists.
  - unfold registry_at. rewrite (did_cs _ _ _ _ D2), E1. unfold registry_of, enter_access. simpl. f_equal.
    + apply map_eq. intros x. rewrite !lookup_fmap, lookup_alter. case_decide; [|done]. subst. by rewrite Er.
    + apply (acl_insert _ q mr); [by eapply regs_distinct|done|exact Hno].
Qed.

Lemma adduser_acts p w parv chan name x :
  served w p → line_ok parv → parv !! 0%nat = Some chan → parv !! 1%nat = Some name → parv !! 2%nat = Some x →
  wp (s_chan_adduser p parv) (fun c w' => c = 1 ∧ acted ADDUSER p chan w w') w.
Proof.
  intros S Hp E0 E1 E2. destruct (line_arg _ _ _ Hp E0) as [H0 _]. destruct (line_arg _ _ _ Hp E1) as [H1 _].
  eapply path_with_user; [done..|]. intros w1 l1 m mr r ga u g A Ha Eg. pose proof (al_path _ _ _ _ _ _ A) as P.
  pose proof (se_regs _ _ (pa_served _ _ _ _ P)) as Hr.
  pose proof (ro_level _ _ Hr _ _ (as_member _ _ _ _ _ _ _ _ Ha)) as Hlm.
  apply wp_bind. eapply wp_member_reg_at; [apply Ha|]. apply wp_bind. eapply wp_names_of; [exact Eg|apply Ha..|].
  apply wp_bind. eapply wp_find_member_reg; [done|by eexists|]. intros [t|] Ht; [by eapply path_reply|].
  assert (list_of (registry_at w1) !! (mr_channel_reg mr, u) = None) as Hno.
  { apply (acl_none (member_regs (cs w1))); [by eapply regs_distinct|]. intros t tr Et [= Ec Eu]. apply (Ht t). by exists tr. }
  apply wp_bind. eapply wp_rd; [exact Eg|]. destruct (has_flag _ _); [by eapply path_reply|].
  apply wp_bind. eapply wp_arg_at; [exact E2|]. cbn zeta. destruct (_ || _) eqn:Eo; [by eapply path_reply|].
  apply orb_false_iff in Eo as [Eo1 Eo2]. apply Z.ltb_ge in Eo1. apply Z.leb_gt in Eo2.
  apply wp_bind, wp_conseq with (Q := fun f w' => w' = w1 ∧ match f with
    | Some f => f ∈ [0; CS_MEMBER_AUTOOP; CS_MEMBER_AUTOVOICE] | None => (3 < length parv)%nat end).
  { destruct (3 <? length parv)%nat eqn:E3; [|apply wp_ret; split; [done|set_solver]]. apply Nat.ltb_lt in E3.
    destruct (lookup_lt_is_Some_2 parv 3 E3) as [y Ey]. apply wp_bind. eapply wp_arg_at; [exact Ey|].
    apply wp_ret. split; [done|]. destruct (auto_flags y) eqn:Ef; [by eapply auto_flags_spec|done]. }
  intros f ? [-> Hf]. destruct f as [f|].
  2: { destruct (lookup_lt_is_Some_2 parv 3 Hf) as [y Ey]. apply wp_bind. eapply wp_arg_at; [exact Ey|]. by eapply path_reply. }
  apply wp_bind. eapply wp_ureg_name; [apply Ha|].
  eapply path_add; [exact P|exact Eg|apply Ha|exact Hno|lia|by apply auto_flags_range|apply (ro_names _ _ Hr _ _ (as_reg _ _ _ _ _ _ _ _ Ha))|].
  intros q w2 s P2 D2 _ ER. unfold reply. apply wp_bind. eapply path_err; [exact P2|]. intros w3 P3 D3. apply wp_ret. split; [done|].
  eapply (acted_edit _ _ _ _ _ _ (l1 ++ [s])); [exact A|exact P3| |].
  - rewrite (sn_user_regs _ _ (did_net _ _ _ _ D3)), (sn_user_regs _ _ (did_net _ _ _ _ D2)). apply (sn_user_regs _ _ (al_net _ _ _ _ _ _ A)).
  - exists [s]. split; [change [s] with ([] ++ [s]); apply among_app; [apply among_silent, A|apply among_refl]|].
    unfold registry_at in *. rewrite (did_cs _ _ _ _ D3), ER.
    eapply acts_add with (e := row_of mr); [exact (registry_name _ _ _ (as_chan _ _ _ _ _ _ _ _ Ha))|apply Ha|apply Ha|
      exact (user_name _ _ _ (as_reg _ _ _ _ _ _ _ _ Ha))|exact (asks_allowed _ _ _ _ _ _ _ _ Hr Ha)|exact (user_name _ _ _ Eg)|exact Hno|done|exact Hf].
Qed.
End new_access.

(** ** Accesses that go *)
Section leaving.
Context `{SYS : Sys} `{RB : !RbSpec} `{HK : !HooksOk} `{CS : !ChanServ}.

Lemma path_unlink p w0 l w m mr (k : M world unit) (Q : unit → world → Prop) :
  path p w0 l w → member_regs (cs w) !! m = Some mr →
  (∀ w', path p w0 l w' → did [] (leave_access m mr (cs w)) w w' → wp k Q w') →
  wp (_ ← upd_ureg_channels (mr_user_reg mr) (rb_dlinkDelete m);
      _ ← upd_chan_reg (mr_channel_reg mr) (fun r => r <| cr_users ::= rb_dlinkDelete m |>);
      _ ← upd_cs (fun c => c <| member_regs ::= delete m |>); k) Q w.
Proof.
  intros P Em HQ. pose proof (se_regs _ _ (pa_served _ _ _ _ P)) as Hr.
  destruct (ro_member _ _ Hr _ _ Em) as ([r Er] & Hu & _).
  apply wp_bind, wp_upd_ureg_channels; [done|]. intros w1 D1. apply wp_bind. eapply wp_upd_chan_reg.
  { rewrite (did_cs _ _ _ _ D1). exact Er. }
  intros w2 D2. apply wp_bind, wp_upd_cs. intros w3 D3.
  assert (did [] (leave_access m mr (cs w)) w w3) as D.
  { rewrite (did_cs _ _ _ _ D1) in D2. rewrite (did_cs _ _ _ _ D2) in D3. eapply did_then; [eapply did_then; [exact D1|exact D2]|exact D3]. }
  apply HQ; [|done]. rewrite <- (app_nil_r l). eapply path_step; [exact P|exact D| |done..]. by apply regs_leave.
Qed.

Lemma registry_leave w w' m mr :
  regs_ok (user_regs w) (cs w) → member_regs (cs w) !! m = Some mr → cs w' = leave_access m mr (cs w) →
  registry_at w' = Registry (names (registry_at w)) (delete (pair_of mr) (list_of (registry_at w))).
Proof.
  intros Hr Em E. unfold registry_at, registry_of. rewrite E. unfold leave_access. simpl. f_equal.
  - apply map_eq. intros x. rewrite !lookup_fmap, lookup_alter. case_decide; [|done]. subst. by destruct (chan_regs _ !! _).
  - apply acl_delete; [by eapply regs_distinct|done].
Qed.

Lemma path_delete_entry p w0 l w m mr g r (Q : unit → world → Prop) :
  path p w0 l w → member_regs (cs w) !! m = Some mr → user_regs w !! mr_user_reg mr = Some g →
  chan_regs (cs w) !! mr_channel_reg mr = Some r →
  (∀ w', let s := s_delete (cr_name r) (ur_name g) in path p w0 (l ++ [s]) w' → did [s] (cs w) w w' → Q tt w') →
  wp (delete_member_db_entry m) Q w.
Proof.
  intros P Em Eg Er HQ. pose proof (se_regs _ _ (pa_served _ _ _ _ P)) as Hr.
  destruct (ro_tidy _ _ Hr _ _ Er) as (_ & Hc & _). pose proof (ro_names _ _ Hr _ _ Eg).
  unfold delete_member_db_entry. apply wp_bind. eapply wp_member_reg_at; [done|]. apply wp_bind. eapply wp_chan_reg_at; [done|].
  apply wp_bind. eapply wp_ureg_name; [done|].
  apply wp_db_exec; [by cbn; split_and!|]. intros w' D. apply HQ; [by eapply path_same|done].
Qed.

(** A channel that someone else owns keeps a user. *)
Lemma owned_user w m mr r :
  regs_ok (user_regs w) (cs w) → owned (registry_at w) → member_regs (cs w) !! m = Some mr →
  chan_regs (cs w) !! mr_channel_reg mr = Some r → mr_level mr ≠ S_C_OWNER →
  ∃ q qr, member_regs (cs w) !! q = Some qr ∧ mr_channel_reg qr = mr_channel_reg mr ∧ q ≠ m.
Proof.
  intros Hr Ho Em Er Hl. destruct (Ho (mr_channel_reg mr)) as [u [(e & Ee & Hle & _) _]].
  { eexists. by apply registry_name. }
  apply acl_lookup in Ee as (q & qr & Eq & [= Hc Hu] & <-); [|by eapply regs_distinct]. exists q, qr. split_and!; [done|done|].
  intros ->. rewrite Em in Eq. by simplify_eq.
Qed.

Lemma user_listed w q qr r :
  regs_ok (user_regs w) (cs w) → member_regs (cs w) !! q = Some qr → chan_regs (cs w) !! mr_channel_reg qr = Some r →
  q ∈ cr_users r.
Proof. intros Hr Eq Er. destruct (ro_users _ _ Hr _ _ Er) as [_ Hl]. apply Hl. by exists qr. Qed.

(** A user who is not the owner goes. *)
Lemma path_free_user p w0 l w m mr r upgrade (Q : unit → world → Prop) :
  path p w0 l w → owned (registry_at w) → member_regs (cs w) !! m = Some mr → chan_regs (cs w) !! mr_channel_reg mr = Some r →
  mr_level mr ≠ S_C_OWNER →
  (∀ w', path p w0 l w' → did [] (cs w') w w' →
     registry_at w' = Registry (names (registry_at w)) (delete (pair_of mr) (list_of (registry_at w))) → Q tt w') →
  wp (free_member_reg m upgrade) Q w.
Proof.
  intros P Ho Em Er Hl HQ. pose proof (se_regs _ _ (pa_served _ _ _ _ P)) as Hr.
  destruct (owned_user w m mr r Hr Ho Em Er Hl) as (q & qr & Eq & Hc & Hne).
  unfold free_member_reg. apply wp_bind. eapply wp_member_reg_at; [done|]. cbn zeta.
  eapply path_unlink; [done..|]. intros w1 P1 D1. pose proof (se_regs _ _ (pa_served _ _ _ _ P1)) as Hr1.
  assert (chan_regs (cs w1) !! mr_channel_reg mr = Some (r <| cr_users ::= rb_dlinkDelete m |>)) as Er1.
  { rewrite (did_cs _ _ _ _ D1). simpl. by rewrite lookup_alter, decide_True, Er. }
  apply wp_bind. eapply wp_chan_reg_at; [exact Er1|].
  assert (q ∈ cr_users (r <| cr_users ::= rb_dlinkDelete m |>)) as Hq.
  { eapply user_listed; [exact Hr1| |by rewrite Hc]. rewrite (did_cs _ _ _ _ D1). simpl. by rewrite lookup_delete_ne. }
  destruct (cr_users _) as [|x xs]; [by apply elem_of_nil in Hq|]. cbn [is_nil].
  rewrite (proj2 (Z.eqb_neq _ _)) by done. cbn [andb]. apply wp_ret, HQ; [done|by rewrite (did_cs _ _ _ _ D1)|].
  eapply registry_leave; [exact Hr|done|apply D1].
Qed.

Lemma deluser_acts p w parv chan name :
  served w p → owned (registry_at w) → line_ok parv → parv !! 0%nat = Some chan → parv !! 1%nat = Some name →
  wp (s_chan_deluser p parv) (fun c w' => c = 1 ∧ acted DELUSER p chan w w') w.
Proof.
  intros S Ho Hp E0 E1. destruct (line_arg _ _ _ Hp E0) as [H0 _]. destruct (line_arg _ _ _ Hp E1) as [H1 _].
  eapply path_with_target; [done..|]. intros w1 l1 m mr r ga t tr g A Ha Et Hc Eg. pose proof (al_path _ _ _ _ _ _ A) as P.
  pose proof (pa_served _ _ _ _ P) as S1. pose proof (se_regs _ _ S1) as Hr.
  assert (owned (registry_at w1)) as Ho1.
  { unfold registry_at. by rewrite (same_registry _ _ (al_same _ _ _ _ _ _ A)). }
  apply wp_bind. eapply wp_member_reg_at; [apply Ha|]. apply wp_bind. eapply wp_member_reg_at; [done|].
  destruct (_ && _) eqn:Eb; [by eapply path_reply|]. apply (lower_or_self p chan S_C_USERLIST w1 m mr r ga t tr Hr Ha Et) in Eb.
  destruct (mr_level tr =? S_C_OWNER) eqn:Eo.
  { apply wp_bind, wp_gets. apply wp_bind. destruct (ready_service _ _ _ (se_ready _ _ S1)) as (c & sv & Ec & _).
    eapply wp_rd; [exact Ec|]. by eapply path_reply. }
  apply Z.eqb_neq in Eo. apply wp_bind. eapply wp_ureg_name; [done|].
  apply wp_bind. eapply path_err; [exact P|]. intros w2 P2 D2.
  assert (chan_regs (cs w1) !! mr_channel_reg tr = Some r) as Er by (rewrite Hc; apply Ha).
  apply wp_bind. eapply (path_delete_entry _ _ _ w2 t tr g r); [exact P2|rewrite (did_cs _ _ _ _ D2); exact Et
    |rewrite (sn_user_regs _ _ (did_net _ _ _ _ D2)); exact Eg|rewrite (did_cs _ _ _ _ D2); exact Er|].
  intros w3 s P3 D3. assert (cs w3 = cs w1) as E31 by (rewrite (did_cs _ _ _ _ D3); apply D2).
  assert (registry_at w3 = registry_at w1) as ER by (unfold registry_at; by rewrite E31).
  apply wp_bind. eapply (path_free_user _ _ _ w3 t tr r); [exact P3|by rewrite ER|by rewrite E31|by rewrite E31|done|].
  intros w4 P4 D4 ER4. apply wp_ret. split; [done|].
  eapply (acted_edit _ _ _ _ _ _ (l1 ++ [s])); [exact A|exact P4| |].
  - rewrite (sn_user_regs _ _ (did_net _ _ _ _ D4)), (sn_user_regs _ _ (did_net _ _ _ _ D3)), (sn_user_regs _ _ (did_net _ _ _ _ D2)).
    apply (sn_user_regs _ _ (al_net _ _ _ _ _ _ A)).
  - exists [s]. split; [change [s] with ([] ++ [s]); apply among_app; [apply among_silent, A|apply among_refl]|].
    rewrite ER4, ER. unfold pair_of.
    eapply acts_remove with (ch := mr_channel_reg tr) (e := row_of mr) (u := mr_user_reg tr) (t := row_of tr); rewrite ?Hc.
    + exact (registry_name _ _ _ (as_chan _ _ _ _ _ _ _ _ Ha)).
    + apply Ha.
    + apply Ha.
    + exact (asks_allowed _ _ _ _ _ _ _ _ Hr Ha).
    + exact (user_name _ _ _ Eg).
    + exact (target_row _ _ _ _ Hr Et Hc).
    + exact Eb.
    + exact Eo.
Qed.
End leaving.
