(* ===== verification/Parting.v ===== *)
(** * A service leaves a channel

    [part_service()] of [src/channel.c] takes a service out of the list of a channel
    and the channel out of the list of the service, and frees the channel if nobody is
    left in it, after the functions registered for that have been called.  [onward]
    says what is the same afterwards, and that a command of the channel service may
    go on from there. *)

From S2P Require Import Prelude CString Match Rblib Fault Snprintf Rsdb World Lookup Channel Service Conf Client Dispatch Net Members Index Handlers Joins Modes Clients Exits Commands Replies Requests ChanServ ChanAcl ChanRegs ChanCmds.

(** ** The lists of both *)
Section service_lists.
Context `{SYS : Sys} `{RB : !RbSpec}.

Definition part_world (s p : ptr) (w : world) : world :=
  w <| channels ::= alter (fun ch => ch <| ch_services ::= rb_dlinkFindDestroy s |>) p |>
    <| clients ::= alter (upd_service_field (fun sv => sv <| sr_channels ::= rb_dlinkFindDestroy p |>)) s |>.

Lemma part_channels s p w q ch' :
  channels (part_world s p w) !! q = Some ch' → ∃ ch, channels w !! q = Some ch ∧
    ch_name ch' = ch_name ch ∧ ch_tsinfo ch' = ch_tsinfo ch ∧ ch_users ch' = ch_users ch ∧
    ch_users_opped ch' = ch_users_opped ch ∧ ch_users_unopped ch' = ch_users_unopped ch ∧
    ch_services ch' = if decide (p = q) then rb_dlinkFindDestroy s (ch_services ch) else ch_services ch.
Proof. intros (ch & E & ->)%lookup_alter_iff. exists ch. by case_decide. Qed.

Lemma part_clients s p w q c' :
  clients (part_world s p w) !! q = Some c' → ∃ c, clients w !! q = Some c ∧ ident_of c' = ident_of c ∧ parts c' = parts c ∧
    cl_user c' = cl_user c ∧
    cl_service c' = if decide (s = q) then (fun sv => sv <| sr_channels ::= rb_dlinkFindDestroy p |>) <$> cl_service c else cl_service c.
Proof.
  intros (c & E & ->)%lookup_alter_iff. exists c. case_decide; [|done]. split_and!; try done.
  - unfold ident_of, kind_of, on_net, users_behind, servers_behind. simpl. by destruct (cl_service c).
  - unfold parts. simpl. by destruct (cl_service c).
Qed.

(** The same clients, but for the lists of channels of services. *)
Lemma part_client_back s p w q c :
  clients w !! q = Some c → ∃ c', clients (part_world s p w) !! q = Some c' ∧ cl_user c' = cl_user c ∧
    cl_service c' = if decide (s = q) then (fun sv => sv <| sr_channels ::= rb_dlinkFindDestroy p |>) <$> cl_service c else cl_service c.
Proof.
  intros E. eexists. split; [apply lookup_alter_iff; by exists c|]. by case_decide.
Qed.

Lemma part_channel_back s p w q ch :
  channels w !! q = Some ch → ∃ ch', channels (part_world s p w) !! q = Some ch' ∧
    ch_services ch' = if decide (p = q) then rb_dlinkFindDestroy s (ch_services ch) else ch_services ch.
Proof. intros E. eexists. split; [apply lookup_alter_iff; by exists ch|]. by case_decide. Qed.

Lemma destroyed l P x y : lists l P → y ∈ rb_dlinkFindDestroy x l ↔ y ∈ l ∧ y ≠ x.
Proof. intros Hl. destruct (lists_destroy l P x Hl) as [_ ->]. by rewrite (proj2 Hl). Qed.

Lemma part_servs s p w : servs_ok w → servs_ok (part_world s p w).
Proof.
  intros [S C]. split.
  - intros q ch' (ch & E & _ & _ & _ & _ & _ & ->)%part_channels. pose proof (S q ch E) as L.
    assert (∀ x, (∃ c sv, clients (part_world s p w) !! x = Some c ∧ cl_service c = Some sv ∧ q ∈ sr_channels sv) ↔
      (∃ c sv, clients w !! x = Some c ∧ cl_service c = Some sv ∧ q ∈ sr_channels sv) ∧ ¬ (p = q ∧ x = s)) as Heq.
    { intros x. split.
      - intros (c' & sv' & (c & Ec & _ & _ & _ & Es)%part_clients & Esv & Hq). rewrite Esv in Es. case_decide as Ex.
        + subst x. symmetry in Es. apply fmap_Some in Es as (sv & Es & ->). simpl in Hq. pose proof (C s c sv Ec Es) as L'.
          apply (destroyed _ _ _ _ L') in Hq as [Hq Hne]. split; [by eauto|]. by intros [-> _].
        + split; [by eauto|]. intros [_ ->]. done.
      - intros [(c & sv & Ec & Es & Hq) Hne]. destruct (part_client_back s p w x c Ec) as (c' & Ec' & _ & Es'). rewrite Es in Es'.
        exists c'. case_decide as Ex; [|by eauto]. subst x. eexists. split; [done|]. split; [done|]. simpl.
        apply (destroyed _ _ _ _ (C s c sv Ec Es)). split; [done|]. intros ->. by apply Hne. }
    case_decide as Ep.
    + subst q. eapply lists_iff; [|by apply lists_destroy]. intros x. cbn beta. rewrite Heq. naive_solver.
    + eapply lists_iff; [|exact L]. intros x. cbn beta. rewrite Heq. naive_solver.
  - intros x c' sv' (c & Ec & _ & _ & _ & Es)%part_clients Esv. rewrite Esv in Es.
    assert (∀ q, (∃ ch, channels (part_world s p w) !! q = Some ch ∧ x ∈ ch_services ch) ↔
      (∃ ch, channels w !! q = Some ch ∧ x ∈ ch_services ch) ∧ ¬ (p = q ∧ x = s)) as Heq.
    { intros q. split.
      - intros (ch' & (ch & E & _ & _ & _ & _ & _ & Esc)%part_channels & Hx). rewrite Esc in Hx. case_decide as Ep.
        + subst q. apply (destroyed _ _ _ _ (S p ch E)) in Hx as [Hx Hne]. split; [by eauto|]. by intros [_ ->].
        + split; [by eauto|]. by intros [-> _].
      - intros [(ch & E & Hx) Hne]. destruct (part_channel_back s p w q ch E) as (ch' & E' & Esc). exists ch'. split; [done|].
        rewrite Esc. case_decide as Ep; [|done]. subst q. apply (destroyed _ _ _ _ (S p ch E)). split; [done|]. intros ->. by apply Hne. }
    case_decide as Ex.
    + subst x. symmetry in Es. apply fmap_Some in Es as (sv & Es & ->). simpl. pose proof (C s c sv Ec Es) as L.
      eapply lists_iff; [|by apply lists_destroy]. intros q. cbn beta. rewrite Heq. naive_solver.
    + eapply lists_iff; [|by eapply C]. intros q. cbn beta. rewrite Heq. naive_solver.
Qed.
End service_lists.

Section part_good.
Context `{SYS : Sys} `{RB : !RbSpec}.

Lemma part_membs s p w : membs_ok w → membs_ok (part_world s p w).
Proof.
  intros [M1 M2 M3 M4 M5 M6 M7].
  assert (∀ P m, member_with (part_world s p w) P m ↔ member_with w P m) as Hm by done.
  split.
  - intros m mb E. destruct (M1 m mb E) as [ch Ech]. destruct (part_channel_back s p w _ ch Ech) as (ch' & ? & _). by exists ch'.
  - intros m mb E. destruct (M2 m mb E) as (c & u & Ec & Eu). destruct (part_client_back s p w _ c Ec) as (c' & ? & E' & _).
    exists c', u. by rewrite E'.
  - intros q ch' (ch & E & _ & _ & -> & _)%part_channels. by apply M3.
  - intros q ch' (ch & E & _ & _ & _ & -> & _)%part_channels. by apply M4.
  - intros q ch' (ch & E & _ & _ & _ & _ & -> & _)%part_channels. by apply M5.
  - intros x c' u (c & E & _ & _ & Eu & _)%part_clients Eu'. rewrite Eu in Eu'. by eapply M6.
  - apply M7.
Qed.

Lemma part_index s p w : same_index w (part_world s p w).
Proof.
  split; try done. unfold ids. simpl. apply ids_alter. intros c.
  unfold ident_of, kind_of, on_net, users_behind, servers_behind. simpl. by destruct (cl_service c).
Qed.

Lemma part_inv s p w : chan_inv w → chan_inv (part_world s p w).
Proof.
  intros [Hc Hm Hs]. split; [|by apply part_membs|by apply part_servs].
  by eapply (chans_ok_names w (part_world s p w) p (fun ch => ch <| ch_services ::= rb_dlinkFindDestroy s |>)).
Qed.

Lemma part_tally s p w : tally w (part_world s p w).
Proof.
  split; try done.
  - intros [Hn Hi]. split; [|done]. apply (net_inv_index w); [apply part_inv, Hn|apply part_index|by apply members_from_eq|done].
  - apply (si_ids _ _ (part_index s p w)).
  - refine (parts_alter w _ s _). intros c. unfold parts. simpl. by destruct (cl_service c).
Qed.

Lemma drop_tally w p ch :
  channels w !! p = Some ch → channel_empty ch = true → tally w (drop_channel p (ch_name ch) w).
Proof.
  intros Ech He. split; try done. intros [Hn Hi]. split; [|done].
  apply (net_inv_index w); [by apply chan_inv_drop; [apply Hn|..]|by split|by apply members_from_eq|done].
Qed.
End part_good.

(** ** Going on *)
Section onward.
Context `{SYS : Sys} `{RB : !RbSpec} `{HK : !HooksOk} `{CS : !ChanServ}.

(** Another state in which a command can run, with the same users and settings, the
    same data of the service, and the database after the statements [l]. *)
Record onward (l : list statement) (w w' : world) : Prop := Onward {
  ow_tally : tally w w';
  ow_regs : user_regs w' = user_regs w;
  ow_time : rb_time w' = rb_time w;
  ow_config : config_file w' = config_file w;
  ow_channels q ch' : channels w' !! q = Some ch' → ∃ ch, channels w !! q = Some ch ∧ ch_tsinfo ch' = ch_tsinfo ch;
  ow_login p : login_of w' p = login_of w p;
  ow_hosts : hosts_ok w → hosts_ok w';
  ow_cs : cs w' = cs w;
  ow_db : executed l (db_get (mods w)) (db_get (mods w'))
}.

Lemma onward_trans l1 l2 w w1 w2 : onward l1 w w1 → onward l2 w1 w2 → onward (l1 ++ l2) w w2.
Proof.
  intros [T1 R1 I1 C1 H1 L1 O1 S1 D1] [T2 R2 I2 C2 H2 L2 O2 S2 D2]. split; [by etrans|congruence..| | |auto|congruence|by eapply executed_app].
  - intros q ch' (ch1 & (ch & E & ?)%H1 & ?)%H2. exists ch. split; [done|congruence].
  - intros p. by rewrite L2.
Qed.

Lemma did_onward l w w' : did l (cs w) w w' → onward l w w'.
Proof.
  intros [N H C D]. split; [by apply tally_same|apply N..| |by intros; apply login_same|done|done|done].
  intros q ch. rewrite (sn_channels _ _ N). by exists ch.
Qed.

Lemma served_onward l w w' p : served w p → onward l w w' → served w' p.
Proof.
  intros [S1 S2 S3 S4 S5 S6 S7 S8] [T R I C H L O Ec D]. split; rewrite ?Ec, ?R, ?I, ?C, ?(ta_conf _ _ T); try done; try by eapply ready_tally.
  - intros q ch' (ch & E & ->)%H. by eapply S7.
  - by apply O.
Qed.

(** A change of the network's data only. *)
Lemma onward_net w w' :
  tally w w' → (∀ q ch', channels w' !! q = Some ch' → ∃ ch, channels w !! q = Some ch ∧ ch_tsinfo ch' = ch_tsinfo ch) →
  (∀ p, login_of w' p = login_of w p) → user_regs w' = user_regs w → rb_time w' = rb_time w → config_file w' = config_file w →
  hosts w' = hosts w → host_table w' = host_table w → mods w' = mods w → onward [] w w'.
Proof.
  intros T H L R I C E1 E2 M. split; try done; [unfold hosts_ok; by rewrite E1, E2|unfold cs; by rewrite M..].
Qed.

Lemma part_onward s p w : onward [] w (part_world s p w).
Proof.
  apply onward_net; try done; [apply part_tally| |].
  - intros q ch' (ch & E & _ & Et & _)%part_channels. by exists ch.
  - intros x. unfold login_of. destruct (clients (part_world s p w) !! x) as [c'|] eqn:E.
    + apply part_clients in E as (c & -> & _ & _ & -> & _). done.
    + simpl in E. by rewrite lookup_alter_None in E; rewrite E.
Qed.

Lemma drop_onward w p ch :
  channels w !! p = Some ch → channel_empty ch = true → onward [] w (drop_channel p (ch_name ch) w).
Proof.
  intros Ech He. apply onward_net; try done; [by apply drop_tally|].
  intros q ch'. simpl. intros [_ E]%lookup_delete_Some. by exists ch'.
Qed.
End onward.

(** ** The call *)

(** What the functions registered for the end of a channel do besides: they leave the
    data of the channel service alone, and run statements on other tables only. *)
Class EndHooks `{SYS : Sys} `{CS : !ChanServ} : Prop :=
  end_hook w w' f p r : f ∈ bucket (hooks w) HOOK_CHANNEL_DESTROY → hook_func f (HookPtr p) NoList w = Ok r w' →
    snd r = NoList ∧ cs w' = cs w ∧ (hosts_ok w → hosts_ok w') ∧
    ∃ l, Forall silent l ∧ executed l (db_get (mods w)) (db_get (mods w')).

Section part.
Context `{SYS : Sys} `{RB : !RbSpec} `{HK : !HooksOk} `{CS : !ChanServ} `{EH : !EndHooks}.

(** Forward, with silent statements. *)
Definition ahead (w w' : world) : Prop := ∃ l, Forall silent l ∧ onward l w w'.

Lemma ahead_trans w w1 w2 : ahead w w1 → ahead w1 w2 → ahead w w2.
Proof. intros (l1 & H1 & O1) (l2 & H2 & O2). exists (l1 ++ l2). split; [by apply Forall_app|by eapply onward_trans]. Qed.

Lemma ahead_onward w w' : onward [] w w' → ahead w w'.
Proof. intros O. exists []. by split. Qed.

Lemma served_ahead w w' p : served w p → ahead w w' → served w' p.
Proof. intros S (l & _ & O). by eapply served_onward. Qed.

Lemma wp_end_run p fs : ∀ w,
  (∃ ch, channels w !! p = Some ch ∧ channel_empty ch = true) → (∀ f, f ∈ fs → f ∈ bucket (hooks w) HOOK_CHANNEL_DESTROY) →
  wp (hook_run fs (HookPtr p) NoList) (fun _ w' => same_net w w' ∧ ahead w w') w.
Proof.
  assert (∀ w, ahead w w) as Hrefl by (intros w; by apply ahead_onward, did_onward, did_nothing).
  induction fs as [|f fs IH]; intros w Hch Hfs; [by apply wp_ret|]. cbn [hook_run].
  assert (f ∈ bucket (hooks w) HOOK_CHANNEL_DESTROY) as Hf by (apply Hfs; by left).
  apply wp_bind. eapply wp_conseq; [apply (wp_every _ (fun _ w1 => same_net w w1) (fun r w1 => snd r = NoList ∧ cs w1 = cs w ∧ (hosts_ok w → hosts_ok w1) ∧
      ∃ l, Forall silent l ∧ executed l (db_get (mods w)) (db_get (mods w1))))|].
  - apply (quiet_hook w HOOK_CHANNEL_DESTROY); [|done]. repeat right. destruct Hch as (ch & E & He). split; [done|]. by exists p, ch.
  - intros r w1 Er. by eapply end_hook.
  - cbn beta. intros [r l] w1 [N (El & Ec & Hh & st & Hs & Hd)]. simpl in El. subst l.
    assert (ahead w w1) as A1 by (exists st; split; [done|]; apply did_onward; by split).
    cbn [fst snd]. destruct (r <? 0); [by apply wp_ret|].
    eapply wp_conseq; [apply IH; [by rewrite (sn_channels _ _ N)|intros g Hg; rewrite (sn_hooks _ _ N); apply Hfs; by right]|].
    cbn beta. intros _ w2 [N2 A2]. split; [by etrans|by eapply ahead_trans].
Qed.

Lemma wp_end_channel w p ch :
  channels w !! p = Some ch → channel_empty ch = true → wp (free_channel p) (fun _ w' => ahead w w') w.
Proof.
  intros Ech He. unfold free_channel. apply wp_bind. unfold hook, hook_call. apply wp_bind.
  rewrite (proj2 (Z.leb_gt _ _)) by done. apply wp_bind, (wp_gets (fun s => s)).
  eapply wp_conseq; [apply wp_end_run; [by exists ch|done]|]. cbn beta. intros _ w1 [N A1]. apply wp_ret.
  assert (channels w1 !! p = Some ch) as Ech1 by (by rewrite (sn_channels _ _ N)).
  apply wp_bind. unfold del_channel. apply wp_bind. eapply wp_rd; [done|]. apply wp_modify.
  apply wp_bind. eapply wp_rd; [done|]. apply wp_modify.
  eapply ahead_trans; [exact A1|]. apply ahead_onward. by apply drop_onward.
Qed.

Lemma wp_part_service w p name :
  served w p → no_nul name = true → wp (part_service (chanserv_p (cs w)) name) (fun _ w' => ahead w w') w.
Proof.
  intros S Hn. set (s := chanserv_p (cs w)). destruct (ready_service _ _ _ (se_ready _ _ S)) as (c & sv & Ec & Es).
  assert (ahead w w) as Hrefl by (by apply ahead_onward, did_onward, did_nothing).
  unfold part_service. apply wp_bind, wp_find_channel; [apply (re_good _ _ _ (se_ready _ _ S))|done|].
  intros [q|] Hq; [|by apply wp_ret]. destruct Hq as (ch & Ech & _).
  apply wp_bind. eapply wp_rd; [exact Ech|]. destruct (rb_dlinkFind _ _); [|by apply wp_ret]. cbn [negb].
  apply wp_bind. eapply wp_upd_channel; [exact Ech|]. apply wp_bind. eapply wp_upd_service; [exact Ec|exact Es|].
  set (w1 := _ <| clients ::= _ |>). assert (onward [] w w1) as O1 by (apply (part_onward s q w)).
  apply wp_bind, (wp_gets (fun s => s)). destruct (part_client_back s q w s c Ec) as (c1 & Ec1 & _).
  apply wp_bind. eapply wp_rd; [exact Ec1|].
  destruct (part_channel_back s q w q ch Ech) as (ch1 & Ech1 & _).
  apply wp_bind, wp_told; [by apply quiet_when; intros _; apply quiet_sendto_server|keeps_tac|].
  intros [] w2 D2. assert (channels w2 !! q = Some ch1) as Ech2 by (by rewrite (sn_channels _ _ (did_net _ _ _ _ D2))).
  apply wp_bind. eapply wp_rd; [exact Ech2|].
  assert (ahead w w2) as A2 by (apply ahead_onward, (onward_trans [] [] w w1 w2); [exact O1|by apply did_onward]).
  apply wp_bind, wp_when; [|by intros _; apply wp_ret]. intros He.
  eapply wp_conseq; [by eapply wp_end_channel|]. cbn beta. intros _ w3 A3. apply wp_ret. by eapply ahead_trans.
Qed.
End part.
