(* ===== verification/ChanLife.v ===== *)
(** * Registrations of channels: how they come, are closed, and go

    The commands of operators - CHANREGISTER, CHANDROP, CHANSUSPEND, CHANUNSUSPEND -
    and REGISTER and DELOWNER, which make and destroy registrations or pass them on:
    like those of [ChanCmds.v] they run without a fault and keep to the rules. *)

From S2P Require Import Prelude CString Match Rblib Tools Rserv Fault Snprintf Rsdb World Crypt Lookup Channel Service Conf Client Dispatch Net Members Index Handlers Joins Modes Clients Exits Commands Replies Requests ChanServ ChanAcl ChanRegs ChanCmds Parting.

(** ** Suspensions of channels *)
Section suspensions.
Context `{SYS : Sys} `{RB : !RbSpec} `{HK : !HooksOk} `{CS : !ChanServ}.

(** A reply at no cost, where the registry is what it was. *)
Definition untouched (p : ptr) (w : world) (c : Z) (w' : world) : Prop := c = 0 ∧ ∃ l, along p w [] w w' l.

Lemma path_free_reply p w w1 l1 name args :
  along p w [] w w1 l1 → wp (_ ← chan_err p name args; mret 0) (untouched p w) w1.
Proof.
  intros A. apply wp_bind. eapply path_err; [apply A|]. intros w' P D.
  apply wp_ret. split; [done|]. exists l1. by eapply along_reply.
Qed.

Lemma wp_oper_line w s p c u (Q : string → world → Prop) :
  served w s → ready w (chanserv_p (cs w)) p → clients w !! p = Some c → cl_user c = Some u →
  (∀ n, (strlen n < 1024)%nat → Q n w) → wp (OPER_NAME u) Q w.
Proof.
  intros S R Ec Eu HQ. unfold OPER_NAME. destruct (us_oper u) as [o|] eqn:Eo; [|apply wp_ret, HQ; simpl; lia].
  destruct (user_block w _ p c u o R Ec Eu Eo) as [b Eb]. apply wp_bind. eapply wp_rd; [exact Eb|].
  by eapply wp_ret, HQ, (se_opers _ _ S).
Qed.

(** A registration is changed, its row follows, and the operator is told. *)
Lemma path_option p w w1 l1 ch r f format values name args :
  along p w [] w w1 l1 → chan_regs (cs w1) !! ch = Some r →
  (∀ x, face (f x) = face x) → (∀ x, tidy x → tidy (f x)) →
  printable format (values (f r)) → silent (format, values (f r)) →
  wp (_ ← upd_chan_reg ch f; reg ← chan_reg_at ch; _ ← db_exec format (values reg);
      _ ← chan_err p name (args reg); mret 0) (untouched p w) w1.
Proof.
  intros A Er Hf Ht Hp Hs. apply wp_bind. eapply wp_upd_chan_reg; [done|]. intros w2 D2.
  eapply along_alter in D2 as A2; [|apply A|done..].
  pose proof (alter_at _ _ f _ Er) as Er2. rewrite <- (did_cs _ _ _ _ D2) in Er2.
  apply wp_bind. eapply wp_chan_reg_at; [done|]. apply wp_bind. apply wp_db_exec; [done|]. intros w3 D3.
  eapply along_exec in D3; [|apply A2|done]. eapply path_free_reply.
  eapply along_trans; [exact A|]. eapply along_trans; [exact A2|exact D3].
Qed.

Lemma chanunsuspend_untouched p w parv chan :
  served w p → line_ok parv → parv !! 0%nat = Some chan →
  wp (o_chan_chanunsuspend p parv) (untouched p w) w.
Proof.
  intros S Hp E0. destruct (line_arg _ _ _ Hp E0) as [H0 _]. pose proof (along_refl _ _ _ _ (path_start w p S)) as A.
  apply wp_bind. eapply wp_arg_at; [done|]. apply wp_bind. apply wp_find_channel_reg; [apply S|done|].
  intros [q|] Hq; [|by eapply path_free_reply]. destruct Hq as (r & Er & _).
  apply wp_bind. eapply wp_chan_reg_at; [done|]. destruct (negb _); [by eapply path_free_reply|].
  apply wp_bind. eapply path_log; [apply A|]. intros w1 P1 D1. apply (along_reply _ _ _ _ w w1 []) in A; [|exact P1|exact D1].
  apply wp_bind, wp_gets. pose proof (se_now _ _ S). pose proof (se_now _ _ (pa_served _ _ _ _ P1)).
  assert (chan_regs (cs w1) !! q = Some r) as Er1 by (by rewrite (did_cs _ _ _ _ D1)).
  destruct (ro_tidy _ _ (se_regs _ _ S) q r Er) as (? & ? & ? & ?).
  eapply (path_option p w w1 _ q r _ _ (fun reg => [ArgInt (cr_flags reg); ArgULong (cr_last_time reg); ArgStr (Some (cr_name reg))])
    _ (fun reg => [cr_name reg; "SUSPEND"; "OFF"]%string)); [exact A|exact Er1|done| |..].
  - intros x (? & ? & ? & ?). split_and!; try done. all: by apply (clear_flag_range 31).
  - pose proof (clear_flag_range 31 (cr_flags r) CS_FLAGS_SUSPENDED). cbn -[clear_flag]. split_and!; try done; lia.
  - done.
Qed.

Lemma chansuspend_untouched p w parv x y :
  served w p → line_ok parv → parv !! 0%nat = Some x → parv !! 1%nat = Some y →
  wp (o_chan_chansuspend p parv) (untouched p w) w.
Proof.
  intros S Hp E0 E1. pose proof (along_refl _ _ _ _ (path_start w p S)) as A.
  apply wp_bind. eapply wp_arg_at; [done|]. cbn zeta. destruct (get_temp_time_bounds x) as [Ht _].
  set (time := get_temp_time x) in *. set (para := if time =? 0 then 0%nat else 1%nat).
  assert (∃ chan, parv !! para = Some chan) as [chan Ec] by (unfold para; case_match; eauto).
  destruct (line_arg _ _ _ Hp Ec) as [H0 _].
  apply wp_bind. eapply wp_arg_at; [done|]. apply wp_bind. apply wp_find_channel_reg; [apply S|done|].
  intros [q|] Hq; [|by eapply path_free_reply]. destruct Hq as (r0 & Er0 & _).
  apply wp_bind. eapply path_suspended; [apply A|done|]. intros sus w1 l1 A1.
  apply (along_trans _ _ _ _ _ _ _ _ A) in A1. cbn [app] in A1.
  destruct (same_access_fwd _ _ q r0 (al_same _ _ _ _ _ _ A1) Er0) as (r1 & Er1 & _).
  apply wp_bind. eapply wp_chan_reg_at; [done|]. destruct sus; [by eapply path_free_reply|].
  destruct (is_empty _); [by eapply path_free_reply|].
  apply wp_bind. eapply path_log; [apply A1|]. intros w2 P2 D2. eapply along_reply in A1; [|exact P2|exact D2].
  pose proof (pa_served _ _ _ _ P2) as S2. destruct (served_user w2 p S2) as (c & u & Ecl & Eu).
  apply wp_bind. eapply wp_user_of; [done..|]. apply wp_bind. eapply wp_oper_line; [done|apply S2|done..|]. intros oname Hon.
  apply wp_bind, wp_gets. pose proof (se_now _ _ S2).
  assert (chan_regs (cs w2) !! q = Some r1) as Er2 by (by rewrite (did_cs _ _ _ _ D2)).
  destruct (ro_tidy _ _ (se_regs _ _ S2) q r1 Er2) as (? & ? & ? & ?).
  eapply (path_option p w w2 _ q r1 _ _ (fun reg => [ArgInt (cr_flags reg); ArgStr (cr_suspender reg); ArgStr (cr_suspend_reason reg);
               ArgULong (cr_last_time reg); ArgULong (cr_suspend_time reg); ArgStr (Some (cr_name reg))])
    _ (fun reg => [cr_name reg; "SUSPEND"; "ON"]%string)); [exact A1|exact Er2|done| |..].
  - intros z (? & ? & ? & ?). split_and!; try done. all: by apply (set_flag_range 31).
  - pose proof (set_flag_range 31 (cr_flags r1) CS_FLAGS_SUSPENDED ltac:(done) ltac:(done) ltac:(done)). unfold MAX_TEMP_TIME in Ht.
    assert (0 ≤ (if time =? 0 then 0 else rb_time w2 + time) < 10 ^ 18) by (case_match; lia). cbn -[set_flag Z.eqb].
    assert (strlen (rb_strndup SUSPENDREASONLEN (rebuild_params parv (para + 1))) < 1024)%nat.
    { destruct (rb_strndup_spec SUSPENDREASONLEN (rebuild_params parv (para + 1))) as (k & Hk & ->).
      unfold strlen. rewrite length_str_take. unfold SUSPENDREASONLEN in Hk. lia. }
    split_and!; try done; lia.
  - done.
Qed.
End suspensions.

(** ** New registrations *)

(** A registration entered in the table. *)
Definition enter_channel `{RbLib} (q : ptr) (r : chan_reg) (c : chanserv) : chanserv :=
  c <| chan_regs ::= <[q := r]> |> <| chan_reg_table ::= upd_bucket (hash_channel (cr_name r)) (rb_dlinkAdd q) |>.

Lemma regs_found `{RbSpec} regs c q r :
  regs_ok regs c → chan_regs c !! q = None → tidy r → cr_users r = [] →
  (∀ p g, chan_regs c !! p = Some g → irccmp (cr_name g) (cr_name r) ≠ 0) → regs_ok regs (enter_channel q r c).
Proof.
  intros Hr Hq Ht Hu Hf. pose proof Hr as [T Y U L K M V O R N D].
  assert (∀ P x, access (enter_channel q r c) P x ↔ access c P x) as Ha by done.
  split; try done.
  - eapply indexed_iff; [|apply indexed_add; [exact T|]].
    + intros p h. simpl. setoid_rewrite lookup_insert_Some. split.
      * intros [(g & E & <-)|[-> ->]]; [|by eauto]. exists g. split; [|done]. right. split; [|done]. intros ->. congruence.
      * intros (g & [[<- <-]|[? E]] & <-); [by right|]. left. by exists g.
    + intros (g & E & _). congruence.
  - intros p g. simpl. rewrite lookup_insert_Some. intros [[<- <-]|[_ E]]; [done|by eapply Y].
  - intros p p' g g'. simpl. rewrite !lookup_insert_Some. intros [[<- <-]|[_ E]] [[<- <-]|[_ E']] Hi; [done| | |by eapply U].
    + by destruct (Hf p' g' E'); apply irccmp_sym.
    + by destruct (Hf p g E).
  - intros p g. simpl. rewrite lookup_insert_Some. intros [[<- <-]|[_ E]]; [|by apply L]. rewrite Hu.
    apply lists_nil. intros x (mr & Ex & Hx). destruct (M x mr Ex) as ([g Eg] & _). unfold to_chan in Hx. congruence.
  - intros m mr E. destruct (M m mr E) as ([g Eg] & ? & ?). split; [|done]. simpl. exists g.
    rewrite lookup_insert_ne; [done|]. congruence.
Qed.

Section registering.
Context `{SYS : Sys} `{RB : !RbSpec} `{HK : !HooksOk} `{CS : !ChanServ}.

Definition s_found (name : string) (ts now : Z) : statement :=
  ("INSERT INTO channels (chname, tsinfo, reg_time, last_time, flags, createmodes) VALUES('%Q', '%lu', '%lu', '%lu', '0', '%Q')"%string,
   [ArgStr (Some name); ArgULong ts; ArgULong now; ArgULong now; ArgStr (Some "+nt"%string)]).

Lemma served_net w p : served w p → net_inv w.
Proof. intros S. apply (re_good _ _ _ (se_ready _ _ S)). Qed.

Lemma path_init p w0 l w name (Q : ptr → world → Prop) :
  path p w0 l w → no_nul name = true → (strlen name < 1024)%nat → creg_spec name w None →
  (∀ q w' ts s, path p w0 (l ++ [s]) w' → did [s] (cs w') w w' → silent s →
     names (registry_at w) !! q = None →
     registry_at w' = Registry (<[q := name]> (names (registry_at w))) (list_of (registry_at w)) →
     (∃ r, chan_regs (cs w') !! q = Some r ∧ cr_name r = name) → 0 ≤ ts → Q q w') →
  wp (init_channel_reg name) Q w.
Proof.
  intros P Hn Hl Hf HQ. pose proof (pa_served _ _ _ _ P) as S. pose proof (se_now _ _ S).
  unfold init_channel_reg. apply wp_bind, wp_gets. set (q := rb_bh_alloc (dom (chan_regs (cs w)))).
  assert (chan_regs (cs w) !! q = None) as Hq by (apply not_elem_of_dom, rb_bh_alloc_spec).
  apply wp_bind, wp_find_channel; [by eapply served_net|done|]. intros chptr Hc. apply wp_bind, wp_gets.
  apply wp_bind, (wp_conseq _ (fun ts w' => w' = w ∧ 0 ≤ ts < 10 ^ 18)).
  { destruct chptr as [chptr|]; [|apply wp_ret; split; [done|lia]]. destruct Hc as (ch & Ech & _).
    apply wp_bind. eapply wp_rd; [exact Ech|]. apply wp_ret. split; [done|]. by eapply (se_ts _ _ S). }
  intros ts ? [-> Hts].
  set (r0 := zero_chan_reg <| cr_name := name |> <| cr_tsinfo := ts |> <| cr_reg_time := rb_time w |> <| cr_last_time := rb_time w |>
        <| cr_cmode ::= fun m => m <| cm_mode := Z.lor MODE_TOPIC MODE_NOEXTERNAL |> |>).
  apply wp_bind, wp_upd_cs. intros w1 D1. unfold add_channel_reg.
  assert (chan_regs (cs w1) !! q = Some r0) as E1 by (rewrite (did_cs _ _ _ _ D1); simpl; by rewrite lookup_insert_eq).
  apply wp_bind, wp_bind. eapply wp_chan_reg_at; [exact E1|]. apply wp_bind. eapply wp_upd_chan_reg; [exact E1|]. intros w2 D2.
  apply wp_upd_cs. intros w3 D3.
  set (r := r0 <| cr_bants := 1 |>).
  assert (cs w3 = enter_channel q r (cs w)) as E3.
  { rewrite (did_cs _ _ _ _ D3), (did_cs _ _ _ _ D2), (did_cs _ _ _ _ D1). unfold enter_channel. destruct (cs w). cbn.
    f_equal. apply map_eq. intros x.
    destruct (decide (q = x)) as [<-|]; [by rewrite lookup_alter_eq, !lookup_insert_eq|by rewrite lookup_alter_ne, !lookup_insert_ne]. }
  pose proof (did_then _ _ _ _ _ _ (did_then _ _ _ _ _ _ D1 D2) D3) as D.
  rewrite <- (did_cs _ _ _ _ D3), E3 in D.
  assert (tidy r) as Ht by (unfold r, r0; split_and!; simpl; try done; constructor).
  assert (path p w0 l w3) as P3.
  { rewrite <- (app_nil_r l). eapply path_step; [exact P|exact D| |done..].
    apply regs_found; [apply S|done|done|done|exact Hf]. }
  apply wp_bind, wp_db_exec; [cbn; split_and!; try done; lia|]. intros w4 D4. apply wp_ret.
  eapply (HQ q w4 ts (s_found name ts (rb_time w))).
  - eapply path_same; [exact P3|exact D4|done].
  - rewrite (did_cs _ _ _ _ D4). change [s_found name ts (rb_time w)] with ([] ++ [s_found name ts (rb_time w)]).
    eapply did_trans; [exact D|exact D4].
  - done.
  - unfold registry_at. simpl. by rewrite lookup_fmap, Hq.
  - unfold registry_at, registry_of. rewrite (did_cs _ _ _ _ D4), E3. simpl. f_equal. by rewrite fmap_insert.
  - exists r. rewrite (did_cs _ _ _ _ D4), E3. simpl. by rewrite lookup_insert_eq.
  - lia.
Qed.
End registering.

(** ** REGISTER and CHANREGISTER *)
Section register.
Context `{SYS : Sys} `{RB : !RbSpec} `{HK : !HooksOk} `{CS : !ChanServ}.

(** Counters of the service, and hosts. *)
Lemma along_quiet p w0 l w w' c : path p w0 l w → did [] c w w' → same_access (cs w) c → along p w0 l w w' [].
Proof. intros P D Hs. split; [by eapply path_same|apply D|constructor|by rewrite (did_cs _ _ _ _ D)]. Qed.

Lemma wp_opped_on w p chan (Q : option ptr → world → Prop) :
  served w p → no_nul chan = true → (∀ r, (∀ q, r = Some q → is_Some (channels w !! q)) → Q r w) → wp (opped_on p chan) Q w.
Proof.
  intros S Hn HQ. pose proof (served_net w p S) as Hi. destruct (served_user w p S) as (c & u & Ec & Eu). unfold opped_on.
  apply wp_bind, wp_find_channel; [apply Hi|done|]. intros [q|] Hq; [|by apply wp_ret, HQ]. destruct Hq as (ch & Ech & _).
  apply wp_bind. eapply wp_find_chmember; [apply Hi|done..|]. intros [m|] Hm; [|by apply wp_ret, HQ]. destruct Hm as (mb & Em & _).
  apply wp_bind. eapply wp_rd; [exact Em|]. apply wp_ret, HQ. intros q'. destruct (is_opped mb); [|done]. intros [= <-]. by exists ch.
Qed.

Lemma path_register_limited p w0 l w (Q : bool → world → Prop) :
  path p w0 l w → (∀ b w', along p w0 l w w' [] → Q b w') → wp register_limited Q w.
Proof.
  intros P HQ. unfold register_limited. apply wp_bind, (wp_gets (fun s => s)). cbn zeta.
  destruct (_ && _); [|by apply wp_ret, HQ, along_refl].
  destruct (_ <? _); [|destruct (_ <=? _); [by apply wp_ret, HQ, along_refl|]];
    apply wp_bind, wp_upd_cs; intros w' D; apply wp_ret, HQ; by eapply along_quiet.
Qed.

Lemma wp_hosts f (Q : unit → world → Prop) w :
  (∀ x, same_net x (f x)) → (∀ x, mods (f x) = mods x) → (hosts_ok w → hosts_ok (f w)) →
  (did [] (cs w) w (f w) → Q tt (f w)) → wp (modify f) Q w.
Proof.
  intros Hs Hm Hh HQ. apply wp_modify, HQ. split; [done|done|..]; unfold cs; by rewrite Hm.
Qed.

Lemma wp_find_host w name (Q : ptr → world → Prop) :
  hosts_ok w → (∀ q w', did [] (cs w) w w' → is_Some (hosts w' !! q) → Q q w') → wp (find_host name) Q w.
Proof.
  intros Hh HQ. unfold find_host. apply wp_bind, wp_gets.
  destruct (find_first_heap hosts (fun h => irccmp (he_name h) name =? 0) (host_is name)
    (bucket (host_table w) (hash_host name)) w) as (r & Er & Hf).
  - intros p h E. unfold host_is, rd. erewrite bind_ok; [|erewrite bind_ok by done; by rewrite E]. done.
  - intros p Hp. by eapply Hh.
  - apply wp_bind. apply (wp_ok _ _ _ _ _ Er). destruct r as [q|].
    + apply wp_ret, HQ; [apply did_nothing|]. destruct Hf as (Hq & _). by eapply Hh.
    + apply wp_bind, wp_gets. set (q := rb_bh_alloc (dom (hosts w))). apply wp_bind, wp_hosts; [by intros; split|done| |].
      * intros _ h p. simpl. rewrite bucket_upd. intros Hp. apply lookup_insert_is_Some. destruct (decide (q = p)) as [|Hne]; [by left|].
        right. split; [done|]. case_decide; [|by eapply Hh]. rewrite rb_dlinkAdd_spec in Hp. set_solver.
      * intros D. apply wp_ret, HQ; [exact D|]. simpl. rewrite lookup_insert_eq. by eexists.
Qed.

Lemma wp_upd_host w q f (Q : unit → world → Prop) :
  is_Some (hosts w !! q) → (∀ w', did [] (cs w) w w' → is_Some (hosts w' !! q) → Q tt w') → wp (upd_host q f) Q w.
Proof.
  intros [h Eh] HQ. unfold upd_host. apply wp_bind. eapply wp_rd; [exact Eh|]. apply wp_hosts; [by intros; split|done| |].
  - intros Hh k x Hx. simpl. apply lookup_alter_is_Some. by eapply Hh.
  - intros D. apply HQ; [exact D|]. simpl. apply lookup_alter_is_Some. by exists h.
Qed.

Lemma path_host_limited p w0 l w (Q : bool → world → Prop) :
  path p w0 l w → (∀ b w', along p w0 l w w' [] → Q b w') → wp (host_limited p) Q w.
Proof.
  intros P HQ. pose proof (pa_served _ _ _ _ P) as S. unfold host_limited. apply wp_bind, wp_gets. cbn zeta.
  destruct (_ && _); [|by apply wp_ret, HQ, along_refl].
  destruct (served_user w p S) as (c & u & Ec & Eu). apply wp_bind. eapply wp_user_of; [done..|].
  assert (∀ w1 w2, along p w0 l w w1 [] → did [] (cs w1) w1 w2 → along p w0 l w w2 []) as Hal.
  { intros w1 w2 A D. eapply (along_trans _ _ _ _ _ _ [] []); [exact A|]. by eapply along_quiet; [apply A|exact D|]. }
  apply wp_bind, wp_find_host; [apply S|]. intros q w1 D1 Hq1. pose proof (Hal w w1 (along_refl _ _ _ _ P) D1) as A1.
  pose proof Hq1 as [h Eh]. apply wp_bind. eapply wp_rd; [exact Eh|]. apply wp_bind, wp_gets.
  destruct (_ && _); [by apply wp_ret, HQ|].
  apply wp_bind, (wp_conseq _ (fun _ w2 => along p w0 l w w2 [] ∧ is_Some (hosts w2 !! q))).
  { apply wp_when; [|done]. intros _. apply wp_upd_host; [done|]. intros w2 D2 Hq2. split; [by eapply Hal|done]. }
  intros _ w2 [A2 [h2 Eh2]]. apply wp_bind. eapply wp_rd; [exact Eh2|]. apply wp_bind, wp_upd_host; [by exists h2|].
  intros w3 D3 _. apply wp_ret, HQ. by eapply Hal.
Qed.
End register.

Section registered.
Context `{SYS : Sys} `{RB : !RbSpec} `{HK : !HooksOk} `{CS : !ChanServ}.

(** The first access of a new registration, of a channel that has none. *)
Lemma path_new_owner p w0 l w u ch g r by_name (Q : unit → world → Prop) :
  path p w0 l w → user_regs w !! u = Some g → chan_regs (cs w) !! ch = Some r →
  list_of (registry_at w) !! (ch, u) = None → (strlen by_name < 1024)%nat →
  (∀ w', let s := s_insert (cr_name r) (ur_name g) by_name S_C_OWNER 0 in
     path p w0 (l ++ [s]) w' → did [s] (cs w') w w' →
     (∃ r', chan_regs (cs w') !! ch = Some r' ∧ cr_name r' = cr_name r) →
     registry_at w' = Registry (names (registry_at w)) (<[(ch, u) := Row S_C_OWNER 0 0 by_name]> (list_of (registry_at w))) →
     Q tt w') →
  wp (new_owner u ch by_name) Q w.
Proof.
  intros P Eg Er Hno Hb HQ.
  assert (wp (q ← make_member_reg u ch by_name 200 0; _ ← write_member_db_entry q; (λ _, mret 0) q) (λ _ w', Q tt w') w) as Hw.
  { eapply path_add; [done..|]. intros q w' s P' D' Hr' ER. by apply wp_ret, HQ. }
  apply wp_bind, (wp_conseq _ _ _ _ (wp_unbind _ _ _ _ Hw)). cbn beta. intros q w' Hq.
  apply (wp_conseq _ _ _ _ (wp_unbind _ _ _ _ Hq)). cbn beta. intros [] w'' Hk. exact (proj1 (wp_ok _ _ _ _ _ eq_refl) Hk).
Qed.

(** [name] has just been registered at [q]. *)
Record found (p : ptr) (w w2 : world) (name : string) (q : ptr) : Prop := Found {
  fo_path : ∃ w1 l1 s, along p w [] w w1 l1 ∧ path p w (l1 ++ [s]) w2 ∧ same_net w1 w2 ∧ silent s ∧ creg_spec name w1 None ∧
    names (registry_at w1) !! q = None ∧
    registry_at w2 = Registry (<[q := name]> (names (registry_at w1))) (list_of (registry_at w1));
  fo_reg : ∃ r, chan_regs (cs w2) !! q = Some r ∧ cr_name r = name
}.

Lemma path_found p w w1 l1 name (Q : ptr → world → Prop) :
  along p w [] w w1 l1 → no_nul name = true → (strlen name < BUFSIZE)%nat → creg_spec name w1 None →
  (∀ q w2, served w2 p → same_net w1 w2 → found p w w2 name q → Q q w2) → wp (init_channel_reg name) Q w1.
Proof.
  intros A Hn Hl Hf HQ. pose proof (al_path _ _ _ _ _ _ A) as P. unfold BUFSIZE in Hl.
  eapply path_init; [exact P|done|lia|done|]. intros q w2 ts s P2 D2 Hs Hq ER2 Hr _.
  apply HQ; [apply P2|apply D2|]. split; [|done]. exists w1, l1, s. split_and!; try done. apply D2.
Qed.

(** It gets an owner, which completes the registration. *)
Lemma path_first_owner p w w2 name q u g by_name (Q : unit → world → Prop) cmd :
  cmd = CHANREGISTER ∨ cmd = REGISTER ∧ login_of w p = Some u →
  found p w w2 name q → served w2 p → user_regs w2 !! u = Some g → (strlen by_name < 1024)%nat →
  (∀ w3 l, path p w l w3 → same_net w2 w3 → (∀ w4, path p w l w4 → did [] (cs w3) w3 w4 → acted cmd p name w w4) →
     (∃ r, chan_regs (cs w3) !! q = Some r ∧ cr_name r = name) → Q tt w3) →
  wp (new_owner u q by_name) Q w2.
Proof.
  intros Hcmd [(w1 & l1 & s & A & P2 & N2 & Hs & Hf & Hq & ER2) (r2 & Er2 & Hn2)] S2 Eg Hb HQ.
  pose proof (al_path _ _ _ _ _ _ A) as P. pose proof (se_regs _ _ (pa_served _ _ _ _ P)) as Hr.
  assert (∀ v, list_of (registry_at w1) !! (q, v) = None) as Hno.
  { intros v. apply (acl_none (member_regs (cs w1))); [by eapply regs_distinct|]. intros m mr Em [= Ec _].
    destruct (ro_member _ _ Hr m mr Em) as ([r Er] & _). rewrite Ec in Er. apply registry_name in Er. congruence. }
  eapply path_new_owner; [exact P2|exact Eg|exact Er2|rewrite ER2; apply Hno|done|].
  intros w3 s3 P3 D3 (r3 & Er3 & Hn3) ER3. apply (HQ w3 _ P3); [apply D3| |exists r3; by rewrite Hn3].
  intros w4 P4 D4. eapply acted_edit; [exact A|exact P4| |].
  - rewrite (sn_user_regs _ _ (did_net _ _ _ _ D4)), (sn_user_regs _ _ (did_net _ _ _ _ D3)), (sn_user_regs _ _ N2).
    apply (sn_user_regs _ _ (al_net _ _ _ _ _ _ A)).
  - exists [s3]. split.
    + rewrite <- app_assoc. change [s3] with ([] ++ [s3]) at 1. apply among_app; [apply among_silent, A|].
      apply among_skip; [done|]. apply among_refl.
    + unfold registry_at in *. rewrite (did_cs _ _ _ _ D4), ER3, ER2. unfold s3. rewrite Hn2. rewrite (sn_user_regs _ _ N2) in Eg.
      cbn [ChanAcl.names list_of]. eapply acts_register; [exact Hq| |exact Hno|exact (user_name _ _ _ Eg)
        |by rewrite (login_same _ _ _ (al_net _ _ _ _ _ _ A))].
      intros ch' cn. simpl. rewrite lookup_fmap. intros (x & Ex & ->)%fmap_Some. by eapply Hf.
Qed.

Lemma untouched_acted p w chan c w' cmd : untouched p w c w' → c = 0 ∧ acted cmd p chan w w'.
Proof. intros [-> [l A]]. split; [done|by eapply acted_along]. Qed.

Lemma chanregister_acts p w parv chan name :
  served w p → line_ok parv → parv !! 0%nat = Some chan → parv !! 1%nat = Some name →
  wp (o_chan_chanregister p parv) (fun c w' => c = 0 ∧ acted CHANREGISTER p chan w w') w.
Proof.
  intros S Hp E0 E1. destruct (line_arg _ _ _ Hp E0) as [H0 L0]. destruct (line_arg _ _ _ Hp E1) as [H1 _].
  pose proof (along_refl _ _ _ _ (path_start w p S)) as A.
  assert (∀ w1 l1 msg args, along p w [] w w1 l1 → wp (_ ← chan_err p msg args; mret 0) (fun c w' => c = 0 ∧ acted CHANREGISTER p chan w w') w1) as Hreply.
  { intros w1 l1 msg args A1. eapply wp_conseq; [by eapply path_free_reply|]. intros c w'. apply untouched_acted. }
  apply wp_bind. eapply wp_arg_at; [done|]. apply wp_bind, wp_find_channel_reg; [apply S|done|].
  intros [q|] Hf; [by eapply Hreply|]. apply wp_bind. eapply wp_arg_at; [done|].
  apply wp_bind. eapply wp_find_user_reg_nick; [exact S|done|]. intros [u|] Hu; [|by eapply Hreply].
  destruct (Hu u eq_refl) as [g Eg]. apply wp_bind. eapply wp_ureg_name; [exact Eg|].
  apply wp_bind. eapply path_log; [apply A|]. intros w1 P1 D1. pose proof (along_reply _ _ _ _ w w1 [] A P1 D1) as A1.
  apply wp_bind. eapply path_found; [exact A1|done|done|unfold creg_spec; by rewrite (did_cs _ _ _ _ D1)|]. intros q w2 S2 N2 F2.
  destruct (served_user w2 p S2) as (c & us & Ecl & Eu). apply wp_bind. eapply wp_user_of; [done..|].
  apply wp_bind. eapply wp_oper_line; [done|apply S2|done..|]. intros on Hon.
  apply wp_bind. eapply (path_first_owner p w w2 chan q u g); [by left|exact F2|done| |done|].
  { by rewrite (sn_user_regs _ _ N2), (sn_user_regs _ _ (did_net _ _ _ _ D1)). }
  intros w3 l3 P3 N3 Hact (r & Er & Hn). apply wp_bind. eapply wp_chan_reg_at; [exact Er|].
  apply wp_bind. eapply path_err; [exact P3|]. intros w4 P4 D4. apply wp_ret. split; [done|by apply Hact].
Qed.

Lemma register_acts p w parv chan :
  served w p → is_Some (login_of w p) → line_ok parv → parv !! 0%nat = Some chan →
  wp (s_chan_register p parv) (fun c w' => (c = 1 ∨ c = 5) ∧ acted REGISTER p chan w w') w.
Proof.
  intros S [u Hu] Hp E0. destruct (line_arg _ _ _ Hp E0) as [H0 L0].
  pose proof (along_refl _ _ _ _ (path_start w p S)) as A.
  apply wp_bind. eapply wp_arg_at; [done|]. apply wp_bind, wp_gets. apply wp_bind.
  destruct (ready_service _ _ _ (se_ready _ _ S)) as (svc & sv & Esvc & _). eapply wp_rd; [exact Esvc|]. cbn zeta.
  assert (∀ w1 l1 msg args, along p w [] w w1 l1 →
    wp (_ ← chan_err p msg args; mret 1) (fun c w' => (c = 1 ∨ c = 5) ∧ acted REGISTER p chan w w') w1) as Hreply.
  { intros w1 l1 msg args A1. eapply (path_reply p w [] w1 l1 chan); [done|done|]. intros w' Hw'. split; [by left|done]. }
  destruct (cf_disable_cregister _); [by eapply Hreply|].
  apply wp_bind, wp_find_channel_reg; [apply S|done|]. intros [q|] Hf; [by eapply Hreply|].
  apply wp_bind, wp_opped_on; [done..|]. intros [q|] Hq; [|by eapply Hreply]. destruct (Hq q eq_refl) as [ch Ech].
  apply wp_bind. eapply wp_rd; [exact Ech|]. apply wp_bind, wp_gets. destruct (_ && _); [by eapply Hreply|].
  apply wp_bind. eapply path_register_limited; [apply A|]. intros b1 w1 A1. destruct b1; [by eapply Hreply|].
  apply wp_bind. eapply path_host_limited; [apply A1|]. intros b2 w2 A2. cbn [app] in A2.
  apply (along_trans _ _ _ _ _ _ [] [] A1) in A2. clear A1 A w1. cbn [app] in A2. destruct b2; [by eapply Hreply|].
  apply wp_bind. eapply path_log; [apply A2|]. intros w3 P3 D3. pose proof (along_reply _ _ _ _ _ _ _ A2 P3 D3) as A3.
  apply wp_bind. eapply path_found; [exact A3|done|done|..].
  { unfold creg_spec. intros x gx Ex. destruct (same_access_back _ _ x gx (al_same _ _ _ _ _ _ A3) Ex) as (gx' & Ex' & [= -> _ _]). by eapply Hf. }
  intros cq w4 S4 N4 F4. pose proof (al_net _ _ _ _ _ _ A3) as N3. assert (same_net w w4) as N by (by etrans).
  destruct (served_user w4 p S4) as (c & us & Ecl & Eus). apply wp_bind. eapply wp_user_of; [done..|].
  pose proof Hu as Hlogin. rewrite <- (login_same w w4 p N) in Hu. rewrite (login_of_user _ _ _ _ Ecl Eus) in Hu. apply wp_bind. eapply wp_need; [exact Hu|].
  destruct (user_registration _ _ _ _ _ _ (se_ready _ _ S4) Ecl Eus Hu) as [g Eg].
  apply wp_bind. eapply wp_ureg_name; [exact Eg|].
  apply wp_bind. eapply (path_first_owner p w w4 chan cq u g); [by right|exact F4|done|done|by apply (ro_names _ _ (se_regs _ _ S4) _ _ Eg)|].
  intros w5 l5 P5 N5 Hact _. assert (same_net w w5) as N05 by (by etrans). rewrite <- (sn_channels _ _ N05) in Ech.
  apply wp_bind. eapply wp_rd; [exact Ech|]. apply wp_bind. eapply path_err; [exact P5|]. intros w6 P6 D6.
  apply wp_bind. apply wp_told.
  - unfold service_err_channot. apply wp_bind, (wp_gets (fun s => s)). apply wp_bind. eapply wp_rd.
    { rewrite (sn_channels _ _ (did_net _ _ _ _ D6)). exact Ech. }
    apply quiet_sendto_server.
  - unfold service_err_channot. keeps_tac.
  - intros [] w7 D7. apply wp_ret. split; [by right|]. apply Hact.
    + rewrite <- (app_nil_r l5). by eapply path_same.
    + rewrite (did_cs _ _ _ _ D6) in D7. eapply did_then; [exact D6|exact D7].
Qed.
End registered.

(** ** Registrations that go *)

Lemma regs_drop `{RbSpec} regs c c' ch r :
  regs_ok regs c → chan_regs c !! ch = Some r → cr_users r = [] →
  member_regs c' = member_regs c → ureg_channels c' = ureg_channels c → user_reg_table c' = user_reg_table c →
  chan_reg_table c' = upd_bucket (hash_channel (cr_name r)) (rb_dlinkDelete ch) (chan_reg_table c) →
  chan_regs c' = delete ch (chan_regs c) → regs_ok regs c'.
Proof.
  intros [T Y U L K M V O R N D] Er Hu E1 E2 E3 E4 E5.
  assert (∀ P x, access c' P x ↔ access c P x) as Ha by (intros; unfold access; by rewrite E1).
  assert (∀ p g, chan_regs c' !! p = Some g ↔ p ≠ ch ∧ chan_regs c !! p = Some g) as Hc.
  { intros p g. rewrite E5, lookup_delete_Some. naive_solver. }
  split; rewrite ?E1, ?E2, ?E3; try done.
  - rewrite E4. eapply indexed_iff; [|apply indexed_delete; [exact T|by exists r|]].
    + intros p h. setoid_rewrite Hc. naive_solver.
    + intros h (g & E & <-). congruence.
  - intros p g [_ E]%Hc. by eapply Y.
  - intros p q g g' [_ E]%Hc [_ E']%Hc. by eapply U.
  - intros p g [_ E]%Hc. eapply lists_iff; [|by apply L]. intros x. by rewrite Ha.
  - intros u Hu'. eapply lists_iff; [|by apply K]. intros x. by rewrite Ha.
  - intros m mr E. destruct (M m mr E) as ([g Eg] & ? & ?). split; [|done]. exists g. apply Hc. split; [|done].
    intros Ec. destruct (L ch r Er) as [_ Hl]. rewrite Hu in Hl. apply (not_elem_of_nil m), Hl. by exists mr.
Qed.

Section dropping.
Context `{SYS : Sys} `{RB : !RbSpec} `{HK : !HooksOk} `{CS : !ChanServ} `{EH : !EndHooks}.

(** From [w0] to [w] in any steps that a command takes: [path] without what it says
    of the network. *)
Record trail (p : ptr) (w0 : world) (l : list statement) (w : world) : Prop := Trail {
  tr_served : served w p;
  tr_regs : user_regs w = user_regs w0;
  tr_config : config_file w = config_file w0;
  tr_login : login_of w p = login_of w0 p;
  tr_db : executed l (db_get (mods w0)) (db_get (mods w))
}.

Lemma path_trail p w0 l w : path p w0 l w → trail p w0 l w.
Proof. intros [D S]. pose proof (did_net _ _ _ _ D) as N. split; [done|apply N|apply N|by apply login_same|apply D]. Qed.

Lemma trail_trans p w0 l1 w l2 w' : trail p w0 l1 w → trail p w l2 w' → trail p w0 (l1 ++ l2) w'.
Proof. intros [S1 R1 C1 L1 D1] [S2 R2 C2 L2 D2]. split; [done|congruence..|by eapply executed_app]. Qed.

Lemma onward_trail p l w w' : served w p → onward l w w' → trail p w l w'.
Proof. intros S O. split; [by eapply served_onward|apply O..]. Qed.

(** What a command did on such a way. *)
Lemma acted_trail p chan w w1 l1 w' l cmd :
  along p w [] w w1 l1 → trail p w l w' →
  (∃ l2, among l2 l ∧ acts (users_of w1) (cf_name (config_file w1)) chan (login_of w1 p) (registry_at w1) cmd l2 (registry_at w')) →
  acted cmd p chan w w'.
Proof.
  intros [P N S A] [S' R C L D] (l2 & Hl & Ha). split; [done..|]. exists l, l2. split; [done|]. split; [done|].
  unfold users_of, registry_at in *. rewrite (login_same _ _ _ N), (same_registry _ _ A), (sn_user_regs _ _ N), (sn_config _ _ N) in Ha.
  exact Ha.
Qed.

(** The same data of the service, but for the heap of bans and one registration. *)
Record one_reg (c : chanserv) (ch : ptr) (r : chan_reg) (c' : chanserv) : Prop := OneReg {
  or_regs : chan_regs c' = <[ch := r]> (chan_regs c);
  or_members : member_regs c' = member_regs c;
  or_channels : ureg_channels c' = ureg_channels c;
  or_table : chan_reg_table c' = chan_reg_table c;
  or_uregs : user_reg_table c' = user_reg_table c;
  or_chanserv : chanserv_p c' = chanserv_p c;
  or_userserv : userserv_p c' = userserv_p c
}.

Lemma wp_free_bans ch r w (Q : unit → world → Prop) :
  chan_regs (cs w) !! ch = Some r → NoDup (cr_bans r) →
  (∀ w' c', did [] c' w w' → one_reg (cs w) ch (r <| cr_bans := [] |>) c' → Q tt w') →
  wp (foreach_safe (bans_of_creg ch) (free_ban_reg ch)) Q w.
Proof.
  intros Er Hnd HQ.
  set (I := fun (todo : list ptr) (w' : world) => ∃ c', did [] c' w w' ∧ one_reg (cs w) ch (r <| cr_bans := todo |>) c').
  assert (∀ l w', I l w' → chan_regs (cs w') !! ch = Some (r <| cr_bans := l |>)) as HI.
  { intros l w' (c' & D & O). rewrite (did_cs _ _ _ _ D), (or_regs _ _ _ _ O). apply lookup_insert_eq. }
  assert (bans_of_creg ch w = cr_bans r) as Eb by (unfold bans_of_creg; by rewrite Er).
  apply (wp_foreach_safe_drain _ _ I); rewrite ?Eb; [done| | |].
  - exists (cs w). split; [apply did_nothing|]. split; try done. symmetry. apply insert_id. rewrite Er. by destruct r.
  - intros x l w' Ex Hx Hl. pose proof (HI _ _ Hl) as Er'. destruct Hl as (c' & D & O). unfold free_ban_reg.
    apply wp_bind. eapply wp_upd_chan_reg; [exact Er'|]. intros w1 D1. apply wp_upd_cs. intros w2 D2.
    assert (I l w2) as Hl2.
    { eexists. split; [eapply did_then; [eapply did_then; [exact D|exact D1]|exact D2]|].
      rewrite (did_cs _ _ _ _ D1), (did_cs _ _ _ _ D). destruct O. split; try done. simpl. rewrite or_regs0.
      apply map_eq. intros y. destruct (decide (ch = y)) as [<-|]; [|by rewrite lookup_alter_ne, !lookup_insert_ne].
      rewrite lookup_alter_eq, !lookup_insert_eq. simpl. do 2 f_equal.
      rewrite rb_dlinkDelete_spec by (by left). cbn. by rewrite decide_True. }
    split; [|done]. unfold bans_of_creg. by rewrite (HI _ _ Hl2).
  - intros w' _ (c' & D & O). by eapply HQ.
Qed.

Lemma path_trail_from p w l w1 l' w' : served w p → onward l w w1 → path p w1 l' w' → trail p w (l ++ l') w'.
Proof. intros S O P. eapply trail_trans; [by apply onward_trail|by apply path_trail]. Qed.

Lemma did_silent s c w w1 w2 : did [] c w w1 → did [s] c w1 w2 → did [s] c w w2.
Proof. intros D1 D2. by apply (did_trans [] [s] c c w w1 w2). Qed.

(** A registration without users goes, with its bans, and the service leaves. *)
Lemma wp_free_channel_reg p w ch r (Q : unit → world → Prop) :
  served w p → chan_regs (cs w) !! ch = Some r → cr_users r = [] →
  (∀ w' l, Forall silent l → trail p w l w' → chan_regs (cs w') = delete ch (chan_regs (cs w)) →
     member_regs (cs w') = member_regs (cs w) → Q tt w') →
  wp (free_channel_reg ch) Q w.
Proof.
  intros S Er Hu HQ. destruct (ro_tidy _ _ (se_regs _ _ S) _ _ Er) as (Hn & Hl & _ & Hb).
  unfold free_channel_reg. apply wp_bind. eapply wp_chan_reg_at; [done|]. apply wp_bind, wp_gets. cbn zeta.
  apply wp_bind. eapply wp_conseq; [by apply (wp_part_service w p)|]. cbn beta. intros _ w1 (l1 & Hs1 & O1).
  pose proof (served_onward _ _ _ p S O1) as S1. pose proof (path_start w1 p S1) as P1.
  apply wp_bind, wp_db_exec; [by cbn|]. intros w2 D2. pose proof (path_same _ _ _ _ _ _ _ P1 D2 ltac:(done)) as P2.
  apply wp_bind, wp_db_exec; [by cbn|]. intros w3 D3. pose proof (path_same _ _ _ _ _ _ _ P2 D3 ltac:(done)) as P3.
  assert (cs w3 = cs w) as E3 by (rewrite (did_cs _ _ _ _ D3), (did_cs _ _ _ _ D2); apply O1).
  apply wp_bind. eapply (wp_free_bans ch r); [by rewrite E3|done|]. intros w4 c4 D4 O4.
  apply wp_bind, wp_upd_cs. intros w5 D5. apply wp_bind, wp_db_exec; [by cbn|]. intros w6 D6. apply wp_upd_cs. intros w7 D7.
  rewrite (did_cs _ _ _ _ D4) in D5. rewrite (did_cs _ _ _ _ D5) in D6. rewrite (did_cs _ _ _ _ D6) in D7.
  pose proof (did_then _ _ _ _ _ _ (did_silent _ _ _ _ _ (did_then _ _ _ _ _ _ D4 D5) D6) D7) as D.
  match type of D with did _ ?c _ _ => set (c7 := c) in * end. destruct O4 as [F1 F2 F3 F4 F5 F6 F7]. rewrite E3 in F1, F2, F3, F4, F5.
  assert (chan_regs c7 = delete ch (chan_regs (cs w))) as Ec by (simpl; rewrite F1; apply delete_insert_eq).
  pose proof (se_regs _ _ S) as Hr.
  assert (user_regs w3 = user_regs w) as Eur.
  { rewrite (sn_user_regs _ _ (did_net _ _ _ _ D3)), (sn_user_regs _ _ (did_net _ _ _ _ D2)). apply O1. }
  eassert (path p w1 _ w7) as P7.
  { eapply (path_step p w1 _ w3); [exact P3|exact D| |done..]. rewrite Eur. eapply (regs_drop _ (cs w)); [done|done|done|exact F2|exact F3|exact F5|simpl; by rewrite F4|exact Ec]. }
  eapply HQ; [|eapply path_trail_from; [exact S|exact O1|exact P7]|..].
  - apply Forall_app. split; [done|]. repeat constructor; done.
  - by rewrite (did_cs _ _ _ _ D7).
  - rewrite (did_cs _ _ _ _ D7). simpl. by rewrite F2.
Qed.
End dropping.

(** ** Who follows the owner *)
Section top.
Context `{SYS : Sys} `{CS : !ChanServ}.

(** The highest of those accesses of a list that have a property. *)
Definition highest (c : chanserv) (P : member_reg → Prop) (l : list ptr) (t : option ptr) : Prop :=
  match t with
  | None => ∀ m mr, m ∈ l → member_regs c !! m = Some mr → ¬ P mr
  | Some q => ∃ qr, q ∈ l ∧ member_regs c !! q = Some qr ∧ P qr ∧
      ∀ m mr, m ∈ l → member_regs c !! m = Some mr → P mr → mr_level mr ≤ mr_level qr
  end.

Lemma highest_skip c P l t m mr : member_regs c !! m = Some mr → ¬ P mr → highest c P l t → highest c P (l ++ [m]) t.
Proof.
  intros Em Hm. destruct t as [q|]; simpl.
  - intros (qr & Hq & Eq & Pq & Hl). exists qr. split; [set_solver|]. split; [done|]. split; [done|].
    intros x xr [Hx| ->%list_elem_of_singleton]%elem_of_app Ex Px; [by eapply Hl|]. by simplify_eq.
  - intros Hl x xr [Hx| ->%list_elem_of_singleton]%elem_of_app Ex; [by eapply Hl|]. by simplify_eq.
Qed.

Definition level_above (m : member_reg) (q : option ptr) : M world bool :=
  match q with
  | None => mret true
  | Some q => mq ← member_reg_at q; mret (mr_level mq <? mr_level m)
  end.

Lemma wp_level_above P l t m mr w (Q : bool → world → Prop) :
  member_regs (cs w) !! m = Some mr → P mr → highest (cs w) P l t →
  (∀ b : bool, highest (cs w) P (l ++ [m]) (if b then Some m else t) → Q b w) → wp (level_above mr t) Q w.
Proof.
  intros Em Hm Ht HQ. unfold level_above. destruct t as [q|].
  - destruct Ht as (qr & Hq & Eq & Pq & Hl). apply wp_bind. eapply wp_member_reg_at; [exact Eq|]. apply wp_ret, HQ.
    destruct (mr_level qr <? mr_level mr) eqn:Eb; simpl.
    + apply Z.ltb_lt in Eb. exists mr. split; [set_solver|]. split; [done|]. split; [done|].
      intros x xr [Hx| ->%list_elem_of_singleton]%elem_of_app Ex Px; [specialize (Hl x xr Hx Ex Px); lia|]. by simplify_eq.
    + apply Z.ltb_ge in Eb. exists qr. split; [set_solver|]. split; [done|]. split; [done|].
      intros x xr [Hx| ->%list_elem_of_singleton]%elem_of_app Ex Px; [by eapply Hl|]. by simplify_eq.
  - apply wp_ret, HQ. simpl. exists mr. split; [set_solver|]. split; [done|]. split; [done|].
    intros x xr [Hx| ->%list_elem_of_singleton]%elem_of_app Ex Px; [by destruct (Ht x xr Hx Ex)|]. by simplify_eq.
Qed.

Definition active (m : member_reg) : Prop := mr_suspend m = 0.
Definition suspended (m : member_reg) : Prop := mr_suspend m ≠ 0.

Lemma wp_find_top w l : ∀ pre top topsus (Q : option ptr * option ptr → world → Prop),
  Forall (fun m => is_Some (member_regs (cs w) !! m)) l →
  highest (cs w) active pre top → highest (cs w) suspended pre topsus →
  (∀ t ts, highest (cs w) active (pre ++ l) t → highest (cs w) suspended (pre ++ l) ts → Q (t, ts) w) →
  wp (find_top l top topsus) Q w.
Proof.
  induction l as [|m l IH]; intros pre top topsus Q Hl H1 H2 HQ.
  { rewrite app_nil_r in HQ. by apply wp_ret, HQ. }
  apply Forall_cons in Hl as [[mr Em] Hl]. cbn [find_top]. apply wp_bind. eapply wp_member_reg_at; [exact Em|].
  change (m :: l) with ([m] ++ l) in HQ. rewrite app_assoc in HQ.
  destruct (negb (mr_suspend mr =? 0)) eqn:Es.
  - apply negb_true_iff, Z.eqb_neq in Es. apply wp_bind, (wp_level_above suspended pre topsus m mr); [done..|]. intros b Hb.
    apply (IH (pre ++ [m])); [done|by eapply highest_skip; [|intros ?|]|done|done].
  - apply negb_false_iff, Z.eqb_eq in Es. apply wp_bind, (wp_level_above active pre top m mr); [done..|]. intros b Hb.
    apply (IH (pre ++ [m])); [done|done|by eapply highest_skip; [|intros ?|]|done].
Qed.
End top.

Section owner.
Context `{SYS : Sys} `{RB : !RbSpec} `{HK : !HooksOk} `{CS : !ChanServ}.

(** The same in the registry. *)
Lemma highest_row (P : Z → Prop) w ch r t :
  regs_ok (user_regs w) (cs w) → chan_regs (cs w) !! ch = Some r → highest (cs w) (fun m => P (mr_suspend m)) (cr_users r) t →
  match t with
  | None => ∀ v e, list_of (registry_at w) !! (ch, v) = Some e → ¬ P (rw_suspend e)
  | Some q => ∃ qr, member_regs (cs w) !! q = Some qr ∧ mr_channel_reg qr = ch ∧ P (mr_suspend qr) ∧
      ∀ v e, list_of (registry_at w) !! (ch, v) = Some e → P (rw_suspend e) → rw_level e ≤ mr_level qr
  end.
Proof.
  intros Hr Er Ht.
  assert (∀ v e, list_of (registry_at w) !! (ch, v) = Some e → ∃ m mr, m ∈ cr_users r ∧ member_regs (cs w) !! m = Some mr ∧ row_of mr = e) as Hrow.
  { intros v e (m & mr & Em & [= Ec _] & Erow)%acl_lookup; [|by eapply regs_distinct]. exists m, mr. split; [|done].
    subst ch. by eapply user_listed. }
  destruct t as [q|]; simpl in Ht.
  - destruct Ht as (qr & Hq & Eq & Pq & Hl). exists qr. split; [done|]. destruct (ro_users _ _ Hr _ _ Er) as [_ Hu].
    split; [apply Hu in Hq as (x & Ex & Hx); unfold to_chan in Hx; congruence|]. split; [done|].
    intros v e (m & mr & Hm & Em & <-)%Hrow. exact (Hl m mr Hm Em).
  - intros v e (m & mr & Hm & Em & <-)%Hrow. exact (Ht m mr Hm Em).
Qed.

Lemma wp_need_bind {A B} e (x : A) (k : A → M world B) (Q : B → world → Prop) w :
  wp (k x) Q w → wp (y ← need e (Some x); k y) Q w.
Proof. intros Hk. apply wp_bind. by eapply wp_need. Qed.

(** The one found becomes the owner. *)
Lemma path_crown p w0 l w ch r q qr g (Q : unit → world → Prop) :
  let myname := cf_name (config_file w) in
  let s := s_owner S_C_OWNER myname (cr_name r) (ur_name g) in
  path p w0 l w → chan_regs (cs w) !! ch = Some r → member_regs (cs w) !! q = Some qr → mr_channel_reg qr = ch →
  user_regs w !! mr_user_reg qr = Some g → mr_suspend qr = 0 →
  (∀ w', path p w0 (l ++ [s]) w' →
     registry_at w' = Registry (names (registry_at w)) (<[(ch, mr_user_reg qr) := Row S_C_OWNER (mr_flags qr) 0 myname]> (list_of (registry_at w))) →
     Q tt w') →
  wp (_ ← upd_member_reg q (fun m => m <| mr_level := S_C_OWNER |> <| mr_lastmod := myname |>);
      mt ← member_reg_at q; name ← ureg_name (mr_user_reg mt);
      db_exec (fst s) [ArgInt (mr_level mt); ArgStr (Some myname); ArgStr (Some (cr_name r)); ArgStr (Some name)]) Q w.
Proof.
  intros myname s P Er Eq Hc Eg Hsus HQ. pose proof (pa_served _ _ _ _ P) as S. pose proof (se_regs _ _ S) as Hr.
  set (f := fun m : member_reg => m <| mr_level := S_C_OWNER |> <| mr_lastmod := myname |>).
  pose proof (ro_level _ _ Hr _ _ Eq) as (_ & Hfl & _).
  apply wp_bind. eapply wp_upd_member_reg; [exact Eq|]. intros w1 D1.
  assert (path p w0 l w1) as P1.
  { rewrite <- (app_nil_r l). eapply path_step; [exact P|exact D1| |done..].
    eapply (regs_alter_member _ _ q qr f); [done|done|done|done|done|simpl; lia|apply S]. }
  pose proof (registry_alter w w1 q qr f Hr Eq ltac:(done) (did_cs _ _ _ _ D1)) as ER.
  assert (member_regs (cs w1) !! q = Some (f qr)) as Eq1.
  { rewrite (did_cs _ _ _ _ D1). simpl. by rewrite lookup_alter_eq, Eq. }
  apply wp_bind. eapply wp_member_reg_at; [exact Eq1|]. apply wp_bind. eapply wp_ureg_name.
  { rewrite (sn_user_regs _ _ (did_net _ _ _ _ D1)). exact Eg. }
  destruct (ro_tidy _ _ Hr _ _ Er) as (_ & Hcn & _). pose proof (ro_names _ _ Hr _ _ Eg). pose proof (se_myname _ _ S).
  apply wp_db_exec; [by cbn|]. intros w2 D2. apply HQ; [by eapply path_same|].
  unfold registry_at in *. rewrite (did_cs _ _ _ _ D2), ER. f_equal. unfold pair_of, row_of. rewrite Hc. simpl. by rewrite Hsus.
Qed.

Lemma path_promote p w0 l w ch r (Q : unit → world → Prop) :
  path p w0 l w → chan_regs (cs w) !! ch = Some r → cr_users r ≠ [] →
  (∀ w' u vn e, let myname := cf_name (config_file w) in
     path p w0 (l ++ [s_owner S_C_OWNER myname (cr_name r) vn]) w' → successor (list_of (registry_at w)) ch u e → users_of w !! u = Some vn →
     registry_at w' = Registry (names (registry_at w)) (<[(ch, u) := Row S_C_OWNER (rw_flags e) 0 myname]> (list_of (registry_at w))) → Q tt w') →
  wp (promote r) Q w.
Proof.
  intros P Er Hne HQ. pose proof (pa_served _ _ _ _ P) as S. pose proof (se_regs _ _ S) as Hr.
  pose proof (ro_users _ _ Hr _ _ Er) as [_ Hu]. unfold promote. apply wp_bind, (wp_find_top w _ [] None None).
  { apply Forall_forall. intros m Hm. apply Hu in Hm as (mr & Em & _). by exists mr. }
  { intros m mr Hm. by apply elem_of_nil in Hm. }
  { intros m mr Hm. by apply elem_of_nil in Hm. }
  cbn [app]. intros t ts Ht Hts. apply (highest_row (fun z => z = 0) w ch r) in Ht; [|done..].
  apply (highest_row (fun z => z ≠ 0) w ch r) in Hts; [|done..].
  destruct t as [q|].
  - destruct Ht as (qr & Eq & Hc & Hs & Hl). destruct (ro_member _ _ Hr _ _ Eq) as (_ & [g Eg] & _).
    apply wp_bind, wp_ret, wp_need_bind, wp_bind, (wp_gets (fun s => s)). cbn zeta.
    eapply path_crown; [exact P|exact Er|exact Eq|exact Hc|exact Eg|exact Hs|]. intros w' P' ER.
    eapply (HQ w' _ _ (row_of qr)); [exact P'| |by apply user_name|exact ER]. split; [|split; [by intros _|done]].
    rewrite <- Hc. by apply (registry_list w q).
  - destruct ts as [q|].
    + destruct Hts as (qr & Eq & Hc & Hs & Hl). destruct (ro_member _ _ Hr _ _ Eq) as (_ & [g Eg] & Hlm).
      pose proof (ro_level _ _ Hr _ _ Eq) as (Hlv & Hfl & Hsu). set (f := fun m : member_reg => m <| mr_suspend := 0 |>).
      apply wp_bind, wp_bind. eapply wp_upd_member_reg; [exact Eq|]. intros w1 D1. apply wp_ret.
      assert (path p w0 l w1) as P1.
      { rewrite <- (app_nil_r l). eapply path_step; [exact P|exact D1| |done..]. by eapply (regs_alter_member _ _ q qr f). }
      pose proof (registry_alter w w1 q qr f Hr Eq ltac:(done) (did_cs _ _ _ _ D1)) as ER1.
      apply wp_need_bind, wp_bind, (wp_gets (fun s => s)). cbn zeta.
      eapply (path_crown _ _ _ w1 ch r q (f qr) g); [exact P1|..].
      * rewrite (did_cs _ _ _ _ D1). exact Er.
      * rewrite (did_cs _ _ _ _ D1). simpl. by rewrite lookup_alter_eq, Eq.
      * exact Hc.
      * rewrite (sn_user_regs _ _ (did_net _ _ _ _ D1)). exact Eg.
      * done.
      * intros w' P' ER. rewrite ER1 in ER. rewrite (sn_config _ _ (did_net _ _ _ _ D1)) in P', ER.
        eapply (HQ w' _ _ (row_of qr)); [exact P'| |by apply user_name|].
        -- split; [rewrite <- Hc; by apply (registry_list w q)|]. split; [intros E; by destruct Hs|]. intros _ v e' Ev.
           pose proof (Ht v e' Ev) as Hsv. split; [done|by eapply Hl].
        -- rewrite ER. unfold pair_of. rewrite Hc. cbn [ChanAcl.names list_of]. by rewrite insert_insert_eq.
    + destruct (cr_users r) as [|m l0] eqn:El; [done|]. destruct (Hu m) as [Hm _]. destruct Hm as (mr & Em & Hm); [by left|].
      pose proof (registry_list w m mr Hr Em) as Ev. unfold pair_of in Ev. unfold to_chan in Hm. rewrite Hm in Ev.
      destruct (Ht _ _ Ev). destruct (decide (mr_suspend mr = 0)); [done|]. by destruct (Hts _ _ Ev).
Qed.
End owner.

(** ** DELOWNER *)
Section delowner.
Context `{SYS : Sys} `{RB : !RbSpec} `{HK : !HooksOk} `{CS : !ChanServ} `{EH : !EndHooks}.

Lemma among_last l1 s l2 : Forall silent l1 → Forall silent l2 → among [s] (l1 ++ [s] ++ l2).
Proof.
  intros H1 H2. change [s] with ([] ++ [s] ++ []) at 1.
  apply among_app; [by apply among_silent|]. apply among_app; [apply among_refl|by apply among_silent].
Qed.

(** The registry once a channel without accesses has been dropped. *)
Lemma registry_drop w w' ch :
  chan_regs (cs w') = delete ch (chan_regs (cs w)) → member_regs (cs w') = member_regs (cs w) →
  registry_at w' = Registry (delete ch (names (registry_at w))) (list_of (registry_at w)).
Proof. intros E1 E2. unfold registry_at, registry_of. rewrite E1, E2. simpl. by rewrite fmap_delete. Qed.

Lemma remove_owner_acts p chan w w1 l1 m mr r ga args :
  along p w [] w w1 l1 → asks p chan S_C_OWNER w1 m mr r ga →
  wp (remove_owner p m args) (fun c w' => c = 1 ∧ acted DELOWNER p chan w w') w1.
Proof.
  intros A Ha. pose proof (al_path _ _ _ _ _ _ A) as P. pose proof (se_regs _ _ (pa_served _ _ _ _ P)) as Hr.
  pose proof Ha as [Elog Em Er Hn Hlv Hact Eg]. set (ch := mr_channel_reg mr) in *. unfold remove_owner.
  apply wp_bind. eapply path_err; [exact P|]. intros w2 P2 D2. pose proof (did_cs _ _ _ _ D2) as E2.
  apply wp_bind. eapply (path_delete_entry _ _ _ w2 m mr ga r); [exact P2|by rewrite E2
    |rewrite (sn_user_regs _ _ (did_net _ _ _ _ D2)); exact Eg|by rewrite E2|].
  intros w3 s P3 D3. assert (cs w3 = cs w1) as E3 by (by rewrite (did_cs _ _ _ _ D3)).
  assert (same_net w1 w3) as N3 by (etrans; [apply D2|apply D3]).
  assert (registry_at w3 = registry_at w1) as ER3 by (unfold registry_at; by rewrite E3).
  apply wp_bind. unfold free_member_reg. apply wp_bind. eapply wp_member_reg_at; [by rewrite E3|]. cbn zeta. fold ch.
  eapply path_unlink; [exact P3|by rewrite E3|]. intros w4 P4 D4. pose proof (se_regs _ _ (pa_served _ _ _ _ P4)) as Hr4.
  assert (registry_at w4 = Registry (names (registry_at w1)) (delete (ch, mr_user_reg mr) (list_of (registry_at w1)))) as ER4.
  { rewrite <- ER3. eapply registry_leave; [apply (se_regs _ _ (pa_served _ _ _ _ P3))|by rewrite E3|apply D4]. }
  assert (same_net w1 w4) as N4 by (etrans; [exact N3|apply D4]).
  set (r4 := r <| cr_users ::= rb_dlinkDelete m |>).
  assert (chan_regs (cs w4) !! ch = Some r4) as Er4.
  { rewrite (did_cs _ _ _ _ D4), E3. simpl. fold ch. by rewrite lookup_alter_eq, Er. }
  pose proof (registry_name _ _ _ Er) as HRn. pose proof (user_name _ _ _ Eg) as HRu.
  pose proof (asks_allowed _ _ _ _ _ _ _ _ Hr Ha) as HRa. fold ch in HRa.
  apply wp_bind. eapply wp_chan_reg_at; [exact Er4|]. destruct (is_nil (cr_users r4)) eqn:En.
  - assert (cr_users r4 = []) as Eu by (by destruct (cr_users r4)).
    eapply (wp_free_channel_reg p w4 ch r4); [apply P4|exact Er4|exact Eu|]. intros w5 l5 Hs5 T5 E5 F5.
    apply wp_ret. split; [done|].
    eapply acted_trail; [exact A|eapply trail_trans; [exact (path_trail _ _ _ _ P4)|exact T5]|].
    exists [s]. split; [rewrite <- app_assoc; apply among_last; [apply A|done]|].
    rewrite (registry_drop w4 w5 ch E5 F5), ER4. cbn [ChanAcl.names list_of].
    eapply acts_last; [exact HRn|done|done|exact HRu|exact HRa|].
    intros v Hv. destruct (list_of (registry_at w1) !! (ch, v)) as [e|] eqn:Ee; [|done].
    assert (list_of (registry_at w4) !! (ch, v) = Some e) as Ee4 by (rewrite ER4; simpl; rewrite lookup_delete_ne; [done|congruence]).
    apply acl_lookup in Ee4 as (x & xr & Ex & [= Exc _] & _); [|by eapply regs_distinct].
    rewrite <- Exc in Er4. pose proof (user_listed _ _ _ _ Hr4 Ex Er4) as Hx. rewrite Eu in Hx. by apply elem_of_nil in Hx.
  - assert (cr_users r4 ≠ []) as Eu by (by destruct (cr_users r4)).
    pose proof (ro_level _ _ Hr _ _ Em) as Hle. assert (mr_level mr =? S_C_OWNER = true) as -> by (apply Z.eqb_eq; unfold S_C_OWNER in *; lia).
    cbn [andb]. eapply path_promote; [exact P4|exact Er4|exact Eu|]. intros w5 u vn e myname P5 Hsuc Hvn ER5.
    apply wp_ret. split; [done|]. eapply acted_trail; [exact A|exact (path_trail _ _ _ _ P5)|].
    exists [s; s_owner S_C_OWNER myname (cr_name r4) vn]. split.
    + rewrite <- app_assoc. apply (among_app [] _ _ _ (among_silent _ (al_silent _ _ _ _ _ _ A))). apply among_refl.
    + rewrite ER5, ER4. cbn [ChanAcl.names list_of]. unfold myname. rewrite (sn_config _ _ N4).
      rewrite ER4 in Hsuc. simpl in Hsuc. unfold users_of in Hvn. rewrite (sn_user_regs _ _ N4) in Hvn.
      eapply acts_resign; [exact HRn|done|done|exact HRu|exact HRa|exact Hsuc|exact Hvn].
Qed.
End delowner.

(** What the database answers to the two queries of DELOWNER: at most one column,
    without NULL. *)
Class FetchOk `{SYS : Sys} `{CS : !ChanServ} : Prop :=
  fetch_column format args t d r d' :
    format ∈ ["SELECT COUNT(chname) FROM channels_dropowner WHERE chname='%Q' AND time > '%lu'";
              "SELECT token FROM channels_dropowner WHERE chname='%Q' AND time > '%lu'"]%string →
    formats quote_result format args t → sqlite3_get_table (c_text (take 2047 t)) d = (0, r, d') → one_column r.

Section tokens.
Context `{SYS : Sys} `{RB : !RbSpec} `{HK : !HooksOk} `{CS : !ChanServ} `{EH : !EndHooks} `{FO : !FetchOk}.

Definition some_cell (t : rsdb_table) : Prop := row_count t = O ∨ ∃ x rows, Rsdb.row t = [Some x] :: rows.

Lemma along_fetch p w0 l w format args (Q : rsdb_table → world → Prop) :
  path p w0 l w →
  format ∈ ["SELECT COUNT(chname) FROM channels_dropowner WHERE chname='%Q' AND time > '%lu'";
            "SELECT token FROM channels_dropowner WHERE chname='%Q' AND time > '%lu'"]%string →
  printable format args → silent (format, args) →
  (∀ t w', some_cell t → along p w0 l w w' [(format, args)] → cs w' = cs w → Q t w') → wp (on_db (rsdb_exec_fetch format args)) Q w.
Proof.
  intros P Hf Hp Hs HQ. destruct (printable_formats _ _ Hp) as [t Ht]. apply wp_on_db.
  eapply wp_conseq; [apply (wp_every _ (fun tb _ => some_cell tb) (fun tb d => rsdb_exec_fetch format args (db_get (mods w)) = Ok tb d));
    [apply (rsdb_exec_fetch_column format args t _ Ht); intros d r d'; by eapply fetch_column|done]|].
  cbn beta. intros tb d [Hc E]. apply HQ; [done| |unfold cs; simpl; by rewrite cs_get_db_set]. eapply along_exec; [exact P| |done].
  split; [by split|done|unfold cs; simpl; by rewrite cs_get_db_set|]. simpl. rewrite db_get_set. exists d. split; [|done]. right. by exists tb.
Qed.

Lemma wp_first_cell t (Q : string → world → Prop) w :
  some_cell t → row_count t ≠ O → (∀ x, Q x w) → wp (first_cell t) Q w.
Proof.
  intros [?|(x & rows & E)] Hn HQ; [done|]. unfold first_cell. rewrite E. apply wp_bind. eapply wp_need; [done|].
  apply wp_bind. eapply wp_need; [done|]. by eapply wp_need.
Qed.

Lemma path_can_send p w0 l w (Q : bool → world → Prop) :
  path p w0 l w → (∀ b w', along p w0 l w w' [] → Q b w') → wp can_send_email Q w.
Proof.
  intros P HQ. unfold can_send_email. apply wp_bind, (wp_gets (fun s => s)).
  destruct (_ <? _); [|by apply wp_ret, HQ, along_refl].
  apply wp_bind, wp_upd_cs. intros w' D. apply wp_ret, HQ. by eapply along_quiet.
Qed.

Lemma along_log p w0 l w line (Q : unit → world → Prop) :
  path p w0 l w → (∀ w', along p w0 l w w' [] → Q tt w') → wp (mlog line) Q w.
Proof.
  intros P HQ. apply wp_told; [apply quiet_mlog|apply keeps_mlog|]. intros [] w' D. by eapply HQ, along_quiet.
Qed.

Lemma along_next p w0 l w w1 w2 l1 l2 :
  along p w0 l w w1 l1 → (path p w0 (l ++ l1) w1 → along p w0 (l ++ l1) w1 w2 l2) → along p w0 l w w2 (l1 ++ l2).
Proof. intros A H. eapply along_trans; [exact A|]. apply H, A. Qed.

Lemma path_send_email p w0 l w address subject text (Q : bool → world → Prop) :
  path p w0 l w → (∀ b w', along p w0 l w w' [] → Q b w') → wp (send_email address subject text) Q w.
Proof.
  intros P HQ. unfold send_email. apply wp_bind, wp_gets. destruct (cf_disable_email _); [by apply wp_ret, HQ, along_refl|].
  apply wp_bind. eapply path_can_send; [exact P|]. intros b w1 A1. destruct b; [|by apply wp_ret, HQ]. cbn [negb].
  apply wp_bind, wp_upd_cs. intros w2 D2.
  assert (along p w0 l w w2 []) as A2 by (eapply (along_next _ _ _ _ _ _ [] []); [exact A1|]; intros P1; by eapply along_quiet).
  assert (∀ line, wp (_ ← mlog line; mret false) Q w2) as Hlog.
  { intros line. apply wp_bind. eapply along_log; [apply A2|]. intros w3 A3. apply wp_ret, HQ.
    eapply (along_next _ _ _ _ _ _ [] []); [exact A2|]. by rewrite app_nil_r in *. }
  destruct (is_empty _); [apply Hlog|]. apply wp_bind, (wp_gets (fun s => s)).
  destruct (mailer _ _ _ _); [apply Hlog|by apply wp_ret, HQ].
Qed.
End tokens.

Section delowner_command.
Context `{SYS : Sys} `{RB : !RbSpec} `{HK : !HooksOk} `{CS : !ChanServ} `{EH : !EndHooks} `{FO : !FetchOk}.

(** A refusal, or the news that a token is on its way. *)
Definition refused (p : ptr) (chan : string) (w : world) (c : Z) (w' : world) : Prop := (c = 1 ∨ c = 2) ∧ acted DELOWNER p chan w w'.

Lemma reply_refused p w w1 l1 chan name args : along p w [] w w1 l1 → wp (reply p name args) (refused p chan w) w1.
Proof. intros A. eapply (path_reply p w [] w1 l1 chan); [done..|]. intros w' H. split; [by left|done]. Qed.

(** When tokens were issued that still count. *)
Lemma since_range w p :
  served w p → 0 ≤ cf_cdelowner_duration (cs_config (cs w)) ≤ rb_time w →
  0 ≤ uint64 (rb_time w - cf_cdelowner_duration (cs_config (cs w))) < 10 ^ 18.
Proof. intros S Hd. pose proof (se_now _ _ S). unfold uint64. rewrite wrapU_small by lia. lia. Qed.

Lemma along_served p w0 l w w1 l1 : along p w0 l w w1 l1 → served w1 p.
Proof. intros A. apply (pa_served _ _ _ _ (al_path _ _ _ _ _ _ A)). Qed.

(** The two statements that put a token in the place of another. *)
Lemma along_replace_token p w0 l w chname token (k : M world Z) (Q : Z → world → Prop) :
  path p w0 l w → (strlen chname < 1024)%nat → (strlen token < 1024)%nat →
  (∀ w' l', along p w0 l w w' l' → wp k Q w') →
  wp (_ ← db_exec "INSERT INTO channels_dropowner (chname, token, time) VALUES('%Q', '%Q', '%lu')"
            [ArgStr (Some chname); ArgStr (Some token); ArgULong (rb_time w)]; k) Q w.
Proof.
  intros P H1 H2 HQ. pose proof (se_now _ _ (pa_served _ _ _ _ P)).
  apply wp_bind, wp_db_exec; [cbn; split_and!; try done; lia|]. intros w' D. by eapply HQ, along_exec.
Qed.

Lemma issue_token_refused p w w1 l1 chan u chname rname :
  along p w [] w w1 l1 → (strlen chname < 1024)%nat → 0 ≤ cf_cdelowner_duration (cs_config (cs w1)) ≤ rb_time w1 →
  wp (issue_token p u chname rname) (refused p chan w) w1.
Proof.
  intros A Hc Hd. pose proof (along_served _ _ _ _ _ _ A) as S.
  pose proof (sa_chanserv _ _ (al_same _ _ _ _ _ _ A)) as E1. unfold issue_token. apply wp_bind, (wp_gets (fun s => s)). cbn zeta.
  destruct (ureg_email _ !! u) as [email|]; [|by eapply reply_refused]. destruct (is_empty _); [by eapply reply_refused|].
  apply wp_bind. eapply along_fetch; [apply A|by left| |done|].
  { pose proof (since_range _ _ S Hd). cbn -[uint64]. split_and!; try done; lia. }
  intros t w2 Ht A2 _. apply (along_trans _ _ _ _ _ _ _ _ A) in A2. clear A.
  apply wp_bind, wp_when; intros Hrow; [apply wp_bind; eapply along_log; [apply A2|]; intros w3 _; apply wp_die|].
  apply wp_bind. eapply wp_first_cell; [exact Ht|by apply Nat.eqb_neq|]. intros count.
  destruct (negb _); [by eapply reply_refused|]. apply wp_bind. eapply path_can_send; [apply A2|]. intros can w3 A3.
  apply (along_trans _ _ _ _ _ _ _ _ A2) in A3. clear A2. destruct (negb can); [by eapply reply_refused|].
  apply wp_bind, wp_db_exec; [by cbn|]. intros w4 D4. eapply along_exec in D4 as A4; [|apply A3|done].
  apply (along_trans _ _ _ _ _ _ _ _ A3) in A4. clear A3 D4. apply wp_bind, (wp_gets (fun s => s)). cbn zeta.
  destruct (get_password_spec (rand w4) (rand_spec w4)) as (Hp & _).
  eapply along_replace_token; [apply A4|done|lia|]. intros w5 l5 A5. apply (along_trans _ _ _ _ _ _ _ _ A4) in A5. clear A4.
  pose proof (along_served _ _ _ _ _ _ A5) as S5. destruct (served_user w5 p S5) as (c & us & Ec & Eu).
  apply wp_bind. eapply wp_rd; [exact Ec|]. apply wp_bind. eapply wp_user_of; [done..|].
  apply wp_bind. destruct (ready_service _ _ _ (se_ready _ _ S5)) as (c' & sv & Ec' & _).
  rewrite (sa_chanserv _ _ (al_same _ _ _ _ _ _ A5)), <- E1 in Ec'. eapply wp_rd; [exact Ec'|].
  apply wp_bind. eapply path_send_email; [apply A5|]. intros sent w6 A6. apply (along_trans _ _ _ _ _ _ _ _ A5) in A6. clear A5.
  apply wp_bind. destruct (negb sent); eapply path_err; try apply A6; intros w7 P7 D7; apply wp_ret;
    (split; [by right|]); by eapply acted_along, along_reply.
Qed.

(** The owner is confirmed once more before anything happens. *)
Lemma asks_along p w0 l name level w w1 l1 m mr r ga :
  along p w0 l w w1 l1 → cs w1 = cs w → asks p name level w m mr r ga → asks p name level w1 m mr r ga.
Proof. intros A E Ha. eapply asks_same; [exact Ha|apply A|exact E]. Qed.

Lemma delowner_acts p w parv chan :
  served w p → 0 ≤ cf_cdelowner_duration (cs_config (cs w)) ≤ rb_time w → line_ok parv → parv !! 0%nat = Some chan →
  wp (s_chan_delowner p parv) (refused p chan w) w.
Proof.
  intros S Hd Hp E0. destruct (line_arg _ _ _ Hp E0) as [H0 _]. pose proof (path_start w p S) as P.
  assert (∀ w1 l1 m mr r ga args, along p w [] w w1 l1 → asks p chan S_C_OWNER w1 m mr r ga →
    wp (remove_owner p m args) (refused p chan w) w1) as Hremove.
  { intros w1 l1 m mr r ga args A Ha. eapply wp_conseq; [by eapply remove_owner_acts|]. intros c w' [-> ?]. split; [by left|done]. }
  unfold s_chan_delowner. apply wp_bind. eapply wp_arg_at; [done|]. apply wp_bind. eapply path_verify; [done..|].
  intros v w1 l1 A Hv. pose proof (along_served _ _ _ _ _ _ A) as S1.
  destruct v as [[m ch]|]; [|apply wp_ret; split; [by left|by eapply acted_along]].
  destruct (holds_asks w1 p chan S_C_OWNER m S1 Hv) as (mr & r & ga & Ha).
  destruct (served_user w1 p S1) as (c & us & Ec & Eu). apply wp_bind. eapply wp_user_of; [done..|].
  pose proof (as_login _ _ _ _ _ _ _ _ Ha) as El. rewrite (login_of_user _ _ _ _ Ec Eu) in El. apply wp_bind. eapply wp_need; [exact El|].
  apply wp_bind. eapply wp_names_of; [apply Ha..|]. cbn [nth]. apply wp_bind, wp_gets.
  destruct (negb _); [by eapply Hremove|].
  assert (0 ≤ cf_cdelowner_duration (cs_config (cs w1)) ≤ rb_time w1) as Hd1.
  { rewrite (sa_config _ _ (al_same _ _ _ _ _ _ A)), (sn_time _ _ (al_net _ _ _ _ _ _ A)). exact Hd. }
  destruct (ro_tidy _ _ (se_regs _ _ S1) _ _ (as_chan _ _ _ _ _ _ _ _ Ha)) as (_ & Hc & _).
  apply wp_bind, wp_argv; [apply lookup_lt_Some in E0; lia|]. destruct (parv !! 1%nat) as [token|]; [|by eapply issue_token_refused].
  destruct (is_empty _); [by eapply issue_token_refused|]. apply wp_bind, wp_gets.
  apply wp_bind. eapply along_fetch; [apply A|by right; left| |done|].
  { pose proof (since_range _ _ S1 Hd1). cbn -[uint64]. split_and!; try done; lia. }
  intros t w2 Ht A2 E2.
  pose proof (asks_along _ _ _ _ _ _ _ _ _ _ _ _ A2 E2 Ha) as Ha2. apply (along_trans _ _ _ _ _ _ _ _ A) in A2.
  destruct (row_count t =? 0)%nat eqn:En; [by eapply reply_refused|]. apply Nat.eqb_neq in En.
  apply wp_bind. eapply wp_first_cell; [exact Ht|done|]. intros cell. destruct (strcmp cell token =? 0); [|by eapply reply_refused].
  apply wp_bind, wp_db_exec; [by cbn|]. intros w3 D3. eapply along_exec in D3 as A3; [|apply A2|done].
  pose proof (asks_along _ _ _ _ _ _ _ _ _ _ _ _ A3 (did_cs _ _ _ _ D3) Ha2) as Ha3.
  eapply Hremove; [eapply along_trans; [exact A2|exact A3]|exact Ha3].
Qed.
End delowner_command.

(** ** CHANDROP *)
Section chandrop.
Context `{SYS : Sys} `{RB : !RbSpec} `{HK : !HooksOk} `{CS : !ChanServ} `{EH : !EndHooks}.

(** While the users of [ch] go, the accesses to other channels stay; the registration
    goes with the last. *)
Record emptying (p ch : ptr) (w : world) (todo : list ptr) (w' : world) : Prop := Emptying {
  em_trail : ∃ l, Forall silent l ∧ trail p w l w';
  em_others k : fst k ≠ ch → list_of (registry_at w') !! k = list_of (registry_at w) !! k;
  em_names : names (registry_at w') = match todo with [] => delete ch (names (registry_at w)) | _ => names (registry_at w) end
}.

Lemma emptying_step p ch w x l w' :
  emptying p ch w (x :: l) w' → users_of_creg ch w' = x :: l →
  wp (free_member_reg x false) (fun _ w'' => users_of_creg ch w'' = l ∧ emptying p ch w l w'') w'.
Proof.
  intros [(l0 & Hs & T) Ho En] Ex. pose proof (tr_served _ _ _ _ T) as S. pose proof (se_regs _ _ S) as Hr.
  unfold users_of_creg in Ex. destruct (chan_regs (cs w') !! ch) as [r|] eqn:Er; [|done].
  destruct (ro_users _ _ Hr ch r Er) as [_ Hu]. destruct (Hu x) as [Hx _]. destruct Hx as (mr & Em & Hc); [rewrite Ex; by left|].
  unfold to_chan in Hc. unfold free_member_reg. apply wp_bind. eapply wp_member_reg_at; [exact Em|]. cbn zeta.
  eapply path_unlink; [by apply path_start|exact Em|]. intros w1 P1 D1. rewrite Hc.
  pose proof (registry_leave w' w1 x mr Hr Em (did_cs _ _ _ _ D1)) as ER1.
  assert (∀ k, fst k ≠ ch → list_of (registry_at w1) !! k = list_of (registry_at w) !! k) as Ho1.
  { intros k Hk. rewrite <- (Ho k Hk), ER1. simpl. apply lookup_delete_ne. intros <-. by destruct Hk. }
  assert (trail p w l0 w1) as T1 by (rewrite <- (app_nil_r l0); eapply trail_trans; [exact T|by apply path_trail]).
  set (r1 := r <| cr_users := l |>).
  assert (chan_regs (cs w1) !! ch = Some r1) as Er1.
  { rewrite (did_cs _ _ _ _ D1). simpl. rewrite Hc, lookup_alter_eq, Er. simpl. unfold r1. do 2 f_equal.
    simpl. rewrite Ex, rb_dlinkDelete_spec by (by left). simpl. by rewrite decide_True. }
  apply wp_bind. eapply wp_chan_reg_at; [exact Er1|]. change (cr_users r1) with l. destruct l as [|y l]; cbn [is_nil].
  - eapply (wp_free_channel_reg p w1 ch r1); [apply P1|exact Er1|done|]. intros w2 l2 Hs2 T2 E2 F2.
    split; [unfold users_of_creg; by rewrite E2, lookup_delete_eq|].
    pose proof (registry_drop w1 w2 ch E2 F2) as ER2. split.
    + exists (l0 ++ l2). split; [by apply Forall_app|by eapply trail_trans].
    + intros k Hk. rewrite ER2. simpl. by apply Ho1.
    + rewrite ER2, ER1. cbn [ChanAcl.names]. by rewrite En.
  - rewrite andb_false_r. apply wp_ret. split; [unfold users_of_creg; by rewrite Er1|]. split; [by exists l0|done|].
    by rewrite ER1.
Qed.

Lemma wp_empty p ch r w (Q : unit → world → Prop) :
  served w p → chan_regs (cs w) !! ch = Some r → cr_users r ≠ [] →
  (∀ w', emptying p ch w [] w' → Q tt w') →
  wp (foreach_safe (users_of_creg ch) (fun m => free_member_reg m false)) Q w.
Proof.
  intros S Er Hne HQ. assert (users_of_creg ch w = cr_users r) as Eu by (unfold users_of_creg; by rewrite Er).
  apply (wp_foreach_safe_drain _ _ (emptying p ch w)); rewrite ?Eu.
  - apply (ro_users _ _ (se_regs _ _ S) ch r Er).
  - split; [exists []; split; [done|by apply path_trail, path_start]|done|]. by destruct (cr_users r).
  - intros x l w' Ex _ He. by apply emptying_step.
  - intros w' _. apply HQ.
Qed.

(** What is left then. *)
Lemma emptied_registry p ch w w' :
  emptying p ch w [] w' →
  registry_at w' = Registry (delete ch (names (registry_at w))) (filter (fun kv : key * row => fst (fst kv) ≠ ch) (list_of (registry_at w))).
Proof.
  intros [(l & _ & T) Ho En]. pose proof (se_regs _ _ (tr_served _ _ _ _ T)) as Hr.
  destruct (registry_at w') as [ns ls] eqn:ER. cbn [ChanAcl.names list_of] in *. rewrite En. f_equal. apply map_eq. intros k.
  destruct (decide (fst k = ch)) as [Hk|Hk].
  - rewrite map_lookup_filter_None_2 by (right; intros e _; simpl; tauto).
    destruct (ls !! k) as [e|] eqn:Ek; [|done]. assert (list_of (registry_at w') !! k = Some e) as Ek' by (by rewrite ER).
    apply acl_lookup in Ek' as (m & mr & Em & <- & _); [|by eapply regs_distinct].
    destruct (ro_member _ _ Hr m mr Em) as ([r Er] & _). apply registry_name in Er. rewrite ER in Er. simpl in Er, Hk.
    rewrite En, Hk, lookup_delete_eq in Er. done.
  - rewrite (Ho k Hk). apply option_eq. intros e. rewrite map_lookup_filter_Some. simpl. naive_solver.
Qed.

Lemma chandrop_acts p w parv chan :
  served w p → owned (registry_at w) → line_ok parv → parv !! 0%nat = Some chan →
  wp (o_chan_chandrop p parv) (fun c w' => c = 0 ∧ acted CHANDROP p chan w w') w.
Proof.
  intros S Ho Hp E0. destruct (line_arg _ _ _ Hp E0) as [H0 _]. pose proof (along_refl _ _ _ _ (path_start w p S)) as A.
  apply wp_bind. eapply wp_arg_at; [done|]. apply wp_bind, wp_find_channel_reg; [apply S|done|]. intros [ch|] Hf.
  2: { eapply wp_conseq; [by eapply path_free_reply|]. intros c w'. apply untouched_acted. }
  destruct Hf as (r & Er & Hn). apply wp_bind. eapply path_log; [apply A|]. intros w1 P1 D1.
  pose proof (along_reply _ _ _ _ _ _ _ A P1 D1) as A1. pose proof (did_cs _ _ _ _ D1) as E1.
  unfold destroy_channel_reg. apply wp_bind, wp_bind. eapply wp_chan_reg_at; [by rewrite E1|].
  destruct (ro_tidy _ _ (se_regs _ _ S) ch r Er) as (_ & Hc & _).
  apply wp_bind, wp_db_exec; [by cbn|]. intros w2 D2. set (s := s_drop (cr_name r)).
  assert (path p w [s] w2) as P2 by (eapply (path_same p w [] w1); [exact P1|exact D2|done]).
  assert (cs w2 = cs w) as E2 by (by rewrite (did_cs _ _ _ _ D2)).
  eapply (wp_empty p ch r); [apply P2|by rewrite E2| |].
  { destruct (Ho ch) as [u [(e & Ee & _) _]]; [eexists; by apply registry_name|].
    apply acl_lookup in Ee as (m & mr & Em & [= Emc _] & _); [|by eapply regs_distinct, (se_regs _ _ S)]. rewrite <- Emc in Er.
    pose proof (user_listed _ _ _ _ (se_regs _ _ S) Em Er) as Hm. intros En. rewrite En in Hm. by apply elem_of_nil in Hm. }
  intros w3 He. pose proof (emptied_registry _ _ _ _ He) as ER. destruct (em_trail _ _ _ _ _ He) as (l3 & Hs3 & T3).
  pose proof (tr_served _ _ _ _ T3) as S3. apply wp_bind, wp_gets. apply wp_bind.
  destruct (ready_service _ _ _ (se_ready _ _ S3)) as (svc & sv & Esvc & _). eapply wp_rd; [exact Esvc|].
  apply wp_bind. eapply path_err; [by apply path_start|]. intros w4 P4 D4. apply wp_ret. split; [done|].
  eapply acted_trail; [exact A1|eapply trail_trans; [exact (path_trail _ _ _ _ P2)|eapply trail_trans; [exact T3|exact (path_trail _ _ _ _ P4)]]|].
  exists [s]. split; [rewrite app_nil_r; apply (among_app [s] [s] [] l3); [apply among_refl|by apply among_silent]|].
  assert (registry_at w1 = registry_at w) as ER1 by (unfold registry_at; by rewrite E1).
  assert (registry_at w2 = registry_at w) as ER2 by (unfold registry_at; by rewrite E2).
  unfold registry_at in *. rewrite (did_cs _ _ _ _ D4), ER, ER2, ER1. unfold s.
  eapply acts_drop; [by apply registry_name|exact Hn].
Qed.
End chandrop.
