(* ===== verification/ChanSafe.v ===== *)
(** * What the channel service guarantees

    The theorems about the commands of [ChanServ.v] as a whole: what any of them may
    do, and what no sequence of them breaks, with the state at which the theorems are
    evaluated. *)

From S2P Require Import Prelude CString Match Rblib Tools Rserv Fault Snprintf Rsdb World Crypt Lookup Channel Service Conf Client Dispatch Net Members Index Handlers Joins Modes Clients Exits Commands Replies Release Linkup Requests Rehash Sample Access ChanServ ChanAcl ChanRegs ChanCmds Parting ChanLife.

Section guarantees.
Context `{SYS : Sys} `{RB : !RbSpec} `{HK : !HooksOk} `{CS : !ChanServ} `{EH : !EndHooks} `{FO : !FetchOk}.

(** A request that reaches the function of a command: with enough parameters, from a
    user who is logged in where that is asked for. *)
Record request (cmd : chan_command) (p : ptr) (parv : list string) (w : world) : Prop := Request {
  rq_served : served w p;
  rq_line : line_ok parv;
  rq_count : (minparc cmd ≤ length parv)%nat;
  rq_login : userreg cmd = true → is_Some (login_of w p);
  rq_since : 0 ≤ cf_cdelowner_duration (cs_config (cs w)) ≤ rb_time w
}.

(** The channel that a request is about. *)
Definition about (parv : list string) : string := nth 0 parv ""%string.

Definition outcome (cmd : chan_command) (p : ptr) (parv : list string) (w : world) (c : Z) (w' : world) : Prop :=
  c ∈ [0; 1; 2; 5] ∧ acted cmd p (about parv) w w'.

Lemma outcome_of cmd P p parv chan w :
  (∀ c, P c → c ∈ [0; 1; 2; 5]) → parv !! 0%nat = Some chan → ∀ m : M world Z,
  wp m (fun c w' => P c ∧ acted cmd p chan w w') w → wp m (outcome cmd p parv w) w.
Proof.
  intros HP E m Hm. eapply wp_conseq; [exact Hm|]. intros c w' [Hc Ha]. split; [by apply HP|].
  unfold about. by rewrite (nth_lookup_Some _ _ _ _ E).
Qed.

Lemma untouched_outcome cmd p parv w m : wp m (untouched p w) w → wp m (outcome cmd p parv w) w.
Proof.
  intros Hm. eapply wp_conseq; [exact Hm|]. intros c w' [-> [l A]]. split; [by left|by eapply acted_along].
Qed.

Lemma command_acts cmd p parv w :
  request cmd p parv w → owned (registry_at w) → wp (chan_func cmd p parv) (outcome cmd p parv w) w.
Proof.
  intros [S Hp Hc Hl Hd] Ho.
  assert (∀ i, (i < length parv)%nat → ∃ x, parv !! i = Some x) as Hx by (intros; by apply arg_there).
  destruct (Hx 0%nat) as [chan E0]; [destruct cmd; simpl in Hc; lia|].
  destruct cmd; simpl in Hc.
  - destruct (Hx 1%nat) as [x E1]; [lia|]. eapply (outcome_of _ (fun c => c = 0)); [by intros ? ->; left|exact E0|]. by eapply chanregister_acts.
  - eapply (outcome_of _ (fun c => c = 0)); [by intros ? ->; left|exact E0|]. by eapply chandrop_acts.
  - destruct (Hx 1%nat) as [x E1]; [lia|]. apply untouched_outcome. by eapply chansuspend_untouched.
  - apply untouched_outcome. by eapply chanunsuspend_untouched.
  - eapply (outcome_of _ (fun c => c = 1 ∨ c = 5)); [set_solver|exact E0|]. eapply register_acts; [done|by apply Hl|done..].
  - destruct (Hx 1%nat) as [x E1]; [lia|]. destruct (Hx 2%nat) as [y E2]; [lia|].
    eapply (outcome_of _ (fun c => c = 1)); [set_solver|exact E0|]. by eapply adduser_acts.
  - destruct (Hx 1%nat) as [x E1]; [lia|]. eapply (outcome_of _ (fun c => c = 1)); [set_solver|exact E0|]. by eapply deluser_acts.
  - eapply (outcome_of _ (fun c => c = 1 ∨ c = 2)); [set_solver|exact E0|]. by eapply delowner_acts.
  - destruct (Hx 1%nat) as [x E1]; [lia|]. destruct (Hx 2%nat) as [y E2]; [lia|].
    eapply (outcome_of _ (fun c => c = 1)); [set_solver|exact E0|]. by eapply moduser_acts.
  - destruct (Hx 1%nat) as [x E1]; [lia|]. destruct (Hx 2%nat) as [y E2]; [lia|].
    eapply (outcome_of _ (fun c => c = 1)); [set_solver|exact E0|]. by eapply modauto_acts.
  - destruct (Hx 1%nat) as [x E1]; [lia|]. destruct (Hx 2%nat) as [y E2]; [lia|].
    eapply (outcome_of _ (fun c => c = 1)); [set_solver|exact E0|]. by eapply suspend_acts.
  - destruct (Hx 1%nat) as [x E1]; [lia|]. eapply (outcome_of _ (fun c => c = 1)); [set_solver|exact E0|]. by eapply unsuspend_acts.
Qed.
End guarantees.

Section sessions.
Context `{SYS : Sys} `{RB : !RbSpec} `{HK : !HooksOk} `{CS : !ChanServ} `{EH : !EndHooks} `{FO : !FetchOk}.

Lemma command_run cmd p parv w c w' :
  request cmd p parv w → owned (registry_at w) → chan_func cmd p parv w = Ok c w' → outcome cmd p parv w c w'.
Proof. intros Hr Ho E. exact (wp_elim _ _ _ _ _ (command_acts cmd p parv w Hr Ho) E). Qed.

Lemma request_sound cmd p parv w : request cmd p parv w → sound (users_of w) (registry_at w).
Proof. intros Hr. apply regs_sound, (se_regs _ _ (rq_served _ _ _ _ Hr)). Qed.

(** Commands, one after the other, from any users. *)
Inductive session : world → world → Prop :=
| session_end w : session w w
| session_command w cmd p parv c w1 w2 :
    request cmd p parv w → chan_func cmd p parv w = Ok c w1 → session w1 w2 → session w w2.

(** C3.  Whatever a user asks of the channel service, the command ends without a
    fault in a state that commands can run in, and does to the registry of channels
    and accesses nothing or what [acts] allows that command - with the level that it
    needs, above the level of whom it is about - and what it does to the registry are
    the statements on the table of accesses that it runs, among others that do not
    touch that table. *)
Theorem commands_refine_acts (cmd : chan_command) (p : ptr) (parv : list string) (w : world) :
  request cmd p parv w → owned (registry_at w) →
  (∀ f, chan_func cmd p parv w ≠ Fault f) ∧
  ∀ c w', chan_func cmd p parv w = Ok c w' →
    served w' p ∧ ∃ l l2, executed l (db_get (mods w)) (db_get (mods w')) ∧ among l2 l ∧
      acts (users_of w) (cf_name (config_file w)) (about parv) (login_of w p) (registry_at w) cmd l2 (registry_at w').
Proof.
  intros Hr Ho. pose proof (command_acts cmd p parv w Hr Ho) as Hw. split; [intros f; by apply (wp_no_fault _ _ _ f Hw)|].
  intros c w' E. destruct (wp_elim _ _ _ _ _ Hw E) as [_ [S _ Hd]]. by split.
Qed.

(** C4.  No sequence of commands leaves a registered channel without an owner, with two
    owners, or with one who is suspended. *)
Theorem sessions_keep_owners (w w' : world) :
  session w w' → owned (registry_at w) → owned (registry_at w').
Proof.
  induction 1 as [w|w cmd p parv c w1 w2 Hr E _ IH]; [done|]. intros Ho. apply IH.
  destruct (command_run _ _ _ _ _ _ Hr Ho E) as [_ [_ _ (l & l2 & _ & _ & Ha)]].
  eapply acts_keep_owned; [exact Ha|by eapply request_sound|done].
Qed.

(** C6.  Memory and database agree: if the table of accesses holds exactly the accesses in
    memory, then after any sequence of commands what the statements run since make
    of the table is exactly the accesses in memory then. *)
Theorem sessions_mirror_table (w w' : world) (t : gmap (string * string) row) :
  session w w' → owned (registry_at w) → mirrored (users_of w) (registry_at w) t →
  ∃ l, executed l (db_get (mods w)) (db_get (mods w')) ∧ mirrored (users_of w') (registry_at w') (replay l t).
Proof.
  intros Hs. revert t. induction Hs as [w|w cmd p parv c w1 w2 Hr E _ IH]; intros t Ho Hm; [by exists []|].
  pose proof (request_sound _ _ _ _ Hr) as Hsound.
  destruct (command_run _ _ _ _ _ _ Hr Ho E) as [_ [S1 Eu (l & l2 & Hd & Hl & Ha)]].
  assert (users_of w1 = users_of w) as Eus by (unfold users_of; by rewrite Eu).
  destruct (IH (replay l t)) as (l' & Hd' & Hm').
  - eapply acts_keep_owned; [exact Ha|done|done].
  - rewrite Eus, (replay_among _ _ _ Hl). eapply acts_keep_mirrored; [|exact Ha|done|done].
    intros u v n. eapply regs_users_distinct, (se_regs _ _ (rq_served _ _ _ _ Hr)).
  - exists (l ++ l'). split; [by eapply executed_app|]. by rewrite replay_app.
Qed.

(** C5.  Nobody gives more than they have: an access that a command makes or raises ends
    below the level of the user who asked, who was not suspended; only the owner of a
    new registration, and the successor of an owner who gives the channel up, get
    the owner's level. *)
Theorem commands_do_not_escalate (cmd : chan_command) (p : ptr) (parv : list string) (w w' : world) (c : Z) (ch u : ptr) (e' : row) :
  request cmd p parv w → owned (registry_at w) → chan_func cmd p parv w = Ok c w' →
  list_of (registry_at w') !! (ch, u) = Some e' →
  (∃ e, list_of (registry_at w) !! (ch, u) = Some e ∧ rw_level e' ≤ rw_level e) ∨
  (∃ actor a, login_of w p = Some actor ∧ list_of (registry_at w) !! (ch, actor) = Some a ∧ rw_suspend a = 0 ∧
     rw_level e' < rw_level a) ∨
  names (registry_at w) !! ch = None ∨
  (∃ actor a, login_of w p = Some actor ∧ list_of (registry_at w) !! (ch, actor) = Some a ∧ rw_suspend a = 0 ∧
     rw_level a = S_C_OWNER ∧ list_of (registry_at w') !! (ch, actor) = None).
Proof.
  intros Hr Ho E Ee'. destruct (command_run _ _ _ _ _ _ Hr Ho E) as [_ [_ _ (l & l2 & _ & _ & Ha)]].
  pose proof (request_sound _ _ _ _ Hr) as Hs. by eapply acts_bounded.
Qed.
End sessions.

(** ** At a small registry

    Two users with registrations behind a hub, the channel service, and a channel that
    one owns and the other has access to. *)
Module Book.

(** A database that notes the statements run on it. *)
#[export] Instance noting : Sqlite := {|
  database := list string;
  sqlite3_exec := fun sql d => (0, d ++ [sql]);
  sqlite3_get_table := fun sql d => (0, SqlResult [] 0 0, d);
  sqlite3_last_insert_rowid := fun _ => 0
|}.

Definition book_modules : Modules := {| mod_state := chanserv * database |}.

#[export] Instance book_sys : Sys := {|
  sys_rb := rb_reference;
  sys_build := {| NICKLEN := 9; TOPICLEN := 160; RSERV_VERSION := "1.2.4"; SERIALNUM := "2012";
                  ENABLE_USERSERV := true; soft_assert := true |};
  sys_modules := book_modules;
  link_up := fun _ => true;
  hook_func := fun _ _ l w => Ok (0, l) w;
  command_func := fun _ _ _ w => Ok 1 w;
  svc_notice := fun _ _ args => String.concat " " args;
  dcc_chat := fun _ _ _ w => Ok tt w
|}.
#[export] Existing Instance rb_reference_spec.

#[export] Instance book_hooks : @HooksOk book_sys.
Proof. by apply still_hooks. Qed.

#[export] Instance book_service : @ChanServ book_sys := {|
  cs_sqlite := noting;
  cs_get := fst : @mod_state book_modules → chanserv;
  cs_set := fun c (m : @mod_state book_modules) => (c, snd m);
  db_get := snd;
  db_set := fun d (m : @mod_state book_modules) => (fst m, d);
  cs_get_set := fun _ _ => eq_refl;
  db_get_set := fun _ _ => eq_refl;
  cs_get_db_set := fun _ _ => eq_refl;
  db_get_cs_set := fun _ _ => eq_refl;
  rand := fun _ i => Z.of_nat i;
  rand_spec := fun _ i => Nat2Z.is_nonneg i;
  mailer := fun _ _ _ _ => None
|}.

#[export] Instance book_end : EndHooks.
Proof.
  intros w w' f p r _ [= <- <-]. split; [done|]. split; [done|]. split; [done|]. by exists [].
Qed.

#[export] Instance book_fetch : FetchOk.
Proof. intros format args t d r d' _ _ [= <- _] Hr. done. Qed.

(** The registrations. *)
Definition settings : chan_config := ChanConfig false 60 5 3600 2 3600 86400 false false (Some "/usr/sbin/sendmail"%string) 10 3600.
Definition blank : chanserv := Chanserv 5 5 ∅ ∅ ∅ ∅ ({[hash_name "alice" := [1%positive]]} ∪ {[hash_name "bob" := [2%positive]]})
  ∅ {[1%positive := "alice@home.example"%string]} 0 0 0 0 settings.
Definition alice_reg : user_reg := UserReg "alice" [3%positive] 0 0 0.
Definition bob_reg : user_reg := UserReg "bob" [4%positive] 0 0 0.
Definition regs : gmap ptr user_reg := {[1%positive := alice_reg; 2%positive := bob_reg]}.
Definition lounge_reg : chan_reg := zero_chan_reg <| cr_name := "#lounge" |> <| cr_tsinfo := 500 |>.
Definition with_lounge : chanserv := enter_channel 1 lounge_reg blank.
Definition with_alice : chanserv := enter_access 1 (MemberReg 1 1 200 0 0 0 "alice") with_lounge.
Definition books : chanserv := enter_access 2 (MemberReg 2 1 160 0 0 0 "alice") with_alice.

Lemma bucket_live (t : gmap Z (list ptr)) (m : gmap ptr user_reg) h u :
  map_Forall (fun _ l => Forall (fun x => is_Some (m !! x)) l) t → u ∈ bucket t h → is_Some (m !! u).
Proof.
  intros Hall Hu. unfold bucket in Hu. destruct (t !! h) as [l|] eqn:E; [|by apply elem_of_nil in Hu].
  pose proof (Hall h l E) as Hl. simpl in Hl. rewrite Forall_forall in Hl. by apply Hl.
Qed.

Lemma blank_ok : regs_ok regs blank.
Proof.
  split; try (intros *; simpl; rewrite lookup_empty; done).
  - intros h. split; [constructor|]. intros x. simpl. split; [by intros ?%elem_of_nil|]. intros (r & E & _). by rewrite lookup_empty in E.
  - intros u _. simpl. rewrite lookup_empty. split; [constructor|]. intros x. split; [by intros ?%elem_of_nil|].
    intros (r & E & _). simpl in E. by rewrite lookup_empty in E.
  - intros h u Hu. refine (bucket_live _ _ h u _ Hu). apply (bool_decide_unpack _). vm_compute. exact I.
  - assert (map_Forall (fun _ r => (strlen (ur_name r) < 1024)%nat) regs) as Hall by (apply (bool_decide_unpack _); vm_compute; exact I).
    intros u r E. exact (Hall u r E).
  - assert (map_Forall (fun u r => map_Forall (fun v r' => ur_name r = ur_name r' → u = v) regs) regs) as Hall
      by (apply (bool_decide_unpack _); vm_compute; exact I).
    intros u v r r' E E'. exact (Hall u r E v r' E').
Qed.

Lemma books_ok : regs_ok regs books.
Proof.
  apply regs_enter; [apply regs_enter; [apply regs_found; [exact blank_ok|..]|..]|..]; try done; try (by eexists); try (simpl; lia).
  split_and!; [done|simpl; lia|done|done|constructor].
Qed.

(** The network. *)
Definition chan_service : service :=
  Service "chanserv" "services.example" "CHANSERV" 0 0 [] 0 0 0 None None None None 0 0 0 0 None None.
Definition service_client : client := zero_client <| cl_name := "chanserv" |> <| cl_uid := "0SVAAAAAA" |>
  <| cl_service := Some chan_service |>.
Definition user_of_reg (name : string) (reg : ptr) : user := zero_user <| us_username := name |> <| us_host := "home.example" |>
  <| us_servername := 1%positive |> <| us_mask := Some (name ++ "!" ++ name ++ "@home.example")%string |> <| us_user_reg := Some reg |>.
Definition user_client (name uid : string) (reg : ptr) : client := zero_client <| cl_name := name |> <| cl_uid := uid |>
  <| cl_user := Some (user_of_reg name reg) |> <| cl_uplink := Some 1%positive |>.

Definition bare_world : world :=
  (initial_world quiet_config 1000000000 (books, []))
    <| server_p := Some (Lconn (Some 1%positive) "hub.example" (Some "1AA"%string) CONN_FLAGS_SENTBURST 0 0 "") |>
    <| user_regs := regs |>.
Definition hub_world : world := enter_client 1 hub bare_world.
Definition service_world : world := service_on 5 service_client (insert_service 5 service_client hub_world).
Definition alice_world : world := enter_client 3 (user_client "alice" "1AAAAAAAA" 1) service_world.
Definition network : world := enter_client 4 (user_client "bob" "1AAAAAAAB" 2) alice_world.
Definition book : world := network <| watchserv_p := Some 5%positive |>.

Lemma book_good : good book.
Proof.
  assert (good hub_world) as G1.
  { unfold hub_world. apply new_client_inv; try (done || by right). apply bare_good. by split. }
  assert (good service_world) as G2.
  { unfold service_world. apply (service_on_good 5 service_client chan_service); [|simpl; apply lookup_insert_eq|done|done].
    by apply (insert_service_good hub_world 5 service_client chan_service). }
  assert (good alice_world) as G3.
  { unfold alice_world. apply new_client_inv; try (done || by left).
    - intros q [= <-]. there.
    - intros r [= <-]. by eexists.
    - split; by intros l [= <-]. }
  assert (good network) as G4.
  { unfold network. apply new_client_inv; try (done || by left).
    - intros q [= <-]. there.
    - intros r [= <-]. by eexists.
    - split; by intros l [= <-]. }
  by apply good_watchserv.
Qed.

Lemma book_clients (P : ptr → client → Prop) : map_Forall P (clients book) → ∀ p c, clients book !! p = Some c → P p c.
Proof. intros H p c. apply H. Qed.

Lemma book_requests : requests_ok book.
Proof.
  split.
  - intros o Ho. by apply elem_of_nil in Ho.
  - exists 5%positive. eexists. split; [reflexivity|]. split; vm_compute; reflexivity.
  - intros p c u Ec Eu. assert (p ∈ dom (clients book)) as Hp by (by apply elem_of_dom_2 in Ec).
    assert (dom (clients book) = {[1; 3; 4; 5]}%positive) as Hd by (vm_compute; reflexivity).
    rewrite Hd in Hp. repeat (apply elem_of_union in Hp as [Hp|Hp]); apply elem_of_singleton in Hp as ->;
      vm_compute in Ec; injection Ec as <-; vm_compute in Eu; try discriminate; injection Eu as <-; by eexists.
  - intros p c s Ec Es [l El]. assert (p ∈ dom (clients book)) as Hp by (by apply elem_of_dom_2 in Ec).
    assert (dom (clients book) = {[1; 3; 4; 5]}%positive) as Hd by (vm_compute; reflexivity).
    rewrite Hd in Hp. repeat (apply elem_of_union in Hp as [Hp|Hp]); apply elem_of_singleton in Hp as ->;
      vm_compute in Ec; injection Ec as <-; vm_compute in Es; try discriminate; injection Es as <-; vm_compute in El; discriminate.
  - intros o b key Eb. vm_compute in Eb. discriminate.
Qed.

Lemma book_ready p : p = 3%positive ∨ p = 4%positive → ready book 5 p.
Proof.
  intros Hp. split; [exact book_good|exact book_requests| |eexists; split; vm_compute; reflexivity].
  destruct Hp as [->| ->]; there.
Qed.

Lemma book_served p : p = 3%positive ∨ p = 4%positive → served book p.
Proof.
  intros Hp. split; [by apply book_ready|by apply book_ready|exact books_ok|done|simpl; lia|..].
  - intros o b Eb. vm_compute in Eb. discriminate.
  - intros q ch Eq. vm_compute in Eq. discriminate.
  - intros h q Hq. vm_compute in Hq. by apply elem_of_nil in Hq.
Qed.
End Book.

(** *** What alice asks for *)
Section asked.
Import Book.

Definition after (m : M world Z) (w : world) : world := match m w with Ok _ w' => w' | _ => w end.

(** Bob's level is lowered, and then alice gives the channel up. *)
Definition lowered : world := after (chan_func MODUSER 3 ["#lounge"; "bob"; "120"]%string) book.
Definition given_up : world := after (chan_func DELOWNER 3 ["#lounge"]%string) lowered.

Lemma line_checked parv : forallb (fun x => no_nul x && (strlen x <? BUFSIZE)%nat) parv = true → line_ok parv.
Proof.
  intros H. apply Forall_forall. intros x Hx. rewrite forallb_forall in H.
  specialize (H x (proj1 (list_elem_of_In _ _) Hx)). apply andb_true_iff in H as [? ?%Nat.ltb_lt]. by split.
Qed.

Lemma book_request cmd parv :
  line_ok parv → (minparc cmd ≤ length parv)%nat → request cmd 3 parv book.
Proof.
  intros Hp Hc. split; [apply book_served; by left|done|done| |].
  - intros _. exists 1%positive. vm_compute. reflexivity.
  - vm_compute. by split.
Qed.

Lemma book_registry : registry_at book =
  Registry {[1%positive := "#lounge"%string]}
    (<[(1, 1)%positive := Row 200 0 0 "alice"]> {[(1, 2)%positive := Row 160 0 0 "alice"%string]}).
Proof. vm_compute. reflexivity. Qed.

Lemma two_owned n f b r : rw_level r ≠ S_C_OWNER →
  owned (Registry {[1%positive := n]} (<[(1, 1)%positive := Row S_C_OWNER f 0 b]> {[(1, 2)%positive := r]})).
Proof.
  intros Hr. unfold owned. cbn [ChanAcl.names list_of]. intros ch [cn [<- _]%lookup_singleton_Some]. exists 1%positive. split.
  - eexists. split; [apply lookup_insert_eq|done].
  - intros v e [[[= <-] _]|[_ [[= <-] <-]%lookup_singleton_Some]]%lookup_insert_Some; [done|]. done.
Qed.

Lemma book_owned : owned (registry_at book).
Proof. rewrite book_registry. by apply two_owned. Qed.

Lemma lowered_registry : registry_at lowered =
  Registry {[1%positive := "#lounge"%string]}
    (<[(1, 1)%positive := Row 200 0 0 "alice"]> {[(1, 2)%positive := Row 120 0 0 "alice"%string]}).
Proof. vm_compute. reflexivity. Qed.

Lemma lowered_run : chan_func MODUSER 3 ["#lounge"; "bob"; "120"]%string book = Ok 1 lowered.
Proof. vm_compute. reflexivity. Qed.
Lemma given_up_run : chan_func DELOWNER 3 ["#lounge"]%string lowered = Ok 1 given_up.
Proof. vm_compute. reflexivity. Qed.

Lemma lowered_request : request DELOWNER 3 ["#lounge"]%string lowered.
Proof.
  assert (outcome MODUSER 3 ["#lounge"; "bob"; "120"]%string book 1 lowered) as [_ Ha].
  { eapply (command_run MODUSER); [apply book_request; [by apply line_checked|by apply Nat.leb_le]|exact book_owned|exact lowered_run]. }
  split; [apply Ha|by apply line_checked|by apply Nat.leb_le| |].
  - intros _. exists 1%positive. vm_compute. reflexivity.
  - vm_compute. by split.
Qed.

Lemma book_session : session book given_up.
Proof.
  eapply session_command; [|exact lowered_run|].
  - apply book_request; [by apply line_checked|by apply Nat.leb_le].
  - eapply session_command; [exact lowered_request|exact given_up_run|]. apply session_end.
Qed.

Lemma book_mirrored : mirrored (users_of book) (registry_at book)
  (<[("#lounge", "alice")%string := Row 200 0 0 "alice"]> {[("#lounge", "bob")%string := Row 160 0 0 "alice"%string]}).
Proof.
  rewrite book_registry. assert (users_of book = {[1%positive := "alice"%string; 2%positive := "bob"%string]}) as -> by (vm_compute; reflexivity).
  intros cn un e. simpl. split.
  - intros [[[= <- <-] <-]|[_ [[= <- <-] <-]%lookup_singleton_Some]]%lookup_insert_Some.
    + exists 1%positive, 1%positive. split; [done|]. split; [done|]. apply lookup_insert_eq.
    + exists 1%positive, 2%positive. done.
  - intros (ch & u & [<- <-]%lookup_singleton_Some & Eu & [[[= <-] <-]|[_ [[= <-] <-]%lookup_singleton_Some]]%lookup_insert_Some).
    + vm_compute in Eu. injection Eu as <-. apply lookup_insert_eq.
    + vm_compute in Eu. injection Eu as <-. done.
Qed.
End asked.

Section witnesses.
Import Book.

(** Bob, whose level is 160, cannot change alice's; alice can change his. *)
Lemma commands_refine_acts_witness :
  request MODUSER 3 ["#lounge"; "bob"; "120"]%string book ∧ ∃ w', chan_func MODUSER 3 ["#lounge"; "bob"; "120"]%string book = Ok 1 w' ∧
    list_of (registry_at w') !! (1, 2)%positive = Some (Row 120 0 0 "alice") ∧
    ∃ l l2, executed l [] (db_get (mods w')) ∧ among l2 l ∧
      acts (users_of book) "services.example" "#lounge" (Some 1%positive) (registry_at book) MODUSER l2 (registry_at w').
Proof.
  assert (request MODUSER 3 ["#lounge"; "bob"; "120"]%string book) as Hr by (apply book_request; [by apply line_checked|by apply Nat.leb_le]).
  split; [exact Hr|]. exists lowered. split; [exact lowered_run|]. split; [vm_compute; reflexivity|].
  exact (proj2 (proj2 (commands_refine_acts MODUSER 3 ["#lounge"; "bob"; "120"]%string book Hr book_owned) 1 lowered lowered_run)).
Defined.

Lemma sessions_keep_owners_witness :
  session book given_up ∧ owned (registry_at given_up) ∧
  list_of (registry_at given_up) !! (1, 2)%positive = Some (Row 200 0 0 "services.example").
Proof.
  split; [exact book_session|]. split; [exact (sessions_keep_owners book given_up book_session book_owned)|].
  vm_compute. reflexivity.
Defined.

Lemma sessions_mirror_table_witness :
  ∃ l, executed l [] (db_get (mods given_up)) ∧
    mirrored (users_of given_up) (registry_at given_up)
      (replay l (<[("#lounge", "alice")%string := Row 200 0 0 "alice"]> {[("#lounge", "bob")%string := Row 160 0 0 "alice"%string]})).
Proof. exact (sessions_mirror_table book given_up _ book_session book_owned book_mirrored). Defined.

(** Bob gets the owner's level, so alice has given it up. *)
Lemma commands_do_not_escalate_witness :
  list_of (registry_at given_up) !! (1, 2)%positive = Some (Row 200 0 0 "services.example"%string) ∧
  list_of (registry_at given_up) !! (1, 1)%positive = None.
Proof.
  assert (list_of (registry_at given_up) !! (1, 2)%positive = Some (Row 200 0 0 "services.example"%string)) as El by (vm_compute; reflexivity).
  split; [exact El|].
  assert (owned (registry_at lowered)) as Ho by (rewrite lowered_registry; by apply two_owned).
  pose proof (commands_do_not_escalate DELOWNER 3 ["#lounge"]%string lowered given_up 1 1 2 _ lowered_request Ho given_up_run El) as H.
  rewrite lowered_registry in H. assert (login_of lowered 3 = Some 1%positive) as Elog by (vm_compute; reflexivity). rewrite Elog in H.
  destruct H as [(e & E & Hl)|[(actor & a & [= <-] & E & _ & Hl)|[E|(actor & a & [= <-] & _ & _ & _ & E)]]].
  - exfalso. vm_compute in E. injection E as <-. vm_compute in Hl. by destruct Hl.
  - exfalso. vm_compute in E. injection E as <-. vm_compute in Hl. discriminate Hl.
  - exfalso. vm_compute in E. discriminate E.
  - exact E.
Defined.
End witnesses.
